(* ===== verification/_CoqProject ===== *)
-Q . S2P
Prelude.v
Memory.v
Bits.v
CString.v
Printf.v
AllocPhys.v
AllocPage.v
Alloc.v
Paging.v
Vm.v
Ept.v
PciConf.v
Pci.v
PciUtil.v
PciMsi.v
Smp.v
Desc.v
Isr.v
Report.v
Virtio.v
DeviceTree.v
PciHost.v
Apic.v
Vmalloc.v
Iommu.v
Crc32.v
Argv.v
PageCtl.v
VmxCtl.v
VmxRun.v
ConfRegs.v
PciTest.v
PciSuite.v
Boot.v
Cpus.v
E1000e.v
NetInit.v
