(* ===== verification/Prelude.v ===== *)
(** * Verification of the ACRN validation-test guest library

    The repository holds bare-metal test programs that run as guests of the ACRN
    hypervisor, and the C library they are linked with, derived from
    kvm-unit-tests: acrn-unit-test/guest/lib.  This development models the
    library in its x86_64 build.  All paths below are relative to
    src/acrn-unit-test/guest.

    ** How the program is put together

    At boot x86/cstart64.S starts the other processors ([bringup_ap] of
    lib/x86/misc.c), [setup_multiboot] (lib/x86/setup.c) gives the memory to the
    early allocator (lib/alloc_phys.c), and [setup_env] and [__setup_args] prepare
    the environment and the arguments (lib/argv.c).  Processors call each other
    through lib/x86/smp.c.  A test then calls [setup_vm] (lib/vmalloc.c), which hands
    the rest of the memory to the page allocator (lib/alloc_page.c), builds the
    page tables (lib/x86/vm.c) and makes the virtual allocator the backend of
    [malloc] (lib/alloc.c).  Tests install handlers for exceptions and interrupts
    (lib/x86/desc.c, lib/x86/isr.c), program the interrupt controllers
    (lib/x86/apic.c) and devices behind PCI (lib/pci.c, lib/pci_util.c,
    lib/pci_msi.c), the device tree (lib/devicetree.c, lib/pci-host-generic.c),
    virtqueues (lib/virtio.c) and the IOMMU (lib/x86/intel-iommu.c), and report
    with lib/report.c through lib/printf.c and lib/string.c.  Two groups of test
    programs are modelled: the tests of nested virtualization, which run a guest
    of their own under the conditions they list (x86/hsi_virtual_spec.c,
    x86/hsi_vmx_general.c and the files beside it), and the tests of the PCI
    configuration space (x86/pci.c).

    ** The files

    Prelude      w-bit integers ([wrap], [swrap] and their lemmas), the state
                 monad [prog] with its weakest preconditions, loops ([iter],
                 [for_up]), the spin lock, the tactics.
    Memory       byte memory: the loads and stores of the C types.
    Bits         the macros of lib/libcflat.h and lib/bitops.h.
    CString      lib/string.c and lib/util.c.
    Printf       lib/printf.c.
    AllocPhys    lib/alloc_phys.c: the regions handed out by the early allocator.
    AllocPage    lib/alloc_page.c: the free list, in the pages themselves.
    Alloc        lib/alloc.c against the interface [AllocOps] (struct alloc_ops),
                 which the page allocator is shown to implement.
    Paging       tables of four levels in memory: the walk, and what writing an
                 entry changes; shared by Vm, Ept, Iommu and PageCtl.
    Vm           lib/x86/vm.c against the interface [PageAlloc]; [translate] is
                 the walk of the processor.
    Vmalloc      lib/vmalloc.c; [setup_vm] composes AllocPhys, AllocPage and Vm.
    PciConf      the port and memory accesses ([PortIO]) and the configuration
                 mechanism ([Conf1Laws]); lib/x86/asm/pci.h.
    Pci, PciUtil, PciMsi   lib/pci.c, lib/pci_util.c, lib/pci_msi.c.
    Smp          lib/x86/smp.c: all interleavings of the processors.
    Desc, Isr    lib/x86/desc.c and lib/x86/isr.c: descriptors, the dispatch of
                 exceptions, the machine code of the interrupt thunks.
    Report       lib/report.c.
    Virtio       lib/virtio.c with the device as the other half of the system.
    DeviceTree   lib/devicetree.c over libfdt as an interface ([Fdt]).
    PciHost      lib/pci-host-generic.c over [PciLib] and [Fdt].
    Apic         lib/x86/apic.c over the processor and the two controllers.
    Iommu        lib/x86/intel-iommu.c and [ioremap] of lib/x86/io.c.
    PageCtl      the functions on page tables of lib/x86/misc.c and
                 lib/x86/memory_type.c, on the tables of Vm.
    Crc32        x86/crc32.c.
    Argv         lib/argv.c.
    Ept          the extended page tables of x86/hsi_virtual_spec.c.
    VmxCtl       the set-up of VMX operation and of the VMCS, the conditions that
                 change its controls, the bitmaps (x86/hsi_virtual_spec.c,
                 x86/hsi_vmx_general.c, x86/hsi_vmx_general2.c).
    VmxRun       entries, exits and their handlers, and the loop that runs a suite
                 of conditions and cases in a guest.
    ConfRegs     the configuration space as a file of registers ([RegLaws]), on
                 which the accesses of PciUtil are operations on a store.
    PciTest      the test cases of x86/pci.c that [main] reaches and a logic for
                 them ([tw]).
    PciSuite     [main] of x86/pci.c in the non-safety build, and the registers
                 that its cases require of a machine.
    Boot         what x86/cstart64.S calls before [main]: lib/x86/setup.c composed
                 with AllocPhys and Argv; lib/x86/acpi.c, lib/x86/fwcfg.c, the walk
                 of the stack (lib/x86/stack.c).
    Cpus         the start of the processors (lib/x86/misc.c, x86/cstart64.S): all
                 interleavings, and the interrupts that start them, by Apic.
    E1000e       lib/e1000e.c over PciUtil, PciMsi and the processor: the source of
                 interrupts of the tests.
    NetInit      [e1000e_init] of E1000e on a machine with the controller, whose
                 configuration space is that of ConfRegs.

    A C function keeps its name.  A function that only reads memory is a
    function of the memory; a function that writes memory and can run into an
    undefined access returns an [option]; the drivers are programs of type
    [prog St A]: they take a state, a Record with one field per static variable,
    and end with a result or with the reason why they stop (a failed assertion,
    an endless loop, an exhausted bound, undefined behaviour).  Hardware and
    code that is not in the repository's own files (libfdt) are type classes:
    one for the operations, one for the documented laws, and an instance that
    shows that the laws can hold.

    ** What the theorems show

    Memory management: the blocks of a sequence of early allocations do not
    overlap; page runs are aligned, adjacent and taken off the list; [memalign]
    and [free] keep blocks apart and return them; [install_page] changes one
    translation only and [setup_mmu] is the identity mapping; [setup_vm] leaves
    the invariant of the virtual allocator, whose blocks are backed by fresh
    pages.  Concurrency: [on_cpu] excludes itself, each request runs once, no
    call hangs.  Boot: [start64] hands [main] the
    memory, the arguments and the environment; all processors are recorded and
    counted in every order they start in; the ACPI table that is asked for is
    found.  Text: [vsnprintf] prints what the format describes and stays in
    its buffer; printing and reading a number are inverse; [memmove] and
    [simple_glob] are right for all inputs; arguments and environment are found
    again.  Exceptions and interrupts: gates, the dispatch and the outcome of
    [test_for_exception], the code of a thunk, the modes of the local APIC as a
    refinement of a mode machine, the interrupt that [apic_icr_write] sends.
    Devices: sizes and addresses of PCI regions, the walk of the capability list,
    the enumeration, the windows of the host bridge, virtqueues as a bounded
    queue, the address translation and interrupt remapping of the IOMMU, the
    memory types that tests give to pages, the functions that an interrupt of the
    network controller calls, the set-up of the local APIC by its driver, and its
    whole initialization.
    Virtualization: the VMCS that is set up is well formed, the extended tables map
    what they are asked to, the bitmaps and controls change where they should, and
    the loop of the tests runs a suite of conditions to its end.  PCI tests: exactly the registers
    that the read-only test and the toggling test accept, the cases that
    cannot fail, and that on a machine with the required registers [main] runs all
    its cases with success.  The check values of [Crc32_ComputeBuf] are those of
    the polynomial division and detect every burst of 32 bits.  Where the code does not do what it means to,
    the theorem states what it does.

    ** Fuel

    A C loop without a bound takes a [fuel].  The theorems ask for a fuel above
    the length of the string, list or table the loop goes through, and conclude
    that the function returns; the loops that poll a device take the number of
    polls after which the device answers from its laws.  The fuel of [vmx_run] is
    the number of exits of the guest that runs.  In [Smp] the steps are a
    relation, and termination is a measure that decreases.

    ** Not modelled

    The text of progress messages, where it is a constant.  Assembler: the change
    to 64-bit mode and the set-up of the descriptors at the start, the entry stubs
    of exceptions and interrupts, code16_lib.c.  Thin
    wrappers of single instructions and tables of constants: processor.h, msr.h,
    xsave.h, register_op.c, regdump.h and the rest of memory_type.c.  [smp_init]
    of smp.c, which stores the number of each processor in its own segment, and the
    changes of the privilege level and the register dumps of misc.c.  Drivers that
    are not part of the x86 build (chr-testdev.c, pci-testdev.c, virtio-mmio.c) or
    that no program calls (pci-edu.c).  The vendored lib/libfdt.  Of the tests of nested
    virtualization: the condition functions that VmxRun does not list, the
    second interface of guests (enter_guest, test_set_guest), messages.  Of
    x86/pci.c: what follows the [return 0] of [main], [main] of the safety build
    (which does not compile), the cases of the start-up values of the processors,
    and what is in #if 0.  The other test programs under
    x86/ execute instructions of the real processor and compare what happens
    with the expectation; a model of them would be a model of the processor.
    The other directories hold documents, patches of the hypervisor and scripts. *)

From stdpp Require Export base tactics list option numbers gmap strings.
From Stdlib Require Export ZArith Lia.

#[global] Open Scope Z_scope.
Coercion Z.of_nat : nat >-> Z.

(** ** Machine-width integers

    A [w]-bit unsigned C integer is a [Z] in [[0, 2^w)]; a cast or an
    arithmetic operation that can leave the range is written out with the
    functions below.  [s8]/[s32]/[s64] are the casts to the two's-complement
    signed types. *)

Definition wrap (w x : Z) : Z := x mod 2 ^ w.
Definition swrap (w x : Z) : Z := (x + 2 ^ (w - 1)) mod 2 ^ w - 2 ^ (w - 1).

Abbreviation u8 := (wrap 8).
Abbreviation u16 := (wrap 16).
Abbreviation u32 := (wrap 32).
Abbreviation u64 := (wrap 64).
Abbreviation s8 := (swrap 8).
Abbreviation s16 := (swrap 16).
Abbreviation s32 := (swrap 32).
Abbreviation s64 := (swrap 64).

(** [mlia]: linear arithmetic with the division and modulus equations, after
    unfolding the width functions. *)
Ltac mlia :=
  unfold wrap, swrap in *; cbn [Z.sub Z.opp Z.add Z.pos_sub] in *;
  Z.div_mod_to_equations; lia.

Lemma wrap_range w x : 0 <= w -> 0 <= wrap w x < 2 ^ w.
Proof. intros. apply Z.mod_pos_bound. apply Z.pow_pos_nonneg; lia. Qed.

Lemma wrap_small w x : 0 <= x < 2 ^ w -> wrap w x = x.
Proof. apply Z.mod_small. Qed.

Lemma wrap_wrap w x : wrap w (wrap w x) = wrap w x.
Proof. unfold wrap. apply Zmod_mod. Qed.

Lemma wrap_0 w : wrap w 0 = 0.
Proof. apply Zmod_0_l. Qed.

Lemma wrap_add_l w x y : wrap w (wrap w x + y) = wrap w (x + y).
Proof. unfold wrap. apply Zplus_mod_idemp_l. Qed.

Lemma wrap_add_r w x y : wrap w (x + wrap w y) = wrap w (x + y).
Proof. unfold wrap. apply Zplus_mod_idemp_r. Qed.

Lemma swrap_small w x : 1 <= w -> - 2 ^ (w - 1) <= x < 2 ^ (w - 1) -> swrap w x = x.
Proof.
  intros Hw Hx. unfold swrap.
  assert (2 ^ w = 2 * 2 ^ (w - 1)) as E
    by (rewrite <- Z.pow_succ_r by lia; f_equal; lia).
  rewrite Z.mod_small; lia.
Qed.

(** The signed value of an unsigned one: what a cast of a [w]-bit quantity to
    the signed type of the same width gives. *)
Lemma swrap_cases w x :
  1 <= w -> 0 <= x < 2 ^ w ->
  swrap w x = if x <? 2 ^ (w - 1) then x else x - 2 ^ w.
Proof.
  intros Hw Hx. unfold swrap.
  assert (2 ^ w = 2 * 2 ^ (w - 1)) as E
    by (rewrite <- Z.pow_succ_r by lia; f_equal; lia).
  assert (0 < 2 ^ (w - 1)) by (apply Z.pow_pos_nonneg; lia).
  destruct (Z.ltb_spec x (2 ^ (w - 1))).
  - rewrite Z.mod_small; lia.
  - rewrite <- (Z.mod_add _ (-1)) by lia. rewrite Z.mod_small; lia.
Qed.

(** ** Bit vectors *)

Lemma testbit_wrap w x i :
  0 <= w -> Z.testbit (wrap w x) i = (i <? w) && Z.testbit x i.
Proof.
  intros Hw. unfold wrap. destruct (Z.ltb_spec i w); cbn.
  - destruct (decide (0 <= i)).
    + apply Z.mod_pow2_bits_low. lia.
    + rewrite !Z.testbit_neg_r by lia. done.
  - apply Z.mod_pow2_bits_high. lia.
Qed.

Lemma testbit_ones n i :
  0 <= n -> Z.testbit (Z.ones n) i = (0 <=? i) && (i <? n).
Proof.
  intros Hn. destruct (Z.leb_spec 0 i); cbn.
  - destruct (Z.ltb_spec i n); [apply Z.ones_spec_low | apply Z.ones_spec_high]; lia.
  - apply Z.testbit_neg_r. lia.
Qed.

Lemma testbit_pow2 n i : 0 <= n -> Z.testbit (2 ^ n) i = (i =? n).
Proof.
  intros Hn. rewrite Z.pow2_bits_eqb by lia. apply Z.eqb_sym.
Qed.

Create Rewrite HintDb zbits.
#[export] Hint Rewrite Z.land_spec Z.lor_spec Z.lxor_spec Z.ldiff_spec Z.bits_0 : zbits.
#[export] Hint Rewrite Z.shiftl_spec Z.shiftr_spec Z.lnot_spec testbit_wrap testbit_ones
  testbit_pow2 using lia : zbits.

(** [zbits]: an equation between bit vectors becomes one between their [i]-th
    bits, with the comparisons on [i] decided by cases. *)
Ltac zcases :=
  repeat match goal with
  | |- context [?a <? ?b] => destruct (Z.ltb_spec a b)
  | |- context [?a <=? ?b] => destruct (Z.leb_spec a b)
  | |- context [?a =? ?b] => destruct (Z.eqb_spec a b)
  end.
Ltac zbits_intro i := apply Z.bits_inj'; intros i ?; autorewrite with zbits.
Ltac zbits :=
  let i := fresh "i" in
  zbits_intro i; zcases; cbn; try done;
  try (rewrite ?andb_true_r, ?andb_false_r, ?orb_false_r, ?orb_true_r; done).

Lemma land_range a b w : 0 <= a < 2 ^ w -> 0 <= b -> 0 <= w -> 0 <= Z.land a b < 2 ^ w.
Proof.
  intros Ha Hb Hw. split; [apply Z.land_nonneg; lia |].
  rewrite <- (wrap_small w a) by lia.
  assert (Z.land (wrap w a) b = wrap w (Z.land a b)) as -> by zbits.
  apply wrap_range. lia.
Qed.

Lemma lor_range a b w :
  0 <= a < 2 ^ w -> 0 <= b < 2 ^ w -> 0 <= w -> 0 <= Z.lor a b < 2 ^ w.
Proof.
  intros Ha Hb Hw. rewrite <- (wrap_small w a), <- (wrap_small w b) by lia.
  assert (Z.lor (wrap w a) (wrap w b) = wrap w (Z.lor a b)) as -> by zbits.
  apply wrap_range. lia.
Qed.

(** Disjoint bit vectors: [or] is addition. *)
Lemma lor_add a b n :
  0 <= n -> 0 <= b < 2 ^ n -> Z.lor (a * 2 ^ n) b = a * 2 ^ n + b.
Proof.
  intros Hn Hb. symmetry. rewrite <- Z.shiftl_mul_pow2 by lia.
  rewrite <- Z.lxor_lor; [apply Z.add_nocarry_lxor |];
    zbits_intro i; rewrite <- (wrap_small n b) by lia; rewrite testbit_wrap by lia;
    destruct (Z.ltb_spec i n); cbn; rewrite ?andb_false_r; try done;
    rewrite Z.testbit_neg_r by lia; done.
Qed.

(** ** Programs

    The C functions that change state are state-passing computations.  They
    return ([Ret]) or do not ([Stop]): a failed [assert] ends in [abort], which
    never returns ([Halt]); a wait on a condition nothing can establish any
    more is [Spin]; [NoFuel] is the bound on the iterations of a loop that has
    no structural measure; [Undef] is undefined behaviour of C (an access
    outside an array, a missing variadic argument). *)

Inductive stop := Halt | Spin | NoFuel | Undef.

Inductive outcome (A : Type) :=
| Ret (a : A)
| Stop (why : stop).
Arguments Ret {A} a.
Arguments Stop {A} why.

Definition prog (St A : Type) : Type := St → outcome (A * St).

#[export] Instance prog_ret St : MRet (prog St) := λ _ a s, Ret (a, s).
#[export] Instance prog_bind St : MBind (prog St) := λ _ _ k m s,
  match m s with Ret (a, s') => k a s' | Stop e => Stop e end.

Section Programs.
Context {St : Type}.

Definition get : prog St St := λ s, Ret (s, s).
Definition gets {A} (f : St → A) : prog St A := λ s, Ret (f s, s).
Definition modify (f : St → St) : prog St unit := λ s, Ret ((), f s).
Definition stop_with {A} (e : stop) : prog St A := λ _, Stop e.
(** [assert(b)] of libcflat.h: prints and aborts when [b] is false. *)
Definition assert (b : bool) : prog St unit := if b then mret () else stop_with Halt.

(** A loop without a structural measure: [body] gives the next loop state or
    the result. *)
Fixpoint iter {X A} (fuel : nat) (body : X → prog St (X + A)) (x : X) : prog St A :=
  match fuel with
  | O => stop_with NoFuel
  | S f => r ← body x; match r with inl x' => iter f body x' | inr a => mret a end
  end.

(** Total correctness: [m] returns, and its result and final state satisfy [Q]. *)
Definition wp {A} (m : prog St A) (Q : A → St → Prop) (s : St) : Prop :=
  match m s with Ret (a, s') => Q a s' | Stop _ => False end.

Lemma wp_run {A} (m : prog St A) Q s :
  wp m Q s ↔ ∃ a s', m s = Ret (a, s') ∧ Q a s'.
Proof.
  unfold wp. destruct (m s) as [[a s']|e]; split; [eauto | | done |].
  - by intros (? & ? & [= -> ->] & ?).
  - by intros (? & ? & ? & ?).
Qed.

Lemma wp_exact {A} (m : prog St A) a s' s (Q : A → St → Prop) :
  m s = Ret (a, s') → Q a s' → wp m Q s.
Proof. intros E H. unfold wp. by rewrite E. Qed.

Lemma wp_ret {A} (a : A) (Q : A → St → Prop) s : Q a s → wp (mret a) Q s.
Proof. done. Qed.

Lemma wp_bind {A B} (m : prog St A) (k : A → prog St B) Q s :
  wp m (λ a s', wp (k a) Q s') s → wp (m ≫= k) Q s.
Proof. unfold wp, mbind, prog_bind. by destruct (m s) as [[a s']|e]. Qed.

Lemma wp_mono {A} (m : prog St A) (Q Q' : A → St → Prop) s :
  wp m Q s → (∀ a s', Q a s' → Q' a s') → wp m Q' s.
Proof. unfold wp. destruct (m s) as [[a s']|e]; naive_solver. Qed.

Lemma wp_and {A} (m : prog St A) (P Q : A → St → Prop) s :
  wp m P s → wp m Q s → wp m (λ a s', P a s' ∧ Q a s') s.
Proof. unfold wp. by destruct (m s) as [[a s']|]. Qed.

Lemma wp_gets {A} (f : St → A) (Q : A → St → Prop) s : Q (f s) s → wp (gets f) Q s.
Proof. done. Qed.

Lemma wp_get (Q : St → St → Prop) s : Q s s → wp get Q s.
Proof. done. Qed.

Lemma wp_modify (f : St → St) (Q : unit → St → Prop) s : Q () (f s) → wp (modify f) Q s.
Proof. done. Qed.

Lemma wp_assert (b : bool) (Q : unit → St → Prop) s :
  b = true → Q () s → wp (assert b) Q s.
Proof. by intros ->. Qed.

(** Loop rule: an invariant indexed by a measure that each iteration
    decreases; fuel above the measure is enough. *)
Lemma wp_iter {X A} (Inv : nat → X → St → Prop) (body : X → prog St (X + A)) Q :
  (∀ n x s, Inv n x s →
     wp (body x) (λ r s', match r with
                          | inl x' => ∃ n', (n' < n)%nat ∧ Inv n' x' s'
                          | inr a => Q a s'
                          end) s) →
  ∀ fuel n x s, Inv n x s → (n < fuel)%nat → wp (iter fuel body x) Q s.
Proof.
  intros Hstep fuel. induction fuel as [|fuel IH]; intros n x s HI Hlt; [lia|].
  cbn. apply wp_bind. eapply wp_mono; [by apply Hstep|].
  intros [x'|a] s' Hr; [|by apply wp_ret].
  destruct Hr as (n' & Hn' & HI'). apply (IH n'); [done|lia].
Qed.

(** [for (i = from; i < from + n; i++)] *)
Fixpoint for_up {X} (n : nat) (i : Z) (body : Z → X → prog St X) (x : X) : prog St X :=
  match n with O => mret x | S n' => x ← body i x; for_up n' (i + 1) body x end.

Lemma wp_for_up {X} (Inv : Z → X → St → Prop) n i (body : Z → X → prog St X) x Q s :
  (∀ j x s, i <= j < i + Z.of_nat n → Inv j x s → wp (body j x) (Inv (j + 1)) s) →
  Inv i x s → (∀ x s, Inv (i + Z.of_nat n) x s → Q x s) → wp (for_up n i body x) Q s.
Proof.
  revert i x s. induction n as [|n IH]; intros i x s Hb Hi HQ; cbn [for_up].
  - apply wp_ret, HQ. by rewrite Z.add_0_r.
  - apply wp_bind. eapply wp_mono; [apply Hb; [lia|done]|]. intros x' s' Hi'.
    apply IH; [|done|].
    + intros j x1 s1 Hj. apply Hb. lia.
    + intros x1 s1 H1. apply HQ. by replace (i + Z.of_nat (S n)) with (i + 1 + Z.of_nat n) by lia.
Qed.

(** Exact outcome: [m] returns in a state that satisfies [Q], or stops with a
    reason that satisfies [E]. *)
Definition wpe {A} (m : prog St A) (Q : A → St → Prop) (E : stop → Prop) (s : St) : Prop :=
  match m s with Ret (a, s') => Q a s' | Stop e => E e end.

Lemma wpe_wp {A B} (m : prog St A) (k : A → prog St B) Q E s :
  wp m (λ a s', wpe (k a) Q E s') s → wpe (m ≫= k) Q E s.
Proof. unfold wp, wpe, mbind, prog_bind. by destruct (m s) as [[a s']|e]. Qed.

Lemma wpe_bind {A B} (m : prog St A) (k : A → prog St B) Q E s :
  wpe m (λ a s', wpe (k a) Q E s') E s → wpe (m ≫= k) Q E s.
Proof. unfold wpe, mbind, prog_bind. by destruct (m s) as [[a s']|e]. Qed.

Lemma wpe_ret {A} (a : A) (Q : A → St → Prop) (E : stop → Prop) s : Q a s → wpe (mret a) Q E s.
Proof. done. Qed.

Lemma wpe_assert (b : bool) (Q : unit → St → Prop) (E : stop → Prop) s :
  (b = true → Q () s) → (b = false → E Halt) → wpe (assert b) Q E s.
Proof. unfold wpe, assert. destruct b; cbn; auto. Qed.

Lemma wpe_mono {A} (m : prog St A) (Q Q' : A → St → Prop) (E E' : stop → Prop) s :
  wpe m Q E s → (∀ a s', Q a s' → Q' a s') → (∀ e, E e → E' e) → wpe m Q' E' s.
Proof. unfold wpe. destruct (m s) as [[a s']|e]; auto. Qed.

Lemma wp_of_wpe {A} (m : prog St A) (Q : A → St → Prop) s : wpe m Q (λ _, False) s ↔ wp m Q s.
Proof. done. Qed.
End Programs.

#[global] Arguments wp : simpl never.
#[global] Arguments wpe : simpl never.

(** Running a computation on a part of the state. *)
Definition zoom {S T A} (rd : S → T) (wr : T → S → S) (m : prog T A) : prog S A := λ s,
  match m (rd s) with Ret (a, t) => Ret (a, wr t s) | Stop e => Stop e end.

Lemma wp_zoom {S T A} (rd : S → T) (wr : T → S → S) (m : prog T A) Q s :
  wp m (λ a t, Q a (wr t s)) (rd s) → wp (zoom rd wr m) Q s.
Proof. unfold wp, zoom. by destruct (m (rd s)) as [[a t]|e]. Qed.

(** A spin lock as one cpu sees it: [spin_lock] of a lock that is held never
    returns, since nobody else runs to release it. *)
Definition spin_lock {S} (rd : S → bool) (wr : bool → S → S) : prog S unit :=
  held ← gets rd; if (held : bool) then stop_with Spin else modify (wr true).
Definition spin_unlock {S} (wr : bool → S → S) : prog S unit := modify (wr false).

Lemma wp_spin_lock {S} (rd : S → bool) wr (Q : unit → S → Prop) s :
  rd s = false → Q () (wr true s) → wp (spin_lock rd wr) Q s.
Proof. intros Hl HQ. unfold wp, spin_lock, mbind, prog_bind. cbn. by rewrite Hl. Qed.

Lemma wp_spin_unlock {S} (wr : bool → S → S) (Q : unit → S → Prop) s :
  Q () (wr false s) → wp (spin_unlock wr) Q s.
Proof. done. Qed.

(** [wstep] runs the symbolic execution of a program by one instruction. *)
Ltac wstep :=
  lazymatch goal with
  | |- wp (_ ≫= _) _ _ => apply wp_bind
  | |- wp (mret _) _ _ => apply wp_ret
  | |- wp get _ _ => apply wp_get
  | |- wp (gets _) _ _ => apply wp_gets
  | |- wp (modify _) _ _ => apply wp_modify
  | |- wp (assert _) _ _ => apply wp_assert
  | |- wp (zoom _ _ _) _ _ => apply wp_zoom
  | |- wp (spin_lock _ _) _ _ => apply wp_spin_lock
  | |- wp (spin_unlock _) _ _ => apply wp_spin_unlock
  end; cbn beta.
Ltac wsteps := repeat wstep.
