(* ===== verification/Memory.v ===== *)
(** * Byte-addressed memory

    The guest runs on the bare machine with an identity mapping, so every
    address can be read and written.  [mem] maps an address to the byte stored
    there, an address never written reads as 0.  Pointers are [Z]: forming a
    pointer past the end of the address space is undefined in C, and the
    functions that compute with [uintptr_t] write the wrap-around out. *)

From S2P Require Import Prelude.

Abbreviation mem := (gmap Z Z).

(** [*(u8 * )a] *)
Definition rd8 (m : mem) (a : Z) : Z := u8 (default 0 (m !! a)).
Definition wr8 (m : mem) (a v : Z) : mem := <[a := u8 v]> m.

(** [*(char * )a]: [char] is signed on x86. *)
Definition rdc (m : mem) (a : Z) : Z := s8 (rd8 m a).

(** Little-endian accesses of [n] bytes: [*(u16 * )a], [*(u32 * )a], [*(u64 * )a]. *)
Fixpoint ldn (n : nat) (m : mem) (a : Z) : Z :=
  match n with
  | O => 0
  | S n' => rd8 m a + 2 ^ 8 * ldn n' m (a + 1)
  end.

Fixpoint stn (n : nat) (m : mem) (a v : Z) : mem :=
  match n with
  | O => m
  | S n' => stn n' (wr8 m a v) (a + 1) (v / 2 ^ 8)
  end.

Abbreviation ld16 := (ldn 2).
Abbreviation ld32 := (ldn 4).
Abbreviation ld64 := (ldn 8).
Abbreviation st16 := (stn 2).
Abbreviation st32 := (stn 4).
Abbreviation st64 := (stn 8).

(** The bytes stored from address [a] on. *)
Fixpoint rdl (m : mem) (a : Z) (n : nat) : list Z :=
  match n with O => [] | S n' => rd8 m a :: rdl m (a + 1) n' end.

Fixpoint wrl (m : mem) (a : Z) (l : list Z) : mem :=
  match l with [] => m | b :: l' => wrl (wr8 m a b) (a + 1) l' end.

(** ** Bytes *)

Lemma rd8_range m a : 0 <= rd8 m a < 2 ^ 8.
Proof. by apply wrap_range. Qed.

Lemma rd8_wr8 m a b v : rd8 (wr8 m a v) b = if decide (a = b) then u8 v else rd8 m b.
Proof.
  unfold rd8, wr8. destruct (decide (a = b)) as [->|Hne].
  - rewrite lookup_insert_eq. cbn. apply wrap_wrap.
  - by rewrite lookup_insert_ne.
Qed.

Lemma rd8_wr8_same m a v : rd8 (wr8 m a v) a = u8 v.
Proof. rewrite rd8_wr8. by rewrite decide_True. Qed.

Lemma rd8_wr8_other m a b v : a ≠ b → rd8 (wr8 m a v) b = rd8 m b.
Proof. intros. rewrite rd8_wr8. by rewrite decide_False. Qed.

Lemma rd8_empty a : rd8 ∅ a = 0.
Proof. unfold rd8. by rewrite lookup_empty. Qed.

Lemma rdc_zero m a : rdc m a = 0 ↔ rd8 m a = 0.
Proof.
  pose proof (rd8_range m a). unfold rdc.
  rewrite swrap_cases by lia. destruct (Z.ltb_spec (rd8 m a) (2 ^ (8 - 1))); lia.
Qed.

Lemma rdc_inj m m' a b : rdc m a = rdc m' b ↔ rd8 m a = rd8 m' b.
Proof.
  pose proof (rd8_range m a). pose proof (rd8_range m' b). unfold rdc.
  rewrite !swrap_cases by lia.
  destruct (Z.ltb_spec (rd8 m a) (2 ^ (8 - 1))), (Z.ltb_spec (rd8 m' b) (2 ^ (8 - 1))); lia.
Qed.

(** ** Equal memories: the same byte at every address *)

Definition meq (m1 m2 : mem) : Prop := ∀ a, rd8 m1 a = rd8 m2 a.
Infix "≡ₘ" := meq (at level 70).

#[export] Instance meq_equiv : Equivalence meq.
Proof. split; unfold meq; [done | congruence |]. intros m1 m2 m3 H1 H2 a. by rewrite H1. Qed.

#[export] Instance rd8_proper : Proper (meq ==> eq ==> eq) rd8.
Proof. intros m1 m2 H a b ->. apply H. Qed.

#[export] Instance rdc_proper : Proper (meq ==> eq ==> eq) rdc.
Proof. intros m1 m2 H a b ->. unfold rdc. by rewrite H. Qed.

#[export] Instance wr8_proper : Proper (meq ==> eq ==> eq ==> meq) wr8.
Proof. intros m1 m2 H a b -> v w -> x. rewrite !rd8_wr8. by rewrite H. Qed.

#[export] Instance ldn_proper n : Proper (meq ==> eq ==> eq) (ldn n).
Proof.
  intros m1 m2 H a b ->. revert b. induction n as [|n IH]; intros b; cbn; [done|].
  by rewrite H, IH.
Qed.

#[export] Instance stn_proper n : Proper (meq ==> eq ==> eq ==> meq) (stn n).
Proof.
  intros m1 m2 H a b -> v w ->. revert m1 m2 H b w.
  induction n as [|n IH]; intros m1 m2 H b w; cbn; [done|]. apply IH. by rewrite H.
Qed.

(** ** Words *)

Lemma ldn_range (n : nat) m a : 0 <= ldn n m a < 2 ^ (8 * n).
Proof.
  revert a. induction n as [|n IH]; intros a; cbn [ldn]; [lia|].
  pose proof (rd8_range m a). pose proof (IH (a + 1)).
  assert (2 ^ (8 * S n) = 2 ^ 8 * 2 ^ (8 * n)) as ->
    by (rewrite <- Z.pow_add_r by lia; f_equal; lia). lia.
Qed.

Lemma rd8_stn_other (n : nat) m a v x : (x < a ∨ a + n <= x) → rd8 (stn n m a v) x = rd8 m x.
Proof.
  revert m a v. induction n as [|n IH]; intros m a v Hx; cbn [stn]; [done|].
  rewrite IH by lia. apply rd8_wr8_other. lia.
Qed.

Lemma ldn_ext (n : nat) m1 m2 a :
  (∀ i, a <= i < a + n → rd8 m1 i = rd8 m2 i) → ldn n m1 a = ldn n m2 a.
Proof.
  revert a. induction n as [|n IH]; intros a H; cbn [ldn]; [done|].
  rewrite H, IH by (intros; try apply H; lia). done.
Qed.

Lemma ldn_stn_other (n k : nat) m a b v :
  (b + n <= a ∨ a + k <= b) → ldn n (stn k m a v) b = ldn n m b.
Proof. intros H. apply ldn_ext. intros i Hi. apply rd8_stn_other. lia. Qed.

Lemma ldn_stn_same (n : nat) m a v : ldn n (stn n m a v) a = wrap (8 * n) v.
Proof.
  revert m a v. induction n as [|n IH]; intros m a v; cbn [ldn stn].
  - unfold wrap. cbn. by rewrite Z.mod_1_r.
  - rewrite IH, rd8_stn_other, rd8_wr8_same by lia. unfold wrap.
    assert (2 ^ (8 * S n) = 2 ^ 8 * 2 ^ (8 * n)) as ->
      by (rewrite <- Z.pow_add_r by lia; f_equal; lia).
    rewrite Z.rem_mul_r by (try lia; apply Z.pow_nonzero; lia). done.
Qed.

Lemma ldn_split (n k : nat) m a : ldn (n + k) m a = ldn n m a + 2 ^ (8 * n) * ldn k m (a + n).
Proof.
  revert a. induction n as [|n IH]; intros a; cbn [ldn Nat.add].
  - rewrite Z.add_0_r. change (2 ^ (8 * 0%nat)) with 1. lia.
  - rewrite IH. replace (a + 1 + n) with (a + S n) by lia.
    assert (2 ^ (8 * S n) = 2 ^ 8 * 2 ^ (8 * n)) as ->
      by (rewrite <- Z.pow_add_r by lia; f_equal; lia). ring.
Qed.

Lemma ldn_zero (n : nat) m a : (∀ i, a <= i < a + n → rd8 m i = 0) → ldn n m a = 0.
Proof.
  revert a. induction n as [|n IH]; intros a H; cbn [ldn]; [done|].
  rewrite H, IH by (intros; try apply H; lia). done.
Qed.

Lemma ld64_range m a : 0 <= ld64 m a < 2 ^ 64.
Proof. apply (ldn_range 8). Qed.

Lemma ld64_st64_same m a v : 0 <= v < 2 ^ 64 → ld64 (st64 m a v) a = v.
Proof. intros. rewrite ldn_stn_same. by apply wrap_small. Qed.

(** ** Byte strings *)

Lemma rdl_length m a n : length (rdl m a n) = n.
Proof. revert a. induction n; intros; cbn; auto. Qed.

Lemma rdl_lookup m a n i :
  (i < n)%nat → rdl m a n !! i = Some (rd8 m (a + Z.of_nat i)).
Proof.
  revert a i. induction n as [|n IH]; intros a [|i] Hi; cbn; try lia.
  - by rewrite Z.add_0_r.
  - rewrite IH by lia. do 2 f_equal. lia.
Qed.

Lemma rdl_app m a n k : rdl m a (n + k) = rdl m a n ++ rdl m (a + Z.of_nat n) k.
Proof.
  revert a. induction n as [|n IH]; intros a; cbn.
  - by rewrite Z.add_0_r.
  - rewrite IH. do 3 f_equal. lia.
Qed.

Lemma rdl_ext m1 m2 a b (n : nat) :
  (∀ i, 0 <= i < n → rd8 m1 (a + i) = rd8 m2 (b + i)) → rdl m1 a n = rdl m2 b n.
Proof.
  revert a b. induction n as [|n IH]; intros a b H; cbn; [done|]. f_equal.
  - specialize (H 0). rewrite !Z.add_0_r in H. apply H. lia.
  - apply IH. intros i Hi. specialize (H (1 + i)). rewrite !Z.add_assoc in H. apply H. lia.
Qed.

Lemma rd8_wrl_other m a l x : (x < a ∨ a + length l <= x) → rd8 (wrl m a l) x = rd8 m x.
Proof.
  revert m a. induction l as [|b l IH]; intros m a H; cbn in *; [done|].
  rewrite IH by lia. apply rd8_wr8_other. lia.
Qed.

Lemma rdl_wrl_same m a l :
  Forall (λ b, 0 <= b < 2 ^ 8) l → rdl (wrl m a l) a (length l) = l.
Proof.
  intros HF. revert m a. induction HF as [|b l Hb HF IH]; intros m a; cbn; [done|].
  rewrite rd8_wrl_other, rd8_wr8_same, IH by lia. by rewrite wrap_small.
Qed.

Lemma wrl_app m a l k : wrl m a (l ++ k) = wrl (wrl m a l) (a + length l) k.
Proof.
  revert m a. induction l as [|b l IH]; intros m a; cbn.
  - by rewrite Z.add_0_r.
  - rewrite IH. f_equal. lia.
Qed.

Lemma rdl_wrl m a l : rdl (wrl m a l) a (length l) = u8 <$> l.
Proof.
  revert m a. induction l as [|b l IH]; intros m a; cbn; [done|].
  rewrite rd8_wrl_other, rd8_wr8_same by lia. f_equal. apply IH.
Qed.

Create Rewrite HintDb mem.
#[export] Hint Rewrite rd8_wr8_same rd8_empty : mem.
#[export] Hint Rewrite rd8_wr8_other rd8_stn_other ldn_stn_other ld64_st64_same using lia : mem.

#[global] Opaque rd8 wr8.
#[global] Arguments ldn : simpl never.
#[global] Arguments stn : simpl never.
