(* ===== verification/Bits.v ===== *)
(** * Alignment, masks and bit search: libcflat.h and bitops.h

    The macros [ALIGN], [IS_ALIGNED], [GENMASK_ULL], [is_power_of_2] and [fls] on
    64-bit unsigned words, and what they compute. *)

From S2P Require Import Prelude.

Abbreviation PAGE_SHIFT := 12.
Abbreviation PAGE_SIZE := 4096.

(** [~x] on 64 bits. *)
Definition not64 (x : Z) : Z := 2 ^ 64 - 1 - x.

(** [__ALIGN_MASK(x, a - 1)] *)
Definition ALIGN (x a : Z) : Z := Z.land (u64 (x + u64 (a - 1))) (not64 (u64 (a - 1))).

Definition IS_ALIGNED (x a : Z) : bool := Z.land x (u64 (a - 1)) =? 0.

(** [(((~0ULL) << l) & (~0ULL >> (64 - 1 - h)))] *)
Definition GENMASK_ULL (h l : Z) : Z :=
  Z.land (u64 (Z.shiftl (2 ^ 64 - 1) l)) (Z.shiftr (2 ^ 64 - 1) (64 - 1 - h)).

(** [(n & (n - 1)) == 0], and not for 0 *)
Definition is_power_of_2 (n : Z) : bool := negb (n =? 0) && (Z.land n (u64 (n - 1)) =? 0).

(** One halving step of [fls]: when the top [k] bits of [word] are 0, drop them. *)
Definition fls_step (k : Z) (nw : Z * Z) : Z * Z :=
  let '(num, word) := nw in
  if Z.land word (u64 (Z.shiftl (2 ^ 64 - 1) (64 - k))) =? 0
  then (num - k, u64 (Z.shiftl word k)) else (num, word).

Definition fls (word : Z) : Z :=
  let nw := fls_step 2 (fls_step 4 (fls_step 8 (fls_step 16 (fls_step 32 (63, word))))) in
  let '(num, word) := nw in
  if Z.land word (u64 (Z.shiftl (2 ^ 64 - 1) 63)) =? 0 then num - 1 else num.

(** ** What they compute *)

Lemma not64_ones k : 0 <= k <= 64 → not64 (Z.ones k) = Z.shiftl (Z.ones (64 - k)) k.
Proof.
  intros Hk. unfold not64. rewrite Z.shiftl_mul_pow2, !Z.ones_equiv by lia.
  assert (2 ^ 64 = 2 ^ (64 - k) * 2 ^ k) as E
    by (rewrite <- Z.pow_add_r by lia; f_equal; lia). lia.
Qed.

Lemma mask_low x k : 0 <= k → Z.land x (2 ^ k - 1) = x mod 2 ^ k.
Proof. intros Hk. rewrite Z.sub_1_r, <- Z.ones_equiv. by apply Z.land_ones. Qed.

Lemma pow2_pred k : 0 <= k < 64 → u64 (2 ^ k - 1) = 2 ^ k - 1.
Proof.
  intros Hk. apply wrap_small.
  assert (2 ^ k < 2 ^ 64) by (apply Z.pow_lt_mono_r; lia).
  assert (0 < 2 ^ k) by (apply Z.pow_pos_nonneg; lia). lia.
Qed.

(** Selecting the bits of a 64-bit word from [k] on. *)
Lemma land_high x k :
  0 <= k <= 64 → 0 <= x < 2 ^ 64 →
  Z.land x (Z.shiftl (Z.ones (64 - k)) k) = x - x mod 2 ^ k.
Proof.
  intros Hk Hx.
  assert (Z.land x (Z.shiftl (Z.ones (64 - k)) k) = Z.shiftl (Z.shiftr x k) k) as ->.
  { rewrite <- (wrap_small 64 x) by lia. apply Z.bits_inj'. intros i Hi.
    rewrite Z.land_spec, !Z.shiftl_spec, testbit_ones by lia.
    destruct (decide (k <= i)).
    - rewrite Z.shiftr_spec, Z.sub_add, testbit_wrap by lia.
      zcases; cbn; rewrite ?andb_true_r, ?andb_false_r; try done; lia.
    - rewrite (Z.testbit_neg_r _ (i - k)) by lia. zcases; try lia; by rewrite ?andb_false_r. }
  rewrite Z.shiftl_mul_pow2, Z.shiftr_div_pow2 by lia.
  assert (0 < 2 ^ k) by (apply Z.pow_pos_nonneg; lia).
  pose proof (Z.div_mod x (2 ^ k)). lia.
Qed.

(** Clearing the low bits. *)
Lemma mask_high x k :
  0 <= k <= 64 → 0 <= x < 2 ^ 64 → Z.land x (not64 (2 ^ k - 1)) = x - x mod 2 ^ k.
Proof.
  intros Hk Hx. rewrite Z.sub_1_r, <- Z.ones_equiv, not64_ones by lia. by apply land_high.
Qed.

(** [ALIGN] rounds up to a multiple of a power of two. *)
Lemma ALIGN_spec x k :
  0 <= k < 64 → 0 <= x → x + 2 ^ k <= 2 ^ 64 →
  x <= ALIGN x (2 ^ k) < x + 2 ^ k ∧ ALIGN x (2 ^ k) mod 2 ^ k = 0.
Proof.
  intros Hk Hx Hb. unfold ALIGN. rewrite pow2_pred by lia.
  assert (0 < 2 ^ k) by (apply Z.pow_pos_nonneg; lia).
  rewrite wrap_small, mask_high by lia.
  set (y := x + (2 ^ k - 1)). pose proof (Z.mod_pos_bound y (2 ^ k)). split; [lia|].
  rewrite Zminus_mod, Zmod_mod, Z.sub_diag. apply Zmod_0_l.
Qed.

Lemma ALIGN_id x k : 0 <= k < 64 → 0 <= x → x + 2 ^ k <= 2 ^ 64 → x mod 2 ^ k = 0 →
  ALIGN x (2 ^ k) = x.
Proof.
  intros Hk Hx Hb Hm. destruct (ALIGN_spec x k Hk Hx Hb) as [H1 H2].
  assert (0 < 2 ^ k) by (apply Z.pow_pos_nonneg; lia).
  pose proof (Z.div_mod x (2 ^ k)). pose proof (Z.div_mod (ALIGN x (2 ^ k)) (2 ^ k)).
  assert (x / 2 ^ k = ALIGN x (2 ^ k) / 2 ^ k); [|lia]. nia.
Qed.

Lemma GENMASK_spec h l i :
  0 <= l <= h → h < 64 → Z.testbit (GENMASK_ULL h l) i = (l <=? i) && (i <=? h).
Proof.
  intros Hl Hh. unfold GENMASK_ULL. rewrite Z.sub_1_r, <- Z.ones_equiv.
  destruct (decide (0 <= i)).
  - rewrite Z.land_spec, testbit_wrap, Z.shiftl_spec, Z.shiftr_spec, !testbit_ones by lia.
    zcases; cbn; try done; lia.
  - rewrite !Z.testbit_neg_r by lia. destruct (Z.leb_spec l i); done || lia.
Qed.

Lemma land_genmask x h l :
  0 <= l <= h → h < 64 → 0 <= x →
  Z.land x (GENMASK_ULL h l) = x mod 2 ^ (h + 1) - x mod 2 ^ l.
Proof.
  intros Hl Hh Hx.
  assert (Z.land x (GENMASK_ULL h l) = Z.shiftl (Z.shiftr (x mod 2 ^ (h + 1)) l) l) as ->.
  { zbits_intro i. rewrite GENMASK_spec by lia.
    destruct (decide (l <= i)) as [Hi|Hi].
    - rewrite Z.shiftr_spec, Z.sub_add by lia. fold (wrap (h + 1) x). rewrite testbit_wrap by lia.
      zcases; cbn; rewrite ?andb_true_r, ?andb_false_r; try done; lia.
    - rewrite (Z.testbit_neg_r _ (i - l)) by lia. zcases; try lia; cbn; by rewrite ?andb_false_r. }
  rewrite Z.shiftl_mul_pow2, Z.shiftr_div_pow2 by lia.
  assert (0 < 2 ^ l) by (apply Z.pow_pos_nonneg; lia).
  pose proof (Z.div_mod (x mod 2 ^ (h + 1)) (2 ^ l)).
  assert ((x mod 2 ^ (h + 1)) mod 2 ^ l = x mod 2 ^ l) as E; [|lia].
  apply Z.mod_mod_divide. exists (2 ^ (h + 1 - l)). rewrite <- Z.pow_add_r by lia. f_equal. lia.
Qed.

(** ** [fls] is the position of the highest bit *)

Lemma high_zero k w :
  0 < k <= 64 → 0 <= w < 2 ^ 64 →
  (Z.land w (u64 (Z.shiftl (2 ^ 64 - 1) (64 - k))) =? 0) = (w <? 2 ^ (64 - k)).
Proof.
  intros Hk Hw.
  assert (u64 (Z.shiftl (2 ^ 64 - 1) (64 - k)) = Z.shiftl (Z.ones k) (64 - k)) as ->.
  { rewrite Z.sub_1_r, <- Z.ones_equiv. apply Z.bits_inj'. intros i Hi.
    rewrite testbit_wrap, !Z.shiftl_spec, !testbit_ones by lia.
    zcases; cbn; try done; lia. }
  pose proof (land_high w (64 - k)) as E. replace (64 - (64 - k)) with k in E by lia.
  rewrite E by lia. clear E. assert (0 < 2 ^ (64 - k)) by (apply Z.pow_pos_nonneg; lia).
  pose proof (Z.mod_pos_bound w (2 ^ (64 - k))). pose proof (Z.div_mod w (2 ^ (64 - k))).
  pose proof (Z.div_pos w (2 ^ (64 - k))).
  destruct (Z.ltb_spec w (2 ^ (64 - k))) as [Hlt|Hge].
  - apply Z.eqb_eq. rewrite Z.mod_small by lia. lia.
  - apply Z.eqb_neq. assert (1 <= w / 2 ^ (64 - k)) by (apply Z.div_le_lower_bound; lia). nia.
Qed.

(** The halving invariant: [word] is the argument shifted left by [63 - num]. *)
Lemma fls_step_inv k num word w b :
  0 < k → 0 < w → word = w * 2 ^ (63 - num) → 2 ^ (64 - b) <= word < 2 ^ 64 →
  k <= b <= 2 * k → b <= 64 → num <= 63 →
  let '(num', word') := fls_step k (num, word) in
  word' = w * 2 ^ (63 - num') ∧ 2 ^ (64 - k) <= word' < 2 ^ 64 ∧ num' <= 63.
Proof.
  intros Hk Hw -> Hb Hkb Hb64 Hnum. unfold fls_step.
  assert (0 < 2 ^ (64 - b)) by (apply Z.pow_pos_nonneg; lia).
  assert (0 < 2 ^ (63 - num)) by (apply Z.pow_pos_nonneg; lia).
  rewrite high_zero by lia.
  destruct (Z.ltb_spec (w * 2 ^ (63 - num)) (2 ^ (64 - k))) as [H1|H1]; [|lia].
  assert (2 ^ 64 = 2 ^ (64 - k) * 2 ^ k) as E
    by (rewrite <- Z.pow_add_r by lia; f_equal; lia).
  assert (2 ^ (63 - (num - k)) = 2 ^ (63 - num) * 2 ^ k) as E2
    by (rewrite <- Z.pow_add_r by lia; f_equal; lia).
  assert (2 ^ (64 - k) <= 2 ^ (64 - b) * 2 ^ k) as E3.
  { rewrite <- Z.pow_add_r by lia. apply Z.pow_le_mono_r; lia. }
  assert (0 < 2 ^ k) by (apply Z.pow_pos_nonneg; lia).
  rewrite Z.shiftl_mul_pow2, wrap_small by nia. rewrite E2. nia.
Qed.

Lemma log2_shift w n :
  0 < w → n <= 63 → 2 ^ 63 <= w * 2 ^ (63 - n) < 2 ^ 64 → Z.log2 w = n.
Proof.
  intros Hw Hn Hb. assert (0 <= n).
  { destruct (decide (0 <= n)); [done|].
    assert (2 ^ 64 <= 2 ^ (63 - n)) by (apply Z.pow_le_mono_r; lia). nia. }
  apply Z.log2_unique; [lia|].
  assert (2 ^ 63 = 2 ^ n * 2 ^ (63 - n)) as A
    by (rewrite <- Z.pow_add_r by lia; f_equal; lia).
  assert (2 ^ 64 = 2 ^ Z.succ n * 2 ^ (63 - n)) as A'
    by (rewrite <- Z.pow_add_r by lia; f_equal; lia).
  assert (0 < 2 ^ (63 - n)) by (apply Z.pow_pos_nonneg; lia). nia.
Qed.

(** [fls] of a nonzero word is the position of its highest bit. *)
Lemma fls_log2 w : 0 < w < 2 ^ 64 → fls w = Z.log2 w.
Proof.
  intros Hw. unfold fls.
  pose proof (fls_step_inv 32 63 w w 64 ltac:(lia) ltac:(lia) ltac:(cbn; lia) ltac:(lia)
    ltac:(lia) ltac:(lia) ltac:(lia)) as H.
  destruct (fls_step 32 (63, w)) as [n1 w1]. destruct H as (E1 & B1 & L1).
  pose proof (fls_step_inv 16 n1 w1 w 32 ltac:(lia) ltac:(lia) E1 ltac:(lia) ltac:(lia)
    ltac:(lia) L1) as H.
  destruct (fls_step 16 (n1, w1)) as [n2 w2]. destruct H as (E2 & B2 & L2).
  pose proof (fls_step_inv 8 n2 w2 w 16 ltac:(lia) ltac:(lia) E2 ltac:(lia) ltac:(lia)
    ltac:(lia) L2) as H.
  destruct (fls_step 8 (n2, w2)) as [n3 w3]. destruct H as (E3 & B3 & L3).
  pose proof (fls_step_inv 4 n3 w3 w 8 ltac:(lia) ltac:(lia) E3 ltac:(lia) ltac:(lia)
    ltac:(lia) L3) as H.
  destruct (fls_step 4 (n3, w3)) as [n4 w4]. destruct H as (E4 & B4 & L4).
  pose proof (fls_step_inv 2 n4 w4 w 4 ltac:(lia) ltac:(lia) E4 ltac:(lia) ltac:(lia)
    ltac:(lia) L4) as H.
  destruct (fls_step 2 (n4, w4)) as [n5 w5]. destruct H as (E5 & B5 & L5).
  pose proof (high_zero 1 w5 ltac:(lia) ltac:(lia)) as Hz. cbn [Z.sub Z.opp Z.add Z.pos_sub] in Hz.
  change (64 - 1) with 63 in Hz. rewrite Hz. clear Hz.
  symmetry. cbn in B5. destruct (Z.ltb_spec w5 (2 ^ 63)) as [H1|H1].
  - apply (log2_shift w); [lia..|]. replace (63 - (n5 - 1)) with (Z.succ (63 - n5)) by lia.
    rewrite Z.pow_succ_r by lia. lia.
  - apply (log2_shift w); lia.
Qed.

(** The order of [page_memalign]: the least power of two that is not below [n]. *)
Lemma order_spec n :
  0 < n <= 2 ^ 52 →
  let order := if is_power_of_2 n then fls n else fls n + 1 in
  0 <= order <= 53 ∧ n <= 2 ^ order < 2 * n.
Proof.
  intros Hn. rewrite fls_log2 by lia. pose proof (Z.log2_spec n ltac:(lia)) as [H1 H2].
  pose proof (Z.log2_nonneg n). assert (Z.log2 n <= 52).
  { change 52 with (Z.log2 (2 ^ 52)). apply Z.log2_le_mono. lia. }
  rewrite Z.pow_succ_r in H2 by lia.
  unfold is_power_of_2. rewrite (proj2 (Z.eqb_neq n 0)), (wrap_small 64 (n - 1)) by lia. cbn [negb andb].
  destruct (Z.eqb_spec (Z.land n (n - 1)) 0) as [E|E].
  - split; [lia|]. destruct (decide (n = 2 ^ Z.log2 n)) as [->|Hne]; [|exfalso].
    + rewrite Z.log2_pow2 in * by lia. lia.
    + (* the highest bit is in both [n] and [n - 1] *)
      assert (Z.testbit (Z.land n (n - 1)) (Z.log2 n) = true) as Hb; [|by rewrite E, Z.bits_0 in Hb].
      rewrite Z.land_spec, Z.bit_log2 by lia.
      assert (Z.log2 (n - 1) = Z.log2 n) as El by (apply Z.log2_unique; rewrite ?Z.pow_succ_r by lia; lia).
      rewrite <- El. rewrite Z.bit_log2; [done|]. destruct (decide (n = 1)) as [->|]; [|lia].
      by change (2 ^ Z.log2 1) with 1 in Hne.
  - split; [lia|]. rewrite Z.pow_add_r by lia. split; [lia|].
    destruct (decide (n = 2 ^ Z.log2 n)) as [En|]; [|lia]. exfalso. apply E. rewrite En.
    rewrite mask_low by lia. by rewrite Z.mod_same by lia.
Qed.
