(* ===== verification/CString.v ===== *)
(** * C strings: lib/string.c and lib/util.c

    Each function of [lib/string.c] over the byte memory of [Memory].  A scan
    for a terminating NUL has no bound in the code; it takes [fuel] here, and
    the theorems say that any fuel above the length of the string is enough.
    Functions that write return the new memory. *)

From S2P Require Import Prelude Memory.

Definition NULL : Z := 0.
Definition SIZE_MAX : Z := 2 ^ 64 - 1.

(** ** string.c *)

(** [while ( *buf++ ) ++len;] *)
Fixpoint strlen_loop (fuel : nat) (m : mem) (buf len : Z) : option Z :=
  match fuel with
  | O => None
  | S f => if rdc m buf =? 0 then Some len else strlen_loop f m (buf + 1) (u64 (len + 1))
  end.

Definition strlen (fuel : nat) (m : mem) (buf : Z) : option Z := strlen_loop fuel m buf 0.

(** [while ( *p ) ++p;] *)
Fixpoint skip_to_nul (fuel : nat) (m : mem) (p : Z) : option Z :=
  match fuel with
  | O => None
  | S f => if rdc m p =? 0 then Some p else skip_to_nul f m (p + 1)
  end.

(** [while (( *p++ = *src++ ) != 0) ;] *)
Fixpoint copy_to_nul (fuel : nat) (m : mem) (p src : Z) : option mem :=
  match fuel with
  | O => None
  | S f =>
      let m' := wr8 m p (rdc m src) in
      if rdc m' p =? 0 then Some m' else copy_to_nul f m' (p + 1) (src + 1)
  end.

Definition strcat (fuel : nat) (m : mem) (dest src : Z) : option (mem * Z) :=
  p ← skip_to_nul fuel m dest;
  m' ← copy_to_nul fuel m p src;
  Some (m', dest).

Definition strcpy (fuel : nat) (m : mem) (dest src : Z) : option (mem * Z) :=
  strcat fuel (wr8 m dest 0) dest src.

Fixpoint strncmp (fuel : nat) (m : mem) (a b n : Z) : option Z :=
  match fuel with
  | O => None
  | S f =>
      if n =? 0 then Some 0
      else if negb (rdc m a =? rdc m b) || (rdc m a =? 0) then Some (rdc m a - rdc m b)
      else strncmp f m (a + 1) (b + 1) (n - 1)
  end.

Definition strcmp (fuel : nat) (m : mem) (a b : Z) : option Z :=
  strncmp fuel m a b SIZE_MAX.

Fixpoint strchr (fuel : nat) (m : mem) (s c : Z) : option Z :=
  match fuel with
  | O => None
  | S f =>
      if rdc m s =? s8 c then Some s
      else if rdc m s =? 0 then Some NULL
      else strchr f m (s + 1) c
  end.

Fixpoint memcmp (m : mem) (a b : Z) (n : nat) : Z :=
  match n with
  | O => 0
  | S n' =>
      let ret := rd8 m a - rd8 m b in
      if ret =? 0 then memcmp m (a + 1) (b + 1) n' else ret
  end.

(** The loop of [strstr]: [l1] characters of the text are left. *)
Fixpoint strstr_loop (fuel : nat) (m : mem) (s1 s2 l1 l2 : Z) : option Z :=
  match fuel with
  | O => None
  | S f =>
      if l2 <=? l1 then
        if memcmp m s1 s2 (Z.to_nat l2) =? 0 then Some s1
        else strstr_loop f m (s1 + 1) s2 (l1 - 1) l2
      else Some NULL
  end.

Definition strstr (fuel : nat) (m : mem) (s1 s2 : Z) : option Z :=
  l2 ← strlen fuel m s2;
  if l2 =? 0 then Some s1 else
  l1 ← strlen fuel m s1;
  strstr_loop fuel m s1 s2 l1 l2.

(** [for (i = 0; i < n; ++i) a[i] = c;]: [n] iterations from [a] on. *)
Fixpoint memset (m : mem) (s c : Z) (n : nat) : mem :=
  match n with O => m | S n' => memset (wr8 m s c) (s + 1) c n' end.

Fixpoint memcpy (m : mem) (dest src : Z) (n : nat) : mem :=
  match n with
  | O => m
  | S n' => memcpy (wr8 m dest (rdc m src)) (dest + 1) (src + 1) n'
  end.

(** [while (n--) *d++ = *s++;] *)
Fixpoint move_up (m : mem) (d s : Z) (n : nat) : mem :=
  match n with
  | O => m
  | S n' => move_up (wr8 m d (rd8 m s)) (d + 1) (s + 1) n'
  end.

(** [while (n--) *--d = *--s;] *)
Fixpoint move_down (m : mem) (d s : Z) (n : nat) : mem :=
  match n with
  | O => m
  | S n' => move_down (wr8 m (d - 1) (rd8 m (s - 1))) (d - 1) (s - 1) n'
  end.

Definition memmove (m : mem) (dest src : Z) (n : nat) : mem :=
  if dest <=? src then move_up m dest src n
  else move_down m (dest + n) (src + n) n.

Fixpoint memchr (m : mem) (s c : Z) (n : nat) : Z :=
  match n with
  | O => NULL
  | S n' => if rd8 m s =? u8 c then s else memchr m (s + 1) c n'
  end.

(** Characters used by the scanners. *)
Definition ch_tab : Z := 9.
Definition ch_nl : Z := 10.
Definition ch_space : Z := 32.
Definition ch_star : Z := 42.
Definition ch_plus : Z := 43.
Definition ch_minus : Z := 45.
Definition ch_0 : Z := 48.
Definition ch_9 : Z := 57.
Definition ch_eq : Z := 61.

Fixpoint atol_blanks (fuel : nat) (m : mem) (s : Z) : option Z :=
  match fuel with
  | O => None
  | S f =>
      if (rdc m s =? ch_space) || (rdc m s =? ch_tab) then atol_blanks f m (s + 1)
      else Some s
  end.

Fixpoint atol_digits (fuel : nat) (m : mem) (s acc : Z) : option Z :=
  match fuel with
  | O => None
  | S f =>
      if rdc m s =? 0 then Some acc
      else if (rdc m s <? ch_0) || (ch_9 <? rdc m s) then Some acc
      else atol_digits f m (s + 1) (s64 (acc * 10 + (rdc m s - ch_0)))
  end.

Definition atol (fuel : nat) (m : mem) (ptr : Z) : option Z :=
  s ← atol_blanks fuel m ptr;
  if rdc m s =? ch_minus then
    acc ← atol_digits fuel m (s + 1) 0; Some (s64 (- acc))
  else
    atol_digits fuel m (if rdc m s =? ch_plus then s + 1 else s) 0.

(** [environ] is a NULL-terminated array of string pointers. *)
Fixpoint getenv (fuel : nat) (m : mem) (name envp : Z) : option Z :=
  match fuel with
  | O => None
  | S f =>
      let e := ld64 m envp in
      if e =? 0 then Some NULL
      else
        delim ← strchr fuel m e ch_eq;
        hit ← (if delim =? NULL then Some false
               else r ← strncmp fuel m name e (delim - e); Some (r =? 0));
        if (hit : bool) then Some (delim + 1) else getenv f m name (envp + 8)
  end.

(** [copy] is the address of the local array [char copy[n + 1]]. *)
Definition simple_glob (fuel : nat) (m : mem) (copy text pattern : Z) : option (mem * bool) :=
  n ← strlen fuel m pattern;
  let star_start := rdc m pattern =? ch_star in
  let pattern := if star_start then pattern + 1 else pattern in
  let n := if star_start then n - 1 else n in
  '(m, _) ← strcpy fuel m copy pattern;
  let star_end := (0 <? n) && (rdc m (pattern + n - 1) =? ch_star) in
  let n := if star_end then n - 1 else n in
  let m := if star_end then wr8 m (copy + n) 0 else m in
  if star_start && star_end then
    r ← strstr fuel m text copy; Some (m, negb (r =? NULL))
  else if star_end then
    r ← strstr fuel m text copy; Some (m, r =? text)
  else if star_start then
    text_len ← strlen fuel m text;
    if text_len <? n then Some (m, false)
    else r ← strcmp fuel m (text + text_len - n) copy; Some (m, r =? 0)
  else
    r ← strcmp fuel m text copy; Some (m, r =? 0).

(** ** util.c *)

(** [parse_keyval]: the length of the key, and the value stored through [val]. *)
Definition parse_keyval (fuel : nat) (m : mem) (s : Z) : option (Z * option Z) :=
  p ← strchr fuel m s ch_eq;
  if p =? NULL then Some (-1, None)
  else v ← atol fuel m (p + 1); Some (s32 (p - s), Some v).

(** ** The string stored at an address

    [cstr m p l]: the bytes [l], none of them 0, are stored from [p] on and a
    0 follows them. *)

Fixpoint cstr (m : mem) (p : Z) (l : list Z) : Prop :=
  match l with
  | [] => rd8 m p = 0
  | b :: l' => rd8 m p = b ∧ b ≠ 0 ∧ cstr m (p + 1) l'
  end.

Lemma cstr_ext m m' p l :
  (∀ i, p <= i <= p + length l → rd8 m' i = rd8 m i) → cstr m p l → cstr m' p l.
Proof.
  revert p. induction l as [|b l IH]; intros p Hext; cbn in *.
  - rewrite Hext by lia. done.
  - intros (Hb & Hnz & Hl). rewrite Hext by lia. split_and!; [done..|].
    apply IH; [|done]. intros i Hi. apply Hext. lia.
Qed.

Lemma cstr_det m p l l' : cstr m p l → cstr m p l' → l = l'.
Proof.
  revert p l'. induction l as [|b l IH]; intros p [|b' l']; cbn; [done|..].
  { intros Hz (Hb & Hnz & _). congruence. }
  { intros (Hb & Hnz & _) Hz. congruence. }
  intros (-> & _ & Hl) (<- & _ & Hl'). f_equal. by eapply IH.
Qed.

Lemma cstr_app m p l k :
  cstr m p (l ++ k) ↔
  rdl m p (length l) = l ∧ Forall (λ b, b ≠ 0) l ∧ cstr m (p + length l) k.
Proof.
  revert p. induction l as [|b l IH]; intros p; cbn.
  - rewrite Z.add_0_r, Forall_nil. tauto.
  - rewrite IH, Forall_cons. replace (p + S (length l)) with (p + 1 + length l) by lia.
    split; [intros (-> & ? & -> & ?) | intros ([= -> ->] & ? & ?)]; tauto.
Qed.

Lemma cstr_drop m p l (i : nat) :
  (i <= length l)%nat → cstr m p l → cstr m (p + i) (drop i l).
Proof.
  intros Hi Hl. rewrite <- (take_drop i l) in Hl. apply cstr_app in Hl as (_ & _ & Hl).
  by rewrite length_take_le in Hl by done.
Qed.

Lemma cstr_end m p l : cstr m p l → rd8 m (p + length l) = 0.
Proof.
  intros Hl. apply (cstr_drop _ _ _ (length l)) in Hl; [|done].
  by rewrite drop_all in Hl.
Qed.

Lemma cstr_byte m p l (i : nat) b : cstr m p l → l !! i = Some b → rd8 m (p + i) = b ∧ b ≠ 0.
Proof.
  intros Hl Hi. pose proof (lookup_lt_Some _ _ _ Hi).
  apply (cstr_drop _ _ _ i) in Hl; [|lia].
  rewrite (drop_S _ b) in Hl by done. cbn in Hl. tauto.
Qed.

Lemma cstr_bounds m p l : cstr m p l → Forall (λ b, 0 < b < 2 ^ 8) l.
Proof.
  revert p. induction l as [|b l IH]; intros p; cbn; [constructor|].
  intros (<- & Hnz & Hl). pose proof (rd8_range m p). constructor; [lia|eauto].
Qed.

Lemma cstr_rdl m p l : cstr m p l → rdl m p (length l) = l.
Proof. intros Hl. rewrite <- (app_nil_r l) in Hl. apply cstr_app in Hl. tauto. Qed.

Lemma cstr_intro m p l :
  rdl m p (length l) = l → Forall (λ b, b ≠ 0) l → rd8 m (p + length l) = 0 → cstr m p l.
Proof.
  intros Hr Hnz Hz. rewrite <- (app_nil_r l). apply cstr_app.
  split_and!; [done..|]. done.
Qed.

(** The signed value of a byte, as [char] comparisons see it. *)
Lemma rdc_byte m p b : rd8 m p = b → rdc m p = s8 b.
Proof. by intros <-. Qed.

Lemma rdc_nz m p : rd8 m p ≠ 0 → (rdc m p =? 0) = false.
Proof. intros. apply Z.eqb_neq. by rewrite rdc_zero. Qed.

Lemma rdc_z m p : rd8 m p = 0 → (rdc m p =? 0) = true.
Proof. intros. apply Z.eqb_eq. by rewrite rdc_zero. Qed.

Lemma u8_s8 m p : u8 (s8 (rd8 m p)) = rd8 m p.
Proof.
  pose proof (rd8_range m p). rewrite swrap_cases by lia. unfold wrap.
  destruct (Z.ltb_spec (rd8 m p) (2 ^ (8 - 1))); mlia.
Qed.

(** A plain ASCII character: the signed and the unsigned value agree. *)
Lemma rdc_ascii m p c : 0 <= c < 128 → (rdc m p =? c) = (rd8 m p =? c).
Proof.
  intros Hc. pose proof (rd8_range m p). unfold rdc.
  rewrite swrap_cases by lia. destruct (Z.ltb_spec (rd8 m p) (2 ^ (8 - 1))); lia.
Qed.

Lemma rdc_range m p : - 128 <= rdc m p < 128.
Proof. unfold rdc. mlia. Qed.

(** ** strlen, strcat, strcpy *)

Section Scans.
Context (m : mem).

Lemma strlen_loop_cstr fuel p l n :
  cstr m p l → (length l < fuel)%nat → 0 <= n → n + length l < 2 ^ 64 →
  strlen_loop fuel m p n = Some (n + length l).
Proof.
  revert p l n. induction fuel as [|fuel IH]; intros p [|b l] n; cbn; try lia.
  - intros Hz _ _ _. rewrite rdc_z by done. f_equal. lia.
  - intros (Hb & Hnz & Hl) Hf Hn Hlt. rewrite rdc_nz by congruence.
    rewrite wrap_small, (IH _ l) by (done || lia). f_equal. lia.
Qed.

Lemma strlen_cstr fuel p l :
  cstr m p l → (length l < fuel)%nat → length l < 2 ^ 64 →
  strlen fuel m p = Some (Z.of_nat (length l)).
Proof. intros. unfold strlen. by rewrite (strlen_loop_cstr _ _ l). Qed.

Lemma skip_to_nul_cstr fuel p l :
  cstr m p l → (length l < fuel)%nat → skip_to_nul fuel m p = Some (p + length l).
Proof.
  revert p l. induction fuel as [|fuel IH]; intros p [|b l]; cbn; try lia.
  - intros Hz _. rewrite rdc_z by done. f_equal. lia.
  - intros (Hb & Hnz & Hl) Hf. rewrite rdc_nz by congruence.
    rewrite (IH _ l) by (done || lia). f_equal. lia.
Qed.
End Scans.

(** Two regions of memory do not overlap. *)
Definition disjoint_regions (a n b k : Z) : Prop := a + n <= b ∨ b + k <= a.

Lemma copy_to_nul_cstr fuel m p src l :
  cstr m src l → (length l < fuel)%nat →
  disjoint_regions p (length l + 1) src (length l + 1) →
  ∃ m', copy_to_nul fuel m p src = Some m' ∧ cstr m' p l ∧
    ∀ x, (x < p ∨ p + length l < x) → rd8 m' x = rd8 m x.
Proof.
  unfold disjoint_regions.
  revert m p src l. induction fuel as [|fuel IH]; intros m p src [|b l]; cbn; try lia.
  - intros Hz _ Hd. unfold rdc at 1. rewrite rd8_wr8_same.
    unfold rdc. rewrite u8_s8, Hz. cbn. eexists; split_and!; [done| |].
    + by autorewrite with mem.
    + intros x Hx. rewrite rd8_wr8_other by lia. done.
  - intros (Hb & Hnz & Hl) Hf Hd. rewrite (rdc_nz _ p) by
      (rewrite rd8_wr8_same; unfold rdc; rewrite u8_s8; congruence).
    destruct (IH (wr8 m p (rdc m src)) (p + 1) (src + 1) l) as (m' & -> & Hc & Hfr);
      [|lia|lia|].
    { eapply cstr_ext; [|done]. intros i Hi. apply rd8_wr8_other. lia. }
    exists m'. split_and!; [done|..].
    + rewrite Hfr by lia. rewrite rd8_wr8_same. unfold rdc. by rewrite u8_s8.
    + done.
    + done.
    + intros x Hx. rewrite Hfr by lia. apply rd8_wr8_other. lia.
Qed.

Lemma strcat_spec fuel m dest src l k :
  cstr m dest l → cstr m src k → (length l + length k < fuel)%nat →
  disjoint_regions dest (length l + length k + 1) src (length k + 1) →
  ∃ m', strcat fuel m dest src = Some (m', dest) ∧ cstr m' dest (l ++ k) ∧
    ∀ x, (x < dest + length l ∨ dest + length l + length k < x) → rd8 m' x = rd8 m x.
Proof.
  unfold disjoint_regions. intros Hl Hk Hf Hd. unfold strcat.
  rewrite (skip_to_nul_cstr _ _ _ l) by (done || lia). cbn.
  destruct (copy_to_nul_cstr fuel m (dest + length l) src k) as (m' & -> & Hc & Hfr);
    [done|lia|unfold disjoint_regions; lia|].
  exists m'. split_and!; [done| |done].
  pose proof (cstr_rdl _ _ _ Hl) as Hr. pose proof (cstr_bounds _ _ _ Hl) as Hb.
  apply cstr_app. split_and!; [| |done].
  - etransitivity; [|exact Hr]. apply rdl_ext. intros i Hi. apply Hfr. lia.
  - eapply Forall_impl; [done|]. cbn. lia.
Qed.

Lemma strcpy_spec fuel m dest src k :
  cstr m src k → (length k < fuel)%nat →
  disjoint_regions dest (length k + 1) src (length k + 1) →
  ∃ m', strcpy fuel m dest src = Some (m', dest) ∧ cstr m' dest k ∧
    ∀ x, (x < dest ∨ dest + length k < x) → rd8 m' x = rd8 m x.
Proof.
  unfold disjoint_regions. intros Hk Hf Hd. unfold strcpy.
  destruct (strcat_spec fuel (wr8 m dest 0) dest src [] k) as (m' & -> & Hc & Hfr); cbn.
  - by autorewrite with mem.
  - eapply cstr_ext; [|done]. intros i Hi. apply rd8_wr8_other. lia.
  - lia.
  - unfold disjoint_regions. cbn. lia.
  - exists m'. cbn in *. split_and!; [done..|]. intros x Hx.
    rewrite Hfr by lia. apply rd8_wr8_other. lia.
Qed.

(** ** Comparison and search *)

(** Reference comparison of the first [n] characters of two strings. *)
Fixpoint ncmp (n : nat) (l k : list Z) : Z :=
  match n with
  | O => 0
  | S n' =>
      match l, k with
      | [], [] => 0
      | [], b :: _ => 0 - s8 b
      | a :: _, [] => s8 a
      | a :: l', b :: k' => if a =? b then ncmp n' l' k' else s8 a - s8 b
      end
  end.

Lemma s8_eq_0 b : 0 < b < 2 ^ 8 → s8 b ≠ 0.
Proof. intros. rewrite swrap_cases by lia. destruct (Z.ltb_spec b (2 ^ (8 - 1))); lia. Qed.

Lemma s8_inj a b : 0 <= a < 2 ^ 8 → 0 <= b < 2 ^ 8 → s8 a = s8 b → a = b.
Proof.
  intros ??. rewrite !swrap_cases by lia.
  destruct (Z.ltb_spec a (2 ^ (8 - 1))), (Z.ltb_spec b (2 ^ (8 - 1))); lia.
Qed.

Lemma rdc_eqb m m' a b : (rdc m a =? rdc m' b) = (rd8 m a =? rd8 m' b).
Proof. apply eq_bool_prop_intro. rewrite !Is_true_true, !Z.eqb_eq. apply rdc_inj. Qed.

Lemma strncmp_cstr fuel m a b l k n :
  cstr m a l → cstr m b k → (length l < fuel)%nat → 0 <= n →
  strncmp fuel m a b n = Some (ncmp (Z.to_nat n) l k).
Proof.
  revert a b l k n. induction fuel as [|fuel IH]; intros a b l k n Hl Hk Hf Hn; [lia|].
  cbn [strncmp]. destruct (Z.eqb_spec n 0) as [->|Hn0]; [done|].
  replace (Z.to_nat n) with (S (Z.to_nat (n - 1))) by lia. cbn [ncmp].
  rewrite rdc_eqb. destruct l as [|x l], k as [|y k]; cbn in *.
  - rewrite Hl, Hk, (rdc_z m a) by done. unfold rdc. by rewrite Hl, Hk.
  - destruct Hk as (<- & ? & Hk). rewrite Hl.
    destruct (Z.eqb_spec 0 (rd8 m b)); [congruence|]. cbn. unfold rdc. by rewrite Hl.
  - destruct Hl as (<- & ? & Hl). rewrite Hk.
    destruct (Z.eqb_spec (rd8 m a) 0); [congruence|]. cbn. unfold rdc. rewrite Hk.
    f_equal. change (s8 0) with 0. lia.
  - destruct Hl as (<- & ? & Hl), Hk as (<- & ? & Hk).
    destruct (Z.eqb_spec (rd8 m a) (rd8 m b)); cbn; [|done].
    rewrite rdc_nz by done. by apply IH; try lia.
Qed.

Lemma ncmp_zero n l k :
  Forall (λ b, 0 < b < 2 ^ 8) l → Forall (λ b, 0 < b < 2 ^ 8) k →
  ncmp n l k = 0 ↔ take n l = take n k.
Proof.
  revert l k. induction n as [|n IH]; intros l k Hl Hk; cbn; [done|].
  destruct Hl as [|a l Ha Hl], Hk as [|b k Hb Hk]; cbn; [done|..].
  - pose proof (s8_eq_0 b Hb). split; [lia|done].
  - pose proof (s8_eq_0 a Ha). split; [lia|done].
  - destruct (Z.eqb_spec a b) as [->|Hne].
    + rewrite IH by done. split; [by intros ->|by intros [= ->]].
    + split; [|congruence]. intros E. destruct Hne. apply s8_inj; lia.
Qed.

(** [strcmp] of two stored strings is 0 exactly when they are the same. *)
Lemma strcmp_cstr fuel m a b l k :
  cstr m a l → cstr m b k → (length l < fuel)%nat →
  length l < SIZE_MAX → length k < SIZE_MAX →
  ∃ r, strcmp fuel m a b = Some r ∧ (r = 0 ↔ l = k).
Proof.
  intros Hl Hk Hf Hll Hkl. unfold strcmp. rewrite (strncmp_cstr _ _ _ _ l k) by done.
  eexists; split; [done|].
  rewrite ncmp_zero by (by eapply cstr_bounds). unfold SIZE_MAX in *.
  rewrite !take_ge by lia. done.
Qed.

Lemma rdc_s8_eqb m s c : (rdc m s =? s8 c) = (rd8 m s =? u8 c).
Proof.
  pose proof (rd8_range m s). unfold rdc.
  assert (s8 c = s8 (u8 c)) as -> by mlia.
  pose proof (wrap_range 8 c). destruct (Z.eqb_spec (rd8 m s) (u8 c)) as [->|Hne].
  - apply Z.eqb_refl.
  - apply Z.eqb_neq. intros E. destruct Hne. apply s8_inj; [lia|lia|done].
Qed.

(** The position of the first [b] of [l]. *)
Definition index_of (b : Z) (l : list Z) : option nat := fst <$> list_find (b =.) l.

Lemma index_of_cons b x l :
  index_of b (x :: l) = if decide (b = x) then Some 0%nat else S <$> index_of b l.
Proof.
  unfold index_of. cbn. destruct (decide (b = x)); [done|].
  destruct (list_find (b =.) l) as [[i y]|]; done.
Qed.

(** [strchr] finds the first character equal to [(char)c]; the terminator
    counts as a character of the string. *)
Lemma strchr_cstr fuel m s c l :
  cstr m s l → (length l < fuel)%nat →
  strchr fuel m s c =
    Some match index_of (u8 c) l with
         | Some i => s + i
         | None => if u8 c =? 0 then s + length l else NULL
         end.
Proof.
  revert s l. induction fuel as [|fuel IH]; intros s l Hl Hf; [lia|].
  cbn [strchr]. rewrite rdc_s8_eqb. destruct l as [|b l].
  - cbn in Hl. rewrite Hl, (rdc_z m s) by done. cbn.
    destruct (u8 c) eqn:E; cbn; rewrite ?Z.add_0_r; done.
  - destruct Hl as (Hb & Hnz & Hl). rewrite Hb, index_of_cons.
    destruct (Z.eqb_spec b (u8 c)) as [->|Hne].
    + rewrite decide_True by done. f_equal. lia.
    + rewrite decide_False by done. rewrite rdc_nz by congruence.
      cbn in Hf. rewrite (IH _ l) by (done || lia).
      destruct (index_of (u8 c) l); cbn; [f_equal; lia|].
      destruct (Z.eqb_spec (u8 c) 0); [f_equal; lia|done].
Qed.

Lemma memcmp_zero m a b n : memcmp m a b n = 0 ↔ rdl m a n = rdl m b n.
Proof.
  revert a b. induction n as [|n IH]; intros a b; cbn; [done|].
  destruct (Z.eqb_spec (rd8 m a - rd8 m b) 0) as [E|E].
  - rewrite IH. replace (rd8 m a) with (rd8 m b) by lia.
    split; [by intros ->|by intros [=]].
  - split; [lia|]. intros [= Heq _]. lia.
Qed.

(** The first position of [l] where [k] occurs. *)
Fixpoint find_sub (l k : list Z) : option nat :=
  if decide (k `prefix_of` l) then Some 0%nat
  else match l with [] => None | _ :: l' => S <$> find_sub l' k end.

Lemma find_sub_prefix l k : find_sub l k = Some 0%nat ↔ k `prefix_of` l.
Proof.
  destruct l; cbn; destruct (decide _); try done.
  destruct (find_sub _ _); cbn; done.
Qed.

Lemma find_sub_Some l k i :
  find_sub l k = Some i ↔
  k `prefix_of` drop i l ∧ (i <= length l)%nat ∧ ∀ j : nat, (j < i)%nat → ¬ k `prefix_of` drop j l.
Proof.
  revert i. induction l as [|b l IH]; intros i; cbn.
  - destruct (decide (k `prefix_of` [])) as [Hp|Hp].
    + split.
      * intros [= <-]. split_and!; [done|lia|lia].
      * intros (_ & Hi & _). f_equal. lia.
    + split; [done|]. rewrite drop_nil. tauto.
  - destruct (decide (k `prefix_of` b :: l)) as [Hp|Hp].
    + split.
      * intros [= <-]. split_and!; [done|lia|lia].
      * intros (_ & _ & Hj). destruct i as [|i]; [done|]. destruct (Hj 0%nat); [lia|done].
    + destruct i as [|i].
      * split; [destruct (find_sub l k); done|]. cbn. tauto.
      * specialize (IH i). destruct (find_sub l k) as [i'|] eqn:E; cbn.
        -- split.
           ++ intros [= ->]. destruct IH as [IH _]. destruct IH as (H1 & H2 & H3); [done|].
              split_and!; [done|lia|]. intros [|j] Hj; [done|]. cbn. apply H3. lia.
           ++ intros (H1 & H2 & H3). f_equal.
              assert (Some i' = Some i) as [= ->]; [|done]. apply IH.
              split_and!; [done|lia|]. intros j Hj. apply (H3 (S j)). lia.
        -- split; [done|]. intros (H1 & H2 & H3). exfalso.
           assert (None = Some i) as [=]. apply IH.
           split_and!; [done|lia|]. intros j Hj. apply (H3 (S j)). lia.
Qed.

Lemma find_sub_short l k : (length l < length k)%nat → find_sub l k = None.
Proof.
  intros Hlen. destruct (find_sub l k) as [i|] eqn:E; [|done].
  apply find_sub_Some in E as (Hp & _ & _). apply prefix_length in Hp.
  rewrite length_drop in Hp. lia.
Qed.

Lemma rdl_prefix m p l k :
  cstr m p l → (length k <= length l)%nat → rdl m p (length k) = k ↔ k `prefix_of` l.
Proof.
  intros Hl Hle. assert (rdl m p (length k) = take (length k) l) as ->.
  { rewrite <- (cstr_rdl _ _ _ Hl).
    replace (length l) with (length k + (length l - length k))%nat by lia.
    rewrite rdl_app, take_app_le, take_ge by (rewrite ?rdl_length; lia). done. }
  split.
  - intros <-. by rewrite prefix_take.
  - intros [q ->]. by rewrite take_app_length.
Qed.

Lemma strstr_loop_spec fuel m s1 s2 l k :
  cstr m s1 l → cstr m s2 k → k ≠ [] → (length l < fuel)%nat →
  strstr_loop fuel m s1 s2 (length l) (length k) =
    Some match find_sub l k with Some i => s1 + i | None => NULL end.
Proof.
  intros Hl Hk Hne. revert s1 l Hl. induction fuel as [|fuel IH]; intros s1 l Hl Hf; [lia|].
  cbn [strstr_loop]. destruct (Z.leb_spec (length k) (length l)) as [Hle|Hlt].
  2: { rewrite find_sub_short by lia. done. }
  rewrite Nat2Z.id. pose proof (memcmp_zero m s1 s2 (length k)) as Hc.
  rewrite (cstr_rdl _ _ _ Hk), (rdl_prefix _ _ l) in Hc by (done || lia).
  rewrite <- find_sub_prefix in Hc.
  destruct (Z.eqb_spec (memcmp m s1 s2 (length k)) 0) as [Hz|Hz].
  - apply Hc in Hz as ->. f_equal. lia.
  - destruct l as [|b l]; [destruct k; cbn in *; [done|lia]|].
    destruct Hl as (_ & _ & Hl). cbn [length].
    replace (S (length l) - 1) with (Z.of_nat (length l)) by lia.
    cbn in Hf. rewrite IH by (done || lia).
    assert (find_sub (b :: l) k = S <$> find_sub l k) as ->.
    { cbn in Hc |- *. destruct (decide (k `prefix_of` b :: l)); [tauto|done]. }
    destruct (find_sub l k); cbn; [f_equal; lia|done].
Qed.

Lemma find_sub_nil l : find_sub l [] = Some 0%nat.
Proof. destruct l; done. Qed.

Lemma strstr_spec fuel m s1 s2 l k :
  cstr m s1 l → cstr m s2 k → (length l < fuel)%nat → (length k < fuel)%nat →
  length l < 2 ^ 64 → length k < 2 ^ 64 →
  strstr fuel m s1 s2 = Some match find_sub l k with Some i => s1 + i | None => NULL end.
Proof.
  intros Hl Hk ?? ??. unfold strstr. rewrite (strlen_cstr _ _ s2 k) by done. cbn.
  destruct (Z.eqb_spec (length k) 0) as [Hz|Hz].
  - destruct k; [|done]. rewrite find_sub_nil. f_equal. lia.
  - rewrite (strlen_cstr _ _ _ l) by done. cbn.
    apply strstr_loop_spec; try done. by intros ->.
Qed.

(** ** memset, memcpy, memmove, memchr *)

Lemma memset_spec m s c n :
  (∀ i, s <= i < s + Z.of_nat n → rd8 (memset m s c n) i = u8 c) ∧
  (∀ x, (x < s ∨ s + Z.of_nat n <= x) → rd8 (memset m s c n) x = rd8 m x).
Proof.
  revert m s. induction n as [|n IH]; intros m s; cbn [memset].
  - split; intros; [lia|done].
  - destruct (IH (wr8 m s c) (s + 1)) as [H1 H2]. split.
    + intros i Hi. destruct (decide (i = s)) as [->|Hne].
      * rewrite H2 by lia. by autorewrite with mem.
      * apply H1. lia.
    + intros x Hx. rewrite H2 by lia. apply rd8_wr8_other. lia.
Qed.

Lemma memset_in m s c n i : s <= i < s + Z.of_nat n → rd8 (memset m s c n) i = u8 c.
Proof. apply memset_spec. Qed.

Lemma memset_out m s c n x :
  (x < s ∨ s + Z.of_nat n <= x) → rd8 (memset m s c n) x = rd8 m x.
Proof. apply memset_spec. Qed.

Lemma u8_rd8 m a : u8 (rd8 m a) = rd8 m a.
Proof. apply wrap_small, rd8_range. Qed.

Lemma u8_rdc m a : u8 (rdc m a) = rd8 m a.
Proof. apply u8_s8. Qed.

(** Copying upwards is right when the destination does not start inside the
    part of the source still to be read. *)
Lemma move_up_spec m d s (n : nat) :
  d <= s ∨ s + Z.of_nat n <= d →
  (∀ i, 0 <= i < n → rd8 (move_up m d s n) (d + i) = rd8 m (s + i)) ∧
  (∀ x, (x < d ∨ d + Z.of_nat n <= x) → rd8 (move_up m d s n) x = rd8 m x).
Proof.
  revert m d s. induction n as [|n IH]; intros m d s Hd; cbn [move_up].
  - split; intros; [lia|done].
  - destruct (IH (wr8 m d (rd8 m s)) (d + 1) (s + 1)) as [H1 H2]; [lia|]. split.
    + intros i Hi. destruct (decide (i = 0)) as [->|Hne].
      * rewrite !Z.add_0_r, H2 by lia. rewrite rd8_wr8_same. apply u8_rd8.
      * replace (d + i) with (d + 1 + (i - 1)) by lia. rewrite H1 by lia.
        rewrite rd8_wr8_other by lia. f_equal. lia.
    + intros x Hx. rewrite H2 by lia. apply rd8_wr8_other. lia.
Qed.

Lemma memcpy_move_up m d s n : memcpy m d s n ≡ₘ move_up m d s n.
Proof.
  enough (∀ m', m ≡ₘ m' → memcpy m d s n ≡ₘ move_up m' d s n) as H by (by apply H).
  revert m d s. induction n as [|n IH]; intros m d s m' Hm; cbn; [done|].
  apply IH. intros x. rewrite !rd8_wr8, Hm. case_decide; [|done].
  rewrite u8_rdc, u8_rd8. by rewrite Hm.
Qed.

Lemma move_down_spec m d s (n : nat) :
  s <= d →
  (∀ i, 0 <= i < n → rd8 (move_down m d s n) (d - n + i) = rd8 m (s - n + i)) ∧
  (∀ x, (x < d - n ∨ d <= x) → rd8 (move_down m d s n) x = rd8 m x).
Proof.
  revert m d s. induction n as [|n IH]; intros m d s Hd; cbn [move_down].
  - split; intros; [lia|done].
  - destruct (IH (wr8 m (d - 1) (rd8 m (s - 1))) (d - 1) (s - 1)) as [H1 H2]; [lia|]. split.
    + intros i Hi. destruct (decide (i = n)) as [->|Hne].
      * rewrite H2 by lia. replace (d - S n + n) with (d - 1) by lia.
        rewrite rd8_wr8_same. replace (s - S n + n) with (s - 1) by lia. apply u8_rd8.
      * replace (d - S n + i) with (d - 1 - n + i) by lia. rewrite H1 by lia.
        rewrite rd8_wr8_other by lia. f_equal. lia.
    + intros x Hx. rewrite H2 by lia. apply rd8_wr8_other. lia.
Qed.

Lemma memchr_spec m s c n :
  memchr m s c n =
    match index_of (u8 c) (rdl m s n) with Some i => s + i | None => NULL end.
Proof.
  revert s. induction n as [|n IH]; intros s; cbn [memchr rdl]; [done|].
  rewrite index_of_cons. destruct (Z.eqb_spec (rd8 m s) (u8 c)) as [->|Hne].
  - rewrite decide_True by done. lia.
  - rewrite decide_False by done. rewrite IH.
    destruct (index_of (u8 c) _); cbn; [lia|done].
Qed.

(** ** atol *)

Definition is_digit (b : Z) : Prop := ch_0 <= b <= ch_9.
#[export] Instance is_digit_dec b : Decision (is_digit b).
Proof. unfold is_digit. apply _. Defined.

Definition is_blank (b : Z) : Prop := b = ch_space ∨ b = ch_tab.

(** The value of a sequence of decimal digits read after the value [acc]. *)
Fixpoint dec_val (acc : Z) (l : list Z) : Z :=
  match l with [] => acc | d :: l' => dec_val (acc * 10 + (d - ch_0)) l' end.

Lemma dec_val_mono acc l : Forall is_digit l → 0 <= acc → acc <= dec_val acc l.
Proof.
  intros Hl. revert acc. induction Hl as [|d l Hd Hl IH]; intros acc Ha; cbn; [lia|].
  unfold is_digit, ch_0, ch_9 in *. etransitivity; [|apply IH]; lia.
Qed.

Definition no_digit_head (l : list Z) : Prop :=
  match l with [] => True | b :: _ => ¬ is_digit b end.

Lemma rdc_digit m s b :
  rd8 m s = b → is_digit b → rdc m s = b.
Proof.
  intros <- Hd. unfold is_digit, ch_0, ch_9 in Hd. unfold rdc.
  apply swrap_small; lia.
Qed.

Lemma rdc_not_digit m s :
  ¬ is_digit (rd8 m s) → (rdc m s <? ch_0) || (ch_9 <? rdc m s) = true.
Proof.
  unfold is_digit, ch_0, ch_9, rdc. intros Hd. pose proof (rd8_range m s).
  rewrite swrap_cases by lia. apply orb_true_iff. rewrite !Z.ltb_lt.
  destruct (Z.ltb_spec (rd8 m s) (2 ^ (8 - 1))); lia.
Qed.

Lemma atol_digits_cstr fuel m s ds rest acc :
  cstr m s (ds ++ rest) → Forall is_digit ds → no_digit_head rest →
  (length ds < fuel)%nat → 0 <= acc → dec_val acc ds < 2 ^ 63 →
  atol_digits fuel m s acc = Some (dec_val acc ds).
Proof.
  revert s ds acc. induction fuel as [|fuel IH]; intros s ds acc Hs Hd Hr Hf Ha Hv; [lia|].
  cbn [atol_digits]. destruct Hd as [|d ds Hd Hds].
  - cbn in Hs |- *. destruct rest as [|b rest]; cbn in Hs.
    + by rewrite rdc_z.
    + destruct Hs as (<- & Hnz & _). rewrite rdc_nz by done.
      by rewrite rdc_not_digit.
  - cbn in Hs, Hf, Hv |- *. destruct Hs as (Hb & Hnz & Hs).
    pose proof (dec_val_mono (acc * 10 + (d - ch_0)) ds Hds) as Hm.
    pose proof Hd as Hd'. unfold is_digit, ch_0, ch_9 in Hd', Hm.
    rewrite rdc_nz by congruence. rewrite (rdc_digit _ _ d) by done.
    destruct (Z.ltb_spec d ch_0) as [|_]; [unfold ch_0 in *; lia|].
    destruct (Z.ltb_spec ch_9 d) as [|_]; [unfold ch_9 in *; lia|]. cbn.
    rewrite swrap_small by (unfold ch_0 in *; lia).
    apply IH; try done; try lia; unfold ch_0 in *; lia.
Qed.

Lemma atol_blanks_cstr fuel m s bl rest :
  cstr m s (bl ++ rest) → Forall is_blank bl →
  match rest with [] => True | b :: _ => ¬ is_blank b end →
  (length bl < fuel)%nat → atol_blanks fuel m s = Some (s + length bl).
Proof.
  unfold is_blank.
  revert s bl. induction fuel as [|fuel IH]; intros s bl Hs Hb Hr Hf; [lia|].
  cbn [atol_blanks]. rewrite !rdc_ascii by (unfold ch_space, ch_tab; lia).
  destruct Hb as [|b bl Hb Hbl]; cbn in Hs, Hf |- *.
  - replace (s + 0) with s by lia.
    assert (rd8 m s ≠ ch_space ∧ rd8 m s ≠ ch_tab) as [H1 H2].
    { destruct rest as [|b rest]; cbn in Hs.
      - rewrite Hs. done.
      - destruct Hs as (-> & _ & _). tauto. }
    destruct (Z.eqb_spec (rd8 m s) ch_space), (Z.eqb_spec (rd8 m s) ch_tab); try done.
    f_equal. lia.
  - destruct Hs as (-> & _ & Hs).
    assert ((b =? ch_space) || (b =? ch_tab) = true) as ->
      by (destruct Hb as [-> | ->]; done).
    rewrite (IH _ bl) by (done || lia). f_equal. lia.
Qed.

(** The optional sign in front of the digits. *)
Definition signed (neg : bool) (ds : list Z) : list Z := if neg then ch_minus :: ds else ds.

(** [atol] reads blanks, an optional minus sign and decimal digits, and stops
    at the first other character; the number has to fit in a [long]. *)
Lemma atol_cstr fuel m p bl neg ds rest :
  cstr m p (bl ++ signed neg ds ++ rest) → Forall is_blank bl → Forall is_digit ds →
  (ds ≠ [] ∧ no_digit_head rest) →
  (length bl + length ds + 1 < fuel)%nat → dec_val 0 ds < 2 ^ 63 →
  atol fuel m p = Some (if neg then - dec_val 0 ds else dec_val 0 ds).
Proof.
  intros Hp Hbl Hds (Hne & Hr) Hf Hv. unfold atol.
  pose proof (dec_val_mono 0 ds Hds) as Hm.
  assert (∃ d ds', ds = d :: ds' ∧ is_digit d) as (d & ds' & Eds & Hd).
  { destruct Hds; [done|eauto]. }
  rewrite (atol_blanks_cstr _ _ _ bl (signed neg ds ++ rest));
    [|done|done| |lia].
  2: { unfold is_blank, is_digit, ch_0, ch_space, ch_tab in *.
       destruct neg; cbn; [unfold ch_minus; lia|]. rewrite Eds. cbn. lia. }
  cbn. apply cstr_app in Hp as (_ & _ & Hp). set (s := p + length bl) in *.
  rewrite !rdc_ascii by (unfold ch_minus, ch_plus; lia).
  destruct neg; cbn in Hp.
  - destruct Hp as (-> & _ & Hp). rewrite Z.eqb_refl.
    rewrite (atol_digits_cstr _ _ _ ds rest) by (done || lia). cbn.
    f_equal. apply swrap_small; lia.
  - assert (rd8 m s = d) as -> by (rewrite Eds in Hp; cbn in Hp; tauto).
    unfold is_digit, ch_0, ch_9 in Hd.
    destruct (Z.eqb_spec d ch_minus) as [->|_]; [unfold ch_minus in Hd; lia|].
    destruct (Z.eqb_spec d ch_plus) as [->|_]; [unfold ch_plus in Hd; lia|].
    apply atol_digits_cstr with rest; done || lia.
Qed.

(** ** simple_glob *)

Definition star_if (b : bool) : list Z := if b then [ch_star] else [].

(** What a pattern with an optional leading and an optional trailing star
    means: a star stands for any string, the rest of the pattern for itself. *)
Definition glob_matches (star_start star_end : bool) (core text : list Z) : Prop :=
  ∃ u v, text = u ++ core ++ v ∧ (star_start = false → u = []) ∧ (star_end = false → v = []).

Lemma find_sub_is_Some l k : is_Some (find_sub l k) ↔ ∃ u v, l = u ++ k ++ v.
Proof.
  split.
  - intros [i Hi]. apply find_sub_Some in Hi as ([v Hv] & _ & _).
    exists (take i l), v. by rewrite <- Hv, take_drop.
  - intros (u & v & ->). induction u as [|b u IH].
    + exists 0%nat. apply find_sub_prefix. by exists v.
    + cbn. destruct (decide _); [done|]. by apply fmap_is_Some.
Qed.

Lemma cstr_at m p l i : cstr m p l → 0 <= i < length l → l !! Z.to_nat i = Some (rd8 m (p + i)).
Proof.
  intros Hl Hi. destruct (lookup_lt_is_Some_2 l (Z.to_nat i)) as [b Hb]; [lia|].
  rewrite Hb. destruct (cstr_byte _ _ _ _ _ Hl Hb) as [<- _]. do 3 f_equal. lia.
Qed.

(** The last character of a non-empty stored string. *)
Lemma cstr_last m p l : cstr m p l → l ≠ [] → last l = Some (rd8 m (p + length l - 1)).
Proof.
  intros Hl Hne. rewrite last_lookup.
  assert (0 < length l) by (destruct l; cbn; [done|lia]).
  replace (pred (length l)) with (Z.to_nat (length l - 1)) by lia.
  rewrite (cstr_at m p) by (done || lia). do 2 f_equal. lia.
Qed.

Lemma cstr_head m p l : cstr m p l → (rd8 m p =? ch_star) = bool_decide (head l = Some ch_star).
Proof.
  intros Hl. destruct l as [|b l]; cbn in Hl.
  - by rewrite Hl.
  - destruct Hl as (-> & _). cbn. destruct (Z.eqb_spec b ch_star) as [->|Hne].
    + by rewrite bool_decide_eq_true_2.
    + rewrite bool_decide_eq_false_2; congruence.
Qed.

(** Cutting the trailing star off the copy. *)
Lemma cstr_cut m p core b : cstr m p (core ++ [b]) → cstr (wr8 m (p + length core) 0) p core.
Proof.
  intros Hl. apply cstr_app in Hl as (Hr & Hnz & _).
  apply cstr_intro; [|done|].
  - etransitivity; [|exact Hr]. apply rdl_ext. intros i Hi. apply rd8_wr8_other. lia.
  - by autorewrite with mem.
Qed.

(** The part of [simple_glob] up to the comparisons: which stars there are and
    the core of the pattern in the local copy. *)
Definition glob_prepared (m m' : mem) (copy : Z) (core : list Z) (len : Z) : Prop :=
  cstr m' copy core ∧ ∀ x, (x < copy ∨ copy + len < x) → rd8 m' x = rd8 m x.

Section Glob.
Context (fuel : nat) (m : mem) (copy text : Z) (tl core : list Z) (ss se : bool).
Context (Htext : cstr m text tl).
Context (Hfuel : (length tl < fuel)%nat ∧ (length core + 2 < fuel)%nat).
Context (Hsize : length tl < SIZE_MAX ∧ length core + 2 < SIZE_MAX).
Context (Hdt : disjoint_regions copy (length core + 3) text (length tl + 1)).

Lemma glob_compare m' :
  glob_prepared m m' copy core (length core + 2) →
  ∃ r,
    (if ss && se then r ← strstr fuel m' text copy; Some (m', negb (r =? NULL))
     else if se then r ← strstr fuel m' text copy; Some (m', r =? text)
     else if ss then
       text_len ← strlen fuel m' text;
       if text_len <? length core then Some (m', false)
       else r ← strcmp fuel m' (text + text_len - length core) copy; Some (m', r =? 0)
     else r ← strcmp fuel m' text copy; Some (m', r =? 0)) = Some (m', r) ∧
    (0 < text → (r = true ↔ glob_matches ss se core tl)).
Proof using Type*.
  intros [Hc Hfr]. unfold disjoint_regions, SIZE_MAX in *.
  assert (cstr m' text tl) as Ht by (eapply cstr_ext; [|done]; intros; apply Hfr; lia).
  unfold glob_matches. destruct se; [|destruct ss]; rewrite ?andb_true_r, ?andb_false_r.
  - rewrite (strstr_spec _ _ _ _ tl core) by (done || lia). cbn.
    destruct ss; (eexists; split; [done|]); intros Hpos.
    + rewrite negb_true_iff, Z.eqb_neq.
      transitivity (is_Some (find_sub tl core)).
      * unfold NULL. destruct (find_sub tl core); split; try done; lia.
      * rewrite find_sub_is_Some.
        split; [intros (u & v & E)|intros (u & v & E & _)]; by exists u, v.
    + rewrite Z.eqb_eq. transitivity (find_sub tl core = Some 0%nat).
      * unfold NULL. destruct (find_sub tl core) as [i|].
        -- split; [intros; f_equal; lia | intros [= ->]; lia].
        -- split; [lia|done].
      * rewrite find_sub_prefix. split.
        -- intros [v E]. by exists [], v.
        -- intros (u & v & E & Hu & _). rewrite (Hu eq_refl) in E. by exists v.
  - rewrite (strlen_cstr _ _ _ tl) by (done || lia). cbn.
    destruct (Z.ltb_spec (length tl) (length core)) as [Hlt|Hge].
    + eexists; split; [done|]. intros _. split; [done|].
      intros (u & v & E & _). apply (f_equal length) in E.
      rewrite !length_app in E. lia.
    + destruct (strcmp_cstr fuel m' (text + length tl - length core) copy
        (drop (length tl - length core) tl) core) as (r & -> & Hr);
        [|done|rewrite length_drop; lia|unfold SIZE_MAX; rewrite length_drop; lia
        |unfold SIZE_MAX; lia|].
      { replace (text + length tl - length core)
          with (text + (length tl - length core)%nat) by lia.
        apply cstr_drop; [lia|done]. }
      cbn. eexists; split; [done|]. intros _. rewrite Z.eqb_eq, Hr. split.
      * intros E. exists (take (length tl - length core) tl), [].
        split_and!; [|done|done]. rewrite app_nil_r.
        rewrite <- (take_drop (length tl - length core) tl) at 1. by rewrite E.
      * intros (u & v & E & _ & Hv). rewrite (Hv eq_refl), app_nil_r in E.
        rewrite E, length_app, Nat.add_sub. apply drop_app_length.
  - destruct (strcmp_cstr fuel m' text copy tl core) as (r & -> & Hr);
      [done|done|lia|unfold SIZE_MAX; lia..|].
    cbn. eexists; split; [done|]. intros _. rewrite Z.eqb_eq, Hr. split.
    + intros E. exists [], []. by rewrite app_nil_r.
    + intros (u & v & E & Hu & Hv).
      by rewrite (Hu eq_refl), (Hv eq_refl), app_nil_r in E.
Qed.
End Glob.

(** [simple_glob] accepts the texts its pattern stands for. *)
Lemma simple_glob_correct fuel m copy text pattern tl core ss se :
  cstr m text tl →
  cstr m pattern (star_if ss ++ core ++ star_if se) →
  (ss = false → head (core ++ star_if se) ≠ Some ch_star) →
  (se = false → last core ≠ Some ch_star) →
  (length tl < fuel)%nat ∧ (length core + 2 < fuel)%nat →
  length tl < SIZE_MAX ∧ length core + 2 < SIZE_MAX →
  disjoint_regions copy (length core + 3) text (length tl + 1) →
  disjoint_regions copy (length core + 3) pattern (length core + 3) →
  0 < text →
  ∃ m' r, simple_glob fuel m copy text pattern = Some (m', r) ∧
    (r = true ↔ glob_matches ss se core tl).
Proof.
  intros Ht Hp Hhead Hlast Hf Hs Hdt Hdp Hpos. unfold simple_glob.
  rewrite (strlen_cstr _ _ _ _ Hp)
    by (unfold SIZE_MAX in *; destruct ss, se; rewrite !length_app; cbn; lia).
  cbn. rewrite rdc_ascii by (unfold ch_star; lia).
  rewrite (cstr_head _ _ _ Hp).
  assert (bool_decide (head (star_if ss ++ core ++ star_if se) = Some ch_star) = ss) as ->.
  { destruct ss; [done|]. apply bool_decide_eq_false_2. by apply Hhead. }
  set (pat := if ss then pattern + 1 else pattern).
  assert (cstr m pat (core ++ star_if se)) as Hpat.
  { subst pat. destruct ss; cbn in Hp; [tauto|done]. }
  assert ((if ss then length (star_if ss ++ core ++ star_if se) - 1
           else length (star_if ss ++ core ++ star_if se)) = length (core ++ star_if se)) as ->.
  { destruct ss; cbn; lia. }
  assert (length (core ++ star_if se) <= length core + 1) as Hlen.
  { destruct se; rewrite length_app; cbn; lia. }
  unfold disjoint_regions, SIZE_MAX in *.
  destruct (strcpy_spec fuel m copy pat (core ++ star_if se)) as (m1 & -> & Hc1 & Hfr1);
    [done|lia|unfold disjoint_regions; subst pat; destruct ss; lia|]. cbn.
  assert (∀ x, pat <= x <= pat + length (core ++ star_if se) → rd8 m1 x = rd8 m x) as Hp1.
  { intros x Hx. apply Hfr1. subst pat. destruct ss; lia. }
  assert ((0 <? length (core ++ star_if se)) &&
          (rdc m1 (pat + length (core ++ star_if se) - 1) =? ch_star) = se) as ->.
  { rewrite rdc_ascii by (unfold ch_star; lia).
    destruct (decide (core ++ star_if se = [])) as [E|Hne].
    - rewrite E. cbn. destruct se; [|done]. by destruct core.
    - pose proof (cstr_last _ _ _ Hpat Hne) as Hl.
      assert (0 < length (core ++ star_if se)) by (destruct (core ++ star_if se); cbn; [done|lia]).
      rewrite Hp1 by lia. destruct (Z.ltb_spec 0 (length (core ++ star_if se))); [|lia]. cbn.
      destruct se; cbn in Hl.
      + rewrite last_snoc in Hl. injection Hl as E.
        apply Z.eqb_eq. symmetry. exact E.
      + rewrite app_nil_r in *. apply Z.eqb_neq. intros E. destruct (Hlast eq_refl).
        by rewrite Hl, E. }
  assert ((if se then length (core ++ star_if se) - 1 else length (core ++ star_if se))
          = length core) as ->.
  { destruct se; rewrite length_app; cbn; lia. }
  edestruct (glob_compare fuel m copy text tl core ss se) as (r & E & Hr);
    [..|exists (if se then wr8 m1 (copy + length core) 0 else m1), r; split; [exact E|by apply Hr]].
  all: try (done || (unfold disjoint_regions, SIZE_MAX; lia)).
  destruct se; cbn in *; split.
  - by apply cstr_cut in Hc1.
  - intros x Hx. rewrite rd8_wr8_other, Hfr1 by (rewrite ?length_app; cbn; lia). done.
  - by rewrite app_nil_r in Hc1.
  - intros x Hx. apply Hfr1. rewrite length_app. cbn. lia.
Qed.

(** ** Properties *)

(** [memmove] leaves in the destination the bytes the source had before the
    call, whatever the overlap of the two regions, and changes no other byte. *)
Theorem memmove_overlap m dest src (n : nat) :
  rdl (memmove m dest src n) dest n = rdl m src n ∧
  ∀ x, (x < dest ∨ dest + n <= x) → rd8 (memmove m dest src n) x = rd8 m x.
Proof.
  unfold memmove. destruct (Z.leb_spec dest src) as [Hle|Hgt].
  - destruct (move_up_spec m dest src n) as [H1 H2]; [lia|].
    split; [by apply rdl_ext|done].
  - destruct (move_down_spec m (dest + n) (src + n) n) as [H1 H2]; [lia|]. split.
    + apply rdl_ext. intros i Hi. specialize (H1 i Hi).
      by rewrite !Z.add_simpl_r in H1.
    + intros x Hx. apply H2. lia.
Qed.

(** [strstr] returns the address of the first occurrence of the second
    string in the first, and NULL exactly when there is none. *)
Theorem strstr_first_occurrence fuel m s1 s2 l k
  (Hl : cstr m s1 l) (Hk : cstr m s2 k)
  (Hf : (length l < fuel)%nat ∧ (length k < fuel)%nat)
  (Hs : length l < 2 ^ 64 ∧ length k < 2 ^ 64 ∧ 0 < s1) :
  ∃ r, strstr fuel m s1 s2 = Some r ∧
    (r = NULL ↔ ∀ u v, l ≠ u ++ k ++ v) ∧
    (r ≠ NULL → ∃ i : nat, r = s1 + i ∧ k `prefix_of` drop i l ∧
       ∀ j : nat, (j < i)%nat → ¬ k `prefix_of` drop j l).
Proof.
  rewrite (strstr_spec _ _ _ _ l k) by (done || lia). eexists; split; [done|].
  pose proof (find_sub_is_Some l k) as Hsub. unfold NULL.
  destruct (find_sub l k) as [i|] eqn:E; split.
  - split; [lia|]. intros Hno. destruct Hsub as [Hsub _].
    destruct (Hsub (ex_intro _ i eq_refl)) as (u & v & E'). by destruct (Hno u v).
  - intros _. exists i. apply find_sub_Some in E as (? & _ & ?). done.
  - split; [|done]. intros _ u v ->. destruct Hsub as [_ Hsub].
    destruct (Hsub (ex_intro _ u (ex_intro _ v eq_refl))) as [? [=]].
  - done.
Qed.

(** C22: [simple_glob] accepts exactly the texts the pattern stands for: its core
    with any string in place of a leading and of a trailing star. *)
Theorem simple_glob_spec fuel m copy text pattern tl core ss se
  (Htext : cstr m text tl)
  (Hpat : cstr m pattern (star_if ss ++ core ++ star_if se))
  (Hstart : ss = false → head (core ++ star_if se) ≠ Some ch_star)
  (Hend : se = false → last core ≠ Some ch_star)
  (Hfuel : (length tl < fuel)%nat ∧ (length core + 2 < fuel)%nat)
  (Hsize : length tl < SIZE_MAX ∧ length core + 2 < SIZE_MAX ∧ 0 < text)
  (Hdis : disjoint_regions copy (length core + 3) text (length tl + 1) ∧
          disjoint_regions copy (length core + 3) pattern (length core + 3)) :
  ∃ m' r, simple_glob fuel m copy text pattern = Some (m', r) ∧
    (r = true ↔ glob_matches ss se core tl).
Proof. apply simple_glob_correct; tauto. Qed.

(** Concrete strings: ["abab"] at 100, ["b*"] at 200, ["ab"] at 300. *)
Definition ex_mem : mem :=
  wrl (wrl (wrl ∅ 100 [97; 98; 97; 98]) 200 [98; 42]) 300 [97; 98].

Lemma strstr_first_occurrence_witness :
  cstr ex_mem 100 [97; 98; 97; 98] ∧
  ∃ r, strstr 10 ex_mem 100 300 = Some r ∧
    (r = NULL ↔ ∀ u v, [97; 98; 97; 98] ≠ u ++ [97; 98] ++ v) ∧
    (r ≠ NULL → ∃ i : nat, r = 100 + i ∧ [97; 98] `prefix_of` drop i [97; 98; 97; 98] ∧
       ∀ j : nat, (j < i)%nat → ¬ [97; 98] `prefix_of` drop j [97; 98; 97; 98]).
Proof.
  split; [vm_compute; by split_and!|].
  apply (strstr_first_occurrence 10 ex_mem 100 300 [97; 98; 97; 98] [97; 98]);
    [vm_compute; by split_and! .. | cbn; lia | cbn; lia].
Defined.

Lemma simple_glob_spec_witness :
  ∃ m' r, simple_glob 10 ex_mem 400 100 200 = Some (m', r) ∧
    (r = true ↔ glob_matches false true [98] [97; 98; 97; 98]).
Proof.
  apply (simple_glob_spec 10 ex_mem 400 100 200 [97; 98; 97; 98] [98] false true);
    [vm_compute; by split_and! .. | by intros _ [=] | done
    | cbn; lia | cbn; unfold SIZE_MAX; lia | unfold disjoint_regions; cbn; lia].
Defined.

Example simple_glob_ex :
  snd <$> simple_glob 10 ex_mem 400 100 200 = Some false ∧
  snd <$> simple_glob 10 (wrl ex_mem 200 [97; 42]) 400 100 200 = Some true ∧
  strstr 10 ex_mem 100 300 = Some 100.
Proof. by vm_compute. Qed.
