(* ===== verification/Printf.v ===== *)
(** * Formatted output: lib/printf.c

    [vsnprintf] and its helpers over the byte memory.  The variadic arguments
    are the list of their 8-byte slots; [va_arg] takes the next slot at the
    width of the requested type, and a missing argument is undefined ([None]).
    The local arrays [buf] of [print_int] and [print_unsigned] are in memory, at
    an address [sp] of the stack that the caller of the model chooses.  [None]
    is an undefined access or a [fuel] that does not bound the strings. *)

From S2P Require Import Prelude Memory CString.

Record pstream := Pstream { p_buffer : Z; p_remain : Z; p_added : Z }.
Record strprops := Strprops { pad : Z; npad : Z; alternate : bool }.

(** The memory and the stream every function updates. *)
Abbreviation out := (mem * pstream)%type.

Definition addchar (o : out) (c : Z) : out :=
  let '(m, p) := o in
  if p_remain p =? 0 then (m, Pstream (p_buffer p) 0 (s32 (p_added p + 1)))
  else (wr8 m (p_buffer p) c,
        Pstream (p_buffer p + 1) (s32 (p_remain p - 1)) (s32 (p_added p + 1))).

Fixpoint addchars (o : out) (c : Z) (n : nat) : out :=
  match n with O => o | S n' => addchars (addchar o c) c n' end.

(** [while ( *s ) addchar(p, *s++);] *)
Fixpoint put_string (fuel : nat) (o : out) (s : Z) : option out :=
  match fuel with
  | O => None
  | S f => if rdc o.1 s =? 0 then Some o else put_string f (addchar o (rdc o.1 s)) (s + 1)
  end.

Definition print_str (fuel : nat) (o : out) (s : Z) (props : strprops) : option out :=
  '(o, n) ← (if 0 <? npad props then
               len ← strlen fuel o.1 s;
               let n := s32 (npad props - len) in
               Some (addchars o (pad props) (Z.to_nat n), Z.min n 0)
             else Some (o, npad props));
  o ← put_string fuel o s;
  if n <? 0 then
    len ← strlen fuel o.1 s;
    let n := s32 (n + len) in
    Some (addchars o ch_space (Z.to_nat (- n)))
  else Some o.

(** [static char digits[16] = "0123456789abcdef"] *)
Definition digits (i : Z) : option Z :=
  if i <? 0 then None else [48;49;50;51;52;53;54;55;56;57;97;98;99;100;101;102] !! Z.to_nat i.

(** [while (n) { *p++ = digits[n % base]; n /= base; }]: C division truncates. *)
Fixpoint put_digits (fuel : nat) (m : mem) (p n base : Z) : option (mem * Z) :=
  match fuel with
  | O => None
  | S f =>
      if n =? 0 then Some (m, p)
      else d ← digits (Z.rem n base); put_digits f (wr8 m p d) (p + 1) (Z.quot n base) base
  end.

(** [for (i = 0; i < (p - buf) / 2; ++i)]: exchange [buf[i]] and [p[-1-i]],
    [k] iterations from [i] on. *)
Fixpoint reverse_from (k : nat) (m : mem) (buf p i : Z) : mem :=
  match k with
  | O => m
  | S k' =>
      let tmp := rdc m (buf + i) in
      let m := wr8 m (buf + i) (rdc m (p - 1 - i)) in
      let m := wr8 m (p - 1 - i) tmp in
      reverse_from k' m buf p (i + 1)
  end.

Definition reverse_buf (m : mem) (buf p : Z) : mem :=
  reverse_from (Z.to_nat ((p - buf) / 2)) m buf p 0.

Definition print_int (fuel : nat) (o : out) (sp n base : Z) (props : strprops) : option out :=
  let '(m, ps) := o in
  let buf := sp in
  let s := n <? 0 in
  let n := if s then s64 (- n) else n in
  '(m, p) ← put_digits fuel m buf n base;
  let '(m, p) := if (s : bool) then (wr8 m p ch_minus, p + 1) else (m, p) in
  let '(m, p) := if p =? buf then (wr8 m p ch_0, p + 1) else (m, p) in
  let m := reverse_buf m buf p in
  let m := wr8 m p 0 in
  print_str fuel (m, ps) buf props.

Definition ch_x : Z := 120.

Definition print_unsigned (fuel : nat) (o : out) (sp n base : Z) (props : strprops) : option out :=
  let '(m, ps) := o in
  let buf := sp in
  '(m, p) ← put_digits fuel m buf n base;
  let '(m, ps, p, props) :=
    if p =? buf then (wr8 m p ch_0, ps, p + 1, props)
    else if alternate props && (base =? 16) then
      if pad props =? ch_0 then
        let '(m, ps) := addchar (addchar (m, ps) ch_0) ch_x in
        (m, ps, p,
         if 0 <? npad props then Strprops (pad props) (Z.max (npad props - 2) 0) (alternate props)
         else props)
      else (wr8 (wr8 m p ch_x) (p + 1) ch_0, ps, p + 2, props)
    else (m, ps, p, props) in
  let m := reverse_buf m buf p in
  let m := wr8 m p 0 in
  print_str fuel (m, ps) buf props.

(** [while ( *f >= '0' && *f <= '9') ++f, ++len;] *)
Fixpoint count_digits (fuel : nat) (m : mem) (f : Z) : option Z :=
  match fuel with
  | O => None
  | S fu =>
      if (ch_0 <=? rdc m f) && (rdc m f <=? ch_9)
      then n ← count_digits fu m (f + 1); Some (n + 1)
      else Some 0
  end.

(** The number read, and the format pointer after it. *)
Definition fmtnum (fuel : nat) (m : mem) (fmt : Z) : option (Z * Z) :=
  let neg := rdc m fmt =? ch_minus in
  len ← count_digits fuel m (if neg then fmt + 1 else fmt);
  num ← atol fuel m fmt;
  Some (s32 num, fmt + (len + if neg then 1 else 0)).

(** [va_arg(va, int)], [unsigned], [long], [unsigned long] and pointers. *)
Definition va_arg (ty : Z → Z) (va : list Z) : option (Z * list Z) :=
  match va with [] => None | x :: va' => Some (ty x, va') end.

Definition ch_percent : Z := 37.
Definition ch_hash : Z := 35.
Definition ch_c : Z := 99.
Definition ch_d : Z := 100.
Definition ch_l : Z := 108.
Definition ch_p : Z := 112.
Definition ch_s : Z := 115.
Definition ch_t : Z := 116.
Definition ch_u : Z := 117.
Definition ch_z : Z := 122.

(** From the label [morefmt] to the end of the conversion. *)
Fixpoint morefmt (fuel : nat) (o : out) (sp fmt : Z) (va : list Z)
    (nlong : Z) (props : strprops) : option (out * Z * list Z) :=
  match fuel with
  | O => None
  | S fu =>
      let f := rdc o.1 fmt in
      let fmt := fmt + 1 in
      if f =? ch_percent then Some (addchar o ch_percent, fmt, va)
      else if f =? ch_c then
        '(c, va) ← va_arg s32 va; Some (addchar o c, fmt, va)
      else if f =? 0 then Some (o, fmt - 1, va)
      else if f =? ch_hash then
        morefmt fu o sp fmt va nlong (Strprops (pad props) (npad props) true)
      else if f =? ch_0 then
        '(n, fmt) ← fmtnum fu o.1 fmt;
        morefmt fu o sp fmt va nlong (Strprops ch_0 n (alternate props))
      else if ((49 <=? f) && (f <=? ch_9)) || (f =? ch_minus) then
        '(n, fmt) ← fmtnum fu o.1 (fmt - 1);
        morefmt fu o sp fmt va nlong (Strprops (pad props) n (alternate props))
      else if f =? ch_l then morefmt fu o sp fmt va (nlong + 1) props
      else if (f =? ch_t) || (f =? ch_z) then morefmt fu o sp fmt va 1 props
      else if f =? ch_d then
        '(n, va) ← va_arg (if nlong =? 0 then s32 else s64) va;
        o ← print_int fu o sp n 10 props; Some (o, fmt, va)
      else if f =? ch_u then
        '(n, va) ← va_arg (if nlong =? 0 then u32 else u64) va;
        o ← print_unsigned fu o sp n 10 props; Some (o, fmt, va)
      else if f =? ch_x then
        '(n, va) ← va_arg (if nlong =? 0 then u32 else u64) va;
        o ← print_unsigned fu o sp n 16 props; Some (o, fmt, va)
      else if f =? ch_p then
        let props := Strprops (pad props) (npad props) true in
        '(n, va) ← va_arg u64 va;
        o ← print_unsigned fu o sp n 16 props; Some (o, fmt, va)
      else if f =? ch_s then
        '(s, va) ← va_arg u64 va;
        o ← print_str fu o s props; Some (o, fmt, va)
      else Some (addchar o f, fmt, va)
  end.

(** [while ( *fmt )] of [vsnprintf]. *)
Fixpoint vsn_loop (fuel : nat) (o : out) (sp fmt : Z) (va : list Z) : option out :=
  match fuel with
  | O => None
  | S fu =>
      if rdc o.1 fmt =? 0 then Some o
      else
        let f := rdc o.1 fmt in
        let fmt := fmt + 1 in
        if negb (f =? ch_percent) then vsn_loop fu (addchar o f) sp fmt va
        else
          '(o, fmt, va) ← morefmt fu o sp fmt va 0 (Strprops ch_space 0 false);
          vsn_loop fu o sp fmt va
  end.

(** The new memory and the value returned. *)
Definition vsnprintf (fuel : nat) (m : mem) (sp buf size fmt : Z) (va : list Z) : option (mem * Z) :=
  '(m, s) ← vsn_loop fuel (m, Pstream buf (s32 (size - 1)) 0) sp fmt va;
  Some (wr8 m (p_buffer s) 0, p_added s).

Definition snprintf := vsnprintf.

Definition BUFSZ : Z := 2000.

(** [vprintf]: [buf] is the address of its local buffer; the third component
    is the string handed to [puts]. *)
Definition vprintf (fuel : nat) (m : mem) (sp buf fmt : Z) (va : list Z)
    : option (mem * Z * list Z) :=
  '(m, r) ← vsnprintf fuel m sp buf BUFSZ fmt va;
  len ← strlen fuel m buf;
  Some (m, r, rdl m buf (Z.to_nat len)).

(** ** What a format says: the specification on lists

    The same conversions as functions from lists to lists: the complete text a
    call describes, without a buffer. *)

Definition digit_char (d : Z) : Z := if d <? 10 then d + 48 else d + 87.

(** The digits of [n], the least significant first; 64 are enough for 64 bits. *)
Fixpoint ldigits (k : nat) (n base : Z) : list Z :=
  match k with
  | O => []
  | S k' => if n =? 0 then [] else digit_char (n mod base) :: ldigits k' (n / base) base
  end.

Definition num_digits (n base : Z) : list Z :=
  if n =? 0 then [ch_0] else reverse (ldigits 64 n base).

Definition int_text (n base : Z) : list Z :=
  if n <? 0 then ch_minus :: num_digits (- n) base else num_digits n base.

(** A text in a field of [npad] characters, to the right of it when positive
    and to the left of it when negative. *)
Definition padded (props : strprops) (l : list Z) : list Z :=
  if 0 <? npad props then replicate (Z.to_nat (npad props - length l)) (u8 (pad props)) ++ l
  else l ++ replicate (Z.to_nat (- npad props - length l)) ch_space.

Definition unsigned_text (n base : Z) (props : strprops) : list Z :=
  if negb (n =? 0) && (alternate props && (base =? 16)) then
    if pad props =? ch_0 then
      [ch_0; ch_x] ++
      padded (if 0 <? npad props
              then Strprops (pad props) (Z.max (npad props - 2) 0) (alternate props)
              else props) (num_digits n base)
    else padded props ([ch_0; ch_x] ++ num_digits n base)
  else padded props (num_digits n base).

(** ** The stream after some output *)

Section Stream.
Context (buf size : Z).
Context (Hsize : 1 <= size < 2 ^ 31).

(** The bytes [o] have been printed: as many of them as fit are in the
    buffer, and all of them are counted. *)
Definition stream (o : list Z) (st : out) : Prop :=
  let k := Z.min (length o) (size - 1) in
  st.2 = Pstream (buf + k) (size - 1 - k) (s32 (length o)) ∧
  rdl st.1 buf (Z.to_nat k) = take (Z.to_nat k) o.

Definition same_outside (m m' : mem) : Prop :=
  ∀ x, (x < buf ∨ buf + size - 1 <= x) → rd8 m' x = rd8 m x.

(** [st'] is [st] after [l] has been printed. *)
Definition emits (st : out) (l : list Z) (st' : out) : Prop :=
  ∀ o, stream o st → stream (o ++ l) st' ∧ same_outside st.1 st'.1.

Lemma same_outside_refl m : same_outside m m.
Proof. done. Qed.

Lemma same_outside_trans m1 m2 m3 :
  same_outside m1 m2 → same_outside m2 m3 → same_outside m1 m3.
Proof. intros H1 H2 x Hx. by rewrite H2, H1. Qed.

Lemma emits_nil st : emits st [] st.
Proof. intros o Ho. by rewrite app_nil_r. Qed.

Lemma emits_app st1 l1 st2 l2 st3 :
  emits st1 l1 st2 → emits st2 l2 st3 → emits st1 (l1 ++ l2) st3.
Proof.
  intros H1 H2 o Ho. destruct (H1 o Ho) as [Ho1 Hs1]. destruct (H2 _ Ho1) as [Ho2 Hs2].
  rewrite app_assoc. split; [done|by eapply same_outside_trans].
Qed.

Lemma stream_mem o m m' p :
  (∀ x, buf <= x < buf + size - 1 → rd8 m' x = rd8 m x) → stream o (m, p) → stream o (m', p).
Proof.
  intros Hm [Hp Hr]. split; [done|]. cbn in *. rewrite <- Hr.
  apply rdl_ext. intros i Hi. apply Hm. lia.
Qed.

Lemma s32_succ x : s32 (s32 x + 1) = s32 (x + 1).
Proof. mlia. Qed.

Lemma take_snoc_lt {A} (l : list A) x n : (n <= length l)%nat → take n (l ++ [x]) = take n l.
Proof. intros. by rewrite take_app_le. Qed.

Lemma addchar_emits st c : emits st [u8 c] (addchar st c).
Proof using Hsize.
  intros o [Hp Hr]. destruct st as [m p]. cbn in Hp, Hr. subst p. cbn.
  destruct (Z.eqb_spec (size - 1 - Z.min (length o) (size - 1)) 0) as [E|E].
  - assert (size - 1 <= length o) by lia.
    split; [|apply same_outside_refl]. unfold stream. cbn. rewrite length_app. cbn.
    replace (Z.min (length o + 1)%nat (size - 1)) with (size - 1) by lia.
    replace (Z.min (length o) (size - 1)) with (size - 1) in * by lia. split.
    + f_equal; [lia|]. rewrite s32_succ. f_equal. lia.
    + rewrite take_snoc_lt by lia. done.
  - assert (Z.min (length o) (size - 1) = length o) as Emin by lia. rewrite Emin in *.
    rewrite Nat2Z.id in Hr. split.
    + unfold stream. cbn. rewrite length_app. cbn.
      replace (Z.min (length o + 1)%nat (size - 1)) with (length o + 1) by lia. split.
      * f_equal; [lia| |].
        -- rewrite swrap_small by lia. lia.
        -- rewrite s32_succ. f_equal. lia.
      * replace (Z.to_nat (length o + 1)) with (length o + 1)%nat by lia.
        rewrite rdl_app, take_ge by (rewrite length_app; cbn; lia). f_equal.
        -- transitivity (rdl m buf (length o)); [|by rewrite Hr, take_ge].
           apply rdl_ext. intros i Hi. apply rd8_wr8_other. lia.
        -- cbn. by rewrite rd8_wr8_same.
    + intros x Hx. cbn. apply rd8_wr8_other. lia.
Qed.

Lemma addchars_emits st c n : emits st (replicate n (u8 c)) (addchars st c n).
Proof using Hsize.
  revert st. induction n as [|n IH]; intros st; cbn; [apply emits_nil|].
  apply (emits_app _ [_] (addchar st c) (replicate n _)); [apply addchar_emits|done].
Qed.

(** A string that the output does not overwrite. *)
Definition off_buffer (s : Z) (l : list Z) : Prop :=
  disjoint_regions s (length l + 1) buf (size - 1).

Lemma cstr_same_outside m m' s l :
  same_outside m m' → off_buffer s l → cstr m s l → cstr m' s l.
Proof.
  unfold off_buffer, disjoint_regions. intros Hs Hd. apply cstr_ext.
  intros i Hi. apply Hs. lia.
Qed.

Lemma put_string_emits fuel st s l o :
  stream o st → cstr st.1 s l → off_buffer s l → (length l < fuel)%nat →
  ∃ st', put_string fuel st s = Some st' ∧ emits st l st'.
Proof using Hsize.
  revert st s l o. induction fuel as [|fuel IH]; intros st s l o Ho Hs Hd Hf; [lia|].
  cbn [put_string]. destruct l as [|b l]; cbn in Hs.
  - rewrite rdc_z by done. eexists; split; [done|apply emits_nil].
  - destruct Hs as (Hb & Hnz & Hs). rewrite rdc_nz by congruence.
    pose proof (addchar_emits st (rdc st.1 s)) as He. rewrite u8_rdc, Hb in He.
    destruct (He _ Ho) as [Ho' Hsame].
    unfold off_buffer, disjoint_regions in Hd. cbn in Hd, Hf.
    assert (off_buffer (s + 1) l) as Hd' by (unfold off_buffer, disjoint_regions; lia).
    destruct (IH (addchar st (rdc st.1 s)) (s + 1) l _ Ho') as (st' & E & He');
      [by eapply cstr_same_outside|done|lia|].
    exists st'. split; [done|]. by apply (emits_app _ [b] (addchar st (rdc st.1 s)) l).
Qed.

Lemma print_str_emits fuel st s l o props :
  stream o st → cstr st.1 s l → off_buffer s l → (length l < fuel)%nat →
  length l < 2 ^ 31 → - 2 ^ 31 <= npad props < 2 ^ 31 →
  ∃ st', print_str fuel st s props = Some st' ∧ emits st (padded props l) st'.
Proof using Hsize.
  intros Ho Hs Hd Hf Hl Hn. unfold print_str, padded.
  destruct (Z.ltb_spec 0 (npad props)) as [Hpos|Hneg].
  - rewrite (strlen_cstr _ _ _ l) by (done || lia). cbn.
    rewrite swrap_small by lia.
    pose proof (addchars_emits st (pad props) (Z.to_nat (npad props - length l))) as He1.
    destruct (He1 _ Ho) as [Ho1 Hs1].
    destruct (put_string_emits fuel _ s l _ Ho1) as (st' & E & He2);
      [by eapply cstr_same_outside|done|done|]. rewrite E. cbn.
    pose proof (emits_app _ _ _ _ _ He1 He2) as He.
    destruct (Z.ltb_spec (Z.min (npad props - length l) 0) 0) as [Hlt|Hge]; [|by eauto].
    destruct (He _ Ho) as [_ Hs2].
    rewrite (strlen_cstr _ _ _ l) by (try lia; by eapply cstr_same_outside). cbn.
    rewrite swrap_small by lia.
    replace (Z.to_nat (- (Z.min (npad props - length l) 0 + length l))) with 0%nat by lia.
    cbn. by eauto.
  - cbn. destruct (put_string_emits fuel st s l _ Ho) as (st' & -> & He); [done..|]. cbn.
    destruct (Z.ltb_spec (npad props) 0) as [Hlt|Hge].
    + destruct (He _ Ho) as [_ Hs1].
      rewrite (strlen_cstr _ _ _ l) by (try lia; by eapply cstr_same_outside). cbn.
      rewrite swrap_small by lia.
      replace (- (npad props + length l)) with (- npad props - length l) by lia.
      eexists; split; [done|]. eapply emits_app; [done|].
      apply (addchars_emits _ ch_space).
    + replace (Z.to_nat (- npad props - length l)) with 0%nat by lia.
      rewrite app_nil_r. by eauto.
Qed.
End Stream.

(** ** Numbers in the local buffer *)

Lemma ldigits_length k n base (j : nat) :
  2 <= base → 0 <= n < base ^ j → (length (ldigits k n base) <= j)%nat.
Proof.
  intros Hb. revert n j. induction k as [|k IH]; intros n j Hn; cbn; [lia|].
  destruct (Z.eqb_spec n 0) as [|Hn0]; cbn; [lia|].
  destruct j as [|j]; [cbn in Hn; lia|].
  assert (base ^ S j = base * base ^ j) as E by (rewrite <- Z.pow_succ_r by lia; f_equal; lia).
  apply le_n_S, IH. split; [apply Z.div_pos; lia|].
  apply Z.div_lt_upper_bound; lia.
Qed.

Lemma digits_char d : 0 <= d < 16 → digits d = Some (digit_char d).
Proof.
  intros Hd. assert (d ∈ seqZ 0 16) as Hin by (apply elem_of_seqZ; lia).
  vm_compute in Hin. repeat (apply elem_of_cons in Hin as [->|Hin]; [done|]).
  by apply elem_of_nil in Hin.
Qed.

Lemma digit_char_range d : 0 <= d < 16 → 48 <= digit_char d < 128.
Proof. unfold digit_char. destruct (Z.ltb_spec d 10); lia. Qed.

Lemma put_digits_spec fuel m p n base (k : nat) :
  2 <= base <= 16 → 0 <= n < 2 ^ k → (k < fuel)%nat →
  put_digits fuel m p n base =
    Some (wrl m p (ldigits k n base), p + length (ldigits k n base)).
Proof.
  intros Hb. revert m p n k. induction fuel as [|fuel IH]; intros m p n k Hn Hf; [lia|].
  cbn [put_digits]. destruct (Z.eqb_spec n 0) as [->|Hn0].
  - assert (ldigits k 0 base = []) as -> by (by destruct k). cbn. do 2 f_equal. lia.
  - destruct k as [|k]; [cbn in Hn; lia|]. cbn [ldigits].
    destruct (Z.eqb_spec n 0) as [|_]; [done|].
    rewrite Z.rem_mod_nonneg, Z.quot_div_nonneg by lia.
    rewrite digits_char by (pose proof (Z.mod_pos_bound n base); lia). cbn.
    assert (2 ^ S k = 2 * 2 ^ k) as E by (rewrite <- Z.pow_succ_r by lia; f_equal; lia).
    rewrite (IH _ _ _ k); [do 2 f_equal; lia| |lia].
    split; [apply Z.div_pos; lia|]. apply Z.div_lt_upper_bound; nia.
Qed.

Lemma ldigits_range k n base :
  2 <= base <= 16 → Forall (λ b, 48 <= b < 128) (ldigits k n base).
Proof.
  intros Hb. revert n. induction k as [|k IH]; intros n; cbn; [constructor|].
  destruct (Z.eqb_spec n 0); [constructor|]. constructor; [|done].
  apply digit_char_range. pose proof (Z.mod_pos_bound n base). lia.
Qed.

Lemma reverse_from_spec (k : nat) m buf n i :
  0 <= i → i + k = n / 2 →
  (∀ j, 0 <= j < n → rd8 (reverse_from k m buf (buf + n) i) (buf + j) =
     if decide (i <= j < n - i) then rd8 m (buf + (n - 1 - j)) else rd8 m (buf + j)) ∧
  (∀ x, (x < buf ∨ buf + n <= x) → rd8 (reverse_from k m buf (buf + n) i) x = rd8 m x).
Proof.
  revert m i. induction k as [|k IH]; intros m i Hi Hk; cbn [reverse_from].
  - split; [|done]. intros j Hj. case_decide; [|done]. f_equal.
    assert (n - 1 - j = j) by mlia. lia.
  - set (m2 := wr8 _ _ _). destruct (IH m2 (i + 1)) as [H1 H2]; [lia|lia|].
    assert (i < n - 1 - i) by mlia.
    assert (∀ j, 0 <= j < n → rd8 m2 (buf + j) =
      if decide (j = i ∨ j = n - 1 - i) then rd8 m (buf + (n - 1 - j)) else rd8 m (buf + j)) as Hm2.
    { intros j Hj. subst m2. rewrite !rd8_wr8. destruct (decide (j = i ∨ j = n - 1 - i)) as [[->| ->]|].
      - rewrite decide_False, decide_True, u8_rdc by lia. f_equal. lia.
      - rewrite decide_True, u8_rdc by lia. f_equal. lia.
      - rewrite !decide_False by lia. done. }
    split.
    + intros j Hj. rewrite H1 by done. repeat case_decide; try lia.
      * rewrite Hm2, decide_False by lia. done.
      * rewrite Hm2, decide_True by lia. done.
      * rewrite Hm2, decide_False by lia. done.
    + intros x Hx. rewrite H2 by done. subst m2. rewrite !rd8_wr8_other by lia. done.
Qed.

Lemma reverse_buf_rdl m buf (n : nat) :
  rdl (reverse_buf m buf (buf + n)) buf n = reverse (rdl m buf n) ∧
  ∀ x, (x < buf ∨ buf + n <= x) → rd8 (reverse_buf m buf (buf + n)) x = rd8 m x.
Proof.
  unfold reverse_buf. replace (buf + n - buf) with (Z.of_nat n) by lia.
  destruct (reverse_from_spec (Z.to_nat (n / 2)) m buf n 0) as [H1 H2]; [lia|mlia|].
  split; [|done]. apply list_eq. intros i. destruct (decide (i < n)%nat) as [Hi|Hi].
  - rewrite rdl_lookup by done. rewrite reverse_lookup by (by rewrite rdl_length).
    rewrite rdl_length, rdl_lookup by lia. f_equal.
    rewrite H1, decide_True by lia. f_equal. lia.
  - rewrite !lookup_ge_None_2; [done|..]; rewrite ?length_reverse, rdl_length; lia.
Qed.

(** The local array [L], reversed and terminated, is the string [reverse L]. *)
Lemma local_string m sp L :
  Forall (λ b, 0 < b < 2 ^ 8) L → rdl m sp (length L) = L →
  let m1 := wr8 (reverse_buf m sp (sp + length L)) (sp + length L) 0 in
  cstr m1 sp (reverse L) ∧ ∀ x, (x < sp ∨ sp + length L < x) → rd8 m1 x = rd8 m x.
Proof.
  intros HL Hr m1. destruct (reverse_buf_rdl m sp (length L)) as [H1 H2]. split.
  - apply cstr_intro; rewrite ?length_reverse.
    + transitivity (reverse (rdl m sp (length L))); [|by rewrite Hr].
      rewrite <- H1. apply rdl_ext. intros i Hi. apply rd8_wr8_other. lia.
    + apply Forall_reverse. eapply Forall_impl; [done|]. cbn. lia.
    + subst m1. by autorewrite with mem.
  - intros x Hx. subst m1. rewrite rd8_wr8_other, H2 by lia. done.
Qed.

Lemma ldigits_0 k base : ldigits k 0 base = [].
Proof. by destruct k. Qed.

Lemma ldigits_nil n base : ldigits 64 n base = [] → n = 0.
Proof. cbn [ldigits]. destruct (Z.eqb_spec n 0); done. Qed.

#[local] Opaque ldigits.

(** The longest number text: 20 digits, a sign or "0x". *)
Definition local_len : Z := 27.

Section Numbers.
Context (buf size sp : Z).
Context (Hsize : 1 <= size < 2 ^ 31).
Context (Hsp : disjoint_regions sp local_len buf (size - 1)).

(** Only the output buffer and the local array change. *)
Definition frame (m m' : mem) : Prop :=
  ∀ x, (x < buf ∨ buf + size - 1 <= x) → (x < sp ∨ sp + local_len <= x) →
  rd8 m' x = rd8 m x.

Definition prints (st : out) (l : list Z) (st' : out) : Prop :=
  ∀ o, stream buf size o st → stream buf size (o ++ l) st' ∧ frame st.1 st'.1.

Lemma emits_prints st l st' : emits buf size st l st' → prints st l st'.
Proof.
  intros He o Ho. destruct (He o Ho) as [Ho' Hs]. split; [done|].
  intros x Hx _. by apply Hs.
Qed.

Lemma prints_app st1 l1 st2 l2 st3 :
  prints st1 l1 st2 → prints st2 l2 st3 → prints st1 (l1 ++ l2) st3.
Proof.
  intros H1 H2 o Ho. destruct (H1 o Ho) as [Ho1 Hs1]. destruct (H2 _ Ho1) as [Ho2 Hs2].
  rewrite app_assoc. split; [done|]. intros x Hx Hx'. by rewrite Hs2, Hs1.
Qed.

Lemma rdl_bytes m L : Forall (λ b, 0 < b < 2 ^ 8) L → rdl (wrl m sp L) sp (length L) = L.
Proof. intros HL. apply rdl_wrl_same. eapply Forall_impl; [done|]. cbn. lia. Qed.

Lemma local_prints m ps L : length L < local_len → prints (m, ps) [] (wrl m sp L, ps).
Proof using Hsp.
  unfold disjoint_regions, local_len in *. intros HL o Ho. rewrite app_nil_r. split.
  - eapply stream_mem; [|done]. intros x Hx. apply rd8_wrl_other. lia.
  - intros x _ Hx. apply rd8_wrl_other. unfold local_len in Hx. lia.
Qed.

(** Printing a number whose characters [L] are in the local array, the least
    significant first: they are reversed, terminated and printed. *)
Lemma print_local fuel m ps o L props :
  stream buf size o (m, ps) → rdl m sp (length L) = L →
  Forall (λ b, 0 < b < 2 ^ 8) L → length L < local_len → (length L < fuel)%nat →
  - 2 ^ 31 <= npad props < 2 ^ 31 →
  let m1 := wr8 (reverse_buf m sp (sp + length L)) (sp + length L) 0 in
  ∃ st', print_str fuel (m1, ps) sp props = Some st' ∧
    prints (m, ps) (padded props (reverse L)) st'.
Proof using Type*.
  intros Ho Hr HL Hlen Hf Hn m1. destruct (local_string m sp L HL Hr) as [Hc Hfr].
  fold m1 in Hc, Hfr. unfold disjoint_regions, local_len in *.
  assert (∀ o', stream buf size o' (m, ps) → stream buf size o' (m1, ps)) as Hst.
  { intros o' Ho'. eapply stream_mem; [|done]. intros x Hx. apply Hfr. lia. }
  destruct (print_str_emits buf size Hsize fuel (m1, ps) sp (reverse L) o props)
    as (st' & E & He); rewrite ?length_reverse; try done; try lia; [by apply Hst| |].
  { unfold off_buffer, disjoint_regions. rewrite length_reverse. lia. }
  exists st'. split; [done|]. intros o' Ho'.
  destruct (He o' (Hst _ Ho')) as [Ho2 Hs]. split; [done|].
  intros x Hx Hx'. rewrite (Hs x Hx). cbn. apply Hfr. unfold local_len in Hx'. lia.
Qed.

(** The same when the number has just been stored. *)
Lemma print_stored fuel m ps o L props :
  stream buf size o (m, ps) →
  Forall (λ b, 0 < b < 2 ^ 8) L → length L < local_len → (length L < fuel)%nat →
  - 2 ^ 31 <= npad props < 2 ^ 31 →
  let m1 := wr8 (reverse_buf (wrl m sp L) sp (sp + length L)) (sp + length L) 0 in
  ∃ st', print_str fuel (m1, ps) sp props = Some st' ∧
    prints (m, ps) (padded props (reverse L)) st'.
Proof using Type*.
  intros Ho HL Hlen Hf Hn m1. pose proof (local_prints m ps L Hlen) as Hp0.
  destruct (Hp0 _ Ho) as [Ho1 _].
  destruct (print_local fuel (wrl m sp L) ps _ L props Ho1) as (st' & E & Hp);
    [by apply rdl_bytes|done..|].
  exists st'. split; [done|]. exact (prints_app _ _ _ _ _ Hp0 Hp).
Qed.

Lemma num_digits_reverse n base :
  num_digits n base = reverse (if n =? 0 then [ch_0] else ldigits 64 n base).
Proof. unfold num_digits. by destruct (n =? 0). Qed.

Lemma chars_bytes L : Forall (λ b, 48 <= b < 128) L → Forall (λ b, 0 < b < 2 ^ 8) L.
Proof. intros H. eapply Forall_impl; [done|]. cbn. lia. Qed.

Lemma print_int_prints fuel st o n props :
  stream buf size o st → - 2 ^ 63 < n < 2 ^ 63 → (65 < fuel)%nat →
  - 2 ^ 31 <= npad props < 2 ^ 31 →
  ∃ st', print_int fuel st sp n 10 props = Some st' ∧
    prints st (padded props (int_text n 10)) st'.
Proof using Type*.
  intros Ho Hn Hf Hp. destruct st as [m ps]. unfold print_int, int_text.
  assert ((if n <? 0 then s64 (- n) else n) = Z.abs n) as ->.
  { destruct (Z.ltb_spec n 0); [rewrite swrap_small by lia|]; lia. }
  rewrite (put_digits_spec _ _ _ _ _ 64) by lia. cbn [mbind option_bind].
  remember (ldigits 64 (Z.abs n) 10) as D eqn:ED.
  assert (Forall (λ b, 48 <= b < 128) D) as HD by (subst D; apply ldigits_range; lia).
  assert (length D <= 19)%nat as HlD by (subst D; apply ldigits_length; lia).
  destruct (Z.ltb_spec n 0) as [Hneg|Hpos].
  - destruct (Z.eqb_spec (sp + length D + 1) sp) as [|_]; [lia|].
    assert (- n ≠ 0) as Hnz by lia. unfold num_digits.
    destruct (Z.eqb_spec (- n) 0) as [|_]; [done|].
    assert (ldigits 64 (- n) 10 = D) as -> by (assert (Z.abs n = - n) as E1 by lia; rewrite ED, E1; reflexivity).
    assert (ch_minus :: reverse D = reverse (D ++ [ch_minus])) as ->
      by (by rewrite reverse_app).
    change (wr8 (wrl m sp D) (sp + length D) ch_minus)
      with (wrl (wrl m sp D) (sp + length D) [ch_minus]). rewrite <- wrl_app.
    replace (sp + length D + 1) with (sp + length (D ++ [ch_minus]))
      by (rewrite length_app; cbn; lia).
    apply (print_stored _ _ _ o); try done; rewrite ?length_app; cbn; unfold local_len; try lia.
    apply Forall_app; split; [by apply chars_bytes|]. repeat constructor; unfold ch_minus; lia.
  - rewrite num_digits_reverse.
    assert (ldigits 64 n 10 = D) as -> by (assert (Z.abs n = n) as E1 by lia; rewrite ED, E1; reflexivity).
    destruct (Z.eqb_spec n 0) as [->|Hnz].
    + assert (D = []) as -> by (rewrite ED; apply ldigits_0). cbn [length wrl].
      destruct (Z.eqb_spec (sp + 0%nat) sp) as [_|]; [|lia].
      replace (sp + 0%nat + 1) with (sp + length [ch_0]) by (cbn; lia).
      replace (sp + 0%nat) with sp by lia.
      apply (print_stored _ _ _ o [ch_0]); try done; cbn; unfold local_len; try lia.
      repeat constructor.
    + assert (D ≠ []) as HDn by (intros ->; symmetry in ED; apply ldigits_nil in ED; lia).
      destruct (Z.eqb_spec (sp + length D) sp) as [E|_]; [destruct D; cbn in E; [done|lia]|].
      apply (print_stored _ _ _ o); try done; unfold local_len; try lia.
      by apply chars_bytes.
Qed.

(** The characters of a nonzero number are put in the local array. *)
Lemma unsigned_digits n base :
  0 < n < 2 ^ 64 → 8 <= base <= 16 →
  let D := ldigits 64 n base in
  Forall (λ b, 48 <= b < 128) D ∧ (0 < length D <= 22)%nat ∧ num_digits n base = reverse D.
Proof.
  intros Hn Hb D. repeat split.
  - apply ldigits_range. lia.
  - destruct D eqn:E; cbn; [|lia]. apply ldigits_nil in E. lia.
  - apply ldigits_length; [lia|]. split; [lia|].
    apply Z.lt_le_trans with (8 ^ 22%nat); [|apply Z.pow_le_mono_l; lia].
    apply Z.lt_le_trans with (2 ^ 64); [lia|]. by vm_compute.
  - rewrite num_digits_reverse. destruct (Z.eqb_spec n 0); [lia|done].
Qed.

Lemma print_unsigned_prints fuel st o n base props :
  stream buf size o st → 0 <= n < 2 ^ 64 → 8 <= base <= 16 → (65 < fuel)%nat →
  - 2 ^ 31 <= npad props < 2 ^ 31 →
  ∃ st', print_unsigned fuel st sp n base props = Some st' ∧
    prints st (unsigned_text n base props) st'.
Proof using Type*.
  intros Ho Hn Hb Hf Hp. destruct st as [m ps]. unfold print_unsigned, unsigned_text.
  rewrite (put_digits_spec _ _ _ _ _ 64) by lia. cbn [mbind option_bind].
  destruct (Z.eqb_spec n 0) as [->|Hnz]; cbn [negb andb].
  - rewrite ldigits_0. cbn [length wrl]. replace (sp + 0%nat) with sp by lia.
    rewrite Z.eqb_refl. unfold num_digits. rewrite Z.eqb_refl.
    change [ch_0] with (reverse [ch_0]).
    apply (print_stored _ _ _ o [ch_0]); try done; cbn; unfold local_len; try lia.
    repeat constructor.
  - destruct (unsigned_digits n base) as (HD & HlD & ->); [lia|done|].
    remember (ldigits 64 n base) as D eqn:ED. clear ED. apply chars_bytes in HD.
    destruct (Z.eqb_spec (sp + length D) sp) as [E|_]; [lia|].
    destruct (alternate props && (base =? 16)).
    + destruct (pad props =? ch_0).
      * pose proof (emits_app _ _ _ _ _ _ _ (addchar_emits buf size Hsize (wrl m sp D, ps) ch_0)
          (addchar_emits buf size Hsize _ ch_x)) as He. cbn [app] in He.
        pose proof (local_prints m ps D) as Hp0. unfold local_len in Hp0.
        destruct (Hp0 ltac:(lia) _ Ho) as [Ho1 _]. destruct (He _ Ho1) as [Ho2 Hs].
        destruct (addchar (addchar (wrl m sp D, ps) ch_0) ch_x) as [m2 ps2] eqn:Ea.
        assert (rdl m2 sp (length D) = D) as Hr.
        { rewrite <- (rdl_bytes m D HD) at 2. apply rdl_ext. intros i Hi. apply Hs.
          unfold disjoint_regions, local_len in Hsp. lia. }
        destruct (print_local fuel m2 ps2 _ D
          (if 0 <? npad props then Strprops (pad props) (Z.max (npad props - 2) 0)
             (alternate props) else props) Ho2 Hr) as (st' & E & Hp'); try done;
          unfold local_len; try lia; [destruct (Z.ltb_spec 0 (npad props)); cbn; lia|].
        exists st'. split; [done|].
        apply (prints_app _ [] (wrl m sp D, ps) _ _ (Hp0 ltac:(lia))).
        exact (prints_app _ [ch_0; ch_x] _ _ _ (emits_prints _ _ _ He) Hp').
      * assert ([ch_0; ch_x] ++ reverse D = reverse (D ++ [ch_x; ch_0])) as ->
          by (by rewrite reverse_app).
        change (wr8 (wr8 (wrl m sp D) (sp + length D) ch_x) (sp + length D + 1) ch_0)
          with (wrl (wrl m sp D) (sp + length D) [ch_x; ch_0]). rewrite <- wrl_app.
        replace (sp + length D + 2) with (sp + length (D ++ [ch_x; ch_0]))
          by (rewrite length_app; cbn; lia).
        apply (print_stored _ _ _ o); try done; rewrite ?length_app; cbn; unfold local_len; try lia.
        apply Forall_app; split; [done|]. repeat constructor; unfold ch_x, ch_0; lia.
    + apply (print_stored _ _ _ o); try done; unfold local_len; try lia.
Qed.
End Numbers.

(** ** Structured formats

    A format as the sequence of its literal characters and conversions; its
    text is what the call receives, and [items_text] what the call means for
    the arguments [va].  [str] gives the string at a pointer. *)

Inductive numfield :=
| NoNum                              (* no width *)
| ZeroPad (neg : bool) (ds : list Z) (* 0, then a width or nothing *)
| Width (neg : bool) (ds : list Z).  (* a width, padded with blanks *)

Inductive conv := CInt | CUns | CHex | CPtr | CStr | CChar | CPercent | COther (c : Z).

Record cspec := Cspec { c_hash : bool; c_num : numfield; c_mods : list Z; c_conv : conv }.

Inductive item := Chr (c : Z) | Conv (s : cspec).

Definition num_render (n : numfield) : list Z :=
  match n with
  | NoNum => []
  | ZeroPad neg ds => ch_0 :: signed neg ds
  | Width neg ds => signed neg ds
  end.

Definition conv_char (c : conv) : Z :=
  match c with
  | CInt => ch_d | CUns => ch_u | CHex => ch_x | CPtr => ch_p
  | CStr => ch_s | CChar => ch_c | CPercent => ch_percent | COther c => c
  end.

Definition conv_render (s : cspec) : list Z :=
  (if c_hash s then [ch_hash] else []) ++ num_render (c_num s) ++ c_mods s ++ [conv_char (c_conv s)].

Definition item_render (i : item) : list Z :=
  match i with Chr c => [c] | Conv s => ch_percent :: conv_render s end.

Definition render (its : list item) : list Z := concat (item_render <$> its).

(** Well-formed formats: widths are decimal numbers of 31 bits, the modifiers
    are l, t and z, and an unknown conversion is none of the known ones. *)
Definition width_ok (ds : list Z) : Prop := Forall is_digit ds ∧ dec_val 0 ds < 2 ^ 31.

Definition num_ok (n : numfield) : Prop :=
  match n with
  | NoNum => True
  | ZeroPad neg ds => width_ok ds ∧ (neg = true → ds ≠ [])
  | Width neg ds =>
      width_ok ds ∧ match ds with [] => False | d :: _ => neg = true ∨ d ≠ ch_0 end
  end.

Definition mod_ok (c : Z) : Prop := c = ch_l ∨ c = ch_t ∨ c = ch_z.

Definition known_chars : list Z :=
  [0; ch_percent; ch_hash; ch_minus; ch_plus; ch_space; ch_tab; ch_c; ch_d; ch_l; ch_p; ch_s;
   ch_t; ch_u; ch_x; ch_z].

Definition conv_ok (c : conv) : Prop :=
  match c with COther c => 0 < c < 128 ∧ ¬ is_digit c ∧ c ∉ known_chars | _ => True end.

Definition item_ok (i : item) : Prop :=
  match i with
  | Chr c => 0 < c < 2 ^ 8 ∧ c ≠ ch_percent
  | Conv s => num_ok (c_num s) ∧ Forall mod_ok (c_mods s) ∧ conv_ok (c_conv s)
  end.

Definition signed_val (neg : bool) (ds : list Z) : Z :=
  if neg then - dec_val 0 ds else dec_val 0 ds.

Definition num_props (n : numfield) (alt : bool) : strprops :=
  match n with
  | NoNum => Strprops ch_space 0 alt
  | ZeroPad neg ds => Strprops ch_0 (signed_val neg ds) alt
  | Width neg ds => Strprops ch_space (signed_val neg ds) alt
  end.

(** The text of one conversion and the arguments left.  [print_int] is not
    defined on the smallest [long]. *)
Definition arg_text (str : Z → option (list Z)) (c : conv) (short : bool) (props : strprops)
    (va : list Z) : option (list Z * list Z) :=
  match c, va with
  | CPercent, _ => Some ([ch_percent], va)
  | COther c, _ => Some ([c], va)
  | CInt, x :: va =>
      let n := if short then s32 x else s64 x in
      if n =? - 2 ^ 63 then None else Some (padded props (int_text n 10), va)
  | CUns, x :: va => Some (unsigned_text (if short then u32 x else u64 x) 10 props, va)
  | CHex, x :: va => Some (unsigned_text (if short then u32 x else u64 x) 16 props, va)
  | CPtr, x :: va => Some (unsigned_text (u64 x) 16 (Strprops (pad props) (npad props) true), va)
  | CChar, x :: va => Some ([u8 x], va)
  | CStr, x :: va => l ← str (u64 x); Some (padded props l, va)
  | _, [] => None
  end.

Definition conv_text (str : Z → option (list Z)) (s : cspec) (va : list Z)
    : option (list Z * list Z) :=
  arg_text str (c_conv s) (bool_decide (c_mods s = [])) (num_props (c_num s) (c_hash s)) va.

Fixpoint items_text (str : Z → option (list Z)) (its : list item) (va : list Z)
    : option (list Z) :=
  match its with
  | [] => Some []
  | Chr c :: its => (λ l, c :: l) <$> items_text str its va
  | Conv s :: its => '(l, va) ← conv_text str s va; (λ k, l ++ k) <$> items_text str its va
  end.

(** ** Parsing of the format *)

Lemma rdc_ascii_byte m a b : rd8 m a = b → b < 128 → rdc m a = b.
Proof. intros <- Hb. pose proof (rd8_range m a). unfold rdc. rewrite swrap_small by lia. done. Qed.

Lemma rdc_ascii_eqb m a k : 0 <= k < 128 → (rdc m a =? k) = (rd8 m a =? k).
Proof.
  intros Hk. pose proof (rd8_range m a). unfold rdc. rewrite swrap_cases by lia.
  destruct (Z.ltb_spec (rd8 m a) (2 ^ (8 - 1))); [done|].
  destruct (Z.eqb_spec (rd8 m a - 2 ^ 8) k), (Z.eqb_spec (rd8 m a) k); lia.
Qed.

(** A character after a width: no digit, blank or sign. *)
Definition stops_num (l : list Z) : Prop :=
  match l with
  | [] => True
  | b :: _ => ¬ is_digit b ∧ b ≠ ch_space ∧ b ≠ ch_tab ∧ b ≠ ch_minus ∧ b ≠ ch_plus
  end.

Lemma count_digits_spec fuel m p ds rest :
  cstr m p (ds ++ rest) → Forall is_digit ds → stops_num rest → (length ds < fuel)%nat →
  count_digits fuel m p = Some (Z.of_nat (length ds)).
Proof.
  intros Hp Hds Hr. revert p fuel Hp. induction Hds as [|d ds Hd Hds IH]; intros p fuel Hp Hf;
    (destruct fuel as [|fuel]; [cbn in Hf; lia|]); cbn [count_digits].
  - assert (¬ is_digit (rd8 m p)) as Hnd.
    { destruct rest as [|b rest]; cbn in Hp, Hr; [rewrite Hp; unfold is_digit, ch_0; lia|].
      destruct Hp as [-> _]. apply Hr. }
    assert ((ch_0 <=? rdc m p) && (rdc m p <=? ch_9) = false) as ->; [|done].
    apply andb_false_iff. unfold is_digit, ch_0, ch_9, rdc in *. pose proof (rd8_range m p).
    rewrite swrap_cases by lia. destruct (Z.ltb_spec (rd8 m p) (2 ^ (8 - 1)));
      rewrite !Z.leb_gt; lia.
  - destruct Hp as (Hb & _ & Hp). rewrite (rdc_ascii_byte m p d Hb) by (unfold is_digit, ch_9 in Hd; lia).
    assert ((ch_0 <=? d) && (d <=? ch_9) = true) as ->
      by (unfold is_digit in Hd; apply andb_true_iff; rewrite !Z.leb_le; lia).
    cbn in Hf. rewrite (IH (p + 1)) by (done || lia). cbn. f_equal. lia.
Qed.

Lemma atol_empty fuel m p rest :
  cstr m p rest → stops_num rest → (0 < fuel)%nat → atol fuel m p = Some 0.
Proof.
  intros Hp Hr Hf. destruct fuel as [|fuel]; [lia|]. unfold atol.
  rewrite (atol_blanks_cstr (S fuel) m p [] rest);
    [|done|constructor| |cbn; lia].
  2: { destruct rest; [done|]. unfold is_blank. cbn in Hr. lia. }
  cbn [mbind option_bind length]. rewrite Z.add_0_r.
  rewrite !rdc_ascii_eqb by (unfold ch_minus, ch_plus; lia).
  assert (rd8 m p = ch_minus → False) as E1
    by (destruct rest; cbn in Hp, Hr; unfold ch_minus in *; lia).
  assert (rd8 m p = ch_plus → False) as E2
    by (destruct rest; cbn in Hp, Hr; unfold ch_plus in *; lia).
  destruct (Z.eqb_spec (rd8 m p) ch_minus); [done|].
  destruct (Z.eqb_spec (rd8 m p) ch_plus); [done|].
  rewrite (atol_digits_cstr _ _ _ [] rest); cbn; try done; try lia.
  destruct rest; [done|]. apply Hr.
Qed.

Lemma fmtnum_spec fuel m p neg ds rest :
  cstr m p (signed neg ds ++ rest) → width_ok ds → (neg = true → ds ≠ []) →
  stops_num rest → (length ds + 1 < fuel)%nat →
  fmtnum fuel m p = Some (signed_val neg ds, p + length (signed neg ds)).
Proof.
  intros Hp [Hds Hv] Hne Hr Hf. unfold fmtnum. rewrite rdc_ascii_eqb by (unfold ch_minus; lia).
  assert ((rd8 m p =? ch_minus) = neg) as ->.
  { destruct neg; cbn in Hp; [destruct Hp as [-> _]; done|].
    apply Z.eqb_neq. destruct Hds as [|d ds Hd _]; cbn in Hp.
    - destruct rest; cbn in Hp, Hr; unfold ch_minus in *; lia.
    - unfold is_digit, ch_0, ch_minus in *. lia. }
  assert (cstr m (if neg then p + 1 else p) (ds ++ rest)) as Hq by (destruct neg; [apply Hp|done]).
  rewrite (count_digits_spec _ _ _ ds rest) by (done || lia).
  assert (atol fuel m p = Some (signed_val neg ds)) as ->.
  { destruct ds as [|d ds].
    - destruct neg; [by destruct Hne|]. apply atol_empty with rest; done || lia.
    - apply (atol_cstr _ _ _ [] neg (d :: ds) rest); try done; cbn in *; try lia.
      split; [done|]. destruct rest; [done|]. apply Hr. }
  pose proof (dec_val_mono 0 ds Hds ltac:(lia)) as Hm.
  cbn [mbind option_bind]. do 2 f_equal; [f_equal|].
  - apply swrap_small; [lia|]. unfold signed_val. destruct neg; lia.
  - destruct neg; cbn; lia.
Qed.

Lemma u8_s32 x : u8 (s32 x) = u8 x.
Proof.
  unfold wrap, swrap. rewrite Zminus_mod.
  rewrite Z.mod_mod_divide by (by exists (2 ^ 24)).
  rewrite <- Zminus_mod. f_equal. cbn. lia.
Qed.

(** The steps of [morefmt] that read a flag. *)
Section Flags.
Context (fu : nat) (o : out) (sp fmt : Z) (va : list Z) (nlong : Z) (props : strprops).

Lemma morefmt_hash :
  rd8 o.1 fmt = ch_hash →
  morefmt (S fu) o sp fmt va nlong props =
    morefmt fu o sp (fmt + 1) va nlong (Strprops (pad props) (npad props) true).
Proof. intros E. cbn [morefmt]. by rewrite (rdc_ascii_byte _ _ _ E) by (unfold ch_hash; lia). Qed.

Lemma morefmt_zero :
  rd8 o.1 fmt = ch_0 →
  morefmt (S fu) o sp fmt va nlong props =
    ('(n, fmt) ← fmtnum fu o.1 (fmt + 1);
     morefmt fu o sp fmt va nlong (Strprops ch_0 n (alternate props))).
Proof. intros E. cbn [morefmt]. by rewrite (rdc_ascii_byte _ _ _ E) by (unfold ch_0; lia). Qed.

Lemma morefmt_width :
  49 <= rd8 o.1 fmt <= 57 ∨ rd8 o.1 fmt = ch_minus →
  morefmt (S fu) o sp fmt va nlong props =
    ('(n, fmt) ← fmtnum fu o.1 fmt;
     morefmt fu o sp fmt va nlong (Strprops (pad props) n (alternate props))).
Proof.
  intros Hb. cbn [morefmt]. replace (fmt + 1 - 1) with fmt by lia.
  rewrite (rdc_ascii_byte _ _ (rd8 o.1 fmt) eq_refl) by (unfold ch_minus in Hb; lia).
  remember (rd8 o.1 fmt) as b eqn:Eb. clear Eb.
  assert (b ≠ ch_percent ∧ b ≠ ch_c ∧ b ≠ 0 ∧ b ≠ ch_hash ∧ b ≠ ch_0) as (H1 & H2 & H3 & H4 & H5)
    by (unfold ch_percent, ch_c, ch_hash, ch_0, ch_minus in *; lia).
  apply Z.eqb_neq in H1, H2, H3, H4, H5. rewrite H1, H2, H3, H4, H5.
  assert ((49 <=? b) && (b <=? ch_9) || (b =? ch_minus) = true) as ->; [|done].
  apply orb_true_iff. rewrite andb_true_iff, !Z.leb_le, Z.eqb_eq. unfold ch_9. lia.
Qed.

Lemma morefmt_mod d :
  rd8 o.1 fmt = d → mod_ok d →
  ∃ k, 0 < k + (if nlong <? 0 then 1 - nlong else 0) ∧
  morefmt (S fu) o sp fmt va nlong props = morefmt fu o sp (fmt + 1) va k props.
Proof.
  intros E Hd. cbn [morefmt].
  rewrite (rdc_ascii_byte _ _ _ E) by (unfold mod_ok, ch_l, ch_t, ch_z in Hd; lia).
  destruct Hd as [->|[->| ->]]; eexists; (split; [|reflexivity]); destruct (Z.ltb_spec nlong 0); lia.
Qed.
End Flags.

Section Format.
Context (buf size sp : Z).
Context (Hsize : 1 <= size < 2 ^ 31).
Context (Hsp : disjoint_regions sp local_len buf (size - 1)).
Context (str : Z → option (list Z)) (bound : nat).
Context (Hbound : bound < 2 ^ 31).

(** A string that neither the output nor the local array overwrites. *)
Definition str_safe (m : mem) (s : Z) (l : list Z) : Prop :=
  cstr m s l ∧ disjoint_regions s (length l + 1) buf (size - 1) ∧
  disjoint_regions s (length l + 1) sp local_len.

Definition strs_ok (m : mem) : Prop :=
  ∀ s l, str s = Some l → str_safe m s l ∧ (length l < bound)%nat.

Lemma str_safe_frame m m' s l : frame buf size sp m m' → str_safe m s l → str_safe m' s l.
Proof.
  intros Hf (Hc & H1 & H2).  split; [|by split].
  eapply cstr_ext; [|done]. intros i Hi. unfold disjoint_regions in *. apply Hf; lia.
Qed.

Lemma strs_ok_frame m m' : frame buf size sp m m' → strs_ok m → strs_ok m'.
Proof.
  intros Hf Hs s l E. destruct (Hs s l E). split; [by eapply str_safe_frame|done].
Qed.

Lemma prints_refl st : prints buf size sp st [] st.
Proof. apply emits_prints, emits_nil. Qed.

Lemma prints_char st c : prints buf size sp st [u8 c] (addchar st c).
Proof using Hsize. apply emits_prints. by apply addchar_emits. Qed.

Definition props_ok (p : strprops) : Prop := - 2 ^ 31 <= npad p < 2 ^ 31.

Lemma s64_long x : s64 x ≠ - 2 ^ 63 → - 2 ^ 63 < s64 x < 2 ^ 63.
Proof. mlia. Qed.

Lemma s32_long x : - 2 ^ 63 < s32 x < 2 ^ 63.
Proof. mlia. Qed.

Lemma morefmt_conv fu st o fmt c rest va nlong props l va' :
  stream buf size o st → strs_ok st.1 → cstr st.1 fmt (conv_char c :: rest) →
  conv_ok c → props_ok props → (bound + 66 < fu)%nat →
  arg_text str c (nlong =? 0) props va = Some (l, va') →
  ∃ st', morefmt (S fu) st sp fmt va nlong props = Some (st', fmt + 1, va') ∧
    prints buf size sp st l st'.
Proof using Type*.
  intros Ho Hstr Hf Hc Hp Hfu Ht.
  assert (rdc st.1 fmt = conv_char c) as E.
  { destruct Hf as [Hb _]. apply rdc_ascii_byte; [done|].
    destruct c; unfold conv_char; unfold ch_d, ch_u, ch_x, ch_p, ch_s, ch_c, ch_percent;
      try lia. apply Hc. }
  cbn [morefmt]. rewrite E. clear E Hf.
  assert (∀ b : bool, (if b then s32 else s64) = λ x, if b then s32 x else s64 x) as F1
    by (by intros []).
  assert (∀ b : bool, (if b then u32 else u64) = λ x, if b then u32 x else u64 x) as F2
    by (by intros []).
  rewrite F1, F2. clear F1 F2.
  assert (∀ x, 0 <= (if nlong =? 0 then u32 x else u64 x) < 2 ^ 64) as Hu
    by (intros x; pose proof (wrap_range 32 x); pose proof (wrap_range 64 x);
        destruct (nlong =? 0); lia).
  destruct c as [| | | | | | |c]; cbn in Ht |- *.
  - destruct va as [|x va]; [done|].
    destruct (Z.eqb_spec (if nlong =? 0 then s32 x else s64 x) (- 2 ^ 63)) as [|Hn]; [done|].
    injection Ht as <- <-. cbn.
    destruct (print_int_prints buf size sp Hsize Hsp fu st o
      (if nlong =? 0 then s32 x else s64 x) props Ho) as (st' & -> & Hpr); [|lia|done|].
    { destruct (nlong =? 0); [apply s32_long|by apply s64_long]. }
    eexists. split; [done|exact Hpr].
  - destruct va as [|x va]; [done|]. injection Ht as <- <-. cbn.
    destruct (print_unsigned_prints buf size sp Hsize Hsp fu st o
      (if nlong =? 0 then u32 x else u64 x) 10 props Ho) as (st' & -> & Hpr); try done; try lia.
    eexists. split; [done|exact Hpr].
  - destruct va as [|x va]; [done|]. injection Ht as <- <-. cbn.
    destruct (print_unsigned_prints buf size sp Hsize Hsp fu st o
      (if nlong =? 0 then u32 x else u64 x) 16 props Ho) as (st' & -> & Hpr); try done; try lia.
    eexists. split; [done|exact Hpr].
  - destruct va as [|x va]; [done|]. injection Ht as <- <-. cbn.
    destruct (print_unsigned_prints buf size sp Hsize Hsp fu st o (u64 x) 16
      (Strprops (pad props) (npad props) true) Ho) as (st' & -> & Hpr); try done; try lia.
    { by apply wrap_range. }
    eexists. split; [done|exact Hpr].
  - destruct va as [|x va]; [done|]. cbn. destruct (str (u64 x)) as [s|] eqn:Es; [|done].
    injection Ht as <- <-. destruct (Hstr _ _ Es) as ((Hc1 & Hc2 & _) & Hl).
    destruct (print_str_emits buf size Hsize fu st (u64 x) s o props Ho Hc1)
      as (st' & -> & He); try done; try lia.
    eexists. split; [done|by apply emits_prints].
  - destruct va as [|x va]; [done|]. injection Ht as <- <-. cbn. eexists. split; [done|].
    rewrite <- u8_s32. apply prints_char.
  - injection Ht as <- <-. eexists. split; [done|apply prints_char].
  - injection Ht as <- <-. destruct Hc as (Hr & Hd & Hk). unfold is_digit in Hd.
    unfold known_chars in Hk. rewrite !not_elem_of_cons in Hk.
    destruct_and! Hk.
    repeat match goal with
    | H : c ≠ ?k |- context [c =? ?k] => rewrite (proj2 (Z.eqb_neq c k) H)
    end.
    assert (c ≠ ch_0) by (unfold ch_0, ch_9 in *; lia).
    rewrite (proj2 (Z.eqb_neq c ch_0)) by done.
    assert ((49 <=? c) && (c <=? ch_9) = false) as ->
      by (apply andb_false_iff; rewrite !Z.leb_gt; unfold ch_0 in *; lia).
    cbn. eexists. split; [done|].
    assert ([c] = [u8 c]) as -> by (rewrite wrap_small by lia; done). apply prints_char.
Qed.

Lemma morefmt_mods mods fu st o fmt c rest va nlong props l va' :
  stream buf size o st → strs_ok st.1 → cstr st.1 fmt (mods ++ conv_char c :: rest) →
  Forall mod_ok mods → conv_ok c → props_ok props → 0 <= nlong →
  (bound + 66 + length mods < fu)%nat →
  arg_text str c ((nlong =? 0) && bool_decide (mods = [])) props va = Some (l, va') →
  ∃ st', morefmt (S fu) st sp fmt va nlong props = Some (st', fmt + length mods + 1, va') ∧
    prints buf size sp st l st'.
Proof using Type*.
  intros Ho Hstr Hf Hm Hc Hp Hnl Hfu Ht. revert fu fmt nlong Hf Hnl Hfu Ht.
  induction Hm as [|d mods Hd Hm IH]; intros fu fmt nlong Hf Hnl Hfu Ht; cbn in Hf, Hfu.
  - cbn. rewrite Z.add_0_r. rewrite andb_true_r in Ht.
    apply (morefmt_conv fu st o fmt c rest); try done. lia.
  - destruct Hf as (Hb & _ & Hf). destruct fu as [|fu]; [lia|].
    assert (∀ k, 0 < k → arg_text str c ((k =? 0) && bool_decide (mods = [])) props va =
              Some (l, va')) as Ht'.
    { intros k Hk. rewrite (proj2 (Z.eqb_neq k 0)) by lia.
      by rewrite bool_decide_eq_false_2, andb_false_r in Ht by done. }
    replace (fmt + length (d :: mods)) with (fmt + 1 + length mods) by (cbn; lia).
    destruct (morefmt_mod (S fu) st sp fmt va nlong props d Hb Hd) as (k & Hk & ->).
    assert (0 < k) by (destruct (Z.ltb_spec nlong 0); lia).
    apply IH; try done; try lia. by apply Ht'.
Qed.

(** The characters that may follow a width. *)
Lemma mods_stop mods c rest :
  Forall mod_ok mods → conv_ok c → stops_num (mods ++ conv_char c :: rest).
Proof.
  intros Hm Hc. destruct Hm as [|d mods Hd _]; cbn.
  - destruct c as [| | | | | | |c]; try (refine (bool_decide_unpack _ _); vm_compute; exact I).
    destruct Hc as (_ & Hd & Hk). unfold known_chars in Hk. rewrite !not_elem_of_cons in Hk.
    tauto.
  - unfold is_digit. destruct Hd as [->|[->| ->]];
      unfold ch_l, ch_t, ch_z, ch_9, ch_space, ch_tab, ch_minus, ch_plus; lia.
Qed.

Lemma signed_val_ok neg ds p a : width_ok ds → props_ok (Strprops p (signed_val neg ds) a).
Proof.
  intros [Hd Hv]. pose proof (dec_val_mono 0 ds Hd ltac:(lia)). unfold props_ok, signed_val.
  cbn. destruct neg; lia.
Qed.

Lemma num_props_ok n a : num_ok n → props_ok (num_props n a).
Proof.
  destruct n as [|neg ds|neg ds]; cbn; intros Hn; [unfold props_ok; cbn; lia| |];
    apply signed_val_ok; apply Hn.
Qed.

(** The width, the modifiers and the conversion. *)
Lemma morefmt_num fu st o fmt n mods c rest va alt l va' :
  stream buf size o st → strs_ok st.1 →
  cstr st.1 fmt (num_render n ++ mods ++ conv_char c :: rest) →
  num_ok n → Forall mod_ok mods → conv_ok c →
  (bound + 67 + length (num_render n) + length mods < fu)%nat →
  arg_text str c (bool_decide (mods = [])) (num_props n alt) va = Some (l, va') →
  ∃ st', morefmt (S fu) st sp fmt va 0 (Strprops ch_space 0 alt) =
      Some (st', fmt + length (num_render n) + length mods + 1, va') ∧
    prints buf size sp st l st'.
Proof using Type*.
  intros Ho Hstr Hf Hn Hm Hc Hfu Ht. pose proof (num_props_ok n alt Hn) as Hpo.
  pose proof (mods_stop mods c rest Hm Hc) as Hstop.
  destruct n as [|neg ds|neg ds]; cbn [num_render length app] in Hf, Hfu |- *.
  - rewrite Z.add_0_r. apply (morefmt_mods mods fu st o fmt c rest); try done; lia.
  - destruct fu as [|fu]; [lia|]. destruct Hf as (Hb & _ & Hf).
    rewrite morefmt_zero by done. destruct Hn as [Hw Hne].
    assert (length ds <= length (signed neg ds))%nat by (destruct neg; cbn; lia).
    rewrite (fmtnum_spec _ _ _ neg ds (mods ++ conv_char c :: rest)) by (done || lia).
    cbn [mbind option_bind].
    replace (fmt + S (length (signed neg ds))) with (fmt + 1 + length (signed neg ds)) by lia.
    apply (morefmt_mods mods fu st o _ c rest); try done; try lia.
    by apply cstr_app in Hf as (_ & _ & Hf).
  - destruct fu as [|fu]; [lia|]. destruct Hn as [Hw Hne].
    assert (neg = true → ds ≠ []) as Hne' by (intros _ ->; done).
    assert (length ds <= length (signed neg ds))%nat by (destruct neg; cbn; lia).
    rewrite morefmt_width.
    2: { destruct neg; cbn in Hf; [right; apply Hf|left].
         destruct ds as [|d ds]; [done|]. destruct Hf as [-> _], Hw as [Hd _].
         apply Forall_cons in Hd as [Hd _]. unfold is_digit, ch_0, ch_9 in *.
         destruct Hne as [|Hne]; [done|]. unfold ch_0 in Hne. lia. }
    rewrite (fmtnum_spec _ _ _ neg ds (mods ++ conv_char c :: rest)) by (done || lia).
    cbn [mbind option_bind].
    apply (morefmt_mods mods fu st o _ c rest); try done; try lia.
    by apply cstr_app in Hf as (_ & _ & Hf).
Qed.

(** A conversion, from the character after the percent sign on. *)
Lemma morefmt_spec fu st o fmt s rest va l va' :
  stream buf size o st → strs_ok st.1 → cstr st.1 fmt (conv_render s ++ rest) →
  item_ok (Conv s) → (bound + 68 + length (conv_render s) < fu)%nat →
  conv_text str s va = Some (l, va') →
  ∃ st', morefmt (S fu) st sp fmt va 0 (Strprops ch_space 0 false) =
      Some (st', fmt + length (conv_render s), va') ∧
    prints buf size sp st l st'.
Proof using Type*.
  intros Ho Hstr Hf (Hn & Hm & Hc) Hfu Ht. destruct s as [h n mods c]. unfold conv_text in Ht.
  unfold conv_render in *. cbn [c_hash c_num c_mods c_conv] in *.
  rewrite !length_app in *. cbn [length] in *. rewrite <- !app_assoc in Hf. cbn [app] in Hf.
  destruct h.
  - destruct fu as [|fu]; [lia|]. cbn [app] in Hf. destruct Hf as (Hb & _ & Hf).
    rewrite morefmt_hash by done.
    match goal with |- context [Some (_, fmt + ?e, _)] =>
      replace (fmt + e) with (fmt + 1 + length (num_render n) + length mods + 1)
        by (cbn [length]; lia)
    end.
    apply (morefmt_num fu st o _ n mods c rest); try done. cbn [length] in Hfu. lia.
  - match goal with |- context [Some (_, fmt + ?e, _)] =>
      replace (fmt + e) with (fmt + length (num_render n) + length mods + 1)
        by (cbn [length]; lia)
    end.
    apply (morefmt_num fu st o _ n mods c rest); try done. cbn [length] in Hfu. lia.
Qed.

(** The whole format. *)
Lemma vsn_loop_spec its fu st o fmt va text :
  stream buf size o st → strs_ok st.1 → str_safe st.1 fmt (render its) →
  Forall item_ok its → items_text str its va = Some text →
  (bound + 70 + length (render its) < fu)%nat →
  ∃ st', vsn_loop fu st sp fmt va = Some st' ∧ prints buf size sp st text st'.
Proof using Type*.
  intros Ho Hstr Hf Hok Ht Hfu. revert fu st o fmt va text Ho Hstr Hf Ht Hfu.
  induction Hok as [|i its Hi Hok IH]; intros fu st o fmt va text Ho Hstr Hf Ht Hfu;
    (destruct fu as [|fu]; [lia|]); cbn [vsn_loop].
  - injection Ht as <-. destruct Hf as [Hc _]. cbn in Hc. rewrite rdc_z by done.
    eexists. split; [done|apply prints_refl].
  - destruct Hf as (Hc & Hd1 & Hd2).
    assert (render (i :: its) = item_render i ++ render its) as Er by done. rewrite Er in *.
    rewrite length_app in *. pose proof Hc as Hc0. unfold disjoint_regions in *.
    destruct i as [c|s]; cbn [item_render length app] in *.
    + destruct Hc as (Hb & Hnz & Hc). destruct Hi as [Hi Hip].
      rewrite rdc_nz by congruence.
      assert ((rdc st.1 fmt =? ch_percent) = false) as Ep
        by (rewrite rdc_ascii_eqb by (unfold ch_percent; lia); apply Z.eqb_neq; congruence).
      rewrite Ep. cbn [negb]. cbn [items_text] in Ht.
      destruct (items_text str its va) as [t|] eqn:Et; [|done]. injection Ht as <-.
      pose proof (prints_char st (rdc st.1 fmt)) as Hp. rewrite u8_rdc, Hb in Hp.
      destruct (Hp o Ho) as [Ho' Hfr].
      destruct (IH fu (addchar st (rdc st.1 fmt)) _ (fmt + 1) va t Ho') as (st' & E & Hp');
        [by eapply strs_ok_frame| |done|lia|].
      { eapply str_safe_frame; [done|]. unfold str_safe, disjoint_regions.
        split; [done|]. split; lia. }
      exists st'. split; [done|]. exact (prints_app _ _ _ _ [c] _ _ _ Hp Hp').
    + destruct Hc as (Hb & _ & Hc). rewrite (rdc_ascii_byte _ _ _ Hb) by (unfold ch_percent; lia).
      cbn [negb]. destruct (Z.eqb_spec ch_percent 0) as [|_]; [done|]. rewrite Z.eqb_refl.
      cbn [negb]. cbn [items_text] in Ht.
      destruct (conv_text str s va) as [[l va']|] eqn:El; [|done]. cbn in Ht.
      destruct (items_text str its va') as [t|] eqn:Et; [|done]. injection Ht as <-.
      destruct fu as [|fu]; [lia|].
      destruct (morefmt_spec fu st o (fmt + 1) s (render its) va l va' Ho Hstr Hc Hi)
        as (st1 & -> & Hp); [lia|done|]. cbn [mbind option_bind].
      destruct (Hp o Ho) as [Ho' Hfr].
      destruct (IH (S fu) st1 _ (fmt + 1 + length (conv_render s)) va' t Ho') as (st' & E & Hp');
        [by eapply strs_ok_frame| |done|lia|].
      { eapply str_safe_frame; [done|]. unfold str_safe, disjoint_regions.
        split; [|split; lia]. by apply cstr_app in Hc as (_ & _ & Hc). }
      exists st'. split; [done|]. exact (prints_app _ _ _ _ _ _ _ _ Hp Hp').
Qed.

Lemma vsnprintf_spec its fu m fmt va text :
  strs_ok m → str_safe m fmt (render its) →
  Forall item_ok its → items_text str its va = Some text →
  (bound + 70 + length (render its) < fu)%nat →
  ∃ m', vsnprintf fu m sp buf size fmt va = Some (m', s32 (length text)) ∧
    let k := Z.min (length text) (size - 1) in
    rdl m' buf (Z.to_nat k) = take (Z.to_nat k) text ∧ rd8 m' (buf + k) = 0 ∧
    ∀ x, (x < buf ∨ buf + size <= x) → (x < sp ∨ sp + local_len <= x) → rd8 m' x = rd8 m x.
Proof using Type*.
  intros Hstr Hf Hok Ht Hfu. unfold vsnprintf. rewrite (swrap_small 32) by lia.
  assert (stream buf size [] (m, Pstream buf (size - 1) 0)) as Ho.
  { unfold stream. cbn. rewrite Z.min_l by lia. split; [|done]. f_equal; lia. }
  destruct (vsn_loop_spec its fu _ _ fmt va text Ho Hstr Hf Hok Ht Hfu) as ([m' ps] & -> & Hp).
  destruct (Hp _ Ho) as [[Eps Hr] Hfr]. cbn in Eps, Hr, Hfr. subst ps.
  cbn [mbind option_bind p_buffer p_added]. eexists. split; [done|]. split_and!.
  - rewrite <- Hr. apply rdl_ext. intros i Hi. apply rd8_wr8_other. lia.
  - by rewrite rd8_wr8_same.
  - intros x Hx Hx'. rewrite rd8_wr8_other by lia. apply Hfr; lia.
Qed.
End Format.

(** ** Printed numbers read back *)

Lemma dec_val_app acc l k : dec_val acc (l ++ k) = dec_val (dec_val acc l) k.
Proof. revert acc. induction l as [|d l IH]; intros acc; cbn; [done|]. apply IH. Qed.

Lemma digit_char_dec d : 0 <= d < 10 → is_digit (digit_char d) ∧ digit_char d - ch_0 = d.
Proof.
  intros Hd. unfold digit_char. destruct (Z.ltb_spec d 10); [|lia].
  unfold is_digit, ch_0, ch_9. lia.
Qed.

#[local] Transparent ldigits.
Lemma ldigits_dec (k : nat) n :
  0 <= n < 10 ^ k →
  Forall is_digit (ldigits k n 10) ∧ dec_val 0 (reverse (ldigits k n 10)) = n.
Proof.
  revert n. induction k as [|k IH]; intros n Hn; cbn [ldigits].
  - cbn in Hn. split; [constructor|]. cbn. lia.
  - destruct (Z.eqb_spec n 0) as [->|Hn0]; [split; [constructor|done]|].
    assert (10 ^ S k = 10 * 10 ^ k) as E by (rewrite <- Z.pow_succ_r by lia; f_equal; lia).
    destruct (IH (n / 10)) as [H1 H2]; [split; [apply Z.div_pos; lia|]; mlia|].
    destruct (digit_char_dec (n mod 10)) as [H3 H4]; [apply Z.mod_pos_bound; lia|].
    split; [by constructor|]. rewrite reverse_cons, dec_val_app, H2. cbn. rewrite H4. mlia.
Qed.
#[local] Opaque ldigits.

Lemma num_digits_dec n :
  0 <= n < 2 ^ 63 →
  Forall is_digit (num_digits n 10) ∧ num_digits n 10 ≠ [] ∧ dec_val 0 (num_digits n 10) = n ∧
  (length (num_digits n 10) <= 19)%nat.
Proof.
  intros Hn. unfold num_digits. destruct (Z.eqb_spec n 0) as [->|Hn0].
  - split_and!; [|done|done|cbn; lia]. repeat constructor; unfold ch_0, ch_9; lia.
  - destruct (ldigits_dec 64 n) as [H1 H2];
      [split; [lia|]; apply Z.lt_le_trans with (2 ^ 63); [lia|by vm_compute]|].
    split_and!; [by apply Forall_reverse| |done|].
    + intros E. apply (f_equal reverse) in E. rewrite reverse_involutive in E.
      apply ldigits_nil in E. lia.
    + rewrite length_reverse. apply ldigits_length; lia.
Qed.

Lemma int_text_signed n :
  - 2 ^ 63 < n < 2 ^ 63 →
  ∃ neg ds, int_text n 10 = signed neg ds ∧ Forall is_digit ds ∧ ds ≠ [] ∧
    (length ds <= 19)%nat ∧ dec_val 0 ds < 2 ^ 63 ∧ signed_val neg ds = n.
Proof.
  intros Hn. unfold int_text, signed_val. destruct (Z.ltb_spec n 0) as [Hneg|Hpos].
  - destruct (num_digits_dec (- n)) as (H1 & H2 & H3 & H4); [lia|].
    exists true, (num_digits (- n) 10). rewrite H3. split_and!; try done; lia.
  - destruct (num_digits_dec n) as (H1 & H2 & H3 & H4); [lia|].
    exists false, (num_digits n 10). rewrite H3. split_and!; try done; lia.
Qed.

(** Literal characters with a negative [remain]: every one is stored. *)
Lemma vsn_loop_unbounded fuel m ps sp fmt va l :
  cstr m fmt l → ch_percent ∉ l →
  disjoint_regions fmt (length l + 1) (p_buffer ps) (length l) →
  p_remain ps < 0 → - 2 ^ 31 <= p_remain ps - length l →
  0 <= p_added ps → p_added ps + length l < 2 ^ 31 → (length l < fuel)%nat →
  ∃ m' r, vsn_loop fuel (m, ps) sp fmt va =
      Some (m', Pstream (p_buffer ps + length l) r (p_added ps + length l)) ∧
    rdl m' (p_buffer ps) (length l) = l ∧
    ∀ x, (x < p_buffer ps ∨ p_buffer ps + length l <= x) → rd8 m' x = rd8 m x.
Proof.
  revert fuel m ps fmt. induction l as [|c l IH]; intros fuel m [b r a] fmt Hc Hp Hd Hr Hr' Ha Ha' Hf;
    (destruct fuel as [|fuel]; [lia|]); cbn [vsn_loop fst length p_buffer p_remain p_added] in *.
  - cbn in Hc. rewrite rdc_z by done. exists m, r. rewrite !Z.add_0_r. done.
  - destruct Hc as (Hb & Hnz & Hc). rewrite rdc_nz by congruence.
    apply not_elem_of_cons in Hp as [Hcp Hp].
    rewrite rdc_ascii_eqb by (unfold ch_percent; lia).
    rewrite (proj2 (Z.eqb_neq (rd8 m fmt) ch_percent)) by congruence.
    cbn [negb addchar p_remain p_buffer p_added].
    rewrite (proj2 (Z.eqb_neq r 0)), !swrap_small by lia. unfold disjoint_regions in *.
    destruct (IH fuel (wr8 m b (rdc m fmt)) (Pstream (b + 1) (r - 1) (a + 1)) (fmt + 1))
      as (m' & r' & -> & H1 & H2); cbn [p_buffer p_remain p_added] in *; try done; try lia.
    { eapply cstr_ext; [|done]. intros i Hi. apply rd8_wr8_other. lia. }
    exists m', r'. split_and!.
    + do 3 f_equal; lia.
    + cbn. rewrite H1, H2, rd8_wr8_same, u8_rdc by lia. by rewrite Hb.
    + intros x Hx. rewrite H2, rd8_wr8_other by lia. done.
Qed.

(** [-n] overflows for the smallest [long], and the digit is looked up at a
    negative index. *)
Lemma print_int_long_min fuel o sp props :
  print_int (S fuel) o sp (- 2 ^ 63) 10 props = None.
Proof. by destruct o. Qed.

(** ** Properties *)

(** C9: for every well-formed format (literal characters and conversions with
    flags, widths and length modifiers) and every list of arguments for which
    the format has a text, [vsnprintf] terminates, returns the length of the
    whole text, leaves in the buffer exactly the first [size - 1] characters of
    the text and a NUL after them, and changes nothing outside the buffer and
    the local array of the number printers. *)
Theorem vsnprintf_formats buf size sp str (bound : nat) its fuel m fmt va text :
  1 <= size < 2 ^ 31 → disjoint_regions sp local_len buf (size - 1) → bound < 2 ^ 31 →
  strs_ok buf size sp str bound m → str_safe buf size sp m fmt (render its) →
  Forall item_ok its → items_text str its va = Some text →
  (bound + 70 + length (render its) < fuel)%nat →
  ∃ m', vsnprintf fuel m sp buf size fmt va = Some (m', s32 (length text)) ∧
    let k := Z.min (length text) (size - 1) in
    rdl m' buf (Z.to_nat k) = take (Z.to_nat k) text ∧ rd8 m' (buf + k) = 0 ∧
    ∀ x, (x < buf ∨ buf + size <= x) → (x < sp ∨ sp + local_len <= x) → rd8 m' x = rd8 m x.
Proof. intros. by eapply vsnprintf_spec. Qed.

(** C23: a [long] printed with "%ld" into a buffer that holds it is read back by [atol]. *)
Theorem snprintf_atol fuel m sp buf size fmt n :
  24 <= size < 2 ^ 31 → disjoint_regions sp local_len buf (size - 1) →
  str_safe buf size sp m fmt [ch_percent; ch_l; ch_d] →
  - 2 ^ 63 < n < 2 ^ 63 → (100 < fuel)%nat →
  ∃ m' len, snprintf fuel m sp buf size fmt [u64 n] = Some (m', len) ∧
    strlen fuel m' buf = Some len ∧ atol fuel m' buf = Some n.
Proof.
  intros Hsz Hsp Hf Hn Hfu.
  destruct (int_text_signed n Hn) as (neg & ds & E & Hds & Hne & Hl & Hv & Hsv).
  assert (s64 (u64 n) = n) as En by mlia.
  destruct (vsnprintf_spec buf size sp ltac:(lia) Hsp (λ _, None) 0 ltac:(lia)
    [Conv (Cspec false NoNum [ch_l] CInt)] fuel m fmt [u64 n] (int_text n 10))
    as (m' & Er & H1 & H2 & _).
  - first [done | by intros ? ? [=]].
  - first [done | by intros ? ? [=]].
  - repeat constructor.
  - cbn. rewrite En. destruct (Z.eqb_spec n (- 2 ^ 63)); [lia|]. cbn.
    unfold padded. cbn. rewrite !app_nil_r. replace (Z.to_nat (- 0 - _)) with 0%nat by lia.
    cbn. by rewrite app_nil_r.
  - cbn. lia.
  - assert (length (signed neg ds) <= length ds + 1)%nat by (destruct neg; cbn; lia).
    rewrite E in *. rewrite Z.min_l, Nat2Z.id in * by lia. rewrite take_ge in H1 by lia.
    assert (cstr m' buf (signed neg ds)) as Hc.
    { apply cstr_intro; [done| |done]. destruct neg; cbn; [constructor; [done|]|];
        eapply Forall_impl; try done; intros b Hb ->; unfold is_digit, ch_0 in Hb; lia. }
    exists m', (s32 (length (signed neg ds))). split_and!; [done| |].
    + rewrite (strlen_cstr _ _ _ _ Hc) by lia. by rewrite swrap_small by lia.
    + rewrite <- Hsv. apply (atol_cstr _ _ _ [] neg ds []);
        [by rewrite app_nil_r|constructor|done|done|cbn; lia|done].
Qed.

(** a [size] of 0 does not bound the output: [remain] starts at -1 and never
    reaches 0, and a format without conversions is copied whole to the buffer. *)
Theorem vsnprintf_size0 fuel m sp buf fmt va l :
  cstr m fmt l → ch_percent ∉ l → disjoint_regions fmt (length l + 1) buf (length l) →
  length l < 2 ^ 30 → (length l < fuel)%nat →
  ∃ m', vsnprintf fuel m sp buf 0 fmt va = Some (m', Z.of_nat (length l)) ∧
    rdl m' buf (length l) = l ∧ rd8 m' (buf + length l) = 0.
Proof.
  intros Hc Hp Hd Hl Hf. unfold vsnprintf. rewrite (swrap_small 32) by lia.
  destruct (vsn_loop_unbounded fuel m (Pstream buf (0 - 1) 0) sp fmt va l)
    as (m' & r & -> & H1 & _); cbn [p_buffer p_remain p_added] in *; try done; try lia.
  eexists. split; [done|]. cbn. split; [|by rewrite rd8_wr8_same].
  rewrite (rdl_ext _ m' buf buf); [done|]. intros i Hi. apply rd8_wr8_other. lia.
Qed.

(** ** Witnesses

    The format "n=%05d|%-4s|%#lx%%" at address 100, the string "ab" at 200, a
    buffer of 16 bytes at 300 and the local array at 400. *)

Definition ex_items : list item :=
  [Chr 110; Chr 61; Conv (Cspec false (ZeroPad false [53]) [] CInt); Chr 124;
   Conv (Cspec false (Width true [52]) [] CStr); Chr 124;
   Conv (Cspec true NoNum [ch_l] CHex); Conv (Cspec false NoNum [] CPercent)].

Definition ex_mem : mem := wrl (wrl ∅ 100 (render ex_items)) 200 [97; 98].

Definition ex_str (s : Z) : option (list Z) := if s =? 200 then Some [97; 98] else None.

(** "n=00042|ab  |0xff%": 18 characters, of which 15 fit. *)
Definition ex_text : list Z :=
  [110; 61; 48; 48; 48; 52; 50; 124; 97; 98; 32; 32; 124; 48; 120; 102; 102; 37].

Lemma vsnprintf_formats_witness :
  ∃ m', vsnprintf 200 ex_mem 400 300 16 100 [42; 200; 255] = Some (m', 18) ∧
    rdl m' 300 15 = take 15 ex_text ∧ rd8 m' 315 = 0.
Proof.
  destruct (vsnprintf_formats 300 16 400 ex_str 3 ex_items 200 ex_mem 100 [42; 200; 255] ex_text)
    as (m' & E & H1 & H2 & _).
  - lia.
  - unfold disjoint_regions, local_len. lia.
  - lia.
  - intros s l. unfold ex_str. destruct (Z.eqb_spec s 200) as [->|]; [|done]. intros [= <-].
    split; [|cbn; lia]. split; [|unfold disjoint_regions, local_len; cbn; lia].
    by repeat split.
  - split; [by repeat split|]. unfold disjoint_regions, local_len. 
    replace (length (render ex_items)) with 18%nat by by vm_compute. lia.
  - unfold ex_items. repeat apply Forall_cons_2; try apply Forall_nil_2; cbn;
      unfold width_ok, mod_ok, is_digit, ch_0, ch_9, ch_percent, ch_l;
      repeat (split || constructor || intros || done || lia).
  - by vm_compute.
  - cbn. lia.
  - exists m'. split; [exact E|]. split; [exact H1|exact H2].
Defined.

Lemma snprintf_atol_witness :
  ∃ m' len, snprintf 200 (wrl ∅ 100 [37; 108; 100]) 400 300 32 100 [u64 (-1234)] = Some (m', len) ∧
    strlen 200 m' 300 = Some len ∧ atol 200 m' 300 = Some (-1234).
Proof.
  apply snprintf_atol; try lia.
  - unfold disjoint_regions, local_len. lia.
  - split; [by repeat split|]. unfold disjoint_regions, local_len. cbn. lia.
Defined.

Lemma vsnprintf_size0_witness :
  ∃ m', vsnprintf 20 (wrl ∅ 100 [104; 105; 33]) 400 300 0 100 [] = Some (m', 3) ∧
    rdl m' 300 3 = [104; 105; 33] ∧ rd8 m' 303 = 0.
Proof.
  apply (vsnprintf_size0 20 (wrl ∅ 100 [104; 105; 33]) 400 300 100 [] [104; 105; 33]).
  - by repeat split.
  - by apply (bool_decide_unpack _).
  - left. done.
  - done.
  - cbn [length]. lia.
Defined.

Example vsnprintf_ex :
  (snd <$> vsnprintf 200 ex_mem 400 300 16 100 [42; 200; 255]) = Some 18.
Proof. by vm_compute. Qed.
