(* ===== verification/AllocPhys.v ===== *)
(** * The early physical allocator: lib/alloc_phys.c

    A bump allocator over the physical range [[base, top)], with a log of the
    allocations.  [regions] is the static array of 256 entries, a store outside
    it is undefined.  The messages it prints are left out. *)

From S2P Require Import Prelude Bits.

Definition PHYS_ALLOC_NR_REGIONS : Z := 256.
Definition DEFAULT_MINIMUM_ALIGNMENT : Z := 32.
Definition INVALID_PHYS_ADDR : Z := 2 ^ 64 - 1.

Record phys_alloc_region := Region { r_base : Z; r_size : Z }.

(** The static variables of the file. *)
Record phys := Phys {
  regions : list phys_alloc_region;
  nr_regions : Z;
  lock : bool;
  base : Z;
  top : Z;
  warned : bool;
  align_min : Z;    (* early_alloc_ops.align_min *)
}.

Definition set_lock (b : bool) (s : phys) : phys :=
  Phys (regions s) (nr_regions s) b (base s) (top s) (warned s) (align_min s).

Definition phys_alloc_init (base_addr size : Z) : prog phys unit :=
  spin_lock lock set_lock;;
  modify (λ s, Phys (regions s) 0 (lock s) base_addr (u64 (base_addr + size)) (warned s)
                 (align_min s));;
  spin_unlock set_lock.

Definition phys_alloc_set_minimum_alignment (align : Z) : prog phys unit :=
  assert (negb (align =? 0) && (Z.land align (u64 (align - 1)) =? 0));;
  spin_lock lock set_lock;;
  modify (λ s, Phys (regions s) (nr_regions s) (lock s) (base s) (top s) (warned s) align);;
  spin_unlock set_lock.

(** [regions[nr_regions] = { b, n }; ++nr_regions;] *)
Definition log_region (b n : Z) : prog phys unit :=
  s ← get;
  if (0 <=? nr_regions s) && (nr_regions s <? PHYS_ALLOC_NR_REGIONS) then
    modify (λ s, Phys (<[Z.to_nat (nr_regions s) := Region b n]> (regions s)) (nr_regions s + 1)
                   (lock s) (base s) (top s) (warned s) (align_min s))
  else stop_with Undef.

(** [safe] only matters where [long] has 4 bytes. *)
Definition phys_alloc_aligned_safe (size align : Z) (safe : bool) : prog phys Z :=
  spin_lock lock set_lock;;
  s ← get;
  let size_orig := size in
  let top_safe := top s in
  assert (base s <? top_safe);;
  let addr := ALIGN (base s) align in
  let size := u64 (size + (addr - base s)) in
  if u64 (top_safe - base s) <? size then
    spin_unlock set_lock;;
    mret INVALID_PHYS_ADDR
  else
    modify (λ s, Phys (regions s) (nr_regions s) (lock s) (u64 (base s + size)) (top s)
                   (warned s) (align_min s));;
    (if nr_regions s <? PHYS_ALLOC_NR_REGIONS then log_region addr size_orig
     else modify (λ s, Phys (regions s) (nr_regions s) (lock s) (base s) (top s) true
                         (align_min s)));;
    spin_unlock set_lock;;
    mret addr.

(** The range [( *p_base, *p_top)]. *)
Definition phys_alloc_get_unused : prog phys (Z * Z) :=
  s ← get;
  if base s =? top s then mret (base s, top s)
  else
    spin_lock lock set_lock;;
    log_region (base s) (u64 (top s - base s));;
    modify (λ s, Phys (regions s) (nr_regions s) (lock s) (top s) (top s) (warned s)
                   (align_min s));;
    spin_unlock set_lock;;
    mret (base s, top s).

Definition early_memalign (alignment size : Z) : prog phys Z :=
  assert (negb (alignment =? 0) && (Z.land alignment (u64 (alignment - 1)) =? 0));;
  addr ← phys_alloc_aligned_safe size alignment true;
  if addr =? INVALID_PHYS_ADDR then mret 0 else mret addr.

(** ** The invariant

    The free range is below [top], and the logged allocations are disjoint, in
    the order they were made, below the free range. *)

Definition phys_ok (s : phys) : Prop :=
  lock s = false ∧ 0 <= base s <= top s ∧ top s < 2 ^ 64 - 1 ∧
  length (regions s) = 256%nat ∧ 0 <= nr_regions s <= 256.

Definition logged (s : phys) : list phys_alloc_region := take (Z.to_nat (nr_regions s)) (regions s).

Definition region_before (r1 r2 : phys_alloc_region) : Prop := r_base r1 + r_size r1 <= r_base r2.

Definition log_ok (s : phys) : Prop :=
  phys_ok s ∧
  (∀ i j r1 r2, (i < j)%nat → logged s !! i = Some r1 → logged s !! j = Some r2 →
     region_before r1 r2) ∧
  (∀ r, r ∈ logged s → r_base r + r_size r <= base s).

Lemma logged_insert s r :
  phys_ok s → nr_regions s < 256 →
  take (Z.to_nat (nr_regions s + 1)) (<[Z.to_nat (nr_regions s) := r]> (regions s)) =
    logged s ++ [r].
Proof.
  intros (_ & _ & _ & Hl & Hn) Hlt. unfold logged.
  replace (Z.to_nat (nr_regions s + 1)) with (S (Z.to_nat (nr_regions s))) by lia.
  rewrite (take_S_r _ _ r) by (apply list_lookup_insert_eq; lia).
  by rewrite take_insert_ge by lia.
Qed.

(** The log grows at its end by a region that is not below what is logged. *)
Lemma log_extend (l : list phys_alloc_region) (r : phys_alloc_region) (b b' : Z) :
  (∀ i j r1 r2, (i < j)%nat → l !! i = Some r1 → l !! j = Some r2 → region_before r1 r2) →
  (∀ r', r' ∈ l → r_base r' + r_size r' <= b) → b <= r_base r → r_base r + r_size r <= b' → b <= b' →
  (∀ i j r1 r2, (i < j)%nat → (l ++ [r]) !! i = Some r1 → (l ++ [r]) !! j = Some r2 →
     region_before r1 r2) ∧
  (∀ r', r' ∈ l ++ [r] → r_base r' + r_size r' <= b').
Proof.
  intros H1 H2 Hb Hr Hb'. split.
  - intros i j r1 r2 Hij Hi Hj. apply lookup_snoc_Some in Hj as [[Hjl Hj]|[-> <-]].
    + rewrite lookup_app_l in Hi by lia. by apply (H1 i j).
    + rewrite lookup_app_l in Hi by lia. unfold region_before.
      assert (r1 ∈ l) as Hin by by eapply list_elem_of_lookup_2. specialize (H2 r1 Hin). lia.
  - intros r' [Hin|Hin]%elem_of_app; [specialize (H2 r' Hin); lia|].
    apply list_elem_of_singleton in Hin as ->. done.
Qed.

Definition pow2 (a : Z) : Prop := ∃ k, 0 <= k < 64 ∧ a = 2 ^ k.

Lemma pow2_test a : pow2 a → negb (a =? 0) && (Z.land a (u64 (a - 1)) =? 0) = true.
Proof.
  intros (k & Hk & ->). assert (0 < 2 ^ k) by (apply Z.pow_pos_nonneg; lia).
  rewrite (proj2 (Z.eqb_neq (2 ^ k) 0)) by lia. rewrite pow2_pred, mask_low by lia.
  by rewrite Z.mod_same by lia.
Qed.

(** What one allocation does: the block, or [INVALID_PHYS_ADDR] and nothing. *)
Lemma phys_alloc_wp size align safe s :
  log_ok s → base s < top s → pow2 align → 0 <= size → base s + align + size < 2 ^ 64 →
  wp (phys_alloc_aligned_safe size align safe) (λ addr s',
    log_ok s' ∧ top s' = top s ∧
    if decide (ALIGN (base s) align + size <= top s) then
      addr = ALIGN (base s) align ∧ addr mod align = 0 ∧ base s <= addr ∧
      base s' = addr + size ∧ addr ≠ INVALID_PHYS_ADDR
    else addr = INVALID_PHYS_ADDR ∧ s' = s) s.
Proof.
  intros (Hok & Hord & Hbelow) Hlt (k & Hk & ->) Hsz Hov.
  pose proof Hok as (Hl & Hb & Ht & Hlen & Hn).
  destruct (ALIGN_spec (base s) k Hk) as [Ha Ham]; [lia..|].
  remember (ALIGN (base s) (2 ^ k)) as addr eqn:Ea.
  unfold phys_alloc_aligned_safe. wstep. wstep; [done|]. wstep. wstep.
  wstep. wstep; [cbn; lia|]. cbn [base top set_lock nr_regions]. rewrite <- Ea.
  rewrite !wrap_small by lia.
  destruct (Z.ltb_spec (top s - base s) (size + (addr - base s))) as [Hfull|Hfits].
  - wsteps. rewrite decide_False by lia. split; [|split; [done|split; [done|]]];
      assert (set_lock false (set_lock true s) = s) as -> by (destruct s; cbn in *; by subst);
      done.
  - wstep. wstep. cbn [base lock regions nr_regions top warned align_min].
    assert (base s + (size + (addr - base s)) = addr + size) as Eb by lia.
    change (base (set_lock true s)) with (base s). rewrite Eb, (wrap_small 64) by lia. wstep.
    destruct (Z.ltb_spec (nr_regions s) PHYS_ALLOC_NR_REGIONS) as [Hnr|Hnr];
      unfold PHYS_ALLOC_NR_REGIONS in *.
    + unfold log_region. wstep. wstep. cbn [nr_regions set_lock].
      assert ((0 <=? nr_regions s) && (nr_regions s <? PHYS_ALLOC_NR_REGIONS) = true) as ->
        by (unfold PHYS_ALLOC_NR_REGIONS; lia).
      wsteps. rewrite decide_True by lia. split; [|cbn; unfold INVALID_PHYS_ADDR; repeat split; lia].
      destruct (log_extend (logged s) (Region addr size) (base s) (addr + size))
        as [Ho' Hb']; cbn; try done; try lia.
      split; [repeat split; cbn; rewrite ?length_insert; lia|].
      unfold logged in *. cbn. rewrite (logged_insert s) by (done || lia). done.
    + wsteps. rewrite decide_True by lia. split; [|cbn; unfold INVALID_PHYS_ADDR; repeat split; lia].
      split; [repeat split; cbn; try lia; done|]. split; [done|]. cbn. intros r Hr.
      specialize (Hbelow r Hr). lia.
Qed.

Lemma early_memalign_wp align size s :
  log_ok s → base s < top s → pow2 align → 0 <= size → base s + align + size < 2 ^ 64 →
  wp (early_memalign align size) (λ addr s',
    log_ok s' ∧ top s' = top s ∧ base s <= base s' ∧
    (addr = 0 ∨ addr mod align = 0 ∧ base s <= addr ∧ addr + size = base s')) s.
Proof.
  intros Hs Hlt Ha Hsz Hov. unfold early_memalign. wstep. wstep; [by apply pow2_test|]. wstep.
  eapply wp_mono; [by apply phys_alloc_wp|]. cbn beta. intros addr s' (Hs' & Et & H).
  destruct (decide _) as [Hd|Hd].
  - destruct H as (Ea & Hm & Hb & Eb & Hi). rewrite (proj2 (Z.eqb_neq addr _)) by done.
    wstep. split; [done|]. split; [done|]. split; [lia|]. right. lia.
  - destruct H as [-> ->]. rewrite Z.eqb_refl. wstep. split; [done|]. split; [done|].
    split; [lia|]. by left.
Qed.

(** The blocks a sequence of requests [(alignment, size)] gets. *)
Fixpoint memalign_all (reqs : list (Z * Z)) : prog phys (list Z) :=
  match reqs with
  | [] => mret []
  | (align, size) :: reqs =>
      addr ← early_memalign align size; l ← memalign_all reqs; mret (addr :: l)
  end.

Definition req_ok (limit : Z) (r : Z * Z) : Prop :=
  pow2 r.1 ∧ 0 <= r.2 ∧ limit + r.1 + r.2 < 2 ^ 64.

(** Blocks of a sequence above [b]: aligned, below [t], each above the ones before. *)
Fixpoint blocks_ok (b t : Z) (reqs : list (Z * Z)) (l : list Z) : Prop :=
  match reqs, l with
  | [], [] => True
  | (align, size) :: reqs, addr :: l =>
      addr = 0 ∧ blocks_ok b t reqs l ∨
      addr mod align = 0 ∧ b <= addr ∧ addr + size <= t ∧ blocks_ok (addr + size) t reqs l
  | _, _ => False
  end.

Lemma blocks_ok_mono b b' t reqs l : b' <= b → blocks_ok b t reqs l → blocks_ok b' t reqs l.
Proof.
  revert b b' l. induction reqs as [|[align size] reqs IH]; intros b b' [|addr l] Hb; cbn; try done.
  intros [[-> H]|(H1 & H2 & H3 & H4)]; [left|right; split_and!; done || lia].
  split; [done|by apply (IH b)].
Qed.

Lemma memalign_all_ok reqs s :
  log_ok s → Forall (req_ok (top s)) reqs →
  match memalign_all reqs s with
  | Ret (l, s') => blocks_ok (base s) (top s) reqs l ∧ log_ok s'
  | Stop e => e = Halt
  end.
Proof.
  intros Hs Hr. revert s Hs Hr. induction reqs as [|[align size] reqs IH]; intros s Hs Hr; [done|].
  apply Forall_cons in Hr as [(Hp & Hsz & Hov) Hr]. cbn in Hp, Hsz, Hov.
  pose proof Hs as ((Hl & Hb & Ht & _) & _). cbn [memalign_all].
  destruct (decide (base s < top s)) as [Hlt|Hge].
  - pose proof (early_memalign_wp align size s Hs Hlt Hp Hsz ltac:(lia)) as Hwp.
    apply wp_run in Hwp as (addr & s' & E & Hs' & Et & Hbs & Ha).
    unfold mbind, prog_bind at 1. rewrite E. rewrite <- Et in Hr. specialize (IH s' Hs' Hr).
    unfold prog_bind at 1. destruct (memalign_all reqs s') as [[l s'']|e]; [|done].
    destruct IH as [IH Hlog]. cbn. split; [|done]. rewrite Et in IH.
    pose proof Hs' as ((_ & Hb' & _) & _).
    destruct Ha as [->|(Hm & Hba & Eb)].
    + left. split; [done|]. by eapply blocks_ok_mono.
    + right. rewrite Eb. split_and!; done || lia.
  - unfold early_memalign, mbind, prog_bind at 1. unfold assert at 1.
    unfold prog_bind at 1. rewrite pow2_test by done. cbn.
    unfold phys_alloc_aligned_safe, spin_lock, mbind, prog_bind, gets. cbn. rewrite Hl. cbn.
    destruct (Z.ltb_spec (base s) (top s)); [lia|]. done.
Qed.

Lemma phys_init_ok b n s :
  lock s = false → length (regions s) = 256%nat → 0 <= b → 0 <= n → b + n < 2 ^ 64 - 1 →
  wp (phys_alloc_init b n) (λ _ s', log_ok s' ∧ base s' = b ∧ top s' = b + n ∧ logged s' = []) s.
Proof.
  intros Hl Hr Hb Hn Hbn. unfold phys_alloc_init. wsteps; [done|]. wsteps.
  cbn. rewrite wrap_small by lia. split; [|done].
  split; [repeat split; cbn; done || lia|]. unfold logged. cbn. split; [done|]. intros r Hin.
  by apply elem_of_nil in Hin.
Qed.

(** ** Properties *)

(** C18: after [phys_alloc_init b n], any sequence of requests that does not
    overflow runs to its end or to the assertion that memory is left; every
    block that is not NULL has the alignment asked for, lies inside
    [[b, b + n)] and above the end of all the blocks before it, so that no two
    blocks overlap; the log and the lock are left consistent. *)
Theorem memalign_all_disjoint b n reqs s :
  lock s = false → length (regions s) = 256%nat → 0 < b → 0 <= n → b + n < 2 ^ 64 - 1 →
  Forall (req_ok (b + n)) reqs →
  match (phys_alloc_init b n;; memalign_all reqs) s with
  | Ret (l, s') => blocks_ok b (b + n) reqs l ∧ log_ok s'
  | Stop e => e = Halt
  end.
Proof.
  intros Hl Hr Hb Hn Hbn Hreqs.
  pose proof (phys_init_ok b n s Hl Hr ltac:(lia) Hn Hbn) as Hi.
  apply wp_run in Hi as ([] & s' & E & Hs & Eb & Et & _).
  unfold mbind, prog_bind. rewrite E. rewrite <- Et, <- Eb in *. by apply memalign_all_ok.
Qed.

Definition phys0 : phys := Phys (replicate 256 (Region 0 0)) 0 false 0 0 false 32.

Lemma memalign_all_disjoint_witness :
  match (phys_alloc_init 4096 8192;; memalign_all [(64, 100); (4096, 10); (8, 5000)]) phys0 with
  | Ret (l, s') => blocks_ok 4096 (4096 + 8192) [(64, 100); (4096, 10); (8, 5000)] l ∧ log_ok s'
  | Stop e => e = Halt
  end.
Proof.
  apply (memalign_all_disjoint 4096 8192); try done.
  repeat apply Forall_cons_2; try apply Forall_nil_2; (split; [|cbn; lia]).
  - by exists 6.
  - by exists 12.
  - by exists 3.
Defined.

(** [phys_alloc_get_unused] hands out the whole free range and leaves nothing,
    so that the next allocation fails its assertion; when the log already has
    its 256 entries it writes outside the array. *)
Theorem phys_alloc_get_unused_all s :
  log_ok s → base s < top s →
  match phys_alloc_get_unused s with
  | Ret ((b, t), s') => nr_regions s < 256 ∧ (b, t) = (base s, top s) ∧ base s' = top s' ∧ log_ok s' ∧
      ∀ size align safe, phys_alloc_aligned_safe size align safe s' = Stop Halt
  | Stop e => nr_regions s = 256 ∧ e = Undef
  end.
Proof.
  intros ((Hl & Hb & Ht & Hlen & Hn) & Hord & Hbelow) Hlt. unfold phys_alloc_get_unused.
  unfold get, spin_lock, log_region, gets, modify, spin_unlock, mbind, prog_bind, mret, prog_ret.
  rewrite (proj2 (Z.eqb_neq (base s) (top s))), Hl by lia. cbn. unfold PHYS_ALLOC_NR_REGIONS.
  destruct (Z.ltb_spec (nr_regions s) 256) as [Hnr|Hnr].
  - assert ((0 <=? nr_regions s) && true = true) as -> by lia. cbn.
    split; [done|]. split; [done|]. split; [done|]. split.
    + destruct (log_extend (logged s) (Region (base s) (top s - base s)) (base s) (top s))
        as [Ho' Hb']; cbn; try done; try lia.
      split; [repeat split; cbn; rewrite ?length_insert; lia|].
      unfold logged in *. cbn. rewrite (logged_insert s), wrap_small by (done || lia). done.
    + intros size align safe. unfold phys_alloc_aligned_safe, spin_lock, mbind, prog_bind, gets. cbn.
      destruct (Z.ltb_spec (top s) (top s)); [lia|]. done.
  - rewrite andb_false_r. cbn. split; [lia|done].
Qed.

Lemma phys_alloc_get_unused_all_witness :
  match phys_alloc_get_unused (Phys (regions phys0) 0 false 4096 8192 false 32) with
  | Ret ((b, t), s') => 0 < 256 ∧ (b, t) = (4096, 8192) ∧ base s' = top s' ∧ log_ok s' ∧
      ∀ size align safe, phys_alloc_aligned_safe size align safe s' = Stop Halt
  | Stop e => 0 = 256 ∧ e = Undef
  end.
Proof.
  apply (phys_alloc_get_unused_all (Phys (regions phys0) 0 false 4096 8192 false 32)); [|cbn; lia].
  split; [repeat split; cbn; lia|]. split; [done|]. intros r Hin. by apply elem_of_nil in Hin.
Defined.
