(* ===== verification/AllocPage.v ===== *)
(** * The page allocator: lib/alloc_page.c

    The free pages form a list threaded through their first words, [freelist]
    is its head.  Pages are identity mapped: [virt_to_phys] is the identity. *)

From S2P Require Import Prelude Memory Bits.

(** The memory and the static variables of the file. *)
Record pages := Pages { pmem : mem; freelist : Z; plock : bool }.

Definition set_plock (b : bool) (s : pages) : pages := Pages (pmem s) (freelist s) b.
Definition set_freelist (p : Z) (s : pages) : pages := Pages (pmem s) p (plock s).
(** [*(void ** )a = v] *)
Definition store_ptr (a v : Z) (s : pages) : pages := Pages (st64 (pmem s) a v) (freelist s) (plock s).

Definition page_alloc_initialized : prog pages bool := gets (λ s, negb (freelist s =? 0)).

(** [while (mem + PAGE_SIZE != end)] of [free_pages], [size / PAGE_SIZE] tests. *)
Definition link_pages (fuel : nat) (mem end_ : Z) : prog pages Z :=
  iter fuel (λ mem,
    if u64 (mem + PAGE_SIZE) =? end_ then mret (inr mem)
    else modify (store_ptr mem (u64 (mem + PAGE_SIZE)));; mret (inl (u64 (mem + PAGE_SIZE)))) mem.

Definition free_pages (mem size : Z) : prog pages unit :=
  assert (mem mod PAGE_SIZE =? 0);;
  assert (size mod PAGE_SIZE =? 0);;
  assert ((size =? 0) || (mem =? u64 (- size)) || (mem <? u64 (mem + size)));;
  if size =? 0 then modify (set_freelist 0)
  else
    spin_lock plock set_plock;;
    old_freelist ← gets freelist;
    modify (set_freelist mem);;
    mem ← link_pages (Z.to_nat (size / PAGE_SIZE)) mem (u64 (mem + size));
    modify (store_ptr mem old_freelist);;
    spin_unlock set_plock.

Definition alloc_page : prog pages Z :=
  fl ← gets freelist;
  if fl =? 0 then mret 0
  else
    spin_lock plock set_plock;;
    p ← gets freelist;
    modify (λ s, set_freelist (ld64 (pmem s) (freelist s)) s);;
    spin_unlock set_plock;;
    mret p.

(** The local variables of the traversal in [alloc_pages]. *)
Record scan := Scan {
  sc_curr : Z; sc_next : Z; sc_run : Z; sc_run_start : Z; sc_run_prev : Z; sc_run_next_pa : Z;
}.

(** One iteration of [for (;;)]: the next one, or [run_start]. *)
Definition scan_step (n align_mask : Z) (c : scan) : prog pages (scan + Z) :=
  let prev := sc_curr c in
  let curr := sc_next c in
  if curr =? 0 then mret (inr 0)
  else
    next ← gets (λ s, ld64 (pmem s) curr);
    let pa := curr in
    let c :=
      if sc_run c =? 0 then
        if Z.land pa align_mask =? 0
        then Scan curr next 1 curr prev (u64 (pa + PAGE_SIZE))
        else Scan curr next 0 (sc_run_start c) (sc_run_prev c) (sc_run_next_pa c)
      else if pa =? sc_run_next_pa c then
        Scan curr next (u64 (sc_run c + 1)) (sc_run_start c) (sc_run_prev c)
          (u64 (sc_run_next_pa c + PAGE_SIZE))
      else Scan curr next 0 (sc_run_start c) (sc_run_prev c) (sc_run_next_pa c) in
    if sc_run c =? n then
      (if negb (sc_run_prev c =? 0) then modify (store_ptr (sc_run_prev c) next)
       else modify (set_freelist next));;
      mret (inr (sc_run_start c))
    else mret (inl c).

(** [fuel] bounds the length of the list. *)
Definition alloc_pages (fuel : nat) (order : Z) : prog pages Z :=
  next ← gets freelist;
  let n := u64 (Z.shiftl 1 order) in
  let align_mask := u64 (u64 (Z.shiftl n PAGE_SHIFT) - 1) in
  assert (order <? 64);;
  spin_lock plock set_plock;;
  r ← iter fuel (scan_step n align_mask) (Scan 0 next 0 0 0 0);
  spin_unlock set_plock;;
  mret r.

Definition free_page (page : Z) : prog pages unit :=
  spin_lock plock set_plock;;
  fl ← gets freelist;
  modify (store_ptr page fl);;
  modify (set_freelist page);;
  spin_unlock set_plock.

Definition page_memalign (fuel : nat) (alignment size : Z) : prog pages Z :=
  let n := Z.shiftr (ALIGN size PAGE_SIZE) PAGE_SHIFT in
  if size =? 0 then mret 0
  else
    let order := if is_power_of_2 n then fls n else fls n + 1 in
    alloc_pages fuel order.

Definition page_free (mem size : Z) : prog pages unit := free_pages mem size.

(** ** The list of free pages *)

Definition page_ok (p : Z) : Prop := 0 < p ∧ p mod PAGE_SIZE = 0 ∧ p + PAGE_SIZE <= 2 ^ 64.

Fixpoint chain (m : mem) (p : Z) (l : list Z) : Prop :=
  match l with
  | [] => p = 0
  | q :: l' => p = q ∧ page_ok q ∧ chain m (ld64 m q) l'
  end.

(** [l] is the list of the free pages, in order. *)
Definition free_list (s : pages) (l : list Z) : Prop :=
  plock s = false ∧ chain (pmem s) (freelist s) l ∧ NoDup l.

(** The pages from [p] on. *)
Fixpoint page_seq (p : Z) (n : nat) : list Z :=
  match n with O => [] | S n' => p :: page_seq (p + PAGE_SIZE) n' end.

(** The first word of every page of [l] is unchanged. *)
Definition same_links (m m' : mem) (l : list Z) : Prop :=
  ∀ q x, q ∈ l → q <= x < q + 8 → rd8 m' x = rd8 m x.

Lemma page_apart p q : page_ok p → page_ok q → p ≠ q → p + PAGE_SIZE <= q ∨ q + PAGE_SIZE <= p.
Proof. unfold page_ok. intros (_ & H1 & _) (_ & H2 & _) Hne. mlia. Qed.

Lemma chain_page_ok m p l : chain m p l → Forall page_ok l.
Proof. revert p. induction l as [|q l IH]; cbn; [done|]. intros p (-> & Hq & Hl). eauto. Qed.

Lemma chain_ext m m' p l : same_links m m' l → chain m p l → chain m' p l.
Proof.
  revert p. induction l as [|q l IH]; intros p Hs; cbn; [done|]. intros (-> & Hq & Hl).
  split; [done|]. split; [done|]. rewrite (ldn_ext 8 m' m).
  - apply IH; [|done]. intros q' x Hin. apply Hs. by right.
  - intros x Hx. apply (Hs q x); [left|lia].
Qed.

Lemma chain_head m p l : chain m p l → p = default 0 (head l).
Proof. destruct l; cbn; [done|]. by intros [-> _]. Qed.

(** The address in the link that leads to what follows [l]. *)
Definition link_of (m : mem) (p : Z) (l : list Z) : Z :=
  match last l with None => p | Some e => ld64 m e end.

Lemma chain_app m p l1 l2 : chain m p (l1 ++ l2) → chain m (link_of m p l1) l2.
Proof.
  revert p. induction l1 as [|e l1 IH]; intros p; cbn [app chain]; [done|].
  intros (-> & He & H). specialize (IH _ H). revert IH. unfold link_of. rewrite last_cons.
  by destruct (last l1).
Qed.

(** Relinking: [l1] stays linked when only its last link changes, and leads to
    another list. *)
Lemma chain_relink m m' p l1 l2 l3 :
  chain m p (l1 ++ l2) → NoDup l1 →
  (∀ q x, q ∈ l1 → last l1 ≠ Some q → q <= x < q + 8 → rd8 m' x = rd8 m x) →
  chain m' (link_of m' p l1) l3 → l1 ≠ [] → chain m' p (l1 ++ l3).
Proof.
  revert p. induction l1 as [|e l1 IH]; intros p; cbn [app chain]; [done|].
  intros (-> & He & H) Hnd Hs H3 _. apply NoDup_cons in Hnd as [Hel Hnd].
  split; [done|]. split; [done|]. destruct l1 as [|e1 l1]; [done|].
  assert (last (e :: e1 :: l1) = last (e1 :: l1)) as El by done.
  assert (last (e1 :: l1) ≠ Some e) as Hne
    by (intros E; apply Hel; by apply last_Some_elem_of).
  rewrite (ldn_ext 8 m' m).
  2: { intros x Hx. apply (Hs e); [left|by rewrite El|lia]. }
  apply IH; try done.
  - intros q x Hq Hl. apply Hs; [by right|by rewrite El].
  - unfold link_of in *. rewrite El in H3. destruct (last (e1 :: l1)) eqn:E2; [done|].
    by apply last_None in E2.
Qed.

Lemma same_links_refl m l : same_links m m l.
Proof. done. Qed.

(** Storing a link in a page that is not in [l]. *)
Lemma same_links_st64 m a v l :
  page_ok a → Forall page_ok l → a ∉ l → same_links m (st64 m a v) l.
Proof.
  intros Ha Hl Hin q x Hq Hx. apply rd8_stn_other.
  destruct (page_apart a q) as [H|H]; try lia; [done| |congruence].
  by eapply Forall_forall.
Qed.

(** ** One page *)

Lemma alloc_page_wp s l :
  free_list s l →
  wp alloc_page (λ r s', match l with
    | [] => r = 0 ∧ s' = s
    | p :: l' => r = p ∧ page_ok p ∧ free_list s' l' ∧ pmem s' = pmem s
    end) s.
Proof.
  intros (Hlk & Hc & Hnd). unfold alloc_page. wstep. wstep. destruct l as [|p l]; cbn in Hc.
  - rewrite Hc. cbn. by wstep.
  - destruct Hc as (Ep & Hp & Hc). assert (0 < p) by apply Hp. rewrite (proj2 (Z.eqb_neq _ 0)) by lia.
    wstep. wstep; [done|]. wsteps. cbn. rewrite Ep. split; [done|]. split; [done|].
    apply NoDup_cons in Hnd as [_ Hnd]. by repeat split.
Qed.

Lemma free_page_wp s l p :
  free_list s l → page_ok p → p ∉ l →
  wp (free_page p) (λ _ s', free_list s' (p :: l) ∧
    ∀ x, (x < p ∨ p + 8 <= x) → rd8 (pmem s') x = rd8 (pmem s) x) s.
Proof.
  intros (Hlk & Hc & Hnd) Hp Hin. unfold free_page. wstep. wstep; [done|]. wsteps. cbn.
  assert (0 <= freelist s < 2 ^ 64) as Hfl.
  { rewrite (chain_head _ _ _ Hc). destruct l as [|q l]; cbn; [lia|].
    destruct Hc as (_ & (? & _ & ?) & _). lia. }
  split.
  - split; [done|]. split; [|by apply NoDup_cons]. split; [done|]. split; [done|].
    cbn. rewrite ld64_st64_same by done. eapply chain_ext; [|done].
    apply same_links_st64; [done| |done]. by eapply chain_page_ok.
  - intros x Hx. by rewrite rd8_stn_other by lia.
Qed.

(** ** A range of pages *)

Definition range_ok (p : Z) (n : nat) : Prop :=
  0 < p ∧ p mod PAGE_SIZE = 0 ∧ p + PAGE_SIZE * n <= 2 ^ 64.

Lemma range_ok_S p n : range_ok p (S n) → page_ok p ∧ range_ok (p + PAGE_SIZE) n.
Proof.
  unfold range_ok, page_ok. intros (H1 & H2 & H3). repeat split; try lia.
  rewrite <- Z.add_mod_idemp_r by lia. change (4096 mod 4096) with 0. by rewrite Z.add_0_r.
Qed.

Lemma elem_of_page_seq q p n :
  q ∈ page_seq p n ↔ ∃ i, 0 <= i < n ∧ q = p + PAGE_SIZE * i.
Proof.
  revert p. induction n as [|n IH]; intros p; cbn [page_seq].
  - split; [by intros ?%elem_of_nil|]. intros (i & Hi & _). lia.
  - rewrite elem_of_cons, IH. split.
    + intros [->|(i & Hi & ->)]; [exists 0|exists (i + 1)]; lia.
    + intros (i & Hi & ->). destruct (decide (i = 0)) as [->|]; [left; lia|].
      right. exists (i - 1). lia.
Qed.

(** A page is one of the range or apart from it. *)
Lemma page_range_apart q p n :
  page_ok q → range_ok p n → q ∉ page_seq p n → q + PAGE_SIZE <= p ∨ p + PAGE_SIZE * n <= q.
Proof.
  intros (_ & Hq & _) (_ & Hp & _) Hin. rewrite elem_of_page_seq in Hin.
  destruct (decide (q + PAGE_SIZE <= p ∨ p + PAGE_SIZE * n <= q)) as [|Hn]; [done|].
  exfalso. apply Hin. exists ((q - p) / PAGE_SIZE). mlia.
Qed.

Lemma length_page_seq p n : length (page_seq p n) = n.
Proof. revert p. induction n as [|n IH]; intros p; [done|]. by cbn [page_seq length]; rewrite IH. Qed.

Lemma NoDup_page_seq p n : NoDup (page_seq p n).
Proof.
  revert p. induction n as [|n IH]; intros p; cbn; constructor; [|done].
  rewrite elem_of_page_seq. intros (i & Hi & E). lia.
Qed.

Lemma page_seq_snoc p n : page_seq p (S n) = page_seq p n ++ [p + PAGE_SIZE * n].
Proof.
  revert p. induction n as [|n IH]; intros p; [cbn; by rewrite Z.add_0_r|].
  change (page_seq p (S (S n))) with (p :: page_seq (p + PAGE_SIZE) (S n)).
  rewrite IH. cbn. do 3 f_equal. lia.
Qed.

Lemma chain_seq n m p q l :
  range_ok p (S n) →
  (∀ i, 0 <= i < n → ld64 m (p + PAGE_SIZE * i) = p + PAGE_SIZE * (i + 1)) →
  ld64 m (p + PAGE_SIZE * n) = q → chain m q l → chain m p (page_seq p (S n) ++ l).
Proof.
  revert p. induction n as [|n IH]; intros p Hr Hl Hq Hc; apply range_ok_S in Hr as [Hp Hr].
  - cbn in Hq. rewrite Z.add_0_r in Hq. cbn. by rewrite Hq.
  - change (page_seq p (S (S n))) with (p :: page_seq (p + PAGE_SIZE) (S n)). cbn [app chain].
    split; [done|]. split; [done|]. pose proof (Hl 0 ltac:(lia)) as H0.
    replace (p + PAGE_SIZE * 0) with p in H0 by lia. rewrite H0.
    replace (p + PAGE_SIZE * (0 + 1)) with (p + PAGE_SIZE) by lia.
    apply IH; [done| | |done].
    + intros i Hi. specialize (Hl (i + 1) ltac:(lia)). 
      replace (p + 4096 + 4096 * i) with (p + 4096 * (i + 1)) by lia. rewrite Hl. lia.
    + rewrite <- Hq. f_equal. lia.
Qed.

Lemma link_pages_wp n fuel p s :
  range_ok p (S n) → (n < fuel)%nat →
  wp (link_pages fuel p (u64 (p + PAGE_SIZE * S n))) (λ e s',
    e = p + PAGE_SIZE * n ∧ freelist s' = freelist s ∧ plock s' = plock s ∧
    (∀ i, 0 <= i < n → ld64 (pmem s') (p + PAGE_SIZE * i) = p + PAGE_SIZE * (i + 1)) ∧
    ∀ x, (x < p ∨ p + PAGE_SIZE * n <= x) → rd8 (pmem s') x = rd8 (pmem s) x) s.
Proof.
  unfold link_pages. revert fuel p s. induction n as [|n IH]; intros fuel p s Hr Hf;
    (destruct fuel as [|fuel]; [lia|]); cbn [iter]; wstep.
  - replace (p + 4096 * 1%nat) with (p + 4096) by lia. rewrite Z.eqb_refl. wsteps.
    split; [lia|]. split; [done|]. split; [done|]. split; [intros; lia|done].
  - apply range_ok_S in Hr as [Hp Hr]. unfold page_ok, range_ok in Hp, Hr.
    rewrite (wrap_small 64 (p + 4096)) by lia.
    destruct (Z.eqb_spec (p + 4096) (u64 (p + 4096 * S (S n)))) as [E|_].
    { exfalso. destruct (decide (p + 4096 * S (S n) = 2 ^ 64)) as [E2|E2].
      - rewrite E2 in E. change (u64 (2 ^ 64)) with 0 in E. lia.
      - rewrite wrap_small in E by lia. lia. }
    wsteps. replace (p + 4096 * S (S n)) with (p + 4096 + 4096 * S n) by lia.
    eapply wp_mono; [apply IH; [|lia]|].
    { unfold range_ok. lia. }
    cbn. intros e s' (-> & E1 & E2 & H1 & H2). split; [lia|]. split; [done|]. split; [done|].
    split.
    + intros i Hi. destruct (decide (i = 0)) as [->|Hi0].
      * rewrite (ldn_ext 8 _ (st64 (pmem s) p (p + 4096))).
        -- replace (p + 4096 * 0) with p by lia. rewrite ld64_st64_same by lia. lia.
        -- intros x Hx. apply H2. lia.
      * specialize (H1 (i - 1) ltac:(lia)).
        replace (p + 4096 + 4096 * (i - 1)) with (p + 4096 * i) in H1 by lia. rewrite H1. lia.
    + intros x Hx. rewrite H2 by lia. apply rd8_stn_other. lia.
Qed.

Lemma free_pages_wp s l p n :
  free_list s l → range_ok p (S n) → (∀ q, q ∈ l → q ∉ page_seq p (S n)) →
  PAGE_SIZE * S n < 2 ^ 64 →
  wp (free_pages p (PAGE_SIZE * S n)) (λ _ s', free_list s' (page_seq p (S n) ++ l) ∧
    ∀ x, (x < p ∨ p + PAGE_SIZE * S n <= x) → rd8 (pmem s') x = rd8 (pmem s) x) s.
Proof.
  intros (Hlk & Hc & Hnd) Hr Hdis Hsz. pose proof Hr as (Hp0 & Hpm & Hpe).
  unfold free_pages. wstep. wstep; [by apply Z.eqb_eq|]. wstep. wstep.
  { rewrite Z.mul_comm, Z.mod_mul by done. done. }
  wstep. wstep.
  { destruct (decide (p + 4096 * S n = 2 ^ 64)) as [E|E].
    - assert (p = u64 (- (4096 * S n))) as <-; [|rewrite Z.eqb_refl; by rewrite orb_true_r].
      apply (Z.mod_unique _ _ (-1)); lia.
    - rewrite (wrap_small 64 (p + _)) by lia. rewrite !orb_true_iff. right.
      apply Z.ltb_lt. lia. }
  destruct (Z.eqb_spec (PAGE_SIZE * S n) 0) as [E|_]; [lia|].
  wstep. wstep; [done|]. wsteps. eapply wp_mono; [apply link_pages_wp; [done|]|].
  { rewrite Z.mul_comm, Z.div_mul by done. lia. }
  cbn. intros e s' (-> & E1 & E2 & H1 & H2). wsteps. cbn [pmem store_ptr set_plock].
  assert (Forall page_ok l) as Hl by by eapply chain_page_ok.
  assert (∀ q, q ∈ l → q + PAGE_SIZE <= p ∨ p + PAGE_SIZE * S n <= q) as Hout.
  { intros q Hq. apply page_range_apart; [by eapply Forall_forall|done|by apply Hdis]. }
  assert (same_links (pmem s) (st64 (pmem s') (p + PAGE_SIZE * n) (freelist s)) l) as Hsl.
  { intros q x Hq Hx. specialize (Hout q Hq). rewrite rd8_stn_other by lia. apply H2. lia. }
  split.
  - split; [done|]. split; [|apply (NoDup_app (page_seq p (S n))); split_and!; [apply NoDup_page_seq| |done]].
    2: { intros q Hq1 Hq2. by apply (Hdis q). }
    cbn [freelist store_ptr set_plock pmem]. rewrite E1. cbn [freelist set_freelist set_plock].
    eapply chain_seq; [done| | |].
    + intros i Hi. rewrite ldn_stn_other by lia. by apply H1.
    + apply ld64_st64_same. rewrite (chain_head _ _ _ Hc).
      destruct Hl as [|q l (? & _ & ?) _]; cbn; lia.
    + by eapply chain_ext.
  - intros x Hx. rewrite rd8_stn_other by lia. apply H2. lia.
Qed.

(** ** Contiguous pages *)

Section Scan.
Context (s0 : pages) (l : list Z) (n mask : Z).
Context (Hc : chain (pmem s0) (freelist s0) l) (Hnd : NoDup l).
Context (Hn : 0 < n < 2 ^ 64).

(** The pages of the current run are the last ones of [l0]. *)
Definition run_inv (l0 : list Z) (c : scan) : Prop :=
  sc_run c = 0 ∨
  ∃ l1 (r : nat), 0 < r < n ∧ sc_run c = r ∧ l0 = l1 ++ page_seq (sc_run_start c) r ∧
    sc_run_prev c = default 0 (last l1) ∧
    sc_run_next_pa c = u64 (sc_run_start c + PAGE_SIZE * r) ∧ Z.land (sc_run_start c) mask = 0.

Definition scan_inv (k : nat) (c : scan) (s : pages) : Prop :=
  s = s0 ∧ ∃ l0 rest, l = l0 ++ rest ∧ length rest = k ∧ sc_next c = default 0 (head rest) ∧
    sc_curr c = default 0 (last l0) ∧ run_inv l0 c.

(** What [alloc_pages] gives: nothing, or an aligned range cut out of the list. *)
Definition scan_post (p : Z) (s : pages) : Prop :=
  p = 0 ∧ s = s0 ∨
  ∃ l1 l2, l = l1 ++ page_seq p (Z.to_nat n) ++ l2 ∧ Z.land p mask = 0 ∧
    plock s = plock s0 ∧ chain (pmem s) (freelist s) (l1 ++ l2) ∧
    ∀ x, (∀ q, q ∈ l1 → x < q ∨ q + 8 <= x) → rd8 (pmem s) x = rd8 (pmem s0) x.

Lemma scan_curr l0 q rest :
  l = l0 ++ q :: rest →
  page_ok q ∧ chain (pmem s0) (ld64 (pmem s0) q) rest ∧
  ld64 (pmem s0) q = default 0 (head rest).
Proof using Hc.
  intros E. rewrite E in Hc. apply chain_app in Hc as (Eq & Hq & Hr).
  split; [done|]. split; [done|]. by apply chain_head in Hr.
Qed.

(** The end of a run of [n] pages: it is unlinked. *)
Lemma unlink_run l1 p (r : nat) rest :
  l = l1 ++ page_seq p r ++ rest → r = n :> Z → Z.land p mask = 0 →
  chain (pmem s0) (default 0 (head rest)) rest →
  wp (if negb (default 0 (last l1) =? 0)
      then modify (store_ptr (default 0 (last l1)) (default 0 (head rest)))
      else modify (set_freelist (default 0 (head rest)))) (λ _ s, scan_post p s) s0.
Proof using Hc Hnd Hn.
  intros El Er Hm Hr. pose proof (chain_page_ok _ _ _ Hc) as Hok.
  assert (page_seq p (Z.to_nat n) = page_seq p r) as Ep by (f_equal; lia).
  destruct (last l1) as [e|] eqn:E1; cbn [from_option id].
  - assert (e ∈ l1) as He by by apply last_Some_elem_of.
    assert (page_ok e) as Hpe by (eapply Forall_forall; [done|]; rewrite El, elem_of_app; by left).
    rewrite (proj2 (Z.eqb_neq e 0)) by (unfold page_ok in Hpe; lia). cbn. wstep.
    right. exists l1, rest. rewrite Ep. split; [done|]. split; [done|]. split; [done|]. split.
    + rewrite El in Hnd, Hc. pose proof Hnd as (Hnd1 & Hdis & Hnd2)%NoDup_app.
      apply (chain_relink (pmem s0) _ _ _ (page_seq p r ++ rest)); try done.
      * intros q x Hq Hl Hx. cbn. apply rd8_stn_other.
        destruct (page_apart e q); [done| | |lia|lia]; [|congruence].
        eapply Forall_forall; [done|]. rewrite El, elem_of_app. by left.
      * unfold link_of. rewrite E1. cbn. rewrite ld64_st64_same.
        -- eapply chain_ext; [|done]. apply same_links_st64; [done| |].
           ++ by eapply chain_page_ok.
           ++ intros Hin. apply (Hdis e He), elem_of_app. by right.
        -- destruct rest as [|q rest]; cbn; [lia|]. destruct Hr as (_ & (? & _ & ?) & _). lia.
      * by intros ->.
    + intros x Hx. cbn. specialize (Hx e He). apply rd8_stn_other. lia.
  - rewrite Z.eqb_refl. cbn. wstep. apply last_None in E1 as ->.
    right. exists [], rest. rewrite Ep. by split_and!.
Qed.

Lemma scan_step_wp k c s :
  scan_inv k c s →
  wp (scan_step n mask c) (λ r s', match r with
    | inl c' => ∃ k', (k' < k)%nat ∧ scan_inv k' c' s'
    | inr p => scan_post p s'
    end) s.
Proof using Hc Hnd Hn.
  pose proof (chain_page_ok _ _ _ Hc) as Hok. rewrite Forall_forall in Hok.
  intros (-> & l0 & rest & El & Ek & En & Ecur & Hrun). unfold scan_step. rewrite En, Ecur.
  destruct rest as [|q rest]; cbn [head from_option id]; [cbn; wstep; by left|].
  destruct (scan_curr l0 q rest El) as (Hq & Hch & Enext). cbn in Ek.
  rewrite (proj2 (Z.eqb_neq q 0)) by (unfold page_ok in Hq; lia). wstep. wstep. rewrite Enext.
  assert (l = (l0 ++ [q]) ++ rest) as El' by by rewrite <- app_assoc.
  assert (default 0 (last (l0 ++ [q])) = q) as Elast by by rewrite last_snoc.
  rewrite Enext in Hch.
  match goal with |- context [sc_run ?c'] => set (cn := c') end.
  assert (sc_next cn = default 0 (head rest) ∧ sc_curr cn = q ∧
    (sc_run cn = 0 ∨
     ∃ l1 (r : nat), 0 < r <= n ∧ sc_run cn = r ∧ l0 ++ [q] = l1 ++ page_seq (sc_run_start cn) r ∧
       sc_run_prev cn = default 0 (last l1) ∧
       sc_run_next_pa cn = u64 (sc_run_start cn + PAGE_SIZE * r) ∧
       Z.land (sc_run_start cn) mask = 0)) as (E1 & E2 & Hrn).
  { subst cn. destruct Hrun as [E0|(l1 & r & Hr & E0 & Es & Ep & Epa & Hm)]; rewrite E0.
    - rewrite Z.eqb_refl. destruct (Z.eqb_spec (Z.land q mask) 0) as [Hm|_];
        (split; [done|]); (split; [done|]); [right|by left].
      exists l0, 1%nat. cbn. by split_and!; try lia.
    - rewrite (proj2 (Z.eqb_neq r 0)) by lia.
      destruct (Z.eqb_spec q (sc_run_next_pa c)) as [Eq|_];
        (split; [done|]); (split; [done|]); [right|by left].
      exists l1, (S r). cbn [sc_run sc_run_start sc_run_prev sc_run_next_pa].
      rewrite Epa in Eq. split; [lia|]. split; [rewrite wrap_small by lia; lia|]. split.
      + rewrite page_seq_snoc, app_assoc, <- Es. do 2 f_equal. rewrite Eq.
        assert (∃ e, last l0 = Some e ∧ e = sc_run_start c + PAGE_SIZE * (r - 1)) as (e & Ee & Ev).
        { destruct r as [|r]; [lia|]. eexists. rewrite Es, page_seq_snoc, app_assoc, last_snoc.
          split; [done|]. lia. }
        assert (page_ok e) as Hpe.
        { apply Hok. rewrite El. apply elem_of_app. left. by apply last_Some_elem_of. }
        destruct (decide (sc_run_start c + PAGE_SIZE * r = 2 ^ 64)) as [E|E].
        * rewrite E in Eq. change (u64 (2 ^ 64)) with 0 in Eq. unfold page_ok in Hq. lia.
        * apply wrap_small. unfold page_ok in *.
          assert (0 <= PAGE_SIZE * r) by lia.
          destruct (decide (0 <= sc_run_start c)); [lia|].
          exfalso. assert (sc_run_start c ∈ l0) as Hin.
          { rewrite Es. apply elem_of_app. right. destruct r; [lia|]. by left. }
          assert (page_ok (sc_run_start c)) as Hps; [|unfold page_ok in Hps; lia].
          apply Hok. rewrite El, elem_of_app. by left.
      + split; [done|]. split; [|done]. rewrite Epa. rewrite wrap_add_l. f_equal. lia. }
  clearbody cn. destruct (Z.eqb_spec (sc_run cn) n) as [Er|Er].
  - destruct Hrn as [E0|(l1 & r & Hr & E0 & Es & Ep & _ & Hm)]; [lia|].
    wstep. rewrite Ep. eapply wp_mono; [apply (unlink_run l1 (sc_run_start cn) r rest)|].
    + by rewrite El', Es, <- app_assoc.
    + congruence.
    + done.
    + done.
    + intros [] s' Hs'. by wstep.
  - wstep. exists (length rest). split; [lia|]. split; [done|]. exists (l0 ++ [q]), rest.
    rewrite Elast. split_and!; try done.
    destruct Hrn as [E0|(l1 & r & Hr & E0 & Es & Ep & Epa & Hm)]; [by left|].
    right. exists l1, r. split_and!; try done; lia.
Qed.
End Scan.

(** The mask of [alloc_pages]: alignment to [n] pages, and nothing but 0 when
    [n] pages have no 64-bit size. *)
Lemma align_mask_zero p order :
  0 < p < 2 ^ 64 → 0 <= order < 64 →
  Z.land p (u64 (u64 (Z.shiftl (2 ^ order) PAGE_SHIFT) - 1)) = 0 → p mod (2 ^ order * PAGE_SIZE) = 0.
Proof.
  intros Hp Ho. rewrite Z.shiftl_mul_pow2, <- Z.pow_add_r by lia.
  destruct (decide (order + PAGE_SHIFT < 64)) as [Hlt|Hge].
  - assert (0 < 2 ^ (order + PAGE_SHIFT)) by (apply Z.pow_pos_nonneg; lia).
    assert (2 ^ (order + PAGE_SHIFT) < 2 ^ 64) by (apply Z.pow_lt_mono_r; lia).
    rewrite (wrap_small 64 (2 ^ _)), pow2_pred, mask_low by lia. by rewrite Z.pow_add_r by lia.
  - assert (u64 (2 ^ (order + PAGE_SHIFT)) = 0) as ->.
    { unfold wrap. apply Z.mod_divide; [lia|]. exists (2 ^ (order + PAGE_SHIFT - 64)).
      rewrite <- Z.pow_add_r by lia. f_equal. lia. }
    change (u64 (0 - 1)) with (Z.ones 64). rewrite Z.land_ones by lia.
    rewrite Z.mod_small by lia. lia.
Qed.

Lemma alloc_pages_wp fuel order s l :
  free_list s l → (length l < fuel)%nat → 0 <= order < 64 →
  wp (alloc_pages fuel order) (λ p s',
    p = 0 ∧ s' = s ∨
    ∃ l1 l2, l = l1 ++ page_seq p (Z.to_nat (2 ^ order)) ++ l2 ∧ p mod (2 ^ order * PAGE_SIZE) = 0 ∧
      free_list s' (l1 ++ l2) ∧
      ∀ x, (∀ q, q ∈ l1 → x < q ∨ q + 8 <= x) → rd8 (pmem s') x = rd8 (pmem s) x) s.
Proof.
  intros (Hlk & Hc & Hnd) Hf Ho. unfold alloc_pages.
  assert (2 ^ order < 2 ^ 64) by (apply Z.pow_lt_mono_r; lia).
  assert (0 < 2 ^ order) by (apply Z.pow_pos_nonneg; lia).
  rewrite Z.shiftl_mul_pow2, Z.mul_1_l, (wrap_small 64 (2 ^ order)) by lia.
  set (mask := u64 (u64 _ - 1)).
  wstep. wstep. wstep. wstep; [lia|]. wstep. wstep; [done|]. wstep.
  pose proof (scan_step_wp (set_plock true s) l (2 ^ order) mask Hc Hnd ltac:(lia)) as Hstep.
  eapply wp_mono; [eapply (wp_iter (scan_inv (set_plock true s) l (2 ^ order) mask)); [apply Hstep| |exact Hf]|].
  { split; [done|]. exists [], l. split_and!; try done. by apply chain_head in Hc. by left. }
  cbn beta. intros p s' [[-> ->]|(l1 & l2 & El & Hm & Hl' & Hc' & Hfr)]; wsteps.
  - left. split; [done|]. destruct s. cbn in *. by subst.
  - right. exists l1, l2. split; [done|]. split.
    + apply align_mask_zero; [|lia|done].
      assert (page_ok p) as Hp.
      { apply (proj1 (Forall_forall _ _) (chain_page_ok _ _ _ Hc)). rewrite El, !elem_of_app.
        right. left. destruct (Z.to_nat (2 ^ order)) eqn:E; [lia|]. by left. }
      unfold page_ok in Hp. lia.
    + split; [|done]. split; [done|]. split; [done|]. rewrite El in Hnd.
      apply NoDup_app in Hnd as (H1 & H2 & (_ & H3 & H4)%NoDup_app). apply NoDup_app.
      split_and!; [done| |done]. intros q Hq Hq2. apply (H2 q Hq), elem_of_app. by right.
Qed.

(** [page_memalign] takes a run of pages out of the free list. *)
Lemma page_memalign_wp fuel alignment size s l :
  free_list s l → (length l < fuel)%nat → 0 < size <= 2 ^ 63 →
  wp (page_memalign fuel alignment size) (λ p s',
    p = 0 ∧ s' = s ∨
    ∃ n l1 l2, l = l1 ++ page_seq p n ++ l2 ∧ size <= PAGE_SIZE * n < 2 * (size + PAGE_SIZE) ∧
      p mod (PAGE_SIZE * n) = 0 ∧ free_list s' (l1 ++ l2) ∧
      ∀ x, (∀ q, q ∈ l1 → x < q ∨ q + 8 <= x) → rd8 (pmem s') x = rd8 (pmem s) x) s.
Proof.
  intros Hs Hf Hsz. unfold page_memalign. rewrite (proj2 (Z.eqb_neq size 0)) by lia.
  change (ALIGN size PAGE_SIZE) with (ALIGN size (2 ^ 12)).
  destruct (ALIGN_spec size 12) as [Ha Ham]; [lia..|].
  remember (ALIGN size (2 ^ 12)) as a eqn:Ea. clear Ea. rewrite Z.shiftr_div_pow2 by lia.
  assert (a = a / 2 ^ 12 * 2 ^ 12) as Ed by (rewrite (Z.div_mod a (2 ^ 12)) at 1; lia).
  remember (a / 2 ^ 12) as n eqn:En. clear En Ham.
  destruct (order_spec n) as [Ho Hn]; [lia|].
  remember (if is_power_of_2 n then fls n else fls n + 1) as order eqn:Eo. clear Eo.
  eapply wp_mono; [apply (alloc_pages_wp fuel order s l Hs Hf); lia|].
  intros p s' [H|(l1 & l2 & El & Hm & Hs' & Hfr)]; [by left|right].
  exists (Z.to_nat (2 ^ order)), l1, l2. split; [done|].
  replace (PAGE_SIZE * Z.to_nat (2 ^ order)) with (2 ^ order * PAGE_SIZE) by lia.
  split; [lia|]. by split.
Qed.

(** ** Properties *)

(** C17: [page_memalign] returns NULL and changes nothing, or takes out of the free
    list one run of adjacent pages that holds [size] bytes and less than twice
    the pages they need; the run is aligned to its own length, the other free
    pages stay in order, and only a link of a free page is written. *)
Theorem page_memalign_block fuel alignment size s l :
  free_list s l → (length l < fuel)%nat → 0 < size <= 2 ^ 63 →
  wp (page_memalign fuel alignment size) (λ p s',
    p = 0 ∧ s' = s ∨
    ∃ n l1 l2, l = l1 ++ page_seq p n ++ l2 ∧ size <= PAGE_SIZE * n < 2 * (size + PAGE_SIZE) ∧
      p mod (PAGE_SIZE * n) = 0 ∧ free_list s' (l1 ++ l2) ∧
      ∀ x, (∀ q, q ∈ l1 → x < q ∨ q + 8 <= x) → rd8 (pmem s') x = rd8 (pmem s) x) s.
Proof. apply page_memalign_wp. Qed.

(** An empty memory whose free pages are the [n + 1] pages from [p] on. *)
Definition fresh_pages (p : Z) (n : nat) : pages :=
  match free_pages p (PAGE_SIZE * S n) (Pages ∅ 0 false) with Ret (_, s) => s | Stop _ => Pages ∅ 0 false end.

Lemma fresh_pages_ok p n :
  range_ok p (S n) → PAGE_SIZE * S n < 2 ^ 64 →
  free_list (fresh_pages p n) (page_seq p (S n)) ∧
  ∀ x, (x < p ∨ p + PAGE_SIZE * S n <= x) → rd8 (pmem (fresh_pages p n)) x = 0.
Proof.
  intros Hr Hsz. unfold fresh_pages.
  assert (wp (free_pages p (PAGE_SIZE * S n)) (λ _ s', free_list s' (page_seq p (S n) ++ []) ∧
    ∀ x, (x < p ∨ p + PAGE_SIZE * S n <= x) → rd8 (pmem s') x = rd8 ∅ x) (Pages ∅ 0 false)) as H.
  { apply (free_pages_wp (Pages ∅ 0 false) [] p n); try done; [by split_and!; try constructor|].
    intros q Hq. by apply elem_of_nil in Hq. }
  apply wp_run in H as ([] & s' & -> & Hs & Hm). rewrite app_nil_r in Hs. split; [done|].
  intros x Hx. rewrite Hm by done. apply rd8_empty.
Qed.

(** Pages 2, 4, 5, 6 of the memory in this order. *)
Definition ex_pages : pages :=
  Pages (st64 (st64 (st64 (st64 ∅ 0x2000 0x4000) 0x4000 0x5000) 0x5000 0x6000) 0x6000 0) 0x2000 false.

Lemma ex_free_list : free_list ex_pages [0x2000; 0x4000; 0x5000; 0x6000].
Proof.
  split; [done|]. split; [by repeat split|]. by apply (bool_decide_unpack _).
Qed.

Lemma page_memalign_block_witness :
  wp (page_memalign 5 8192 6000) (λ p s',
    p = 0 ∧ s' = ex_pages ∨
    ∃ n l1 l2, [0x2000; 0x4000; 0x5000; 0x6000] = l1 ++ page_seq p n ++ l2 ∧
      6000 <= PAGE_SIZE * n < 2 * (6000 + PAGE_SIZE) ∧
      p mod (PAGE_SIZE * n) = 0 ∧ free_list s' (l1 ++ l2) ∧
      ∀ x, (∀ q, q ∈ l1 → x < q ∨ q + 8 <= x) → rd8 (pmem s') x = rd8 (pmem ex_pages) x) ex_pages.
Proof. apply page_memalign_block; [apply ex_free_list|cbn; lia|lia]. Defined.

(** [free_pages] of a range puts its pages at the front of the free list in
    ascending order, [alloc_page] then returns them one by one in that order. *)
Theorem free_pages_then_alloc s l p n :
  free_list s l → range_ok p (S n) → (∀ q, q ∈ l → q ∉ page_seq p (S n)) →
  PAGE_SIZE * S n < 2 ^ 64 →
  wp (free_pages p (PAGE_SIZE * S n);; q ← alloc_page; b ← page_alloc_initialized; mret (q, b))
    (λ '(q, b) s', q = p ∧ free_list s' (page_seq (p + PAGE_SIZE) n ++ l) ∧
      b = bool_decide (page_seq (p + PAGE_SIZE) n ++ l ≠ [])) s.
Proof.
  intros Hs Hr Hd Hsz. wstep. eapply wp_mono; [by apply free_pages_wp|]. intros [] s1 [Hs1 _].
  wstep. eapply wp_mono; [by apply alloc_page_wp|]. cbn. intros q s2 (-> & Hq & Hs2 & _).
  wstep. unfold page_alloc_initialized. wsteps. split; [done|]. split; [done|].
  destruct Hs2 as (_ & Hc & _). remember (page_seq (p + 4096) n ++ l) as l2 eqn:E. clear E.
  rewrite (chain_head _ _ _ Hc). destruct l2 as [|e l2]; cbn; [done|].
  destruct Hc as (_ & (He & _) & _). by rewrite (proj2 (Z.eqb_neq e 0)) by lia.
Qed.

Lemma free_pages_then_alloc_witness :
  wp (free_pages 0x8000 (PAGE_SIZE * 3%nat);; q ← alloc_page; b ← page_alloc_initialized; mret (q, b))
    (λ '(q, b) s', q = 0x8000 ∧
      free_list s' (page_seq (0x8000 + PAGE_SIZE) 2 ++ [0x2000; 0x4000; 0x5000; 0x6000]) ∧
      b = bool_decide (page_seq (0x8000 + PAGE_SIZE) 2 ++ [0x2000; 0x4000; 0x5000; 0x6000] ≠ []))
    ex_pages.
Proof.
  apply (free_pages_then_alloc ex_pages [0x2000; 0x4000; 0x5000; 0x6000] 0x8000 2).
  - apply ex_free_list.
  - split; [lia|]. split; [done|]. cbn. lia.
  - intros q Hq Hin. apply elem_of_page_seq in Hin as (i & Hi & ->).
    rewrite !elem_of_cons, elem_of_nil in Hq. lia.
  - cbn. lia.
Defined.

(** a page freed is the next one allocated, and the list is as before. *)
Theorem free_page_alloc_page s l p :
  free_list s l → page_ok p → p ∉ l →
  wp (free_page p;; alloc_page) (λ q s', q = p ∧ free_list s' l) s.
Proof.
  intros Hs Hp Hin. wstep. eapply wp_mono; [by apply free_page_wp|]. intros [] s1 [Hs1 _].
  eapply wp_mono; [by apply alloc_page_wp|]. cbn. intros q s2 (-> & _ & Hs2 & _). done.
Qed.

Lemma free_page_alloc_page_witness :
  wp (free_page 0x9000;; alloc_page)
    (λ q s', q = 0x9000 ∧ free_list s' [0x2000; 0x4000; 0x5000; 0x6000]) ex_pages.
Proof.
  apply free_page_alloc_page; [apply ex_free_list|repeat split; lia|].
  by apply (bool_decide_unpack _).
Defined.

(** the scan of [alloc_pages] misses aligned runs: with the free pages 2, 4,
    5, 6 the page that breaks the run started at page 2 is not tried as the
    start of the next one, and NULL is returned although pages 4 and 5 are an
    aligned pair. *)
Theorem alloc_pages_misses :
  ∃ s', alloc_pages 5 1 ex_pages = Ret (0, s') ∧ free_list ex_pages [0x2000; 0x4000; 0x5000; 0x6000] ∧
    0x4000 mod (2 ^ 1 * PAGE_SIZE) = 0.
Proof.
  eexists. split; [|split; [apply ex_free_list|done]]. vm_compute. reflexivity.
Qed.
