(* ===== verification/Alloc.v ===== *)
(** * malloc, memalign and free: lib/alloc.c

    The generic allocator keeps two words before every block it hands out and
    takes the blocks from the backend [alloc_ops].  The backend is an interface:
    the operations of [struct alloc_ops], and the laws a backend promises.  The
    theorems on [malloc] and [free] are proved against the laws; the page
    allocator is shown to satisfy them. *)

From S2P Require Import Prelude Memory CString Bits AllocPage.

(** [struct alloc_ops], and the memory of the state it works on. *)
Class AllocOps (St : Type) := {
  ao_memalign : option (Z → Z → prog St Z);
  ao_free : option (Z → Z → prog St unit);
  ao_align_min : Z;
  ao_mem : St → mem;
  ao_set_mem : mem → St → St;
}.

Section Alloc.
Context {St : Type} {ops : AllocOps St}.

Definition store_word (a v : Z) : prog St unit :=
  modify (λ s, ao_set_mem (st64 (ao_mem s) a v) s).

Definition memalign (alignment size : Z) : prog St Z :=
  match ao_memalign with
  | None => stop_with Halt          (* assert(alloc_ops && alloc_ops->memalign) *)
  | Some backend =>
      let '(alignment, size) :=
        if alignment <=? 8 then (8, size) else (alignment, u64 (size + (alignment - 1))) in
      let blkalign := Z.max alignment ao_align_min in
      let size := ALIGN (u64 (size + 16)) ao_align_min in
      p ← backend blkalign size;
      let mem := u64 (p + 16) in
      let mem := ALIGN mem alignment in
      store_word (u64 (mem - 16)) (u64 (mem - p));;
      store_word (u64 (mem - 8)) size;;
      mret mem
  end.

Definition malloc (size : Z) : prog St Z := memalign 8 size.

Definition calloc (nmemb size : Z) : prog St Z :=
  ptr ← malloc (u64 (nmemb * size));
  (if negb (ptr =? 0)
   then modify (λ s, ao_set_mem (memset (ao_mem s) ptr 0 (Z.to_nat (u64 (nmemb * size)))) s)
   else mret ());;
  mret ptr.

Definition block_begin (m : mem) (mem : Z) : Z := u64 (mem - ld64 m (u64 (mem - 16))).
Definition block_size (m : mem) (mem : Z) : Z := ld64 m (u64 (mem - 8)).

Definition free (ptr : Z) : prog St unit :=
  match ao_free with
  | None => mret ()
  | Some backend =>
      base ← gets (λ s, block_begin (ao_mem s) ptr);
      sz ← gets (λ s, block_size (ao_mem s) ptr);
      backend base sz
  end.
End Alloc.

(** ** The laws of a backend

    [owns s bs]: the backend has handed out the blocks [bs] (address and
    length), and what it keeps is apart from them. *)
Class AllocLaws (St : Type) {ops : AllocOps St} := {
  owns : St → list (Z * Z) → Prop;
  al_memalign : Z → Z → prog St Z;
  al_free : Z → Z → prog St unit;
  al_has_memalign : ao_memalign = Some al_memalign;
  al_has_free : ao_free = Some al_free;
  al_align_min : ∃ k, 3 <= k < 32 ∧ ao_align_min = 2 ^ k;
  al_mem_set m s : ao_mem (ao_set_mem m s) = m;
  (** A new block is apart from the ones handed out; memory in those is kept. *)
  al_memalign_wp s bs align size :
    owns s bs → 0 < size < 2 ^ 62 → size mod ao_align_min = 0 →
    wp (al_memalign align size) (λ p s',
      p = 0 ∧ s' = s ∨
      0 < p ∧ p mod 8 = 0 ∧ p + size <= 2 ^ 64 ∧ owns s' ((p, size) :: bs) ∧
      ∀ b x, b ∈ bs → b.1 <= x < b.1 + b.2 → rd8 (ao_mem s') x = rd8 (ao_mem s) x) s;
  al_free_wp s bs p size :
    owns s ((p, size) :: bs) →
    wp (al_free p size) (λ _ s', owns s' bs ∧
      ∀ b x, b ∈ bs → b.1 <= x < b.1 + b.2 → rd8 (ao_mem s') x = rd8 (ao_mem s) x) s;
  (** Blocks are apart. *)
  al_apart s p size bs b :
    owns s ((p, size) :: bs) → b ∈ bs → b.1 + b.2 <= p ∨ p + size <= b.1;
  (** The owner of a block may write to it. *)
  al_write s bs m :
    owns s bs →
    (∀ x, (∀ b, b ∈ bs → x < b.1 ∨ b.1 + b.2 <= x) → rd8 m x = rd8 (ao_mem s) x) →
    owns (ao_set_mem m s) bs;
}.

Section Laws.
Context {St : Type} {ops : AllocOps St} {laws : AllocLaws St}.

(** A block [q] of [size] bytes carved out of the backend's block [(p, n)]. *)
Definition carved (m : mem) (q size p n : Z) : Prop :=
  p + 16 <= q ∧ q + size <= p + n ∧ 0 < p ∧ p + n <= 2 ^ 64 ∧
  block_begin m q = p ∧ block_size m q = n.

Definition keeps (bs : list (Z * Z)) (s s' : St) : Prop :=
  ∀ b x, b ∈ bs → b.1 <= x < b.1 + b.2 → rd8 (ao_mem s') x = rd8 (ao_mem s) x.

(** What the caller may change without touching the header. *)
Lemma carved_ext m m' q size p n :
  0 < size → (∀ x, q - 16 <= x < q → rd8 m' x = rd8 m x) → carved m q size p n →
  carved m' q size p n.
Proof.
  intros Hsz Hm (H1 & H2 & H3 & H4 & H5 & H6). unfold carved, block_begin, block_size in *.
  rewrite (wrap_small 64 (q - 16)), (wrap_small 64 (q - 8)) in * by lia.
  rewrite (ldn_ext 8 m' m), (ldn_ext 8 m' m (q - 8)) by (intros x Hx; apply Hm; lia).
  by split_and!.
Qed.

(** Freeing a carved block gives the backend its own block back. *)
Lemma free_wp s bs q size p n :
  owns s ((p, n) :: bs) → carved (ao_mem s) q size p n →
  wp (free q) (λ _ s', owns s' bs ∧ keeps bs s s') s.
Proof.
  intros Hs (_ & _ & _ & _ & H5 & H6). unfold free. rewrite al_has_free.
  wsteps. rewrite H5, H6. by apply al_free_wp.
Qed.

Lemma align_min_bounds k : 3 <= k < 32 → 8 <= 2 ^ k <= 2 ^ 31 ∧ ∃ c, 2 ^ k = 8 * c.
Proof.
  intros Hk. split; [split; [change 8 with (2 ^ 3)|]; apply Z.pow_le_mono_r; lia|].
  exists (2 ^ (k - 3)). change 8 with (2 ^ 3). rewrite <- Z.pow_add_r by lia. f_equal. lia.
Qed.

(** The header of a block: its place, and what [block_begin] and [block_size] read. *)
Lemma header_carved m q size p n :
  p + 16 <= q → q + size <= p + n → 0 < p → p + n <= 2 ^ 64 → 0 < size → 0 <= n < 2 ^ 64 →
  carved (st64 (st64 m (u64 (q - 16)) (u64 (q - p))) (u64 (q - 8)) n) q size p n.
Proof.
  intros H1 H2 H3 H4 H5 H6. unfold carved, block_begin, block_size.
  rewrite (wrap_small 64 (q - 16)), (wrap_small 64 (q - 8)), (wrap_small 64 (q - p)) by lia.
  rewrite ldn_stn_other, !ld64_st64_same by lia. split_and!; try lia.
  rewrite wrap_small by lia. lia.
Qed.

(** The place of the result inside the backend's block [(p, n)]. *)
Lemma place_in_block k size p n am (extra := if 2 ^ k <=? 8 then 0 else 2 ^ k - 1)
    (al := if 2 ^ k <=? 8 then 8 else 2 ^ k) :
  0 <= k <= 32 → 0 < size → 0 < p → p mod 8 = 0 → p + n <= 2 ^ 64 →
  size + extra + 16 <= n → n mod am = 0 → (∃ c, am = 8 * c ∧ 0 < c) →
  p + 16 <= ALIGN (u64 (p + 16)) al ∧ ALIGN (u64 (p + 16)) al + size <= p + n ∧
  ALIGN (u64 (p + 16)) al mod 2 ^ k = 0.
Proof.
  intros Hk Hsz Hp0 Hp Hpn Hn Hm (c & -> & Hc).
  assert (0 <= extra) by (subst extra; destruct (Z.leb_spec (2 ^ k) 8); lia).
  rewrite (wrap_small 64 (p + 16)) by lia.
  assert (24 <= n).
  { assert (n mod 8 = 0); [|mlia]. apply Z.mod_divide in Hm as [e ->]; [|lia].
    replace (e * (8 * c)) with (e * c * 8) by ring. by apply Z.mod_mul. }
  subst extra al. destruct (Z.leb_spec (2 ^ k) 8) as [Hle|Hgt].
  - assert (ALIGN (p + 16) 8 = p + 16) as ->.
    { apply (ALIGN_id (p + 16) 3); [lia|lia|lia|]. change (2 ^ 3) with 8. mlia. }
    split; [lia|]. split; [lia|].
    assert (k <= 3) by (destruct (decide (k <= 3)); [done|];
      assert (2 ^ 4 <= 2 ^ k) by (apply Z.pow_le_mono_r; lia); lia).
    assert (8 = 2 ^ (3 - k) * 2 ^ k) as E
      by (rewrite <- Z.pow_add_r by lia; replace (3 - k + k) with 3 by lia; done).
    assert ((p + 16) mod 8 = 0) as Hm8 by mlia.
    apply Z.mod_divide in Hm8 as [e ->]; [|lia]. rewrite E, Z.mul_assoc. apply Z.mod_mul. lia.
  - destruct (ALIGN_spec (p + 16) k) as [H1 H2]; [lia..|]. split; [lia|]. split; [lia|done].
Qed.

(** [memalign] when the backend has memory: a carved block; and when it has not. *)
Lemma memalign_wp s bs k size :
  owns s bs → 0 <= k <= 32 → 0 < size < 2 ^ 40 →
  wp (memalign (2 ^ k) size) (λ q s',
    q = Z.max 16 (2 ^ k) ∨
    ∃ p n, owns s' ((p, n) :: bs) ∧ carved (ao_mem s') q size p n ∧ q mod 2 ^ k = 0 ∧
      keeps bs s s') s.
Proof.
  intros Hs Hk Hsz. destruct al_align_min as (a & Ha & Eam).
  destruct (align_min_bounds a Ha) as [Hab (c & Ec)].
  assert (0 < 2 ^ k <= 2 ^ 32)
    by (split; [apply Z.pow_pos_nonneg; lia|apply Z.pow_le_mono_r; lia]).
  unfold memalign. rewrite al_has_memalign.
  pose (extra := if 2 ^ k <=? 8 then 0 else 2 ^ k - 1).
  pose (al := if 2 ^ k <=? 8 then 8 else 2 ^ k).
  assert ((if 2 ^ k <=? 8 then (8, size) else (2 ^ k, u64 (size + (2 ^ k - 1)))) =
    (al, size + extra)) as ->.
  { subst al extra. destruct (2 ^ k <=? 8); [by rewrite Z.add_0_r|].
    rewrite wrap_small by lia. done. }
  assert (0 <= extra <= 2 ^ 32) by (subst extra; destruct (2 ^ k <=? 8); lia).
  rewrite (wrap_small 64 (size + extra + 16)) by lia. rewrite Eam in *.
  destruct (ALIGN_spec (size + extra + 16) a) as [Hn Hnm]; [lia..|].
  remember (ALIGN (size + extra + 16) (2 ^ a)) as n eqn:En. clear En.
  wstep. eapply wp_mono.
  { apply (al_memalign_wp s bs); [done|lia|by rewrite Eam]. }
  intros p s1 [[-> ->]|(Hp0 & Hp8 & Hpn & Hs1 & Hkeep)]; cbn zeta; unfold store_word; wsteps.
  - left. subst al. change (u64 (0 + 16)) with 16. destruct (Z.leb_spec (2 ^ k) 8) as [Hle|Hgt].
    + change (ALIGN 16 8) with 16. lia.
    + assert (2 ^ k >= 16) by (destruct (decide (k <= 3));
        [assert (2 ^ k <= 2 ^ 3) by (apply Z.pow_le_mono_r; lia); lia|
         assert (2 ^ 4 <= 2 ^ k) by (apply Z.pow_le_mono_r; lia); lia]).
      destruct (ALIGN_spec 16 k) as [Hr1 Hr2]; [lia..|].
      apply Z.mod_divide in Hr2 as [e He]; [|lia]. rewrite He in *.
      assert (0 < e) by (destruct (decide (0 < e)); [done|nia]).
      assert (e < 2) by (destruct (decide (e < 2)); [done|nia]).
      assert (e = 1) as -> by lia. lia.
  - right. destruct (place_in_block k size p n (2 ^ a)) as (H1 & H2 & H3); try done; try lia.
    { exists c. lia. }
    fold al in H1, H2, H3. remember (ALIGN (u64 (p + 16)) al) as q eqn:Eq. clear Eq.
    rewrite !al_mem_set. exists p, n.
    assert (∀ a m v x, p <= a → a + 8 <= q → (x < p ∨ p + n <= x) →
      rd8 (st64 m a v) x = rd8 m x) as Hfr by (intros; apply rd8_stn_other; lia).
    assert (∀ st a v, owns st ((p, n) :: bs) → p <= a → a + 8 <= q →
      owns (ao_set_mem (st64 (ao_mem st) a v) st) ((p, n) :: bs)) as Hst.
    { intros st a' v Hst Ha1 Ha2. apply al_write; [done|]. intros x Hx. apply Hfr; try lia.
      apply (Hx (p, n)). by left. }
    rewrite (wrap_small 64 (q - 16)), (wrap_small 64 (q - 8)) by lia. split_and!.
    + pose proof (Hst _ (q - 16) (u64 (q - p)) Hs1 ltac:(lia) ltac:(lia)) as Hs2.
      pose proof (Hst _ (q - 8) n Hs2 ltac:(lia) ltac:(lia)) as Hs3.
      by rewrite al_mem_set in Hs3.
    + pose proof (header_carved (ao_mem s1) q size p n) as Hc.
      rewrite (wrap_small 64 (q - 16)), (wrap_small 64 (q - 8)) in Hc by lia. apply Hc; lia.
    + done.
    + intros b x Hb Hx. rewrite al_mem_set.
      pose proof (al_apart s1 p n bs b Hs1 Hb). rewrite !Hfr by lia. by apply Hkeep with b.
Qed.
End Laws.

(** ** The page allocator is a backend *)

#[export] Instance page_ops (fuel : nat) : AllocOps pages := {|
  ao_memalign := Some (page_memalign fuel);
  ao_free := Some page_free;
  ao_align_min := PAGE_SIZE;
  ao_mem := pmem;
  ao_set_mem m s := Pages m (freelist s) (plock s);
|}.

Section PageLaws.
Context (fuel : nat).

Definition block_pages (b : Z * Z) : list Z := page_seq b.1 (Z.to_nat (b.2 / PAGE_SIZE)).

Definition block_ok (b : Z * Z) : Prop :=
  0 < b.2 ∧ b.2 mod PAGE_SIZE = 0 ∧ range_ok b.1 (Z.to_nat (b.2 / PAGE_SIZE)).

(** The blocks handed out and the free pages are apart; [fuel] bounds them all. *)
Definition page_owns (s : pages) (bs : list (Z * Z)) : Prop :=
  ∃ l, free_list s l ∧ Forall block_ok bs ∧ NoDup ((bs ≫= block_pages) ++ l) ∧
    (length ((bs ≫= block_pages)) + length l < fuel)%nat.

Lemma block_size_pages b : block_ok b → ∃ n : nat,
  b.2 = PAGE_SIZE * S n ∧ Z.to_nat (b.2 / PAGE_SIZE) = S n ∧ range_ok b.1 (S n).
Proof.
  intros (H1 & H2 & H3). apply Z.mod_divide in H2 as [c Hc]; [|lia].
  assert (b.2 / PAGE_SIZE = c) as E by (rewrite Hc; by apply Z.div_mul). rewrite E in *.
  exists (Z.to_nat (c - 1)). assert (S (Z.to_nat (c - 1)) = Z.to_nat c) as -> by lia.
  split; [lia|]. split; [lia|done].
Qed.

Lemma ranges_apart p n q k :
  range_ok p (S n) → range_ok q (S k) → (∀ x, x ∈ page_seq p (S n) → x ∉ page_seq q (S k)) →
  q + PAGE_SIZE * S k <= p ∨ p + PAGE_SIZE * S n <= q.
Proof.
  intros Hp Hq Hd. pose proof Hp as [Hp1 _]%range_ok_S. pose proof Hq as [Hq1 _]%range_ok_S.
  destruct (page_range_apart q p (S n) Hq1 Hp) as [H1|H1]; [|left|by right].
  - intros Hin. apply (Hd q Hin). by left.
  - destruct (page_range_apart p q (S k) Hp1 Hq) as [H2|H2]; [|lia|done].
    apply Hd. by left.
Qed.

Lemma page_seq_incl p n k x : (n <= k)%nat → x ∈ page_seq p n → x ∈ page_seq p k.
Proof. rewrite !elem_of_page_seq. intros Hn (i & Hi & ->). exists i. lia. Qed.

Lemma page_seq_app p n k : page_seq p (n + k) = page_seq p n ++ page_seq (p + PAGE_SIZE * n) k.
Proof.
  revert p. induction n as [|n IH]; intros p; cbn [Nat.add page_seq app].
  - by rewrite Z.add_0_r.
  - rewrite IH. do 3 f_equal. lia.
Qed.

Lemma block_pages_elem b bs x : b ∈ bs → x ∈ block_pages b → x ∈ (bs ≫= block_pages).
Proof. intros Hb Hx. apply list_elem_of_bind. by exists b. Qed.

(** A block is apart from every free page. *)
Lemma owned_apart s bs l b q :
  free_list s l → Forall block_ok bs → NoDup ((bs ≫= block_pages) ++ l) →
  b ∈ bs → q ∈ l → q + PAGE_SIZE <= b.1 ∨ b.1 + b.2 <= q.
Proof.
  intros (_ & Hc & _) Hok Hnd Hb Hq. apply NoDup_app in Hnd as (_ & Hdis & _).
  pose proof (proj1 (Forall_forall _ _) Hok b Hb) as Hbok.
  destruct (block_size_pages b Hbok) as (n & En & Ez & Hr). rewrite En.
  apply page_range_apart; [|done|].
  - by apply (proj1 (Forall_forall _ _) (chain_page_ok _ _ _ Hc)).
  - intros Hin. apply (Hdis q); [|done]. apply (block_pages_elem b); [done|].
    unfold block_pages. by rewrite Ez.
Qed.

Lemma page_al_memalign s bs align size :
  page_owns s bs → 0 < size < 2 ^ 62 → size mod PAGE_SIZE = 0 →
  wp (page_memalign fuel align size) (λ p s',
    p = 0 ∧ s' = s ∨
    0 < p ∧ p mod 8 = 0 ∧ p + size <= 2 ^ 64 ∧ page_owns s' ((p, size) :: bs) ∧
    ∀ b x, b ∈ bs → b.1 <= x < b.1 + b.2 → rd8 (pmem s') x = rd8 (pmem s) x) s.
Proof.
  intros (l & Hfl & Hok & Hnd & Hlen) Hsz Hm.
  eapply wp_mono; [apply (page_memalign_wp fuel align size s l); [done|lia|lia]|].
  intros p s' [H|(n & l1 & l2 & El & Hn & _ & Hfl' & Hfr)]; [by left|right].
  assert (Forall page_ok l) as Hpl by (destruct Hfl as (_ & Hc & _); by eapply chain_page_ok).
  rewrite Forall_forall in Hpl.
  apply Z.mod_divide in Hm as [c ->]; [|lia].
  destruct n as [|n]; [lia|].
  assert (page_ok p ∧ page_ok (p + PAGE_SIZE * n)) as [Hp Hpe].
  { split; apply Hpl; rewrite El, !elem_of_app; right; left; apply elem_of_page_seq;
      [exists 0|exists n]; lia. }
  unfold page_ok in Hp, Hpe. split; [lia|]. split; [mlia|]. split; [lia|].
  assert (Z.to_nat (c * PAGE_SIZE / PAGE_SIZE) = Z.to_nat c) as Ec by (by rewrite Z.div_mul).
  split.
  - exists (l1 ++ l2). split; [done|]. split.
    { constructor; [|done]. unfold block_ok, range_ok. cbn. rewrite Ec, Z.mod_mul by done. lia. }
    change (((p, c * PAGE_SIZE) :: bs) ≫= block_pages) with
      (block_pages (p, c * PAGE_SIZE) ++ (bs ≫= block_pages)).
    unfold block_pages at 1 3. cbn [fst snd]. rewrite Ec.
    assert (page_seq p (S n) = page_seq p (Z.to_nat c) ++
      page_seq (p + PAGE_SIZE * Z.to_nat c) (S n - Z.to_nat c)) as Es
      by (rewrite <- page_seq_app; f_equal; lia).
    assert ((bs ≫= block_pages) ++ l ≡ₚ
      ((page_seq p (Z.to_nat c) ++ (bs ≫= block_pages)) ++ l1 ++ l2) ++
      page_seq (p + PAGE_SIZE * Z.to_nat c) (S n - Z.to_nat c)) as Hperm.
    { rewrite El, Es. solve_Permutation. }
    split.
    + rewrite Hperm in Hnd. by apply NoDup_app in Hnd as (Hnd & _).
    + apply Permutation_length in Hperm. rewrite !length_app in *. lia.
  - intros b x Hb Hx. apply Hfr. intros q Hq.
    assert (q ∈ l) as Hql by (rewrite El, elem_of_app; by left).
    pose proof (owned_apart s bs l b q Hfl Hok Hnd Hb Hql). lia.
Qed.

Lemma page_al_apart s p size bs b :
  page_owns s ((p, size) :: bs) → b ∈ bs → b.1 + b.2 <= p ∨ p + size <= b.1.
Proof.
  intros (l & _ & Hok & Hnd & _) Hb. apply Forall_cons in Hok as [Hp Hok].
  destruct (block_size_pages _ Hp) as (n & En & Ez & Hr). cbn in En, Ez, Hr.
  pose proof (proj1 (Forall_forall _ _) Hok b Hb) as Hbok.
  destruct (block_size_pages _ Hbok) as (k & Ek & Ezk & Hrk).
  change (((p, size) :: bs) ≫= block_pages) with
    (block_pages (p, size) ++ (bs ≫= block_pages)) in Hnd.
  rewrite En, Ek. apply ranges_apart; [done..|]. intros x Hx Hx'.
  rewrite <- app_assoc in Hnd. apply NoDup_app in Hnd as (_ & Hd & _). apply (Hd x).
  - unfold block_pages. cbn [fst snd]. by rewrite Ez.
  - apply elem_of_app. left. apply (block_pages_elem b); [done|].
    unfold block_pages. by rewrite Ezk.
Qed.

Lemma page_al_write s bs m :
  page_owns s bs →
  (∀ x, (∀ b, b ∈ bs → x < b.1 ∨ b.1 + b.2 <= x) → rd8 m x = rd8 (pmem s) x) →
  page_owns (Pages m (freelist s) (plock s)) bs.
Proof.
  intros (l & Hfl & Hok & Hnd & Hlen) Hm. exists l. split; [|by split_and!].
  pose proof Hfl as (Hlk & Hc & Hn). split; [done|]. split; [|done]. cbn.
  eapply chain_ext; [|done]. intros q x Hq Hx. apply Hm. intros b Hb.
  pose proof (owned_apart s bs l b q Hfl Hok Hnd Hb Hq). lia.
Qed.

Lemma page_al_free s bs p size :
  page_owns s ((p, size) :: bs) →
  wp (page_free p size) (λ _ s', page_owns s' bs ∧
    ∀ b x, b ∈ bs → b.1 <= x < b.1 + b.2 → rd8 (pmem s') x = rd8 (pmem s) x) s.
Proof.
  intros Hs. pose proof Hs as (l & Hfl & Hok & Hnd & Hlen).
  apply Forall_cons in Hok as [Hb Hok].
  destruct (block_size_pages _ Hb) as (n & En & Ez & Hr). cbn in En, Ez, Hr.
  change (((p, size) :: bs) ≫= block_pages) with
    (block_pages (p, size) ++ (bs ≫= block_pages)) in Hnd, Hlen.
  assert (block_pages (p, size) = page_seq p (S n)) as Ep by exact (f_equal (page_seq p) Ez).
  rewrite Ep in Hnd, Hlen.
  unfold page_free. rewrite En. destruct Hr as (Hp0 & Hpm & Hpe).
  eapply wp_mono; [apply (free_pages_wp s l p n); [done|done| |lia]|].
  - intros q Hq Hin. apply NoDup_app in Hnd as (_ & Hd & _). apply (Hd q); [|done].
    apply elem_of_app. by left.
  - intros [] s' [Hfl' Hfr]. split.
    + exists (page_seq p (S n) ++ l). split; [done|]. split; [done|].
      assert ((page_seq p (S n) ++ (bs ≫= block_pages)) ++ l ≡ₚ
        (bs ≫= block_pages) ++ page_seq p (S n) ++ l) as Hperm by solve_Permutation.
      split; [by rewrite <- Hperm|]. apply Permutation_length in Hperm.
      rewrite !length_app in *. lia.
    + intros b x Hbin Hx. apply Hfr.
      pose proof (page_al_apart s p size bs b Hs Hbin). lia.
Qed.

#[export] Instance page_laws : AllocLaws pages (ops := page_ops fuel).
Proof.
  refine (@Build_AllocLaws pages (page_ops fuel) page_owns (page_memalign fuel) page_free
    eq_refl eq_refl _ _ page_al_memalign page_al_free page_al_apart page_al_write).
  - by exists 12.
  - done.
Defined.
End PageLaws.

(** ** Properties *)

(** C4: with a backend that keeps its laws, [memalign] of [size] bytes returns a
    block with the alignment asked for, apart from all the blocks in use, whose
    contents it keeps; whatever the caller then does to the bytes of the block,
    [free] gives the backend its own block back and keeps the blocks in use.
    When the backend has no memory, the result is the address 16 or the
    alignment, not NULL. *)
Theorem memalign_free {St} {ops : AllocOps St} {laws : AllocLaws St} s bs k size :
  owns s bs → 0 <= k <= 32 → 0 < size < 2 ^ 40 →
  wp (memalign (2 ^ k) size) (λ q s1,
    q = Z.max 16 (2 ^ k) ∨
    q mod 2 ^ k = 0 ∧ keeps bs s s1 ∧ (∀ b, b ∈ bs → b.1 + b.2 <= q ∨ q + size <= b.1) ∧
    ∀ m, (∀ x, x < q ∨ q + size <= x → rd8 m x = rd8 (ao_mem s1) x) →
      wp (free q) (λ _ s2, owns s2 bs ∧ keeps bs s s2) (ao_set_mem m s1)) s.
Proof.
  intros Hs Hk Hsz. eapply wp_mono; [by apply memalign_wp|].
  intros q s1 [H|(p & n & Hs1 & Hc & Hm & Hkeep)]; [by left|right].
  pose proof Hc as (H1 & H2 & _).
  assert (∀ b, b ∈ bs → b.1 + b.2 <= p ∨ p + n <= b.1) as Hap
    by (intros b Hb; by apply (al_apart s1 p n bs b)).
  split; [done|]. split; [done|]. split.
  { intros b Hb. specialize (Hap b Hb). lia. }
  intros m Hmem. eapply wp_mono; [apply (free_wp _ bs q size p n)|].
  - apply al_write; [done|]. intros x Hx. apply Hmem. specialize (Hx (p, n)). cbn in Hx.
    destruct Hx; [by left|lia|lia].
  - rewrite al_mem_set. eapply carved_ext; [lia| |done]. intros x Hx. apply Hmem. lia.
  - cbn beta. intros [] s2 [Hs2 Hk2]. split; [done|]. intros b x Hb Hx. rewrite (Hk2 b x Hb Hx).
    rewrite al_mem_set, Hmem by (specialize (Hap b Hb); lia). by apply (Hkeep b).
Qed.

(** A range of eight free pages, and lists of at most 100. *)
#[local] Instance ex_ops : AllocOps pages := page_ops 100.
#[local] Instance ex_laws : AllocLaws pages := page_laws 100.
Definition ex_pages8 : pages :=
  match free_pages 0x10000 0x8000 (Pages ∅ 0 false) with Ret (_, s) => s | _ => ex_pages end.

Lemma ex_pages8_owns : page_owns 100 ex_pages8 [].
Proof.
  exists (page_seq 0x10000 8). split; [|split_and!; [done| |cbn; lia]].
  - split; [by vm_compute|]. split; [|apply NoDup_page_seq].
    vm_compute. repeat split; done.
  - apply NoDup_page_seq.
Qed.

Lemma memalign_free_witness :
  wp (memalign (2 ^ 5) 100) (λ q s1,
    q = Z.max 16 (2 ^ 5) ∨
    q mod 2 ^ 5 = 0 ∧ keeps [] ex_pages8 s1 ∧
    (∀ b, b ∈ ([] : list (Z * Z)) → b.1 + b.2 <= q ∨ q + 100 <= b.1) ∧
    ∀ m, (∀ x, x < q ∨ q + 100 <= x → rd8 m x = rd8 (ao_mem s1) x) →
      wp (free q) (λ _ s2, page_owns 100 s2 [] ∧ keeps [] ex_pages8 s2) (ao_set_mem m s1)) ex_pages8.
Proof. exact (memalign_free ex_pages8 [] 5 100 ex_pages8_owns ltac:(lia) ltac:(lia)). Defined.

(** [calloc] zeroes the block it returns. *)
Theorem calloc_zero {St} {ops : AllocOps St} {laws : AllocLaws St} s bs nmemb size :
  owns s bs → 0 <= nmemb → 0 <= size → 0 < nmemb * size < 2 ^ 40 →
  wp (calloc nmemb size) (λ q s1,
    q = 16 ∨ keeps bs s s1 ∧ ∀ x, q <= x < q + nmemb * size → rd8 (ao_mem s1) x = 0) s.
Proof.
  intros Hs Hn Hz Hsz. unfold calloc, malloc. rewrite wrap_small by lia. wstep.
  eapply wp_mono; [apply (memalign_wp s bs 3); [done|lia|lia]|].
  intros q s1 [->|(p & n & Hs1 & Hc & Hm & Hkeep)].
  - change (Z.max 16 (2 ^ 3)) with 16. cbn [negb Z.eqb]. wsteps. by left.
  - pose proof Hc as (H1 & H2 & H3 & _). rewrite (proj2 (Z.eqb_neq q 0)) by lia. cbn [negb]. wsteps.
    right. rewrite al_mem_set. split.
    + intros b x Hb Hx. pose proof (al_apart s1 p n bs b Hs1 Hb) as Hap.
      rewrite al_mem_set, memset_out by lia. by apply (Hkeep b).
    + intros x Hx. rewrite memset_in by lia. done.
Qed.

Lemma calloc_zero_witness :
  wp (calloc 10 24) (λ q s1,
    q = 16 ∨ keeps [] ex_pages8 s1 ∧ ∀ x, q <= x < q + 10 * 24 → rd8 (ao_mem s1) x = 0) ex_pages8.
Proof.
  exact (calloc_zero ex_pages8 [] 10 24 ex_pages8_owns ltac:(lia) ltac:(lia) ltac:(lia)).
Defined.

(** the result of the backend is not tested: when it has no memory, [malloc]
    writes two words at the addresses 0 and 8 and returns the address 16. *)
Theorem malloc_no_memory {St} {ops : AllocOps St} s backend size :
  ao_memalign = Some backend → (∀ align n, backend align n s = Ret (0, s)) →
  ∃ n, malloc size s = (store_word 0 16;; store_word 8 n;; mret 16) s.
Proof.
  intros Hb H0. exists (ALIGN (u64 (size + 16)) ao_align_min).
  unfold malloc, memalign. rewrite Hb. change (8 <=? 8) with true. cbv iota beta.
  unfold mbind, prog_bind at 1. by rewrite H0.
Qed.

Definition ops0 : AllocOps mem := {|
  ao_memalign := Some (λ _ _, mret 0); ao_free := None; ao_align_min := 32;
  ao_mem m := m; ao_set_mem m _ := m |}.

Lemma malloc_no_memory_witness :
  ∃ n, malloc (ops := ops0) 100 ∅ =
    (store_word (ops := ops0) 0 16;; store_word (ops := ops0) 8 n;; mret 16) ∅.
Proof. by apply (malloc_no_memory (ops := ops0) ∅ (λ _ _, mret 0)). Defined.
