(* ===== verification/Paging.v ===== *)
(** * Tables of pages: the theory lib/x86/vm.c and x86/hsi_virtual_spec.c share

    Four levels of tables of 512 entries of 8 bytes, in the memory of a page
    allocator.  The allocator is an interface: [alloc_page] and the memory it
    manages, with the laws the table code relies on.  [walk] is the walk of the
    processor, the reference the operations are proved against; the bits that
    make an entry present are a parameter of it ([Present]: bit 0 in the page
    tables of Vm.v, any of the three permissions in the extended page tables of
    Ept.v). *)

From S2P Require Import Prelude Memory CString Bits AllocPage.

(** What the table code uses of the page allocator. *)
Class PageAlloc (St : Type) := {
  pg_alloc_page : prog St Z;
  pg_free_page : Z → prog St unit;
  pg_mem : St → mem;
  pg_set_mem : mem → St → St;
}.

Definition PAGE_LEVEL : nat := 4.
Definition PGDIR_WIDTH : Z := 9.
Definition PGDIR_MASK : Z := 511.
Definition LARGE_PAGE_SIZE : Z := 512 * PAGE_SIZE.

(** The bits that make an entry present. *)
Class Present := present_mask : Z.

Definition PT_PRESENT_MASK : Present := Z.shiftl 1 0.
Definition PT_WRITABLE_MASK : Z := Z.shiftl 1 1.
Definition PT_USER_MASK : Z := Z.shiftl 1 2.
Definition PT_PAGE_SIZE_MASK : Z := Z.shiftl 1 7.
Definition PT_ADDR_MASK : Z := GENMASK_ULL 51 12.

Definition PGDIR_BITS (lvl : Z) : Z := (lvl - 1) * PGDIR_WIDTH + PAGE_SHIFT.
Definition PGDIR_OFFSET (va lvl : Z) : Z := Z.land (Z.shiftr va (PGDIR_BITS lvl)) PGDIR_MASK.

(** [pte & mask] as a condition. *)
Definition has (pte mask : Z) : bool := negb (Z.land pte mask =? 0).

(** [&pt[offset]] *)
Definition pte_at (pt offset : Z) : Z := pt + 8 * offset.

Section Access.
Context {St : Type} {ops : PageAlloc St}.

Definition load64 (a : Z) : prog St Z := gets (λ s, ld64 (pg_mem s) a).
Definition store64 (a v : Z) : prog St unit := modify (λ s, pg_set_mem (st64 (pg_mem s) a v) s).
Definition zero_page (p : Z) : prog St unit :=
  modify (λ s, pg_set_mem (memset (pg_mem s) p 0 4096) s).
End Access.

(** ** The walk of the processor

    An entry without the present bit ends the walk; a leaf is an entry of level
    1, or one of level 2 or 3 with the page-size bit. *)

Section Paging.
Context {pm : Present}.

Definition is_leaf (level : nat) (e : Z) : bool :=
  (level =? 1)%nat || (((level =? 2) || (level =? 3))%nat && has e PT_PAGE_SIZE_MASK).

(** The bytes a leaf of [level] maps, and the physical address it gives [va]. *)
Definition span (level : nat) : Z := 2 ^ (9 * (level - 1) + 12).

Definition leaf_addr (level : nat) (e va : Z) : Z :=
  Z.land e PT_ADDR_MASK / span level * span level + va mod span level.

Definition idx (va : Z) (level : nat) : Z := va / span level mod 512.

Definition entry (m : mem) (t i : Z) : Z := ld64 m (pte_at t i).

(** The leaf of [va] below the table [t] of [level]: its level and its value. *)
Fixpoint walk (m : mem) (level : nat) (t va : Z) : option (nat * Z) :=
  match level with
  | O => None
  | S level' =>
      let e := entry m t (idx va level) in
      if negb (has e pm) then None
      else if is_leaf level e then Some (level, e)
      else walk m level' (Z.land e PT_ADDR_MASK) va
  end.

Definition leaf (m : mem) (cr3 va : Z) : option (nat * Z) := walk m PAGE_LEVEL cr3 va.

Definition translate (m : mem) (cr3 va : Z) : option Z :=
  '(level, e) ← leaf m cr3 va; Some (leaf_addr level e va).

(** ** Entries and paths *)

Lemma span_pos level : 0 < span level.
Proof. unfold span. destruct level; [cbn; lia|]. apply Z.pow_pos_nonneg; lia. Qed.

Lemma PGDIR_OFFSET_idx va (level : nat) : (1 <= level)%nat → PGDIR_OFFSET va level = idx va level.
Proof.
  intros Hl. unfold PGDIR_OFFSET, PGDIR_BITS, PGDIR_WIDTH, PGDIR_MASK, idx, span.
  rewrite Z.shiftr_div_pow2 by lia. change 511 with (2 ^ 9 - 1). rewrite mask_low by lia.
  do 3 f_equal. lia.
Qed.

Lemma idx_range va level : 0 <= idx va level < 512.
Proof. apply Z.mod_pos_bound. lia. Qed.

Lemma pte_mask e : Z.land e PT_ADDR_MASK = Z.land e 0xffffffffff000.
Proof. reflexivity. Qed.

(** The indices that lead from a table of [level] down [n] levels. *)
Fixpoint vpath (va : Z) (level n : nat) : list Z :=
  match n with O => [] | S n' => idx va level :: vpath va (level - 1) n' end.

Lemma vpath_length va level n : length (vpath va level n) = n.
Proof. revert level. induction n; intros; cbn; auto. Qed.

Lemma vpath_snoc va level n : vpath va level (S n) = vpath va level n ++ [idx va (level - n)].
Proof.
  revert level. induction n as [|n IH]; intros level; [cbn; by rewrite Nat.sub_0_r|].
  change (vpath va level (S (S n))) with (idx va level :: vpath va (level - 1) (S n)).
  rewrite IH. cbn. do 4 f_equal. lia.
Qed.

Lemma span_S level : (1 <= level)%nat → span (S level) = span level * 512.
Proof.
  intros Hl. unfold span. change 512 with (2 ^ 9). rewrite <- Z.pow_add_r by lia. f_equal. lia.
Qed.

Lemma div_span va level :
  (1 <= level)%nat → va / span level = va / span (S level) * 512 + idx va level.
Proof.
  intros Hl. pose proof (span_pos level). rewrite span_S, <- Z.div_div by lia. unfold idx.
  pose proof (Z.div_mod (va / span level) 512). lia.
Qed.

(** Two addresses of 48 bits have the same indices down to a level when they
    are in the same area of that level. *)
Lemma vpath_eq va va' d :
  (d < 4)%nat → 0 <= va < 2 ^ 48 → 0 <= va' < 2 ^ 48 →
  vpath va 4 (S d) = vpath va' 4 (S d) ↔ va / span (4 - d) = va' / span (4 - d).
Proof.
  intros Hd Hva Hva'. induction d as [|d IH].
  - cbn [vpath Nat.sub]. unfold idx.
    change (span 4) with (2 ^ 39).
    assert (0 <= va / 2 ^ 39 < 512) by (split; [apply Z.div_pos|apply Z.div_lt_upper_bound]; lia).
    assert (0 <= va' / 2 ^ 39 < 512) by (split; [apply Z.div_pos|apply Z.div_lt_upper_bound]; lia).
    rewrite !Z.mod_small by lia. split; [by intros [= E]|by intros ->].
  - rewrite (vpath_snoc va 4 (S d)), (vpath_snoc va' 4 (S d)).
    rewrite (div_span va (4 - S d)), (div_span va' (4 - S d)) by lia.
    replace (S (4 - S d)) with (4 - d)%nat by lia. split.
    + intros E. apply app_inj_tail in E as [E1 E2]. apply IH in E1; [|lia]. congruence.
    + intros E. pose proof (idx_range va (4 - S d)). pose proof (idx_range va' (4 - S d)).
      assert (va / span (4 - d) = va' / span (4 - d)) as E1 by lia.
      apply IH in E1; [|lia]. rewrite E1. do 2 f_equal. lia.
Qed.

(** Tables lie below 2^52, so that an entry can point to them. *)
Definition table_ok (t : Z) : Prop := page_ok t ∧ t + PAGE_SIZE <= 2 ^ 52.

Lemma entry_other m t i t' i' v :
  page_ok t → page_ok t' → 0 <= i < 512 → 0 <= i' < 512 → (t, i) ≠ (t', i') →
  entry (st64 m (pte_at t i) v) t' i' = entry m t' i'.
Proof.
  intros Ht Ht' Hi Hi' Hne. unfold entry, pte_at. apply ldn_stn_other.
  destruct (decide (t = t')) as [->|Hn].
  - assert (i ≠ i') by congruence. lia.
  - destruct (page_apart t t' Ht Ht' Hn); lia.
Qed.

Lemma entry_same m t i v : 0 <= v < 2 ^ 64 → entry (st64 m (pte_at t i) v) t i = v.
Proof. apply ld64_st64_same. Qed.

(** A frame and flags below it. *)
Lemma pte_flags p f :
  p mod PAGE_SIZE = 0 → 0 <= p → p + PAGE_SIZE <= 2 ^ 52 → 0 <= f < PAGE_SIZE →
  Z.land (Z.lor p f) PT_ADDR_MASK = p ∧ Z.lor p f = p + f.
Proof.
  intros Hm Hp Hb Hf. assert (Z.lor p f = p + f) as E.
  { apply Z.mod_divide in Hm as [c ->]; [|lia]. apply (lor_add c f 12); lia. }
  split; [|done]. rewrite E. unfold PT_ADDR_MASK. rewrite land_genmask by lia.
  change (2 ^ (51 + 1)) with (2 ^ 52). change (2 ^ 12) with 4096. rewrite (Z.mod_small _ (2 ^ 52)) by lia.
  mlia.
Qed.

Lemma has_lor_flags p f mask k :
  p mod PAGE_SIZE = 0 → mask = 2 ^ k → 0 <= k < 12 → has (Z.lor p f) mask = Z.testbit f k.
Proof.
  intros Hm -> Hk. unfold has. apply Z.mod_divide in Hm as [c ->]; [|lia].
  assert (Z.testbit (c * PAGE_SIZE) k = false) as Hb.
  { change PAGE_SIZE with (2 ^ 12). apply Z.mul_pow2_bits_low; lia. }
  destruct (Z.testbit f k) eqn:E.
  - apply negb_true_iff, Z.eqb_neq. intros H0. apply (f_equal (λ x, Z.testbit x k)) in H0.
    rewrite Z.land_spec, Z.lor_spec, Z.pow2_bits_true, E, Hb, Z.bits_0 in H0 by lia. done.
  - apply negb_false_iff, Z.eqb_eq. apply Z.bits_inj'. intros i Hi.
    rewrite Z.land_spec, Z.lor_spec, Z.pow2_bits_eqb, Z.bits_0 by lia.
    destruct (Z.eqb_spec k i) as [<-|]; [by rewrite Hb, E|by rewrite andb_false_r].
Qed.

(** ** Well-formed page tables

    [T] gives every table the indices that lead to it from the root.  A table
    has one path, so that two areas never share a table. *)
Record wf (m : mem) (cr3 : Z) (T : gmap Z (list Z)) : Prop := {
  wf_root : T !! cr3 = Some [];
  wf_table : ∀ t π, T !! t = Some π → table_ok t ∧ (length π < 4)%nat;
  wf_child : ∀ t π i, T !! t = Some π → 0 <= i < 512 →
    has (entry m t i) pm = true → is_leaf (4 - length π) (entry m t i) = false →
    T !! Z.land (entry m t i) PT_ADDR_MASK = Some (π ++ [i]);
}.

(** The table [n] levels down from [t], when there is one. *)
Fixpoint reach (m : mem) (n level : nat) (t va : Z) : option Z :=
  match n with
  | O => Some t
  | S n' =>
      let e := entry m t (idx va level) in
      if has e pm && negb (is_leaf level e)
      then reach m n' (level - 1) (Z.land e PT_ADDR_MASK) va else None
  end.

Lemma walk_reach m n level t va t' :
  reach m n level t va = Some t' → walk m level t va = walk m (level - n) t' va.
Proof.
  revert level t. induction n as [|n IH]; intros level t; cbn [reach].
  - intros [= ->]. by rewrite Nat.sub_0_r.
  - destruct (has _ _) eqn:Ep; [|done]. destruct (is_leaf _ _) eqn:El; [done|]. cbn [andb negb].
    intros Hr. destruct level as [|level].
    + specialize (IH 0%nat _ Hr). cbn in IH |- *. destruct n; done.
    + cbn [walk]. rewrite Ep, El. cbn [negb]. cbn [Nat.sub] in Hr. rewrite Nat.sub_0_r in Hr.
      rewrite (IH level _ Hr). done.
Qed.

Lemma reach_snoc m n level t va t' :
  reach m n level t va = Some t' →
  reach m (S n) level t va =
    (let e := entry m t' (idx va (level - n)) in
     if has e pm && negb (is_leaf (level - n) e)
     then Some (Z.land e PT_ADDR_MASK) else None).
Proof.
  revert level t. induction n as [|n IH]; intros level t.
  - cbn. intros [= ->]. by rewrite Nat.sub_0_r.
  - cbn [reach]. destruct (_ && _); [|done]. intros H.
    specialize (IH (level - 1)%nat _ H). cbn [reach] in IH. rewrite IH.
    replace (level - 1 - n)%nat with (level - S n)%nat by lia. done.
Qed.

Lemma reach_add m a b level t va :
  reach m (a + b) level t va = (t' ← reach m a level t va; reach m b (level - a) t' va).
Proof.
  revert level t. induction a as [|a IH]; intros level t.
  - cbn. by rewrite Nat.sub_0_r.
  - cbn [Nat.add reach]. destruct (_ && _); [|done]. rewrite IH.
    replace (level - 1 - a)%nat with (level - S a)%nat by lia. done.
Qed.

Lemma reach_same m n level t va va' :
  vpath va level n = vpath va' level n → reach m n level t va = reach m n level t va'.
Proof.
  revert level t. induction n as [|n IH]; intros level t; cbn [reach vpath]; [done|].
  intros [= -> E]. destruct (_ && _); [|done]. by apply IH.
Qed.

Section Wf.
Context (m m' : mem) (cr3 : Z) (T : gmap Z (list Z)) (t0 : Z) (π0 : list Z) (i0 : Z).
Context (Hwf : wf m cr3 T) (Ht0 : T !! t0 = Some π0).
(** [m'] is [m] but for the entry [i0] of [t0]. *)
Context (Hagree : ∀ t π i, T !! t = Some π → 0 <= i < 512 → (t, i) ≠ (t0, i0) →
  entry m' t i = entry m t i).

Lemma reach_wf n level t π va t' :
  T !! t = Some π → (level = 4 - length π)%nat → reach m n level t va = Some t' →
  T !! t' = Some (π ++ vpath va level n).
Proof using Hwf.
  revert level t π. induction n as [|n IH]; intros level t π Ht Hl; cbn [reach vpath].
  - intros [= <-]. by rewrite app_nil_r.
  - destruct (has _ _) eqn:Ep; [|done]. destruct (is_leaf _ _) eqn:El; [done|]. cbn [andb negb].
    intros Hr. subst level.
    pose proof (wf_child _ _ _ Hwf t π _ Ht (idx_range _ _) Ep El) as Hc.
    rewrite (IH (4 - length π - 1)%nat _ (π ++ [idx va (4 - length π)]) Hc);
      [by rewrite <- app_assoc|rewrite length_app; cbn; lia|done].
Qed.

(** A walk that does not use the entry is not changed. *)
Lemma walk_off level t π va :
  T !! t = Some π → (level = 4 - length π)%nat → π = vpath va 4 (length π) →
  vpath va 4 (S (length π0)) ≠ π0 ++ [i0] → walk m' level t va = walk m level t va.
Proof using Hwf Ht0 Hagree.
  revert t π. induction level as [|level IH]; intros t π Ht Hl Hπ Hne; cbn [walk]; [done|].
  assert (entry m' t (idx va (S level)) = entry m t (idx va (S level))) as Ee.
  { apply (Hagree t π); [done|apply idx_range|]. intros [= -> Ei].
    rewrite Ht0 in Ht. injection Ht as <-. apply Hne. rewrite vpath_snoc, <- Hπ.
    by rewrite <- Hl, Ei. }
  rewrite Ee. destruct (has _ _) eqn:Ep; [|done]. cbn [negb].
  destruct (is_leaf _ _) eqn:El; [done|]. rewrite Hl in Ep, El.
  pose proof (wf_child _ _ _ Hwf t π _ Ht (idx_range _ _) Ep El) as Hc.
  rewrite Hl. apply (IH _ (π ++ [idx va (4 - length π)])); [done| | |done].
  - rewrite length_app. cbn. lia.
  - rewrite length_app. cbn [length]. rewrite Nat.add_1_r, vpath_snoc. by rewrite <- Hπ.
Qed.

(** The tables above the entry are reached as before. *)
Lemma reach_above n level t π va :
  T !! t = Some π → (level = 4 - length π)%nat → (n + length π <= length π0)%nat →
  reach m' n level t va = reach m n level t va.
Proof using Hwf Ht0 Hagree.
  revert level t π. induction n as [|n IH]; intros level t π Ht Hl Hn; cbn [reach]; [done|].
  assert (entry m' t (idx va level) = entry m t (idx va level)) as Ee.
  { apply (Hagree t π); [done|apply idx_range|]. intros [= -> _].
    rewrite Ht0 in Ht. injection Ht as <-. lia. }
  rewrite Ee. destruct (has _ _) eqn:Ep; [|done]. destruct (is_leaf _ _) eqn:El; [done|].
  cbn [andb negb]. subst level.
  pose proof (wf_child _ _ _ Hwf t π _ Ht (idx_range _ _) Ep El) as Hc.
  apply (IH _ _ (π ++ [idx va (4 - length π)])); [done|rewrite length_app; cbn; lia..].
Qed.
End Wf.

(** Memories with the same tables have the same translation. *)
Lemma wf_same m m' cr3 T :
  wf m cr3 T → (∀ t π i, T !! t = Some π → 0 <= i < 512 → entry m' t i = entry m t i) →
  wf m' cr3 T ∧ ∀ va, leaf m' cr3 va = leaf m cr3 va.
Proof.
  intros [Hr Ht Hc] Ha. split.
  - split; [done|done|]. intros t π i Hti Hi. rewrite (Ha t π i) by done. by apply Hc.
  - intros va. unfold leaf.
    assert (∀ level t π, T !! t = Some π → level = (4 - length π)%nat →
              walk m' level t va = walk m level t va) as Hw.
    { induction level as [|level IH]; intros t π Hti Hl; [done|]. cbn [walk].
      rewrite (Ha t π) by (done || apply idx_range).
      destruct (has _ pm) eqn:Ep; [|done]. cbn [negb].
      destruct (is_leaf (S level) _) eqn:El; [done|]. eapply IH.
      - apply Hc; [done|apply idx_range|done|]. by rewrite <- Hl.
      - rewrite length_app. cbn. lia. }
    by eapply Hw.
Qed.

Lemma wf_page m cr3 T t π : wf m cr3 T → T !! t = Some π → page_ok t.
Proof. intros H Ht. by apply (wf_table _ _ _ H t π). Qed.

(** Writing a leaf, or an entry that is not present: the area of the entry is
    translated by it, everything else as before. *)
Lemma set_entry m cr3 T d va t v :
  wf m cr3 T → (d < 4)%nat → reach m d 4 cr3 va = Some t → 0 <= v < 2 ^ 64 →
  (has v pm = true → is_leaf (4 - d) v = true) →
  let m' := st64 m (pte_at t (idx va (4 - d))) v in
  wf m' cr3 T ∧ reach m' d 4 cr3 va = Some t ∧
  ∀ va', leaf m' cr3 va' =
    if decide (vpath va' 4 (S d) = vpath va 4 (S d)) then
      if has v pm then Some ((4 - d)%nat, v) else None
    else leaf m cr3 va'.
Proof.
  intros Hwf Hd Hr Hv Hleaf m'. pose proof (wf_root _ _ _ Hwf) as Hroot.
  pose proof (reach_wf m cr3 T Hwf d 4 cr3 [] va t Hroot eq_refl Hr) as Ht. cbn [app] in Ht.
  pose proof (wf_page _ _ _ _ _ Hwf Ht) as Hpt.
  assert (∀ t' π i, T !! t' = Some π → 0 <= i < 512 → (t', i) ≠ (t, idx va (4 - d)) →
    entry m' t' i = entry m t' i) as Hag.
  { intros t' π i Ht' Hi Hne. apply entry_other; [done|by eapply wf_page|apply idx_range|done|congruence]. }
  assert (entry m' t (idx va (4 - d)) = v) as Ev by by apply entry_same.
  assert (reach m' d 4 cr3 va = Some t) as Hr'.
  { rewrite (reach_above m m' cr3 T t _ _ Hwf Ht Hag d 4 cr3 []); try done.
    rewrite vpath_length. cbn. lia. }
  split; [|split; [done|]].
  - split; [done|apply Hwf|]. intros t' π i Ht' Hi. destruct (decide ((t', i) = (t, idx va (4 - d)))) as [E|E].
    + injection E as -> ->. rewrite Ht in Ht'. injection Ht' as <-. rewrite Ev, vpath_length.
      intros Hp. rewrite Hleaf by done. done.
    + rewrite (Hag t' π i) by done. by apply Hwf.
  - intros va'. unfold leaf, PAGE_LEVEL. case_decide as Hp.
    + assert (vpath va' 4 d = vpath va 4 d ∧ idx va' (4 - d) = idx va (4 - d)) as [Hp1 Hp2].
      { rewrite !vpath_snoc in Hp. by apply app_inj_tail in Hp. }
      rewrite (walk_reach m' d 4 cr3 va' t) by (rewrite <- Hr'; by apply reach_same).
      destruct (4 - d)%nat as [|k] eqn:Ek; [lia|]. cbn [walk]. rewrite Hp2, Ev.
      destruct (has v _) eqn:Hhas; [|done]. by rewrite Hleaf.
    + apply (walk_off m m' cr3 T t _ _ Hwf Ht Hag 4 cr3 []); try done.
      by rewrite vpath_length, <- vpath_snoc.
Qed.

(** Linking a new table [p] whose present entries are leaves, in the place of an
    entry that is a leaf or not present: the area of the entry is translated by
    the new table, everything else as before. *)
Lemma link_table m m1 cr3 T d va t p v :
  wf m cr3 T → (d < 3)%nat → reach m d 4 cr3 va = Some t → table_ok p → T !! p = None →
  (∀ x, (x < p ∨ p + PAGE_SIZE <= x) → rd8 m1 x = rd8 m x) →
  (has (entry m t (idx va (4 - d))) pm = true → is_leaf (4 - d) (entry m t (idx va (4 - d))) = true) →
  (∀ i, 0 <= i < 512 → has (entry m1 p i) pm = true → is_leaf (3 - d) (entry m1 p i) = true) →
  has v pm = true → is_leaf (4 - d) v = false → Z.land v PT_ADDR_MASK = p → 0 <= v < 2 ^ 64 →
  let m' := st64 m1 (pte_at t (idx va (4 - d))) v in
  wf m' cr3 (<[p := vpath va 4 (S d)]> T) ∧ reach m' (S d) 4 cr3 va = Some p ∧
  (∀ i, 0 <= i < 512 → entry m' p i = entry m1 p i) ∧ entry m' t (idx va (4 - d)) = v ∧
  (∀ t' π i, T !! t' = Some π → 0 <= i < 512 → (t', i) ≠ (t, idx va (4 - d)) →
    entry m' t' i = entry m t' i) ∧
  (∀ va', leaf m' cr3 va' =
    if decide (vpath va' 4 (S d) = vpath va 4 (S d)) then
      let e := entry m1 p (idx va' (3 - d)) in if has e pm then Some ((3 - d)%nat, e) else None
    else leaf m cr3 va').
Proof.
  intros Hwf Hd Hr Hp Hfresh Hsame Hold Hnew Epr Hnl Et Er m'. pose proof (wf_root _ _ _ Hwf) as Hroot.
  pose proof (reach_wf m cr3 T Hwf d 4 cr3 [] va t Hroot eq_refl Hr) as Ht. cbn [app] in Ht.
  pose proof (wf_page _ _ _ _ _ Hwf Ht) as Hpt.
  assert (page_ok p) as Hpp by apply Hp.
  assert (∀ t' i, page_ok t' → t' ≠ p → 0 <= i < 512 →
    entry m1 t' i = entry m t' i) as Hms.
  { intros t' i Ht' Hne Hi. unfold entry. apply ldn_ext. unfold pte_at. intros x Hx.
    apply Hsame. destruct (page_apart t' p Ht' Hpp Hne); lia. }
  assert (∀ t' π i, T !! t' = Some π → 0 <= i < 512 → (t', i) ≠ (t, idx va (4 - d)) →
    entry m' t' i = entry m t' i) as Hag.
  { intros t' π i Ht' Hi Hne. pose proof (wf_page _ _ _ _ _ Hwf Ht') as Hpt'. unfold m'.
    rewrite entry_other; [|done|done|apply idx_range|done|congruence].
    apply Hms; [done|congruence|done]. }
  assert (entry m' t (idx va (4 - d)) = v) as Ev by by apply entry_same.
  assert (t ≠ p) as Htp by congruence.
  assert (∀ i, 0 <= i < 512 → entry m' p i = entry m1 p i) as Hz.
  { intros i Hi. unfold m'. rewrite entry_other; [done|done|done|apply idx_range|done|congruence]. }
  assert (reach m' d 4 cr3 va = Some t) as Hr'.
  { rewrite (reach_above m m' cr3 T t _ _ Hwf Ht Hag d 4 cr3 []); try done.
    rewrite vpath_length. cbn. lia. }
  assert (∀ va', vpath va' 4 (S d) = vpath va 4 (S d) → reach m' (S d) 4 cr3 va' = Some p) as Hrp.
  { intros va' Hva'. rewrite (reach_same _ _ _ _ _ va Hva').
    rewrite (reach_snoc m' d 4 cr3 va t Hr'). cbn zeta. by rewrite Ev, Epr, Hnl, Et. }
  split; [|split; [by apply Hrp|split; [done|split; [done|split; [done|]]]]].
  - split.
    + rewrite lookup_insert_ne by congruence. done.
    + intros t' π [[<- <-]|[_ Ht']]%lookup_insert_Some; [|by apply Hwf in Ht'].
      rewrite vpath_length. split; [done|lia].
    + intros t' π i [[<- <-]|[Hne Ht']]%lookup_insert_Some Hi.
      { rewrite Hz by done. rewrite vpath_length. intros H1 H2.
        replace (4 - S d)%nat with (3 - d)%nat in H2 by lia. by rewrite Hnew in H2. }
      destruct (decide ((t', i) = (t, idx va (4 - d)))) as [E|E].
      * injection E as -> ->. rewrite Ev, Et. intros _ _. rewrite lookup_insert_eq.
        rewrite Ht in Ht'. injection Ht' as <-. by rewrite vpath_snoc.
      * rewrite (Hag t' π i) by done. intros H1 H2. pose proof (wf_child _ _ _ Hwf t' π i Ht' Hi H1 H2) as Hc.
        rewrite lookup_insert_ne by congruence. done.
  - intros va'. unfold leaf, PAGE_LEVEL.
    destruct (decide (vpath va' 4 (S d) = vpath va 4 (S d))) as [Hpa|Hpa].
    + rewrite (walk_reach m' (S d) 4 cr3 va' p) by by apply Hrp.
      replace (4 - S d)%nat with (3 - d)%nat by lia.
      pose proof (Hz _ (idx_range va' (3 - d))) as Ez. pose proof (Hnew _ (idx_range va' (3 - d))) as Hn.
      destruct (3 - d)%nat as [|k] eqn:Ek; [lia|]. cbn [walk]. rewrite Ez.
      cbn zeta. destruct (has (entry m1 p _) pm) eqn:Eh; [|done]. cbn [negb]. by rewrite Hn.
    + apply (walk_off m m' cr3 T t _ _ Hwf Ht Hag 4 cr3 []); try done.
      by rewrite vpath_length, <- vpath_snoc.
Qed.

(** A new table without entries, below an entry that is not present: nothing is
    translated differently, and the walk of [va] gets one level deeper. *)
Lemma add_table m m1 cr3 T d va t p v :
  wf m cr3 T → (d < 3)%nat → reach m d 4 cr3 va = Some t → table_ok p → T !! p = None →
  (∀ x, p <= x < p + PAGE_SIZE → rd8 m1 x = 0) →
  (∀ x, (x < p ∨ p + PAGE_SIZE <= x) → rd8 m1 x = rd8 m x) →
  has (entry m t (idx va (4 - d))) pm = false →
  has v pm = true → is_leaf (4 - d) v = false → Z.land v PT_ADDR_MASK = p → 0 <= v < 2 ^ 64 →
  let m' := st64 m1 (pte_at t (idx va (4 - d))) v in
  wf m' cr3 (<[p := vpath va 4 (S d)]> T) ∧ reach m' (S d) 4 cr3 va = Some p ∧
  (∀ i, 0 <= i < 512 → entry m' p i = 0) ∧
  (∀ t' π i, T !! t' = Some π → 0 <= i < 512 → (t', i) ≠ (t, idx va (4 - d)) →
    entry m' t' i = entry m t' i) ∧
  (∀ va', leaf m' cr3 va' = leaf m cr3 va').
Proof.
  intros Hwf Hd Hr Hp Hfresh Hzero Hsame Habs H1 H2 H3 H4.
  assert (∀ i, 0 <= i < 512 → entry m1 p i = 0) as Hz.
  { intros i Hi. unfold entry, pte_at. apply ldn_zero. intros x Hx. apply Hzero. lia. }
  destruct (link_table m m1 cr3 T d va t p v) as (Hwf' & Hr' & Hp' & _ & Hoth & Hl); try done.
  { by rewrite Habs. }
  { intros i Hi. by rewrite Hz. }
  split; [done|]. split; [done|]. split; [intros i Hi; by rewrite Hp', Hz|].
  split; [done|].
  intros va'. rewrite Hl. case_decide as Hpa; [|done]. rewrite Hz by apply idx_range.
  cbv zeta. replace (has 0 pm) with false by done.
  assert (vpath va' 4 d = vpath va 4 d ∧ idx va' (4 - d) = idx va (4 - d)) as [Hp1 Hp2].
  { rewrite !vpath_snoc in Hpa. by apply app_inj_tail in Hpa. }
  unfold leaf, PAGE_LEVEL. rewrite (walk_reach m d 4 cr3 va' t) by (rewrite <- Hr; by apply reach_same).
  destruct (4 - d)%nat as [|k] eqn:Ek; [lia|]. cbn [walk]. by rewrite Hp2, Habs.
Qed.

(** No large page on the path of [va], [n] levels from [t] of [level]. *)
Fixpoint open_path (m : mem) (n level : nat) (t va : Z) : Prop :=
  match n with
  | O => True
  | S n' =>
      let e := entry m t (idx va level) in
      has e pm = true →
      is_leaf level e = false ∧ open_path m n' (level - 1) (Z.land e PT_ADDR_MASK) va
  end.

Lemma open_path_zero m n level t va :
  (∀ i, 0 <= i < 512 → entry m t i = 0) → open_path m n level t va.
Proof. intros Hz. destruct n; [done|]. cbn [open_path]. rewrite Hz by apply idx_range. done. Qed.

(** A walk that ends below the level [level - n] is open down to it. *)
Lemma walk_open m n level t va :
  (n < level)%nat → (∀ k e, walk m level t va = Some (k, e) → (k <= level - n)%nat) →
  open_path m n level t va.
Proof.
  revert level t. induction n as [|n IH]; intros level t Hn Hw; [done|].
  destruct level as [|level]; [lia|]. cbn [open_path walk] in *. intros Hp. rewrite Hp in Hw.
  cbn [negb] in Hw. destruct (is_leaf _ _) eqn:El.
  - specialize (Hw _ _ eq_refl). lia.
  - split; [done|]. replace (S level - 1)%nat with level by lia. apply IH; [lia|].
    intros k e E. specialize (Hw k e E). lia.
Qed.
Lemma wf_empty_root m p :
  table_ok p → (∀ i, 0 <= i < 512 → entry m p i = 0) →
  wf m p {[p := []]} ∧ ∀ va, leaf m p va = None.
Proof.
  intros Hp Hz. split.
  - split; [by rewrite lookup_singleton_eq| |].
    + intros t π [<- <-]%lookup_singleton_Some. split; [done|cbn; lia].
    + intros t π i [<- <-]%lookup_singleton_Some Hi. by rewrite Hz.
  - intros va. unfold leaf, PAGE_LEVEL. cbn [walk]. by rewrite Hz by apply idx_range.
Qed.
End Paging.

(** ** Installing entries *)

(** The laws of the page allocator: [pg_avail s l] says that [l] are the free
    pages; the allocator keeps its data in them and nowhere else. *)
Class PageAllocLaws (St : Type) {ops : PageAlloc St} := {
  pg_avail : St → list Z → Prop;
  pg_mem_set m s : pg_mem (pg_set_mem m s) = m;
  pg_avail_ok s l : pg_avail s l → Forall page_ok l ∧ NoDup l;
  pg_alloc_wp s l :
    pg_avail s l →
    wp pg_alloc_page (λ r s', match l with
      | [] => r = 0 ∧ s' = s
      | p :: l' => r = p ∧ pg_avail s' l' ∧ pg_mem s' = pg_mem s
      end) s;
  pg_avail_write s l m :
    pg_avail s l → (∀ q x, q ∈ l → q <= x < q + PAGE_SIZE → rd8 m x = rd8 (pg_mem s) x) →
    pg_avail (pg_set_mem m s) l;
}.

Section Tables.
Context {pm : Present} {St : Type} {ops : PageAlloc St} {laws : PageAllocLaws St}.

Lemma wp_load64 a (Q : Z → St → Prop) s : Q (ld64 (pg_mem s) a) s → wp (load64 a) Q s.
Proof. done. Qed.

(** Tables and free pages are apart, and all of them below 2^52. *)
Definition vm_inv (s : St) (cr3 : Z) (T : gmap Z (list Z)) (l : list Z) : Prop :=
  wf (pg_mem s) cr3 T ∧ pg_avail s l ∧ ∀ p, p ∈ l → T !! p = None ∧ p + PAGE_SIZE <= 2 ^ 52.

(** Only the tables change. *)
Definition frame (T : gmap Z (list Z)) (m m' : mem) : Prop :=
  ∀ x, (∀ t, is_Some (T !! t) → x < t ∨ t + PAGE_SIZE <= x) → rd8 m' x = rd8 m x.

Lemma frame_trans T T' m m1 m2 : T ⊆ T' → frame T m m1 → frame T' m1 m2 → frame T' m m2.
Proof.
  intros HT H1 H2 x Hx. rewrite H2 by done. apply H1. intros t [π Ht]. apply Hx.
  exists π. by eapply lookup_weaken.
Qed.

(** Storing to a table keeps the free pages. *)
Lemma avail_store s cr3 T l t i v :
  vm_inv s cr3 T l → is_Some (T !! t) → 0 <= i < 512 →
  pg_avail (pg_set_mem (st64 (pg_mem s) (pte_at t i) v) s) l.
Proof.
  intros (Hwf & Hav & Hfr) [π Ht] Hi. apply pg_avail_write; [done|].
  intros q x Hq Hx. apply rd8_stn_other. unfold pte_at.
  pose proof (wf_page _ _ _ _ _ Hwf Ht) as Hpt. destruct (pg_avail_ok s l Hav) as [Hok _].
  rewrite Forall_forall in Hok. specialize (Hok q Hq). destruct (Hfr q Hq) as [Hn _].
  destruct (page_apart q t Hok Hpt); [congruence|lia..].
Qed.

(** The tables [T'] are those of [T] and some of the pages [used]. *)
Definition grown (T T' : gmap Z (list Z)) (used : list Z) : Prop :=
  T ⊆ T' ∧ ∀ t, is_Some (T' !! t) → is_Some (T !! t) ∨ t ∈ used.

Lemma grown_cons T T' p π used :
  T !! p = None → grown (<[p := π]> T) T' used → grown T T' (p :: used).
Proof.
  intros Hp [H1 H2]. split; [etrans; [by apply insert_subseteq|done]|].
  intros t Ht. destruct (H2 t Ht) as [Hi|Hi]; [|right; by apply elem_of_cons; right].
  destruct (decide (t = p)) as [->|]; [right; apply elem_of_cons; by left|].
  rewrite lookup_insert_ne in Hi by done. by left.
Qed.

(** What a walk that creates the missing tables gives. *)
Definition walk_post (s : St) (cr3 : Z) (T : gmap Z (list Z)) (l : list Z) (n k : nat)
    (va : Z) (r : Z) (s' : St) : Prop :=
  ∃ T' l' used, vm_inv s' cr3 T' l' ∧ grown T T' used ∧ l = used ++ l' ∧
    reach (pg_mem s') n 4 cr3 va = Some r ∧
    (is_Some (reach (pg_mem s) n 4 cr3 va) → used = []) ∧ (length used <= k)%nat ∧
    (∀ va', leaf (pg_mem s') cr3 va' = leaf (pg_mem s) cr3 va') ∧
    frame T' (pg_mem s) (pg_mem s').

Lemma avail_same s s' l : pg_avail s l → s' = s → pg_avail s' l.
Proof. by intros H ->. Qed.

(** [v] points to the table [p] from an entry of [level]. *)
Definition points (level : nat) (v p : Z) : Prop :=
  has v pm = true ∧ is_leaf level v = false ∧ Z.land v PT_ADDR_MASK = p ∧ 0 <= v < 2 ^ 64.

(** Linking the free page [p], filled beforehand, to the table [t]. *)
Lemma link_inv s s1 cr3 T l p d va t v (m' := st64 (pg_mem s1) (pte_at t (idx va (4 - d))) v) :
  vm_inv s cr3 T (p :: l) → reach (pg_mem s) d 4 cr3 va = Some t →
  pg_avail s1 l → (∀ x, (x < p ∨ p + PAGE_SIZE <= x) → rd8 (pg_mem s1) x = rd8 (pg_mem s) x) →
  wf m' cr3 (<[p := vpath va 4 (S d)]> T) →
  vm_inv (pg_set_mem m' s1) cr3 (<[p := vpath va 4 (S d)]> T) l ∧
  frame (<[p := vpath va 4 (S d)]> T) (pg_mem s) m'.
Proof using laws.
  intros (Hwf & Hav & Hfr) Hr Hav1 Hs Hwf'. destruct (pg_avail_ok s _ Hav) as [Hok Hnd].
  apply Forall_cons in Hok as [Hp Hok]. apply NoDup_cons in Hnd as [Hpl Hnd].
  destruct (Hfr p ltac:(by left)) as [Hfresh Hp52].
  pose proof (reach_wf _ cr3 T Hwf d 4 cr3 [] va t (wf_root _ _ _ Hwf) eq_refl Hr) as Ht.
  cbn [app] in Ht. pose proof (wf_page _ _ _ _ _ Hwf Ht) as Hpt.
  pose proof (idx_range va (4 - d)) as Hi. split; [split; [by rewrite pg_mem_set|split]|].
  - apply pg_avail_write; [done|]. intros q x Hq Hx. apply rd8_stn_other. unfold pte_at.
    rewrite Forall_forall in Hok. destruct (page_apart q t (Hok q Hq) Hpt); [|lia..].
    intros ->. destruct (Hfr t ltac:(by right)). congruence.
  - intros q Hq. destruct (Hfr q ltac:(by right)). split; [|done].
    by rewrite lookup_insert_ne by congruence.
  - intros x Hx. unfold m'. destruct (Hx p); [by rewrite lookup_insert_eq| |];
      (destruct (Hx t); [rewrite lookup_insert_ne by congruence; by rewrite Ht| |]);
      (rewrite rd8_stn_other by (unfold pte_at; lia); apply Hs; lia).
Qed.

(** One level whose table is missing; [mk] is the entry that points to a table. *)
Lemma new_table_wp s cr3 T l p d va t (mk : Z → Z) :
  vm_inv s cr3 T (p :: l) → (d < 3)%nat → reach (pg_mem s) d 4 cr3 va = Some t →
  has (entry (pg_mem s) t (idx va (4 - d))) pm = false →
  (table_ok p → points (4 - d) (mk p) p) →
  wp (pg_alloc_page ≫= λ new_pt, zero_page new_pt;;
      store64 (pte_at t (idx va (4 - d))) (mk new_pt);;
      mret 0)
    (λ pp s', pp = 0 ∧ T !! p = None ∧ vm_inv s' cr3 (<[p := vpath va 4 (S d)]> T) l ∧
      reach (pg_mem s') (S d) 4 cr3 va = Some p ∧
      entry (pg_mem s') t (idx va (4 - d)) = mk p ∧ table_ok p ∧
      (∀ i, 0 <= i < 512 → entry (pg_mem s') p i = 0) ∧
      (∀ t' π i, T !! t' = Some π → 0 <= i < 512 → (t', i) ≠ (t, idx va (4 - d)) →
        entry (pg_mem s') t' i = entry (pg_mem s) t' i) ∧
      (∀ va', leaf (pg_mem s') cr3 va' = leaf (pg_mem s) cr3 va') ∧
      frame (<[p := vpath va 4 (S d)]> T) (pg_mem s) (pg_mem s')) s.
Proof using laws.
  intros Hinv Hd Hr Habs Hmk. pose proof Hinv as (Hwf & Hav & Hfr).
  destruct (pg_avail_ok s _ Hav) as [Hok Hnd].
  apply Forall_cons in Hok as [Hp Hok]. apply NoDup_cons in Hnd as [Hpl Hnd].
  destruct (Hfr p ltac:(by left)) as [Hfresh Hp52].
  assert (table_ok p) as Htp by done. destruct (Hmk Htp) as (Epr & Enl & Et & Er).
  wstep. eapply wp_mono; [by apply pg_alloc_wp|]. cbn beta iota. intros r s1 (-> & Hav1 & Em).
  unfold zero_page, store64. wsteps. rewrite !pg_mem_set, Em.
  set (m1 := memset (pg_mem s) p 0 4096).
  assert (∀ x, p <= x < p + PAGE_SIZE → rd8 m1 x = 0) as Hz by (intros; apply memset_in; lia).
  assert (∀ x, (x < p ∨ p + PAGE_SIZE <= x) → rd8 m1 x = rd8 (pg_mem s) x) as Hs
    by (intros; apply memset_out; lia).
  clearbody m1.
  destruct (add_table (pg_mem s) m1 cr3 T d va t p (mk p)) as (Hwf' & Hr' & Hz' & Hoth & Htr); try done.
  assert (pg_avail (pg_set_mem m1 s1) l) as Hav2.
  { apply pg_avail_write; [done|]. intros q x Hq Hx. rewrite Em. apply Hs. rewrite Forall_forall in Hok.
    destruct (page_apart q p (Hok q Hq) Hp); [congruence|lia..]. }
  destruct (link_inv s (pg_set_mem m1 s1) cr3 T l p d va t (mk p)) as [Hinv' Hfr'];
    rewrite ?pg_mem_set in *; try done.
  split_and!; try done. by apply entry_same.
Qed.

(** The effect of an installed entry of level [k]. *)
Definition installed (s : St) (cr3 : Z) (T : gmap Z (list Z)) (l : list Z) (k : nat)
    (va pte : Z) (r : Z) (s' : St) : Prop :=
  ∃ T' l' used t, vm_inv s' cr3 T' l' ∧ grown T T' used ∧ l = used ++ l' ∧
    reach (pg_mem s') (4 - k) 4 cr3 va = Some t ∧ r = pte_at t (idx va k) ∧
    (is_Some (reach (pg_mem s) (4 - k) 4 cr3 va) → used = []) ∧ (length used <= 4 - k)%nat ∧
    (∀ va', leaf (pg_mem s') cr3 va' =
       if decide (vpath va' 4 (5 - k) = vpath va 4 (5 - k)) then
         if has pte pm then Some (k, pte) else None
       else leaf (pg_mem s) cr3 va') ∧
    frame T' (pg_mem s) (pg_mem s').

Definition addr48 (va : Z) : Prop := 0 <= va < 2 ^ 48.

(** One page: the area of [va] at level [k] gets the leaf [e], the rest is as
    before; no table is created when the table of the entry is there. *)
Definition page_post (k : nat) (e : Z) (s : St) (cr3 : Z) (l : list Z) (va : Z) (r : Z) (s' : St) : Prop :=
  ∃ T' l' used t, vm_inv s' cr3 T' l' ∧ l = used ++ l' ∧ (length used <= 4 - k)%nat ∧
    (is_Some (reach (pg_mem s) (4 - k) 4 cr3 va) → used = []) ∧
    reach (pg_mem s') (4 - k) 4 cr3 va = Some t ∧ r = pte_at t (idx va k) ∧
    (∀ va', addr48 va' → leaf (pg_mem s') cr3 va' =
       if decide (va' / span k = va / span k) then Some (k, e) else leaf (pg_mem s) cr3 va').

(** The area can be mapped at level [k]: no larger page is there. *)
Definition mappable (m : mem) (cr3 : Z) (k : nat) (va : Z) : Prop :=
  ∀ j e, leaf m cr3 va = Some (j, e) → (j <= k)%nat.

Lemma installed_page s cr3 T l k va pte r s' :
  (1 <= k <= 3)%nat → addr48 va → has pte pm = true →
  installed s cr3 T l k va pte r s' → page_post k pte s cr3 l va r s'.
Proof.
  intros Hk Hva Hp (T' & l' & used & t & Hinv & _ & El & Hr & Er & Hu & Hlen & Htr & _).
  exists T', l', used, t. split_and!; try done. intros va' Hva'. rewrite Htr, Hp.
  replace (5 - k)%nat with (S (4 - k)) by lia.
  pose proof (vpath_eq va' va (4 - k) ltac:(lia) Hva' Hva) as Heq.
  replace (4 - (4 - k))%nat with k in Heq by lia.
  destruct (decide (va' / span k = va / span k)) as [E|E].
  - by rewrite decide_True by by apply Heq.
  - by rewrite decide_False by (intros H; by apply E, Heq).
Qed.

(** Enough free pages for the tables that are missing. *)
Definition enough (m : mem) (cr3 : Z) (l : list Z) (k : nat) (va : Z) : Prop :=
  (is_Some (reach m (4 - k) 4 cr3 va) ∨ 4 - k <= length l)%nat.

(** The free pages that mapping [[cur, end_)] at level [k] may take: for every
    area of the next level that is entered, the tables down to [k]. *)
Definition rest (k : nat) (cur end_ : Z) : Z :=
  (4 - k)%nat * ((end_ - 1) / span (S k) - cur / span (S k)).

(** The free pages [l] are enough for that and [x] more. *)
Definition budget (m : mem) (cr3 : Z) (l : list Z) (x : Z) (k : nat) (cur end_ : Z) : Prop :=
  is_Some (reach m (4 - k) 4 cr3 cur) ∧ rest k cur end_ + x <= length l ∨
  rest k cur end_ + (4 - k)%nat + x <= length l.

Lemma rest_nonneg k cur end_ : cur < end_ → 0 <= rest k cur end_.
Proof.
  intros H. unfold rest. pose proof (span_pos (S k)).
  pose proof (Z.div_le_mono cur (end_ - 1) (span (S k))). nia.
Qed.

Lemma budget_enough m cr3 l x k cur end_ :
  0 <= x → cur < end_ → budget m cr3 l x k cur end_ → enough m cr3 l k cur.
Proof.
  intros Hx H [[Hr _]|Hl]; [by left|right]. pose proof (rest_nonneg k cur end_ H). lia.
Qed.

(** The next page of the same area uses the same tables. *)
Lemma vpath_next k va :
  (1 <= k <= 3)%nat → addr48 va → addr48 (va + span k) → va mod span k = 0 →
  (va + span k) mod span (S k) ≠ 0 →
  vpath (va + span k) 4 (4 - k) = vpath va 4 (4 - k) ∧
  (va + span k) / span (S k) = va / span (S k).
Proof.
  intros Hk Hva Hva' Hm Hne. pose proof (span_pos k).
  assert ((va + span k) / span (S k) = va / span (S k)) as E.
  { rewrite span_S in * by lia. apply Z.mod_divide in Hm as [c ->]; [|lia].
    replace (c * span k + span k) with ((c + 1) * span k) in * by lia.
    rewrite (Z.mul_comm (span k) 512) in *.
    rewrite Z.mul_mod_distr_r in Hne by lia. rewrite !Z.div_mul_cancel_r by lia.
    assert ((c + 1) mod 512 ≠ 0) by (intros E; rewrite E in Hne; lia). mlia. }
  split; [|done]. replace (4 - k)%nat with (S (3 - k)) by lia.
  apply vpath_eq; [lia|done|done|]. by replace (4 - (3 - k))%nat with (S k) by lia.
Qed.

(** What entering the area of [va] costs: the pages of [l] that became tables. *)
Definition entered (k : nat) (s : St) (cr3 : Z) (l : list Z) (va : Z) (s' : St)
    (T' : gmap Z (list Z)) (l' : list Z) : Prop :=
  ∃ used t, vm_inv s' cr3 T' l' ∧ l = used ++ l' ∧ (length used <= 4 - k)%nat ∧
    (is_Some (reach (pg_mem s) (4 - k) 4 cr3 va) → used = []) ∧
    reach (pg_mem s') (4 - k) 4 cr3 va = Some t.

Lemma budget_next k s cr3 l x va s' T' l' end_ :
  (1 <= k <= 3)%nat → addr48 va → va mod span k = 0 →
  budget (pg_mem s) cr3 l x k va end_ → entered k s cr3 l va s' T' l' →
  rest k va end_ + x <= length l' ∧
    (addr48 (va + span k) → va + span k < end_ →
     budget (pg_mem s') cr3 l' x k (va + span k) end_).
Proof.
  intros Hk Hva Hm Hb (used & t & Hinv & -> & Hlen & Hu & Hr).
  assert (rest k va end_ + x <= length l') as Hrest.
  { unfold budget in Hb. rewrite length_app in Hb.
    destruct Hb as [[Hs Hb]|Hb]; [|lia]. rewrite Hu in Hb by done. done. }
  split; [done|]. intros Hva' Hend.
  destruct (decide ((va + span k) mod span (S k) = 0)) as [E|E].
  - right. unfold rest in *. pose proof (span_pos k).
    assert ((va + span k) / span (S k) = va / span (S k) + 1) as ->; [|lia].
    rewrite span_S in * by lia. apply Z.mod_divide in Hm as [c ->]; [|lia].
    replace (c * span k + span k) with ((c + 1) * span k) in * by lia.
    rewrite (Z.mul_comm (span k) 512) in *.
    rewrite Z.mul_mod_distr_r in E by lia. rewrite !Z.div_mul_cancel_r by lia.
    assert ((c + 1) mod 512 = 0) by nia. mlia.
  - destruct (vpath_next k va Hk Hva Hva' Hm E) as [E1 E2]. left. split.
    + rewrite (reach_same _ _ _ _ _ va E1). by rewrite Hr.
    + unfold rest in *. by rewrite E2.
Qed.

Lemma budget_step k e s cr3 l x va r s' end_ :
  (1 <= k <= 3)%nat → addr48 va → va mod span k = 0 →
  budget (pg_mem s) cr3 l x k va end_ → page_post k e s cr3 l va r s' →
  ∃ T' l', vm_inv s' cr3 T' l' ∧ rest k va end_ + x <= length l' ∧
    (addr48 (va + span k) → va + span k < end_ →
     budget (pg_mem s') cr3 l' x k (va + span k) end_).
Proof.
  intros Hk Hva Hm Hb (T' & l' & used & t & Hinv & El & Hlen & Hu & Hr & _).
  exists T', l'. split; [done|]. apply (budget_next k s cr3 l x va s' T' l' end_); try done.
  by exists used, t.
Qed.

(** The leaf of [va] when the [n] pages of level [k] from [virt] on are mapped
    to consecutive frames from [phys] on. *)
Definition mapped (k : nat) (entry_of : Z → Z) (phys virt bound : Z)
    (old : option (nat * Z)) (va : Z) : option (nat * Z) :=
  if decide (virt <= va < bound) then
    Some (k, entry_of (phys + (va - virt) / span k * span k))
  else old.

Lemma mapped_step k entry_of phys virt i old va :
  0 <= i → virt mod span k = 0 →
  mapped k entry_of phys virt (virt + span k * (i + 1)) old va =
    if decide (va / span k = (virt + span k * i) / span k) then
      Some (k, entry_of (phys + span k * i))
    else mapped k entry_of phys virt (virt + span k * i) old va.
Proof.
  intros Hi Hm. pose proof (span_pos k) as Hs. apply Z.mod_divide in Hm as [c ->]; [|lia].
  replace (c * span k + span k * i) with ((c + i) * span k) by lia. rewrite Z.div_mul by lia.
  unfold mapped. pose proof (Z.div_mod va (span k) ltac:(lia)) as Hd.
  pose proof (Z.mod_pos_bound va (span k) Hs) as Hb.
  replace (va - c * span k) with (va + (- c) * span k) by lia. rewrite Z.div_add by lia.
  remember (va / span k) as q eqn:Eq. clear Eq. case_decide as H1.
  - case_decide as H2.
    + do 3 f_equal. subst q. lia.
    + rewrite decide_True by nia. done.
  - rewrite !decide_False by nia. done.
Qed.
End Tables.
