(* ===== verification/Vm.v ===== *)
(** * Page tables: lib/x86/vm.c and vm.h (x86_64)

    The tables of Paging.v with bit 0 as the present bit. *)

From S2P Require Import Prelude Memory CString Bits AllocPage Paging.

#[export] Existing Instance PT_PRESENT_MASK.

Section Vm.
Context {St : Type} {ops : PageAlloc St}.

(** [for (level = PAGE_LEVEL; level > pte_level; --level)], [n] iterations: the
    table of level [pte_level]. *)
Fixpoint install_walk (n : nat) (level : Z) (virt pt pt_page : Z) : prog St Z :=
  match n with
  | O => mret pt
  | S n' =>
      let offset := PGDIR_OFFSET virt level in
      e ← load64 (pte_at pt offset);
      pt_page ← (if negb (has e PT_PRESENT_MASK) then
        new_pt ← (if pt_page =? 0 then pg_alloc_page else mret pt_page);
        zero_page new_pt;;
        store64 (pte_at pt offset)
          (Z.lor (Z.lor (Z.lor new_pt PT_PRESENT_MASK) PT_WRITABLE_MASK) PT_USER_MASK);;
        mret 0
      else mret pt_page);
      e ← load64 (pte_at pt offset);
      install_walk n' (level - 1) virt (Z.land e PT_ADDR_MASK) pt_page
  end.

Definition install_pte (cr3 : Z) (pte_level : nat) (virt pte pt_page : Z) : prog St Z :=
  pt ← install_walk (PAGE_LEVEL - pte_level) PAGE_LEVEL virt cr3 pt_page;
  let offset := PGDIR_OFFSET virt pte_level in
  store64 (pte_at pt offset) pte;;
  mret (pte_at pt offset).

(** [struct pte_search] *)
Record pte_search := Search { ps_level : nat; ps_pte : Z }.

(** [for (r.level = PAGE_LEVEL;; --r.level)] from the table [pt] of [level] on. *)
Fixpoint find_from (m : mem) (level : nat) (pt virt : Z) (lowest_level : nat) : outcome pte_search :=
  match level with
  | O => Stop Undef
  | S level' =>
      let shift := (level - 1) * PGDIR_WIDTH + 12 in
      let offset := Z.land (Z.shiftr virt shift) PGDIR_MASK in
      let r := Search level (pte_at pt offset) in
      let pte := ld64 m (ps_pte r) in
      if negb (has pte PT_PRESENT_MASK) then Ret r
      else if ((level =? 2) || (level =? 3))%nat && has pte PT_PAGE_SIZE_MASK then Ret r
      else if (level =? lowest_level)%nat then Ret r
      else find_from m level' (Z.land pte 0xffffffffff000) virt lowest_level
  end.

Definition find_pte_level (m : mem) (cr3 virt : Z) (lowest_level : nat) : outcome pte_search :=
  if ((1 <=? lowest_level) && (lowest_level <=? PAGE_LEVEL))%nat
  then find_from m PAGE_LEVEL cr3 virt lowest_level else Stop Halt.

Definition found_huge_pte (m : mem) (s : pte_search) : bool :=
  ((ps_level s =? 2) || (ps_level s =? 3))%nat && has (ld64 m (ps_pte s)) PT_PRESENT_MASK &&
  has (ld64 m (ps_pte s)) PT_PAGE_SIZE_MASK.

Definition found_leaf_pte (m : mem) (s : pte_search) : bool :=
  (ps_level s =? 1)%nat || found_huge_pte m s.

(** 0 is NULL. *)
Definition get_pte (m : mem) (cr3 virt : Z) : outcome Z :=
  match find_pte_level m cr3 virt 1 with
  | Ret search => Ret (if found_leaf_pte m search then ps_pte search else 0)
  | Stop e => Stop e
  end.

Definition get_pte_level (m : mem) (cr3 virt : Z) (pte_level : nat) : outcome Z :=
  match find_pte_level m cr3 virt pte_level with
  | Ret search => Ret (if (ps_level search =? pte_level)%nat then ps_pte search else 0)
  | Stop e => Stop e
  end.

Definition install_large_page (cr3 phys virt : Z) : prog St Z :=
  install_pte cr3 2 virt
    (Z.lor (Z.lor (Z.lor (Z.lor phys PT_PRESENT_MASK) PT_WRITABLE_MASK) PT_USER_MASK)
       PT_PAGE_SIZE_MASK) 0.

Definition install_page (cr3 phys virt : Z) : prog St Z :=
  install_pte cr3 1 virt
    (Z.lor (Z.lor (Z.lor phys PT_PRESENT_MASK) PT_WRITABLE_MASK) PT_USER_MASK) 0.

(** [while (phys + PAGE_SIZE <= max)] *)
Definition install_pages (cr3 phys len virt : Z) : prog St unit :=
  let max := u64 (len + phys) in
  assert (phys mod PAGE_SIZE =? 0);;
  assert (virt mod PAGE_SIZE =? 0);;
  assert (len mod PAGE_SIZE =? 0);;
  iter (S (Z.to_nat (max / PAGE_SIZE))) (λ '(phys, virt),
    if u64 (phys + PAGE_SIZE) <=? max then
      install_page cr3 phys virt;;
      mret (inl (u64 (phys + PAGE_SIZE), u64 (virt + PAGE_SIZE)))
    else mret (inr ())) (phys, virt).

(** [for (curr = virt; curr < max; curr += PAGE_SIZE)]; the dereference of the
    pte that [get_pte] found. *)
Definition any_present_pages (cr3 virt len : Z) : prog St bool :=
  let max := u64 (virt + len) in
  iter (S (Z.to_nat (len / PAGE_SIZE + 1))) (λ curr,
    if curr <? max then
      m ← gets pg_mem;
      match get_pte m cr3 curr with
      | Ret ptep =>
          if negb (ptep =? 0) && has (ld64 m ptep) PT_PRESENT_MASK then mret (inr true)
          else mret (inl (u64 (curr + PAGE_SIZE)))
      | Stop e => stop_with e
      end
    else mret (inr false)) virt.

Definition setup_mmu_range (cr3 start len : Z) : prog St unit :=
  let max := u64 (len + start) in
  phys ← iter (S (Z.to_nat (max / LARGE_PAGE_SIZE))) (λ phys,
    if u64 (phys + LARGE_PAGE_SIZE) <=? max then
      install_large_page cr3 phys phys;;
      mret (inl (u64 (phys + LARGE_PAGE_SIZE)))
    else mret (inr phys)) start;
  install_pages cr3 phys (u64 (max - phys)) phys.

(** A NULL from [get_pte] is dereferenced. *)
Definition virt_to_pte_phys (m : mem) (cr3 mem : Z) : outcome Z :=
  match get_pte m cr3 mem with
  | Ret ptep => Ret (u64 (Z.land (ld64 m ptep) PT_ADDR_MASK + Z.land mem (PAGE_SIZE - 1)))
  | Stop e => Stop e
  end.

(** The control registers [setup_mmu] writes. *)
Record mmu := Mmu { mm : St; cr0 : Z; cr3 : Z }.
Definition set_mm (p : St) (s : mmu) : mmu := Mmu p (cr0 s) (cr3 s).

Definition X86_CR0_PE : Z := 0x1.
Definition X86_CR0_WP : Z := 0x10000.
Definition X86_CR0_PG : Z := 0x80000000.

Definition setup_mmu (end_of_memory : Z) : prog mmu Z :=
  cr3 ← zoom mm set_mm pg_alloc_page;
  zoom mm set_mm (zero_page cr3);;
  let end_of_memory := if end_of_memory <? Z.shiftl 1 32 then Z.shiftl 1 32 else end_of_memory in
  zoom mm set_mm (setup_mmu_range cr3 0 end_of_memory);;
  modify (λ s, Mmu (mm s) (cr0 s) cr3);;
  modify (λ s, Mmu (mm s) (Z.lor (Z.lor X86_CR0_PG X86_CR0_PE) X86_CR0_WP) (Vm.cr3 s));;
  mret cr3.
End Vm.

(** Pointers to tables: the flags are below the address. *)
Definition table_pte (p : Z) : Z :=
  Z.lor (Z.lor (Z.lor p PT_PRESENT_MASK) PT_WRITABLE_MASK) PT_USER_MASK.

Lemma table_pte_spec p :
  table_ok p → Z.land (table_pte p) PT_ADDR_MASK = p ∧ has (table_pte p) PT_PRESENT_MASK = true ∧
    has (table_pte p) PT_PAGE_SIZE_MASK = false ∧ 0 <= table_pte p < 2 ^ 64.
Proof.
  intros ((Hp0 & Hm & _) & Hp). unfold table_pte. rewrite <- !Z.lor_assoc.
  change (Z.lor PT_PRESENT_MASK (Z.lor PT_WRITABLE_MASK PT_USER_MASK)) with 7.
  destruct (pte_flags p 7 Hm) as [H1 H2]; [lia..|]. split; [done|].
  rewrite (has_lor_flags p 7 _ 0), (has_lor_flags p 7 _ 7) by done. split; [done|]. split; [done|].
  lia.
Qed.

Lemma table_pte_nonleaf p level : table_ok p → (1 < level)%nat → is_leaf level (table_pte p) = false.
Proof.
  intros (_ & _ & Eps & _)%table_pte_spec Hl. unfold is_leaf.
  rewrite Eps, andb_false_r, orb_false_r. apply Nat.eqb_neq. lia.
Qed.

Lemma table_pte_points p level : table_ok p → (1 < level)%nat → points level (table_pte p) p.
Proof.
  intros Hp Hl. pose proof (table_pte_spec p Hp) as (H1 & H2 & _ & H4).
  repeat split; try done; [by apply table_pte_nonleaf|lia..].
Qed.

(** ** Installing entries *)

Section Install.
Context {St : Type} {ops : PageAlloc St} {laws : PageAllocLaws St}.

Lemma install_walk_wp n d s cr3 T l va t :
  (n + d <= 3)%nat → vm_inv s cr3 T l → reach (pg_mem s) d 4 cr3 va = Some t →
  open_path (pg_mem s) n (4 - d) t va →
  (is_Some (reach (pg_mem s) (d + n) 4 cr3 va) ∨ n <= length l)%nat →
  wp (install_walk n (4 - d)%nat va t 0) (walk_post s cr3 T l (d + n) n va) s.
Proof using laws.
  revert d s T l t. induction n as [|n IH]; intros d s T l t Hn Hinv Hr Hopen Hl.
  - cbn [install_walk]. wstep. rewrite Nat.add_0_r. exists T, l, [].
    assert (grown T T []) by (split; [done|by left]). split_and!; done || (cbn; lia).
  - cbn [install_walk open_path] in *. cbv zeta. rewrite PGDIR_OFFSET_idx by lia.
    assert ((4 - d)%nat - 1 = (4 - S d)%nat) as -> by lia.
    apply wp_bind, wp_load64.
    fold (entry (pg_mem s) t (idx va (4 - d))).
    rewrite <- Nat.add_succ_comm. destruct (has _ PT_PRESENT_MASK) eqn:Ep; cbn [negb].
    + destruct (Hopen eq_refl) as [Hnl Hopen']. wsteps. apply wp_load64.
      fold (entry (pg_mem s) t (idx va (4 - d))).
      replace (4 - d - 1)%nat with (4 - S d)%nat in Hopen' by lia.
      eapply wp_mono; [apply (IH (S d) s T l); try done; [lia| |]|].
      { rewrite (reach_snoc _ _ _ _ _ _ Hr). cbn zeta. by rewrite Ep, Hnl. }
      { rewrite Nat.add_succ_comm. destruct Hl; [by left|right; lia]. }
      intros r s' (T' & l' & used & Hw1 & Hw2 & Hw3 & Hw4 & Hw5 & Hw6 & Hw7).
      exists T', l', used. split_and!; try done; lia || apply Hw7.
    + assert (¬ is_Some (reach (pg_mem s) (d + S n) 4 cr3 va)) as Hno.
      { rewrite reach_add, Hr. cbn [mbind option_bind reach]. rewrite Ep. by intros [? ?]. }
      destruct Hl as [Hl|Hl]; [done|].
      destruct l as [|p l]; [cbn in Hl; lia|]. rewrite Z.eqb_refl. cbn in Hl. wstep.
      eapply wp_mono; [apply (new_table_wp s cr3 T l p d va t table_pte); try (done || lia)|].
      { intros Htp. apply table_pte_points; [done|lia]. }
      intros pp s1 (-> & Hfresh & Hinv1 & Hr1 & Ev & Hp & Hz & _ & Htr & Hfrm). wstep. apply wp_load64.
      fold (entry (pg_mem s1) t (idx va (4 - d))). rewrite Ev.
      destruct (table_pte_spec p Hp) as (-> & _).
      eapply wp_mono; [apply (IH (S d) s1 (<[p := vpath va 4 (S d)]> T) l p);
        [lia|done|done|by apply open_path_zero|right; lia]|].
      intros r s' (T' & l' & used & Hinv' & HT & El & Hr' & Hused & Hlen & Htr' & Hf').
      assert (T ⊆ <[p := vpath va 4 (S d)]> T) as HT0 by by apply insert_subseteq.
      exists T', l', (p :: used). split; [done|]. split; [by eapply grown_cons|]. split; [by rewrite El|].
      split; [done|]. split.
      { rewrite Nat.add_succ_comm. by intros H%Hno. }
      split; [cbn; lia|]. split.
      { intros va'. by rewrite Htr', Htr. }
      eapply frame_trans; [apply HT|exact Hfrm|done].
Qed.

Lemma install_pte_wp s cr3 T l k va pte :
  (1 <= k <= 3)%nat → vm_inv s cr3 T l → open_path (pg_mem s) (4 - k) 4 cr3 va →
  (is_Some (reach (pg_mem s) (4 - k) 4 cr3 va) ∨ 4 - k <= length l)%nat → 0 <= pte < 2 ^ 64 →
  (has pte PT_PRESENT_MASK = true → is_leaf k pte = true) →
  wp (install_pte cr3 k va pte 0) (installed s cr3 T l k va pte) s.
Proof using laws.
  intros Hk Hinv Hopen Hl Hpte Hleaf. unfold install_pte. wstep.
  pose proof (install_walk_wp (4 - k) 0 s cr3 T l va cr3 ltac:(lia) Hinv eq_refl Hopen Hl) as Hw.
  change (4 - 0)%nat with PAGE_LEVEL in Hw. eapply wp_mono; [exact Hw|]. clear Hw.
  intros t s1 (T' & l' & used & Hinv1 & HT & El & Hr & Hused & Hlen & Htr & Hfr).
  cbn [Nat.add] in *. rewrite PGDIR_OFFSET_idx by lia. unfold store64. wsteps.
  pose proof Hinv1 as (Hwf & Hav & Hfresh).
  pose proof (reach_wf _ cr3 T' Hwf (4 - k) 4 cr3 [] va t (wf_root _ _ _ Hwf) eq_refl Hr) as Ht.
  cbn [app] in Ht.
  destruct (set_entry (pg_mem s1) cr3 T' (4 - k) va t pte) as (Hwf2 & Hr2 & Htr2);
    rewrite ?(ltac:(lia) : (4 - (4 - k) = k)%nat) in *; try done; [lia|].
  replace (S (4 - k)) with (5 - k)%nat in Htr2 by lia.
  exists T', l', used, t. rewrite pg_mem_set. split.
  { split; [by rewrite pg_mem_set|]. split; [|done].
    apply (avail_store s1 cr3 T'); [done|by rewrite Ht|apply idx_range]. }
  split; [done|]. split; [done|]. split; [done|]. split; [done|]. split; [done|].
  split; [done|]. split.
  - intros va'. rewrite Htr2. by rewrite Htr.
  - intros x Hx. pose proof (idx_range va k). rewrite rd8_stn_other; [by apply Hfr|].
    unfold pte_at. destruct (Hx t); [by rewrite Ht|lia..].
Qed.

(** The entries of [install_page] and [install_large_page]. *)
Definition page_entry (phys : Z) : Z :=
  Z.lor (Z.lor (Z.lor phys PT_PRESENT_MASK) PT_WRITABLE_MASK) PT_USER_MASK.
Definition large_entry (phys : Z) : Z := Z.lor (page_entry phys) PT_PAGE_SIZE_MASK.

Lemma page_entry_spec phys :
  phys mod PAGE_SIZE = 0 → 0 <= phys → phys + PAGE_SIZE <= 2 ^ 52 →
  0 <= page_entry phys < 2 ^ 64 ∧ has (page_entry phys) PT_PRESENT_MASK = true ∧
  ∀ va, leaf_addr 1 (page_entry phys) va = phys + va mod PAGE_SIZE.
Proof.
  intros Hm Hp Hb. unfold page_entry. rewrite <- !Z.lor_assoc.
  change (Z.lor PT_PRESENT_MASK (Z.lor PT_WRITABLE_MASK PT_USER_MASK)) with 7.
  destruct (pte_flags phys 7 Hm) as [H1 H2]; [lia..|]. split; [lia|].
  split; [by rewrite (has_lor_flags phys 7 _ 0)|].
  intros va. unfold leaf_addr. rewrite H1. change (span 1) with PAGE_SIZE. mlia.
Qed.

Lemma large_entry_spec phys :
  phys mod LARGE_PAGE_SIZE = 0 → 0 <= phys → phys + PAGE_SIZE <= 2 ^ 52 →
  0 <= large_entry phys < 2 ^ 64 ∧ has (large_entry phys) PT_PRESENT_MASK = true ∧
  is_leaf 2 (large_entry phys) = true ∧
  ∀ va, leaf_addr 2 (large_entry phys) va = phys + va mod LARGE_PAGE_SIZE.
Proof.
  intros Hm Hp Hb. unfold large_entry, page_entry. rewrite <- !Z.lor_assoc.
  change (Z.lor PT_PRESENT_MASK _) with 135. unfold LARGE_PAGE_SIZE in *.
  assert (phys mod PAGE_SIZE = 0) as Hm' by mlia.
  destruct (pte_flags phys 135 Hm') as [H1 H2]; [lia..|]. split; [lia|].
  split; [by rewrite (has_lor_flags phys 135 _ 0)|]. split.
  - unfold is_leaf. by rewrite (has_lor_flags phys 135 _ 7).
  - intros va. unfold leaf_addr. rewrite H1. change (span 2) with (512 * PAGE_SIZE). mlia.
Qed.

Lemma install_page_wp s cr3 T l phys va :
  vm_inv s cr3 T l → addr48 va → mappable (pg_mem s) cr3 1 va → enough (pg_mem s) cr3 l 1 va →
  phys mod PAGE_SIZE = 0 → 0 <= phys → phys + PAGE_SIZE <= 2 ^ 52 →
  wp (install_page cr3 phys va) (page_post 1 (page_entry phys) s cr3 l va) s.
Proof using laws.
  intros Hinv Hva Hopen Hl Hm Hp Hb. destruct (page_entry_spec phys Hm Hp Hb) as (H1 & H2 & _).
  eapply wp_mono; [apply (install_pte_wp s cr3 T l 1); try done; lia || idtac|].
  - apply walk_open; [lia|]. intros k e E. by apply (Hopen k e).
  - intros r s'. by apply installed_page; [lia|..].
Qed.

(** [install_page] with the tables it takes from the free pages. *)
Lemma install_page_tables s cr3 T l phys va :
  vm_inv s cr3 T l → addr48 va → mappable (pg_mem s) cr3 1 va → (3 <= length l)%nat →
  phys mod PAGE_SIZE = 0 → 0 <= phys → phys + PAGE_SIZE <= 2 ^ 52 →
  wp (install_page cr3 phys va) (λ _ s', ∃ T' l' used,
    vm_inv s' cr3 T' l' ∧ grown T T' used ∧ l = used ++ l' ∧ (length used <= 3)%nat ∧
    frame T' (pg_mem s) (pg_mem s') ∧
    ∀ va', addr48 va' → leaf (pg_mem s') cr3 va' =
       if decide (va' / span 1 = va / span 1) then Some (1%nat, page_entry phys)
       else leaf (pg_mem s) cr3 va') s.
Proof using laws.
  intros Hinv Hva Hopen Hl Hm Hp Hb. destruct (page_entry_spec phys Hm Hp Hb) as (H1 & H2 & _).
  eapply wp_mono; [apply (install_pte_wp s cr3 T l 1); try done; lia || idtac|].
  - apply walk_open; [lia|]. intros k e E. by apply (Hopen k e).
  - intros r s' H. destruct (installed_page s cr3 T l 1 va _ r s' ltac:(lia) Hva H2 H)
      as (_ & _ & _ & _ & _ & _ & _ & _ & _ & _ & Hleaf).
    destruct H as (T' & l' & used & t & Hinv' & HT & El & _ & _ & _ & Hlen & _ & Hf).
    exists T', l', used. by split_and!.
Qed.

Lemma install_large_page_wp s cr3 T l phys va :
  vm_inv s cr3 T l → addr48 va → mappable (pg_mem s) cr3 2 va → enough (pg_mem s) cr3 l 2 va →
  phys mod LARGE_PAGE_SIZE = 0 → 0 <= phys → phys + PAGE_SIZE <= 2 ^ 52 →
  wp (install_large_page cr3 phys va) (page_post 2 (large_entry phys) s cr3 l va) s.
Proof using laws.
  intros Hinv Hva Hopen Hl Hm Hp Hb. destruct (large_entry_spec phys Hm Hp Hb) as (H1 & H2 & H3 & _).
  eapply wp_mono; [apply (install_pte_wp s cr3 T l 2); try done; lia || idtac|].
  - apply walk_open; [lia|]. intros k e E. by apply (Hopen k e).
  - intros r s'. by apply installed_page; [lia|..].
Qed.

Lemma install_pages_wp s cr3 T l phys len virt :
  vm_inv s cr3 T l → phys mod PAGE_SIZE = 0 → virt mod PAGE_SIZE = 0 → len mod PAGE_SIZE = 0 →
  0 <= phys → 0 <= len → phys + len + PAGE_SIZE <= 2 ^ 52 → 0 <= virt → virt + len <= 2 ^ 48 →
  (0 < len → budget (pg_mem s) cr3 l 0 1 virt (virt + len)) →
  (∀ va, addr48 va → virt <= va < virt + len → mappable (pg_mem s) cr3 1 va) →
  wp (install_pages cr3 phys len virt) (λ _ s', ∃ T' l', vm_inv s' cr3 T' l' ∧
    ∀ va, addr48 va → leaf (pg_mem s') cr3 va =
      mapped 1 page_entry phys virt (virt + len) (leaf (pg_mem s) cr3 va) va) s.
Proof using laws.
  intros Hinv Hpm Hvm Hlm Hp0 Hl0 Hpb Hv0 Hvb Hbud Hmap. unfold install_pages.
  wstep. wstep; [by apply Z.eqb_eq|]. wstep. wstep; [by apply Z.eqb_eq|].
  wstep. wstep; [by apply Z.eqb_eq|]. rewrite (wrap_small 64 (len + phys)) by lia.
  apply Z.mod_divide in Hlm as [c ->]; [|lia].
  apply (wp_iter (λ n '(ph, vi) s', ∃ i T' l', 0 <= i <= c ∧ n = Z.to_nat (c - i) ∧
    ph = phys + PAGE_SIZE * i ∧ vi = virt + PAGE_SIZE * i ∧ vm_inv s' cr3 T' l' ∧
    (i < c → budget (pg_mem s') cr3 l' 0 1 vi (virt + c * PAGE_SIZE)) ∧
    ∀ va, addr48 va → leaf (pg_mem s') cr3 va =
      mapped 1 page_entry phys virt (virt + PAGE_SIZE * i) (leaf (pg_mem s) cr3 va) va))
    with (n := Z.to_nat c).
  - intros n [ph vi] s1 (i & T1 & l1 & Hi & -> & -> & -> & Hinv1 & Hb1 & Hleaf1).
    rewrite (wrap_small 64 (phys + PAGE_SIZE * i + PAGE_SIZE)) by lia.
    destruct (Z.leb_spec (phys + PAGE_SIZE * i + PAGE_SIZE) (c * PAGE_SIZE + phys)) as [Hle|Hgt].
    + specialize (Hb1 ltac:(lia)). wstep.
      assert (addr48 (virt + PAGE_SIZE * i)) as Ha by (unfold addr48; lia).
      eapply wp_mono; [apply (install_page_wp s1 cr3 T1 l1); try done; try lia|].
      * intros j e E. rewrite Hleaf1 in E by done. unfold mapped in E.
        rewrite decide_False in E by lia. by apply (Hmap (virt + PAGE_SIZE * i) Ha ltac:(lia) j e).
      * eapply (budget_enough _ _ _ 0); [lia| |done]. lia.
      * mlia.
      * intros r s2 Hpost. wstep. exists (Z.to_nat (c - (i + 1))). split; [lia|].
        assert (∃ T' l', vm_inv s2 cr3 T' l' ∧ (i + 1 < c →
          budget (pg_mem s2) cr3 l' 0 1 (virt + PAGE_SIZE * (i + 1)) (virt + c * PAGE_SIZE)))
          as (T2 & l2 & Hinv2 & Hb2).
        { destruct (budget_step 1 _ s1 cr3 l1 0 _ r s2 (virt + c * PAGE_SIZE) ltac:(lia) Ha
            ltac:(change (span 1) with PAGE_SIZE; mlia) Hb1 Hpost) as (T2 & l2 & ? & _ & Hb2).
          exists T2, l2. split; [done|]. intros Hi2. change (span 1) with PAGE_SIZE in Hb2.
          replace (virt + PAGE_SIZE * (i + 1)) with (virt + PAGE_SIZE * i + PAGE_SIZE) by lia.
          apply Hb2; [unfold addr48 in *|]; lia. }
        exists (i + 1), T2, l2. rewrite !wrap_small by lia.
        replace (virt + PAGE_SIZE * i + PAGE_SIZE) with (virt + PAGE_SIZE * (i + 1)) by lia.
        split_and!; try lia; try done.
        intros va Hva. destruct Hpost as (T' & l' & used & t & _ & _ & _ & _ & _ & _ & Hl).
        rewrite Hl, Hleaf1 by done. symmetry. apply (mapped_step 1); done || lia.
    + assert (i = c) as -> by lia. wstep. exists T1, l1. split; [done|].
      intros va Hva. rewrite Hleaf1 by done. by rewrite (Z.mul_comm PAGE_SIZE c).
  - exists 0, T, l. rewrite Z.mul_0_r, !Z.add_0_r, Z.sub_0_r. split_and!; try done; try lia.
    + intros Hc. apply Hbud. lia.
    + intros va Hva. unfold mapped. by rewrite decide_False by lia.
  - assert (c <= (c * PAGE_SIZE + phys) / PAGE_SIZE) by (apply Z.div_le_lower_bound; lia). lia.
Qed.

(** Below [bound] every address is mapped to itself, and no other is mapped. *)
Definition identity (m : mem) (cr3 bound : Z) : Prop :=
  ∀ va, addr48 va → translate m cr3 va = if va <? bound then Some va else None.

Lemma identity_leaf m cr3 n bound :
  0 <= n → LARGE_PAGE_SIZE * n <= bound <= 2 ^ 48 → bound mod PAGE_SIZE = 0 →
  (∀ va, addr48 va → leaf m cr3 va =
    mapped 1 page_entry (LARGE_PAGE_SIZE * n) (LARGE_PAGE_SIZE * n) bound
      (mapped 2 large_entry 0 0 (LARGE_PAGE_SIZE * n) None va) va) →
  identity m cr3 bound.
Proof.
  intros Hn Hb Hbm Hl va Hva. unfold translate. rewrite Hl by done. unfold mapped, addr48 in *.
  set (b := LARGE_PAGE_SIZE * n) in *. assert (b mod PAGE_SIZE = 0) as Hm
    by (unfold b, LARGE_PAGE_SIZE; mlia). assert (0 <= b) by (unfold b, LARGE_PAGE_SIZE; lia).
  change (span 1) with PAGE_SIZE. change (span 2) with LARGE_PAGE_SIZE.
  destruct (decide (b <= va < bound)) as [H1|H1].
  - rewrite (proj2 (Z.ltb_lt va bound)) by lia. cbn [mbind option_bind]. f_equal.
    clearbody b. destruct (page_entry_spec (b + (va - b) / PAGE_SIZE * PAGE_SIZE)) as (_ & _ & ->); mlia.
  - destruct (decide (0 <= va < b)) as [H2|H2].
    + rewrite (proj2 (Z.ltb_lt va bound)) by lia. cbn [mbind option_bind]. f_equal.
      clearbody b. unfold LARGE_PAGE_SIZE in *.
      destruct (large_entry_spec (0 + (va - 0) / LARGE_PAGE_SIZE * LARGE_PAGE_SIZE))
        as (_ & _ & _ & ->); unfold LARGE_PAGE_SIZE in *; mlia.
    + rewrite (proj2 (Z.ltb_ge va bound)) by lia. done.
Qed.

(** Mapping [n] large pages to themselves in an empty address space. *)
Lemma setup_mmu_range_wp s cr3 T l len :
  vm_inv s cr3 T l → (∀ va, addr48 va → leaf (pg_mem s) cr3 va = None) →
  0 < len <= 2 ^ 48 - LARGE_PAGE_SIZE → len mod PAGE_SIZE = 0 →
  2 * ((len - 1) / 2 ^ 30 + 1) + 3 <= length l →
  wp (setup_mmu_range cr3 0 len) (λ _ s', ∃ T' l', vm_inv s' cr3 T' l' ∧
    identity (pg_mem s') cr3 len) s.
Proof using laws.
  intros Hinv Hnone Hlen Hlm Hl. unfold setup_mmu_range.
  rewrite (wrap_small 64 (len + 0)), Z.add_0_r by (unfold LARGE_PAGE_SIZE in *; lia).
  pose (n := len / LARGE_PAGE_SIZE).
  assert (0 <= n ∧ LARGE_PAGE_SIZE * n <= len < LARGE_PAGE_SIZE * n + LARGE_PAGE_SIZE) as [Hn0 Hn]
    by (subst n; unfold LARGE_PAGE_SIZE in *; mlia).
  wstep. eapply wp_mono.
  { apply (wp_iter (λ k ph s', ∃ i T' l', 0 <= i <= n ∧ k = Z.to_nat (n - i) ∧
      ph = LARGE_PAGE_SIZE * i ∧ vm_inv s' cr3 T' l' ∧ 3 <= length l' ∧
      (i < n → budget (pg_mem s') cr3 l' 3 2 ph len) ∧
      ∀ va, addr48 va → leaf (pg_mem s') cr3 va =
        mapped 2 large_entry 0 0 (LARGE_PAGE_SIZE * i) None va)
      _ (λ ph s', ph = LARGE_PAGE_SIZE * n ∧ ∃ T' l', vm_inv s' cr3 T' l' ∧ 3 <= length l' ∧
      ∀ va, addr48 va → leaf (pg_mem s') cr3 va =
        mapped 2 large_entry 0 0 (LARGE_PAGE_SIZE * n) None va)) with (n := Z.to_nat n).
    - intros k ph s1 (i & T1 & l1 & Hi & -> & -> & Hinv1 & Hl1 & Hb1 & Hleaf1).
      rewrite (wrap_small 64 (LARGE_PAGE_SIZE * i + LARGE_PAGE_SIZE))
        by (unfold LARGE_PAGE_SIZE in *; lia).
      destruct (Z.leb_spec (LARGE_PAGE_SIZE * i + LARGE_PAGE_SIZE) len) as [Hle|Hgt].
      + specialize (Hb1 ltac:(unfold LARGE_PAGE_SIZE in *; lia)). wstep.
        assert (addr48 (LARGE_PAGE_SIZE * i)) as Ha by (unfold addr48, LARGE_PAGE_SIZE in *; lia).
        assert (addr48 (LARGE_PAGE_SIZE * i + span 2)) as Ha'
          by (change (span 2) with LARGE_PAGE_SIZE; unfold addr48, LARGE_PAGE_SIZE in *; lia).
        eapply wp_mono; [apply (install_large_page_wp s1 cr3 T1 l1); try done;
          try (unfold LARGE_PAGE_SIZE in *; mlia)|].
        * intros j e E. rewrite Hleaf1 in E by done. unfold mapped in E.
          rewrite decide_False in E by lia. done.
        * eapply (budget_enough _ _ _ 3); [lia| |done]. unfold LARGE_PAGE_SIZE in *; lia.
        * intros r s2 Hpost. wstep. exists (Z.to_nat (n - (i + 1))).
          split; [unfold LARGE_PAGE_SIZE in *; lia|].
          assert (∃ T' l', vm_inv s2 cr3 T' l' ∧ 3 <= length l' ∧ (i + 1 < n →
            budget (pg_mem s2) cr3 l' 3 2 (LARGE_PAGE_SIZE * (i + 1)) len))
            as (T2 & l2 & Hinv2 & Hl2 & Hb2).
          { destruct (budget_step 2 _ s1 cr3 l1 3 _ r s2 len ltac:(lia) Ha
              ltac:(change (span 2) with LARGE_PAGE_SIZE; unfold LARGE_PAGE_SIZE; mlia) Hb1 Hpost)
              as (T2 & l2 & ? & Hl2 & Hb2).
            pose proof (rest_nonneg 2 (LARGE_PAGE_SIZE * i) len ltac:(unfold LARGE_PAGE_SIZE in *; lia)).
            exists T2, l2. split; [done|]. split; [lia|]. intros Hi2.
            change (span 2) with LARGE_PAGE_SIZE in Hb2, Ha'.
            replace (LARGE_PAGE_SIZE * (i + 1)) with (LARGE_PAGE_SIZE * i + LARGE_PAGE_SIZE) by lia.
            apply Hb2; [done|]. unfold LARGE_PAGE_SIZE in *; lia. }
          exists (i + 1), T2, l2.
          replace (LARGE_PAGE_SIZE * i + LARGE_PAGE_SIZE) with (LARGE_PAGE_SIZE * (i + 1)) by lia.
          split_and!; try (unfold LARGE_PAGE_SIZE in *; lia); try done.
          intros va Hva. destruct Hpost as (T' & l' & used & t & _ & _ & _ & _ & _ & _ & Hlf).
          rewrite Hlf, Hleaf1 by done. symmetry. apply (mapped_step 2 large_entry 0 0 i None va); done || lia.
      + assert (i = n) as -> by (unfold LARGE_PAGE_SIZE in *; lia). wstep. split; [done|]. by exists T1, l1.
    - exists 0, T, l. rewrite Z.mul_0_r, Z.sub_0_r.
      assert (0 <= (len - 1) / 2 ^ 30) by (apply Z.div_pos; lia).
      split_and!; try done; try lia.
      + intros _. right. unfold rest. change (span 3) with (2 ^ 30). rewrite Z.div_0_l by lia. lia.
      + intros va Hva. rewrite Hnone by done. unfold mapped. by rewrite decide_False by lia.
    - fold n. lia. }
  cbn beta. intros ph s1 (-> & T1 & l1 & Hinv1 & Hl1 & Hleaf1).
  rewrite wrap_small by (unfold LARGE_PAGE_SIZE in *; lia).
  eapply wp_mono; [apply (install_pages_wp s1 cr3 T1 l1); try done; try lia|].
  - unfold LARGE_PAGE_SIZE. mlia.
  - unfold LARGE_PAGE_SIZE. mlia.
  - unfold LARGE_PAGE_SIZE in *. mlia.
  - unfold LARGE_PAGE_SIZE in *. lia.
  - unfold LARGE_PAGE_SIZE in *. lia.
  - intros H0. right. unfold rest. change (span 2) with LARGE_PAGE_SIZE.
    replace (LARGE_PAGE_SIZE * n + (len - LARGE_PAGE_SIZE * n) - 1) with (len - 1) by lia.
    assert ((len - 1) / LARGE_PAGE_SIZE = n) as -> by (unfold LARGE_PAGE_SIZE in *; mlia).
    assert (LARGE_PAGE_SIZE * n / LARGE_PAGE_SIZE = n) as -> by (unfold LARGE_PAGE_SIZE in *; mlia).
    lia.
  - intros va Hva Hr j e E. rewrite Hleaf1 in E by done. unfold mapped in E.
    by rewrite decide_False in E by lia.
  - intros [] s2 (T2 & l2 & Hinv2 & Hleaf2). exists T2, l2. split; [done|].
    apply (identity_leaf _ _ n); [done|unfold LARGE_PAGE_SIZE in *; lia|done|].
    intros va Hva. rewrite Hleaf2, Hleaf1 by done. f_equal. lia.
Qed.
End Install.

(** ** Searching *)

Lemma find_from_walk {St} {ops : PageAlloc St} m level pt va :
  (1 <= level)%nat →
  ∃ r t, find_from m level pt va 1 = Ret r ∧ (1 <= ps_level r <= level)%nat ∧
    ps_pte r = pte_at t (idx va (ps_level r)) ∧ reach m (level - ps_level r) level pt va = Some t ∧
    (has (ld64 m (ps_pte r)) PT_PRESENT_MASK = true →
     is_leaf (ps_level r) (ld64 m (ps_pte r)) = true) ∧
    walk m level pt va = if has (ld64 m (ps_pte r)) PT_PRESENT_MASK
                         then Some (ps_level r, ld64 m (ps_pte r)) else None.
Proof.
  revert pt. induction level as [|level IH]; intros pt Hl; [lia|]. cbn [find_from walk].
  change (Z.land (Z.shiftr va ((S level - 1) * PGDIR_WIDTH + 12)) PGDIR_MASK)
    with (PGDIR_OFFSET va (S level)).
  rewrite PGDIR_OFFSET_idx by lia. cbn [ps_pte]. fold (entry m pt (idx va (S level))).
  destruct (has (entry m pt (idx va (S level))) PT_PRESENT_MASK) eqn:Ep; cbn [negb].
  - unfold is_leaf at 2. change ((S level =? 1)%nat) with ((level =? 0)%nat).
    destruct (((S level =? 2) || (S level =? 3))%nat && _) eqn:Eh.
    + rewrite orb_true_r. eexists (Search _ _), pt. cbn [ps_level ps_pte].
      rewrite Nat.sub_diag. unfold entry in *. rewrite Ep. split_and!; try done; try lia.
      intros _. unfold is_leaf. by rewrite Eh, orb_true_r.
    + rewrite orb_false_r. destruct (Nat.eqb_spec level 0) as [->|Hn].
      * eexists (Search _ _), pt. cbn [ps_level ps_pte]. unfold entry in *. rewrite Ep.
        split_and!; done || lia.
      * destruct (IH (Z.land (entry m pt (idx va (S level))) PT_ADDR_MASK)) as (r & t & E & H1 & H2 & H3 & H4 & H5);
          [lia|]. exists r, t. rewrite <- pte_mask. split; [done|]. split; [lia|]. split; [done|].
        split; [|done]. replace (S level - ps_level r)%nat with (S (level - ps_level r)) by lia.
        cbn [reach]. rewrite Ep. unfold is_leaf.
        rewrite (proj2 (Nat.eqb_neq (S level) 1)) by lia. rewrite Eh. cbn [orb andb negb].
        by replace (S level - 1)%nat with level by lia.
  - eexists (Search _ _), pt. cbn [ps_level ps_pte]. rewrite Nat.sub_diag. unfold entry in *. rewrite Ep.
    split_and!; done || lia.
Qed.

(** [get_pte] gives the leaf the processor finds; an address that is not mapped
    gives NULL or an entry that is not present. *)
Lemma get_pte_spec {St} {ops : PageAlloc St} m cr3 T va :
  wf m cr3 T →
  ∃ p, get_pte m cr3 va = Ret p ∧
    match leaf m cr3 va with
    | Some (k, e) => p ≠ 0 ∧ ld64 m p = e ∧ has e PT_PRESENT_MASK = true
    | None => p = 0 ∨ has (ld64 m p) PT_PRESENT_MASK = false
    end.
Proof.
  intros Hwf. unfold get_pte, find_pte_level. change (_ && _)%nat with true. cbv iota.
  destruct (find_from_walk m PAGE_LEVEL cr3 va ltac:(unfold PAGE_LEVEL; lia))
    as (r & t & -> & Hl & Ep & Hr & Hlf & Hw).
  eexists. split; [done|]. unfold leaf. rewrite Hw.
  pose proof (reach_wf _ cr3 T Hwf _ 4 cr3 [] va t (wf_root _ _ _ Hwf) eq_refl Hr) as Ht. cbn [app] in Ht.
  pose proof (wf_page _ _ _ _ _ Hwf Ht) as (Hpos & _).
  pose proof (idx_range va (ps_level r)).
  assert (ps_pte r ≠ 0) as Hnz by (rewrite Ep; unfold pte_at; lia).
  unfold found_leaf_pte, found_huge_pte.
  destruct (has (ld64 m (ps_pte r)) PT_PRESENT_MASK) eqn:Eh.
  - rewrite andb_true_r.
    specialize (Hlf eq_refl). unfold is_leaf in Hlf. by rewrite Hlf.
  - destruct (_ || _); [by right|by left].
Qed.

(** ** The processor registers *)

Section Setup.
Context {St : Type} {ops : PageAlloc St} {laws : PageAllocLaws St}.

Lemma setup_mmu_wp s l end_ (bound := Z.max end_ (2 ^ 32)) :
  pg_avail (mm s) l → (∀ p, p ∈ l → p + PAGE_SIZE <= 2 ^ 52) →
  0 <= end_ → bound <= 2 ^ 48 - LARGE_PAGE_SIZE → end_ mod PAGE_SIZE = 0 →
  1 + 2 * ((bound - 1) / 2 ^ 30 + 1) + 3 <= length l →
  wp (setup_mmu end_) (λ r s', cr3 s' = r ∧ cr0 s' = 0x80010001 ∧
    ∃ T l', vm_inv (mm s') r T l' ∧ identity (pg_mem (mm s')) r bound) s.
Proof using laws.
  intros Hav Hl52 He Hb Hem Hlen. unfold setup_mmu.
  assert (0 <= (bound - 1) / 2 ^ 30) by (apply Z.div_pos; lia).
  destruct l as [|p l]; [cbn in Hlen; lia|].
  destruct (pg_avail_ok _ _ Hav) as [Hok Hnd].
  apply Forall_cons in Hok as [Hp Hok]. apply NoDup_cons in Hnd as [Hpl Hnd].
  assert (table_ok p) as Htp by (split; [done|]; apply Hl52; by left).
  wstep. wstep. eapply wp_mono; [by apply pg_alloc_wp|]. cbn beta iota.
  intros r s1 (-> & Hav1 & Em). wstep. wstep. unfold zero_page. wstep.
  assert ((if end_ <? Z.shiftl 1 32 then Z.shiftl 1 32 else end_) = bound) as ->.
  { subst bound. change (Z.shiftl 1 32) with (2 ^ 32). destruct (Z.ltb_spec end_ (2 ^ 32)); lia. }
  set (m1 := memset (pg_mem _) p 0 4096).
  assert (∀ x, p <= x < p + PAGE_SIZE → rd8 m1 x = 0) as Hz by (intros; apply memset_in; lia).
  assert (∀ x, (x < p ∨ p + PAGE_SIZE <= x) → rd8 m1 x = rd8 (pg_mem s1) x) as Hs
    by (intros; apply memset_out; lia).
  clearbody m1.
  destruct (wf_empty_root m1 p Htp) as [Hwf Hnone].
  { intros i Hi. apply ldn_zero. intros x Hx. apply Hz. unfold pte_at in Hx. lia. }
  assert (vm_inv (pg_set_mem m1 s1) p {[p := []]} l) as Hinv.
  { split; [by rewrite pg_mem_set|]. split.
    - apply pg_avail_write; [done|]. intros q x Hq Hx. apply Hs.
      rewrite Forall_forall in Hok. destruct (page_apart q p (Hok q Hq) Hp); [congruence|lia..].
    - intros q Hq. split; [|apply Hl52; by right]. rewrite lookup_singleton_ne by congruence. done. }
  wstep. wstep. cbn [mm set_mm].
  eapply wp_mono; [apply (setup_mmu_range_wp _ p {[p := []]} l bound); try done|].
  - intros va _. by rewrite pg_mem_set.
  - lia.
  - subst bound. destruct (Z.max_spec end_ (2 ^ 32)) as [[_ ->]|[_ ->]]; done.
  - cbn in Hlen. lia.
  - intros [] s2 (T & l' & Hinv2 & Hid). wsteps. cbn [mm cr3 cr0 set_mm]. split; [done|].
    split; [done|]. by exists T, l'.
Qed.
End Setup.

Section Queries.
Context {St : Type} {ops : PageAlloc St}.

Lemma any_present_pages_wp s cr3 T virt len :
  wf (pg_mem s) cr3 T → 0 <= virt → 0 <= len → virt + len + PAGE_SIZE < 2 ^ 64 →
  wp (any_present_pages cr3 virt len) (λ b s', s' = s ∧
    (b = true ↔ ∃ i, 0 <= i ∧ PAGE_SIZE * i < len ∧
       is_Some (leaf (pg_mem s) cr3 (virt + PAGE_SIZE * i)))) s.
Proof.
  intros Hwf Hv Hl Hb. unfold any_present_pages. rewrite (wrap_small 64 (virt + len)) by lia.
  pose (cnt := (len + (PAGE_SIZE - 1)) / PAGE_SIZE).
  assert (0 <= cnt ∧ len <= PAGE_SIZE * cnt < len + PAGE_SIZE) as [Hc0 Hc] by (subst cnt; mlia).
  apply (wp_iter (λ n curr s', s' = s ∧ ∃ i, 0 <= i <= cnt ∧ curr = virt + PAGE_SIZE * i ∧
    n = Z.to_nat (cnt - i) ∧
    ∀ j, 0 <= j < i → leaf (pg_mem s) cr3 (virt + PAGE_SIZE * j) = None)) with (n := Z.to_nat cnt).
  - intros n curr s' (-> & i & Hi & -> & -> & Hnone).
    destruct (Z.ltb_spec (virt + PAGE_SIZE * i) (virt + len)) as [Hlt|Hge].
    + wstep. wstep. destruct (get_pte_spec (pg_mem s) cr3 T (virt + PAGE_SIZE * i) Hwf) as (p & -> & Hp).
      destruct (leaf (pg_mem s) cr3 (virt + PAGE_SIZE * i)) as [[k e]|] eqn:El.
      * destruct Hp as (Hp & -> & ->). rewrite (proj2 (Z.eqb_neq p 0)) by done. cbn. wstep.
        split; [done|]. split; [|done]. intros _. exists i. split; [lia|]. split; [lia|]. by rewrite ?El.
      * assert (negb (p =? 0) && has (ld64 (pg_mem s) p) PT_PRESENT_MASK = false) as ->
          by (destruct Hp as [->| ->]; [done|by rewrite andb_false_r]).
        wstep. exists (Z.to_nat (cnt - (i + 1))). split; [lia|]. split; [done|].
        exists (i + 1). rewrite wrap_small by lia. split_and!; try lia.
        intros j Hj. destruct (decide (j = i)) as [->|]; [done|]. apply Hnone. lia.
    + wstep. split; [done|]. split; [done|]. intros (j & Hj & Hjl & Hs).
      rewrite Hnone in Hs by lia. by destruct Hs.
  - split; [done|]. exists 0. split_and!; try lia.
  - subst cnt. apply Nat.lt_succ_r, Z2Nat.inj_le; mlia.
Qed.
End Queries.

(** ** The page allocator of alloc_page.c *)

#[export] Instance pages_alloc : PageAlloc pages := {|
  pg_alloc_page := alloc_page;
  pg_free_page := free_page;
  pg_mem := pmem;
  pg_set_mem m s := Pages m (freelist s) (plock s);
|}.

#[export, refine] Instance pages_alloc_laws : PageAllocLaws pages := {| pg_avail := free_list |}.
Proof.
  - done.
  - intros s l (_ & Hc & Hnd). split; [by eapply chain_page_ok|done].
  - intros s l Hs. eapply wp_mono; [by apply alloc_page_wp|]. intros r s' H.
    destruct l; [done|]. destruct H as (H1 & _ & H2 & H3). by split_and!.
  - intros s l m (Hlk & Hc & Hnd) Hm. split; [done|]. split; [|done]. cbn.
    eapply chain_ext; [|done]. intros q x Hq Hx. apply (Hm q x Hq). lia.
Defined.

(** What freeing a page promises. *)
Class PageFreeLaws (St : Type) {ops : PageAlloc St} {laws : PageAllocLaws St} := {
  pg_free_wp s l p :
    pg_avail s l → page_ok p → p ∉ l →
    wp (pg_free_page p) (λ _ s', pg_avail s' (p :: l) ∧
      ∀ x, (x < p ∨ p + PAGE_SIZE <= x) → rd8 (pg_mem s') x = rd8 (pg_mem s) x) s;
}.

#[export] Instance pages_free_laws : PageFreeLaws pages.
Proof.
  split. intros s l p Hs Hp Hin. eapply wp_mono; [by apply free_page_wp|].
  intros [] s' [H1 H2]. split; [done|]. intros x Hx. apply H2. lia.
Qed.

(** Freeing a page that is no table keeps the tables. *)
Lemma free_page_keeps {St} {ops : PageAlloc St} {laws : PageAllocLaws St} {fl : PageFreeLaws St} s cr3 T l p :
  vm_inv s cr3 T l → page_ok p → p + PAGE_SIZE <= 2 ^ 52 → p ∉ l → T !! p = None →
  wp (pg_free_page p) (λ _ s', vm_inv s' cr3 T (p :: l) ∧
    ∀ va, leaf (pg_mem s') cr3 va = leaf (pg_mem s) cr3 va) s.
Proof.
  intros (Hwf & Hav & Hfr) Hp H52 Hin HT. eapply wp_mono; [by apply pg_free_wp|].
  intros [] s' [Hav' Hm]. destruct (wf_same (pg_mem s) (pg_mem s') cr3 T Hwf) as [Hwf' Hl].
  { intros t π i Ht Hi. apply ldn_ext. intros x Hx. apply Hm.
    pose proof (wf_page _ _ _ _ _ Hwf Ht) as Hpt. unfold pte_at in Hx.
    destruct (page_apart p t Hp Hpt); [congruence|lia..]. }
  split; [|done]. split; [done|]. split; [done|]. intros q [->|Hq]%elem_of_cons; [done|by apply Hfr].
Qed.

(** ** Properties *)

(** C1: [setup_mmu] with enough free pages builds page tables that translate every
    address below [max(end_of_memory, 4G)] to itself and no other address, loads
    them into cr3 and turns paging on. *)
Theorem setup_mmu_identity {St} {ops : PageAlloc St} {laws : PageAllocLaws St} s l end_ :
  pg_avail (mm s) l → (∀ p, p ∈ l → p + PAGE_SIZE <= 2 ^ 52) →
  0 <= end_ → Z.max end_ (2 ^ 32) <= 2 ^ 48 - LARGE_PAGE_SIZE → end_ mod PAGE_SIZE = 0 →
  1 + 2 * ((Z.max end_ (2 ^ 32) - 1) / 2 ^ 30 + 1) + 3 <= length l →
  wp (setup_mmu end_) (λ r s', cr3 s' = r ∧ cr0 s' = 0x80010001 ∧
    ∀ va, addr48 va → translate (pg_mem (mm s')) (cr3 s') va =
      if va <? Z.max end_ (2 ^ 32) then Some va else None) s.
Proof.
  intros. eapply wp_mono; [by apply (setup_mmu_wp s l)|].
  intros r s' (-> & E & T & l' & _ & Hid). by split_and!.
Qed.

(** C21: [install_page] maps the page of [virt] to the frame [phys]: afterwards the
    processor translates the addresses of that page, and no others, to the
    frame, and the tables are well formed again. *)
Theorem install_page_maps {St} {ops : PageAlloc St} {laws : PageAllocLaws St} s cr3 T l phys virt :
  vm_inv s cr3 T l → addr48 virt → mappable (pg_mem s) cr3 1 virt → (3 <= length l)%nat →
  phys mod PAGE_SIZE = 0 → 0 <= phys → phys + PAGE_SIZE <= 2 ^ 52 →
  wp (install_page cr3 phys virt) (λ _ s',
    (∃ T' l', vm_inv s' cr3 T' l') ∧
    ∀ va, addr48 va → translate (pg_mem s') cr3 va =
      if va / PAGE_SIZE =? virt / PAGE_SIZE then Some (phys + va mod PAGE_SIZE)
      else translate (pg_mem s) cr3 va) s.
Proof.
  intros Hinv Hva Hmap Hl Hm Hp Hb.
  eapply wp_mono; [apply (install_page_wp s cr3 T l); try done; by right|].
  intros r s' (T' & l' & used & t & Hinv' & _ & _ & _ & _ & _ & Hlf). split; [by exists T', l'|].
  intros va Hv. unfold translate. rewrite Hlf by done. change (span 1) with PAGE_SIZE.
  destruct (Z.eqb_spec (va / PAGE_SIZE) (virt / PAGE_SIZE)) as [E|E].
  - rewrite decide_True by done. cbn. f_equal. by apply page_entry_spec.
  - by rewrite decide_False.
Qed.

(** [any_present_pages] is true exactly when the processor translates one of
    the page-sized steps of the range. *)
Theorem any_present_pages_correct {St} {ops : PageAlloc St} s cr3 T virt len :
  wf (pg_mem s) cr3 T → 0 <= virt → 0 <= len → virt + len + PAGE_SIZE < 2 ^ 64 →
  wp (any_present_pages cr3 virt len) (λ b s', s' = s ∧
    (b = true ↔ ∃ i, 0 <= i ∧ PAGE_SIZE * i < len ∧
       is_Some (translate (pg_mem s) cr3 (virt + PAGE_SIZE * i)))) s.
Proof.
  intros Hwf Hv0 Hl0 Hb0. eapply wp_mono; [by eapply any_present_pages_wp|]. intros b s' [-> Hb].
  split; [done|]. rewrite Hb. unfold translate.
  split; intros (i & H1 & H2 & H3); exists i; (split; [done|]); (split; [done|]);
    destruct (leaf (pg_mem s) cr3 (virt + PAGE_SIZE * i)) as [[k e]|]; try done;
    by destruct H3.
Qed.

(** [virt_to_pte_phys] is the translation of the processor where a 4K page is
    mapped; inside a large page it drops the address bits 12 to 20, which it
    takes from the entry. *)
Theorem virt_to_pte_phys_leaf {St} {ops : PageAlloc St} m cr3 T va k e :
  wf m cr3 T → addr48 va → leaf m cr3 va = Some (k, e) → Z.land e PT_ADDR_MASK + PAGE_SIZE < 2 ^ 64 →
  virt_to_pte_phys m cr3 va = Ret (Z.land e PT_ADDR_MASK + va mod PAGE_SIZE) ∧
  (k = 1%nat → virt_to_pte_phys m cr3 va = Ret (default 0 (translate m cr3 va))) ∧
  (k = 2%nat → va mod LARGE_PAGE_SIZE >= PAGE_SIZE → Z.land e PT_ADDR_MASK mod LARGE_PAGE_SIZE = 0 →
   virt_to_pte_phys m cr3 va ≠ Ret (default 0 (translate m cr3 va))).
Proof.
  intros Hwf Hva Hl He. unfold virt_to_pte_phys.
  destruct (get_pte_spec m cr3 T va Hwf) as (p & -> & Hp). rewrite Hl in Hp.
  destruct Hp as (_ & -> & _). change (PAGE_SIZE - 1) with (2 ^ 12 - 1). rewrite mask_low by lia.
  change (2 ^ 12) with PAGE_SIZE. pose proof (Z.mod_pos_bound va PAGE_SIZE ltac:(lia)).
  assert (0 <= Z.land e PT_ADDR_MASK) by (apply Z.land_nonneg; right; by vm_compute).
  rewrite wrap_small by lia. unfold translate. rewrite Hl. cbn. unfold leaf_addr.
  split; [done|]. split.
  - intros ->. change (span 1) with PAGE_SIZE. do 2 f_equal.
    assert (Z.land e PT_ADDR_MASK mod PAGE_SIZE = 0); [|mlia].
    change PAGE_SIZE with (2 ^ 12). rewrite <- Z.land_ones by lia. rewrite <- Z.land_assoc.
    change (Z.land PT_ADDR_MASK (Z.ones 12)) with 0. apply Z.land_0_r.
  - intros -> Hge Hz. change (span 2) with LARGE_PAGE_SIZE. intros [= E]. unfold LARGE_PAGE_SIZE in *. mlia.
Qed.

(** ** Witnesses *)

Definition ex_free : list Z := page_seq 0x100000 16.
Definition ex_state : pages := fresh_pages 0x100000 15.

Lemma ex_range : range_ok 0x100000 16.
Proof. split; [lia|]. split; [done|]. lia. Qed.

Lemma ex_avail : free_list ex_state ex_free.
Proof. apply (fresh_pages_ok 0x100000 15); [apply ex_range|lia]. Qed.

Lemma ex_low p : p ∈ ex_free → 0x100000 <= p < 0x110000.
Proof. intros (i & Hi & ->)%elem_of_page_seq. lia. Qed.

(** The page at 0x20000 is an empty root. *)
Lemma ex_root : wf (pmem ex_state) 0x20000 {[0x20000 := []]} ∧ ∀ va, leaf (pmem ex_state) 0x20000 va = None.
Proof.
  apply wf_empty_root; [by repeat split|]. intros i Hi. apply ldn_zero. intros x Hx.
  apply (fresh_pages_ok 0x100000 15); [apply ex_range|lia|]. unfold pte_at in Hx. lia.
Qed.

Lemma ex_vm_inv : vm_inv ex_state 0x20000 {[0x20000 := []]} ex_free.
Proof.
  split; [apply ex_root|]. split; [apply ex_avail|]. intros p Hp%ex_low.
  split; [by rewrite lookup_singleton_ne by lia|lia].
Qed.

Lemma setup_mmu_identity_witness :
  wp (setup_mmu 0x8000000) (λ r s', cr3 s' = r ∧ cr0 s' = 0x80010001 ∧
    ∀ va, addr48 va → translate (pg_mem (mm s')) (cr3 s') va =
      if va <? Z.max 0x8000000 (2 ^ 32) then Some va else None) (Mmu ex_state 0 0).
Proof.
  apply (setup_mmu_identity (Mmu ex_state 0 0) ex_free).
  - apply ex_avail.
  - intros p Hp%ex_low. lia.
  - lia.
  - unfold LARGE_PAGE_SIZE. lia.
  - done.
  - by vm_compute.
Defined.

Lemma install_page_maps_witness :
  wp (install_page 0x20000 0x7000 0x400000000) (λ _ s',
    (∃ T' l', vm_inv s' 0x20000 T' l') ∧
    ∀ va, addr48 va → translate (pg_mem s') 0x20000 va =
      if va / PAGE_SIZE =? 0x400000000 / PAGE_SIZE then Some (0x7000 + va mod PAGE_SIZE)
      else translate (pg_mem ex_state) 0x20000 va) ex_state.
Proof.
  apply (install_page_maps ex_state 0x20000 {[0x20000 := []]} ex_free 0x7000 0x400000000).
  - apply ex_vm_inv.
  - unfold addr48. lia.
  - intros j e E. by rewrite (proj2 ex_root) in E.
  - cbn. lia.
  - done.
  - lia.
  - lia.
Defined.

Lemma any_present_pages_correct_witness :
  wp (any_present_pages 0x20000 0x5000 0x3000) (λ b s', s' = ex_state ∧
    (b = true ↔ ∃ i, 0 <= i ∧ PAGE_SIZE * i < 0x3000 ∧
       is_Some (translate (pg_mem ex_state) 0x20000 (0x5000 + PAGE_SIZE * i)))) ex_state.
Proof.
  apply (any_present_pages_correct ex_state 0x20000 {[0x20000 := []]}); [apply ex_root|lia..].
Defined.

(** One large page: the virtual addresses below 2M are at physical 2M. *)
Definition ex_large : mem := st64 (st64 (st64 ∅ 0x1000 0x2007) 0x2000 0x3007) 0x3000 0x200087.
Definition ex_tables : gmap Z (list Z) := {[0x1000 := []; 0x2000 := [0]; 0x3000 := [0; 0]]}.

Lemma ex_large_entry t i :
  t ∈ [0x1000; 0x2000; 0x3000] → 0 < i < 512 → entry ex_large t i = 0.
Proof.
  intros Ht Hi. apply ldn_zero. intros x Hx. unfold ex_large, pte_at in *.
  rewrite !elem_of_cons, elem_of_nil in Ht.
  rewrite !rd8_stn_other by lia. apply rd8_empty.
Qed.

Lemma ex_large_wf : wf ex_large 0x1000 ex_tables.
Proof.
  assert (∀ t π, ex_tables !! t = Some π →
    (t, π) = (0x1000, []) ∨ (t, π) = (0x2000, [0]) ∨ (t, π) = (0x3000, [0; 0])) as Hcase.
  { intros t π H. unfold ex_tables in H.
    apply lookup_insert_Some in H as [[<- <-]|[_ H]]; [by left|].
    apply lookup_insert_Some in H as [[<- <-]|[_ H]]; [by right; left|].
    apply lookup_singleton_Some in H as [<- <-]. by right; right. }
  split; [done| |].
  - intros t π [[= -> ->]|[[= -> ->]|[= -> ->]]]%Hcase; (split; [by repeat split|cbn; lia]).
  - intros t π i Ht Hi. destruct (decide (i = 0)) as [->|Hi0].
    + apply Hcase in Ht as [[= -> ->]|[[= -> ->]|[= -> ->]]]; by vm_compute.
    + rewrite ex_large_entry; [done| |lia].
      apply Hcase in Ht as [[= -> ->]|[[= -> ->]|[= -> ->]]]; rewrite !elem_of_cons; lia.
Qed.

Lemma virt_to_pte_phys_leaf_witness :
  virt_to_pte_phys ex_large 0x1000 0x5123 = Ret 0x200123 ∧
  (2%nat = 1%nat → virt_to_pte_phys ex_large 0x1000 0x5123 = Ret (default 0 (translate ex_large 0x1000 0x5123))) ∧
  (2%nat = 2%nat → 0x5123 mod LARGE_PAGE_SIZE >= PAGE_SIZE →
   Z.land 0x200087 PT_ADDR_MASK mod LARGE_PAGE_SIZE = 0 →
   virt_to_pte_phys ex_large 0x1000 0x5123 ≠ Ret (default 0 (translate ex_large 0x1000 0x5123))).
Proof.
  apply (virt_to_pte_phys_leaf ex_large 0x1000 ex_tables 0x5123 2 0x200087).
  - apply ex_large_wf.
  - unfold addr48. lia.
  - by vm_compute.
  - by vm_compute.
Defined.
