(* ===== verification/Ept.v ===== *)
(** * Extended page tables: x86/hsi_virtual_spec.c, x86/hsi_vmx_general.c

    The tables that translate the addresses of a guest to those of the host.
    They are tables of Paging.v in which an entry is present when it permits any
    access; a large leaf on the way to a page is split into a table.  [ept_view]
    is what the processor makes of an address: the address in the host, and the
    permissions and the memory type of the leaf. *)

From S2P Require Import Prelude Memory CString Bits AllocPage Paging Vm.

Definition EPT_RA : Z := Z.shiftl 1 0.
Definition EPT_WA : Z := Z.shiftl 1 1.
Definition EPT_EA : Z := Z.shiftl 1 2.
Definition EPT_PRESENT : Present := Z.lor (Z.lor EPT_RA EPT_WA) EPT_EA.
Definition EPT_LARGE_PAGE : Z := Z.shiftl 1 7.
Definition EPT_MEM_TYPE_WB : Z := 6.
Definition EPT_PAGE_LEVEL : Z := 4.
Definition EPT_PGDIR_WIDTH : Z := 9.
Definition EPT_PGDIR_MASK : Z := 511.
Definition EPT_PGDIR_ENTRIES : Z := Z.shiftl 1 EPT_PGDIR_WIDTH.
Definition EPT_LEVEL_SHIFT (level : Z) : Z := (level - 1) * EPT_PGDIR_WIDTH + 12.
Definition EPT_ADDR_MASK : Z := GENMASK_ULL 51 12.
Definition PAGE_MASK : Z := not64 (PAGE_SIZE - 1).

#[local] Existing Instance EPT_PRESENT.

Section Ept.
Context {St : Type} {ops : PageAlloc St}.

(** [(guest_addr >> EPT_LEVEL_SHIFT(level)) & EPT_PGDIR_MASK] *)
Definition ept_offset (guest_addr level : Z) : Z :=
  Z.land (Z.shiftr guest_addr (EPT_LEVEL_SHIFT level)) EPT_PGDIR_MASK.

(** [for (i = 0; i < EPT_PGDIR_ENTRIES; i++)] *)
Definition split_fill (new_pt prototype gpa level : Z) : prog St Z :=
  for_up (Z.to_nat EPT_PGDIR_ENTRIES) 0 (λ i gpa,
    store64 (pte_at new_pt i) (Z.lor prototype gpa);;
    mret (u64 (gpa + Z.shiftl 1 (EPT_LEVEL_SHIFT (level - 1))))) gpa.

Definition split_large_ept_entry (ptep level : Z) : prog St unit :=
  pte ← load64 ptep;
  assert (has pte EPT_PRESENT);;
  assert (has pte EPT_LARGE_PAGE);;
  assert ((level =? 2) || (level =? 3));;
  new_pt ← pg_alloc_page;
  assert (negb (new_pt =? 0));;
  zero_page new_pt;;
  let prototype := Z.land pte (not64 EPT_ADDR_MASK) in
  let prototype := if level =? 2 then Z.land prototype (not64 EPT_LARGE_PAGE) else prototype in
  split_fill new_pt prototype (Z.land pte EPT_ADDR_MASK) level;;
  let pte := Z.land pte (not64 EPT_LARGE_PAGE) in
  let pte := Z.land pte (not64 EPT_ADDR_MASK) in
  store64 ptep (Z.lor pte new_pt).

(** [for (level = EPT_PAGE_LEVEL; level > pte_level; --level)], [n] iterations:
    the table of level [pte_level]. *)
Fixpoint install_ept_walk (n : nat) (level guest_addr pt pt_page : Z) : prog St Z :=
  match n with
  | O => mret pt
  | S n' =>
      let offset := ept_offset guest_addr level in
      e ← load64 (pte_at pt offset);
      pt_page ← (if negb (has e EPT_PRESENT) then
        new_pt ← (if pt_page =? 0 then pg_alloc_page else mret pt_page);
        zero_page new_pt;;
        store64 (pte_at pt offset) (Z.lor (Z.lor (Z.lor new_pt EPT_RA) EPT_WA) EPT_EA);;
        mret 0
      else if has e EPT_LARGE_PAGE then
        split_large_ept_entry (pte_at pt offset) level;; mret pt_page
      else mret pt_page);
      e ← load64 (pte_at pt offset);
      install_ept_walk n' (level - 1) guest_addr (Z.land e EPT_ADDR_MASK) pt_page
  end.

Definition install_ept_entry (pml4 : Z) (pte_level : nat) (guest_addr pte pt_page : Z) : prog St unit :=
  assert (guest_addr <? Z.shiftl 1 48);;
  pt ← install_ept_walk (4 - pte_level) EPT_PAGE_LEVEL guest_addr pml4 pt_page;
  store64 (pte_at pt (ept_offset guest_addr pte_level)) pte.

Definition install_ept (pml4 phys guest_addr perm : Z) : prog St unit :=
  install_ept_entry pml4 1 guest_addr (Z.lor (Z.land phys PAGE_MASK) perm) 0.

(** [while (phys + PAGE_SIZE <= max)] *)
Definition setup_ept_range (pml4 start len perm : Z) : prog St unit :=
  let max := u64 (len + start) in
  iter (S (Z.to_nat (max / PAGE_SIZE))) (λ phys,
    if u64 (phys + PAGE_SIZE) <=? max then
      install_ept pml4 phys phys perm;;
      mret (inl (u64 (phys + PAGE_SIZE)))
    else mret (inr ())) start.

(** [while ((hpa + PAGE_SIZE) <= max)] *)
Definition ept_gpa2hpa_map (pml4 hpa gpa size permission : Z) (is_clear : bool) : prog St unit :=
  (if is_clear then modify (λ s, pg_set_mem (memset (pg_mem s) hpa 0 (Z.to_nat size)) s) else mret ());;
  let max := u64 (hpa + size) in
  iter (S (Z.to_nat (max / PAGE_SIZE))) (λ '(hpa, gpa),
    if u64 (hpa + PAGE_SIZE) <=? max then
      install_ept pml4 hpa gpa permission;;
      mret (inl (u64 (hpa + PAGE_SIZE), u64 (gpa + PAGE_SIZE)))
    else mret (inr ())) (hpa, gpa).
End Ept.

(** ** What the processor makes of a guest address *)

(** The bits of a leaf that are neither its address nor the page-size bit. *)
Definition EPT_ATTR_MASK : Z := not64 (Z.lor EPT_ADDR_MASK EPT_LARGE_PAGE).
Definition ept_attr (e : Z) : Z := Z.land e EPT_ATTR_MASK.

Definition ept_view (m : mem) (pml4 gpa : Z) : option (Z * Z) :=
  '(level, e) ← leaf m pml4 gpa; Some (leaf_addr level e gpa, ept_attr e).

(** Bits 6:3 of an entry that points to a table are reserved, bit 7 of one at
    level 4 too; the tables also keep them clear in large leaves, whose address
    is aligned to their size. *)
Definition EPT_TYPE_MASK : Z := 0x78.

Definition ept_entry_ok (level : nat) (e : Z) : Prop :=
  has e EPT_PRESENT = true →
  if is_leaf level e then
    (1 < level)%nat → Z.land e EPT_TYPE_MASK = 0 ∧ Z.land e EPT_ADDR_MASK mod span level = 0
  else has e EPT_LARGE_PAGE = false ∧ Z.land e EPT_TYPE_MASK = 0.

Definition ept_ok (m : mem) (T : gmap Z (list Z)) : Prop :=
  ∀ t π i, T !! t = Some π → 0 <= i < 512 → ept_entry_ok (4 - length π) (entry m t i).

(** ** Bits of entries *)

Lemma land_splice e N g K : Z.land g K = 0 → Z.land (Z.lor (Z.land e N) g) K = Z.land e (Z.land N K).
Proof. intros H. by rewrite Z.land_lor_distr_l, H, Z.lor_0_r, Z.land_assoc. Qed.

Lemma addr_splice e N g :
  Z.land N EPT_ADDR_MASK = 0 → Z.land g EPT_ADDR_MASK = g →
  Z.land (Z.lor (Z.land e N) g) EPT_ADDR_MASK = g.
Proof.
  intros HN Hg. by rewrite Z.land_lor_distr_l, <- Z.land_assoc, HN, Z.land_0_r, Hg.
Qed.

(** An address of a frame has no other bits. *)
Lemma addr_frame g K :
  Z.land g EPT_ADDR_MASK = g → Z.land EPT_ADDR_MASK K = 0 → Z.land g K = 0.
Proof. intros <- HK. by rewrite <- Z.land_assoc, HK, Z.land_0_r. Qed.

Lemma frame_addr g : 0 <= g < 2 ^ 52 → g mod PAGE_SIZE = 0 → Z.land g EPT_ADDR_MASK = g.
Proof.
  intros Hg Hm. unfold EPT_ADDR_MASK. rewrite land_genmask by lia.
  change (2 ^ (51 + 1)) with (2 ^ 52). change (2 ^ 12) with 4096. rewrite (Z.mod_small _ (2 ^ 52)) by lia. mlia.
Qed.

Lemma addr_range e : 0 <= e → 0 <= Z.land e EPT_ADDR_MASK < 2 ^ 52 ∧ Z.land e EPT_ADDR_MASK mod PAGE_SIZE = 0.
Proof.
  intros He. unfold EPT_ADDR_MASK. rewrite land_genmask by lia.
  change (2 ^ (51 + 1)) with (2 ^ 52). change (2 ^ 12) with 4096.
  pose proof (Z.mod_pos_bound e (2 ^ 52)). mlia.
Qed.

(** ** Splitting a large leaf *)

(** The bits of a leaf of [level] that the entries of its table keep. *)
Definition kept (level : nat) : Z :=
  if (level =? 2)%nat then Z.land (not64 EPT_ADDR_MASK) (not64 EPT_LARGE_PAGE) else not64 EPT_ADDR_MASK.

Definition split_entry (level : nat) (e i : Z) : Z :=
  Z.lor (Z.land e (kept level)) (Z.land e EPT_ADDR_MASK + i * span (level - 1)).

Definition split_pointer (e p : Z) : Z :=
  Z.lor (Z.land (Z.land e (not64 EPT_LARGE_PAGE)) (not64 EPT_ADDR_MASK)) p.

Lemma split_base level e i :
  (2 <= level <= 3)%nat → 0 <= e → Z.land e EPT_ADDR_MASK mod span level = 0 → 0 <= i < 512 →
  0 <= Z.land e EPT_ADDR_MASK + i * span (level - 1) < 2 ^ 52 ∧
  (Z.land e EPT_ADDR_MASK + i * span (level - 1)) mod span (level - 1) = 0.
Proof.
  intros Hl He Ha Hi. destruct (addr_range e He) as [Hr _].
  assert (level = 2 ∨ level = 3)%nat as [-> | ->] by lia; cbn [Nat.sub].
  - change (span 2) with (2 ^ 21) in Ha. change (span 1) with (2 ^ 12).
    remember (Z.land e EPT_ADDR_MASK) as b. mlia.
  - change (span 3) with (2 ^ 30) in Ha. change (span 2) with (2 ^ 21).
    remember (Z.land e EPT_ADDR_MASK) as b. mlia.
Qed.

Lemma has_land e N g mask :
  Z.land g mask = 0 → Z.land N mask = mask → has (Z.lor (Z.land e N) g) mask = has e mask.
Proof. intros Hg HN. unfold has. by rewrite land_splice, HN. Qed.

Lemma split_entry_spec level e i (e' := split_entry level e i) :
  (2 <= level <= 3)%nat → 0 <= e < 2 ^ 64 → has e EPT_PRESENT = true → is_leaf level e = true →
  ept_entry_ok level e → 0 <= i < 512 →
  Z.land e' EPT_ADDR_MASK = Z.land e EPT_ADDR_MASK + i * span (level - 1) ∧
  has e' EPT_PRESENT = true ∧ is_leaf (level - 1) e' = true ∧ ept_entry_ok (level - 1) e' ∧
  ept_attr e' = ept_attr e ∧ 0 <= e' < 2 ^ 64.
Proof.
  intros Hl He Hp Hlf Hok Hi. specialize (Hok Hp). rewrite Hlf in Hok.
  destruct (Hok ltac:(lia)) as [Hty Hal]. destruct (split_base level e i Hl ltac:(lia) Hal Hi) as [Hb Hm].
  unfold e', split_entry. set (g := Z.land e EPT_ADDR_MASK + i * span (level - 1)) in *.
  assert (Z.land g EPT_ADDR_MASK = g) as Hg.
  { apply frame_addr; [done|]. assert (level = 2 ∨ level = 3)%nat as [-> | ->] by lia; cbn [Nat.sub] in Hm.
    - done.
    - change (span 2) with (2 ^ 21) in Hm. clearbody g. mlia. }
  clearbody g. pose proof (addr_frame g) as Hz.
  assert (Z.land (Z.lor (Z.land e (kept level)) g) EPT_ADDR_MASK = g) as Ha.
  { apply addr_splice; [|done]. unfold kept. by destruct (level =? 2)%nat. }
  assert (has (Z.lor (Z.land e (kept level)) g) EPT_PRESENT = true) as Hp'.
  { rewrite has_land; [done|by apply Hz|]. unfold kept. by destruct (level =? 2)%nat. }
  assert (Z.land (Z.lor (Z.land e (kept level)) g) EPT_TYPE_MASK = 0) as Hty'.
  { rewrite land_splice by by apply Hz.
    replace (Z.land (kept level) EPT_TYPE_MASK) with EPT_TYPE_MASK; [done|].
    unfold kept. by destruct (level =? 2)%nat. }
  assert (is_leaf (level - 1) (Z.lor (Z.land e (kept level)) g) = true) as Hlf'.
  { assert (level = 2 ∨ level = 3)%nat as [-> | ->] by lia; [done|]. cbn.
    unfold is_leaf in Hlf. cbn in Hlf. change EPT_LARGE_PAGE with PT_PAGE_SIZE_MASK in *.
    rewrite has_land; [done|by apply Hz|done]. }
  split; [done|]. split; [done|]. split; [done|]. split; [|split].
  - intros _. rewrite Hlf'. intros _. split; [done|]. by rewrite Ha.
  - unfold ept_attr. rewrite land_splice by by apply Hz. f_equal. unfold kept. by destruct (level =? 2)%nat.
  - apply lor_range; [|lia..]. apply land_range; [lia| |lia]. unfold kept. by destruct (level =? 2)%nat.
Qed.

Lemma split_pointer_spec level e p :
  (2 <= level <= 3)%nat → 0 <= e < 2 ^ 64 → has e EPT_PRESENT = true → is_leaf level e = true →
  ept_entry_ok level e → table_ok p →
  points level (split_pointer e p) p ∧ ept_entry_ok level (split_pointer e p).
Proof.
  intros Hl He Hp Hlf Hok ((Hp0 & Hpm & _) & Hp52). specialize (Hok Hp). rewrite Hlf in Hok.
  destruct (Hok ltac:(lia)) as [Hty _]. assert (Z.land p EPT_ADDR_MASK = p) as Hpa by (apply frame_addr; lia).
  unfold split_pointer. rewrite <- Z.land_assoc.
  set (N := Z.land (not64 EPT_LARGE_PAGE) (not64 EPT_ADDR_MASK)).
  pose proof (addr_frame p) as Hz.
  assert (has (Z.lor (Z.land e N) p) EPT_LARGE_PAGE = false) as HL.
  { unfold has. rewrite land_splice by by apply Hz. change (Z.land N EPT_LARGE_PAGE) with 0.
    by rewrite Z.land_0_r. }
  assert (is_leaf level (Z.lor (Z.land e N) p) = false) as Hnl.
  { unfold is_leaf. change PT_PAGE_SIZE_MASK with EPT_LARGE_PAGE. rewrite HL, andb_false_r, orb_false_r.
    apply Nat.eqb_neq. lia. }
  split; [split; [|split; [done|split]]|].
  - rewrite has_land; [done|by apply Hz|done].
  - by apply addr_splice.
  - apply lor_range; [|lia..]. by apply land_range.
  - intros _. rewrite Hnl. split; [done|]. rewrite land_splice by by apply Hz.
    by change (Z.land N EPT_TYPE_MASK) with EPT_TYPE_MASK.
Qed.

Lemma mod_span va level :
  (2 <= level)%nat → va mod span level = idx va (level - 1) * span (level - 1) + va mod span (level - 1).
Proof.
  intros Hl. pose proof (span_pos (level - 1)) as H0. pose proof (span_pos level).
  pose proof (div_span va (level - 1) ltac:(lia)) as H1. replace (S (level - 1)) with level in H1 by lia.
  pose proof (span_S (level - 1) ltac:(lia)) as H2. replace (S (level - 1)) with level in H2 by lia.
  pose proof (Z.div_mod va (span level) ltac:(lia)). pose proof (Z.div_mod va (span (level - 1)) ltac:(lia)).
  nia.
Qed.

Lemma split_leaf_addr level e va :
  (2 <= level <= 3)%nat → 0 <= e < 2 ^ 64 → has e EPT_PRESENT = true → is_leaf level e = true →
  ept_entry_ok level e →
  leaf_addr (level - 1) (split_entry level e (idx va (level - 1))) va = leaf_addr level e va.
Proof.
  intros Hl He Hp Hlf Hok.
  destruct (split_entry_spec level e (idx va (level - 1)) Hl He Hp Hlf Hok (idx_range _ _)) as (Ha & _).
  specialize (Hok Hp). rewrite Hlf in Hok. destruct (Hok ltac:(lia)) as [_ Hal].
  unfold leaf_addr. change PT_ADDR_MASK with EPT_ADDR_MASK. rewrite Ha, (mod_span va level) by lia.
  destruct (split_base level e _ Hl ltac:(lia) Hal (idx_range va (level - 1))) as [_ Hm].
  pose proof (span_pos (level - 1)). pose proof (span_pos level).
  pose proof (Z.div_mod (Z.land e EPT_ADDR_MASK) (span level) ltac:(lia)).
  pose proof (Z.div_mod (Z.land e EPT_ADDR_MASK + idx va (level - 1) * span (level - 1)) (span (level - 1)) ltac:(lia)).
  lia.
Qed.

(** ** Installing entries *)

Section Install.
Context {St : Type} {ops : PageAlloc St} {laws : PageAllocLaws St}.

Definition ept_inv (s : St) (pml4 : Z) (T : gmap Z (list Z)) (l : list Z) : Prop :=
  vm_inv s pml4 T l ∧ ept_ok (pg_mem s) T.

Lemma ept_offset_idx va (level : nat) : (1 <= level)%nat → ept_offset va level = idx va level.
Proof. apply PGDIR_OFFSET_idx. Qed.

Lemma step_span (level : nat) : (2 <= level)%nat → Z.shiftl 1 (EPT_LEVEL_SHIFT (level - 1)) = span (level - 1).
Proof.
  intros Hl. unfold EPT_LEVEL_SHIFT, EPT_PGDIR_WIDTH, span. rewrite Z.shiftl_1_l. f_equal. lia.
Qed.

(** Every entry of the new table is written, and nothing else. *)
Lemma split_fill_wp s l p proto base (level : nat) :
  (2 <= level <= 3)%nat → pg_avail s l → page_ok p → p ∉ l →
  0 <= base → base + 512 * span (level - 1) <= 2 ^ 52 → 0 <= proto < 2 ^ 64 →
  wp (split_fill p proto base level) (λ _ s', pg_avail s' l ∧
    (∀ i, 0 <= i < 512 → entry (pg_mem s') p i = Z.lor proto (base + i * span (level - 1))) ∧
    ∀ x, (x < p ∨ p + PAGE_SIZE <= x) → rd8 (pg_mem s') x = rd8 (pg_mem s) x) s.
Proof using laws.
  intros Hl Hav Hp Hpl Hb Hb52 Hpr. unfold split_fill. rewrite step_span by lia.
  pose proof (span_pos (level - 1)) as Hs.
  eapply (wp_for_up (λ i g s', g = base + i * span (level - 1) ∧ pg_avail s' l ∧
    (∀ j, 0 <= j < i → entry (pg_mem s') p j = Z.lor proto (base + j * span (level - 1))) ∧
    ∀ x, (x < p ∨ p + PAGE_SIZE <= x) → rd8 (pg_mem s') x = rd8 (pg_mem s) x)).
  - change (Z.of_nat (Z.to_nat EPT_PGDIR_ENTRIES)) with 512.
    intros i g s1 Hi (-> & Hav1 & He & Hout). unfold store64. wsteps.
    rewrite wrap_small by nia. rewrite pg_mem_set. split; [lia|]. split; [|split].
    + apply pg_avail_write; [done|]. intros q x Hq Hx. apply rd8_stn_other. unfold pte_at.
      destruct (pg_avail_ok _ _ Hav) as [Hok _]. rewrite Forall_forall in Hok.
      destruct (page_apart q p (Hok q Hq) Hp); [congruence|lia..].
    + intros j Hj. destruct (decide (j = i)) as [->|Hne].
      * apply entry_same. apply lor_range; [done| |lia]. nia.
      * rewrite entry_other; [apply He; lia|done|done|lia|lia|congruence].
    + intros x Hx. rewrite rd8_stn_other by (unfold pte_at; lia). by apply Hout.
  - split; [lia|]. split; [done|]. split; [|done]. intros j Hj. lia.
  - change (0 + Z.of_nat (Z.to_nat EPT_PGDIR_ENTRIES)) with 512. intros g s1 (_ & H1 & H2 & H3). done.
Qed.

(** A new table keeps the entries well formed. *)
Lemma ept_ok_link m m' T t p π i0 :
  ept_ok m T → T !! t = Some π → T !! p = None →
  (∀ i, 0 <= i < 512 → ept_entry_ok (3 - length π) (entry m' p i)) →
  ept_entry_ok (4 - length π) (entry m' t i0) →
  (∀ t' π' i, T !! t' = Some π' → 0 <= i < 512 → (t', i) ≠ (t, i0) → entry m' t' i = entry m t' i) →
  ∀ i1, ept_ok m' (<[p := π ++ [i1]]> T).
Proof using Type.
  intros Hok Ht Hp Hnew Hptr Hoth i1 t' π' i [[<- <-]|[Hne Ht']]%lookup_insert_Some Hi.
  - rewrite length_app. cbn [length]. replace (4 - (length π + 1))%nat with (3 - length π)%nat by lia.
    by apply Hnew.
  - destruct (decide ((t', i) = (t, i0))) as [E|E].
    + injection E as -> ->. rewrite Ht in Ht'. by injection Ht' as <-.
    + rewrite (Hoth t' π' i) by done. by apply Hok.
Qed.

Lemma reach_table s root T l d va t :
  vm_inv s root T l → reach (pg_mem s) d 4 root va = Some t → T !! t = Some (vpath va 4 d).
Proof using Type.
  intros (Hwf & _ & _) Hr.
  apply (reach_wf _ root T Hwf d 4 root [] va t (wf_root _ _ _ Hwf) eq_refl Hr).
Qed.

(** Splitting the leaf of [va]: a page of [l] becomes its table, and no address
    is translated differently. *)
Lemma split_wp s root T l p d va t (level := (4 - d)%nat) (e := entry (pg_mem s) t (idx va level)) :
  ept_inv s root T (p :: l) → (1 <= d <= 2)%nat → reach (pg_mem s) d 4 root va = Some t →
  has e EPT_PRESENT = true → is_leaf level e = true →
  wp (split_large_ept_entry (pte_at t (idx va level)) level) (λ _ s',
    T !! p = None ∧ ept_inv s' root (<[p := vpath va 4 (S d)]> T) l ∧
    reach (pg_mem s') (S d) 4 root va = Some p ∧
    entry (pg_mem s') t (idx va level) = split_pointer e p ∧ Z.land (split_pointer e p) EPT_ADDR_MASK = p ∧
    (∀ va', ept_view (pg_mem s') root va' = ept_view (pg_mem s) root va') ∧
    frame (<[p := vpath va 4 (S d)]> T) (pg_mem s) (pg_mem s')) s.
Proof using laws.
  intros [Hinv Hok] Hd Hr Hpr Hlf. pose proof Hinv as (Hwf & Hav & Hfr).
  destruct (pg_avail_ok s _ Hav) as [Hpok Hnd].
  apply Forall_cons in Hpok as [Hp Hpok]. apply NoDup_cons in Hnd as [Hpl Hnd].
  destruct (Hfr p ltac:(by left)) as [Hfresh Hp52]. assert (table_ok p) as Htp by done.
  pose proof (reach_table s root T _ d va t Hinv Hr) as Ht.
  assert (2 <= level <= 3)%nat as Hlev by (unfold level; lia).
  pose proof (Hok t _ (idx va level) Ht (idx_range _ _)) as He. rewrite vpath_length in He.
  fold level e in He. assert (0 <= e < 2 ^ 64) as Hrange by apply ld64_range.
  destruct (split_pointer_spec level e p Hlev Hrange Hpr Hlf He Htp) as [(Epr & Enl & Et & Er) Hpe].
  pose proof (λ i, split_entry_spec level e i Hlev Hrange Hpr Hlf He) as Hse.
  unfold split_large_ept_entry. apply wp_bind, wp_load64. fold (entry (pg_mem s) t (idx va level)). fold e.
  assert (has e EPT_LARGE_PAGE = true) as HL.
  { unfold is_leaf in Hlf. rewrite (proj2 (Nat.eqb_neq level 1)) in Hlf by lia.
    by apply andb_true_iff in Hlf as [_ H]. }
  wstep. wstep; [done|]. wstep. wstep; [done|]. wstep. wstep; [apply orb_true_iff; lia|].
  wstep. eapply wp_mono; [by apply pg_alloc_wp|]. cbn beta iota. intros r s1 (-> & Hav1 & Em).
  wstep. wstep; [destruct Hp; apply negb_true_iff, Z.eqb_neq; lia|]. unfold zero_page. wstep. wstep.
  set (s2 := pg_set_mem _ s1).
  assert (∀ x, (x < p ∨ p + PAGE_SIZE <= x) → rd8 (pg_mem s2) x = rd8 (pg_mem s) x) as Hs2.
  { intros x Hx. unfold s2. rewrite pg_mem_set, Em. apply memset_out. lia. }
  assert (pg_avail s2 l) as Hav2.
  { apply pg_avail_write; [done|]. intros q x Hq Hx. rewrite Em. apply memset_out.
    rewrite Forall_forall in Hpok. destruct (page_apart q p (Hpok q Hq) Hp); [congruence|lia..]. }
  assert ((if (level =? 2) then Z.land (Z.land e (not64 EPT_ADDR_MASK)) (not64 EPT_LARGE_PAGE)
    else Z.land e (not64 EPT_ADDR_MASK)) = Z.land e (kept level)) as ->.
  { unfold kept. destruct (Nat.eqb_spec level 2) as [->|]; [by rewrite Z.land_assoc|].
    by rewrite (proj2 (Z.eqb_neq level 2)) by lia. }
  pose proof (He Hpr) as Hal. rewrite Hlf in Hal. destruct (Hal ltac:(lia)) as [_ Hal'].
  destruct (addr_range e ltac:(lia)) as [Hb0 _].
  assert (Z.land e EPT_ADDR_MASK + 512 * span (level - 1) <= 2 ^ 52) as Hb52.
  { destruct (split_base level e 511 Hlev ltac:(lia) Hal' ltac:(lia)) as [H1 H2].
    assert (level = 2 ∨ level = 3)%nat as [E|E] by lia; rewrite E in *; cbn [Nat.sub] in *;
      [change (span 1) with (2 ^ 12) in *|change (span 2) with (2 ^ 21) in *]; clear - H1 H2 Hb0;
      set (b := Z.land e EPT_ADDR_MASK) in *; clearbody b; mlia. }
  wstep. eapply wp_mono.
  { apply (split_fill_wp s2 l p (Z.land e (kept level)) _ level Hlev Hav2 Hp Hpl); [lia|done|].
    apply land_range; [done| |lia]. unfold kept. by destruct (level =? 2)%nat. }
  intros g s3 (Hav3 & Hfill & Hout). unfold store64. wstep.
  fold (split_pointer e p).
  assert (∀ x, (x < p ∨ p + PAGE_SIZE <= x) → rd8 (pg_mem s3) x = rd8 (pg_mem s) x) as Hs3
    by (intros x Hx; by rewrite Hout, Hs2).
  assert (∀ i, 0 <= i < 512 → entry (pg_mem s3) p i = split_entry level e i) as Hnew by done.
  replace (level - 1)%nat with (3 - d)%nat in Hse by (unfold level; lia).
  destruct (link_table (pg_mem s) (pg_mem s3) root T d va t p (split_pointer e p))
    as (Hwf' & Hr' & Hp' & Ev & Hoth & Hl); try done; [lia| |].
  { intros i Hi. rewrite Hnew by done. intros _. by apply Hse. }
  destruct (link_inv s s3 root T l p d va t (split_pointer e p)) as [Hinv' Hfr']; try done.
  rewrite pg_mem_set. split; [done|]. split; [split; [done|]|].
  { rewrite pg_mem_set, vpath_snoc.
    apply (ept_ok_link (pg_mem s) _ T t p _ (idx va level) Hok Ht Hfresh); rewrite ?vpath_length.
    - intros i Hi. rewrite Hp', Hnew by done. by apply Hse.
    - unfold level in Ev |- *. by rewrite Ev.
    - done. }
  split; [done|]. split; [done|]. split; [done|]. split; [|done].
  intros va'. unfold ept_view. rewrite Hl. case_decide as Hpa; [|done].
  cbv zeta. rewrite Hnew by apply idx_range. destruct (Hse (idx va' (3 - d)) (idx_range _ _)) as (_ & -> & _ & _ & Hat & _).
  assert (vpath va' 4 d = vpath va 4 d ∧ idx va' level = idx va level) as [Hp1 Hp2].
  { rewrite !vpath_snoc in Hpa. by apply app_inj_tail in Hpa. }
  unfold leaf, PAGE_LEVEL. rewrite (walk_reach (pg_mem s) d 4 root va' t) by (rewrite <- Hr; by apply reach_same).
  fold level. assert (∀ k, level = S k → walk (pg_mem s) (S k) t va' = Some (level, e)) as Hw.
  { intros k E. cbn [walk]. rewrite <- E, Hp2. fold e. by rewrite Hpr, Hlf. }
  destruct level as [|k] eqn:Ek; [lia|]. rewrite (Hw k eq_refl). cbn [mbind option_bind].
  rewrite Hat. do 2 f_equal. replace (3 - d)%nat with (S k - 1)%nat by lia.
  by apply split_leaf_addr.
Qed.

(** The entry that points to a new table. *)
Definition ept_pointer (p : Z) : Z := Z.lor (Z.lor (Z.lor p EPT_RA) EPT_WA) EPT_EA.

Lemma ept_pointer_spec level p :
  (1 < level)%nat → table_ok p → points level (ept_pointer p) p ∧ ept_entry_ok level (ept_pointer p).
Proof using Type.
  intros Hl ((Hp0 & Hm & _) & Hp). unfold ept_pointer. rewrite <- !Z.lor_assoc.
  change (Z.lor EPT_RA (Z.lor EPT_WA EPT_EA)) with 7.
  destruct (pte_flags p 7 Hm) as [H1 H2]; [lia..|].
  assert (Z.land p EPT_ADDR_MASK = p) as Hpa by (apply frame_addr; lia).
  assert (∀ K, Z.land EPT_ADDR_MASK K = 0 → Z.land (Z.lor p 7) K = Z.land 7 K) as HK.
  { intros K HK. by rewrite Z.land_lor_distr_l, (addr_frame p K Hpa HK). }
  assert (has (Z.lor p 7) PT_PAGE_SIZE_MASK = false) as HL by (unfold has; by rewrite HK).
  assert (is_leaf level (Z.lor p 7) = false) as Hnl.
  { unfold is_leaf. rewrite HL, andb_false_r, orb_false_r. apply Nat.eqb_neq. lia. }
  split; [split; [|split; [done|split; [done|lia]]]|].
  - unfold has. by rewrite HK.
  - intros _. rewrite Hnl. split; [done|]. by rewrite HK.
Qed.

(** What a walk that creates the missing tables and splits leaves gives. *)
Definition ept_post (s : St) (root : Z) (T : gmap Z (list Z)) (l : list Z) (n k : nat)
    (va : Z) (r : Z) (s' : St) : Prop :=
  ∃ T' l' used, ept_inv s' root T' l' ∧ grown T T' used ∧ l = used ++ l' ∧
    reach (pg_mem s') n 4 root va = Some r ∧
    (is_Some (reach (pg_mem s) n 4 root va) → used = []) ∧ (length used <= k)%nat ∧
    (∀ va', ept_view (pg_mem s') root va' = ept_view (pg_mem s) root va') ∧
    frame T' (pg_mem s) (pg_mem s').

(** After a level that took the page [p]. *)
Lemma ept_post_cons s s1 root T l p π n k va r s' :
  T !! p = None → ¬ is_Some (reach (pg_mem s) n 4 root va) →
  (∀ va', ept_view (pg_mem s1) root va' = ept_view (pg_mem s) root va') →
  frame (<[p := π]> T) (pg_mem s) (pg_mem s1) →
  ept_post s1 root (<[p := π]> T) l n k va r s' → ept_post s root T (p :: l) n (S k) va r s'.
Proof using Type.
  intros Hp Hno Hv Hf (T' & l' & used & Hinv & HT & El & Hr & _ & Hlen & Hv' & Hf').
  exists T', l', (p :: used). split; [done|]. split; [by eapply grown_cons|]. split; [by rewrite El|].
  split; [done|]. split; [done|]. split; [cbn; lia|]. split; [intros va'; by rewrite Hv', Hv|].
  eapply frame_trans; [apply HT|exact Hf|done].
Qed.

Lemma install_ept_walk_wp n d s root T l va t :
  (n + d <= 3)%nat → ept_inv s root T l → reach (pg_mem s) d 4 root va = Some t →
  (is_Some (reach (pg_mem s) (d + n) 4 root va) ∨ n <= length l)%nat →
  wp (install_ept_walk n (4 - d)%nat va t 0) (ept_post s root T l (d + n) n va) s.
Proof using laws.
  revert d s T l t. induction n as [|n IH]; intros d s T l t Hn Hinv Hr Hl.
  - cbn [install_ept_walk]. wstep. rewrite Nat.add_0_r. exists T, l, [].
    assert (grown T T []) by (split; [done|by left]). split_and!; done || (cbn; lia).
  - cbn [install_ept_walk]. cbv zeta. rewrite ept_offset_idx by lia.
    assert ((4 - d)%nat - 1 = (4 - S d)%nat) as -> by lia.
    apply wp_bind, wp_load64. fold (entry (pg_mem s) t (idx va (4 - d))).
    rewrite <- Nat.add_succ_comm. pose proof (reach_snoc (pg_mem s) d 4 root va t Hr) as Hsn. cbn zeta in Hsn.
    assert (∀ b, has (entry (pg_mem s) t (idx va (4 - d))) EPT_PRESENT &&
        negb (is_leaf (4 - d) (entry (pg_mem s) t (idx va (4 - d)))) = b → b = false →
        ¬ is_Some (reach (pg_mem s) (d + S n) 4 root va)) as Hno.
    { intros b Hb ->. rewrite reach_add, Hr. cbn [mbind option_bind reach]. rewrite Hb. by intros [? ?]. }
    destruct (has _ EPT_PRESENT) eqn:Ep; cbn [negb].
    + destruct (is_leaf (4 - d) (entry (pg_mem s) t (idx va (4 - d)))) eqn:Elf.
      * specialize (Hno _ eq_refl eq_refl). destruct Hl as [Hl|Hl]; [done|].
        destruct l as [|p l]; [cbn in Hl; lia|]. cbn in Hl.
        assert (1 <= d <= 2)%nat as Hd.
        { split; [|lia]. destruct d; [|lia]. cbn in Elf. done. }
        assert (has (entry (pg_mem s) t (idx va (4 - d))) EPT_LARGE_PAGE = true) as ->.
        { unfold is_leaf in Elf. rewrite (proj2 (Nat.eqb_neq (4 - d) 1)) in Elf by lia.
          by apply andb_true_iff in Elf as [_ H]. }
        wstep. wstep. eapply wp_mono; [by apply (split_wp s root T l p d va t)|].
        intros [] s1 (Hfresh & Hinv1 & Hr1 & Ev & Et & Hv & Hf). wstep. apply wp_bind, wp_load64.
        fold (entry (pg_mem s1) t (idx va (4 - d))). rewrite Ev, Et.
        eapply wp_mono; [apply (IH (S d) s1 (<[p := vpath va 4 (S d)]> T) l p); [lia|done|done|right; lia]|].
        intros r s'. apply (ept_post_cons s s1 root T l p); try done. by rewrite Nat.add_succ_comm.
      * assert (has (entry (pg_mem s) t (idx va (4 - d))) EPT_LARGE_PAGE = false) as ->.
        { destruct Hinv as [Hinv Hok]. pose proof (reach_table s root T l d va t Hinv Hr) as Ht.
          pose proof (Hok t _ _ Ht (idx_range va (4 - d)) ) as He. rewrite vpath_length in He.
          specialize (He Ep). rewrite Elf in He. apply He. }
        wsteps. apply wp_load64. fold (entry (pg_mem s) t (idx va (4 - d))).
        eapply wp_mono; [apply (IH (S d) s T l _); [lia|done|done|]|].
        { rewrite Nat.add_succ_comm. destruct Hl as [Hl|Hl]; [by left|right; lia]. }
        intros r s' (T' & l' & used & H). exists T', l', used. destruct H as (H1 & H2 & H3 & H4 & H5 & H6 & H7).
        do 5 (split; [done|]). split; [lia|]. split; [apply H7|apply H7].
    + specialize (Hno _ eq_refl eq_refl). destruct Hl as [Hl|Hl]; [done|].
      destruct l as [|p l]; [cbn in Hl; lia|]. rewrite Z.eqb_refl. cbn in Hl. wstep.
      destruct Hinv as [Hinv Hok]. pose proof (reach_table s root T _ d va t Hinv Hr) as Ht.
      eapply wp_mono; [apply (new_table_wp s root T l p d va t ept_pointer); try (done || lia)|].
      { intros Htp. apply ept_pointer_spec; [lia|done]. }
      intros pp s1 (-> & Hfresh & Hinv1 & Hr1 & Ev & Hp & Hz & Hoth & Htr & Hf). wstep. apply wp_load64.
      fold (entry (pg_mem s1) t (idx va (4 - d))). rewrite Ev.
      destruct (ept_pointer_spec (4 - d) p ltac:(lia) Hp) as [(_ & _ & Ea & _) Hpo].
      change PT_ADDR_MASK with EPT_ADDR_MASK in Ea. rewrite Ea.
      eapply wp_mono; [apply (IH (S d) s1 (<[p := vpath va 4 (S d)]> T) l p);
        [lia|split; [done|]|done|right; lia]|].
      { rewrite vpath_snoc. apply (ept_ok_link (pg_mem s) _ T t p _ (idx va (4 - d)) Hok Ht Hfresh);
          rewrite ?vpath_length.
        - intros i Hi. rewrite Hz by done. by intros ?.
        - by rewrite Ev.
        - done. }
      intros r s'. apply (ept_post_cons s s1 root T l p); try done; [by rewrite Nat.add_succ_comm|].
      intros va'. unfold ept_view. by rewrite Htr.
Qed.

(** ** One page *)

(** The pages of the tables and of the allocator, and the memory beside them. *)
Definition owned (T : gmap Z (list Z)) (l : list Z) (t : Z) : Prop := is_Some (T !! t) ∨ t ∈ l.

Definition within (T : gmap Z (list Z)) (l : list Z) (T' : gmap Z (list Z)) (l' : list Z) : Prop :=
  ∀ t, owned T' l' t → owned T l t.

Definition beside (T : gmap Z (list Z)) (l : list Z) (x : Z) : Prop :=
  ∀ t, owned T l t → x < t ∨ t + PAGE_SIZE <= x.

Definition ept_frame (T : gmap Z (list Z)) (l : list Z) (m m' : mem) : Prop :=
  ∀ x, beside T l x → rd8 m' x = rd8 m x.

Lemma grown_within T T' used l' : grown T T' used → within T (used ++ l') T' l'.
Proof using Type.
  intros [_ H] t [Ht|Ht].
  - destruct (H t Ht); [by left|right; apply elem_of_app; by left].
  - right. apply elem_of_app. by right.
Qed.

Lemma ept_frame_trans T l T' l' m m1 m2 :
  within T l T' l' → ept_frame T l m m1 → ept_frame T' l' m1 m2 → ept_frame T l m m2.
Proof using Type.
  intros Hw H1 H2 x Hx. rewrite H2; [by apply H1|]. intros t Ht. by apply Hx, Hw.
Qed.

(** The effect of an entry [pte] of level [k]: the area of [va] is mapped by it,
    everything else as before. *)
Definition ept_set (s : St) (root : Z) (T : gmap Z (list Z)) (l : list Z) (k : nat) (va pte : Z)
    (s' : St) : Prop :=
  ∃ T' l', ept_inv s' root T' l' ∧ entered k s root l va s' T' l' ∧
    within T l T' l' ∧ ept_frame T l (pg_mem s) (pg_mem s') ∧
    ∀ va', addr48 va' → ept_view (pg_mem s') root va' =
      if decide (va' / span k = va / span k) then
        if has pte EPT_PRESENT then Some (leaf_addr k pte va', ept_attr pte) else None
      else ept_view (pg_mem s) root va'.

Lemma install_ept_entry_wp s root T l k va pte :
  (1 <= k <= 3)%nat → ept_inv s root T l → addr48 va → enough (pg_mem s) root l k va →
  0 <= pte < 2 ^ 64 → (has pte EPT_PRESENT = true → is_leaf k pte = true) → ept_entry_ok k pte →
  wp (install_ept_entry root k va pte 0) (λ _ s', ept_set s root T l k va pte s') s.
Proof using laws.
  intros Hk Hinv Hva Hl Hpte Hleaf Hpok. unfold install_ept_entry. wstep.
  wstep; [apply Z.ltb_lt, Hva|]. wstep.
  pose proof (install_ept_walk_wp (4 - k) 0 s root T l va root ltac:(lia) Hinv eq_refl Hl) as Hw.
  change (4 - 0)%nat with 4%nat in Hw. eapply wp_mono; [exact Hw|]. clear Hw. cbn [Nat.add].
  intros t s1 (T' & l' & used & [Hinv1 Hok1] & HT & El & Hr & Hused & Hlen & Hv & Hfr).
  rewrite ept_offset_idx by lia. unfold store64. wstep. pose proof Hinv1 as (Hwf & Hav & Hfresh).
  pose proof (reach_table s1 root T' l' (4 - k) va t Hinv1 Hr) as Ht.
  destruct (set_entry (pg_mem s1) root T' (4 - k) va t pte) as (Hwf2 & Hr2 & Htr2);
    rewrite ?(ltac:(lia) : (4 - (4 - k) = k)%nat) in *; try done; [lia|].
  set (m' := st64 (pg_mem s1) (pte_at t (idx va k)) pte) in *.
  assert (vm_inv (pg_set_mem m' s1) root T' l') as Hinv2.
  { split; [by rewrite pg_mem_set|]. split; [|done].
    apply (avail_store s1 root T'); [done|by rewrite Ht|apply idx_range]. }
  exists T', l'. split; [split; [done|]|split; [|split; [|split]]].
  - rewrite pg_mem_set. intros t' π' i Ht' Hi. pose proof (wf_page _ _ _ _ _ Hwf Ht') as Hp'.
    pose proof (wf_page _ _ _ _ _ Hwf Ht) as Hp. unfold m'.
    destruct (decide ((t', i) = (t, idx va k))) as [E|E].
    + injection E as -> ->. rewrite Ht in Ht'. injection Ht' as <-. rewrite entry_same by done.
      rewrite vpath_length. by replace (4 - (4 - k))%nat with k by lia.
    + rewrite entry_other; [by apply Hok1|done|done|apply idx_range|done|congruence].
  - exists used, t. rewrite pg_mem_set. done.
  - subst l. by apply grown_within.
  - rewrite pg_mem_set. intros x Hx. assert (x < t ∨ t + PAGE_SIZE <= x) as Hxt.
    { apply Hx. rewrite El. eapply grown_within; [done|]. left. by rewrite Ht. }
    pose proof (idx_range va k). unfold m'. rewrite rd8_stn_other by (unfold pte_at; lia). apply Hfr.
    intros t' Ht'. apply Hx. rewrite El. eapply grown_within; [done|]. by left.
  - intros va' Hva'. rewrite pg_mem_set. unfold ept_view at 1. rewrite Htr2.
    pose proof (vpath_eq va' va (4 - k) ltac:(lia) Hva' Hva) as Heq.
    replace (4 - (4 - k))%nat with k in Heq by lia.
    destruct (decide (va' / span k = va / span k)) as [E|E].
    + rewrite decide_True by by apply Heq. by destruct (has pte EPT_PRESENT).
    + rewrite decide_False by (intros H; by apply E, Heq). apply Hv.
Qed.

(** The entry of a page of 4 KiB. *)
Lemma page_pte phys perm (pte := Z.lor (Z.land phys PAGE_MASK) perm) :
  0 <= phys < 2 ^ 52 → 0 <= perm < PAGE_SIZE →
  0 <= pte < 2 ^ 64 ∧ has pte EPT_PRESENT = has perm EPT_PRESENT ∧ ept_attr pte = ept_attr perm ∧
  ∀ va, leaf_addr 1 pte va = phys / PAGE_SIZE * PAGE_SIZE + va mod PAGE_SIZE.
Proof using Type.
  intros Hp Hperm. assert (Z.land phys PAGE_MASK = phys / PAGE_SIZE * PAGE_SIZE) as Ef.
  { unfold PAGE_MASK. change (PAGE_SIZE - 1) with (2 ^ 12 - 1). rewrite mask_high by lia.
    change (2 ^ 12) with 4096. mlia. }
  unfold pte. rewrite Ef. set (f := phys / PAGE_SIZE * PAGE_SIZE).
  assert (f mod PAGE_SIZE = 0 ∧ 0 <= f ∧ f + PAGE_SIZE <= 2 ^ 52) as (Hm & H0 & H1)
    by (subst f; clear - Hp; split_and!; mlia).
  clearbody f. destruct (pte_flags f perm Hm H0 H1 Hperm) as [Ha E].
  assert (Z.land f EPT_ADDR_MASK = f) as Hf by (apply frame_addr; lia).
  assert (∀ K, Z.land EPT_ADDR_MASK K = 0 → Z.land (Z.lor f perm) K = Z.land perm K) as HK.
  { intros K HK. by rewrite Z.land_lor_distr_l, (addr_frame f K Hf HK). }
  split; [lia|]. split; [unfold has; by rewrite HK|]. split; [unfold ept_attr; by rewrite HK|].
  intros va. unfold leaf_addr. rewrite Ha. change (span 1) with PAGE_SIZE. clear - Hm. mlia.
Qed.

Lemma install_ept_wp s root T l phys va perm :
  ept_inv s root T l → addr48 va → enough (pg_mem s) root l 1 va →
  0 <= phys < 2 ^ 52 → 0 <= perm < PAGE_SIZE →
  wp (install_ept root phys va perm) (λ _ s', ∃ T' l', ept_inv s' root T' l' ∧
    entered 1 s root l va s' T' l' ∧ within T l T' l' ∧ ept_frame T l (pg_mem s) (pg_mem s') ∧
    ∀ va', addr48 va' → ept_view (pg_mem s') root va' =
      if decide (va' / PAGE_SIZE = va / PAGE_SIZE) then
        if has perm EPT_PRESENT
        then Some (phys / PAGE_SIZE * PAGE_SIZE + va' mod PAGE_SIZE, ept_attr perm) else None
      else ept_view (pg_mem s) root va') s.
Proof using laws.
  intros Hinv Hva Hl Hp Hperm. destruct (page_pte phys perm Hp Hperm) as (H1 & H2 & H3 & H4).
  eapply wp_mono; [apply (install_ept_entry_wp s root T l 1); [lia|done..|]|].
  { intros _. cbn. lia. }
  intros [] s' (T' & l' & Hinv' & Hen & Hw & Hf & Hv). exists T', l'. do 4 (split; [done|]).
  intros va' Hva'. rewrite Hv by done. change (span 1) with PAGE_SIZE.
  case_decide; [|done]. by rewrite H2, H3, H4.
Qed.

(** ** Ranges of pages *)

(** After [i] pages from [gpa] on have been mapped to those from [hpa] on. *)
Definition ept_mapped (m m' : mem) (root hpa gpa len perm : Z) : Prop :=
  ∀ va, addr48 va → ept_view m' root va =
    if decide (gpa <= va < gpa + len) then
      if has perm EPT_PRESENT then Some (hpa + (va - gpa), ept_attr perm) else None
    else ept_view m root va.

Definition range_inv (s : St) (root : Z) (T : gmap Z (list Z)) (l : list Z) (hpa gpa c perm i : Z)
    (s' : St) : Prop :=
  ∃ T' l', ept_inv s' root T' l' ∧ within T l T' l' ∧ ept_frame T l (pg_mem s) (pg_mem s') ∧
    (i < c → budget (pg_mem s') root l' 0 1 (gpa + PAGE_SIZE * i) (gpa + PAGE_SIZE * c)) ∧
    ept_mapped (pg_mem s) (pg_mem s') root hpa gpa (PAGE_SIZE * i) perm.

Lemma range_start s root T l hpa gpa c perm :
  ept_inv s root T l → (0 < c → budget (pg_mem s) root l 0 1 gpa (gpa + PAGE_SIZE * c)) →
  range_inv s root T l hpa gpa c perm 0 s.
Proof using Type.
  intros Hinv Hb. exists T, l. rewrite Z.mul_0_r, Z.add_0_r. do 4 (split; [done || by intros ?|]).
  intros va Hva. by rewrite decide_False by lia.
Qed.

Lemma range_step s root T l hpa gpa c perm i s1 :
  hpa mod PAGE_SIZE = 0 → gpa mod PAGE_SIZE = 0 → 0 <= hpa → 0 <= gpa →
  hpa + PAGE_SIZE * c <= 2 ^ 52 → gpa + PAGE_SIZE * c <= 2 ^ 48 → 0 <= perm < PAGE_SIZE →
  0 <= i < c → range_inv s root T l hpa gpa c perm i s1 →
  wp (install_ept root (hpa + PAGE_SIZE * i) (gpa + PAGE_SIZE * i) perm)
    (λ _ s', range_inv s root T l hpa gpa c perm (i + 1) s') s1.
Proof using laws.
  intros Hhm Hgm Hh Hg Hhb Hgb Hperm Hi (T1 & l1 & Hinv1 & Hw1 & Hf1 & Hb1 & Hv1).
  specialize (Hb1 ltac:(lia)).
  assert (addr48 (gpa + PAGE_SIZE * i)) as Ha by (unfold addr48; lia).
  eapply wp_mono.
  { apply (install_ept_wp s1 root T1 l1); [done|done| |lia|done].
    eapply (budget_enough _ _ _ 0); [lia| |done]. lia. }
  intros [] s2 (T2 & l2 & Hinv2 & Hen & Hw2 & Hf2 & Hv2). exists T2, l2.
  split; [done|]. split; [intros t Ht; by apply Hw1, Hw2|].
  split; [by eapply ept_frame_trans|]. split.
  - intros Hc. destruct (budget_next 1 s1 root l1 0 _ s2 T2 l2 (gpa + PAGE_SIZE * c) ltac:(lia) Ha
      ltac:(change (span 1) with PAGE_SIZE; clear - Hgm; mlia) Hb1 Hen) as [_ Hb2].
    change (span 1) with PAGE_SIZE in Hb2.
    replace (gpa + PAGE_SIZE * (i + 1)) with (gpa + PAGE_SIZE * i + PAGE_SIZE) by lia.
    apply Hb2; [unfold addr48 in *|]; lia.
  - intros va Hva. rewrite Hv2, Hv1 by done. clear - Hgm Hhm Hi.
    apply Z.mod_divide in Hgm as [g ->]; [|lia]. apply Z.mod_divide in Hhm as [h ->]; [|lia].
    replace (h * PAGE_SIZE + PAGE_SIZE * i) with ((h + i) * PAGE_SIZE) by lia.
    replace (g * PAGE_SIZE + PAGE_SIZE * i) with ((g + i) * PAGE_SIZE) by lia.
    rewrite !Z.div_mul by lia. pose proof (Z.div_mod va PAGE_SIZE ltac:(lia)) as Hd.
    pose proof (Z.mod_pos_bound va PAGE_SIZE ltac:(lia)) as Hmb.
    case_decide as E.
    + rewrite decide_True by lia. destruct (has perm EPT_PRESENT); [|done]. do 2 f_equal. lia.
    + destruct (decide (g * PAGE_SIZE <= va < (g + i) * PAGE_SIZE)).
      * by rewrite decide_True by lia.
      * by rewrite decide_False by lia.
Qed.

Lemma range_mapped s root T l hpa gpa c perm s' :
  range_inv s root T l hpa gpa c perm c s' →
  ∃ T' l', ept_inv s' root T' l' ∧ within T l T' l' ∧ ept_frame T l (pg_mem s) (pg_mem s') ∧
    ept_mapped (pg_mem s) (pg_mem s') root hpa gpa (PAGE_SIZE * c) perm.
Proof using Type. intros (T' & l' & H1 & H2 & H3 & _ & H4). by exists T', l'. Qed.

Lemma setup_ept_range_wp s root T l start len perm (c := len / PAGE_SIZE) :
  ept_inv s root T l → start mod PAGE_SIZE = 0 → 0 <= start → 0 <= len → start + len <= 2 ^ 48 →
  0 <= perm < PAGE_SIZE → (0 < c → budget (pg_mem s) root l 0 1 start (start + PAGE_SIZE * c)) →
  wp (setup_ept_range root start len perm) (λ _ s', range_inv s root T l start start c perm c s') s.
Proof using laws.
  intros Hinv Hsm Hs0 Hl0 Hb Hperm Hbud. unfold setup_ept_range.
  rewrite (wrap_small 64 (len + start)) by lia.
  assert (0 <= c ∧ PAGE_SIZE * c <= len < PAGE_SIZE * c + PAGE_SIZE) as [Hc0 Hc] by (subst c; clear - Hl0; mlia).
  clearbody c.
  apply (wp_iter (λ n phys s', ∃ i, 0 <= i <= c ∧ n = Z.to_nat (c - i) ∧ phys = start + PAGE_SIZE * i ∧
    range_inv s root T l start start c perm i s')) with (n := Z.to_nat c).
  - intros n phys s1 (i & Hi & -> & -> & Hinv1).
    rewrite (wrap_small 64 (start + PAGE_SIZE * i + PAGE_SIZE)) by lia.
    destruct (Z.leb_spec (start + PAGE_SIZE * i + PAGE_SIZE) (len + start)) as [Hle|Hgt].
    + wstep. eapply wp_mono; [apply (range_step s root T l start start c perm i s1); done || lia|].
      intros [] s2 Hinv2. wstep. exists (Z.to_nat (c - (i + 1))). split; [lia|].
      exists (i + 1). split; [lia|]. split; [done|]. split; [lia|done].
    + assert (i = c) as -> by lia. by wstep.
  - exists 0. split; [lia|]. split; [f_equal; lia|]. split; [lia|]. by apply range_start.
  - assert (c <= (len + start) / PAGE_SIZE) by (apply Z.div_le_lower_bound; lia). lia.
Qed.

(** Clearing memory beside the tables and the free pages. *)
Lemma clear_inv s root T l a n (m' := memset (pg_mem s) a 0 n) :
  ept_inv s root T l → (∀ x, a <= x < a + n → beside T l x) →
  ept_inv (pg_set_mem m' s) root T l ∧ ∀ va, ept_view m' root va = ept_view (pg_mem s) root va.
Proof using Type.
  intros [(Hwf & Hav & Hfr) Hok] Hb.
  assert (∀ t x, owned T l t → t <= x < t + PAGE_SIZE → rd8 m' x = rd8 (pg_mem s) x) as Hx.
  { intros t x Ht Hx. unfold m'. apply memset_out. destruct (decide (a <= x < a + n)) as [Hin|]; [|lia].
    destruct (Hb x Hin t Ht); lia. }
  assert (∀ t π i, T !! t = Some π → 0 <= i < 512 → entry m' t i = entry (pg_mem s) t i) as He.
  { intros t π i Ht Hi. apply ldn_ext. unfold pte_at. intros x Hin. apply (Hx t); [left; by rewrite Ht|lia]. }
  destruct (wf_same (pg_mem s) m' root T Hwf He) as [Hwf' Hl].
  split; [|intros va; unfold ept_view; by rewrite Hl]. split.
  - split; [by rewrite pg_mem_set|]. split; [|done].
    apply pg_avail_write; [done|]. intros q x Hq Hin. apply (Hx q); [by right|done].
  - rewrite pg_mem_set. intros t π i Ht Hi. rewrite (He t π i) by done. by apply Hok.
Qed.

Lemma ept_gpa2hpa_map_wp s root T l hpa gpa size perm is_clear :
  ept_inv s root T l → hpa mod PAGE_SIZE = 0 → gpa mod PAGE_SIZE = 0 → size mod PAGE_SIZE = 0 →
  0 <= hpa → 0 <= gpa → 0 <= size → hpa + size <= 2 ^ 52 → gpa + size <= 2 ^ 48 →
  0 <= perm < PAGE_SIZE → rest 1 gpa (gpa + size) + 3 <= length l →
  (is_clear = true → ∀ x, hpa <= x < hpa + size → beside T l x) →
  wp (ept_gpa2hpa_map root hpa gpa size perm is_clear) (λ _ s', ∃ T' l', ept_inv s' root T' l' ∧
    ept_mapped (pg_mem s) (pg_mem s') root hpa gpa size perm ∧
    (∀ x, beside T l x → rd8 (pg_mem s') x =
      if decide (is_clear = true ∧ hpa <= x < hpa + size) then 0 else rd8 (pg_mem s) x)) s.
Proof using laws.
  intros Hinv Hhm Hgm Hsm Hh Hg Hs Hhb Hgb Hperm Hl Hclear. unfold ept_gpa2hpa_map. wstep.
  apply Z.mod_divide in Hsm as [c Ec]; [|lia]. rewrite (Z.mul_comm c) in Ec.
  eapply wp_mono with (Q := λ _ s1, ept_inv s1 root T l ∧
    (∀ va, ept_view (pg_mem s1) root va = ept_view (pg_mem s) root va) ∧
    ∀ x, rd8 (pg_mem s1) x = if decide (is_clear = true ∧ hpa <= x < hpa + size) then 0 else rd8 (pg_mem s) x).
  { destruct is_clear; wstep.
    - destruct (clear_inv s root T l hpa (Z.to_nat size) Hinv) as [H1 H2].
      { intros x Hx. apply Hclear; [done|lia]. }
      rewrite pg_mem_set. split; [done|]. split; [done|]. intros x. case_decide.
      + apply memset_in. lia.
      + apply memset_out. lia.
    - split; [done|]. split; [done|]. intros x. by rewrite decide_False by (by intros [? _]). }
  intros [] s1 (Hinv1 & Hv1 & Hm1). rewrite (wrap_small 64 (hpa + size)) by lia. subst size.
  eapply wp_mono; [apply (wp_iter (λ n '(h, g) s', ∃ i, 0 <= i <= c ∧ n = Z.to_nat (c - i) ∧
    h = hpa + PAGE_SIZE * i ∧ g = gpa + PAGE_SIZE * i ∧ range_inv s1 root T l hpa gpa c perm i s') _
    (λ _ s', range_inv s1 root T l hpa gpa c perm c s')) with (n := Z.to_nat c)|].
  - intros n [h g] s2 (i & Hi & -> & -> & -> & Hinv2).
    rewrite (wrap_small 64 (hpa + PAGE_SIZE * i + PAGE_SIZE)) by lia.
    destruct (Z.leb_spec (hpa + PAGE_SIZE * i + PAGE_SIZE) (hpa + PAGE_SIZE * c)) as [Hle|Hgt].
    + wstep. eapply wp_mono; [apply (range_step s1 root T l hpa gpa c perm i s2); done || lia|].
      intros [] s3 Hinv3. wstep. exists (Z.to_nat (c - (i + 1))). split; [lia|].
      exists (i + 1). rewrite !wrap_small by lia.
      split; [lia|]. split; [done|]. split; [lia|]. split; [lia|done].
    + assert (i = c) as -> by lia. by wstep.
  - exists 0. split; [lia|]. split; [f_equal; lia|]. split; [lia|]. split; [lia|].
    apply range_start; [done|]. intros Hc. right. lia.
  - assert (c <= (hpa + PAGE_SIZE * c) / PAGE_SIZE) by (apply Z.div_le_lower_bound; lia). lia.
  - intros [] s2 (T' & l' & Hinv2 & _ & Hf & Hmap)%range_mapped. exists T', l'. split; [done|]. split.
    + intros va Hva. by rewrite Hmap, Hv1.
    + intros x Hx. by rewrite Hf.
Qed.
End Install.

(** ** Properties *)

(** C34: [install_ept] maps the page of [guest_addr] and no other: afterwards the
    processor translates the addresses of that page to the frame of [phys] with
    the permissions [perm] (or not at all when [perm] permits nothing), and every
    other address as before, also when a large page was there and is split on
    the way; the tables are well formed again and only they and free pages are
    written. *)
Theorem install_ept_maps {St} {ops : PageAlloc St} {laws : PageAllocLaws St} s pml4 T l phys guest_addr perm :
  ept_inv s pml4 T l → addr48 guest_addr → (3 <= length l)%nat →
  0 <= phys < 2 ^ 52 → 0 <= perm < PAGE_SIZE →
  wp (install_ept pml4 phys guest_addr perm) (λ _ s',
    (∃ T' l', ept_inv s' pml4 T' l' ∧ within T l T' l') ∧ ept_frame T l (pg_mem s) (pg_mem s') ∧
    ∀ gpa, addr48 gpa → ept_view (pg_mem s') pml4 gpa =
      if decide (gpa / PAGE_SIZE = guest_addr / PAGE_SIZE) then
        if has perm EPT_PRESENT
        then Some (phys / PAGE_SIZE * PAGE_SIZE + gpa mod PAGE_SIZE, ept_attr perm) else None
      else ept_view (pg_mem s) pml4 gpa) s.
Proof.
  intros Hinv Ha Hl Hp Hperm. eapply wp_mono; [apply (install_ept_wp s pml4 T l); try done; by right|].
  intros [] s' (T' & l' & H1 & _ & H2 & H3 & H4). split; [by exists T', l'|done].
Qed.

(** [ept_gpa2hpa_map] maps the guest addresses from [gpa] on to the memory from
    [hpa] on, page by page, and no other address differently; the memory is
    cleared first when that is asked for, and stays so. *)
Theorem ept_gpa2hpa_map_maps {St} {ops : PageAlloc St} {laws : PageAllocLaws St}
    s pml4 T l hpa gpa size perm is_clear :
  ept_inv s pml4 T l → hpa mod PAGE_SIZE = 0 → gpa mod PAGE_SIZE = 0 → size mod PAGE_SIZE = 0 →
  0 <= hpa → 0 <= gpa → 0 <= size → hpa + size <= 2 ^ 52 → gpa + size <= 2 ^ 48 →
  0 <= perm < PAGE_SIZE → rest 1 gpa (gpa + size) + 3 <= length l →
  (∀ x, hpa <= x < hpa + size → beside T l x) →
  wp (ept_gpa2hpa_map pml4 hpa gpa size perm is_clear) (λ _ s',
    (∃ T' l', ept_inv s' pml4 T' l') ∧
    (∀ va, addr48 va → ept_view (pg_mem s') pml4 va =
      if decide (gpa <= va < gpa + size) then
        if has perm EPT_PRESENT then Some (hpa + (va - gpa), ept_attr perm) else None
      else ept_view (pg_mem s) pml4 va) ∧
    ∀ x, hpa <= x < hpa + size → rd8 (pg_mem s') x = if is_clear then 0 else rd8 (pg_mem s) x) s.
Proof.
  intros. eapply wp_mono; [by apply (ept_gpa2hpa_map_wp s pml4 T l)|].
  intros [] s' (T' & l' & H' & Hmap & Hm). split; [by exists T', l'|]. split; [done|].
  intros x Hx. rewrite Hm by auto. destruct is_clear.
  - by rewrite decide_True.
  - by rewrite decide_False by (by intros [? _]).
Qed.

(** The memory type of a large leaf stays in the entry that points to its table,
    where the bits are reserved. *)
Lemma split_keeps_type e p :
  0 <= p < 2 ^ 52 → p mod PAGE_SIZE = 0 →
  Z.land (split_pointer e p) EPT_TYPE_MASK = Z.land e EPT_TYPE_MASK.
Proof.
  intros Hp Hm. unfold split_pointer. rewrite <- Z.land_assoc, land_splice; [by f_equal|].
  apply addr_frame; [by apply frame_addr|done].
Qed.

(** ** Witnesses *)

(** Tables at 0x1000, 0x2000 and 0x3000 whose only leaf maps the first 2M to
    those from 0x200000 on, beside the free pages [ex_free]. *)
Definition ex_ept_mem : mem := st64 (st64 (st64 (pmem ex_state) 0x1000 0x2007) 0x2000 0x3007) 0x3000 0x200087.
Definition ex_ept : pages := Pages ex_ept_mem (freelist ex_state) (plock ex_state).

Lemma ex_ept_cases t π : ex_tables !! t = Some π →
  (t, π) = (0x1000, []) ∨ (t, π) = (0x2000, [0]) ∨ (t, π) = (0x3000, [0; 0]).
Proof.
  intros H. unfold ex_tables in H.
  apply lookup_insert_Some in H as [[<- <-]|[_ H]]; [by left|].
  apply lookup_insert_Some in H as [[<- <-]|[_ H]]; [by right; left|].
  apply lookup_singleton_Some in H as [<- <-]. by right; right.
Qed.

Lemma ex_ept_outside x : 0x4000 <= x → rd8 ex_ept_mem x = rd8 (pmem ex_state) x.
Proof. intros Hx. unfold ex_ept_mem. by rewrite !rd8_stn_other by lia. Qed.

Lemma ex_ept_entry t i : t ∈ [0x1000; 0x2000; 0x3000] → 0 < i < 512 → entry ex_ept_mem t i = 0.
Proof.
  intros Ht Hi. apply ldn_zero. intros x Hx. unfold ex_ept_mem, pte_at in *.
  rewrite !elem_of_cons, elem_of_nil in Ht. rewrite !rd8_stn_other by lia.
  apply (fresh_pages_ok 0x100000 15); [apply ex_range|lia..].
Qed.

Lemma ex_ept_inv : ept_inv ex_ept 0x1000 ex_tables ex_free.
Proof.
  split; [split; [|split]|].
  - split; [done| |].
    + intros t π [[= -> ->]|[[= -> ->]|[= -> ->]]]%ex_ept_cases; (split; [by repeat split|cbn; lia]).
    + intros t π i Ht Hi. destruct (decide (i = 0)) as [->|Hi0].
      * apply ex_ept_cases in Ht as [[= -> ->]|[[= -> ->]|[= -> ->]]]; by vm_compute.
      * cbn [pg_mem pages_alloc ex_ept pmem]. rewrite ex_ept_entry; [done| |lia].
        apply ex_ept_cases in Ht as [[= -> ->]|[[= -> ->]|[= -> ->]]]; rewrite !elem_of_cons; lia.
  - apply (@pg_avail_write pages pages_alloc pages_alloc_laws ex_state ex_free ex_ept_mem); [apply ex_avail|].
    intros q x Hq%ex_low Hx. apply ex_ept_outside. lia.
  - intros p Hp%ex_low. split; [|lia]. destruct (ex_tables !! p) eqn:E; [|done].
    apply ex_ept_cases in E as [[= -> ->]|[[= -> ->]|[= -> ->]]]; lia.
  - intros t π i Ht Hi. destruct (decide (i = 0)) as [->|Hi0].
    + apply ex_ept_cases in Ht as [[= -> ->]|[[= -> ->]|[= -> ->]]]; by vm_compute.
    + cbn [pg_mem pages_alloc ex_ept pmem]. rewrite ex_ept_entry; [done| |lia].
      apply ex_ept_cases in Ht as [[= -> ->]|[[= -> ->]|[= -> ->]]]; rewrite !elem_of_cons; lia.
Qed.

(** A page of the large page is mapped elsewhere, read-only: the other pages of
    the large page stay where they are. *)
Lemma install_ept_maps_witness :
  wp (install_ept 0x1000 0x7000 0x5000 1) (λ _ s',
    (∃ T' l', ept_inv s' 0x1000 T' l' ∧ within ex_tables ex_free T' l') ∧
    ept_frame ex_tables ex_free (pg_mem ex_ept) (pg_mem s') ∧
    ∀ gpa, addr48 gpa → ept_view (pg_mem s') 0x1000 gpa =
      if decide (gpa / PAGE_SIZE = 0x5000 / PAGE_SIZE) then
        if has 1 EPT_PRESENT
        then Some (0x7000 / PAGE_SIZE * PAGE_SIZE + gpa mod PAGE_SIZE, ept_attr 1) else None
      else ept_view (pg_mem ex_ept) 0x1000 gpa) ex_ept.
Proof.
  apply (install_ept_maps ex_ept 0x1000 ex_tables ex_free 0x7000 0x5000 1).
  - apply ex_ept_inv.
  - unfold addr48. lia.
  - cbn. lia.
  - lia.
  - lia.
Defined.

Lemma ept_gpa2hpa_map_maps_witness :
  wp (ept_gpa2hpa_map 0x1000 0x800000 0x3ff000 0x3000 7 true) (λ _ s',
    (∃ T' l', ept_inv s' 0x1000 T' l') ∧
    (∀ va, addr48 va → ept_view (pg_mem s') 0x1000 va =
      if decide (0x3ff000 <= va < 0x3ff000 + 0x3000) then
        if has 7 EPT_PRESENT then Some (0x800000 + (va - 0x3ff000), ept_attr 7) else None
      else ept_view (pg_mem ex_ept) 0x1000 va) ∧
    ∀ x, 0x800000 <= x < 0x800000 + 0x3000 → rd8 (pg_mem s') x = if true then 0 else rd8 (pg_mem ex_ept) x)
    ex_ept.
Proof.
  apply (ept_gpa2hpa_map_maps ex_ept 0x1000 ex_tables ex_free 0x800000 0x3ff000 0x3000 7 true).
  - apply ex_ept_inv.
  - done.
  - done.
  - done.
  - lia.
  - lia.
  - lia.
  - lia.
  - lia.
  - lia.
  - by vm_compute.
  - intros x Hx t [[π [[= -> ->]|[[= -> ->]|[= -> ->]]]%ex_ept_cases]|Ht%ex_low]; lia.
Defined.
