(* ===== verification/PciConf.v ===== *)
(** * Port I/O and the PCI configuration space

    The [in] and [out] instructions and the memory-mapped accesses are an
    interface.  [Conf1Laws] states the configuration mechanism #1 that the code
    relies on: port 0xCF8 latches an address, port 0xCFC accesses the register
    the latch selects.  What a device does with a value written to it is left
    open ([cf_put]).  The accessors are those of lib/x86/asm/pci.h. *)

From S2P Require Import Prelude Bits.

(** Accesses of [n] bytes: [out n value port], [in n port], and the same for
    memory-mapped registers. *)
Class PortIO (St : Type) := {
  io_out : nat → Z → Z → prog St unit;
  io_in : nat → Z → prog St Z;
  mm_write : nat → Z → Z → prog St unit;   (* value, address *)
  mm_read : nat → Z → prog St Z;
}.

(** Mechanism #1.  [cf_val s a o n]: the [n] bytes at offset [o] of the register
    with the address [a] (enable bit, bus/device/function, register). *)
Class Conf1Laws (St : Type) {io : PortIO St} := {
  cf_addr : St → Z;
  cf_latch : Z → St → St;
  cf_val : St → Z → Z → nat → Z;
  cf_put : St → Z → Z → nat → Z → St;
  cf_out_addr v s : io_out 4 v 0xCF8 s = Ret ((), cf_latch v s);
  cf_in_data n o s : 0 <= o < 4 → io_in n (0xCFC + o) s = Ret (cf_val s (cf_addr s) o n, s);
  cf_out_data n v o s : 0 <= o < 4 → io_out n v (0xCFC + o) s = Ret ((), cf_put s (cf_addr s) o n v);
  cf_addr_latch v s : cf_addr (cf_latch v s) = v;
  cf_val_latch v s a o n : cf_val (cf_latch v s) a o n = cf_val s a o n;
  cf_val_range s a o n : 0 <= cf_val s a o n < 2 ^ (8 * n);
}.

Section Conf.
Context {St : Type} {io : PortIO St}.

(** [((0x1 << 31) | (dev << 8) | reg)], converted to 32 bits; [reg] is a byte. *)
Definition PCI_CONF1_ADDRESS (dev reg : Z) : Z :=
  u32 (Z.lor (Z.lor (Z.shiftl 1 31) (Z.shiftl dev 8)) reg).

Definition pci_config_read (n : nat) (dev reg : Z) : prog St Z :=
  io_out 4 (PCI_CONF1_ADDRESS dev (u8 reg)) 0xCF8;;
  io_in n (0xCFC + 0).

Definition pci_config_write (n : nat) (dev reg val : Z) : prog St unit :=
  io_out 4 (PCI_CONF1_ADDRESS dev (u8 reg)) 0xCF8;;
  io_out n (wrap (8 * n) val) (0xCFC + 0).

Definition pci_config_readb := pci_config_read 1.
Definition pci_config_readw := pci_config_read 2.
Definition pci_config_readl := pci_config_read 4.
Definition pci_config_writeb := pci_config_write 1.
Definition pci_config_writew := pci_config_write 2.
Definition pci_config_writel := pci_config_write 4.

Definition pci_translate_addr (dev addr : Z) : Z := addr.
End Conf.

Section ConfLaws.
Context {St : Type} {io : PortIO St} {laws : Conf1Laws St}.

(** The value of a register, and the state after a write to it. *)
Definition conf_get (s : St) (dev reg : Z) (n : nat) : Z :=
  cf_val s (PCI_CONF1_ADDRESS dev (u8 reg)) 0 n.
Definition conf_set (s : St) (dev reg : Z) (n : nat) (v : Z) : St :=
  cf_put (cf_latch (PCI_CONF1_ADDRESS dev (u8 reg)) s) (PCI_CONF1_ADDRESS dev (u8 reg)) 0 n
    (wrap (8 * n) v).

(** States with the same configuration space: they differ in the latch only. *)
Definition conf_eq (s s' : St) : Prop := ∀ a o n, cf_val s' a o n = cf_val s a o n.

#[export] Instance conf_eq_equiv : Equivalence conf_eq.
Proof.
  split; unfold conf_eq; [done|by intros s s' H a o n; rewrite H|].
  intros s1 s2 s3 H1 H2 a o n. by rewrite H2, H1.
Qed.

#[export] Instance conf_get_proper : Proper (conf_eq ==> eq ==> eq ==> eq ==> eq) conf_get.
Proof. intros s s' H d ? <- r ? <- n ? <-. symmetry. apply H. Qed.

Lemma conf_get_eq s s' dev reg n : conf_eq s s' → conf_get s' dev reg n = conf_get s dev reg n.
Proof. intros H. apply H. Qed.

Lemma conf_eq_trans s1 s2 s3 : conf_eq s1 s2 → conf_eq s2 s3 → conf_eq s1 s3.
Proof. intros. by etrans. Qed.

Lemma wp_config_read n dev reg (Q : Z → St → Prop) s :
  (∀ s', conf_eq s s' → Q (conf_get s dev reg n) s') → wp (pci_config_read n dev reg) Q s.
Proof.
  intros H. unfold wp, pci_config_read, mbind, prog_bind.
  rewrite cf_out_addr, cf_in_data by lia. rewrite cf_addr_latch, cf_val_latch. apply H.
  intros a o k. by rewrite cf_val_latch.
Qed.

Lemma wp_config_write n dev reg v (Q : unit → St → Prop) s :
  Q () (conf_set s dev reg n v) → wp (pci_config_write n dev reg v) Q s.
Proof.
  intros H. unfold wp, pci_config_write, mbind, prog_bind.
  rewrite cf_out_addr, cf_out_data by lia. by rewrite cf_addr_latch.
Qed.

Lemma conf_get_range s dev reg n : 0 <= conf_get s dev reg n < 2 ^ (8 * n).
Proof. apply cf_val_range. Qed.
End ConfLaws.
