(* ===== verification/Pci.v ===== *)
(** * The PCI library: lib/pci.c

    Devices are found, probed and configured through the accessors of the file
    PciConf.  [struct pci_dev] is passed and returned; the functions that only
    print are left out. *)

From S2P Require Import Prelude Bits PciConf AllocPhys.

Definition PCI_VENDOR_ID : Z := 0x00.
Definition PCI_DEVICE_ID : Z := 0x02.
Definition PCI_COMMAND : Z := 0x04.
Definition PCI_COMMAND_MASTER : Z := 0x4.
Definition PCI_BASE_ADDRESS_0 : Z := 0x10.
Definition PCI_BASE_ADDRESS_SPACE_IO : Z := 0x01.
Definition PCI_BASE_ADDRESS_MEM_TYPE_MASK : Z := 0x06.
Definition PCI_BASE_ADDRESS_MEM_TYPE_64 : Z := 0x04.
Definition PCI_BASE_ADDRESS_MEM_MASK : Z := u32 (Z.lnot 0x0f).
Definition PCI_BASE_ADDRESS_IO_MASK : Z := u32 (Z.lnot 0x03).
Definition PCI_CAPABILITY_LIST : Z := 0x34.
Definition PCI_INTERRUPT_LINE : Z := 0x3c.
Definition PCI_CAP_ID_MSI : Z := 0x05.
Definition PCI_CAP_ID_MAX : Z := 0x14.
Definition PCI_MSI_FLAGS : Z := 2.
Definition PCI_MSI_FLAGS_ENABLE : Z := 0x0001.
Definition PCI_MSI_FLAGS_64BIT : Z := 0x0080.
Definition PCI_MSI_ADDRESS_LO : Z := 4.
Definition PCI_MSI_ADDRESS_HI : Z := 8.
Definition PCI_MSI_DATA_32 : Z := 8.
Definition PCI_MSI_DATA_64 : Z := 12.
Definition PCI_BAR_NUM : Z := 6.
Definition PCI_DEVFN_MAX : nat := 256.
Definition PCIDEVADDR_INVALID : Z := 0xffff.

Record pci_dev := Dev { bdf : Z; msi_offset : Z; resource : list Z }.

Section Pci.
Context {St : Type} {io : PortIO St}.

(** [x & mask] as a condition *)
Definition bit_set (x mask : Z) : bool := negb (Z.land x mask =? 0).

(** The body of [while (cap_offset)], with [count] iterations done. *)
Definition pci_cap_walk (dev : pci_dev) (handler : pci_dev → Z → Z → prog St pci_dev) : prog St pci_dev :=
  cap_offset ← pci_config_readb (bdf dev) PCI_CAPABILITY_LIST;
  iter 257 (λ '(dev, cap_offset, count),
    if cap_offset =? 0 then mret (inr dev)
    else
      cap_id ← pci_config_readb (bdf dev) cap_offset;
      assert (cap_id <? PCI_CAP_ID_MAX + 1);;
      dev ← handler dev cap_offset cap_id;
      cap_offset ← pci_config_readb (bdf dev) (cap_offset + 1);
      let count := count + 1 in
      assert (count <=? 255);;
      mret (inl (dev, cap_offset, count))) (dev, cap_offset, 0).

Definition pci_msi_set_enable (dev : pci_dev) (enabled : bool) : prog St unit :=
  let offset := msi_offset dev in
  msi_control ← pci_config_readw (bdf dev) (offset + PCI_MSI_FLAGS);
  let msi_control := if enabled then Z.lor msi_control PCI_MSI_FLAGS_ENABLE
                     else Z.ldiff msi_control PCI_MSI_FLAGS_ENABLE in
  pci_config_writew (bdf dev) (offset + PCI_MSI_FLAGS) msi_control.

Definition pci_setup_msi (dev : pci_dev) (msi_addr msi_data : Z) : prog St bool :=
  if msi_offset dev =? 0 then mret false
  else
    let addr := bdf dev in
    let offset := msi_offset dev in
    msi_control ← pci_config_readw addr (offset + PCI_MSI_FLAGS);
    pci_config_writel addr (offset + PCI_MSI_ADDRESS_LO) (Z.land msi_addr 0xffffffff);;
    (if bit_set msi_control PCI_MSI_FLAGS_64BIT then
       pci_config_writel addr (offset + PCI_MSI_ADDRESS_HI) (u32 (Z.shiftr msi_addr 32));;
       pci_config_writel addr (offset + PCI_MSI_DATA_64) msi_data
     else pci_config_writel addr (offset + PCI_MSI_DATA_32) msi_data);;
    pci_msi_set_enable dev true;;
    mret true.

Definition pci_cmd_set_clr (dev : pci_dev) (set clr : Z) : prog St unit :=
  val ← pci_config_readw (bdf dev) PCI_COMMAND;
  assert (Z.land set clr =? 0);;
  pci_config_writew (bdf dev) PCI_COMMAND (Z.ldiff (Z.lor val set) clr).

Definition pci_dev_exists (dev : Z) : prog St bool :=
  v ← pci_config_readw dev PCI_VENDOR_ID;
  if v =? 0xffff then mret false
  else d ← pci_config_readw dev PCI_DEVICE_ID; mret (negb (d =? 0xffff)).

(** [for (dev = 0; dev < PCI_DEVFN_MAX; ++dev)], [n] devices left *)
Fixpoint find_dev_from (n : nat) (dev vendor_id device_id : Z) : prog St Z :=
  match n with
  | O => mret PCIDEVADDR_INVALID
  | S n' =>
      v ← pci_config_readw dev PCI_VENDOR_ID;
      hit ← (if v =? vendor_id then d ← pci_config_readw dev PCI_DEVICE_ID; mret (d =? device_id)
             else mret false);
      if (hit : bool) then mret dev else find_dev_from n' (u16 (dev + 1)) vendor_id device_id
  end.

Definition pci_find_dev (vendor_id device_id : Z) : prog St Z :=
  find_dev_from PCI_DEVFN_MAX 0 vendor_id device_id.

Definition pci_bar_mask (bar : Z) : Z :=
  if bit_set bar PCI_BASE_ADDRESS_SPACE_IO then PCI_BASE_ADDRESS_IO_MASK else PCI_BASE_ADDRESS_MEM_MASK.

(** [ASSERT_BAR_NUM] *)
Definition ASSERT_BAR_NUM (bar_num : Z) : prog St unit :=
  assert ((0 <=? bar_num) && (bar_num <? PCI_BAR_NUM)).

Definition bar_off (bar_num : Z) : Z := PCI_BASE_ADDRESS_0 + bar_num * 4.

Definition pci_bar_get (dev : pci_dev) (bar_num : Z) : prog St Z :=
  ASSERT_BAR_NUM bar_num;;
  pci_config_readl (bdf dev) (bar_off bar_num).

Definition pci_bar_is64 (dev : pci_dev) (bar_num : Z) : prog St bool :=
  bar ← pci_bar_get dev bar_num;
  if bit_set bar PCI_BASE_ADDRESS_SPACE_IO then mret false
  else mret (Z.land bar PCI_BASE_ADDRESS_MEM_TYPE_MASK =? PCI_BASE_ADDRESS_MEM_TYPE_64).

(** [__pci_bar_get_addr] *)
Definition bar_get_addr (dev : pci_dev) (bar_num : Z) : prog St Z :=
  bar ← pci_bar_get dev bar_num;
  let addr := Z.land bar (pci_bar_mask bar) in
  is64 ← pci_bar_is64 dev bar_num;
  addr ← (if (is64 : bool) then
            hi ← pci_bar_get dev (bar_num + 1); mret (Z.lor addr (u64 (Z.shiftl hi 32)))
          else mret addr);
  let phys_addr := pci_translate_addr (bdf dev) addr in
  assert (negb (phys_addr =? INVALID_PHYS_ADDR));;
  mret phys_addr.

(** [dev->resource[i]]: undefined outside the array *)
Definition get_resource (dev : pci_dev) (i : Z) : prog St Z :=
  if i <? 0 then stop_with Undef
  else match resource dev !! Z.to_nat i with Some r => mret r | None => stop_with Undef end.

Definition set_resource (dev : pci_dev) (i v : Z) : prog St pci_dev :=
  if (i <? 0) || (PCI_BAR_NUM <=? i) then stop_with Undef
  else mret (Dev (bdf dev) (msi_offset dev) (<[Z.to_nat i := v]> (resource dev))).

Definition pci_bar_get_addr (dev : pci_dev) (bar_num : Z) : prog St Z :=
  ASSERT_BAR_NUM bar_num;; get_resource dev bar_num.

Definition pci_bar_set_addr (dev : pci_dev) (bar_num addr : Z) : prog St pci_dev :=
  let off := bar_off bar_num in
  assert (negb (addr =? INVALID_PHYS_ADDR));;
  r ← get_resource dev bar_num;
  assert (negb (r =? INVALID_PHYS_ADDR));;
  ASSERT_BAR_NUM bar_num;;
  is64 ← pci_bar_is64 dev bar_num;
  (if (is64 : bool) then ASSERT_BAR_NUM (bar_num + 1) else assert (Z.shiftr addr 32 =? 0));;
  pci_config_writel (bdf dev) off (u32 addr);;
  dev ← set_resource dev bar_num addr;
  is64 ← pci_bar_is64 dev bar_num;
  if (is64 : bool) then
    pci_config_writel (bdf dev) (off + 4) (u32 (Z.shiftr addr 32));;
    r ← get_resource dev bar_num;
    set_resource dev (bar_num + 1) r
  else mret dev.

Definition pci_bar_size_helper (dev : pci_dev) (bar_num : Z) : prog St Z :=
  let off := bar_off bar_num in
  bar ← pci_config_readl (bdf dev) off;
  pci_config_writel (bdf dev) off 0xffffffff;;
  val ← pci_config_readl (bdf dev) off;
  pci_config_writel (bdf dev) off bar;;
  mret val.

Definition pci_bar_size (dev : pci_dev) (bar_num : Z) : prog St Z :=
  size ← pci_bar_size_helper dev bar_num;
  if size =? 0 then mret 0
  else
    bar ← pci_bar_get dev bar_num;
    let size := Z.land size (pci_bar_mask bar) in
    is64 ← pci_bar_is64 dev bar_num;
    if (is64 : bool) then
      size64 ← pci_bar_size_helper dev (bar_num + 1);
      let size64 := Z.lor (u64 (Z.shiftl size64 32)) size in
      mret (u64 (not64 size64 + 1))
    else mret (u32 (u32 (Z.lnot size) + 1)).

Definition pci_bar_is_memory (dev : pci_dev) (bar_num : Z) : prog St bool :=
  bar ← pci_bar_get dev bar_num; mret (negb (bit_set bar PCI_BASE_ADDRESS_SPACE_IO)).

Definition pci_bar_is_valid (dev : pci_dev) (bar_num : Z) : prog St bool :=
  r ← get_resource dev bar_num; mret (negb (r =? INVALID_PHYS_ADDR)).

(** [for (i = 0; i < PCI_BAR_NUM; i++)] of [pci_dev_init] *)
Fixpoint init_bars (fuel : nat) (dev : pci_dev) (i : Z) : prog St pci_dev :=
  match fuel with
  | O => stop_with NoFuel
  | S f =>
      if i <? PCI_BAR_NUM then
        size ← pci_bar_size dev i;
        if negb (size =? 0) then
          addr ← bar_get_addr dev i;
          dev ← set_resource dev i addr;
          is64 ← pci_bar_is64 dev i;
          if (is64 : bool) then
            assert (i + 1 <? PCI_BAR_NUM);;
            r ← get_resource dev i;
            dev ← set_resource dev (i + 1) r;
            init_bars f dev (i + 2)
          else init_bars f dev (i + 1)
        else
          dev ← set_resource dev i INVALID_PHYS_ADDR;
          init_bars f dev (i + 1)
      else mret dev
  end.

Definition pci_dev_init (bdf : Z) : prog St pci_dev := init_bars 7 (Dev bdf 0 (replicate 6 0)) 0.

Definition pci_intx_line (dev : pci_dev) : prog St Z := pci_config_readb (bdf dev) PCI_INTERRUPT_LINE.

Definition pci_cap_setup (dev : pci_dev) (cap_offset cap_id : Z) : prog St pci_dev :=
  if cap_id =? PCI_CAP_ID_MSI then mret (Dev (bdf dev) (u16 cap_offset) (resource dev)) else mret dev.

Definition pci_enable_defaults (dev : pci_dev) : prog St pci_dev :=
  pci_cmd_set_clr dev PCI_COMMAND_MASTER 0;;
  pci_cap_walk dev pci_cap_setup.
End Pci.

(** ** Base address registers *)

Inductive bar_kind := BarIO | Bar32 (prefetch : bool) | Bar64 (prefetch : bool).

(** The read-only low bits of the register. *)
Definition bar_flags (b : bar_kind) : Z :=
  match b with BarIO => 1 | Bar32 p => if p then 8 else 0 | Bar64 p => if p then 12 else 4 end.

Definition bar_is64 (b : bar_kind) : bool := match b with Bar64 _ => true | _ => false end.

(** The sizes a register can have: 2^k bytes. *)
Definition bar_size_ok (b : bar_kind) (k : Z) : Prop :=
  match b with BarIO => 2 <= k < 32 | Bar32 _ => 4 <= k < 32 | Bar64 _ => 4 <= k < 64 end.

Lemma clear_low v k : 0 <= k → Z.ldiff v (2 ^ k - 1) = v - v mod 2 ^ k.
Proof.
  intros Hk. rewrite Z.sub_1_r, <- Z.ones_equiv, Z.ldiff_ones_r by lia.
  rewrite Z.shiftl_mul_pow2, Z.shiftr_div_pow2 by lia.
  assert (0 < 2 ^ k) by (apply Z.pow_pos_nonneg; lia). pose proof (Z.div_mod v (2 ^ k)). lia.
Qed.

(** The value of a register: an address with clear low bits, and the flags. *)
Definition reg_val (v k flags : Z) : Z := Z.lor (Z.ldiff v (2 ^ k - 1)) flags.

Lemma pow2_ge k j : 0 <= j <= k → 2 ^ j <= 2 ^ k ∧ ∃ c, 0 < c ∧ 2 ^ k = c * 2 ^ j.
Proof.
  intros Hj. split; [apply Z.pow_le_mono_r; lia|]. exists (2 ^ (k - j)).
  split; [apply Z.pow_pos_nonneg; lia|]. rewrite <- Z.pow_add_r by lia. f_equal. lia.
Qed.

Lemma reg_val_eq v k flags j :
  0 <= j <= k → 0 <= flags < 2 ^ j → reg_val v k flags = v - v mod 2 ^ k + flags.
Proof.
  intros Hj Hf. unfold reg_val. rewrite clear_low by lia.
  destruct (pow2_ge k j Hj) as (_ & c & Hc & E).
  assert (v - v mod 2 ^ k = v / 2 ^ k * c * 2 ^ j) as ->.
  { assert (0 < 2 ^ k) by (apply Z.pow_pos_nonneg; lia). pose proof (Z.div_mod v (2 ^ k)).
    rewrite <- Z.mul_assoc, <- E. lia. }
  apply lor_add; lia.
Qed.

Lemma reg_val_idem v k flags j :
  0 <= j <= k → 0 <= flags < 2 ^ j → reg_val (reg_val v k flags) k flags = reg_val v k flags.
Proof.
  intros Hj Hf. rewrite !(reg_val_eq _ k flags j) by done.
  destruct (pow2_ge k j Hj) as (Hle & _).
  assert ((v - v mod 2 ^ k + flags) mod 2 ^ k = flags) as ->; [|lia].
  assert (0 < 2 ^ k) by lia. pose proof (Z.div_mod v (2 ^ k)).
  symmetry. apply (Z.mod_unique _ _ (v / 2 ^ k)); lia.
Qed.

Lemma reg_val_range v k flags j :
  0 <= j <= k → k <= 32 → 0 <= flags < 2 ^ j → 0 <= v < 2 ^ 32 → 0 <= reg_val v k flags < 2 ^ 32.
Proof.
  intros Hj Hk Hf Hv. unfold reg_val. destruct (pow2_ge 32 j ltac:(lia)) as [H1 _].
  assert (0 < 2 ^ k) by (apply Z.pow_pos_nonneg; lia).
  pose proof (Z.mod_pos_bound v (2 ^ k)). pose proof (Z.mod_le v (2 ^ k)).
  apply lor_range; try lia. rewrite clear_low by lia. lia.
Qed.

(** Masking the flags off. *)
Lemma reg_val_mask v k flags j m :
  0 <= j <= k → k <= 32 → 0 <= flags < 2 ^ j → 0 <= v < 2 ^ 32 → m = u32 (Z.lnot (2 ^ j - 1)) →
  Z.land (reg_val v k flags) m = v - v mod 2 ^ k.
Proof.
  intros Hj Hk Hf Hv ->. pose proof (reg_val_range v k flags j Hj Hk Hf Hv) as Hr.
  assert (u32 (Z.lnot (2 ^ j - 1)) = Z.ldiff (Z.ones 32) (2 ^ j - 1)) as ->.
  { rewrite Z.sub_1_r, <- Z.ones_equiv. apply Z.bits_inj'. intros i Hi.
    rewrite testbit_wrap, Z.lnot_spec, Z.ldiff_spec, !testbit_ones by lia. zcases; done || lia. }
  assert (Z.land (reg_val v k flags) (Z.ldiff (Z.ones 32) (2 ^ j - 1)) =
    Z.ldiff (reg_val v k flags) (2 ^ j - 1)) as ->.
  { rewrite <- (wrap_small 32 (reg_val v k flags)) by lia. apply Z.bits_inj'. intros i Hi.
    rewrite Z.land_spec, !Z.ldiff_spec, !testbit_wrap, !testbit_ones by lia.
    zcases; cbn; rewrite ?andb_true_r, ?andb_false_r; try done; lia. }
  rewrite clear_low, (reg_val_eq v k flags j) by lia.
  destruct (pow2_ge k j Hj) as (Hle & c & Hc & E).
  assert ((v - v mod 2 ^ k + flags) mod 2 ^ j = flags) as ->; [|lia].
  assert (0 < 2 ^ k) by lia. pose proof (Z.div_mod v (2 ^ k)).
  symmetry. apply (Z.mod_unique _ _ (v / 2 ^ k * c)); [lia|]. nia.
Qed.

(** The flag bits of a register. *)
Lemma reg_val_flags v k flags j mask :
  0 <= j <= k → 0 <= flags < 2 ^ j → 0 <= mask < 2 ^ j →
  Z.land (reg_val v k flags) mask = Z.land flags mask.
Proof.
  intros Hj Hf Hm. unfold reg_val. rewrite Z.land_lor_distr_l.
  assert (Z.land (Z.ldiff v (2 ^ k - 1)) mask = 0) as ->; [|apply Z.lor_0_l].
  rewrite <- (wrap_small j mask) by lia. rewrite Z.sub_1_r, <- Z.ones_equiv.
  apply Z.bits_inj'. intros i Hi.
  rewrite Z.land_spec, Z.ldiff_spec, testbit_wrap, testbit_ones, Z.bits_0 by lia.
  zcases; cbn; rewrite ?andb_false_r; try done; lia.
Qed.

(** The bits of the two registers that select the size. *)
Section BarBits.
Context (b : bar_kind) (k : Z) (Hk : bar_size_ok b k).

Definition k_lo : Z := Z.min k 32.

Definition k_hi : Z := Z.max (k - 32) 0.

Definition flag_bits : Z := match b with BarIO => 2 | _ => 4 end.

Lemma flag_bits_ok : 0 <= flag_bits <= k_lo ∧ 0 <= bar_flags b < 2 ^ flag_bits ∧ k_lo <= 32.
Proof using Hk.
  unfold flag_bits, k_lo, bar_size_ok in *. destruct b as [|[]|[]]; cbn in *; lia.
Qed.

Lemma mask_of v :
  0 <= v < 2 ^ 32 → pci_bar_mask (reg_val v k_lo (bar_flags b)) = u32 (Z.lnot (2 ^ flag_bits - 1)).
Proof using Hk.
  intros Hv. destruct flag_bits_ok as (H1 & H2 & H3). unfold pci_bar_mask, bit_set.
  rewrite (reg_val_flags _ _ _ flag_bits); [|done|done|].
  - clear. unfold flag_bits. by destruct b as [|[]|[]].
  - clear. unfold flag_bits, PCI_BASE_ADDRESS_SPACE_IO. destruct b; lia.
Qed.

Lemma is64_of v :
  0 <= v < 2 ^ 32 →
  (if bit_set (reg_val v k_lo (bar_flags b)) PCI_BASE_ADDRESS_SPACE_IO then false
   else Z.land (reg_val v k_lo (bar_flags b)) PCI_BASE_ADDRESS_MEM_TYPE_MASK =?
        PCI_BASE_ADDRESS_MEM_TYPE_64) = bar_is64 b.
Proof using Hk.
  intros Hv. destruct flag_bits_ok as (H1 & H2 & H3). unfold bit_set.
  rewrite (reg_val_flags _ _ _ flag_bits PCI_BASE_ADDRESS_SPACE_IO); [|done|done|].
  2: { clear. unfold flag_bits, PCI_BASE_ADDRESS_SPACE_IO. destruct b; lia. }
  unfold flag_bits in *.
  destruct b as [|p|p]; [done|..]; rewrite (reg_val_flags _ _ _ 4); try done;
    unfold PCI_BASE_ADDRESS_MEM_TYPE_MASK; try lia; destruct p; try done; cbn in *; lia.
Qed.
End BarBits.

Section Bars.
Context {St : Type} {io : PortIO St} {laws : Conf1Laws St}.
Context (d : pci_dev) (n : Z) (b : bar_kind) (k : Z).
Context (Hn : 0 <= n < 6) (Hn64 : bar_is64 b = true → n + 1 < 6) (Hk : bar_size_ok b k).

Definition lo (s : St) : Z := conf_get s (bdf d) (bar_off n) 4.
Definition hi (s : St) : Z := conf_get s (bdf d) (bar_off (n + 1)) 4.

(** The base address register of a device that decodes 2^k bytes: the address
    bits below the size read as 0 and the flags are read only; the second
    register of a 64-bit one holds the high half of the address. *)
Record bar_law : Prop := {
  bl_lo s v : 0 <= v < 2 ^ 32 →
    lo (conf_set s (bdf d) (bar_off n) 4 v) = reg_val v (k_lo k) (bar_flags b);
  bl_hi s v : bar_is64 b = true → 0 <= v < 2 ^ 32 →
    hi (conf_set s (bdf d) (bar_off (n + 1)) 4 v) = reg_val v (k_hi k) 0;
  bl_lo_hi s v : bar_is64 b = true → hi (conf_set s (bdf d) (bar_off n) 4 v) = hi s;
  bl_hi_lo s v : bar_is64 b = true → lo (conf_set s (bdf d) (bar_off (n + 1)) 4 v) = lo s;
}.

(** A state in which the registers hold such values. *)
Definition bar_holds (s : St) : Prop :=
  (∃ v, 0 <= v < 2 ^ 32 ∧ lo s = reg_val v (k_lo k) (bar_flags b)) ∧
  (bar_is64 b = true → ∃ v, 0 <= v < 2 ^ 32 ∧ hi s = reg_val v (k_hi k) 0).

Context (Hlaw : bar_law).

Lemma lo_eq s s' : conf_eq s s' → lo s' = lo s.
Proof using Type. intros H. apply H. Qed.
Lemma hi_eq s s' : conf_eq s s' → hi s' = hi s.
Proof using Type. intros H. apply H. Qed.

Lemma holds_eq s s' : lo s' = lo s → hi s' = hi s → bar_holds s → bar_holds s'.
Proof using Type. unfold bar_holds. by intros -> ->. Qed.

Lemma bar_get_wp s :
  wp (pci_bar_get d n) (λ r s', r = lo s ∧ conf_eq s s') s.
Proof using Type*.
  unfold pci_bar_get, ASSERT_BAR_NUM, PCI_BAR_NUM. wstep. wstep; [lia|].
  apply wp_config_read. done.
Qed.

Lemma bar_get_hi_wp s :
  bar_is64 b = true → wp (pci_bar_get d (n + 1)) (λ r s', r = hi s ∧ conf_eq s s') s.
Proof using Type*.
  intros H. specialize (Hn64 H). unfold pci_bar_get, ASSERT_BAR_NUM, PCI_BAR_NUM.
  wstep. wstep; [lia|]. apply wp_config_read. done.
Qed.

Lemma bar_is64_wp s :
  bar_holds s → wp (pci_bar_is64 d n) (λ r s', r = bar_is64 b ∧ conf_eq s s') s.
Proof using Type*.
  intros ((v & Hv & E) & _). unfold pci_bar_is64. wstep.
  eapply wp_mono; [apply bar_get_wp|]. intros r s' [-> Heq].
  pose proof (is64_of b k Hk v Hv) as H. rewrite <- E in H. destruct (bit_set (lo s) _); wstep; done.
Qed.

(** Writing all ones, reading and restoring. *)
Lemma size_helper_lo s :
  bar_holds s →
  wp (pci_bar_size_helper d n) (λ r s', r = reg_val (2 ^ 32 - 1) (k_lo k) (bar_flags b) ∧
    lo s' = lo s ∧ (bar_is64 b = true → hi s' = hi s)) s.
Proof using Type*.
  intros ((v & Hv & E) & _). destruct (flag_bits_ok b k Hk) as (H1 & H2 & H3).
  unfold pci_bar_size_helper. wstep. apply wp_config_read. intros s1 Eq1. fold (lo s).
  wstep. apply wp_config_write. wstep. apply wp_config_read. intros s2 Eq2.
  fold (lo (conf_set s1 (bdf d) (bar_off n) 4 4294967295)).
  rewrite (bl_lo Hlaw) by lia. wstep. apply wp_config_write. wstep. split; [done|].
  pose proof (reg_val_range v (k_lo k) (bar_flags b) (flag_bits b) H1 H3 H2 Hv) as Hr. rewrite <- E in Hr. split.
  - rewrite (bl_lo Hlaw) by done. rewrite E. by apply (reg_val_idem _ _ _ (flag_bits b)).
  - intros H. rewrite (bl_lo_hi Hlaw), (hi_eq _ _ Eq2), (bl_lo_hi Hlaw), (hi_eq _ _ Eq1) by done. done.
Qed.

Lemma size_helper_hi s :
  bar_holds s → bar_is64 b = true →
  wp (pci_bar_size_helper d (n + 1)) (λ r s', r = reg_val (2 ^ 32 - 1) (k_hi k) 0 ∧
    lo s' = lo s ∧ hi s' = hi s) s.
Proof using Type*.
  intros (_ & Hh) H64. destruct (Hh H64) as (v & Hv & E).
  assert (0 <= 0 <= (k_hi k) ∧ (k_hi k) <= 32) as [H1 H3].
  { unfold k_hi, bar_size_ok in *. destruct b; lia. }
  unfold pci_bar_size_helper. wstep. apply wp_config_read. intros s1 Eq1. fold (hi s).
  wstep. apply wp_config_write. wstep. apply wp_config_read. intros s2 Eq2.
  fold (hi (conf_set s1 (bdf d) (bar_off (n + 1)) 4 4294967295)).
  rewrite (bl_hi Hlaw) by (done || lia). wstep. apply wp_config_write. wstep. split; [done|].
  pose proof (reg_val_range v (k_hi k) 0 0 H1 H3 ltac:(lia) Hv) as Hr. rewrite <- E in Hr. split.
  - rewrite (bl_hi_lo Hlaw), (lo_eq _ _ Eq2), (bl_hi_lo Hlaw), (lo_eq _ _ Eq1) by done. done.
  - rewrite (bl_hi Hlaw) by done. rewrite E. apply (reg_val_idem _ _ _ 0); lia.
Qed.

(** The size that the all-ones value gives. *)
Lemma ones_low j : 0 <= j <= 32 → (2 ^ 32 - 1) mod 2 ^ j = 2 ^ j - 1.
Proof using Type.
  intros Hj. destruct (pow2_ge 32 j Hj) as (H1 & c & Hc & E). rewrite E.
  assert (0 < 2 ^ j) by (apply Z.pow_pos_nonneg; lia).
  symmetry. apply (Z.mod_unique _ _ (c - 1)); [lia|]. nia.
Qed.

Lemma bar_size_wp s :
  bar_holds s →
  wp (pci_bar_size d n) (λ r s', r = 2 ^ k ∧ lo s' = lo s ∧ (bar_is64 b = true → hi s' = hi s)) s.
Proof using Type*.
  intros Hs. destruct (flag_bits_ok b k Hk) as (H1 & H2 & H3).
  unfold pci_bar_size. wstep. eapply wp_mono; [by apply size_helper_lo|].
  intros size s1 (-> & El & Eh). pose proof (ones_low (k_lo k) ltac:(lia)) as Hones.
  assert (reg_val (2 ^ 32 - 1) (k_lo k) (bar_flags b) ≠ 0) as Hnz.
  { rewrite (reg_val_eq _ _ _ (flag_bits b)) by done. rewrite Hones.
    destruct (pow2_ge 32 (k_lo k) ltac:(lia)) as [Hle _].
    unfold k_lo, bar_size_ok in *. destruct b as [|p|p]; cbn [bar_flags] in *; [lia| |destruct p; lia].
    assert (2 ^ (k_lo k) < 2 ^ 32) by (apply Z.pow_lt_mono_r; unfold k_lo; lia). unfold k_lo in *.
    destruct p; lia. }
  rewrite (proj2 (Z.eqb_neq _ 0) Hnz). wstep. eapply wp_mono; [apply bar_get_wp|].
  intros bar s2 [-> Eq2]. rewrite El. destruct Hs as ((v & Hv & E) & Hh).
  assert (bar_holds s2) as Hs2.
  { split; [exists v; by rewrite (lo_eq _ _ Eq2), El|]. intros H. rewrite (hi_eq _ _ Eq2), Eh by done.
    by apply Hh. }
  wstep. eapply wp_mono; [by apply bar_is64_wp|]. intros is64 s3 [-> Eq3].
  rewrite E, (mask_of b k Hk) by done.
  rewrite (reg_val_mask (2 ^ 32 - 1) (k_lo k) _ (flag_bits b) _ H1 H3 H2); [rewrite Hones|lia|done].
  replace (2 ^ 32 - 1 - (2 ^ (k_lo k) - 1)) with (2 ^ 32 - 2 ^ (k_lo k)) by lia.
  assert (0 < 2 ^ (k_lo k) <= 2 ^ 32) as Hp
    by (split; [apply Z.pow_pos_nonneg; lia|apply Z.pow_le_mono_r; lia]).
  case_eq (bar_is64 b); intros E64.
  - assert (bar_holds s3) as Hs3.
    { eapply holds_eq; [by apply lo_eq|by apply hi_eq|]. done. }
    wstep. eapply wp_mono; [by apply size_helper_hi|]. intros size64 s4 (-> & El4 & Eh4). wstep.
    split; [|split; [by rewrite El4, (lo_eq _ _ Eq3), (lo_eq _ _ Eq2), El, <- E|]].
    2: { intros _. rewrite Eh4, (hi_eq _ _ Eq3), (hi_eq _ _ Eq2). by apply Eh. }
    assert (0 <= (k_hi k) <= 32) by (unfold k_hi, bar_size_ok in *; destruct b; lia).
    rewrite (reg_val_eq _ (k_hi k) 0 0) by (cbn; lia). rewrite (ones_low (k_hi k)) by lia.
    assert (0 < 2 ^ (k_hi k) <= 2 ^ 32) as Hph
      by (split; [apply Z.pow_pos_nonneg; lia|apply Z.pow_le_mono_r; lia]).
    rewrite Z.shiftl_mul_pow2 by lia.
    rewrite (wrap_small 64 ((2 ^ 32 - 1 - (2 ^ (k_hi k) - 1) + 0) * 2 ^ 32)) by lia. unfold not64.
    destruct (decide (k < 32)).
    + assert ((k_hi k) = 0 ∧ (k_lo k) = k) as [Ea Eb] by (unfold k_hi, k_lo; lia).
      rewrite Ea, Eb in *.
      change (2 ^ 0) with 1. rewrite lor_add by lia. rewrite wrap_small by lia. lia.
    + assert ((k_lo k) = 32) as -> by (unfold k_lo; lia). rewrite Z.sub_diag, Z.lor_0_r.
      assert (2 ^ k = 2 ^ (k_hi k) * 2 ^ 32) as ->
        by (rewrite <- Z.pow_add_r by lia; f_equal; unfold k_hi; lia).
      assert ((k_hi k) < 32) by (unfold k_hi, bar_size_ok in *; destruct b; lia).
      assert (2 ^ (k_hi k) <= 2 ^ 31) by (apply Z.pow_le_mono_r; lia).
      rewrite wrap_small by lia. lia.
  - wstep. split; [|split; [by rewrite (lo_eq _ _ Eq3), (lo_eq _ _ Eq2), El, <- E|done]].
    assert ((k_lo k) = k ∧ k < 32) as [Ea Hk32]
      by (unfold k_lo, bar_size_ok in *; destruct b; cbn in E64; lia || done).
    rewrite Ea in *.
    assert (2 ^ k <= 2 ^ 31) by (apply Z.pow_le_mono_r; lia).
    assert (u32 (Z.lnot (2 ^ 32 - 2 ^ k)) = 2 ^ k - 1) as ->.
    { unfold Z.lnot. symmetry. apply (Z.mod_unique _ _ (-1)); lia. }
    rewrite wrap_small by lia. lia.
Qed.

(** *** Addresses *)

Lemma holds_set_lo s v : 0 <= v < 2 ^ 32 → bar_holds s → bar_holds (conf_set s (bdf d) (bar_off n) 4 v).
Proof using Type*.
  intros Hv [_ Hh]. split; [exists v; by rewrite (bl_lo Hlaw)|].
  intros H. rewrite (bl_lo_hi Hlaw) by done. by apply Hh.
Qed.

Lemma lo_addr addr :
  0 <= addr → addr mod 2 ^ k = 0 → Z.land (reg_val (u32 addr) (k_lo k) (bar_flags b)) (u32 (Z.lnot (2 ^ (flag_bits b) - 1))) = u32 addr.
Proof using Type*.
  intros H0 Ha. destruct (flag_bits_ok b k Hk) as (H1 & H2 & H3).
  rewrite (reg_val_mask (u32 addr) (k_lo k) _ (flag_bits b) _ H1 H3 H2); [|by apply wrap_range|done].
  enough (u32 addr mod 2 ^ (k_lo k) = 0) as ->; [lia|].
  destruct (pow2_ge 32 (k_lo k) ltac:(lia)) as (_ & c & Hc & Ec). unfold wrap.
  assert ((k_lo k) <= k) by (unfold k_lo; lia).
  destruct (pow2_ge k (k_lo k) ltac:(lia)) as (_ & e & He & Ee).
  assert (0 < 2 ^ (k_lo k)) by (apply Z.pow_pos_nonneg; lia).
  rewrite Z.mod_mod_divide by (exists c; lia).
  apply Z.mod_divide; [lia|]. apply (Z.divide_trans _ (2 ^ k)); [exists e; lia|].
  apply Z.mod_divide; [|done]. nia.
Qed.

Lemma hi_addr addr :
  bar_is64 b = true → 0 <= addr < 2 ^ 64 → addr mod 2 ^ k = 0 →
  reg_val (u32 (Z.shiftr addr 32)) (k_hi k) 0 = Z.shiftr addr 32.
Proof using Type*.
  intros H64 H0 Ha. rewrite Z.shiftr_div_pow2 by lia.
  assert (0 <= addr / 2 ^ 32 < 2 ^ 32) as Hr by (split; [apply Z.div_pos|apply Z.div_lt_upper_bound]; lia).
  rewrite wrap_small by lia.
  assert (0 <= (k_hi k)) by (unfold k_hi; lia). rewrite (reg_val_eq _ (k_hi k) 0 0) by (cbn; lia).
  enough ((addr / 2 ^ 32) mod 2 ^ (k_hi k) = 0) as ->; [lia|].
  destruct (decide ((k_hi k) = 0)) as [->|]; [apply Z.mod_1_r|].
  assert (k = (k_hi k) + 32) as Ek by (unfold k_hi in *; lia).
  assert (0 < 2 ^ (k_hi k)) by (apply Z.pow_pos_nonneg; lia).
  apply Z.mod_divide in Ha as [q Hq]; [|apply Z.pow_nonzero; unfold bar_size_ok in Hk; destruct b; lia].
  rewrite Ek, Z.pow_add_r in Hq by lia. rewrite Hq, Z.mul_assoc, Z.div_mul by lia. apply Z.mod_mul. lia.
Qed.

Lemma not_invalid addr : addr mod 2 ^ k = 0 → addr ≠ INVALID_PHYS_ADDR.
Proof using Hk.
  intros Ha ->. assert (2 <= k) by (revert Hk; clear; unfold bar_size_ok; destruct b; lia).
  destruct (pow2_ge k 2 ltac:(lia)) as (_ & c & Hc & Ec). rewrite Ec in Ha.
  apply Z.mod_divide in Ha as [q Hq]; [|lia]. unfold INVALID_PHYS_ADDR in Hq. lia.
Qed.

Lemma bar_get_addr_wp s addr :
  0 <= addr < 2 ^ (if bar_is64 b then 64 else 32) → addr mod 2 ^ k = 0 →
  lo s = reg_val (u32 addr) (k_lo k) (bar_flags b) →
  (bar_is64 b = true → hi s = reg_val (u32 (Z.shiftr addr 32)) (k_hi k) 0) →
  wp (bar_get_addr d n) (λ r s', r = addr ∧ conf_eq s s') s.
Proof using Type*.
  intros Hr Ha El Eh. unfold bar_get_addr. wstep. eapply wp_mono; [apply bar_get_wp|].
  intros ? s1 [-> E1]. assert (0 <= u32 addr < 2 ^ 32) by (by apply wrap_range).
  assert (bar_holds s1) as Hs.
  { split; [exists (u32 addr); by rewrite (lo_eq _ _ E1)|].
    intros H64. exists (u32 (Z.shiftr addr 32)). rewrite (hi_eq _ _ E1). split; [by apply wrap_range|auto]. }
  wstep. eapply wp_mono; [by apply bar_is64_wp|]. intros ? s2 [-> E2].
  assert (0 <= addr) by lia. rewrite El, (mask_of b k Hk), lo_addr by done.
  pose proof (not_invalid addr Ha) as Hinv.
  wstep. apply (wp_mono _ (λ r s', r = addr ∧ conf_eq s s')).
  - case_eq (bar_is64 b); intros H64; rewrite H64 in Hr.
    + wstep. eapply wp_mono; [by apply bar_get_hi_wp|]. intros ? s3 [-> E3]. wstep. split.
      2: { eapply conf_eq_trans; [exact E1|]. by eapply conf_eq_trans. }
      rewrite (hi_eq _ _ E2), (hi_eq _ _ E1), Eh, hi_addr by done.
      rewrite Z.shiftl_mul_pow2, Z.shiftr_div_pow2 by lia. unfold wrap.
      pose proof (Z.div_mod addr (2 ^ 32)). pose proof (Z.mod_pos_bound addr (2 ^ 32)).
      rewrite (Z.mod_small _ (2 ^ 64)) by lia. rewrite Z.lor_comm, lor_add by lia. lia.
    + wstep. split; [|by eapply conf_eq_trans]. apply wrap_small. lia.
  - intros r s3 [-> E3]. unfold pci_translate_addr. wstep. wstep; [|by wstep].
    by apply negb_true_iff, Z.eqb_neq.
Qed.

Lemma set_resource_wp d' i v (s : St) :
  0 <= i < 6 → wp (set_resource d' i v)
    (λ r s', r = Dev (bdf d') (msi_offset d') (<[Z.to_nat i := v]> (resource d')) ∧ s' = s) s.
Proof using Type.
  intros H. unfold set_resource, PCI_BAR_NUM.
  destruct (Z.ltb_spec i 0); [lia|]. destruct (Z.leb_spec 6 i); [lia|]. cbn [orb]. by wstep.
Qed.

Lemma get_resource_wp d' i v (s : St) :
  0 <= i → resource d' !! Z.to_nat i = Some v → wp (get_resource d' i) (λ r s', r = v ∧ s' = s) s.
Proof using Type. intros H E. unfold get_resource. destruct (Z.ltb_spec i 0); [lia|]. rewrite E. by wstep. Qed.

(** The resources after the address is set. *)
Definition resources_set (addr : Z) : list Z :=
  let l := <[Z.to_nat n := addr]> (resource d) in
  if bar_is64 b then <[Z.to_nat (n + 1) := addr]> l else l.

Lemma bar_set_addr_wp addr r0 s :
  0 <= addr < 2 ^ (if bar_is64 b then 64 else 32) → addr mod 2 ^ k = 0 →
  length (resource d) = 6%nat → resource d !! Z.to_nat n = Some r0 → r0 ≠ INVALID_PHYS_ADDR →
  bar_holds s →
  wp (pci_bar_set_addr d n addr) (λ d' s', d' = Dev (bdf d) (msi_offset d) (resources_set addr) ∧
    lo s' = reg_val (u32 addr) (k_lo k) (bar_flags b) ∧
    (bar_is64 b = true → hi s' = reg_val (u32 (Z.shiftr addr 32)) (k_hi k) 0)) s.
Proof using Type*.
  intros Hr Ha Hlen Hr0 Hr0v Hs. unfold pci_bar_set_addr.
  assert (0 <= u32 addr < 2 ^ 32) as Hu by (by apply wrap_range).
  assert (0 <= u32 (Z.shiftr addr 32) < 2 ^ 32) as Hu2 by (by apply wrap_range).
  wstep. wstep; [by apply negb_true_iff, Z.eqb_neq, not_invalid|].
  wstep. eapply wp_mono; [apply (get_resource_wp _ _ r0); [lia|done]|]. intros ? ? [-> ->].
  wstep. wstep; [by apply negb_true_iff, Z.eqb_neq|].
  wstep. unfold ASSERT_BAR_NUM at 1, PCI_BAR_NUM. wstep; [lia|].
  wstep. eapply wp_mono; [by apply bar_is64_wp|]. intros ? s1 [-> E1].
  wstep. apply (wp_mono _ (λ _ s', s' = s1)).
  { case_eq (bar_is64 b); intros H64; rewrite H64 in Hr.
    - specialize (Hn64 H64). unfold ASSERT_BAR_NUM, PCI_BAR_NUM. by wstep; [lia|].
    - wstep; [|done]. rewrite Z.shiftr_div_pow2, Z.div_small by lia. done. }
  intros _ ? ->. wstep. apply wp_config_write.
  wstep. eapply wp_mono; [by apply set_resource_wp|]. intros ? ? [-> ->]. cbn [bdf msi_offset resource].
  assert (bar_holds s1) as Hs1 by (by eapply holds_eq; [eapply lo_eq|eapply hi_eq|]).
  wstep. eapply wp_mono; [by apply bar_is64_wp, holds_set_lo|].
  intros ? s2 [-> E2]. unfold resources_set. case_eq (bar_is64 b); intros H64; rewrite ?H64.
  - wstep. replace (bar_off n + 4) with (bar_off (n + 1)) by (unfold bar_off; lia).
    apply wp_config_write. wstep. eapply wp_mono.
    { apply (get_resource_wp _ n addr); [lia|]. cbn [resource].
      apply list_lookup_insert_eq. rewrite Hlen. lia. }
    intros ? ? [-> ->]. eapply wp_mono; [apply set_resource_wp; specialize (Hn64 H64); lia|].
    intros ? ? [-> ->]. cbn [bdf msi_offset resource]. split; [done|].
    split; [by rewrite (bl_hi_lo Hlaw), (lo_eq _ _ E2), (bl_lo Hlaw)|].
    intros _. by rewrite (bl_hi Hlaw).
  - wstep. split; [done|]. split; [by rewrite (lo_eq _ _ E2), (bl_lo Hlaw)|done].
Qed.
End Bars.

(** ** A device to test with

    A configuration space kept as a table of registers, all ones where there is
    none; [rules] says what a
    register keeps of a 32-bit value that is written to it. *)
Record sim := Sim { sim_latch : Z; sim_regs : gmap Z Z }.

Section Sim.
Context (rules : Z → Z → Z).

Definition sim_val (s : sim) (a o : Z) (n : nat) : Z :=
  wrap (8 * n) (Z.shiftr (default 0xffffffff (sim_regs s !! a)) (8 * o)).
Definition sim_put (s : sim) (a o : Z) (n : nat) (v : Z) : sim :=
  Sim (sim_latch s) (<[a := rules a v]> (sim_regs s)).
Definition set_latch (v : Z) (s : sim) : sim := Sim v (sim_regs s).

Definition sim_out (n : nat) (v port : Z) : prog sim unit :=
  if port =? 0xCF8 then modify (set_latch v)
  else modify (λ s, sim_put s (sim_latch s) (port - 0xCFC) n v).
Definition sim_in (n : nat) (port : Z) : prog sim Z :=
  gets (λ s, sim_val s (sim_latch s) (port - 0xCFC) n).

#[local] Instance sim_io : PortIO sim :=
  {| io_out := sim_out; io_in := sim_in; mm_write _ _ _ := mret (); mm_read _ _ := mret 0 |}.

Lemma sim_out_data n v o s : 0 <= o < 4 → sim_out n v (0xCFC + o) s = Ret ((), sim_put s (sim_latch s) o n v).
Proof.
  intros Ho. unfold sim_out. destruct (Z.eqb_spec (0xCFC + o) 0xCF8); [lia|].
  unfold modify. by replace (0xCFC + o - 0xCFC) with o by lia.
Qed.

Lemma sim_in_data n o s : 0 <= o < 4 → sim_in n (0xCFC + o) s = Ret (sim_val s (sim_latch s) o n, s).
Proof. intros Ho. unfold sim_in, gets. by replace (0xCFC + o - 0xCFC) with o by lia. Qed.

Lemma sim_out_addr v s : sim_out 4 v 0xCF8 s = Ret ((), set_latch v s).
Proof. done. Qed.

Lemma sim_val_range s a o n : 0 <= sim_val s a o n < 2 ^ (8 * n).
Proof. apply wrap_range. lia. Qed.

#[local] Instance sim_laws : Conf1Laws sim :=
  {| cf_addr := sim_latch; cf_latch := set_latch; cf_val := sim_val; cf_put := sim_put;
     cf_out_addr := sim_out_addr; cf_in_data := sim_in_data; cf_out_data := sim_out_data;
     cf_addr_latch v s := eq_refl; cf_val_latch v s a o n := eq_refl;
     cf_val_range := sim_val_range |}.

Lemma sim_get_same s dev reg v :
  conf_get (conf_set s dev reg 4 v) dev reg 4 = u32 (rules (PCI_CONF1_ADDRESS dev (u8 reg)) (u32 v)).
Proof.
  unfold conf_get, conf_set, cf_val, cf_put. unfold sim_laws, sim_val, sim_put. cbn [sim_regs].
  rewrite lookup_insert_eq. cbn [from_option id]. by rewrite Z.shiftr_0_r.
Qed.

Lemma sim_get_other s dev reg reg' v :
  PCI_CONF1_ADDRESS dev (u8 reg) ≠ PCI_CONF1_ADDRESS dev (u8 reg') →
  conf_get (conf_set s dev reg 4 v) dev reg' 4 = conf_get s dev reg' 4.
Proof.
  intros H. unfold conf_get, conf_set, cf_val, cf_put. unfold sim_laws, sim_val, sim_put.
  cbn [sim_regs]. by rewrite lookup_insert_ne.
Qed.
End Sim.

(** The device 0x20 with a 64-bit region of 8 GiB in the registers 2 and 3. *)
Definition sim_dev : pci_dev := Dev 0x20 0 (replicate 6 0).
Definition sim_rules (a v : Z) : Z :=
  if a =? PCI_CONF1_ADDRESS 0x20 (bar_off 2) then reg_val v 32 4
  else if a =? PCI_CONF1_ADDRESS 0x20 (bar_off 3) then reg_val v 1 0 else v.
Definition sim_start : sim :=
  Sim 0 {[ PCI_CONF1_ADDRESS 0x20 (bar_off 2) := 4; PCI_CONF1_ADDRESS 0x20 (bar_off 3) := 6 ]}.

Lemma sim_bar_law : bar_law (laws := sim_laws sim_rules) sim_dev 2 (Bar64 false) 33.
Proof.
  split; intros s v.
  - intros Hv. unfold lo. rewrite sim_get_same, (wrap_small 32 v) by lia. apply wrap_small.
    apply (reg_val_range v 32 4 3); lia.
  - intros _ Hv. unfold hi. rewrite sim_get_same, (wrap_small 32 v) by lia. apply wrap_small.
    apply (reg_val_range v 1 0 0); lia.
  - intros _. by apply sim_get_other.
  - intros _. by apply sim_get_other.
Qed.

Lemma sim_bar_holds : bar_holds (laws := sim_laws sim_rules) sim_dev 2 (Bar64 false) 33 sim_start.
Proof. split; [exists 0|intros _; exists 6]; by vm_compute. Qed.

(** C24: for a device whose base address register [n] decodes 2^k bytes (an I/O,
    32-bit or 64-bit region), [pci_bar_size] returns 2^k and leaves the
    registers as they were. *)
Theorem pci_bar_size_correct {St} {io : PortIO St} {laws : Conf1Laws St} d n b k s :
  0 <= n < 6 → (bar_is64 b = true → n + 1 < 6) → bar_size_ok b k →
  bar_law d n b k → bar_holds d n b k s →
  wp (pci_bar_size d n)
    (λ size s', size = 2 ^ k ∧ lo d n s' = lo d n s ∧ (bar_is64 b = true → hi d n s' = hi d n s)) s.
Proof. intros. by apply (bar_size_wp d n b k). Qed.

Lemma pci_bar_size_correct_witness :
  wp (pci_bar_size (io := sim_io sim_rules) sim_dev 2) (λ size _, size = 0x200000000) sim_start.
Proof.
  eapply wp_mono.
  - refine (pci_bar_size_correct (laws := sim_laws sim_rules) sim_dev 2 (Bar64 false) 33 sim_start
      _ _ _ sim_bar_law sim_bar_holds); [lia|done|cbn; lia].
  - by intros a s' (-> & _).
Defined.

Lemma bar_law_bdf {St} {io : PortIO St} {laws : Conf1Laws St} d d' n b k :
  bdf d' = bdf d → bar_law d n b k → bar_law d' n b k.
Proof. intros E [H1 H2 H3 H4]. split; unfold lo, hi in *; rewrite E; assumption. Qed.

(** after [pci_bar_set_addr] of an aligned address the device decodes it
    ([bar_get_addr] reads it back from the registers) and [pci_bar_get_addr]
    gives it for the register, and for the second half of a 64-bit one too. *)
Theorem pci_bar_set_get_addr {St} {io : PortIO St} {laws : Conf1Laws St} d n b k addr s :
  0 <= n < 6 → (bar_is64 b = true → n + 1 < 6) → bar_size_ok b k →
  bar_law d n b k → bar_holds d n b k s →
  0 <= addr < 2 ^ (if bar_is64 b then 64 else 32) → addr mod 2 ^ k = 0 →
  length (resource d) = 6%nat → resource d !! Z.to_nat n ≠ Some INVALID_PHYS_ADDR →
  wp (d' ← pci_bar_set_addr d n addr; a ← bar_get_addr d' n; r ← pci_bar_get_addr d' n; mret (d', a, r))
    (λ '(d', a, r) _, a = addr ∧ r = addr ∧
       resource d' = if bar_is64 b then <[Z.to_nat (n + 1) := addr]> (<[Z.to_nat n := addr]> (resource d))
                     else <[Z.to_nat n := addr]> (resource d)) s.
Proof.
  intros Hn Hn64 Hk Hlaw Hs Hr Ha Hlen Hres.
  destruct (lookup_lt_is_Some_2 (resource d) (Z.to_nat n)) as [r0 Hr0]; [lia|].
  assert (r0 ≠ INVALID_PHYS_ADDR) as Hr0v by (intros ->; done).
  wstep. eapply wp_mono; [by apply (bar_set_addr_wp d n b k Hn Hn64 Hk Hlaw addr r0 s)|].
  intros d' s' (-> & El & Eh). wstep.
  set (d' := Dev _ _ _).
  assert (bar_law d' n b k) as Hlaw' by (by apply (bar_law_bdf d)).
  eapply wp_mono; [by apply (bar_get_addr_wp d' n b k Hn Hn64 Hk Hlaw' s' addr)|].
  intros a s2 [-> _]. wstep. unfold pci_bar_get_addr, ASSERT_BAR_NUM, PCI_BAR_NUM.
  wstep. wstep; [lia|]. eapply wp_mono; [apply (get_resource_wp _ n addr); [lia|]|].
  { unfold d', resources_set. cbn [resource]. destruct (bar_is64 b); [rewrite list_lookup_insert_ne by lia|];
      apply list_lookup_insert_eq; lia. }
  intros ? ? [-> ->]. wstep. done.
Qed.

Lemma pci_bar_set_get_addr_witness :
  wp (d' ← pci_bar_set_addr (io := sim_io sim_rules) sim_dev 2 0x1800000000;
      a ← bar_get_addr (io := sim_io sim_rules) d' 2; r ← pci_bar_get_addr d' 2; mret (d', a, r))
    (λ '(d', a, r) _, a = 0x1800000000 ∧ resource d' = [0; 0; 0x1800000000; 0x1800000000; 0; 0]) sim_start.
Proof.
  eapply wp_mono.
  - refine (pci_bar_set_get_addr (laws := sim_laws sim_rules) sim_dev 2 (Bar64 false) 33 0x1800000000
      sim_start _ _ _ sim_bar_law sim_bar_holds _ _ _ _); try done; cbn; lia.
  - by intros [[d' a] r] s' (-> & -> & ->).
Defined.

(** ** Scanning for a device *)

Section Scan.
Context {St : Type} {io : PortIO St} {laws : Conf1Laws St}.

(** The device answers to the identifiers. *)
Definition has_ids (s : St) (vendor_id device_id dev : Z) : Prop :=
  conf_get s dev PCI_VENDOR_ID 2 = vendor_id ∧ conf_get s dev PCI_DEVICE_ID 2 = device_id.

Lemma has_ids_eq s s' v d dev : conf_eq s s' → has_ids s' v d dev ↔ has_ids s v d dev.
Proof using Type. intros H. unfold has_ids. by rewrite !(conf_get_eq _ _ _ _ _ H). Qed.

Lemma find_dev_from_wp (n : nat) dev v d s :
  0 <= dev → dev + n <= 256 →
  wp (find_dev_from n dev v d) (λ r s', conf_eq s s' ∧
    ((r = PCIDEVADDR_INVALID ∧ ∀ i, dev <= i < dev + n → ¬ has_ids s v d i) ∨
     (dev <= r < dev + n ∧ has_ids s v d r ∧ ∀ i, dev <= i < r → ¬ has_ids s v d i))) s.
Proof using Type.
  revert dev s. induction n as [|n IH]; intros dev s H0 Hn; cbn [find_dev_from].
  { wstep. split; [done|left]. split; [done|lia]. }
  wstep. apply wp_config_read. intros s1 E1. wstep.
  set (hit := bool_decide (has_ids s v d dev)).
  apply (wp_mono _ (λ b s', conf_eq s s' ∧ b = hit)).
  { unfold hit, has_ids. destruct (Z.eqb_spec (conf_get s dev PCI_VENDOR_ID 2) v).
    - wstep. apply wp_config_read. intros s2 E2. wstep. split; [by eapply conf_eq_trans|].
      rewrite (conf_get_eq _ _ _ _ _ E1). destruct (Z.eqb_spec (conf_get s dev PCI_DEVICE_ID 2) d);
        symmetry; [by apply bool_decide_eq_true|]. apply bool_decide_eq_false. by intros [_ ?].
    - wstep. split; [done|]. symmetry. apply bool_decide_eq_false. by intros [? _]. }
  intros b s2 [E2 ->]. unfold hit. case_bool_decide as Hb.
  - wstep. split; [done|right]. split; [lia|]. split; [done|lia].
  - rewrite wrap_small by lia. eapply wp_mono; [apply IH; lia|]. intros r s3 [E3 Hr].
    split; [by eapply conf_eq_trans|]. assert (∀ i, dev <= i → (i = dev ∨ dev + 1 <= i)) by lia.
    destruct Hr as [[-> Hr]|(Hr & Hid & Hno)]; [left|right].
    + split; [done|]. intros i Hi Hi'. destruct (decide (i = dev)) as [->|]; [done|].
      apply (Hr i); [lia|]. by apply (has_ids_eq s).
    + split; [lia|]. split; [by apply (has_ids_eq s s2)|]. intros i Hi Hi'.
      destruct (decide (i = dev)) as [->|]; [done|]. apply (Hno i); [lia|]. by apply (has_ids_eq s).
Qed.

(** [pci_find_dev] returns the first of the 256 functions of bus 0 that has
    the two identifiers, PCIDEVADDR_INVALID if there is none, and changes no
    register. *)
Theorem pci_find_dev_first vendor_id device_id s :
  wp (pci_find_dev vendor_id device_id) (λ r s', conf_eq s s' ∧
    ((r = PCIDEVADDR_INVALID ∧ ∀ i, 0 <= i < 256 → ¬ has_ids s vendor_id device_id i) ∨
     (0 <= r < 256 ∧ has_ids s vendor_id device_id r ∧
      ∀ i, 0 <= i < r → ¬ has_ids s vendor_id device_id i))) s.
Proof using Type. apply (find_dev_from_wp 256 0); unfold PCI_DEVFN_MAX; lia. Qed.
End Scan.

(** ** The capability list *)

Section Caps.
Context {St : Type} {io : PortIO St} {laws : Conf1Laws St}.

Definition cap_id_at (s : St) (dev off : Z) : Z := conf_get s dev off 1.

(** The offsets of the list that starts at [off], if it ends within [n]
    entries and has valid identifiers only. *)
Fixpoint cap_list (n : nat) (s : St) (dev off : Z) : option (list Z) :=
  if off =? 0 then Some []
  else match n with
       | O => None
       | S n' => if cap_id_at s dev off <=? PCI_CAP_ID_MAX
                 then cons off <$> cap_list n' s dev (conf_get s dev (off + 1) 1) else None
       end.

(** The last MSI capability of the list. *)
Definition last_msi (s : St) (dev : Z) : Z → list Z → Z :=
  foldl (λ m off, if cap_id_at s dev off =? PCI_CAP_ID_MSI then off else m).

Definition with_msi (d : pci_dev) (m : Z) : pci_dev := Dev (bdf d) m (resource d).

Lemma cap_setup_wp d off (s s0 : St) :
  0 <= off < 2 ^ 8 →
  wp (pci_cap_setup d off (cap_id_at s0 (bdf d) off))
    (λ d' s', d' = with_msi d (last_msi s0 (bdf d) (msi_offset d) [off]) ∧ s' = s) s.
Proof using Type.
  intros H. unfold pci_cap_setup. cbn. destruct (cap_id_at s0 (bdf d) off =? PCI_CAP_ID_MSI).
  - wstep. by rewrite wrap_small by lia.
  - wstep. by destruct d.
Qed.

Lemma cap_walk_from n fuel d off (s0 s : St) (body := λ '(dev, cap_offset, count),
    if cap_offset =? 0 then mret (inr dev)
    else
      cap_id ← pci_config_readb (bdf dev) cap_offset;
      assert (cap_id <? PCI_CAP_ID_MAX + 1);;
      dev ← pci_cap_setup dev cap_offset cap_id;
      cap_offset ← pci_config_readb (bdf dev) (cap_offset + 1);
      let count := count + 1 in
      assert (count <=? 255);;
      mret (inl (dev, cap_offset, count))) :
  conf_eq s0 s → 0 <= off < 2 ^ 8 → (n + 2 <= fuel)%nat → (n <= 255)%nat →
  wpe (iter fuel body (d, off, 255 - Z.of_nat n))
    (λ d' s', conf_eq s0 s' ∧ ∃ l, cap_list n s0 (bdf d) off = Some l ∧
      d' = with_msi d (last_msi s0 (bdf d) (msi_offset d) l))
    (λ e, e = Halt ∧ cap_list n s0 (bdf d) off = None) s.
Proof using Type.
  revert fuel d off s. induction n as [|n IH]; intros fuel d off s Heq Hoff Hf Hn;
    (destruct fuel as [|fuel]; [lia|]); cbn [iter cap_list];
    apply wpe_bind; unfold body at 1; destruct (Z.eqb_spec off 0) as [->|H0].
  1, 3: apply wpe_ret, wpe_ret; (split; [done|]); exists []; by destruct d.
  - apply wpe_wp, wp_config_read. intros s1 E1. apply wpe_bind, wpe_assert; [|done]. intros _.
    apply wpe_wp. rewrite (conf_get_eq _ _ _ _ _ Heq). eapply wp_mono; [by apply cap_setup_wp|].
    intros d' s2 [-> ->]. apply wpe_wp, wp_config_read. intros s3 E3.
    apply wpe_bind, wpe_assert; [|done]. intros H. apply Z.leb_le in H. lia.
  - apply wpe_wp, wp_config_read. intros s1 E1. apply wpe_bind. unfold cap_id_at at 1.
    rewrite (conf_get_eq _ _ _ _ _ Heq). fold (cap_id_at s0 (bdf d) off).
    apply wpe_assert; intros Hid.
    2: { destruct (Z.leb_spec (cap_id_at s0 (bdf d) off) PCI_CAP_ID_MAX); [|done].
         apply Z.ltb_ge in Hid. lia. }
    apply Z.ltb_lt in Hid. rewrite (proj2 (Z.leb_le _ PCI_CAP_ID_MAX)) by lia.
    apply wpe_wp. eapply wp_mono; [by apply cap_setup_wp|].
    intros d' s2 [-> ->]. apply wpe_wp, wp_config_read. intros s3 E3.
    apply wpe_bind, wpe_assert; [intros _|intros H; apply Z.leb_gt in H; lia].
    apply wpe_ret.
    rewrite (conf_get_eq _ _ _ _ _ E1), (conf_get_eq _ _ _ _ _ Heq). cbn [bdf with_msi].
    replace (255 - Z.of_nat (S n) + 1) with (255 - Z.of_nat n) by lia.
    eapply wpe_mono.
    + apply (IH fuel); [|apply conf_get_range|lia|lia].
      eapply conf_eq_trans; [exact Heq|]. by eapply conf_eq_trans.
    + intros d' s4 (E4 & l & Hl & ->). cbn [bdf with_msi] in Hl. split; [done|].
      exists (off :: l). by rewrite Hl.
    + intros e [-> Hl]. cbn [bdf with_msi] in Hl. by rewrite Hl.
Qed.

(** C25: [pci_cap_walk] with the handler [pci_cap_setup] visits the whole
    capability list and records the last MSI capability; it aborts, and never
    loops, on a list with an unknown identifier or of more than 255 entries, a
    cyclic one among them. *)
Theorem pci_cap_walk_msi d (s : St) (l := cap_list 255 s (bdf d) (conf_get s (bdf d) PCI_CAPABILITY_LIST 1)) :
  wpe (pci_cap_walk d pci_cap_setup)
    (λ d' s', conf_eq s s' ∧ ∃ offs, l = Some offs ∧
      d' = with_msi d (last_msi s (bdf d) (msi_offset d) offs))
    (λ e, e = Halt ∧ l = None) s.
Proof using Type.
  unfold pci_cap_walk. apply wpe_wp, wp_config_read. intros s1 E1.
  apply (cap_walk_from 255 257 d _ s s1); [done|apply conf_get_range|lia|lia].
Qed.
End Caps.
