(* ===== verification/PciUtil.v ===== *)
(** * The PCI utilities: lib/pci_util.c, lib/pci_io.h

    Configuration accesses through the ports or, when [mmcfg_addr] is set,
    through memory; region sizes; the enumeration of all functions; the bit
    masks.  The progress messages are left out. *)

From S2P Require Import Prelude Bits PciConf Pci.

Definition BUS_NUM : nat := 256.
Definition DEV_NUM : nat := 32.
Definition FUNC_NUM : nat := 8.
Definition PCI_CONFIG_ADDR : Z := 0xCF8.
Definition PCI_CONFIG_DATA : Z := 0xCFC.
Definition PCI_CONFIG_ENABLE : Z := 0x80000000.
Definition PCI_COMMAND_IO : Z := 0x1.
Definition PCI_COMMAND_MEMORY : Z := 0x2.
Definition PCI_BASE_ADDRESS_SPACE : Z := 0x01.

(** [union pci_bdf] from its bit fields *)
Definition pci_bdf (b d f : Z) : Z := Z.lor (Z.lor (Z.shiftl (u8 b) 8) (Z.shiftl (wrap 5 d) 3)) (wrap 3 f).

(** The fields of [struct pci_dev] that the enumeration fills in. *)
Record util_dev := UDev { u_bdf : Z; vender_id : Z; device_id : Z }.

Definition DEV_VEN (device_id vender_id : Z) : Z := u32 (Z.lor vender_id (Z.shiftl device_id 16)).

(** The static variable [mmcfg_addr] and the machine. *)
Record util_state (St : Type) := UState { mmcfg_addr : Z; hw : St }.
Arguments UState {St} _ _.
Arguments mmcfg_addr {St} _.
Arguments hw {St} _.

Section PciUtil.
Context {St : Type} {io : PortIO St}.
#[local] Abbreviation uprog := (prog (util_state St)).

Definition on_hw {A} (m : prog St A) : uprog A := zoom hw (λ h s, UState (mmcfg_addr s) h) m.

Definition pio_write (v addr : Z) (sz : nat) : prog St unit :=
  match sz with
  | 1%nat => io_out 1 (u8 v) addr
  | 2%nat => io_out 2 (u16 v) addr
  | _ => io_out 4 v addr
  end.

Definition pio_read (addr : Z) (sz : nat) : prog St Z :=
  match sz with 1%nat => io_in 1 addr | 2%nat => io_in 2 addr | _ => io_in 4 addr end.

Definition pci_set_mmcfg_addr (addr : Z) : uprog unit := modify (λ s, UState addr (hw s)).

Definition mmcfg_off_to_address (mmcfg bdf offset : Z) : Z :=
  u32 (mmcfg + Z.lor (u32 (Z.shiftl bdf 12)) offset).

Definition pci_pdev_calc_address (bdf offset : Z) : Z :=
  Z.lor (u32 (Z.shiftl bdf 8)) (Z.lor offset PCI_CONFIG_ENABLE).

(** The offset of the data port. *)
Definition data_off (offset : Z) (bytes : nat) : Z :=
  match bytes with 1%nat => Z.land offset 3 | 2%nat => Z.land offset 2 | _ => 0 end.
(** The access size of the [switch]. *)
Definition acc_size (bytes : nat) : nat := match bytes with 1%nat => 1 | 2%nat => 2 | _ => 4 end.

Definition pci_pdev_read_cfg_pio (bdf offset : Z) (bytes : nat) : prog St Z :=
  io_out 4 (pci_pdev_calc_address bdf offset) PCI_CONFIG_ADDR;;
  io_in (acc_size bytes) (PCI_CONFIG_DATA + data_off offset bytes).

(** [phys_to_virt] is the identity of this address space. *)
Definition pci_pdev_read_cfg_mmio (bdf offset : Z) (bytes : nat) : uprog Z :=
  mmcfg ← gets mmcfg_addr;
  on_hw (mm_read (acc_size bytes) (mmcfg_off_to_address mmcfg bdf offset)).

Definition pci_pdev_read_cfg (bdf offset : Z) (bytes : nat) : uprog Z :=
  mmcfg ← gets mmcfg_addr;
  if negb (mmcfg =? 0) then pci_pdev_read_cfg_mmio bdf offset bytes
  else on_hw (pci_pdev_read_cfg_pio bdf offset bytes).

Definition pci_pdev_write_cfg_pio (bdf offset : Z) (bytes : nat) (val : Z) : prog St unit :=
  io_out 4 (pci_pdev_calc_address bdf offset) PCI_CONFIG_ADDR;;
  io_out (acc_size bytes) (wrap (8 * acc_size bytes) val) (PCI_CONFIG_DATA + data_off offset bytes).

Definition pci_pdev_write_cfg_mmio (bdf offset : Z) (bytes : nat) (val : Z) : uprog unit :=
  mmcfg ← gets mmcfg_addr;
  on_hw (mm_write (acc_size bytes) (wrap (8 * acc_size bytes) val) (mmcfg_off_to_address mmcfg bdf offset)).

Definition pci_pdev_write_cfg (bdf offset : Z) (bytes : nat) (val : Z) : uprog unit :=
  mmcfg ← gets mmcfg_addr;
  if negb (mmcfg =? 0) then pci_pdev_write_cfg_mmio bdf offset bytes val
  else on_hw (pci_pdev_write_cfg_pio bdf offset bytes val).

(** The access size of [pci_pdev_read_mem] and [pci_pdev_write_mem]. *)
Definition mem_size (bytes : Z) : nat :=
  if bytes =? 1 then 1 else if bytes =? 2 then 2 else if bytes =? 4 then 4 else 8.

Definition pci_pdev_read_mem (bdf address bytes : Z) : prog St Z := mm_read (mem_size bytes) address.
Definition pci_pdev_write_mem (bdf address bytes val : Z) : prog St unit :=
  mm_write (mem_size bytes) (wrap (8 * mem_size bytes) val) address.

Definition pci_pdev_get_bar_size (bdf bar : Z) : uprog Z :=
  let bar_id := u32 (PCI_BASE_ADDRESS_0 + bar * 4) in
  old_command ← pci_pdev_read_cfg bdf PCI_COMMAND 2;
  let command := u16 (Z.ldiff old_command (Z.lor PCI_COMMAND_IO PCI_COMMAND_MEMORY)) in
  pci_pdev_write_cfg bdf PCI_COMMAND 2 command;;
  _bar ← pci_pdev_read_cfg bdf bar_id 4;
  pci_pdev_write_cfg bdf bar_id 4 0xffffffff;;
  size ← pci_pdev_read_cfg bdf bar_id 4;
  let size := u32 (u32 (Z.lnot size) + 1) in
  let size := if bit_set _bar PCI_BASE_ADDRESS_SPACE then Z.land size 0xFFFF else size in
  pci_pdev_write_cfg bdf bar_id 4 _bar;;
  pci_pdev_write_cfg bdf PCI_COMMAND 2 old_command;;
  mret size.

(** One function of the three loops; [devs] is the caller's array and [i] the
    number of devices found.  A store outside the array is undefined. *)
Definition enumerate_func (nr_dev bus dev func : Z) '(devs, i) : uprog (list util_dev * Z) :=
  let bdf := pci_bdf bus dev func in
  vender_id ← pci_pdev_read_cfg bdf PCI_VENDOR_ID 2;
  device_id ← pci_pdev_read_cfg bdf PCI_DEVICE_ID 2;
  if negb (vender_id =? 0xFFFF) && negb (device_id =? 0xFFFF) && (i <? nr_dev) then
    if Z.of_nat (length devs) <=? i then stop_with Undef
    else mret (<[Z.to_nat i := UDev bdf vender_id device_id]> devs, u32 (i + 1))
  else mret (devs, i).

Definition pci_pdev_enumerate_dev (devs : list util_dev) (nr_dev : Z) : uprog (list util_dev * Z) :=
  for_up BUS_NUM 0 (λ bus,
    for_up DEV_NUM 0 (λ dev,
      for_up FUNC_NUM 0 (λ func, enumerate_func nr_dev bus dev func))) (devs, 0).
End PciUtil.

(** The searches of an array of [nr_dev] devices: the result, or an access
    outside the array. *)
Definition DEV_VEN_of (d : util_dev) : Z := DEV_VEN (device_id d) (vender_id d).

Fixpoint find_dev (n : nat) (p : util_dev → bool) (devs : list util_dev) : outcome (option util_dev) :=
  match n, devs with
  | O, _ => Ret None
  | S _, [] => Stop Undef
  | S n', d :: devs' => if p d then Ret (Some d) else find_dev n' p devs'
  end.

Definition found {A B} (f : A → B) (r : outcome (option A)) : outcome (option B) :=
  match r with Ret o => Ret (f <$> o) | Stop e => Stop e end.

(** [None] is the result [false]. *)
Definition get_pci_bdf_by_dev_vendor (devs : list util_dev) (nr_dev dev_vendor : Z) : outcome (option Z) :=
  found u_bdf (find_dev (Z.to_nat nr_dev) (λ d, DEV_VEN_of d =? dev_vendor) devs).

Definition is_dev_exist_by_dev_vendor (devs : list util_dev) (nr_dev dev_vendor : Z) : outcome (option unit) :=
  found (λ _, ()) (find_dev (Z.to_nat nr_dev) (λ d, DEV_VEN_of d =? dev_vendor) devs).

Definition is_dev_exist_by_bdf (devs : list util_dev) (nr_dev bdf : Z) : outcome (option unit) :=
  found (λ _, ()) (find_dev (Z.to_nat nr_dev) (λ d, u_bdf d =? bdf) devs).

(** [for (i = lsb; i <= msb; i++)] with [uint8_t i]; [0x01 << i] is an [int]: a
    shift by 31 gives the sign bit, and a shift by more is undefined. *)
Fixpoint mask_from (fuel : nat) (f : Z → Z → Z) (msb i mask : Z) : outcome Z :=
  match fuel with
  | O => Stop NoFuel
  | S fuel' =>
      if i <=? msb then
        if i <? 32 then mask_from fuel' f msb (u8 (i + 1)) (f mask (s32 (Z.shiftl 1 i))) else Stop Undef
      else Ret mask
  end.

Definition shift_umask (msb lsb : Z) : outcome Z :=
  mask_from 34 (λ mask b, Z.land mask (u64 (Z.lnot b))) msb lsb (2 ^ 64 - 1).

Definition shift_mask (msb lsb : Z) : outcome Z :=
  mask_from 34 (λ mask b, Z.lor mask (u64 b)) msb lsb 0.

(** ** Configuration accesses *)

Lemma calc_conf1 bdf off :
  0 <= off < 256 → pci_pdev_calc_address bdf off = PCI_CONF1_ADDRESS bdf (u8 off).
Proof.
  intros Ho. rewrite (wrap_small 8) by lia. unfold pci_pdev_calc_address, PCI_CONF1_ADDRESS.
  change PCI_CONFIG_ENABLE with (2 ^ 31). change (Z.shiftl 1 31) with (2 ^ 31).
  rewrite <- (wrap_small 8 off) by lia. apply Z.bits_inj'. intros i Hi.
  rewrite !Z.lor_spec, !testbit_wrap, !Z.lor_spec, testbit_wrap, Z.shiftl_spec, testbit_pow2 by lia.
  zcases; cbn; rewrite ?orb_true_r, ?orb_false_r; try done; lia.
Qed.

#[local] Ltac solve_size := split; [by vm_compute|tauto].

Section Access.
Context {St : Type} {io : PortIO St} {laws : Conf1Laws St}.

(** The register at [off] as these functions address it: the low bits of the
    offset select the data port too. *)
Definition cfg_get (s : St) (bdf off : Z) (n : nat) : Z :=
  cf_val s (PCI_CONF1_ADDRESS bdf (u8 off)) (data_off off n) n.
Definition cfg_set (s : St) (bdf off : Z) (n : nat) (v : Z) : St :=
  cf_put (cf_latch (PCI_CONF1_ADDRESS bdf (u8 off)) s) (PCI_CONF1_ADDRESS bdf (u8 off))
    (data_off off n) n (wrap (8 * n) v).

(** On a register that is accessed as a whole they are the accesses of pci.c. *)
Lemma cfg_get_conf s bdf off n : data_off off n = 0 → cfg_get s bdf off n = conf_get s bdf off n.
Proof using Type. unfold cfg_get. by intros ->. Qed.
Lemma cfg_set_conf s bdf off n v : data_off off n = 0 → cfg_set s bdf off n v = conf_set s bdf off n v.
Proof using Type. unfold cfg_set. by intros ->. Qed.

Lemma cfg_get_eq s s' bdf off n : conf_eq s s' → cfg_get s' bdf off n = cfg_get s bdf off n.
Proof using Type. intros H. apply H. Qed.

Definition size_ok (off : Z) (n : nat) : Prop := 0 <= off < 256 ∧ (n = 1%nat ∨ n = 2%nat ∨ n = 4%nat).

Lemma acc_size_ok off n : size_ok off n → acc_size n = n.
Proof using Type. by intros (_ & [->|[->| ->]]). Qed.

Lemma data_off_range off n : 0 <= data_off off n < 4.
Proof using Type.
  assert (∀ m, 0 <= m < 4 → 0 <= Z.land off m < 4) as H.
  { intros m Hm. rewrite <- (wrap_small 2 m) by lia.
    assert (Z.land off (wrap 2 m) = wrap 2 (Z.land off m)) as -> by zbits. by apply wrap_range. }
  unfold data_off. destruct n as [|[|[|n]]]; try lia; apply H; lia.
Qed.

Lemma wp_read_cfg bdf off n (Q : Z → util_state St → Prop) s :
  mmcfg_addr s = 0 → size_ok off n →
  (∀ h, conf_eq (hw s) h → Q (cfg_get (hw s) bdf off n) (UState 0 h)) →
  wp (pci_pdev_read_cfg bdf off n) Q s.
Proof using Type.
  intros Hm Hw HQ. unfold pci_pdev_read_cfg. wstep. wstep. rewrite Hm. cbn [negb Z.eqb].
  unfold on_hw. wstep. unfold pci_pdev_read_cfg_pio. rewrite (acc_size_ok _ _ Hw), Hm.
  rewrite calc_conf1 by apply Hw. unfold wp, mbind, prog_bind, PCI_CONFIG_ADDR, PCI_CONFIG_DATA.
  rewrite cf_out_addr, cf_in_data by apply data_off_range. rewrite cf_addr_latch, cf_val_latch.
  apply HQ. intros a o k. by rewrite cf_val_latch.
Qed.

Lemma wp_write_cfg bdf off n v (Q : unit → util_state St → Prop) s :
  mmcfg_addr s = 0 → size_ok off n → Q () (UState 0 (cfg_set (hw s) bdf off n v)) →
  wp (pci_pdev_write_cfg bdf off n v) Q s.
Proof using Type.
  intros Hm Hw HQ. unfold pci_pdev_write_cfg. wstep. wstep. rewrite Hm. cbn [negb Z.eqb].
  unfold on_hw. wstep. unfold pci_pdev_write_cfg_pio. rewrite (acc_size_ok _ _ Hw), Hm.
  rewrite calc_conf1 by apply Hw. unfold wp, mbind, prog_bind, PCI_CONFIG_ADDR, PCI_CONFIG_DATA.
  rewrite cf_out_addr, cf_out_data by apply data_off_range. by rewrite cf_addr_latch.
Qed.
End Access.

(** ** Enumeration *)

Section Enumerate.
Context {St : Type} {io : PortIO St} {laws : Conf1Laws St}.

(** A function answers in the configuration space. *)
Definition present (s : St) (bdf : Z) : bool :=
  negb (cfg_get s bdf PCI_VENDOR_ID 2 =? 0xFFFF) && negb (cfg_get s bdf PCI_DEVICE_ID 2 =? 0xFFFF).

Definition dev_entry (s : St) (bdf : Z) : util_dev :=
  UDev bdf (cfg_get s bdf PCI_VENDOR_ID 2) (cfg_get s bdf PCI_DEVICE_ID 2).

(** The entries of the functions below [bdf], in order. *)
Definition entries (s : St) (bdf : Z) : list util_dev :=
  dev_entry s <$> filter (λ b, present s b = true) (seqZ 0 bdf).

Lemma entries_S s bdf :
  0 <= bdf → entries s (bdf + 1) = entries s bdf ++ (if present s bdf then [dev_entry s bdf] else []).
Proof using Type.
  intros H. unfold entries. rewrite seqZ_app, filter_app, fmap_app by lia. f_equal.
  assert (seqZ (0 + bdf) 1 = [bdf]) as -> by (unfold seqZ; cbn; f_equal; lia).
  destruct (present s bdf) eqn:E.
  - rewrite filter_cons_True by done. done.
  - rewrite filter_cons_False by (rewrite E; done). done.
Qed.

(** The same list, computed without unary numbers. *)
Fixpoint scan_list (s : St) (n : nat) (i : Z) : list util_dev :=
  match n with
  | O => []
  | S n' => (if present s i then [dev_entry s i] else []) ++ scan_list s n' (i + 1)
  end.

Lemma scan_list_entries s n m :
  0 <= m → entries s (m + Z.of_nat n) = entries s m ++ scan_list s n m.
Proof using Type.
  revert m. induction n as [|n IH]; intros m Hm; cbn [scan_list].
  - by rewrite Z.add_0_r, app_nil_r.
  - replace (m + Z.of_nat (S n)) with (m + 1 + Z.of_nat n) by lia.
    by rewrite IH, entries_S, <- app_assoc by lia.
Qed.

(** The array after the functions below [bdf] have been probed. *)
Definition enumerated (s : St) (nr : Z) (devs : list util_dev) (bdf : Z) (x : list util_dev * Z) : Prop :=
  let l := take (Z.to_nat nr) (entries s bdf) in
  x.2 = Z.of_nat (length l) ∧ x.1 = l ++ drop (length l) devs.

(** The first [nr] functions below [bdf] that answer. *)
Definition enumeration (s : St) (nr bdf : Z) : list util_dev :=
  take (Z.to_nat nr) (dev_entry s <$> filter (λ b, present s b = true) (seqZ 0 bdf)).

Lemma enumeration_scan s nr n :
  enumeration s nr (Z.of_nat n) = take (Z.to_nat nr) (scan_list s n 0).
Proof using Type.
  unfold enumeration. fold (entries s (Z.of_nat n)).
  pose proof (scan_list_entries s n 0 ltac:(lia)) as H. rewrite Z.add_0_l in H. by rewrite H.
Qed.

Lemma enumerated_out s nr devs bdf devs' i :
  enumerated s nr devs bdf (devs', i) →
  i = Z.of_nat (length (enumeration s nr bdf)) ∧
  devs' = enumeration s nr bdf ++ drop (length (enumeration s nr bdf)) devs.
Proof using Type. done. Qed.

Lemma enumerate_func_wp s0 nr devs bus dev func x s :
  0 <= nr < 2 ^ 32 → nr <= Z.of_nat (length devs) → 0 <= bus < 256 → 0 <= dev < 32 → 0 <= func < 8 →
  let bdf := bus * 256 + dev * 8 + func in
  mmcfg_addr s = 0 → conf_eq s0 (hw s) → enumerated s0 nr devs bdf x →
  wp (enumerate_func nr bus dev func x)
    (λ x' s', mmcfg_addr s' = 0 ∧ conf_eq s0 (hw s') ∧ enumerated s0 nr devs (bdf + 1) x') s.
Proof using Type.
  intros Hnr Hlen Hb Hd Hf bdf Hm Heq [H2 H1]. destruct x as [l i]. cbn in H1, H2. unfold enumerate_func.
  assert (pci_bdf bus dev func = bdf) as ->.
  { unfold pci_bdf. rewrite !wrap_small, !Z.shiftl_mul_pow2 by lia.
    rewrite lor_add by lia. unfold bdf.
    replace (bus * 2 ^ 8 + dev * 2 ^ 3) with ((bus * 32 + dev) * 2 ^ 3) by lia.
    rewrite lor_add by lia. lia. }
  wstep. apply wp_read_cfg; [done|solve_size|]. intros h1 E1. rewrite (cfg_get_eq _ _ _ _ _ Heq).
  wstep. apply wp_read_cfg; [done|solve_size|]. cbn [hw]. intros h2 E2.
  rewrite (cfg_get_eq _ _ _ _ _ E1), (cfg_get_eq _ _ _ _ _ Heq).
  assert (conf_eq s0 h2) as E by (eapply conf_eq_trans; [exact Heq|]; by eapply conf_eq_trans).
  fold (present s0 bdf). unfold enumerated. rewrite entries_S by lia.
  set (es := entries s0 bdf) in *. destruct (present s0 bdf); cbn [andb].
  - destruct (Z.ltb_spec i nr) as [Hi|Hi].
    + assert (length es < Z.to_nat nr)%nat as Hes.
      { rewrite H2, length_take in Hi. lia. }
      rewrite take_ge in H1, H2 by lia. destruct (Z.leb_spec (length l) i) as [Hc|Hc].
      { rewrite H1, length_app, length_drop in Hc. lia. }
      wstep. split; [done|]. split; [done|]. rewrite take_ge by (rewrite length_app; cbn; lia).
      rewrite length_app. cbn [fst snd length]. split; [rewrite wrap_small; lia|].
      rewrite H2, Nat2Z.id, H1. rewrite insert_app_r_alt by lia. rewrite Nat.sub_diag.
      destruct (drop (length es) devs) as [|d0 ds] eqn:Ed.
      { apply (f_equal length) in Ed. rewrite length_drop in Ed. cbn in Ed. lia. }
      cbn. rewrite <- app_assoc. cbn. unfold dev_entry. do 2 f_equal.
      rewrite <- drop_drop, Ed. done.
    + wstep. split; [done|]. split; [done|]. cbn [fst snd].
      rewrite H2, length_take in Hi. rewrite take_app_le by lia. done.
  - wstep. rewrite app_nil_r. done.
Qed.

Lemma enumerate_wp nr devs s :
  0 <= nr < 2 ^ 32 → nr <= Z.of_nat (length devs) → mmcfg_addr s = 0 →
  wp (pci_pdev_enumerate_dev devs nr)
    (λ x s', conf_eq (hw s) (hw s') ∧ enumerated (hw s) nr devs 65536 x) s.
Proof using Type.
  intros Hnr Hlen Hm. unfold pci_pdev_enumerate_dev.
  set (I := λ bdf x s', mmcfg_addr s' = 0 ∧ conf_eq (hw s) (hw s') ∧ enumerated (hw s) nr devs bdf x).
  apply (wp_for_up (λ bus, I (bus * 256))).
  - intros bus x s1 Hb H1. apply (wp_for_up (λ dev, I (bus * 256 + dev * 8))).
    + intros dev x2 s2 Hd H2. apply (wp_for_up (λ func, I (bus * 256 + dev * 8 + func))).
      * intros func x3 s3 Hf (H3 & H4 & H5). unfold BUS_NUM, DEV_NUM, FUNC_NUM in *.
        rewrite Z.add_assoc. apply enumerate_func_wp; try done; lia.
      * by rewrite Z.add_0_r.
      * intros x3 s3 H3. unfold FUNC_NUM in H3.
        by replace (bus * 256 + (dev + 1) * 8) with (bus * 256 + dev * 8 + (0 + 8%nat)) by lia.
    + by rewrite Z.add_0_r.
    + intros x2 s2 H2. unfold DEV_NUM in H2.
      by replace ((bus + 1) * 256) with (bus * 256 + (0 + 32%nat) * 8) by lia.
  - split; [done|]. split; [done|]. unfold enumerated.
    change (entries (hw s) (0 * 256)) with (@nil util_dev). rewrite take_nil. done.
  - intros x s' (_ & H1 & H2). done.
Qed.
End Enumerate.

(** ** Searches *)

Lemma find_dev_spec p (P : util_dev → Prop) `{!∀ d, Decision (P d)} n devs :
  (n <= length devs)%nat → (∀ d, p d = true ↔ P d) →
  find_dev n p devs = Ret (head (filter P (take n devs))).
Proof.
  intros Hn Hp. revert n Hn. induction devs as [|d devs IH]; intros [|n] Hn; cbn in Hn; try done; [lia|].
  cbn [find_dev take]. destruct (p d) eqn:E.
  - rewrite filter_cons_True by (by apply Hp). done.
  - rewrite filter_cons_False by (rewrite <- Hp, E; done). apply IH. lia.
Qed.

Lemma found_head (P : util_dev → Prop) `{!∀ d, Decision (P d)} l :
  found (λ _, ()) (Ret (head (filter P l))) = Ret (Some ()) ↔ ∃ d, d ∈ l ∧ P d.
Proof.
  unfold found. destruct (filter P l) as [|d l'] eqn:E; cbn.
  - split; [done|]. intros (d & Hd & HP).
    assert (d ∈ filter P l) as Hin by (by apply list_elem_of_filter). rewrite E in Hin.
    by apply not_elem_of_nil in Hin.
  - split; [|done]. intros _. exists d.
    assert (d ∈ filter P l) as Hin by (rewrite E; by left). apply list_elem_of_filter in Hin. by destruct Hin.
Qed.

(** ** The bit masks *)

(** The bits of [0x01 << i]. *)
Lemma int_bit i : 0 <= i < 31 → s32 (Z.shiftl 1 i) = 2 ^ i.
Proof.
  intros Hi. rewrite Z.shiftl_mul_pow2, Z.mul_1_l by lia. apply swrap_small; [lia|].
  assert (2 ^ i <= 2 ^ 30) by (apply Z.pow_le_mono_r; lia).
  pose proof (Z.pow_pos_nonneg 2 i). lia.
Qed.

Lemma mask_from_wp (f : Z → Z → Z) (P : Z → Z → Prop) msb :
  0 <= msb < 32 →
  (∀ i m, 0 <= i <= msb → P i m → P (i + 1) (f m (s32 (Z.shiftl 1 i)))) →
  ∀ fuel i m, 0 <= i <= msb + 1 → (Z.to_nat (msb + 1 - i) < fuel)%nat → P i m →
  ∃ r, mask_from fuel f msb i m = Ret r ∧ P (msb + 1) r.
Proof.
  intros Hm Hstep fuel. induction fuel as [|fuel IH]; intros i m Hi Hf HP; [lia|]. cbn [mask_from].
  destruct (Z.leb_spec i msb).
  - destruct (Z.ltb_spec i 32); [|lia]. rewrite wrap_small by lia. apply IH; [lia|lia|]. apply Hstep; [lia|done].
  - exists m. split; [done|]. by replace (msb + 1) with i by lia.
Qed.

(** Bits [lsb] to [i - 1] are those of the mask. *)
Definition low_mask (lsb i m : Z) : Prop :=
  ∀ j, 0 <= j → Z.testbit m j = (lsb <=? j) && (j <? i).

Lemma low_mask_val lsb i m : 0 <= lsb <= i → low_mask lsb i m → m = 2 ^ i - 2 ^ lsb.
Proof.
  intros Hi H. assert (2 ^ i - 2 ^ lsb = Z.shiftl (Z.ones (i - lsb)) lsb) as ->.
  { rewrite Z.shiftl_mul_pow2, Z.ones_equiv, <- Z.sub_1_r, Z.mul_sub_distr_r, <- Z.pow_add_r by lia.
    f_equal; [f_equal; lia|lia]. }
  apply Z.bits_inj'. intros j Hj. rewrite H, Z.shiftl_spec, testbit_ones by lia. zcases; done || lia.
Qed.

(** Where the set bits end: a shift by 31 sets all the bits from 31 to 63. *)
Definition mask_end (i : Z) : Z := if i =? 32 then 64 else i.

Lemma mask_bit lsb i m :
  0 <= i <= 31 → low_mask lsb (mask_end i) m → lsb <= i →
  low_mask lsb (mask_end (i + 1)) (Z.lor m (u64 (s32 (Z.shiftl 1 i)))).
Proof.
  intros Hi Hm Hl j Hj. unfold mask_end in *. rewrite Z.lor_spec, Hm by lia.
  destruct (Z.eqb_spec i 32); [lia|]. destruct (Z.eqb_spec (i + 1) 32).
  - assert (i = 31) as -> by lia. change (u64 (s32 (Z.shiftl 1 31))) with (Z.shiftl (Z.ones 33) 31).
    rewrite Z.shiftl_spec, testbit_ones by lia. zcases; cbn; done || lia.
  - rewrite int_bit, testbit_wrap, testbit_pow2 by lia. zcases; cbn; done || lia.
Qed.

Lemma umask_bit lsb i m :
  0 <= i <= 31 → low_mask lsb (mask_end i) (not64 m) → 0 <= m < 2 ^ 64 → lsb <= i →
  low_mask lsb (mask_end (i + 1)) (not64 (Z.land m (u64 (Z.lnot (s32 (Z.shiftl 1 i)))))).
Proof.
  intros Hi Hm Hr Hl j Hj. rewrite <- (mask_bit lsb i (not64 m)) by done.
  set (b := s32 (Z.shiftl 1 i)).
  assert (∀ x, 0 <= x < 2 ^ 64 → not64 x = u64 (Z.lnot x)) as Hnot.
  { intros x Hx. unfold not64, wrap, Z.lnot. apply (Z.mod_unique _ _ (-1)); lia. }
  rewrite (Hnot m), Hnot by (done || by apply land_range; [done|apply wrap_range|]).
  rewrite Z.lor_spec, !testbit_wrap, !Z.lnot_spec, Z.land_spec, testbit_wrap, Z.lnot_spec by lia.
  rewrite negb_andb. destruct (Z.ltb_spec j 64); cbn; [by rewrite negb_involutive|done].
Qed.

Lemma mask_from_undef f msb fuel i m :
  32 <= msb → 0 <= i <= 32 → (Z.to_nat (32 - i) < fuel)%nat → mask_from fuel f msb i m = Stop Undef.
Proof.
  intros Hm. revert i m. induction fuel as [|fuel IH]; intros i m Hi Hf; [lia|]. cbn [mask_from].
  destruct (Z.leb_spec i msb); [|lia]. destruct (Z.ltb_spec i 32); [|done].
  rewrite wrap_small by lia. apply IH; lia.
Qed.

(** [shift_mask msb lsb] is the mask of the bits [lsb] to [msb], and
    [shift_umask msb lsb] its complement, for [msb] up to 30; with 31 the mask
    extends to bit 63, and beyond that the shifts are undefined. *)
Theorem shift_mask_bits msb lsb :
  0 <= lsb <= msb → msb < 256 → lsb <= 32 →
  let mask := if msb <? 31 then Ret (2 ^ (msb + 1) - 2 ^ lsb)
              else if msb =? 31 then Ret (2 ^ 64 - 2 ^ lsb) else Stop Undef in
  shift_mask msb lsb = mask ∧
  shift_umask msb lsb = match mask with Ret m => Ret (not64 m) | Stop e => Stop e end.
Proof.
  intros Hl Hm Hl2. unfold shift_mask, shift_umask. cbn zeta.
  destruct (decide (32 <= msb)).
  { destruct (Z.ltb_spec msb 31), (Z.eqb_spec msb 31); try lia.
    by rewrite !mask_from_undef by lia. }
  assert ((if msb <? 31 then Ret (2 ^ (msb + 1) - 2 ^ lsb)
           else if msb =? 31 then Ret (2 ^ 64 - 2 ^ lsb) else Stop Undef) =
          Ret (2 ^ (mask_end (msb + 1)) - 2 ^ lsb)) as ->.
  { unfold mask_end. destruct (Z.ltb_spec msb 31), (Z.eqb_spec msb 31), (Z.eqb_spec (msb + 1) 32);
      done || lia. }
  assert (lsb <= mask_end (msb + 1)) by (unfold mask_end; destruct (Z.eqb_spec (msb + 1) 32); lia).
  assert (mask_end lsb = lsb) as Hend by (unfold mask_end; destruct (Z.eqb_spec lsb 32); lia).
  split.
  - destruct (mask_from_wp (λ m b, Z.lor m (u64 b)) (λ i m, lsb <= i ∧ low_mask lsb (mask_end i) m) msb
      ltac:(lia)) with (fuel := 34%nat) (i := lsb) (m := 0) as (r & -> & _ & Hr); [|lia|lia| |].
    + intros i m Hi [? ?]. split; [lia|]. apply mask_bit; done || lia.
    + split; [lia|]. intros j Hj. rewrite Hend, Z.bits_0. zcases; cbn; done || lia.
    + f_equal. apply low_mask_val; [lia|done].
  - destruct (mask_from_wp (λ m b, Z.land m (u64 (Z.lnot b)))
      (λ i m, 0 <= m < 2 ^ 64 ∧ lsb <= i ∧ low_mask lsb (mask_end i) (not64 m)) msb
      ltac:(lia)) with (fuel := 34%nat) (i := lsb) (m := 2 ^ 64 - 1) as (r & -> & Hr0 & _ & Hr);
      [|lia|lia| |].
    + intros i m Hi (H0 & ? & ?). split; [apply land_range; [done|by apply wrap_range|lia]|].
      split; [lia|]. apply umask_bit; done || lia.
    + split; [lia|]. split; [lia|]. intros j Hj. rewrite Hend. change (not64 (2 ^ 64 - 1)) with 0.
      rewrite Z.bits_0. zcases; cbn; done || lia.
    + f_equal. apply low_mask_val in Hr; [|lia]. unfold not64 in *. lia.
Qed.

(** C26: [pci_pdev_enumerate_dev] fills the array with the functions that answer,
    in the order of bus, device and function, as many as fit, and returns their
    number; the rest of the array and all registers are as before. *)
Theorem pci_pdev_enumerate_all {St} {io : PortIO St} {laws : Conf1Laws St} nr_dev devs s :
  0 <= nr_dev < 2 ^ 32 → nr_dev <= Z.of_nat (length devs) → mmcfg_addr s = 0 →
  wp (pci_pdev_enumerate_dev devs nr_dev)
    (λ '(devs', n) s', n = Z.of_nat (length (enumeration (hw s) nr_dev 65536)) ∧
       devs' = enumeration (hw s) nr_dev 65536 ++
               drop (length (enumeration (hw s) nr_dev 65536)) devs ∧
       conf_eq (hw s) (hw s')) s.
Proof.
  intros Hnr Hlen Hm. eapply wp_mono; [by apply enumerate_wp|].
  intros [devs' n] s' (Heq & H). apply enumerated_out in H as [H2 H1].
  split; [exact H2|split; [exact H1|exact Heq]].
Qed.

(** One device, with the identifiers 8086:10d3. *)
Definition sim_bus : util_state sim :=
  UState 0 (Sim 0 {[ PCI_CONF1_ADDRESS 0x20 0 := 0x10d38086; PCI_CONF1_ADDRESS 0x20 2 := 0x10d38086 ]}).

Lemma pci_pdev_enumerate_all_witness :
  wp (pci_pdev_enumerate_dev (io := sim_io sim_rules) (replicate 3 (UDev 0 0 0)) 3)
    (λ '(devs, n) _, n = 1 ∧ devs = [UDev 0x20 0x8086 0x10d3; UDev 0 0 0; UDev 0 0 0]) sim_bus.
Proof.
  eapply wp_mono.
  - apply (pci_pdev_enumerate_all (laws := sim_laws sim_rules) 3 (replicate 3 (UDev 0 0 0)) sim_bus);
      [lia|cbn; lia|done].
  - intros [devs n] s' (-> & -> & _).
    assert (enumeration (laws := sim_laws sim_rules) (hw sim_bus) 3 65536 = [UDev 0x20 0x8086 0x10d3])
      as -> by (change 65536 with (Z.of_nat (Z.to_nat 65536)); rewrite enumeration_scan; by vm_compute).
    done.
Defined.

(** [get_pci_bdf_by_dev_vendor] finds the first entry with the identifiers;
    the two tests agree with it. *)
Theorem get_pci_bdf_first devs nr_dev dev_vendor :
  0 <= nr_dev <= Z.of_nat (length devs) →
  get_pci_bdf_by_dev_vendor devs nr_dev dev_vendor =
    Ret (u_bdf <$> head (filter (λ d, DEV_VEN_of d = dev_vendor) (take (Z.to_nat nr_dev) devs))) ∧
  (is_dev_exist_by_dev_vendor devs nr_dev dev_vendor = Ret (Some ()) ↔
     ∃ d, d ∈ take (Z.to_nat nr_dev) devs ∧ DEV_VEN_of d = dev_vendor) ∧
  (∀ bdf, is_dev_exist_by_bdf devs nr_dev bdf = Ret (Some ()) ↔
     ∃ d, d ∈ take (Z.to_nat nr_dev) devs ∧ u_bdf d = bdf).
Proof.
  intros Hn. unfold get_pci_bdf_by_dev_vendor, is_dev_exist_by_dev_vendor, is_dev_exist_by_bdf.
  split; [|split; [|intros bdf]].
  - rewrite (find_dev_spec _ (λ d, DEV_VEN_of d = dev_vendor)) by (lia || (intros; apply Z.eqb_eq)). done.
  - rewrite (find_dev_spec _ (λ d, DEV_VEN_of d = dev_vendor)) by (lia || (intros; apply Z.eqb_eq)).
    apply found_head.
  - rewrite (find_dev_spec _ (λ d, u_bdf d = bdf)) by (lia || (intros; apply Z.eqb_eq)).
    apply found_head.
Qed.

Lemma get_pci_bdf_first_witness :
  get_pci_bdf_by_dev_vendor [UDev 8 0x8086 1; UDev 0x20 0x8086 0x10d3; UDev 0x28 0x8086 0x10d3] 3 0x10d38086 =
  Ret (Some 0x20).
Proof. apply (get_pci_bdf_first [UDev 8 0x8086 1; UDev 0x20 0x8086 0x10d3; UDev 0x28 0x8086 0x10d3] 3). cbn; lia. Defined.

(** ** Region sizes *)

Section BarSize.
Context {St : Type} {io : PortIO St} {laws : Conf1Laws St}.

(** The command register of a device with a base address register: a write to
    the one leaves the other alone, and a value that was read is kept. *)
Record cmd_law (d : pci_dev) (n : Z) : Prop := {
  cl_lo s v : lo d n (conf_set s (bdf d) PCI_COMMAND 2 v) = lo d n s;
  cl_keep s s0 : conf_get (conf_set s (bdf d) PCI_COMMAND 2 (conf_get s0 (bdf d) PCI_COMMAND 2))
                          (bdf d) PCI_COMMAND 2 = conf_get s0 (bdf d) PCI_COMMAND 2;
}.

(** The computation on the value that all ones give. *)
Lemma bar_size_value b k v :
  bar_size_ok b k → 0 <= v < 2 ^ 32 →
  let size := u32 (u32 (Z.lnot (reg_val (2 ^ 32 - 1) (k_lo k) (bar_flags b))) + 1) in
  (if bit_set (reg_val v (k_lo k) (bar_flags b)) PCI_BASE_ADDRESS_SPACE then Z.land size 0xFFFF else size) =
  (2 ^ (k_lo k) - bar_flags b) mod 2 ^ (match b with BarIO => 16 | _ => 32 end).
Proof using Type.
  intros Hk Hv size. destruct (flag_bits_ok b k Hk) as (H1 & H2 & H3).
  assert (size = 2 ^ k_lo k - bar_flags b) as ->.
  { unfold size. rewrite (reg_val_eq _ _ _ (flag_bits b)), ones_low by lia.
    destruct (pow2_ge (k_lo k) (flag_bits b) H1) as [Hle _].
    destruct (pow2_ge 32 (k_lo k) ltac:(lia)) as [Hle2 _].
    set (x := 2 ^ 32 - 1 - (2 ^ k_lo k - 1) + bar_flags b).
    destruct (decide (k_lo k = 32 ∧ bar_flags b = 0)) as [[E1 E2]|Hne].
    { exfalso. unfold k_lo, bar_size_ok in *. destruct b as [|[]|[]]; cbn in *; lia. }
    assert (2 ^ k_lo k < 2 ^ 32 ∨ 0 < bar_flags b) as Hs.
    { destruct (decide (k_lo k = 32)); [right; lia|left; apply Z.pow_lt_mono_r; lia]. }
    assert (u32 (Z.lnot x) = 2 ^ 32 - 1 - x) as ->.
    { unfold Z.lnot. symmetry. apply (Z.mod_unique _ _ (-1)); lia. }
    rewrite wrap_small; unfold x; lia. }
  unfold bit_set. rewrite (reg_val_flags _ _ _ (flag_bits b)); [|done|done|].
  2: { unfold PCI_BASE_ADDRESS_SPACE, flag_bits. destruct b; lia. }
  assert (2 ^ k_lo k <= 2 ^ 32) by (apply Z.pow_le_mono_r; lia).
  destruct (pow2_ge (k_lo k) (flag_bits b) H1) as [Hle _].
  assert (bar_flags b ≠ 0 ∨ k_lo k < 32).
  { revert Hk. clear. unfold bar_size_ok, k_lo. destruct b as [|p|p]; cbn; [lia|lia|destruct p; lia]. }
  assert (2 ^ k_lo k < 2 ^ 32 ∨ 0 < bar_flags b).
  { destruct (decide (k_lo k < 32)); [left; apply Z.pow_lt_mono_r; lia|right; lia]. }
  assert (0 < 2 ^ k_lo k) by (apply Z.pow_pos_nonneg; lia).
  change 0xFFFF with (Z.ones 16). rewrite Z.land_ones by lia.
  assert (negb (Z.land (bar_flags b) PCI_BASE_ADDRESS_SPACE =? 0) =
          match b with BarIO => true | _ => false end) as -> by (by destruct b as [|[]|[]]).
  destruct b as [|[]|[]]; cbn [bar_flags] in *; (done || (symmetry; apply Z.mod_small; lia)).
Qed.

(** [pci_pdev_get_bar_size] restores the registers, but gives the size of
    the region less the flag bits of the register, which it does not mask off:
    2^k only for a 32-bit region that is not prefetchable. *)
Theorem pci_pdev_get_bar_size_value d n b k s :
  0 <= n < 6 → bar_size_ok b k → bar_law d n b k → cmd_law d n → bar_holds d n b k (hw s) →
  mmcfg_addr s = 0 →
  wp (pci_pdev_get_bar_size (bdf d) n)
    (λ r s', r = (2 ^ (k_lo k) - bar_flags b) mod 2 ^ (match b with BarIO => 16 | _ => 32 end) ∧
             lo d n (hw s') = lo d n (hw s) ∧
             conf_get (hw s') (bdf d) PCI_COMMAND 2 = conf_get (hw s) (bdf d) PCI_COMMAND 2) s.
Proof using Type.
  intros Hn Hk Hlaw Hcmd ((v & Hv & E) & _) Hm.
  destruct (flag_bits_ok b k Hk) as (H1 & H2 & H3).
  assert (u32 (PCI_BASE_ADDRESS_0 + n * 4) = bar_off n) as Eoff
    by (apply wrap_small; unfold bar_off, PCI_BASE_ADDRESS_0; lia).
  assert (size_ok (bar_off n) 4) as Hso by (split; [unfold bar_off, PCI_BASE_ADDRESS_0; lia|tauto]).
  unfold pci_pdev_get_bar_size. rewrite Eoff.
  wstep. apply wp_read_cfg; [done|solve_size|]. intros h1 E1. rewrite cfg_get_conf by done.
  wstep. apply wp_write_cfg; [done|solve_size|]. cbn [hw]. rewrite cfg_set_conf by done.
  wstep. apply wp_read_cfg; [done|done|]. cbn [hw]. intros h2 E2. rewrite cfg_get_conf by done.
  fold (lo d n (conf_set h1 (bdf d) PCI_COMMAND 2 (u16 (Z.ldiff (conf_get (hw s) (bdf d) PCI_COMMAND 2)
    (Z.lor PCI_COMMAND_IO PCI_COMMAND_MEMORY))))).
  rewrite (cl_lo _ _ Hcmd), (lo_eq d n (hw s) h1 E1), E.
  wstep. apply wp_write_cfg; [done|done|]. cbn [hw]. rewrite cfg_set_conf by done.
  wstep. apply wp_read_cfg; [done|done|]. cbn [hw]. intros h3 E3. rewrite cfg_get_conf by done.
  fold (lo d n (conf_set h2 (bdf d) (bar_off n) 4 4294967295)). rewrite (bl_lo _ _ _ _ Hlaw) by lia.
  wstep. apply wp_write_cfg; [done|done|]. cbn [hw]. rewrite cfg_set_conf by done.
  wstep. apply wp_write_cfg; [done|solve_size|]. cbn [hw]. rewrite cfg_set_conf by done.
  wstep. split; [|split; [|apply (cl_keep _ _ Hcmd)]]; cbn [hw].
  - by apply bar_size_value.
  - rewrite (cl_lo _ _ Hcmd), (bl_lo _ _ _ _ Hlaw) by (by apply (reg_val_range _ _ _ (flag_bits b))).
    by apply (reg_val_idem _ _ _ (flag_bits b)).
Qed.
End BarSize.

(** The simulated device with its command register. *)
Definition sim_util : util_state sim :=
  UState 0 (Sim 0 {[ PCI_CONF1_ADDRESS 0x20 (bar_off 2) := 4; PCI_CONF1_ADDRESS 0x20 (bar_off 3) := 6;
                     PCI_CONF1_ADDRESS 0x20 PCI_COMMAND := 7 ]}).

Lemma sim_cmd_law : cmd_law (laws := sim_laws sim_rules) sim_dev 2.
Proof.
  split.
  - intros s v. unfold lo, conf_get, conf_set, cf_val, cf_put, sim_laws, sim_val, sim_put. cbn [sim_regs].
    by rewrite lookup_insert_ne.
  - intros s s0. set (v := conf_get s0 _ _ _).
    assert (0 <= v < 2 ^ 16) as Hv by apply (conf_get_range s0 (bdf sim_dev) PCI_COMMAND 2).
    unfold conf_get at 1, conf_set, cf_val, cf_put, sim_laws, sim_val, sim_put. cbn [sim_regs].
    rewrite lookup_insert_eq. cbn [from_option id]. rewrite Z.shiftr_0_r.
    change (sim_rules _ ?x) with x. rewrite wrap_wrap. by apply wrap_small.
Qed.

(** The size of the 8 GiB region comes out as 2^32 - 4. *)
Lemma pci_pdev_get_bar_size_value_witness :
  wp (pci_pdev_get_bar_size (io := sim_io sim_rules) 0x20 2) (λ r _, r = 0xfffffffc) sim_util.
Proof.
  eapply wp_mono.
  - refine (pci_pdev_get_bar_size_value (laws := sim_laws sim_rules) sim_dev 2 (Bar64 false) 33 sim_util
      _ _ sim_bar_law sim_cmd_law _ _); [lia|cbn; lia| |done].
    split; [exists 0|intros _; exists 6]; by vm_compute.
  - by intros r s' (-> & _).
Defined.

Lemma shift_mask_bits_witness :
  shift_mask 7 0 = Ret 0xff ∧ shift_umask 15 8 = Ret 0xffffffffffff00ff ∧ shift_mask 32 8 = Stop Undef.
Proof.
  split; [|split].
  - apply (shift_mask_bits 7 0); lia.
  - apply (shift_mask_bits 15 8); lia.
  - apply (shift_mask_bits 32 8); lia.
Defined.
