(* ===== verification/PciMsi.v ===== *)
(** * Message signalled interrupts: lib/pci_msi.c

    The operations of [msi_ops_obj] on the state of pci_util.c extended with the
    static [cur_msi], the one object that every device's [msi] pointer is set
    to.  A device is passed as a pointer ([None] is NULL); a NULL pointer is
    dereferenced before it is tested, which is undefined.  The installation of
    the handler and the interrupt flag are operations of the machine
    ([IrqOps]). *)

From S2P Require Import Prelude Bits PciConf Pci PciUtil.

Definition PCI_CAPABILITY_LIST : Z := 0x34.
Definition PCI_CAP_ID_MSI : Z := 0x05.
Definition PCI_MSI_FLAGS : Z := 2.
Definition PCI_MSI_ADDRESS_LO : Z := 4.
Definition PCI_MSI_ADDRESS_HI : Z := 8.
Definition PCI_MSI_DATA_32 : Z := 8.
Definition PCI_MSI_DATA_64 : Z := 12.
Definition MSI_MESSAGE_CTRL_ENABLE : Z := 1.
Definition MSI_MESSAGE_CTRL_64_BIT_ADDR_CAPABLE : Z := 0x80.

Record msi_capability := Cap { ctrl : Z; message_data : Z; message_addr_l : Z; message_addr_h : Z }.
Record msi := Msi { msi_io_start : Z; msi_cap : msi_capability }.

(** A device: its function and whether [msi] points to [cur_msi] or is NULL. *)
Record msi_dev := MsiDev { m_bdf : Z; has_msi : bool }.

Record msi_state (St : Type) := MState { cur_msi : msi; util : util_state St }.
Arguments MState {St} _ _.
Arguments cur_msi {St} _.
Arguments util {St} _.

(** [handle_irq(vector, handler)] of isr.c and [irq_enable()]. *)
Class IrqOps (St : Type) := {
  handle_irq : Z → Z → prog St unit;
  irq_enable : prog St unit;
}.

Section PciMsi.
Context {St : Type} {io : PortIO St} {irq : IrqOps St}.
#[local] Abbreviation mprog := (prog (msi_state St)).

Definition on_util {A} (m : prog (util_state St) A) : mprog A := zoom util (λ u s, MState (cur_msi s) u) m.
Definition set_cur (m : msi) : mprog unit := modify (λ s, MState m (util s)).

(** [*pdev] and [*(struct msi * )pdev->msi] *)
Definition deref (pdev : option msi_dev) : mprog msi_dev :=
  match pdev with Some d => mret d | None => stop_with Undef end.
Definition deref_msi (d : msi_dev) : mprog msi :=
  if has_msi d then gets cur_msi else stop_with Undef.

Definition read_cfg (bdf off : Z) (n : nat) : mprog Z := on_util (pci_pdev_read_cfg bdf off n).
Definition write_cfg (bdf off : Z) (n : nat) (v : Z) : mprog unit := on_util (pci_pdev_write_cfg bdf off n v).

(** NULL is reported and left alone. *)
Definition pci_msi_create (pdev : option msi_dev) : mprog (option msi_dev) :=
  match pdev with None => mret None | Some d => mret (Some (MsiDev (m_bdf d) true)) end.

Definition pci_msi_init (pdev : option msi_dev) : mprog (option msi_dev) :=
  d ← deref pdev; pci_msi_create (Some d).

Definition pci_msi_parse_capability (d : msi_dev) : mprog unit :=
  m ← deref_msi d;
  let msi_io_start := msi_io_start m in
  ctrl ← read_cfg (m_bdf d) (msi_io_start + PCI_MSI_FLAGS) 2;
  lo ← read_cfg (m_bdf d) (msi_io_start + PCI_MSI_ADDRESS_LO) 4;
  if bit_set ctrl MSI_MESSAGE_CTRL_64_BIT_ADDR_CAPABLE then
    hi ← read_cfg (m_bdf d) (msi_io_start + PCI_MSI_ADDRESS_HI) 4;
    data ← read_cfg (m_bdf d) (msi_io_start + PCI_MSI_DATA_64) 2;
    set_cur (Msi msi_io_start (Cap ctrl data lo hi))
  else
    data ← read_cfg (m_bdf d) (msi_io_start + PCI_MSI_DATA_32) 2;
    set_cur (Msi msi_io_start (Cap ctrl data lo (message_addr_h (msi_cap m)))).

Definition pci_msi_irq_start (pdev : option msi_dev) (irq_handler : Z) : mprog unit :=
  d ← deref pdev;
  if irq_handler =? 0 then mret ()
  else
    pci_msi_parse_capability d;;
    m ← deref_msi d;
    let vector := Z.land (message_data (msi_cap m)) 0xFF in
    on_util (on_hw (handle_irq vector irq_handler));;
    on_util (on_hw irq_enable).

(** [for (i = 0; i < repeat; i++)] with [n] iterations left: the address of the
    capability, or [None] when [i] reaches [repeat]. *)
Fixpoint probe_loop (n : nat) (bdf reg_addr reg_val : Z) : mprog (option Z) :=
  match n with
  | O => mret None
  | S n' =>
      if PCI_CAP_ID_MSI =? Z.land reg_val 0xff then mret (Some reg_addr)
      else
        let reg_addr := Z.shiftr (Z.land reg_val 0xff00) 8 in
        reg_val ← read_cfg bdf reg_addr 4;
        probe_loop n' bdf reg_addr reg_val
  end.

Definition pci_msi_probe (pdev : option msi_dev) : mprog Z :=
  d ← deref pdev;
  reg_addr ← read_cfg (m_bdf d) PCI_CAPABILITY_LIST 1;
  reg_val ← read_cfg (m_bdf d) reg_addr 4;
  r ← probe_loop 64 (m_bdf d) reg_addr reg_val;
  m ← deref_msi d;
  set_cur (Msi 0 (msi_cap m));;
  match r with
  | None => mret (-1)
  | Some reg_addr => set_cur (Msi (u8 reg_addr) (msi_cap m));; mret 0
  end.

Definition pci_msi_destroy (pdev : option msi_dev) : mprog msi_dev :=
  d ← deref pdev;
  m ← deref_msi d;
  let reg_addr := msi_io_start m + PCI_MSI_FLAGS in
  reg_val ← read_cfg (m_bdf d) reg_addr 2;
  write_cfg (m_bdf d) reg_addr 2 (Z.ldiff reg_val MSI_MESSAGE_CTRL_ENABLE);;
  _ ← read_cfg (m_bdf d) reg_addr 2;
  mret (MsiDev (m_bdf d) false).

Definition pci_msi_enable (pdev : option msi_dev) (flag : bool) : mprog Z :=
  d ← deref pdev;
  m ← deref_msi d;
  let reg_addr := msi_io_start m + PCI_MSI_FLAGS in
  reg_val ← read_cfg (m_bdf d) reg_addr 2;
  let reg_val := if flag then Z.lor reg_val MSI_MESSAGE_CTRL_ENABLE
                 else Z.ldiff reg_val MSI_MESSAGE_CTRL_ENABLE in
  write_cfg (m_bdf d) reg_addr 2 reg_val;;
  _ ← read_cfg (m_bdf d) reg_addr 2;
  mret 0.

(** A register is written and, for the debug message, read back. *)
Definition write_back (bdf off : Z) (n : nat) (v : Z) : mprog unit :=
  write_cfg bdf off n v;; _ ← read_cfg bdf off n; mret ().

Definition pci_msi_config (pdev : option msi_dev) (addr data : Z) : mprog Z :=
  d ← deref pdev;
  m ← deref_msi d;
  let msi_io_start := msi_io_start m in
  ctrl ← read_cfg (m_bdf d) (msi_io_start + PCI_MSI_FLAGS) 2;
  write_back (m_bdf d) (msi_io_start + PCI_MSI_ADDRESS_LO) 4 (Z.land addr 0xFFFFFFFF);;
  (if bit_set ctrl MSI_MESSAGE_CTRL_64_BIT_ADDR_CAPABLE then
     write_back (m_bdf d) (msi_io_start + PCI_MSI_ADDRESS_HI) 4 (Z.land (Z.shiftr addr 32) 0xFFFFFFFF);;
     write_back (m_bdf d) (msi_io_start + PCI_MSI_DATA_64) 2 data
   else write_back (m_bdf d) (msi_io_start + PCI_MSI_DATA_32) 2 data);;
  mret 0.
End PciMsi.

(** ** What the operations do to the registers *)

Section Laws.
Context {St : Type} {io : PortIO St} {laws : Conf1Laws St} {irq : IrqOps St}.

(** The ports are used, and [msi] is set. *)
Definition ready (s : msi_state St) : Prop := mmcfg_addr (util s) = 0.
Definition conf (s : msi_state St) : St := hw (util s).
Definition with_conf (s : msi_state St) (h : St) : msi_state St := MState (cur_msi s) (UState 0 h).

Lemma wp_read bdf off n (Q : Z → msi_state St → Prop) s :
  ready s → size_ok off n →
  (∀ h, conf_eq (conf s) h → Q (cfg_get (conf s) bdf off n) (with_conf s h)) →
  wp (read_cfg bdf off n) Q s.
Proof using Type. intros Hr Hs HQ. unfold read_cfg, on_util. wstep. apply wp_read_cfg; done. Qed.

Lemma wp_write bdf off n v (Q : unit → msi_state St → Prop) s :
  ready s → size_ok off n → Q () (with_conf s (cfg_set (conf s) bdf off n v)) →
  wp (write_cfg bdf off n v) Q s.
Proof using Type. intros Hr Hs HQ. unfold write_cfg, on_util. wstep. apply wp_write_cfg; done. Qed.

(** The offset of the MSI capability, searched the way [pci_msi_probe] does:
    every dword of the list holds the identifier and the offset of the next. *)
Fixpoint msi_offset_at (n : nat) (h : St) (bdf off : Z) : option Z :=
  match n with
  | O => None
  | S n' => let v := cfg_get h bdf off 4 in
            if PCI_CAP_ID_MSI =? Z.land v 0xff then Some off
            else msi_offset_at n' h bdf (Z.shiftr (Z.land v 0xff00) 8)
  end.

Lemma next_range v : 0 <= v < 2 ^ 32 → 0 <= Z.shiftr (Z.land v 0xff00) 8 < 256.
Proof using Type.
  intros Hv. rewrite Z.shiftr_land. rewrite Z.land_comm.
  apply (land_range _ _ 8); [done| |lia]. apply Z.shiftr_nonneg. lia.
Qed.

Lemma probe_loop_wp n bdf off h0 s :
  ready s → conf_eq h0 (conf s) → 0 <= off < 256 →
  wp (probe_loop n bdf off (cfg_get h0 bdf off 4))
    (λ r s', r = msi_offset_at n h0 bdf off ∧ ready s' ∧ conf_eq h0 (conf s') ∧ cur_msi s' = cur_msi s) s.
Proof using Type.
  revert off s. induction n as [|n IH]; intros off s Hr Heq Hoff; cbn [probe_loop msi_offset_at].
  { wstep. done. }
  destruct (PCI_CAP_ID_MSI =? Z.land (cfg_get h0 bdf off 4) 0xff); [by wstep|].
  assert (0 <= cfg_get h0 bdf off 4 < 2 ^ 32) as Hv by apply cf_val_range.
  pose proof (next_range _ Hv) as Hn.
  wstep. apply wp_read; [done|split; [lia|tauto]|]. intros h E. rewrite (cfg_get_eq _ _ _ _ _ Heq).
  eapply wp_mono; [apply IH; [done|by eapply conf_eq_trans|done]|]. done.
Qed.

Lemma msi_offset_at_range n h bdf off o :
  0 <= off < 256 → msi_offset_at n h bdf off = Some o → 0 <= o < 256.
Proof using Type.
  revert off. induction n as [|n IH]; intros off Hoff; cbn [msi_offset_at]; [done|].
  destruct (PCI_CAP_ID_MSI =? _); [by intros [= <-]|]. apply IH, next_range, cf_val_range.
Qed.

Lemma probe_eq n d off h h' : conf_eq h h' → msi_offset_at n h' d off = msi_offset_at n h d off.
Proof using Type.
  intros E. revert off. induction n as [|n IH]; intros off; cbn [msi_offset_at]; [done|].
  by rewrite (cfg_get_eq _ _ _ _ _ E), IH.
Qed.

Lemma probe_wp d s :
  ready s →
  wp (pci_msi_probe (Some (MsiDev d true)))
    (λ r s', ready s' ∧ conf_eq (conf s) (conf s') ∧
       match msi_offset_at 64 (conf s) d (cfg_get (conf s) d PCI_CAPABILITY_LIST 1) with
       | Some off => r = 0 ∧ msi_io_start (cur_msi s') = off
       | None => r = -1 ∧ msi_io_start (cur_msi s') = 0
       end) s.
Proof using Type.
  intros Hr. unfold pci_msi_probe, deref. wstep. wstep. cbn [m_bdf].
  wstep. apply wp_read; [done|split; [by vm_compute|tauto]|]. intros h1 E1.
  assert (0 <= cfg_get (conf s) d PCI_CAPABILITY_LIST 1 < 256) as Hoff by apply cf_val_range.
  set (off := cfg_get (conf s) d PCI_CAPABILITY_LIST 1) in *.
  wstep. apply wp_read; [done|split; [done|tauto]|]. intros h2 E2. cbn [conf with_conf util hw].
  rewrite (cfg_get_eq _ _ _ _ _ E1). wstep.
  eapply wp_mono; [apply probe_loop_wp; [done|by eapply conf_eq_trans|done]|].
  intros r s3 (-> & Hr3 & E3 & Hcur). unfold deref_msi. cbn [has_msi]. wsteps.
  destruct (msi_offset_at 64 (conf s) d off) as [o|] eqn:Eo; wsteps; [|done].
  split; [done|]. split; [done|]. split; [done|]. cbn. apply wrap_small.
  by apply (msi_offset_at_range _ _ _ _ _ Hoff Eo).
Qed.

(** The control register after [pci_msi_enable]. *)
Definition enable_value (flag : bool) (v : Z) : Z :=
  if flag then Z.lor v MSI_MESSAGE_CTRL_ENABLE else Z.ldiff v MSI_MESSAGE_CTRL_ENABLE.

Lemma enable_wp d flag s :
  ready s → 0 <= msi_io_start (cur_msi s) → msi_io_start (cur_msi s) + PCI_MSI_FLAGS < 256 →
  wp (pci_msi_enable (Some (MsiDev d true)) flag)
    (λ r s', r = 0 ∧ ∃ h, conf_eq (conf s) h ∧ let off := msi_io_start (cur_msi s) + PCI_MSI_FLAGS in
       conf_eq (cfg_set h d off 2 (enable_value flag (cfg_get (conf s) d off 2))) (conf s')) s.
Proof using Type.
  intros Hr H0 H1. unfold pci_msi_enable, deref, deref_msi. wstep. wstep. wstep. cbn [m_bdf has_msi]. wstep.
  assert (size_ok (msi_io_start (cur_msi s) + PCI_MSI_FLAGS) 2) as Hs
    by (split; [unfold PCI_MSI_FLAGS in *; lia|tauto]).
  wstep. apply wp_read; [done|done|]. intros h1 E1. wstep. apply wp_write; [done|done|].
  wstep. apply wp_read; [done|done|]. intros h2 E2. wstep. split; [done|]. by exists h1.
Qed.

(** [cur_msi] is shared: after a second device has been probed,
    [pci_msi_enable] of the first device writes the control register at the
    offset of the second device's capability. *)
Theorem pci_msi_shared_object d1 d2 o1 o2 flag s :
  ready s →
  msi_offset_at 64 (conf s) d1 (cfg_get (conf s) d1 PCI_CAPABILITY_LIST 1) = Some o1 →
  msi_offset_at 64 (conf s) d2 (cfg_get (conf s) d2 PCI_CAPABILITY_LIST 1) = Some o2 →
  o2 < 254 →
  wp (p1 ← pci_msi_init (Some (MsiDev d1 false)); _ ← pci_msi_probe p1;
      p2 ← pci_msi_init (Some (MsiDev d2 false)); _ ← pci_msi_probe p2;
      pci_msi_enable p1 flag)
    (λ r s', r = 0 ∧ ∃ h, conf_eq (conf s) h ∧
       conf_eq (cfg_set h d1 (o2 + PCI_MSI_FLAGS) 2
                  (enable_value flag (cfg_get (conf s) d1 (o2 + PCI_MSI_FLAGS) 2))) (conf s')) s.
Proof using Type.
  intros Hr H1 H2 Ho. assert (0 <= cfg_get (conf s) d2 PCI_CAPABILITY_LIST 1 < 256) as Hoff by apply cf_val_range.
  pose proof (msi_offset_at_range _ _ _ _ _ Hoff H2) as Ho2.
  unfold pci_msi_init, deref, pci_msi_create. do 4 wstep. cbn [m_bdf].
  wstep. eapply wp_mono; [by apply probe_wp|]. intros r1 s1 (Hr1 & E1 & P1). do 4 wstep.
  wstep. eapply wp_mono; [by apply probe_wp|]. intros r2 s2 (Hr2 & E2 & P2).
  rewrite (cfg_get_eq _ _ _ _ _ E1), (probe_eq _ _ _ _ _ E1) in P2.
  cbn [m_bdf] in P2. rewrite H2 in P2. destruct P2 as [_ P2].
  eapply wp_mono; [apply enable_wp; [done|lia|unfold PCI_MSI_FLAGS; lia]|].
  intros r s3 (-> & h & Eh & E3). split; [done|]. exists h.
  assert (conf_eq (conf s) (conf s2)) as Es by (by eapply conf_eq_trans).
  split; [by eapply conf_eq_trans|]. cbn zeta in E3. by rewrite P2, (cfg_get_eq _ _ _ _ _ Es) in E3.
Qed.

(** The address and data registers of a capability at [o] are read/write and
    independent of each other. *)
Definition msi_reg (o off : Z) : Prop := off = o + 4 ∨ off = o + 8 ∨ off = o + 12.
Record msi_regs (d o : Z) : Prop := {
  mr_same s off n v : msi_reg o off → cfg_get (cfg_set s d off n v) d off n = wrap (8 * n) v;
  mr_other s off off' n n' v : msi_reg o off → msi_reg o off' → off ≠ off' →
    cfg_get (cfg_set s d off n v) d off' n' = cfg_get s d off' n';
}.

Lemma wp_write_back bdf off n v (Q : unit → msi_state St → Prop) s :
  ready s → size_ok off n →
  (∀ h, conf_eq (cfg_set (conf s) bdf off n v) h → Q () (with_conf s h)) →
  wp (write_back bdf off n v) Q s.
Proof using Type.
  intros Hr Hs HQ. unfold write_back. wstep. apply wp_write; [done|done|].
  wstep. apply wp_read; [done|done|]. intros h E. wstep. by apply HQ.
Qed.

(** [pci_msi_config] stores the whole address and the data, at the offsets
    of the 64-bit layout if the capability has that flag and of the 32-bit one
    (without the high half of the address) otherwise. *)
Theorem pci_msi_config_registers d addr data s (o := msi_io_start (cur_msi s)) :
  ready s → 0 <= o < 243 → msi_regs d o → 0 <= addr < 2 ^ 64 → 0 <= data < 2 ^ 16 →
  wp (pci_msi_config (Some (MsiDev d true)) addr data)
    (λ r s', r = 0 ∧ cfg_get (conf s') d (o + PCI_MSI_ADDRESS_LO) 4 = addr mod 2 ^ 32 ∧
       if bit_set (cfg_get (conf s) d (o + PCI_MSI_FLAGS) 2) MSI_MESSAGE_CTRL_64_BIT_ADDR_CAPABLE then
         cfg_get (conf s') d (o + PCI_MSI_ADDRESS_HI) 4 = addr / 2 ^ 32 ∧
         cfg_get (conf s') d (o + PCI_MSI_DATA_64) 2 = data
       else cfg_get (conf s') d (o + PCI_MSI_DATA_32) 2 = data) s.
Proof using Type.
  intros Hr Ho [Hsame Hother] Ha Hd.
  unfold PCI_MSI_ADDRESS_LO, PCI_MSI_ADDRESS_HI, PCI_MSI_DATA_64, PCI_MSI_DATA_32, PCI_MSI_FLAGS.
  set (c := cfg_get (conf s) d (o + 2) 2).
  unfold pci_msi_config, deref, deref_msi. wstep. wstep. wstep. cbn [m_bdf has_msi]. wstep. fold o.
  wstep. apply wp_read; [done|split; [unfold PCI_MSI_FLAGS; lia|tauto]|]. intros h1 E1.
  change (cfg_get (conf s) d (o + PCI_MSI_FLAGS) 2) with c.
  wstep. apply wp_write_back; [done|split; [unfold PCI_MSI_ADDRESS_LO; lia|tauto]|]. intros h2 E2. cbn in E2.
  assert (Z.land addr 0xFFFFFFFF = addr mod 2 ^ 32) as El by (by rewrite <- (Z.land_ones addr 32)).
  assert (Z.land (Z.shiftr addr 32) 0xFFFFFFFF = addr / 2 ^ 32) as Eh.
  { change 0xFFFFFFFF with (Z.ones 32). rewrite Z.land_ones, Z.shiftr_div_pow2 by lia.
    apply Z.mod_small. split; [apply Z.div_pos; lia|apply Z.div_lt_upper_bound; lia]. }
  assert (0 <= addr mod 2 ^ 32 < 2 ^ 32) as Hl by (by apply Z.mod_pos_bound).
  assert (0 <= addr / 2 ^ 32 < 2 ^ 32) as Hh
    by (split; [apply Z.div_pos; lia|apply Z.div_lt_upper_bound; lia]).
  assert (cfg_get h2 d (o + 4) 4 = addr mod 2 ^ 32) as G2.
  { rewrite (cfg_get_eq _ _ _ _ _ E2), El, Hsame by (unfold msi_reg, PCI_MSI_ADDRESS_LO; lia). by apply wrap_small. }
  wstep. destruct (bit_set c _).
  - wstep. apply wp_write_back; [done|split; [unfold PCI_MSI_ADDRESS_HI; lia|tauto]|].
    intros h3 E3. cbn in E3. apply wp_write_back; [done|split; [unfold PCI_MSI_DATA_64; lia|tauto]|].
    intros h4 E4. cbn in E4. wstep. cbn [conf with_conf util hw].
    unfold PCI_MSI_DATA_64, PCI_MSI_ADDRESS_HI in *. split; [done|].
    rewrite !(cfg_get_eq _ _ _ _ _ E4), !Hother, Hsame by (unfold msi_reg; lia).
    rewrite !(cfg_get_eq _ _ _ _ _ E3), Hother, Hsame by (unfold msi_reg; lia).
    rewrite Eh, G2. split; [done|]. split; apply wrap_small; lia.
  - apply wp_write_back; [done|split; [unfold PCI_MSI_DATA_32; lia|tauto]|].
    intros h3 E3. cbn in E3. wstep. cbn [conf with_conf util hw]. unfold PCI_MSI_DATA_32 in *.
    split; [done|]. rewrite !(cfg_get_eq _ _ _ _ _ E3), Hother, Hsame by (unfold msi_reg; lia).
    rewrite G2. split; [done|]. apply wrap_small. lia.
Qed.
End Laws.

(** Two devices with an MSI capability at 0x50 and at 0x70, the second with
    64-bit addresses. *)
Definition sim_msi : msi_state sim :=
  MState (Msi 0 (Cap 0 0 0 0)) (UState 0 (Sim 0
    {[ PCI_CONF1_ADDRESS 0x20 0x34 := 0x50; PCI_CONF1_ADDRESS 0x20 0x50 := 0x00000005;
       PCI_CONF1_ADDRESS 0x28 0x72 := 0x00800000;
       PCI_CONF1_ADDRESS 0x28 0x34 := 0x70; PCI_CONF1_ADDRESS 0x28 0x70 := 0x00800005 ]})).
Definition sim_irq : IrqOps sim := {| handle_irq _ _ := mret (); irq_enable := mret () |}.

Lemma pci_msi_shared_object_witness :
  wp (p1 ← pci_msi_init (Some (MsiDev 0x20 false)); _ ← pci_msi_probe (io := sim_io (λ _ v, v)) p1;
      p2 ← pci_msi_init (Some (MsiDev 0x28 false)); _ ← pci_msi_probe (io := sim_io (λ _ v, v)) p2;
      pci_msi_enable (io := sim_io (λ _ v, v)) p1 true)
    (λ r _, r = 0) sim_msi.
Proof.
  eapply wp_mono.
  - apply (pci_msi_shared_object (laws := sim_laws (λ _ v, v)) 0x20 0x28 0x50 0x70 true sim_msi);
      by vm_compute.
  - by intros r s' [-> _].
Defined.

Lemma sim_msi_regs : msi_regs (laws := sim_laws (λ _ v, v)) 0x28 0x70.
Proof.
  split.
  - intros s off n v Hoff. unfold cfg_get, cfg_set, cf_val, cf_put, sim_laws, sim_val, sim_put.
    cbn [sim_regs]. rewrite lookup_insert_eq. cbn [from_option id].
    assert (data_off off n = 0) as ->.
    { unfold data_off. destruct Hoff as [->|[->| ->]]; by destruct n as [|[|[|n]]]. }
    rewrite Z.shiftr_0_r. apply wrap_wrap.
  - intros s off off' n n' v Hoff Hoff' Hne.
    unfold cfg_get, cfg_set, cf_val, cf_put, sim_laws, sim_val, sim_put. cbn [sim_regs].
    rewrite lookup_insert_ne; [done|].
    destruct Hoff as [->|[->| ->]], Hoff' as [->|[->| ->]]; try done; by vm_compute.
Qed.

Lemma pci_msi_config_registers_witness :
  wp (pci_msi_config (io := sim_io (λ _ v, v)) (Some (MsiDev 0x28 true)) 0x1fee00000 0x40)
    (λ r s', r = 0 ∧
       cfg_get (laws := sim_laws (λ _ v, v)) (conf s') 0x28 0x74 4 = 0xfee00000 ∧
       cfg_get (laws := sim_laws (λ _ v, v)) (conf s') 0x28 0x78 4 = 1 ∧
       cfg_get (laws := sim_laws (λ _ v, v)) (conf s') 0x28 0x7c 2 = 0x40)
    (MState (Msi 0x70 (Cap 0 0 0 0)) (util sim_msi)).
Proof.
  eapply wp_mono.
  - apply (pci_msi_config_registers (laws := sim_laws (λ _ v, v)) 0x28 0x1fee00000 0x40
             (MState (Msi 0x70 (Cap 0 0 0 0)) (util sim_msi))); [done|cbn; lia|apply sim_msi_regs|lia|lia].
  - intros r s' (-> & H1 & H2). split; [done|]. split; [exact H1|].
    replace (bit_set _ _) with true in H2 by (by vm_compute). exact H2.
Defined.
