(* ===== verification/Smp.v ===== *)
(** * Running functions on other processors: lib/x86/smp.c

    The processors as a transition system.  Each has a main program, which
    makes calls of [on_cpu] and [on_cpu_async], and may be interrupted by the
    handler [ipi]; every access to the shared variables is a step of its own,
    so that the theorems are about all interleavings.  A local interrupt
    controller keeps one request bit ([irr]) and one in-service bit ([isr]) for
    IPI_VECTOR.  Interrupts are enabled in the main programs, and the functions
    that are run are single steps that make no calls of their own.

    The history at the end of the state is not part of the program: the
    requests in the order in which the lock was taken (the position is the
    ticket of a request), and the functions that were run. *)

From S2P Require Import Prelude.

(** A call of [__on_cpu]. *)
Record req := Req { target : nat; fn : Z; arg : Z; wait : bool }.

Definition on_cpu (cpu : nat) (function data : Z) : req := Req cpu function data true.
Definition on_cpu_async (cpu : nat) (function data : Z) : req := Req cpu function data false.
(** The calls of [on_cpus], from the last processor to the first. *)
Definition on_cpus (cpu_count : nat) (function data : Z) : list req :=
  (λ cpu, on_cpu_async cpu function data) <$> rev (seq 0 cpu_count).

(** The place of a main program in [__on_cpu]. *)
Inductive mpc :=
| Ready                 (* between calls *)
| Locking (r : req)     (* spin_lock(&ipi_lock) *)
| Held (r : req)        (* if (cpu == smp_id()) *)
| Inc (r : req)         (* atomic_inc(&active_cpus) *)
| SetDone (r : req)     (* ipi_done = 0 *)
| SetFn (r : req)       (* ipi_function = function *)
| SetData (r : req)     (* ipi_data = data *)
| SetWait (r : req)     (* ipi_wait = wait *)
| SendIcr (r : req)     (* apic_icr_write(..., cpu) *)
| Spinning (r : req)    (* while (!ipi_done) *)
| Unlock (r : req).     (* spin_unlock(&ipi_lock) *)

(** The place of a processor in [ipi]. *)
Inductive ipc :=
| NoIpi
| RdFn                            (* function = ipi_function *)
| RdData (f : Z)                  (* data = ipi_data *)
| RdWait (f d : Z)                (* wait = ipi_wait *)
| EarlyDone (f d : Z)             (* if (!wait) ipi_done = 1 *)
| EarlyEoi (f d : Z)              (* apic_write(APIC_EOI, 0) *)
| Call (f d : Z) (w : bool)       (* function(data) *)
| Dec (w : bool)                  (* atomic_dec(&active_cpus) *)
| LateDone                        (* if (wait) ipi_done = 1 *)
| LateEoi                         (* apic_write(APIC_EOI, 0) *)
| Iret.

Record event := Ran { ticket : nat; on : nat; ran_fn : Z; ran_arg : Z }.

Record smp := Smp {
  ipi_lock : bool; ipi_function : Z; ipi_data : Z; ipi_done : bool; ipi_wait : bool; active_cpus : Z;
  irr : nat → bool; isr : nat → bool;
  mains : nat → mpc; ipis : nat → ipc;
  owner : option nat; issued : list req; ran : list event; tick : nat → nat;
}.

Definition upd {A} (f : nat → A) (i : nat) (v : A) : nat → A := λ j, if decide (j = i) then v else f j.

Lemma upd_eq {A} (f : nat → A) i v : upd f i v i = v.
Proof. unfold upd. by rewrite decide_True. Qed.
Lemma upd_ne {A} (f : nat → A) i j v : j ≠ i → upd f i v j = f j.
Proof. intros. unfold upd. by rewrite decide_False. Qed.

(** The ticket of the last request. *)
Definition cur (s : smp) : nat := length (issued s) - 1.

(** *** Updates *)

Definition set_main (i : nat) (pc : mpc) (s : smp) : smp :=
  Smp (ipi_lock s) (ipi_function s) (ipi_data s) (ipi_done s) (ipi_wait s) (active_cpus s) (irr s) (isr s)
      (upd (mains s) i pc) (ipis s) (owner s) (issued s) (ran s) (tick s).
Definition set_ipi (c : nat) (pc : ipc) (s : smp) : smp :=
  Smp (ipi_lock s) (ipi_function s) (ipi_data s) (ipi_done s) (ipi_wait s) (active_cpus s) (irr s) (isr s)
      (mains s) (upd (ipis s) c pc) (owner s) (issued s) (ran s) (tick s).
Definition set_box (f d : Z) (done w : bool) (s : smp) : smp :=
  Smp (ipi_lock s) f d done w (active_cpus s) (irr s) (isr s)
      (mains s) (ipis s) (owner s) (issued s) (ran s) (tick s).
Definition set_active (a : Z) (s : smp) : smp :=
  Smp (ipi_lock s) (ipi_function s) (ipi_data s) (ipi_done s) (ipi_wait s) a (irr s) (isr s)
      (mains s) (ipis s) (owner s) (issued s) (ran s) (tick s).
Definition set_irr (c : nat) (b : bool) (s : smp) : smp :=
  Smp (ipi_lock s) (ipi_function s) (ipi_data s) (ipi_done s) (ipi_wait s) (active_cpus s) (upd (irr s) c b)
      (isr s) (mains s) (ipis s) (owner s) (issued s) (ran s) (tick s).
Definition set_isr (c : nat) (b : bool) (s : smp) : smp :=
  Smp (ipi_lock s) (ipi_function s) (ipi_data s) (ipi_done s) (ipi_wait s) (active_cpus s) (irr s)
      (upd (isr s) c b) (mains s) (ipis s) (owner s) (issued s) (ran s) (tick s).
Definition take_lock (i : nat) (r : req) (s : smp) : smp :=
  Smp true (ipi_function s) (ipi_data s) (ipi_done s) (ipi_wait s) (active_cpus s) (irr s) (isr s)
      (mains s) (ipis s) (Some i) (issued s ++ [r]) (ran s) (tick s).
Definition drop_lock (s : smp) : smp :=
  Smp false (ipi_function s) (ipi_data s) (ipi_done s) (ipi_wait s) (active_cpus s) (irr s) (isr s)
      (mains s) (ipis s) None (issued s) (ran s) (tick s).
Definition run (e : event) (s : smp) : smp :=
  Smp (ipi_lock s) (ipi_function s) (ipi_data s) (ipi_done s) (ipi_wait s) (active_cpus s) (irr s) (isr s)
      (mains s) (ipis s) (owner s) (issued s) (e :: ran s) (tick s).
Definition set_tick (c t : nat) (s : smp) : smp :=
  Smp (ipi_lock s) (ipi_function s) (ipi_data s) (ipi_done s) (ipi_wait s) (active_cpus s) (irr s) (isr s)
      (mains s) (ipis s) (owner s) (issued s) (ran s) (upd (tick s) c t).

(** *** Steps *)

(** The next step of a main program that is not interrupted; [None]: it waits. *)
Definition main_step (i : nat) (s : smp) : option smp :=
  match mains s i with
  | Ready => None
  | Locking r => if ipi_lock s then None else Some (set_main i (Held r) (take_lock i r s))
  | Held r =>
      if decide (target r = i) then Some (set_main i (Unlock r) (run (Ran (cur s) i (fn r) (arg r)) s))
      else Some (set_main i (Inc r) s)
  | Inc r => Some (set_main i (SetDone r) (set_active (active_cpus s + 1) s))
  | SetDone r => Some (set_main i (SetFn r) (set_box (ipi_function s) (ipi_data s) false (ipi_wait s) s))
  | SetFn r => Some (set_main i (SetData r) (set_box (fn r) (ipi_data s) (ipi_done s) (ipi_wait s) s))
  | SetData r => Some (set_main i (SetWait r) (set_box (ipi_function s) (arg r) (ipi_done s) (ipi_wait s) s))
  | SetWait r => Some (set_main i (SendIcr r) (set_box (ipi_function s) (ipi_data s) (ipi_done s) (wait r) s))
  | SendIcr r => Some (set_main i (Spinning r) (set_irr (target r) true s))
  | Spinning r => if ipi_done s then Some (set_main i (Unlock r) s) else None
  | Unlock r => Some (set_main i Ready (drop_lock s))
  end.

Definition done_box (s : smp) : smp := set_box (ipi_function s) (ipi_data s) true (ipi_wait s) s.

(** The next step of the handler on the processor [c]. *)
Definition ipi (c : nat) (s : smp) : option smp :=
  match ipis s c with
  | NoIpi => None
  | RdFn => Some (set_ipi c (RdData (ipi_function s)) s)
  | RdData f => Some (set_ipi c (RdWait f (ipi_data s)) s)
  | RdWait f d => Some (set_ipi c (if ipi_wait s then Call f d true else EarlyDone f d) s)
  | EarlyDone f d => Some (set_ipi c (EarlyEoi f d) (done_box s))
  | EarlyEoi f d => Some (set_ipi c (Call f d false) (set_isr c false s))
  | Call f d w => Some (set_ipi c (Dec w) (run (Ran (tick s c) c f d) s))
  | Dec w => Some (set_ipi c (if w then LateDone else Iret) (set_active (active_cpus s - 1) s))
  | LateDone => Some (set_ipi c LateEoi (done_box s))
  | LateEoi => Some (set_ipi c Iret (set_isr c false s))
  | Iret => Some (set_ipi c NoIpi s)
  end.

(** The interrupt is accepted between two instructions of the main program. *)
Definition deliver (c : nat) (s : smp) : option smp :=
  match ipis s c with
  | NoIpi => if irr s c && negb (isr s c)
             then Some (set_ipi c RdFn (set_tick c (cur s) (set_isr c true (set_irr c false s)))) else None
  | _ => None
  end.

(** The system of [n] processors. *)
Inductive step (n : nat) : smp → smp → Prop :=
| step_call (i : nat) r s : (i < n)%nat → (target r < n)%nat → mains s i = Ready → ipis s i = NoIpi →
    step n s (set_main i (Locking r) s)
| step_main (i : nat) s s' : (i < n)%nat → ipis s i = NoIpi → main_step i s = Some s' → step n s s'
| step_ipi (c : nat) s s' : (c < n)%nat → ipi c s = Some s' → step n s s'
| step_deliver (c : nat) s s' : (c < n)%nat → deliver c s = Some s' → step n s s'.

(** After [smp_init]: nobody calls, one processor is active. *)
Definition start (s : smp) : Prop :=
  ipi_lock s = false ∧ active_cpus s = 1 ∧ owner s = None ∧ issued s = [] ∧ ran s = [] ∧
  ∀ c, irr s c = false ∧ isr s c = false ∧ mains s c = Ready ∧ ipis s c = NoIpi.

Inductive reachable (n : nat) : smp → Prop :=
| reach_start s : start s → reachable n s
| reach_step s s' : reachable n s → step n s s' → reachable n s'.

(** ** The mailbox *)

Definition req_of (pc : mpc) : option req :=
  match pc with
  | Ready => None
  | Locking r | Held r | Inc r | SetDone r | SetFn r | SetData r | SetWait r | SendIcr r | Spinning r
  | Unlock r => Some r
  end.

(** Inside the critical section. *)
Definition crit (pc : mpc) : bool := match pc with Ready | Locking _ => false | _ => true end.

(** Past the test of the processor's own number. *)
Definition remote (pc : mpc) : option req :=
  match pc with
  | Inc r | SetDone r | SetFn r | SetData r | SetWait r | SendIcr r | Spinning r => Some r
  | _ => None
  end.

(** What the main program has stored so far. *)
Definition stored (s : smp) (pc : mpc) : Prop :=
  match pc with
  | SetFn r => ipi_done s = false
  | SetData r => ipi_done s = false ∧ ipi_function s = fn r
  | SetWait r => ipi_done s = false ∧ ipi_function s = fn r ∧ ipi_data s = arg r
  | SendIcr r => ipi_done s = false ∧ ipi_function s = fn r ∧ ipi_data s = arg r ∧ ipi_wait s = wait r
  | Spinning r => ipi_function s = fn r ∧ ipi_data s = arg r ∧ ipi_wait s = wait r
  | _ => True
  end.

(** The handler works for the processor that waits for [ipi_done]. *)
Definition serving (pc : ipc) : bool :=
  match pc with
  | RdFn | RdData _ | RdWait _ _ | EarlyDone _ _ | Call _ _ true | Dec true | LateDone => true
  | _ => false
  end.

(** Before the end-of-interrupt. *)
Definition in_service (pc : ipc) : bool :=
  match pc with NoIpi | Call _ _ false | Dec false | Iret => false | _ => true end.

(** The request that waits for its handler. *)
Definition flight (s : smp) : option req :=
  match owner s with
  | Some i => match mains s i with Spinning r => if ipi_done s then None else Some r | _ => None end
  | None => None
  end.

(** What a handler has read agrees with the request. *)
Definition agrees (pc : ipc) (r : req) : Prop :=
  match pc with
  | RdData f => f = fn r
  | RdWait f d => f = fn r ∧ d = arg r
  | EarlyDone f d | EarlyEoi f d => f = fn r ∧ d = arg r ∧ wait r = false
  | Call f d w => f = fn r ∧ d = arg r ∧ wait r = w
  | Dec w => wait r = w
  | LateDone => wait r = true
  | _ => True
  end.

Record box_inv (n : nat) (s : smp) : Prop := {
  bi_owner i : owner s = Some i ↔ crit (mains s i) = true;
  bi_lock : ipi_lock s = bool_decide (is_Some (owner s));
  bi_last i r : owner s = Some i → req_of (mains s i) = Some r → last (issued s) = Some r;
  bi_bound i : (i < n)%nat ∨ (mains s i = Ready ∧ ipis s i = NoIpi);
  bi_target i r : req_of (mains s i) = Some r → (target r < n)%nat;
  bi_remote i r : remote (mains s i) = Some r → target r ≠ i;
  bi_stored i : stored s (mains s i);
  bi_isr c : isr s c = true → in_service (ipis s c) = true;
  bi_irr c : irr s c = true → serving (ipis s c) = false ∧ ∃ r, flight s = Some r ∧ target r = c;
  bi_serving c : serving (ipis s c) = true →
    irr s c = false ∧ ∃ r, flight s = Some r ∧ target r = c ∧ agrees (ipis s c) r;
  bi_flight r : flight s = Some r → irr s (target r) = true ∨ serving (ipis s (target r)) = true;
}.

Lemma box_start n s : start s → box_inv n s.
Proof.
  intros (Hl & _ & Ho & Hi & Hr & Hc).
  assert (∀ c, mains s c = Ready) as Hm by apply Hc. assert (∀ c, ipis s c = NoIpi) as Hp by apply Hc.
  assert (∀ c, irr s c = false) as Hirr by apply Hc. assert (∀ c, isr s c = false) as Hisr by apply Hc.
  split; intros *; rewrite ?Hm, ?Hp, ?Hirr, ?Hisr, ?Hl, ?Ho; try done; auto.
  unfold flight. by rewrite Ho.
Qed.

(** Only the owner of the lock is in the critical section. *)
Lemma box_crit n s i j : box_inv n s → owner s = Some i → crit (mains s j) = true → j = i.
Proof. intros H Ho Hc. apply (bi_owner _ _ H) in Hc. congruence. Qed.

Lemma stored_noncrit s pc : crit pc = false → stored s pc.
Proof. by destruct pc. Qed.

(** A step of the owner inside the critical section. *)
Lemma box_owner n i r s s' pc' :
  box_inv n s → crit (mains s i) = true → req_of (mains s i) = Some r →
  mains s' = upd (mains s) i pc' → crit pc' = true → req_of pc' = Some r →
  (remote pc' ≠ None → target r ≠ i) → stored s' pc' →
  (ipi_lock s', owner s', issued s', ipis s', isr s', irr s', flight s') =
  (ipi_lock s, owner s, issued s, ipis s, isr s, irr s, flight s) →
  box_inv n s'.
Proof.
  intros H Hcr Hreq Hm Hcr' Hreq' Hrem Hst [= Hl Ho Hi Hp Hs Hr Hf].
  pose proof (proj2 (bi_owner _ _ H i) Hcr) as Hown.
  assert (i < n)%nat as Hin.
  { destruct (bi_bound _ _ H i) as [?|[E _]]; [done|]. by rewrite E in Hcr. }
  assert (∀ j, j ≠ i → crit (mains s j) = false) as Hnc.
  { intros j Hj. destruct (crit (mains s j)) eqn:E; [|done]. by pose proof (box_crit _ _ _ _ H Hown E). }
  split; rewrite ?Hl, ?Ho, ?Hi, ?Hp, ?Hs, ?Hr, ?Hf, ?Hm; try apply H.
  - intros j. unfold upd. case_decide as Hj; [subst; by split|apply H].
  - intros j r'. unfold upd. case_decide as Hj; [|apply H]. subst. rewrite Hreq'. intros Hj [= <-].
    by apply (bi_last _ _ H i).
  - intros j. unfold upd. case_decide as Hj; [subst; by left|apply H].
  - intros j r'. unfold upd. case_decide as Hj; [|apply H]. subst. rewrite Hreq'. intros [= <-].
    by apply (bi_target _ _ H i).
  - intros j r'. unfold upd. case_decide as Hj; [|apply H]. subst. intros E.
    assert (r' = r) as -> by (destruct pc'; simplify_eq/=; done). apply Hrem. by rewrite E.
  - intros j. unfold upd. case_decide as Hj; [by subst|]. by apply stored_noncrit, Hnc.
Qed.

(** Without a request in flight nothing is pending and no handler serves. *)
Lemma box_quiet n s :
  box_inv n s → flight s = None → (∀ c, irr s c = false) ∧ (∀ c, serving (ipis s c) = false).
Proof.
  intros H Hf. split; intros c.
  - destruct (irr s c) eqn:E; [|done]. apply (bi_irr _ _ H) in E as (_ & r' & ? & _). congruence.
  - destruct (serving (ipis s c)) eqn:E; [|done].
    apply (bi_serving _ _ H) in E as (_ & r' & ? & _). congruence.
Qed.

Lemma flight_owner s i : owner s = Some i →
  flight s = match mains s i with Spinning r => if ipi_done s then None else Some r | _ => None end.
Proof. unfold flight. by intros ->. Qed.

Lemma box_lock n i r s :
  (i < n)%nat → box_inv n s → mains s i = Locking r → ipi_lock s = false →
  box_inv n (set_main i (Held r) (take_lock i r s)).
Proof.
  intros Hi H Epc El.
  assert (owner s = None) as Ho.
  { rewrite (bi_lock _ _ H) in El. apply bool_decide_eq_false, eq_None_not_Some in El. done. }
  assert (∀ j, crit (mains s j) = false) as Hnc.
  { intros j. destruct (crit (mains s j)) eqn:E; [|done]. apply (bi_owner _ _ H) in E. congruence. }
  assert (flight s = None) as Hf by (unfold flight; by rewrite Ho).
  destruct (box_quiet _ _ H Hf) as [Hirr Hsv].
  split; cbn [ipi_lock owner issued mains ipis isr irr set_main take_lock].
  + intros j. unfold upd. case_decide as Hj; [subst; split; done|]. rewrite Hnc. split; [congruence|done].
  + done.
  + intros j r' [= <-]. rewrite upd_eq. intros [= <-]. by rewrite last_snoc.
  + intros j. unfold upd. case_decide as Hj; [subst; by left|]. apply (bi_bound _ _ H).
  + intros j r'. unfold upd. case_decide as Hj; [intros [= <-]; subst; apply (bi_target _ _ H i); by rewrite Epc|].
    apply (bi_target _ _ H).
  + intros j r'. unfold upd. case_decide as Hj; [done|]. apply (bi_remote _ _ H).
  + intros j. unfold upd. case_decide as Hj; [done|]. by apply stored_noncrit.
  + apply (bi_isr _ _ H).
  + intros c. by rewrite Hirr.
  + intros c. by rewrite Hsv.
  + intros r'. unfold flight. cbn. by rewrite upd_eq.
Qed.

Lemma box_send n i r s :
  (i < n)%nat → box_inv n s → mains s i = SendIcr r → ipis s i = NoIpi →
  box_inv n (set_main i (Spinning r) (set_irr (target r) true s)).
Proof.
  intros Hi H Epc Hip. pose proof (bi_remote _ _ H i) as Hrem. pose proof (bi_stored _ _ H i) as Hst.
  rewrite Epc in Hrem, Hst. cbn in Hrem, Hst. destruct Hst as (Hd & Hst).
  assert (owner s = Some i) as Ho by (apply (bi_owner _ _ H); by rewrite Epc).
  pose proof (flight_owner s i Ho) as Hf. rewrite Epc in Hf. destruct (box_quiet _ _ H Hf) as [Hirr Hsv].
  assert (flight (set_main i (Spinning r) (set_irr (target r) true s)) = Some r) as Hf'.
  { unfold flight. cbn. by rewrite Ho, upd_eq, Hd. }
  split; rewrite ?Hf'; cbn [ipi_lock owner issued mains ipis isr irr set_main set_irr].
  - intros j. unfold upd. case_decide as Hj; [subst; split; done|apply H].
  - apply H.
  - intros j r'. unfold upd. case_decide as Hj; [|apply H]. subst. intros _ [= <-].
    apply (bi_last _ _ H i); [done|by rewrite Epc].
  - intros j. unfold upd. case_decide as Hj; [subst; by left|apply H].
  - intros j r'. unfold upd. case_decide as Hj; [|apply H]. subst. intros [= <-].
    apply (bi_target _ _ H i). by rewrite Epc.
  - intros j r'. unfold upd. case_decide as Hj; [|apply H]. subst. intros [= <-]. by apply Hrem.
  - intros j. unfold upd. case_decide as Hj; [done|]. apply stored_noncrit.
    destruct (crit (mains s j)) eqn:E; [|done]. by pose proof (box_crit _ _ _ _ H Ho E).
  - apply H.
  - intros c. unfold upd. case_decide as Hc; [subst; intros _; split; [done|by exists r]|by rewrite Hirr].
  - intros c. by rewrite Hsv.
  - intros r' [= <-]. left. by rewrite upd_eq.
Qed.

Lemma box_unlock n i r s :
  (i < n)%nat → box_inv n s → mains s i = Unlock r → box_inv n (set_main i Ready (drop_lock s)).
Proof.
  intros Hi H Epc.
  assert (owner s = Some i) as Ho by (apply (bi_owner _ _ H); by rewrite Epc).
  pose proof (flight_owner s i Ho) as Hf. rewrite Epc in Hf. destruct (box_quiet _ _ H Hf) as [Hirr Hsv].
  assert (∀ j, j ≠ i → crit (mains s j) = false) as Hnc.
  { intros j Hj. destruct (crit (mains s j)) eqn:E; [|done]. by pose proof (box_crit _ _ _ _ H Ho E). }
  split; cbn [ipi_lock owner issued mains ipis isr irr set_main drop_lock].
  - intros j. split; [done|]. unfold upd. case_decide as Hj; [done|]. by rewrite Hnc.
  - done.
  - done.
  - intros j. unfold upd. case_decide as Hj; [subst; by left|apply H].
  - intros j r'. unfold upd. case_decide as Hj; [done|apply H].
  - intros j r'. unfold upd. case_decide as Hj; [done|apply H].
  - intros j. unfold upd. case_decide as Hj; [done|]. by apply stored_noncrit, Hnc.
  - apply H.
  - intros c. by rewrite Hirr.
  - intros c. by rewrite Hsv.
  - intros r'. unfold flight. done.
Qed.

Lemma box_main n i s s' :
  (i < n)%nat → box_inv n s → ipis s i = NoIpi → main_step i s = Some s' → box_inv n s'.
Proof.
  intros Hi H Hip Hstep. unfold main_step in Hstep.
  destruct (mains s i) as [|r|r|r|r|r|r|r|r|r|r] eqn:Epc; simplify_eq/=;
    pose proof (bi_remote _ _ H i) as Hrem; pose proof (bi_stored _ _ H i) as Hst;
    rewrite Epc in Hrem, Hst; cbn in Hrem, Hst;
    try (assert (owner s = Some i) as Ho by (apply (bi_owner _ _ H); by rewrite Epc);
         pose proof (flight_owner s i Ho) as Hf; rewrite Epc in Hf).
  - destruct (ipi_lock s) eqn:El; simplify_eq. by apply (box_lock n i r).
  - destruct (decide (target r = i)) as [E|E]; injection Hstep as <-;
      (eapply (box_owner n i r s); [done|by rewrite Epc|by rewrite Epc|done|done|done|done|done|];
       unfold flight; cbn; by rewrite Ho, upd_eq, Epc).
  - eapply (box_owner n i r s); [done|by rewrite Epc|by rewrite Epc|done|done|done|by auto|done|].
    unfold flight; cbn; by rewrite Ho, upd_eq, Epc.
  - eapply (box_owner n i r s); [done|by rewrite Epc|by rewrite Epc|done|done|done|by auto|done|].
    unfold flight; cbn; by rewrite Ho, upd_eq, Epc.
  - eapply (box_owner n i r s); [done|by rewrite Epc|by rewrite Epc|done|done|done|by auto|cbn; tauto|].
    unfold flight; cbn; by rewrite Ho, upd_eq, Epc.
  - eapply (box_owner n i r s); [done|by rewrite Epc|by rewrite Epc|done|done|done|by auto|cbn; tauto|].
    unfold flight; cbn; by rewrite Ho, upd_eq, Epc.
  - eapply (box_owner n i r s); [done|by rewrite Epc|by rewrite Epc|done|done|done|by auto|cbn; tauto|].
    unfold flight; cbn; by rewrite Ho, upd_eq, Epc.
  - by apply (box_send n i r).
  - destruct (ipi_done s) eqn:Ed; simplify_eq.
    eapply (box_owner n i r s); [done|by rewrite Epc|by rewrite Epc|done|done|done|done|done|].
    unfold flight; cbn; by rewrite Ho, upd_eq, Epc, Ed.
  - by apply (box_unlock n i r).
Qed.

(** A step of a handler that leaves the mailbox alone. *)
Lemma box_handler n c pc' s s' :
  (c < n)%nat → box_inv n s → ipis s' = upd (ipis s) c pc' →
  serving pc' = serving (ipis s c) → (∀ r, agrees (ipis s c) r → serving (ipis s c) = true →
    (flight s = Some r) → agrees pc' r) →
  (∀ j, isr s' j = true → isr s j = true ∧ (j = c → in_service pc' = true)) →
  (ipi_lock s', owner s', issued s', mains s', irr s', ipi_function s', ipi_data s', ipi_done s', ipi_wait s') =
  (ipi_lock s, owner s, issued s, mains s, irr s, ipi_function s, ipi_data s, ipi_done s, ipi_wait s) →
  box_inv n s'.
Proof.
  intros Hc H Hp Hsv Hag Hs [= Hl Ho Hi Hm Hr E1 E2 E3 E4].
  assert (flight s' = flight s) as Hf by (unfold flight; by rewrite Ho, Hm, E3).
  split; rewrite ?Hl, ?Ho, ?Hi, ?Hm, ?Hr, ?Hf, ?Hp; try apply H.
  - intros j. unfold upd. case_decide; [subst; by left|apply H].
  - intros j. pose proof (bi_stored _ _ H j) as Hst. revert Hst. unfold stored.
    by rewrite E1, E2, E3, E4.
  - intros j Hj. apply Hs in Hj as [Hj1 Hj2]. unfold upd. case_decide; [auto|by apply H].
  - intros j Hj. pose proof (bi_irr _ _ H j Hj) as [H1 H2]. split; [|done].
    unfold upd. case_decide; [subst; by rewrite Hsv|done].
  - intros j. unfold upd. case_decide; [|apply H]. subst. rewrite Hsv. intros Hj.
    destruct (bi_serving _ _ H _ Hj) as (H1 & r & H2 & H3 & H4). split; [done|].
    exists r. split; [done|]. split; [done|]. by apply Hag.
  - intros r Hr'. destruct (bi_flight _ _ H r Hr') as [?|?]; [by left|right].
    unfold upd. case_decide as E; [by rewrite Hsv, <- E|done].
Qed.

(** The handler that serves sets [ipi_done]. *)
Lemma box_handler_done n c pc' s :
  (c < n)%nat → box_inv n s → serving (ipis s c) = true → serving pc' = false →
  in_service pc' = true → box_inv n (set_ipi c pc' (done_box s)).
Proof.
  intros Hc H Hsv Hsv' Hin.
  destruct (bi_serving _ _ H _ Hsv) as (Hirr & r & Hf & Ht & Hag).
  assert (∃ i, owner s = Some i ∧ mains s i = Spinning r) as (i & Ho & Hm).
  { unfold flight in Hf. destruct (owner s) as [i|]; [|done]. exists i. split; [done|].
    destruct (mains s i); try done. destruct (ipi_done s); congruence. }
  assert (flight (set_ipi c pc' (done_box s)) = None) as Hf'.
  { unfold flight. cbn. by rewrite Ho, Hm. }
  assert (∀ j, irr s j = false) as Hirr'.
  { intros j. destruct (irr s j) eqn:E; [|done]. apply (bi_irr _ _ H) in E as (E & r' & Hr' & Ht').
    rewrite Hf in Hr'. simplify_eq. congruence. }
  assert (∀ j, j ≠ c → serving (ipis s j) = false) as Hsvo.
  { intros j Hj. destruct (serving (ipis s j)) eqn:E; [|done].
    apply (bi_serving _ _ H) in E as (_ & r' & Hr' & Ht' & _). rewrite Hf in Hr'. simplify_eq. }
  split; rewrite ?Hf'; cbn [ipi_lock owner issued mains ipis isr irr set_ipi done_box set_box]; try apply H.
  - intros j. unfold upd. case_decide; [subst; by left|apply H].
  - intros j. destruct (decide (j = i)) as [->|Hj].
    + pose proof (bi_stored _ _ H i) as Hst. rewrite Hm in Hst |- *. exact Hst.
    + apply stored_noncrit. destruct (crit (mains s j)) eqn:E; [|done].
      by pose proof (box_crit _ _ _ _ H Ho E).
  - intros j Hj. unfold upd. case_decide; [done|by apply H].
  - intros j. by rewrite Hirr'.
  - intros j. unfold upd. case_decide; [by rewrite Hsv'|by rewrite Hsvo].
  - done.
Qed.

Lemma box_ipi n c s s' : (c < n)%nat → box_inv n s → ipi c s = Some s' → box_inv n s'.
Proof.
  intros Hc H Hstep. unfold ipi in Hstep.
  assert (∀ r, serving (ipis s c) = true → flight s = Some r →
    ipi_function s = fn r ∧ ipi_data s = arg r ∧ ipi_wait s = wait r) as Hbox.
  { intros r Hsv Hf. unfold flight in Hf. destruct (owner s) as [i|]; [|done].
    pose proof (bi_stored _ _ H i) as Hst. destruct (mains s i); try done.
    destruct (ipi_done s); simplify_eq. exact Hst. }
  assert (∀ j, isr s j = true → isr s j = true ∧ (j = c → in_service (ipis s c) = true)) as Hisr.
  { intros j Hj. split; [done|]. intros ->. by apply H. }
  destruct (ipis s c) as [| |f|f d|f d|f d|f d w|w| | |] eqn:Epc; simplify_eq/=.
  - eapply (box_handler n c (RdData (ipi_function s)) s); rewrite ?Epc; try done.
    intros r _ Hs Hf. by apply Hbox.
  - eapply (box_handler n c (RdWait f (ipi_data s)) s); rewrite ?Epc; try done.
    intros r -> Hs Hf. split; [done|by apply Hbox].
  - eapply (box_handler n c _ s); rewrite ?Epc; try done; destruct (ipi_wait s) eqn:Ew; try done;
      intros r [-> ->] Hs Hf; destruct (Hbox _ Hs Hf) as (_ & _ & E); cbn; auto.
  - apply box_handler_done; rewrite ?Epc; done.
  - eapply (box_handler n c (Call f d false) s); rewrite ?Epc; try done.
    intros j. cbn. unfold upd. case_decide; [done|]. done.
  - eapply (box_handler n c (Dec w) s); rewrite ?Epc; try done.
    by intros r (_ & _ & ?).
  - destruct w.
    + eapply (box_handler n c LateDone s); rewrite ?Epc; try done.
    + eapply (box_handler n c Iret s); rewrite ?Epc; try done.
  - apply box_handler_done; rewrite ?Epc; done.
  - eapply (box_handler n c Iret s); rewrite ?Epc; try done.
    intros j. cbn. unfold upd. case_decide; [done|]. done.
  - eapply (box_handler n c NoIpi s); rewrite ?Epc; try done.
Qed.

Lemma box_deliver n c s s' : (c < n)%nat → box_inv n s → deliver c s = Some s' → box_inv n s'.
Proof.
  intros Hc H Hstep. unfold deliver in Hstep. destruct (ipis s c) eqn:Epc; try done.
  destruct (irr s c) eqn:Eirr; [|done]. cbn in Hstep. destruct (isr s c) eqn:Eisr; [done|].
  destruct (bi_irr _ _ H _ Eirr) as (_ & r & Hf & Ht).
  injection Hstep as <-. set (s' := set_ipi _ _ _). assert (flight s' = Some r) as Hf' by done.
  assert (∀ j, irr s j = true → j = c) as Hirr.
  { intros j Hj. apply (bi_irr _ _ H) in Hj as (_ & r' & Hr' & Ht'). congruence. }
  assert (∀ j, serving (ipis s j) = true → False) as Hsv.
  { intros j Hj. apply (bi_serving _ _ H) in Hj as (E & r' & Hr' & Ht' & _).
    rewrite Hf in Hr'. simplify_eq. congruence. }
  split; rewrite ?Hf'; cbn; try apply H.
  - intros j. unfold upd. case_decide; [subst; by left|apply H].
  - intros j. unfold upd. case_decide; [done|apply H].
  - intros j. unfold upd. case_decide; [done|]. intros Hj. by apply Hirr in Hj.
  - intros j. unfold upd. case_decide; [|intros Hj; by apply Hsv in Hj]. intros _. subst. split; [done|]. by exists r.
  - intros r' [= <-]. right. unfold upd. rewrite Ht. by case_decide.
Qed.

Lemma box_call n i r s :
  (i < n)%nat → (target r < n)%nat → box_inv n s → mains s i = Ready → box_inv n (set_main i (Locking r) s).
Proof.
  intros Hi Ht H Epc.
  assert (flight (set_main i (Locking r) s) = flight s) as Hf.
  { unfold flight. cbn. destruct (owner s) as [j|] eqn:Eo; [|done]. unfold upd. case_decide; [|done]. subst.
    apply (bi_owner _ _ H) in Eo. by rewrite Epc in Eo. }
  split; rewrite ?Hf; cbn; try apply H.
  - intros j. unfold upd. case_decide; [|apply H]. subst. rewrite (bi_owner _ _ H), Epc. done.
  - intros j r'. unfold upd. case_decide; [|apply H]. subst. intros Ho.
    apply (bi_owner _ _ H) in Ho. by rewrite Epc in Ho.
  - intros j. unfold upd. case_decide; [subst; by left|apply H].
  - intros j r'. unfold upd. case_decide; [by intros [= <-]|apply H].
  - intros j r'. unfold upd. case_decide; [done|apply H].
  - intros j. unfold upd. case_decide; [done|]. apply (bi_stored _ _ H).
Qed.

Lemma box_reachable n s : reachable n s → box_inv n s.
Proof.
  induction 1 as [s Hs|s s' _ IH Hstep]; [by apply box_start|]. destruct Hstep.
  - by apply box_call.
  - by eapply box_main.
  - by eapply box_ipi.
  - by eapply box_deliver.
Qed.

(** ** The history *)

Definition tickets (s : smp) : list nat := ticket <$> ran s.

(** The handler has not yet run the function. *)
Definition precall (pc : ipc) : bool :=
  match pc with
  | RdFn | RdData _ | RdWait _ _ | EarlyDone _ _ | EarlyEoi _ _ | Call _ _ _ => true
  | _ => false
  end.

(** A handler that will still set [ipi_done] has run the function. *)
Definition called (pc : ipc) : bool := match pc with Dec true | LateDone => true | _ => false end.

(** The last request has not been taken up by a handler. *)
Definition pending (s : smp) : bool :=
  match owner s with
  | Some i => match mains s i with
              | Held _ | Inc _ | SetDone _ | SetFn _ | SetData _ | SetWait _ | SendIcr _ => true
              | Spinning r => irr s (target r)
              | _ => false
              end
  | None => false
  end.

(** The main program may go on, and its function must have been run. *)
Definition returns (s : smp) (i : nat) : bool :=
  match mains s i with
  | Spinning r => ipi_done s && wait r
  | Unlock r => wait r || bool_decide (target r = i)
  | _ => false
  end.

Record hist_inv (s : smp) : Prop := {
  hi_tick c : precall (ipis s c) = true →
    ∃ r, issued s !! tick s c = Some r ∧ target r = c ∧ agrees (ipis s c) r;
  hi_cur c : serving (ipis s c) = true → tick s c = cur s;
  hi_called c : called (ipis s c) = true → tick s c ∈ tickets s;
  hi_new c : precall (ipis s c) = true → tick s c ∉ tickets s;
  hi_fresh : pending s = true → (cur s ∉ tickets s) ∧ (∀ c, precall (ipis s c) = true → tick s c ≠ cur s);
  hi_ran e : e ∈ ran s →
    ∃ r, issued s !! ticket e = Some r ∧ target r = on e ∧ fn r = ran_fn e ∧ arg r = ran_arg e;
  hi_nodup : NoDup (tickets s);
  hi_all t : (t < length (issued s))%nat →
    t ∈ tickets s ∨ (t = cur s ∧ pending s = true) ∨ ∃ c, precall (ipis s c) = true ∧ tick s c = t;
  hi_returns i : returns s i = true → cur s ∈ tickets s;
}.

Lemma hist_start s : start s → hist_inv s.
Proof.
  intros (Hl & _ & Ho & Hi & Hr & Hc).
  assert (∀ c, mains s c = Ready) as Hm by apply Hc. assert (∀ c, ipis s c = NoIpi) as Hp by apply Hc.
  split; unfold tickets, pending, returns; intros *;
    rewrite ?Hm, ?Hp, ?Hr, ?Ho, ?Hi; cbn; try done; try (intros; lia).
  - by intros ?%not_elem_of_nil.
  - constructor.
Qed.

(** A step that leaves handlers and history alone. *)
Lemma hist_frame s s' :
  hist_inv s → (issued s', ran s', tick s', ipis s') = (issued s, ran s, tick s, ipis s) →
  pending s' = pending s → (∀ i, returns s' i = true → cur s ∈ tickets s) → hist_inv s'.
Proof.
  intros H [= Hi Hr Ht Hp] Hpe Hret.
  split; unfold tickets, cur; rewrite ?Hpe, ?Hi, ?Hr, ?Ht, ?Hp; try apply H. exact Hret.
Qed.

(** A step of a handler other than the call. *)
Lemma hist_handler c pc' s s' :
  hist_inv s → ipis s' = upd (ipis s) c pc' →
  (issued s', ran s', tick s', mains s', owner s', irr s') =
  (issued s, ran s, tick s, mains s, owner s, irr s) →
  precall pc' = precall (ipis s c) →
  (∀ r, precall pc' = true → issued s !! tick s c = Some r → agrees (ipis s c) r → agrees pc' r) →
  (serving pc' = true → serving (ipis s c) = true) → (called pc' = true → called (ipis s c) = true) →
  (∀ i, returns s' i = true → cur s ∈ tickets s) → hist_inv s'.
Proof.
  intros H Hp [= Hi Hr Ht Hm Ho Hirr] Hpre Hag Hsv Hca Hret.
  assert (pending s' = pending s) as Hpe by (unfold pending; by rewrite Ho, Hm, Hirr).
  assert (∀ j, precall (upd (ipis s) c pc' j) = precall (ipis s j)) as Hpj.
  { intros j. unfold upd. case_decide; [by subst|done]. }
  split; unfold tickets, cur; rewrite ?Hpe, ?Hi, ?Hr, ?Ht, ?Hp; try apply H; try exact Hret.
  - intros j Hj. rewrite Hpj in Hj. destruct (hi_tick _ H j Hj) as (r & H1 & H2 & H3). exists r.
    split; [done|]. split; [done|]. unfold upd. case_decide as E; [|done]. rewrite E in *.
    apply Hag; [by rewrite Hpre|done|done].
  - intros j. unfold upd. case_decide; [subst; intros E; apply (hi_cur _ H); auto|apply H].
  - intros j. unfold upd. case_decide; [subst; intros E; apply (hi_called _ H); auto|apply H].
  - intros j. rewrite Hpj. apply H.
  - intros E. destruct (hi_fresh _ H E) as [H1 H2]. split; [done|]. intros j. rewrite Hpj. apply H2.
  - intros t Htl. destruct (hi_all _ H t Htl) as [?|[?|(j & H1 & H2)]]; [tauto|tauto|].
    right. right. exists j. by rewrite Hpj.
Qed.

Lemma flight_last n s r : box_inv n s → flight s = Some r → issued s !! cur s = Some r.
Proof.
  intros H Hf. unfold flight in Hf. destruct (owner s) as [i|] eqn:Eo; [|done].
  destruct (mains s i) eqn:Em; try done. destruct (ipi_done s); simplify_eq.
  pose proof (bi_last _ _ H i r Eo ltac:(by rewrite Em)) as Hl.
  rewrite last_lookup in Hl. unfold cur. by rewrite Nat.sub_1_r.
Qed.

(** A function runs: its ticket is used for the first time. *)
Lemma hist_run s e s' :
  hist_inv s → ticket e ∉ tickets s →
  (∃ r, issued s !! ticket e = Some r ∧ target r = on e ∧ fn r = ran_fn e ∧ arg r = ran_arg e) →
  issued s' = issued s → ran s' = e :: ran s → tick s' = tick s →
  (∀ c, precall (ipis s' c) = true → ipis s' c = ipis s c ∧ tick s c ≠ ticket e) →
  (∀ c, serving (ipis s' c) = true → tick s c = cur s) →
  (∀ c, called (ipis s' c) = true → called (ipis s c) = true ∨ tick s c = ticket e) →
  (pending s' = true → pending s = true ∧ ticket e ≠ cur s) →
  (∀ t, t ≠ ticket e → (t = cur s ∧ pending s = true) ∨ (∃ c, precall (ipis s c) = true ∧ tick s c = t) →
        (t = cur s ∧ pending s' = true) ∨ (∃ c, precall (ipis s' c) = true ∧ tick s c = t)) →
  (∀ i, returns s' i = true → returns s i = true ∨ ticket e = cur s) →
  hist_inv s'.
Proof.
  intros H Hnew He Hi Hr Ht Hpre Hsv Hca Hpe Hall Hret.
  assert (∀ t, t ∈ tickets s' ↔ t = ticket e ∨ t ∈ tickets s) as Hin.
  { intros t. unfold tickets. rewrite Hr. cbn. apply elem_of_cons. }
  split; unfold cur; rewrite ?Hi, ?Ht.
  - intros c Hc. destruct (Hpre c Hc) as [E _]. rewrite E in *. by apply H.
  - apply Hsv.
  - intros c Hc. apply Hin. destruct (Hca c Hc) as [E|E]; [right; by apply H|by left].
  - intros c Hc Hx. destruct (Hpre c Hc) as [E Hne]. apply Hin in Hx as [?|Hx]; [done|].
    rewrite E in Hc. by apply (hi_new _ H c).
  - intros E. destruct (Hpe E) as [E1 E2]. destruct (hi_fresh _ H E1) as [H1 H2]. split.
    + intros Hx. apply Hin in Hx as [Hx|Hx]; [by rewrite <- Hx in E2|done].
    + intros c Hc. destruct (Hpre c Hc) as [E3 _]. rewrite E3 in Hc. by apply H2.
  - intros e'. rewrite Hr. intros [->|Hx]%elem_of_cons; [done|by apply H].
  - unfold tickets. rewrite Hr. cbn. apply NoDup_cons. split; [done|apply H].
  - intros t Htl. destruct (decide (t = ticket e)) as [->|Hne]; [left; apply Hin; by left|].
    destruct (hi_all _ H t Htl) as [?|Hx]; [left; apply Hin; by right|right]. by apply Hall.
  - intros i Hx. apply Hin. destruct (Hret i Hx) as [E|E]; [right; by apply (hi_returns _ H i)|by left].
Qed.

Lemma pending_owner s i : owner s = Some i →
  pending s = match mains s i with
              | Held _ | Inc _ | SetDone _ | SetFn _ | SetData _ | SetWait _ | SendIcr _ => true
              | Spinning r => irr s (target r)
              | _ => false
              end.
Proof. unfold pending. by intros ->. Qed.

(** Only the owner's main program can be about to return. *)
Lemma returns_owner n s i : box_inv n s → returns s i = true → owner s = Some i.
Proof.
  intros H Hr. apply (bi_owner _ _ H). unfold returns in Hr. by destruct (mains s i).
Qed.

Lemma tickets_bound s t : hist_inv s → t ∈ tickets s → (t < length (issued s))%nat.
Proof.
  intros H Hx. unfold tickets in Hx. apply list_elem_of_fmap in Hx as (e & -> & He).
  destruct (hi_ran _ H e He) as (r & Hr & _). by apply lookup_lt_Some in Hr.
Qed.

Lemma hist_lock n i r s :
  box_inv n s → hist_inv s → mains s i = Locking r → owner s = None →
  hist_inv (set_main i (Held r) (take_lock i r s)).
Proof.
  intros Hb H Epc Ho. assert (flight s = None) as Hf by (unfold flight; by rewrite Ho).
  destruct (box_quiet _ _ Hb Hf) as [_ Hsv]. set (s' := set_main _ _ _).
  assert (cur s' = length (issued s)) as Hcur by (unfold cur, s'; cbn; rewrite length_app; cbn; lia).
  assert (pending s' = true) as Hpe by (unfold pending, s'; cbn; by rewrite upd_eq).
  assert (∀ t r', issued s !! t = Some r' → issued s' !! t = Some r') as Hlk.
  { intros t r' E. unfold s'. cbn. by apply lookup_app_l_Some. }
  split; rewrite ?Hcur, ?Hpe.
  - intros c Hc. destruct (hi_tick _ H c Hc) as (r' & H1 & H2). exists r'. split; [by apply Hlk|done].
  - intros c Hc. change (serving (ipis s c) = true) in Hc. by rewrite Hsv in Hc.
  - apply H.
  - apply H.
  - intros _. split.
    + intros Hx. apply (tickets_bound _ _ H) in Hx. lia.
    + intros c Hc E. destruct (hi_tick _ H c Hc) as (r' & H1 & _). apply lookup_lt_Some in H1.
      change (tick s c = length (issued s)) in E. lia.
  - intros e He. destruct (hi_ran _ H e He) as (r' & H1 & H2). exists r'. split; [by apply Hlk|done].
  - apply H.
  - intros t Ht. unfold s' in Ht. cbn in Ht. rewrite length_app in Ht. cbn in Ht.
    destruct (decide (t = length (issued s))); [tauto|].
    destruct (hi_all _ H t ltac:(lia)) as [?|[[_ Hp]|?]]; [by left| |by right; right].
    unfold pending in Hp. by rewrite Ho in Hp.
  - intros j Hj. exfalso. unfold returns, s' in Hj. cbn in Hj. unfold upd in Hj. case_decide; [done|].
    pose proof (returns_owner n s j Hb Hj). congruence.
Qed.

(** The function of a local call. *)
Lemma hist_local n i r s :
  box_inv n s → hist_inv s → mains s i = Held r → target r = i →
  hist_inv (set_main i (Unlock r) (run (Ran (cur s) i (fn r) (arg r)) s)).
Proof.
  intros Hb H Epc Ht. assert (owner s = Some i) as Ho by (apply (bi_owner _ _ Hb); by rewrite Epc).
  assert (pending s = true) as Hpe by (rewrite (pending_owner s i Ho); by rewrite Epc).
  destruct (hi_fresh _ H Hpe) as [Hf1 Hf2].
  eapply (hist_run s (Ran (cur s) i (fn r) (arg r))); cbn; try done.
  - exists r. split; [|done].
    pose proof (bi_last _ _ Hb i r Ho ltac:(by rewrite Epc)) as Hl.
    rewrite last_lookup in Hl. unfold cur. by rewrite Nat.sub_1_r.
  - intros c Hc. split; [done|]. by apply Hf2.
  - intros c. apply H.
  - intros c Hc. by left.
  - unfold pending. cbn. by rewrite Ho, upd_eq.
  - intros t Hne [[? _]|?]; [done|by right].
  - intros j _. by right.
Qed.

(** A step of the owner's main program that leaves the history alone. *)
Lemma hist_owner n i s s' pc' :
  box_inv n s → hist_inv s → crit (mains s i) = true → mains s' = upd (mains s) i pc' →
  (issued s', ran s', tick s', ipis s') = (issued s, ran s, tick s, ipis s) →
  pending s' = pending s → (returns s' i = true → cur s ∈ tickets s) → hist_inv s'.
Proof.
  intros Hb H Hc Hm Hsame Hpe Hret. apply (hist_frame s); [done|done|done|].
  intros j Hj. destruct (decide (j = i)) as [->|Hne]; [by apply Hret|]. exfalso.
  unfold returns in Hj. rewrite Hm, upd_ne in Hj by done.
  assert (crit (mains s j) = true) as Hcj by (by destruct (mains s j)).
  apply (bi_owner _ _ Hb) in Hc, Hcj. congruence.
Qed.

Lemma hist_main n i s s' :
  box_inv n s → hist_inv s → main_step i s = Some s' → hist_inv s'.
Proof.
  intros Hb H Hstep. unfold main_step in Hstep.
  destruct (mains s i) as [|r|r|r|r|r|r|r|r|r|r] eqn:Epc; simplify_eq/=;
    try (assert (owner s = Some i) as Ho by (apply (bi_owner _ _ Hb); by rewrite Epc);
         pose proof (pending_owner s i Ho) as Hpe; rewrite Epc in Hpe;
         pose proof (flight_owner s i Ho) as Hf; rewrite Epc in Hf).
  - destruct (ipi_lock s) eqn:El; simplify_eq. apply (hist_lock n); try done.
    rewrite (bi_lock _ _ Hb) in El. by apply bool_decide_eq_false, eq_None_not_Some in El.
  - destruct (decide (target r = i)) as [E|E]; injection Hstep as <-; [by apply (hist_local n)|].
    eapply (hist_owner n i s); [done|done|by rewrite Epc|done|done| |];
      unfold pending, returns; cbn; rewrite ?Ho, ?upd_eq, ?Epc; done.
  - eapply (hist_owner n i s); [done|done|by rewrite Epc|done|done| |];
      unfold pending, returns; cbn; rewrite ?Ho, ?upd_eq, ?Epc; done.
  - eapply (hist_owner n i s); [done|done|by rewrite Epc|done|done| |];
      unfold pending, returns; cbn; rewrite ?Ho, ?upd_eq, ?Epc; done.
  - eapply (hist_owner n i s); [done|done|by rewrite Epc|done|done| |];
      unfold pending, returns; cbn; rewrite ?Ho, ?upd_eq, ?Epc; done.
  - eapply (hist_owner n i s); [done|done|by rewrite Epc|done|done| |];
      unfold pending, returns; cbn; rewrite ?Ho, ?upd_eq, ?Epc; done.
  - eapply (hist_owner n i s); [done|done|by rewrite Epc|done|done| |];
      unfold pending, returns; cbn; rewrite ?Ho, ?upd_eq, ?Epc; done.
  - pose proof (bi_stored _ _ Hb i) as Hst. rewrite Epc in Hst. destruct Hst as [Hd _].
    eapply (hist_owner n i s); [done|done|by rewrite Epc|done|done| |];
      unfold pending, returns; cbn; rewrite ?Ho, ?upd_eq, ?Epc, ?Hd; done.
  - destruct (ipi_done s) eqn:Ed; simplify_eq.
    destruct (box_quiet _ _ Hb Hf) as [Hirr _].
    eapply (hist_owner n i s); [done|done|by rewrite Epc|done|done| |].
    + unfold pending. cbn. by rewrite Ho, upd_eq, Epc, Hirr.
    + intros Hr. apply (hi_returns _ H i). unfold returns in *. cbn in Hr. rewrite upd_eq in Hr.
      rewrite Epc, Ed. pose proof (bi_remote _ _ Hb i r) as Hrem. rewrite Epc in Hrem.
      rewrite bool_decide_eq_false_2 in Hr by (by apply Hrem). by rewrite orb_false_r in Hr.
  - eapply (hist_owner n i s); [done|done|by rewrite Epc|done|done| |];
      unfold pending, returns; cbn; rewrite ?Ho, ?upd_eq, ?Epc; done.
Qed.

(** A handler's step changes what may return only through [ipi_done]. *)
Lemma returns_frame s s' :
  (mains s', ipi_done s') = (mains s, ipi_done s) → ∀ i, returns s' i = returns s i.
Proof. intros [= Hm Hd] i. unfold returns. by rewrite Hm, Hd. Qed.

Lemma hist_done n c pc' s :
  box_inv n s → hist_inv s → serving (ipis s c) = true → precall pc' = precall (ipis s c) →
  serving pc' = false → called pc' = false → (∀ r, precall pc' = true → agrees (ipis s c) r → agrees pc' r) →
  (∀ r, flight s = Some r → wait r = true → cur s ∈ tickets s) →
  hist_inv (set_ipi c pc' (done_box s)).
Proof.
  intros Hb H Hsv Hpre Hsv' Hca Hag Hret.
  eapply (hist_handler c pc' s); [done|done|done|done| |by rewrite Hsv'|by rewrite Hca|].
  - intros r Hp _. by apply Hag.
  - intros j Hj. destruct (bi_serving _ _ Hb _ Hsv) as (_ & r & Hf & _).
    assert (∃ i, owner s = Some i ∧ mains s i = Spinning r ∧ ipi_done s = false) as (i & Ho & Hm & Hd).
    { unfold flight in Hf. destruct (owner s) as [i|]; [|done]. exists i. split; [done|].
      destruct (mains s i); try done. destruct (ipi_done s); simplify_eq. done. }
    unfold returns in Hj. cbn in Hj. destruct (mains s j) eqn:Ej; try done.
    + assert (j = i) as -> by (apply (box_crit n s); [done|done|by rewrite Ej]).
      rewrite Hm in Ej. injection Ej as <-. by apply (Hret r).
    + assert (j = i) as -> by (apply (box_crit n s); [done|done|by rewrite Ej]). congruence.
Qed.

Lemma hist_call n c f d w s :
  box_inv n s → hist_inv s → ipis s c = Call f d w →
  hist_inv (set_ipi c (Dec w) (run (Ran (tick s c) c f d) s)).
Proof.
  intros Hb H Epc. assert (precall (ipis s c) = true) as Hp by (by rewrite Epc).
  destruct (hi_tick _ H c Hp) as (r & Hr & Ht & Hag). rewrite Epc in Hag. destruct Hag as (-> & -> & Hw).
  eapply (hist_run s (Ran (tick s c) c (fn r) (arg r))); cbn; try done.
  - by apply H.
  - by exists r.
  - intros j. unfold upd. case_decide as E; [done|]. intros Hj. split; [done|]. intros Hx.
    destruct (hi_tick _ H j Hj) as (r' & Hr' & Ht' & _). congruence.
  - intros j. unfold upd. case_decide as E; [|apply H]. subst j. intros E. apply (hi_cur _ H).
    rewrite Epc. by destruct w.
  - intros j. unfold upd. case_decide as E; [|by left]. subst j. intros _. by right.
  - intros Hpe. split; [done|]. by apply (hi_fresh _ H Hpe).
  - intros t Hne [?|(j & Hj & Htj)]; [by left|right]. exists j. unfold upd.
    case_decide as E; [congruence|done].
  - intros j Hj. by left.
Qed.

Lemma hist_ipi n c s s' : box_inv n s → hist_inv s → ipi c s = Some s' → hist_inv s'.
Proof.
  intros Hb H Hstep. unfold ipi in Hstep.
  assert (∀ r, serving (ipis s c) = true → issued s !! tick s c = Some r →
    ipi_function s = fn r ∧ ipi_data s = arg r ∧ ipi_wait s = wait r) as Hbox.
  { intros r Hsv Hr. destruct (bi_serving _ _ Hb _ Hsv) as (_ & r' & Hf & _).
    pose proof (flight_last _ _ _ Hb Hf) as Hl. rewrite (hi_cur _ H c Hsv), Hl in Hr.
    injection Hr as ->. unfold flight in Hf. destruct (owner s) as [i|]; [|done].
    pose proof (bi_stored _ _ Hb i) as Hst. destruct (mains s i); try done.
    destruct (ipi_done s); simplify_eq. exact Hst. }
  pose proof (hi_returns _ H) as Hret.
  destruct (ipis s c) as [| |f|f d|f d|f d|f d w|w| | |] eqn:Epc; simplify_eq/=.
  - eapply (hist_handler c _ s); rewrite ?Epc; try done. intros r _ Hr _. by apply Hbox.
  - eapply (hist_handler c _ s); rewrite ?Epc; try done. intros r _ Hr ->. split; [done|by apply Hbox].
  - eapply (hist_handler c _ s); rewrite ?Epc; try done; destruct (ipi_wait s) eqn:Ew; try done;
      intros r _ Hr [-> ->]; destruct (Hbox r eq_refl Hr) as (_ & _ & E); cbn; by rewrite E.
  - apply (hist_done n); rewrite ?Epc; try done. intros r Hf Hw. exfalso.
    assert (serving (ipis s c) = true) as Hsv by (by rewrite Epc).
    destruct (bi_serving _ _ Hb c Hsv) as (_ & r' & Hf' & _ & Hag). rewrite Epc in Hag.
    destruct Hag as (_ & _ & Hag). congruence.
  - eapply (hist_handler c _ s); rewrite ?Epc; done.
  - by apply (hist_call n).
  - eapply (hist_handler c _ s); rewrite ?Epc; try done; by destruct w.
  - apply (hist_done n); rewrite ?Epc; try done. intros r Hf Hw.
    assert (serving (ipis s c) = true) as Hsv by (by rewrite Epc).
    rewrite <- (hi_cur _ H c Hsv). apply H. by rewrite Epc.
  - eapply (hist_handler c _ s); rewrite ?Epc; done.
  - eapply (hist_handler c _ s); rewrite ?Epc; done.
Qed.

Lemma hist_deliver n c s s' : box_inv n s → hist_inv s → deliver c s = Some s' → hist_inv s'.
Proof.
  intros Hb H Hstep. unfold deliver in Hstep. destruct (ipis s c) eqn:Epc; try done.
  destruct (irr s c) eqn:Eirr; [|done]. cbn in Hstep. destruct (isr s c) eqn:Eisr; [done|].
  injection Hstep as <-. destruct (bi_irr _ _ Hb _ Eirr) as (_ & r & Hf & Ht).
  pose proof (flight_last _ _ _ Hb Hf) as Hl.
  assert (∃ i, owner s = Some i ∧ mains s i = Spinning r ∧ ipi_done s = false) as (i & Ho & Hm & Hd).
  { unfold flight in Hf. destruct (owner s) as [i|]; [|done]. exists i. split; [done|].
    destruct (mains s i); try done. destruct (ipi_done s); simplify_eq. done. }
  assert (pending s = true) as Hpe by (rewrite (pending_owner s i Ho), Hm; by rewrite Ht).
  destruct (hi_fresh _ H Hpe) as [Hf1 Hf2].
  assert (∀ j, serving (ipis s j) = true → False) as Hsv.
  { intros j Hj. apply (bi_serving _ _ Hb) in Hj as (E & r' & Hr' & Ht' & _).
    rewrite Hf in Hr'. simplify_eq. congruence. }
  set (s' := set_ipi _ _ _).
  assert (pending s' = false) as Hpe'.
  { unfold pending, s'. cbn. rewrite Ho, Hm. by rewrite Ht, upd_eq. }
  split; rewrite ?Hpe'; change (cur s') with (cur s); change (tickets s') with (tickets s); cbn.
  - intros j. unfold upd. case_decide; [|apply H]. subst j. intros _. by exists r.
  - intros j. unfold upd. case_decide; [done|]. intros Hj. by apply Hsv in Hj.
  - intros j. unfold upd. case_decide; [done|apply H].
  - intros j. unfold upd. case_decide; [done|apply H].
  - done.
  - apply H.
  - apply H.
  - intros t Htl. destruct (hi_all _ H t Htl) as [?|[[-> _]|(j & Hj & Htj)]]; [by left| |]; right; right.
    + exists c. by rewrite !upd_eq.
    + exists j. rewrite !upd_ne by (intros ->; by rewrite Epc in Hj). done.
  - intros j. apply (hi_returns _ H j).
Qed.

Lemma hist_call_step n i r s :
  box_inv n s → hist_inv s → mains s i = Ready → hist_inv (set_main i (Locking r) s).
Proof.
  intros Hb H Epc. apply (hist_frame s); [done|done| |].
  - unfold pending. cbn. destruct (owner s) as [j|] eqn:Eo; [|done]. unfold upd. case_decide; [|done]. subst.
    apply (bi_owner _ _ Hb) in Eo. by rewrite Epc in Eo.
  - intros j. unfold returns. cbn. unfold upd. case_decide; [done|]. apply (hi_returns _ H j).
Qed.

Lemma hist_reachable n s : reachable n s → hist_inv s.
Proof.
  induction 1 as [s Hs|s s' Hr IH Hstep]; [by apply hist_start|].
  pose proof (box_reachable _ _ Hr) as Hb. destruct Hstep.
  - by eapply hist_call_step.
  - by eapply hist_main.
  - by eapply hist_ipi.
  - by eapply hist_deliver.
Qed.

(** ** The number of active processors *)

Definition sum_n (f : nat → Z) (n : nat) : Z := foldr (λ c a, f c + a) 0 (seq 0 n).

Lemma sum_n_S f n : sum_n f (S n) = sum_n f n + f n.
Proof.
  unfold sum_n. rewrite seq_S, foldr_app. cbn. rewrite Z.add_0_r.
  generalize (seq 0 n). intros l. induction l as [|x l IH]; cbn; lia.
Qed.

Lemma sum_n_ext f g n : (∀ c, (c < n)%nat → f c = g c) → sum_n f n = sum_n g n.
Proof.
  induction n as [|n IH]; intros H; [done|]. rewrite !sum_n_S, H by lia. f_equal. apply IH. auto with lia.
Qed.

Lemma sum_n_change f g c n :
  (c < n)%nat → (∀ j, j ≠ c → g j = f j) → sum_n g n = sum_n f n + g c - f c.
Proof.
  intros Hc H. induction n as [|n IH]; [lia|]. rewrite !sum_n_S. destruct (decide (c = n)) as [->|Hne].
  - rewrite (sum_n_ext g f n); [lia|]. intros j Hj. apply H. lia.
  - rewrite IH, (H n) by lia. lia.
Qed.

Lemma sum_n_nonneg f n : (∀ c, 0 <= f c <= 1) → 0 <= sum_n f n <= Z.of_nat n.
Proof.
  intros H. induction n as [|n IH]; [cbn; lia|]. rewrite sum_n_S. specialize (H n). lia.
Qed.

Lemma sum_n_zero f n c : (∀ c, 0 <= f c <= 1) → sum_n f n = 0 → (c < n)%nat → f c = 0.
Proof.
  intros H. induction n as [|n IH]; [lia|]. rewrite sum_n_S. intros Hs Hc.
  pose proof (sum_n_nonneg f n H). pose proof (H n). destruct (decide (c = n)) as [->|]; [lia|apply IH; lia].
Qed.

(** A handler from its start to [atomic_dec]. *)
Definition counted (pc : ipc) : Z :=
  match pc with
  | RdFn | RdData _ | RdWait _ _ | EarlyDone _ _ | EarlyEoi _ _ | Call _ _ _ | Dec _ => 1
  | _ => 0
  end.

(** The owner, from [atomic_inc] until a handler takes the request up. *)
Definition owner_counted (s : smp) : Z :=
  match owner s with
  | Some i => match mains s i with
              | SetDone _ | SetFn _ | SetData _ | SetWait _ | SendIcr _ => 1
              | Spinning r => if irr s (target r) then 1 else 0
              | _ => 0
              end
  | None => 0
  end.

Definition active_inv (n : nat) (s : smp) : Prop :=
  active_cpus s = 1 + sum_n (λ c, counted (ipis s c)) n + owner_counted s.

Lemma active_main n i s s' :
  box_inv n s → active_inv n s → main_step i s = Some s' → active_inv n s'.
Proof.
  intros Hb H Hstep. unfold main_step in Hstep. unfold active_inv, owner_counted in *.
  destruct (mains s i) as [|r|r|r|r|r|r|r|r|r|r] eqn:Epc; simplify_eq/=;
    try (assert (owner s = Some i) as Ho by (apply (bi_owner _ _ Hb); by rewrite Epc);
         pose proof (flight_owner s i Ho) as Hf; rewrite Ho, Epc in H; rewrite Epc in Hf).
  - destruct (ipi_lock s) eqn:El; simplify_eq. cbn. rewrite upd_eq.
    rewrite (bi_lock _ _ Hb) in El. apply bool_decide_eq_false, eq_None_not_Some in El.
    rewrite El in H. lia.
  - destruct (decide (target r = i)) as [E|E]; injection Hstep as <-; cbn; rewrite Ho, upd_eq; lia.
  - rewrite Ho, upd_eq. lia.
  - rewrite Ho, upd_eq. lia.
  - rewrite Ho, upd_eq. lia.
  - rewrite Ho, upd_eq. lia.
  - rewrite Ho, upd_eq. lia.
  - rewrite Ho, upd_eq. cbn. rewrite upd_eq. lia.
  - destruct (ipi_done s) eqn:Ed; simplify_eq. cbn. rewrite Ho, upd_eq.
    destruct (box_quiet _ _ Hb Hf) as [Hirr _]. rewrite Hirr in H. lia.
  - lia.
Qed.

Lemma active_handler n c pc' s s' :
  (c < n)%nat → active_inv n s → ipis s' = upd (ipis s) c pc' →
  active_cpus s' = active_cpus s + counted pc' - counted (ipis s c) + owner_counted s' - owner_counted s →
  active_inv n s'.
Proof.
  unfold active_inv. intros Hc H Hp ->. rewrite H.
  rewrite (sum_n_change (λ j, counted (ipis s j)) (λ j, counted (ipis s' j)) c n Hc).
  - rewrite Hp, upd_eq. lia.
  - intros j Hj. rewrite Hp. by rewrite upd_ne.
Qed.

Lemma active_ipi n c s s' : (c < n)%nat → active_inv n s → ipi c s = Some s' → active_inv n s'.
Proof.
  intros Hc H Hstep. unfold ipi in Hstep.
  destruct (ipis s c) as [| |f|f d|f d|f d|f d w|w| | |] eqn:Epc; simplify_eq/=;
    (eapply (active_handler n c _ s); [done|done|done|]; rewrite Epc; cbn;
     change (owner_counted _) with (owner_counted s) at 1; try (destruct (ipi_wait s)); try destruct w; cbn; lia).
Qed.

Lemma active_deliver n c s s' :
  (c < n)%nat → box_inv n s → active_inv n s → deliver c s = Some s' → active_inv n s'.
Proof.
  intros Hc Hb H Hstep. unfold deliver in Hstep. destruct (ipis s c) eqn:Epc; try done.
  destruct (irr s c) eqn:Eirr; [|done]. cbn in Hstep. destruct (isr s c) eqn:Eisr; [done|].
  injection Hstep as <-. destruct (bi_irr _ _ Hb _ Eirr) as (_ & r & Hf & Ht).
  eapply (active_handler n c RdFn s); [done|done|done|]. rewrite Epc. unfold owner_counted. cbn.
  unfold flight in Hf. destruct (owner s) as [i|]; [|done]. destruct (mains s i); try done.
  destruct (ipi_done s); simplify_eq. rewrite upd_eq, Eirr. lia.
Qed.

Lemma active_reachable n s : reachable n s → active_inv n s.
Proof.
  induction 1 as [s Hs|s s' Hr IH Hstep].
  - destruct Hs as (_ & Ha & Ho & _ & _ & Hc). unfold active_inv, owner_counted. rewrite Ha, Ho.
    rewrite (sum_n_ext _ (λ _, 0)).
    + assert (sum_n (λ _, 0) n = 0) as ->; [|done]. induction n as [|n IH]; [done|]. by rewrite sum_n_S, IH.
    + intros c _. destruct (Hc c) as (_ & _ & _ & E). by rewrite E.
  - pose proof (box_reachable _ _ Hr) as Hb. destruct Hstep as [i r s Hi Ht Hm Hp|i s s' Hi Hp Hs|c s s' Hc Hs|c s s' Hc Hs].
    + unfold active_inv, owner_counted in *. cbn. rewrite IH. f_equal.
      destruct (owner s) as [j|] eqn:Eo; [|done]. unfold upd. case_decide; [|done]. subst.
      apply (bi_owner _ _ Hb) in Eo. by rewrite Hm in Eo.
    + by eapply active_main.
    + by eapply active_ipi.
    + by eapply active_deliver.
Qed.

(** ** Termination *)

Definition main_rank (pc : mpc) : Z :=
  match pc with
  | Ready => 0 | Unlock _ => 1 | Spinning _ => 2 | SendIcr _ => 16 | SetWait _ => 17 | SetData _ => 18
  | SetFn _ => 19 | SetDone _ => 20 | Inc _ => 21 | Held _ => 22 | Locking _ => 23
  end.
Definition ipi_rank (pc : ipc) : Z :=
  match pc with
  | NoIpi => 0 | Iret => 1 | LateEoi => 2 | LateDone => 3 | Dec _ => 4 | Call _ _ _ => 5 | EarlyEoi _ _ => 6
  | EarlyDone _ _ => 7 | RdWait _ _ => 8 | RdData _ => 9 | RdFn => 10
  end.

(** The steps that are left if no new call is made. *)
Definition work (n : nat) (s : smp) : Z :=
  sum_n (λ i, main_rank (mains s i)) n + sum_n (λ c, ipi_rank (ipis s c)) n +
  sum_n (λ c, if irr s c then 12 else 0) n.

(** The steps other than new calls. *)
Inductive run_step (n : nat) : smp → smp → Prop :=
| run_main (i : nat) s s' : (i < n)%nat → ipis s i = NoIpi → main_step i s = Some s' → run_step n s s'
| run_ipi (c : nat) s s' : (c < n)%nat → ipi c s = Some s' → run_step n s s'
| run_deliver (c : nat) s s' : (c < n)%nat → deliver c s = Some s' → run_step n s s'.

Lemma work_nonneg n s : 0 <= work n s.
Proof.
  assert (∀ f, (∀ c, 0 <= f c) → 0 <= sum_n f n) as Hs.
  { intros f Hf. induction n as [|n IH]; [done|]. rewrite sum_n_S. specialize (Hf n). lia. }
  unfold work. pose proof (Hs (λ i, main_rank (mains s i))) as H1. pose proof (Hs (λ c, ipi_rank (ipis s c))) as H2.
  pose proof (Hs (λ c, if irr s c then 12 else 0)) as H3. cbn in *.
  assert (0 <= sum_n (λ i, main_rank (mains s i)) n) by (apply H1; intros c; by destruct (mains s c)).
  assert (0 <= sum_n (λ c, ipi_rank (ipis s c)) n) by (apply H2; intros c; by destruct (ipis s c)).
  assert (0 <= sum_n (λ c, if irr s c then 12 else 0) n) by (apply H3; intros c; by destruct (irr s c)).
  lia.
Qed.

Lemma sum_main s i pc n :
  (i < n)%nat → sum_n (λ j, main_rank (upd (mains s) i pc j)) n =
  sum_n (λ j, main_rank (mains s j)) n + main_rank pc - main_rank (mains s i).
Proof.
  intros Hi. rewrite (sum_n_change (λ j, main_rank (mains s j)) _ i n Hi).
  - by rewrite upd_eq.
  - intros j Hj. by rewrite upd_ne.
Qed.

Lemma sum_ipi s c pc n :
  (c < n)%nat → sum_n (λ j, ipi_rank (upd (ipis s) c pc j)) n =
  sum_n (λ j, ipi_rank (ipis s j)) n + ipi_rank pc - ipi_rank (ipis s c).
Proof.
  intros Hi. rewrite (sum_n_change (λ j, ipi_rank (ipis s j)) _ c n Hi).
  - by rewrite upd_eq.
  - intros j Hj. by rewrite upd_ne.
Qed.

Lemma sum_irr s c (b : bool) n :
  (c < n)%nat → sum_n (λ j, if upd (irr s) c b j then 12 else 0) n =
  sum_n (λ j, if irr s j then 12 else 0) n + (if b then 12 else 0) - (if irr s c then 12 else 0).
Proof.
  intros Hi. rewrite (sum_n_change (λ j, if irr s j then 12 else 0) _ c n Hi).
  - by rewrite upd_eq.
  - intros j Hj. by rewrite upd_ne.
Qed.

Lemma work_decreases n s s' : box_inv n s → run_step n s s' → work n s' < work n s.
Proof.
  intros Hb Hstep. unfold work. destruct Hstep as [i s s' Hi Hp Hs|c s s' Hc Hs|c s s' Hc Hs].
  - unfold main_step in Hs. pose proof (bi_target _ _ Hb i) as Ht.
    destruct (mains s i) as [|r|r|r|r|r|r|r|r|r|r] eqn:Epc; simplify_eq/=;
      try (rewrite sum_main by done; rewrite Epc; cbn; lia).
    + destruct (ipi_lock s); simplify_eq. cbn. rewrite sum_main by done. rewrite Epc. cbn. lia.
    + destruct (decide (target r = i)); injection Hs as <-; cbn; rewrite sum_main by done; rewrite Epc; cbn; lia.
    + rewrite sum_main, sum_irr by (done || by apply Ht). rewrite Epc. cbn. destruct (irr s (target r)); lia.
    + destruct (ipi_done s); simplify_eq. cbn. rewrite sum_main by done. rewrite Epc. cbn. lia.
  - unfold ipi in Hs. destruct (ipis s c) as [| |f|f d|f d|f d|f d w|w| | |] eqn:Epc; simplify_eq/=;
      rewrite sum_ipi by done; rewrite Epc; try destruct w; try destruct (ipi_wait s); cbn; lia.
  - unfold deliver in Hs. destruct (ipis s c) eqn:Epc; try done.
    destruct (irr s c) eqn:Eirr; [|done]. cbn in Hs. destruct (isr s c); [done|].
    injection Hs as <-. cbn. rewrite sum_ipi, sum_irr by done. rewrite Epc, Eirr. cbn. lia.
Qed.

(** All processors are back in their programs. *)
Definition at_rest (s : smp) : Prop := ∀ c, mains s c = Ready ∧ ipis s c = NoIpi.

Lemma run_progress n s : box_inv n s → at_rest s ∨ ∃ s', run_step n s s'.
Proof.
  intros Hb.
  assert (∀ l : list nat, (∃ c, c ∈ l ∧ ipis s c ≠ NoIpi) ∨ (∀ c, c ∈ l → ipis s c = NoIpi)) as Hip.
  { intros l. induction l as [|c l [(c' & Hc' & E)|IH]].
    - right. by intros c ?%not_elem_of_nil.
    - left. exists c'. split; [by right|done].
    - destruct (ipis s c) eqn:E; try (left; exists c; split; [by left|by rewrite E]).
      right. intros c' [->|Hc']%elem_of_cons; [done|by apply IH]. }
  destruct (Hip (seq 0 n)) as [(c & Hc & E)|Hn].
  { right. apply elem_of_seq in Hc.
    assert (is_Some (ipi c s)) as [s' Hs'] by (unfold ipi; by destruct (ipis s c)).
    exists s'. apply (run_ipi n c); [lia|done]. }
  assert (∀ c, ipis s c = NoIpi) as Hidle.
  { intros c. destruct (bi_bound _ _ Hb c) as [?|[_ ?]]; [|done]. apply Hn, elem_of_seq. lia. }
  assert (∀ i, mains s i ≠ Ready → (i < n)%nat) as Hlt.
  { intros i Hi. destruct (bi_bound _ _ Hb i) as [?|[E _]]; [done|]. by rewrite E in Hi. }
  destruct (owner s) as [i|] eqn:Eo.
  - right. assert (crit (mains s i) = true) as Hc by (by apply (bi_owner _ _ Hb)).
    assert (i < n)%nat as Hi by (apply Hlt; intros E; by rewrite E in Hc).
    pose proof (flight_owner s i Eo) as Hf.
    destruct (main_step i s) as [s'|] eqn:Es; [exists s'; by apply (run_main n i)|].
    unfold main_step in Es. destruct (mains s i) as [|r|r|r|r|r|r|r|r|r|r] eqn:Em; try done;
      [by case_decide|]. destruct (ipi_done s) eqn:Ed; [done|].
    destruct (bi_flight _ _ Hb r Hf) as [Hirr|Hsv]; [|by rewrite Hidle in Hsv].
    pose proof (bi_target _ _ Hb i r ltac:(by rewrite Em)) as Ht.
    destruct (isr s (target r)) eqn:Ei; [by apply (bi_isr _ _ Hb) in Ei; rewrite Hidle in Ei|].
    eexists. apply (run_deliver n (target r)); [done|]. unfold deliver. by rewrite Hidle, Hirr, Ei.
  - assert (∀ l : list nat, (∃ c r, c ∈ l ∧ mains s c = Locking r) ∨ (∀ c, c ∈ l → mains s c = Ready)) as Hm.
    { intros l. induction l as [|c l [(c' & r & Hc' & E)|IH]].
      - right. by intros c ?%not_elem_of_nil.
      - left. exists c', r. split; [by right|done].
      - assert (crit (mains s c) = false) as Hcr.
        { destruct (crit (mains s c)) eqn:E; [|done]. apply (bi_owner _ _ Hb) in E. congruence. }
        destruct (mains s c) eqn:E; try done.
        + right. intros c' [->|Hc']%elem_of_cons; [done|by apply IH].
        + left. exists c, r. split; [by left|done]. }
    destruct (Hm (seq 0 n)) as [(c & r & Hc & E)|Hr].
    + right. apply elem_of_seq in Hc. eexists. apply (run_main n c); [lia|apply Hidle|].
      unfold main_step. rewrite E. rewrite (bi_lock _ _ Hb), Eo. done.
    + left. intros c. split; [|done]. destruct (bi_bound _ _ Hb c) as [?|[? _]]; [|done].
      apply Hr, elem_of_seq. lia.
Qed.

Lemma run_step_step n s s' : run_step n s s' → step n s s'.
Proof.
  intros [i ? ? ?|c ? ? ?|c ? ? ?].
  - by eapply step_main.
  - by eapply step_ipi.
  - by eapply step_deliver.
Qed.

(** ** Claims *)

(** An executable run: the actions in order. *)
Inductive action := ACall (i : nat) (r : req) | AMain (i : nat) | AIpi (c : nat) | ADeliver (c : nat).

Definition act (n : nat) (a : action) (s : smp) : option smp :=
  match a with
  | ACall i r => match mains s i, ipis s i with
                 | Ready, NoIpi => if decide (i < n ∧ target r < n)%nat then Some (set_main i (Locking r) s) else None
                 | _, _ => None
                 end
  | AMain i => match ipis s i with NoIpi => if decide (i < n)%nat then main_step i s else None | _ => None end
  | AIpi c => if decide (c < n)%nat then ipi c s else None
  | ADeliver c => if decide (c < n)%nat then deliver c s else None
  end.

Fixpoint exec (n : nat) (l : list action) (s : smp) : option smp :=
  match l with
  | [] => Some s
  | a :: l' => match act n a s with Some s' => exec n l' s' | None => None end
  end.

Lemma exec_reachable n l s s' : reachable n s → exec n l s = Some s' → reachable n s'.
Proof.
  revert s. induction l as [|a l IH]; intros s Hr; cbn [exec]; [by intros [= <-]|].
  destruct (act n a s) as [s1|] eqn:Ea; [|done]. apply IH. apply (reach_step n s); [done|].
  destruct a as [i r|i|c|c]; cbn in Ea.
  - destruct (mains s i) eqn:Em; try done. destruct (ipis s i) eqn:Ep; try done.
    case_decide as Hd; simplify_eq. destruct Hd. by apply step_call.
  - destruct (ipis s i) eqn:Ep; try done. case_decide; [|done]. by eapply step_main.
  - case_decide; [|done]. by eapply step_ipi.
  - case_decide; [|done]. by eapply step_deliver.
Qed.

(** Two processors at rest. *)
Definition boot : smp :=
  Smp false 0 0 false false 1 (λ _, false) (λ _, false) (λ _, Ready) (λ _, NoIpi) None [] [] (λ _, 0%nat).

Lemma boot_reachable n : reachable n boot.
Proof. by apply reach_start. Qed.

(** [on_cpu(1, 7, 9)] on the processor 0, up to its return. *)
Definition sync_run : list action :=
  ACall 0 (on_cpu 1 7 9) :: replicate 8 (AMain 0) ++ [ADeliver 1] ++ replicate 6 (AIpi 1) ++ [AMain 0].

(** [on_cpu_async(1, 7, 9)], up to its return: the handler has not called yet. *)
Definition async_run : list action :=
  ACall 0 (on_cpu_async 1 7 9) :: replicate 8 (AMain 0) ++ [ADeliver 1] ++ replicate 4 (AIpi 1) ++ [AMain 0].

Lemma issued_cur n s i r :
  box_inv n s → crit (mains s i) = true → req_of (mains s i) = Some r → issued s !! cur s = Some r.
Proof.
  intros H Hc Hr. pose proof (bi_last _ _ H i r (proj2 (bi_owner _ _ H i) Hc) Hr) as Hl.
  rewrite last_lookup in Hl. unfold cur. by rewrite Nat.sub_1_r.
Qed.

(** C5: in every interleaving at most one processor is between [spin_lock] and
    [spin_unlock], every function that runs was requested with these arguments
    for this processor, each request runs at most once, and a call of [on_cpu]
    (or a call for the own processor) that is about to return has run. *)
Theorem on_cpu_runs_once n s :
  reachable n s →
  (∀ i j, crit (mains s i) = true → crit (mains s j) = true → i = j) ∧
  NoDup (ticket <$> ran s) ∧
  (∀ e, e ∈ ran s → issued s !! ticket e = Some (Req (on e) (ran_fn e) (ran_arg e) true) ∨
                    issued s !! ticket e = Some (Req (on e) (ran_fn e) (ran_arg e) false)) ∧
  (∀ i r, mains s i = Unlock r → wait r = true ∨ target r = i →
     Ran (cur s) (target r) (fn r) (arg r) ∈ ran s).
Proof.
  intros Hr. pose proof (box_reachable _ _ Hr) as Hb. pose proof (hist_reachable _ _ Hr) as Hh.
  split; [|split; [apply Hh|split]].
  - intros i j Hi Hj. apply (bi_owner _ _ Hb) in Hi, Hj. congruence.
  - intros e He. destruct (hi_ran _ Hh e He) as ([t f a w] & -> & Ht & Hf & Ha). cbn in *. subst.
    destruct w; auto.
  - intros i r Hm Hw. assert (returns s i = true) as Hret.
    { unfold returns. rewrite Hm. destruct Hw as [->|E]; [done|]. rewrite bool_decide_eq_true_2 by done.
      apply orb_true_r. }
    apply (hi_returns _ Hh) in Hret. apply list_elem_of_fmap in Hret as (e & Ht & He).
    destruct (hi_ran _ Hh e He) as (r' & Hl & H1 & H2 & H3).
    rewrite <- Ht, (issued_cur n s i r) in Hl by (done || by rewrite Hm). injection Hl as <-.
    rewrite Ht, H1, H2, H3. by destruct e.
Qed.

Lemma on_cpu_runs_once_witness :
  (∃ s, exec 2 sync_run boot = Some s ∧ mains s 0 = Unlock (on_cpu 1 7 9) ∧ Ran 0 1 7 9 ∈ ran s).
Proof.
  destruct (exec 2 sync_run boot) as [s|] eqn:E; [|by vm_compute in E].
  exists s. split; [done|].
  assert (mains s 0 = Unlock (on_cpu 1 7 9) ∧ cur s = 0%nat) as [Hm Hc]
    by (vm_compute in E; injection E as <-; done).
  split; [done|].
  pose proof (on_cpu_runs_once 2 s (exec_reachable 2 sync_run boot s (boot_reachable 2) E)) as (_ & _ & _ & H).
  specialize (H 0%nat (on_cpu 1 7 9) Hm (or_introl eq_refl)). by rewrite Hc in H.
Defined.

(** when [on_cpu_async] returns, the handler of the target has read the
    request: the function has run, or the handler holds the function and its
    argument and does not look at the shared variables again. *)
Theorem on_cpu_async_taken n s i r :
  reachable n s → mains s i = Unlock r →
  Ran (cur s) (target r) (fn r) (arg r) ∈ ran s ∨
  (wait r = false ∧ tick s (target r) = cur s ∧
   (ipis s (target r) = EarlyEoi (fn r) (arg r) ∨ ipis s (target r) = Call (fn r) (arg r) false)).
Proof.
  intros Hr Hm. pose proof (box_reachable _ _ Hr) as Hb. pose proof (hist_reachable _ _ Hr) as Hh.
  pose proof (issued_cur n s i r Hb ltac:(by rewrite Hm) ltac:(by rewrite Hm)) as Hl.
  assert (owner s = Some i) as Ho by (apply (bi_owner _ _ Hb); by rewrite Hm).
  pose proof (flight_owner s i Ho) as Hf. rewrite Hm in Hf. destruct (box_quiet _ _ Hb Hf) as [_ Hsv].
  destruct (hi_all _ Hh (cur s) ltac:(by apply lookup_lt_Some in Hl)) as [Hx|[[_ Hp]|(c & Hc & Ht)]].
  - left. apply list_elem_of_fmap in Hx as (e & Ht & He).
    destruct (hi_ran _ Hh e He) as (r' & Hl' & H1 & H2 & H3). rewrite <- Ht, Hl in Hl'. injection Hl' as <-.
    rewrite Ht, H1, H2, H3. by destruct e.
  - rewrite (pending_owner s i Ho), Hm in Hp. done.
  - right. destruct (hi_tick _ Hh c Hc) as (r' & Hl' & H1 & Hag). rewrite Ht, Hl in Hl'. injection Hl' as <-.
    subst c. specialize (Hsv (target r)). destruct (ipis s (target r)) as [| | | | |f d|f d []| | | |]; try done.
    + destruct Hag as (-> & -> & ->). auto.
    + destruct Hag as (-> & -> & ->). auto.
Qed.

Lemma on_cpu_async_taken_witness :
  ∃ s, exec 2 async_run boot = Some s ∧
    (Ran 0 1 7 9 ∈ ran s ∨ (false = false ∧ tick s 1 = 0%nat ∧
       (ipis s 1 = EarlyEoi 7 9 ∨ ipis s 1 = Call 7 9 false))).
Proof.
  destruct (exec 2 async_run boot) as [s|] eqn:E; [|by vm_compute in E].
  exists s. split; [done|].
  assert (mains s 0 = Unlock (on_cpu_async 1 7 9) ∧ cur s = 0%nat) as [Hm Hc]
    by (vm_compute in E; injection E as <-; done).
  pose proof (on_cpu_async_taken 2 s 0 (on_cpu_async 1 7 9)
    (exec_reachable 2 async_run boot s (boot_reachable 2) E) Hm) as H.
  by rewrite Hc in H.
Defined.

(** the counter stays between 1 and [n] + 2 (it cannot overflow), and when
    it is 1, as at the end of [on_cpus], every request has been run but for the
    last one if its caller has not yet incremented the counter. *)
Theorem cpus_active_one n s :
  reachable n s →
  1 <= active_cpus s <= Z.of_nat n + 2 ∧
  (active_cpus s = 1 → ∀ t, (t < length (issued s))%nat →
     t ∈ (ticket <$> ran s) ∨ (t = cur s ∧ ∃ i r, mains s i = Held r ∨ mains s i = Inc r)).
Proof.
  intros Hr. pose proof (box_reachable _ _ Hr) as Hb. pose proof (hist_reachable _ _ Hr) as Hh.
  pose proof (active_reachable _ _ Hr) as Ha. unfold active_inv in Ha.
  assert (∀ c, 0 <= counted (ipis s c) <= 1) as Hc by (intros c; destruct (ipis s c); cbn; lia).
  pose proof (sum_n_nonneg (λ c, counted (ipis s c)) n Hc) as Hs.
  assert (0 <= owner_counted s <= 1) as Ho.
  { unfold owner_counted. destruct (owner s) as [i|]; [|lia]. destruct (mains s i); try lia. destruct (irr s _); lia. }
  split; [lia|]. intros E t Ht.
  assert (sum_n (λ c, counted (ipis s c)) n = 0) as Hs0 by lia.
  assert (owner_counted s = 0) as Ho0 by lia.
  destruct (hi_all _ Hh t Ht) as [?|[[-> Hp]|(c & Hp & _)]]; [by left| |].
  - right. split; [done|]. unfold pending in Hp. unfold owner_counted in Ho0.
    destruct (owner s) as [i|]; [|done]. exists i.
    destruct (mains s i) as [|r|r|r|r|r|r|r|r|r|r]; try done; try (by exists r; auto).
    by rewrite Hp in Ho0.
  - exfalso. assert (c < n)%nat as Hcn.
    { destruct (bi_bound _ _ Hb c) as [?|[_ E']]; [done|]. by rewrite E' in Hp. }
    pose proof (sum_n_zero _ n c Hc Hs0 Hcn) as Hz. cbn in Hz. by destruct (ipis s c).
Qed.

(** Both calls of [on_cpus] on the processor 0, run to the end. *)
Definition cpus_run : list action :=
  async_run ++ replicate 4 (AIpi 1) ++ [AMain 0; ACall 0 (on_cpu_async 0 7 9)] ++ replicate 3 (AMain 0).

Lemma cpus_active_one_witness :
  ∃ s, exec 2 cpus_run boot = Some s ∧ active_cpus s = 1 ∧ length (issued s) = 2%nat ∧
    (0%nat ∈ (ticket <$> ran s) ∨ (0%nat = cur s ∧ ∃ i r, mains s i = Held r ∨ mains s i = Inc r)).
Proof.
  destruct (exec 2 cpus_run boot) as [s|] eqn:E; [|by vm_compute in E].
  exists s. split; [done|].
  assert (active_cpus s = 1 ∧ length (issued s) = 2%nat) as [Ha Hl]
    by (vm_compute in E; injection E as <-; done).
  split; [done|]. split; [done|].
  destruct (cpus_active_one 2 s (exec_reachable 2 cpus_run boot s (boot_reachable 2) E)) as [_ H].
  apply H; [done|]. rewrite Hl. lia.
Defined.

(** C7: no call hangs: as long as a call or a handler is under way some
    processor can go on, and without new calls every run ends (the work left
    decreases), so that it ends with all processors back in their programs. *)
Theorem calls_complete n s :
  reachable n s →
  (at_rest s ∨ ∃ s', run_step n s s') ∧
  (∀ s', run_step n s s' → 0 <= work n s' < work n s) ∧
  ∃ s', rtc (run_step n) s s' ∧ at_rest s'.
Proof.
  intros Hr. pose proof (box_reachable _ _ Hr) as Hb.
  split; [by apply run_progress|]. split.
  { intros s' Hs. split; [apply work_nonneg|by apply work_decreases]. }
  clear Hb. remember (Z.to_nat (work n s)) as k eqn:Ek. revert s Hr Ek.
  induction (lt_wf k) as [k _ IH]. intros s Hr ->. pose proof (box_reachable _ _ Hr) as Hb.
  destruct (run_progress n s Hb) as [Hrest|[s1 Hs1]]; [by exists s|].
  pose proof (work_decreases _ _ _ Hb Hs1) as Hw. pose proof (work_nonneg n s1) as Hw1.
  destruct (IH (Z.to_nat (work n s1)) ltac:(lia) s1) as (s2 & H1 & H2); [|done|].
  - apply (reach_step n s); [done|]. by apply run_step_step.
  - exists s2. split; [|done]. by eapply rtc_l.
Qed.

Lemma calls_complete_witness :
  ∃ s, exec 2 [ACall 0 (on_cpu 1 7 9); ACall 1 (on_cpu 0 5 6)] boot = Some s ∧
    ∃ s', rtc (run_step 2) s s' ∧ at_rest s'.
Proof.
  destruct (exec 2 [ACall 0 (on_cpu 1 7 9); ACall 1 (on_cpu 0 5 6)] boot) as [s|] eqn:E; [|by vm_compute in E].
  exists s. split; [done|].
  apply (calls_complete 2 s (exec_reachable 2 _ boot s (boot_reachable 2) E)).
Defined.
