(* ===== verification/Desc.v ===== *)
(** * Descriptor tables and exceptions: lib/x86/desc.c, desc.h

    The interrupt descriptor table, the global descriptor table of the 64-bit
    build, and the dispatch of exceptions to the handlers that tests install.
    The descriptors are records of their bit fields.  The table that the macro
    ASM_TRY collects in the section .data.ex is part of the state
    ([exception_table]); it is never written.  The 32-bit word at
    gs:EXCEPTION_ADDR holds what the last exception was. *)

From S2P Require Import Prelude Bits.

Record idt_entry_t := Idt {
  offset0 : Z; selector : Z; ist : Z; type : Z; dpl : Z; p : Z; offset1 : Z; offset2 : Z; reserved : Z;
}.

Record gdt_entry_t := Gdt {
  limit_low : Z; base_low : Z; base_middle : Z; access : Z; granularity : Z; base_high : Z;
}.

Record ex_record := ExRec { ex_rip : Z; ex_handler : Z }.

(** The fields of [struct ex_regs] that the dispatch uses. *)
Record ex_regs := Regs { vector : Z; error_code : Z; rip : Z; cs : Z; rflags : Z }.

(** The function pointers in [exception_handlers]; [UserH k] is a handler of a test. *)
Inductive handler := NullH | CheckTable | ExceptionHandler | UserH (k : Z).

Record desc_state := DState {
  boot_idt : list idt_entry_t;
  gdt64 : list gdt_entry_t;
  tss_ist1 : Z;
  gs_word : Z;
  exception_table : list ex_record;
  runtime_exception_table : list ex_record;
  exception_handlers : list handler;
  exception_flag : bool;
}.

Definition set_idt (l : list idt_entry_t) (s : desc_state) : desc_state :=
  DState l (gdt64 s) (tss_ist1 s) (gs_word s) (exception_table s) (runtime_exception_table s)
         (exception_handlers s) (exception_flag s).
Definition set_gdt (l : list gdt_entry_t) (s : desc_state) : desc_state :=
  DState (boot_idt s) l (tss_ist1 s) (gs_word s) (exception_table s) (runtime_exception_table s)
         (exception_handlers s) (exception_flag s).
Definition set_ist1 (v : Z) (s : desc_state) : desc_state :=
  DState (boot_idt s) (gdt64 s) v (gs_word s) (exception_table s) (runtime_exception_table s)
         (exception_handlers s) (exception_flag s).
Definition set_gs (v : Z) (s : desc_state) : desc_state :=
  DState (boot_idt s) (gdt64 s) (tss_ist1 s) v (exception_table s) (runtime_exception_table s)
         (exception_handlers s) (exception_flag s).
Definition set_runtime (l : list ex_record) (s : desc_state) : desc_state :=
  DState (boot_idt s) (gdt64 s) (tss_ist1 s) (gs_word s) (exception_table s) l
         (exception_handlers s) (exception_flag s).
Definition set_handlers (l : list handler) (s : desc_state) : desc_state :=
  DState (boot_idt s) (gdt64 s) (tss_ist1 s) (gs_word s) (exception_table s) (runtime_exception_table s)
         l (exception_flag s).
Definition set_flag (b : bool) (s : desc_state) : desc_state :=
  DState (boot_idt s) (gdt64 s) (tss_ist1 s) (gs_word s) (exception_table s) (runtime_exception_table s)
         (exception_handlers s) b.

Abbreviation dprog := (prog desc_state).

(** An element of an array, undefined outside. *)
Definition elem {A} (l : desc_state → list A) (i : Z) : dprog A :=
  a ← gets l;
  if i <? 0 then stop_with Undef
  else match a !! Z.to_nat i with Some x => mret x | None => stop_with Undef end.

(** *** Interrupt descriptors *)

(** Update [boot_idt[vec]]. *)
Definition idt_update (vec : Z) (f : idt_entry_t → idt_entry_t) : dprog unit :=
  e ← elem boot_idt vec;
  modify (λ s, set_idt (<[Z.to_nat vec := f e]> (boot_idt s)) s).

Definition set_idt_entry_ex (vec addr selector dpl ist : Z) : dprog unit :=
  idt_update vec (λ _, Idt (u16 addr) (u16 selector) (wrap 3 ist) 14 (wrap 2 dpl) 1
                           (u16 (Z.shiftr addr 16)) (u32 (Z.shiftr addr 32)) 0).

Section Idt.
Context (read_cs : Z).

Definition set_idt_entry_ist (vec addr dpl ist : Z) : dprog unit := set_idt_entry_ex vec addr read_cs dpl ist.
Definition set_idt_entry (vec addr dpl : Z) : dprog unit := set_idt_entry_ex vec addr read_cs dpl 0.

Definition set_idt_dpl (vec d : Z) : dprog unit :=
  idt_update vec (λ e, Idt (offset0 e) (selector e) (ist e) (type e) (wrap 2 d) (p e) (offset1 e) (offset2 e)
                           (reserved e)).
Definition set_idt_sel (vec sel : Z) : dprog unit :=
  idt_update vec (λ e, Idt (offset0 e) (u16 sel) (ist e) (type e) (dpl e) (p e) (offset1 e) (offset2 e)
                           (reserved e)).

Definition set_intr_alt_stack (e addr : Z) : dprog unit :=
  set_idt_entry e addr 0;;
  idt_update e (λ d, Idt (offset0 d) (selector d) 1 (type d) (dpl d) (p d) (offset1 d) (offset2 d) (reserved d)).

Definition setup_alt_stack (intr_alt_stack : Z) : dprog unit := modify (set_ist1 (u64 (intr_alt_stack + 4096))).

(** *** Segment descriptors *)

Definition gdt_update (num : Z) (f : gdt_entry_t → gdt_entry_t) : dprog unit :=
  e ← elem gdt64 num;
  modify (λ s, set_gdt (<[Z.to_nat num := f e]> (gdt64 s)) s).

(** The stores of [set_gdt_entry]. *)
Definition gdt_fields (base limit access gran : Z) : gdt_entry_t :=
  Gdt (Z.land limit 0xFFFF) (Z.land base 0xFFFF) (Z.land (Z.shiftr base 16) 0xFF) (u8 access)
      (Z.lor (Z.land (Z.shiftr limit 16) 0x0F) (Z.land gran 0xF0)) (Z.land (Z.shiftr base 24) 0xFF).

Definition set_gdt_entry (sel base limit access gran : Z) : dprog unit :=
  let num := Z.shiftr sel 3 in
  gdt_update num (λ _, gdt_fields base limit access gran).

(** The bit fields of [struct segment_desc64] as the two bytes of
    [type_limit_flags]. *)
Definition type_flags (access : Z) : Z :=
  Z.lor (Z.land access 0x0F)
    (Z.lor (Z.shiftl (Z.land (Z.shiftr access 4) 1) 4)
       (Z.lor (Z.shiftl (Z.land (Z.shiftr access 5) 3) 5) (Z.shiftl (Z.land (Z.shiftr access 7) 1) 7))).
Definition limit_flags (limit gran : Z) : Z :=
  Z.lor (Z.land (Z.shiftr limit 16) 0x0F)
    (Z.lor (Z.shiftl (Z.land (Z.shiftr gran 4) 1) 4)
       (Z.lor (Z.shiftl (Z.land (Z.shiftr gran 5) 1) 5)
          (Z.lor (Z.shiftl (Z.land (Z.shiftr gran 6) 1) 6) (Z.shiftl (Z.land (Z.shiftr gran 7) 1) 7)))).

(** The descriptor takes two entries: [base4] and [zero] are the second. *)
Definition set_gdt64_entry (sel base limit access gran : Z) : dprog unit :=
  let num := Z.shiftr sel 3 in
  gdt_update num (λ _, Gdt (Z.land limit 0xFFFF) (Z.land base 0xFFFF) (Z.land (Z.shiftr base 16) 0xFF)
                           (type_flags access) (limit_flags limit gran) (Z.land (Z.shiftr base 24) 0xFF));;
  let base4 := Z.land (Z.shiftr base 32) 0xFFFFFFFF in
  gdt_update (num + 1) (λ _, Gdt (Z.land base4 0xFFFF) (Z.shiftr base4 16) 0 0 0 0).

(** *** Exceptions *)

Definition exception_mnemonic (vector : Z) : string :=
  match vector with
  | 0 => "#DE" | 1 => "#DB" | 2 => "#NMI" | 3 => "#BP" | 4 => "#OF" | 5 => "#BR" | 6 => "#UD" | 7 => "#NM"
  | 8 => "#DF" | 10 => "#TS" | 11 => "#NP" | 12 => "#SS" | 13 => "#GP" | 14 => "#PF" | 16 => "#MF"
  | 17 => "#AC" | 18 => "#MC" | 19 => "#XM" | _ => "#??"
  end%string.

Definition NO_EXCEPTION : Z := 0xFF.

(** [exception_vector], [exception_error_code] and [exception_rflags_rf]: the
    bytes 0, 2-3 and 1 of the word. *)
Definition exception_vector (s : desc_state) : Z := Z.land (gs_word s) 0xFF.
Definition exception_error_code (s : desc_state) : Z := Z.land (Z.shiftr (gs_word s) 16) 0xFFFF.
Definition exception_rflags_rf (s : desc_state) : bool := Z.testbit (gs_word s) 8.

Definition unhandled_exception {A} (regs : ex_regs) : dprog A := stop_with Halt.

(** The first slot with both fields 0. *)
Fixpoint free_slot (l : list ex_record) : option nat :=
  match l with
  | [] => None
  | e :: l' => if (ex_rip e =? 0) && (ex_handler e =? 0) then Some O else S <$> free_slot l'
  end.

Definition register_runtime_exception (rip handler : Z) : dprog Z :=
  l ← gets runtime_exception_table;
  match free_slot l with
  | Some i => modify (set_runtime (<[i := ExRec rip handler]> l));; mret (Z.of_nat i)
  | None => mret (-1)
  end.

Definition unregister_runtime_exception (i : Z) : dprog unit :=
  _ ← elem runtime_exception_table i;
  modify (λ s, set_runtime (<[Z.to_nat i := ExRec 0 0]> (runtime_exception_table s)) s).

Definition ex_val (regs : ex_regs) : Z :=
  u32 (Z.lor (Z.lor (vector regs) (Z.shiftl (error_code regs) 16))
             (Z.shiftl (Z.land (Z.shiftr (rflags regs) 16) 1) 8)).

Definition with_rip (r : Z) (regs : ex_regs) : ex_regs :=
  Regs (vector regs) (error_code regs) r (cs regs) (rflags regs).

(** The handler of the first record for the address. *)
Fixpoint find_record (l : list ex_record) (rip : Z) : option Z :=
  match l with
  | [] => None
  | e :: l' => if ex_rip e =? rip then Some (ex_handler e) else find_record l' rip
  end.

Definition check_exception_table (regs : ex_regs) : dprog ex_regs :=
  modify (set_gs (ex_val regs));;
  static ← gets exception_table;
  match find_record static (rip regs) with
  | Some h => mret (with_rip h regs)
  | None =>
      runtime ← gets runtime_exception_table;
      match find_record runtime (rip regs) with
      | Some h => mret (with_rip h regs)
      | None => unhandled_exception regs
      end
  end.

(** The table is read before the bound is tested. *)
Definition handle_exception (v : Z) (fn : handler) : dprog handler :=
  old ← elem exception_handlers (u8 v);
  (if u8 v <? 32 then modify (λ s, set_handlers (<[Z.to_nat (u8 v) := fn]> (exception_handlers s)) s)
   else mret ());;
  mret old.

(** The addresses of the stubs [de_fault] to [xm_fault] by vector. *)
Definition idt_handlers (fault : Z → Z) : list (option Z) :=
  (λ v, if (v =? 9) || (v =? 15) || (20 <=? v) then None else Some (fault v)) <$> seqZ 0 32.

(** [setup_idt] for the entries of [idt_handlers], [None] where there is none. *)
Fixpoint setup_idt_from (i : Z) (handlers : list (option Z)) : dprog unit :=
  match handlers with
  | [] => mret ()
  | h :: l =>
      match h with
      | Some addr => set_idt_entry i addr 0;; _ ← handle_exception i CheckTable; mret ()
      | None => mret ()
      end;;
      setup_idt_from (i + 1) l
  end.

Definition setup_idt (fault : Z → Z) : dprog unit := setup_idt_from 0 (idt_handlers fault).
End Idt.

Section Dispatch.
(** The handlers of the tests, and the address of [exception_handler_longjmp]. *)
Context (user : Z → ex_regs → dprog ex_regs) (longjmp_addr : Z).

Definition exception_handler (regs : ex_regs) : dprog ex_regs :=
  modify (set_gs (ex_val regs));;
  modify (set_flag true);;
  mret (with_rip longjmp_addr regs).

Definition do_handle_exception (regs : ex_regs) : dprog ex_regs :=
  if vector regs <? 32 then
    h ← elem exception_handlers (vector regs);
    match h with
    | NullH => unhandled_exception regs
    | CheckTable => check_exception_table regs
    | ExceptionHandler => exception_handler regs
    | UserH k => user k regs
    end
  else unhandled_exception regs.

(** A trigger function as the exceptions it raises, in order: [true] if one of
    them resumes at [exception_handler_longjmp], which returns from the
    [setjmp] again. *)
Fixpoint raise (events : list ex_regs) : dprog bool :=
  match events with
  | [] => mret false
  | e :: l =>
      regs ← do_handle_exception e;
      if rip regs =? longjmp_addr then mret true else raise l
  end.

Definition test_for_exception (ex : Z) (trigger_func : list ex_regs) : dprog bool :=
  old ← handle_exception ex ExceptionHandler;
  modify (set_gs NO_EXCEPTION);;
  ret ← raise trigger_func;
  _ ← handle_exception ex old;
  mret ret.
End Dispatch.

(** ** Descriptors *)

Lemma elem_wp {A} (l : desc_state → list A) i (Q : A → desc_state → Prop) s x :
  0 <= i → l s !! Z.to_nat i = Some x → Q x s → wp (elem l i) Q s.
Proof.
  intros Hi Hx HQ. unfold elem. wsteps. destruct (Z.ltb_spec i 0); [lia|]. rewrite Hx. by wstep.
Qed.

Lemma idt_update_wp vec f (Q : unit → desc_state → Prop) s e :
  0 <= vec → boot_idt s !! Z.to_nat vec = Some e →
  Q () (set_idt (<[Z.to_nat vec := f e]> (boot_idt s)) s) → wp (idt_update vec f) Q s.
Proof. intros H0 He HQ. unfold idt_update. wstep. eapply elem_wp; [done|done|]. by wstep. Qed.

(** The address that the processor (and [handle_external_interrupt]) takes
    from a gate. *)
Definition gate_offset (e : idt_entry_t) : Z :=
  Z.lor (Z.lor (offset0 e) (Z.shiftl (offset1 e) 16)) (Z.shiftl (offset2 e) 32).

(** Parts of a word put together again. *)
Lemma split_16_16_32 a :
  0 <= a < 2 ^ 64 →
  Z.lor (Z.lor (u16 a) (Z.shiftl (u16 (Z.shiftr a 16)) 16)) (Z.shiftl (u32 (Z.shiftr a 32)) 32) = a.
Proof.
  intros Ha. rewrite !Z.shiftl_mul_pow2, !Z.shiftr_div_pow2 by lia.
  pose proof (wrap_range 16 a) as H1. pose proof (wrap_range 16 (a / 2 ^ 16)) as H2.
  rewrite (Z.lor_comm (u16 a)), lor_add by lia. rewrite Z.lor_comm, lor_add by lia.
  rewrite (wrap_small 32) by (split; [apply Z.div_pos; lia|apply Z.div_lt_upper_bound; lia]). mlia.
Qed.

(** [set_idt_entry_ex] installs a present interrupt gate whose target is
    the address, with the selector, privilege level and stack given, and leaves
    all other gates alone; [set_idt_dpl] and [set_idt_sel] change one field. *)
Theorem set_idt_entry_gate read_cs vec addr d st s (l := boot_idt s) :
  0 <= vec < Z.of_nat (length l) → 0 <= addr < 2 ^ 64 → 0 <= read_cs < 2 ^ 16 → 0 <= d < 4 → 0 <= st < 8 →
  wp (set_idt_entry_ist read_cs vec addr d st;; elem boot_idt vec)
    (λ e s', gate_offset e = addr ∧ selector e = read_cs ∧ type e = 14 ∧ p e = 1 ∧ dpl e = d ∧ ist e = st ∧
       (∀ j, j ≠ Z.to_nat vec → boot_idt s' !! j = boot_idt s !! j) ∧
       ∀ d2 sel2, 0 <= d2 < 4 → 0 <= sel2 < 2 ^ 16 →
         wp (set_idt_dpl vec d2;; set_idt_sel vec sel2;; elem boot_idt vec)
           (λ e2 _, gate_offset e2 = addr ∧ selector e2 = sel2 ∧ dpl e2 = d2 ∧ p e2 = 1 ∧ ist e2 = st) s') s.
Proof.
  intros Hv Ha Hc Hd Hst. destruct (lookup_lt_is_Some_2 l (Z.to_nat vec)) as [e0 He0]; [lia|].
  assert (Z.to_nat vec < length l)%nat as Hlt by lia.
  wstep. unfold set_idt_entry_ist, set_idt_entry_ex. eapply idt_update_wp; [lia|done|].
  eapply elem_wp; [lia|cbn; by apply list_lookup_insert_eq|]. cbn.
  split; [by apply split_16_16_32|]. rewrite !wrap_small by lia.
  do 5 (split; [done|]). split; [intros j Hj; by apply list_lookup_insert_ne|].
  intros d2 sel2 Hd2 Hs2. wstep. unfold set_idt_dpl.
  eapply idt_update_wp; [lia|cbn; by apply list_lookup_insert_eq|]. cbn. wstep. unfold set_idt_sel.
  eapply idt_update_wp; [lia|cbn; by apply list_lookup_insert_eq; rewrite length_insert|]. cbn.
  eapply elem_wp; [lia|cbn; apply list_lookup_insert_eq; by rewrite !length_insert|]. cbn.
  split; [by apply split_16_16_32|]. by rewrite !wrap_small by lia.
Qed.

(** The linear fields of a system descriptor. *)
Definition sys_base (lo hi : gdt_entry_t) : Z :=
  base_low lo + base_middle lo * 2 ^ 16 + base_high lo * 2 ^ 24 + (limit_low hi + base_low hi * 2 ^ 16) * 2 ^ 32.
Definition seg_limit (e : gdt_entry_t) : Z := limit_low e + Z.land (granularity e) 0x0F * 2 ^ 16.

Lemma land_mask a n m : m = Z.ones n → 0 <= n → Z.land a m = a mod 2 ^ n.
Proof. intros -> Hn. by apply Z.land_ones. Qed.

(** A property of bytes, checked for all of them. *)
Lemma byte_check (f : Z → bool) : forallb f (seqZ 0 256) = true → ∀ a, 0 <= a < 256 → f a = true.
Proof.
  intros H a Ha. rewrite forallb_forall in H. apply H. apply list_elem_of_In, elem_of_seqZ. lia.
Qed.

Lemma type_flags_byte a : 0 <= a < 2 ^ 8 → type_flags a = a.
Proof.
  intros Ha. apply Z.eqb_eq. apply (byte_check (λ a, type_flags a =? a)); [by vm_compute|done].
Qed.

Lemma limit_flags_gran limit gran : 0 <= gran < 2 ^ 8 →
  limit_flags limit gran = Z.lor (Z.land (Z.shiftr limit 16) 0x0F) (Z.land gran 0xF0).
Proof.
  intros Hg. unfold limit_flags. f_equal. apply Z.eqb_eq.
  apply (byte_check (λ gran, Z.lor (Z.shiftl (Z.land (Z.shiftr gran 4) 1) 4)
       (Z.lor (Z.shiftl (Z.land (Z.shiftr gran 5) 1) 5)
          (Z.lor (Z.shiftl (Z.land (Z.shiftr gran 6) 1) 6) (Z.shiftl (Z.land (Z.shiftr gran 7) 1) 7))) =?
       Z.land gran 0xF0)); [by vm_compute|done].
Qed.

(** The two halves of the granularity byte. *)
Lemma gran_halves a b :
  0 <= a < 16 → 0 <= b < 256 →
  Z.land (Z.lor a (Z.land b 0xF0)) 0x0F = a ∧ Z.land (Z.lor a (Z.land b 0xF0)) 0xF0 = Z.land b 0xF0.
Proof.
  intros Ha Hb. rewrite !Z.land_lor_distr_l, <- !Z.land_assoc.
  change (Z.land 0xF0 0x0F) with 0. change (Z.land 0xF0 0xF0) with 0xF0. rewrite Z.land_0_r, Z.lor_0_r.
  rewrite (land_mask a 4 0x0F) by (done || lia). split; [apply Z.mod_small; lia|].
  assert (Z.land a 0xF0 = 0) as ->; [|apply Z.lor_0_l].
  apply Z.eqb_eq. assert (∀ a, 0 <= a < 256 → (if a <? 16 then Z.land a 0xF0 =? 0 else true) = true) as H
    by (apply byte_check; by vm_compute).
  specialize (H a ltac:(lia)). by destruct (Z.ltb_spec a 16); [|lia].
Qed.

(** [set_gdt64_entry] writes a 16-byte descriptor with this base, limit,
    access byte and flags, as the processor decodes it, and no other entry; its
    first half is what [set_gdt_entry] writes for the low half of the base. *)
Theorem set_gdt64_entry_fields sel base limit acc gran s (l := gdt64 s) (num := Z.shiftr sel 3) :
  0 <= num → num + 1 < Z.of_nat (length l) → 0 <= base < 2 ^ 64 → 0 <= limit < 2 ^ 20 →
  0 <= acc < 2 ^ 8 → 0 <= gran < 2 ^ 8 →
  wp (set_gdt64_entry sel base limit acc gran;; lo ← elem gdt64 num; hi ← elem gdt64 (num + 1); mret (lo, hi))
    (λ '(lo, hi) s', sys_base lo hi = base ∧ seg_limit lo = limit ∧ access lo = acc ∧
       Z.land (granularity lo) 0xF0 = Z.land gran 0xF0 ∧
       lo = gdt_fields (base mod 2 ^ 32) limit acc gran ∧
       ∀ j, j ≠ Z.to_nat num → j ≠ Z.to_nat (num + 1) → gdt64 s' !! j = gdt64 s !! j) s.
Proof.
  intros Hn Hlt Hb Hl Ha Hg. subst l.
  destruct (lookup_lt_is_Some_2 (gdt64 s) (Z.to_nat num)) as [e0 He0]; [lia|].
  destruct (lookup_lt_is_Some_2 (gdt64 s) (Z.to_nat (num + 1))) as [e1 He1]; [lia|].
  wstep. unfold set_gdt64_entry. fold num. wstep. unfold gdt_update at 1. wstep.
  eapply elem_wp; [lia|done|]. wstep. cbn zeta. unfold gdt_update. wstep.
  eapply elem_wp; [lia|cbn; rewrite list_lookup_insert_ne by lia; done|]. wstep. cbn [gdt64 set_gdt].
  wstep. eapply elem_wp; [lia|cbn; rewrite list_lookup_insert_ne by lia; apply list_lookup_insert_eq; lia|].
  wstep. eapply elem_wp; [lia|cbn; apply list_lookup_insert_eq; rewrite length_insert; lia|]. wstep.
  rewrite type_flags_byte, limit_flags_gran by lia. unfold sys_base, seg_limit, gdt_fields. cbn.
  change 65535 with (Z.ones 16). change 255 with (Z.ones 8). change 4294967295 with (Z.ones 32).
  rewrite !Z.land_ones, !Z.shiftr_div_pow2 by lia.
  assert (0 <= limit / 2 ^ 16 < 16) by (split; [apply Z.div_pos; lia|apply Z.div_lt_upper_bound; lia]).
  rewrite (land_mask (limit / 2 ^ 16) 4 15), (Z.mod_small (limit / 2 ^ 16)) by (done || lia).
  destruct (gran_halves (limit / 2 ^ 16) gran) as [-> ->]; [lia|lia|].
  split; [clear - Hb; Z.div_mod_to_equations; lia|].
  split; [clear - Hl; Z.div_mod_to_equations; lia|]. split; [done|]. split; [done|]. split.
  - assert (base mod 2 ^ 32 mod 2 ^ 16 = base mod 2 ^ 16) as -> by (clear - Hb; Z.div_mod_to_equations; lia).
    assert ((base mod 2 ^ 32 / 2 ^ 16) mod 2 ^ 8 = (base / 2 ^ 16) mod 2 ^ 8) as ->
      by (clear - Hb; Z.div_mod_to_equations; lia).
    assert ((base mod 2 ^ 32 / 2 ^ 24) mod 2 ^ 8 = (base / 2 ^ 24) mod 2 ^ 8) as ->
      by (clear - Hb; Z.div_mod_to_equations; lia).
    by rewrite (wrap_small 8 acc).
  - intros j H1 H2. by rewrite !list_lookup_insert_ne by done.
Qed.

(** ** Exceptions *)

(** What [exception_vector], [exception_error_code] and [exception_rflags_rf]
    read after an exception. *)
Lemma ex_val_fields regs s :
  0 <= vector regs < 256 → 0 <= error_code regs → 0 <= rflags regs →
  let s' := set_gs (ex_val regs) s in
  exception_vector s' = vector regs ∧ exception_error_code s' = error_code regs mod 2 ^ 16 ∧
  exception_rflags_rf s' = Z.testbit (rflags regs) 16.
Proof.
  intros Hv He Hr. unfold exception_vector, exception_error_code, exception_rflags_rf, ex_val. cbn [gs_word set_gs].
  set (rf := Z.land (Z.shiftr (rflags regs) 16) 1).
  assert (∀ i, 0 <= i → Z.testbit rf i = (i =? 0) && Z.testbit (rflags regs) 16) as Hrf.
  { intros i Hi. unfold rf. change 1 with (2 ^ 0). rewrite Z.land_spec, testbit_pow2, Z.shiftr_spec by lia.
    destruct (Z.eqb_spec i 0) as [->|]; cbn; [by rewrite andb_true_r|by rewrite andb_false_r]. }
  assert (∀ i, Z.testbit (vector regs) i = (i <? 8) && Z.testbit (vector regs) i) as Hvb.
  { intros i. rewrite <- (wrap_small 8 (vector regs)) at 1 by lia. by rewrite testbit_wrap by lia. }
  split; [|split].
  - apply Z.bits_inj'. intros i Hi. change 0xFF with (Z.ones 8).
    rewrite Z.land_spec, testbit_wrap, !Z.lor_spec, !Z.shiftl_spec, testbit_ones, Hvb by lia.
    destruct (Z.leb_spec 0 i); [|lia].
    destruct (Z.ltb_spec i 8), (Z.ltb_spec i 32); cbn; try lia; rewrite ?andb_false_r; try done.
    rewrite !(Z.testbit_neg_r _ (i - _)) by lia. by rewrite !orb_false_r, andb_true_r.
  - apply Z.bits_inj'. intros i Hi. change 0xFFFF with (Z.ones 16).
    rewrite Z.land_spec, Z.shiftr_spec, testbit_wrap, !Z.lor_spec, !Z.shiftl_spec, testbit_ones, Hvb by lia.
    rewrite <- (testbit_wrap 16 (error_code regs)) || idtac.
    rewrite Hrf by lia.
    destruct (Z.leb_spec 0 i); [|lia].
    change (error_code regs mod 2 ^ 16) with (u16 (error_code regs)). rewrite testbit_wrap by lia.
    destruct (Z.ltb_spec i 16), (Z.ltb_spec (i + 16) 32), (Z.ltb_spec (i + 16) 8), (Z.eqb_spec (i + 16 - 8) 0);
      cbn; try lia; rewrite ?andb_false_r; try done.
    rewrite andb_true_r, orb_false_r. f_equal. lia.
  - rewrite testbit_wrap, !Z.lor_spec, !Z.shiftl_spec, Hvb, Hrf by lia. cbn.
    by rewrite Z.testbit_neg_r, orb_false_l by lia.
Qed.

Section DispatchLaws.
Context (user : Z → ex_regs → dprog ex_regs) (longjmp_addr : Z).

(** The record that applies to an address. *)
Definition fixup (s : desc_state) (rip : Z) : option Z :=
  match find_record (exception_table s) rip with
  | Some h => Some h
  | None => find_record (runtime_exception_table s) rip
  end.

(** The exception is repaired by a record of the tables. *)
Definition fixed (s : desc_state) (e : ex_regs) : Prop :=
  0 <= vector e < 32 ∧ exception_handlers s !! Z.to_nat (vector e) = Some CheckTable ∧
  ∃ h, fixup s (rip e) = Some h ∧ h ≠ longjmp_addr.

Lemma check_table_wp e h s :
  fixup s (rip e) = Some h →
  wp (check_exception_table e) (λ r s', r = with_rip h e ∧ s' = set_gs (ex_val e) s) s.
Proof using Type.
  intros H. unfold fixup in H. unfold check_exception_table. wsteps. cbn [exception_table set_gs].
  destruct (find_record _ (rip e)) as [h'|]; [injection H as ->; by wstep|].
  wsteps. cbn [runtime_exception_table set_gs]. rewrite H. by wstep.
Qed.

Lemma fixed_wp e s :
  fixed s e →
  wp (do_handle_exception user longjmp_addr e) (λ r s', rip r ≠ longjmp_addr ∧ s' = set_gs (ex_val e) s) s.
Proof using Type.
  intros (Hv & Hh & h & Hf & Hne). unfold do_handle_exception.
  destruct (Z.ltb_spec (vector e) 32); [|lia]. wstep. eapply elem_wp; [lia|done|].
  eapply wp_mono; [by apply check_table_wp|]. by intros r s' [-> ->].
Qed.

(** Exceptions that are repaired do not end the trigger. *)
Lemma raise_fixed pre rest (Q : bool → desc_state → Prop) s :
  (∀ e, e ∈ pre → fixed s e) →
  (∀ g, (pre = [] → g = gs_word s) → wp (raise user longjmp_addr rest) Q (set_gs g s)) →
  wp (raise user longjmp_addr (pre ++ rest)) Q s.
Proof using Type.
  revert s. induction pre as [|e pre IH]; intros s Hpre HQ; cbn [raise app].
  - assert (set_gs (gs_word s) s = s) as Hs by (by destruct s). specialize (HQ (gs_word s) (λ _, eq_refl)).
    by rewrite Hs in HQ.
  - wstep. eapply wp_mono; [apply fixed_wp, Hpre; by left|]. intros r s' [Hr ->].
    destruct (Z.eqb_spec (rip r) longjmp_addr); [done|]. apply IH.
    + intros e' He'. apply (Hpre e'). by right.
    + intros g _. apply (HQ g). done.
Qed.

(** The two ways a trigger ends. *)
Lemma install_wp ex (Q : handler → desc_state → Prop) fn old s :
  0 <= ex < 32 → exception_handlers s !! Z.to_nat ex = Some old →
  Q old (set_handlers (<[Z.to_nat ex := fn]> (exception_handlers s)) s) → wp (handle_exception ex fn) Q s.
Proof using Type.
  intros He Ho HQ. unfold handle_exception. rewrite (wrap_small 8) by lia. wstep.
  eapply elem_wp; [lia|done|]. destruct (Z.ltb_spec ex 32); [|lia]. wsteps. done.
Qed.

Lemma restore_handlers (l : list handler) i fn old :
  l !! i = Some old → <[i := old]> (<[i := fn]> l) = l.
Proof using Type. intros H. rewrite list_insert_insert_eq. by apply list_insert_id. Qed.

(** C10: [test_for_exception] reports the exception [ex]: if all exceptions of
    the trigger are of other vectors and are repaired by the exception tables it
    returns false; if one of vector [ex] follows, it returns true, and the
    recorded vector, error code and RF flag are those of that exception.  In
    both cases the previous handler is installed again. *)
Theorem test_for_exception_reports ex pre s :
  0 <= ex < 32 → (Z.to_nat ex < length (exception_handlers s))%nat →
  (∀ e, e ∈ pre → vector e ≠ ex ∧ fixed s e) →
  wp (test_for_exception user longjmp_addr ex pre)
    (λ r s', r = false ∧ exception_handlers s' = exception_handlers s ∧
             (pre = [] → exception_vector s' = NO_EXCEPTION)) s ∧
  ∀ e post, vector e = ex → 0 <= error_code e → 0 <= rflags e →
    wp (test_for_exception user longjmp_addr ex (pre ++ e :: post))
      (λ r s', r = true ∧ exception_handlers s' = exception_handlers s ∧ exception_vector s' = ex ∧
               exception_error_code s' = error_code e mod 2 ^ 16 ∧
               exception_rflags_rf s' = Z.testbit (rflags e) 16) s.
Proof using Type.
  intros He Hlen Hpre. destruct (lookup_lt_is_Some_2 _ _ Hlen) as [old Hold].
  set (s1 := set_gs NO_EXCEPTION (set_handlers (<[Z.to_nat ex := ExceptionHandler]> (exception_handlers s)) s)).
  assert (∀ e, e ∈ pre → fixed s1 e) as Hpre1.
  { intros e Hin. destruct (Hpre e Hin) as [Hne (Hv & Hh & H)]. split; [done|]. split; [|done].
    unfold s1. cbn. rewrite list_lookup_insert_ne by lia. done. }
  assert (∀ g, exception_handlers (set_gs g s1) !! Z.to_nat ex = Some ExceptionHandler) as Hex.
  { intros g. unfold s1. cbn. by apply list_lookup_insert_eq. }
  split.
  - unfold test_for_exception. wstep. eapply install_wp; [done|done|]. wstep. wstep. fold s1. wstep.
    rewrite <- (app_nil_r pre). apply raise_fixed; [done|]. intros g Hg. cbn [raise]. wstep.
    wstep. eapply install_wp; [done|done|]. wstep. split; [done|]. split; [by apply restore_handlers|].
    rewrite app_nil_r. intros Hp. unfold exception_vector. cbn. by rewrite (Hg Hp).
  - intros e post Hv Hec Hrf. unfold test_for_exception. wstep. eapply install_wp; [done|done|]. wstep. wstep.
    fold s1. wstep. apply raise_fixed; [done|]. intros g _. cbn [raise]. wstep. unfold do_handle_exception.
    rewrite Hv. destruct (Z.ltb_spec ex 32); [|lia]. wstep. eapply elem_wp; [lia|by apply Hex|].
    unfold exception_handler. wsteps. cbn [rip with_rip]. rewrite Z.eqb_refl. wstep. wstep.
    eapply install_wp; [done|exact (Hex 0)|]. wstep. split; [done|].
    split; [by apply restore_handlers|]. rewrite <- Hv. apply (ex_val_fields e s); lia.
Qed.
End DispatchLaws.

(** *** The runtime table *)

Lemma free_slot_lookup l i : free_slot l = Some i → l !! i = Some (ExRec 0 0).
Proof.
  revert i. induction l as [|[r h] l IH]; intros i; cbn; [done|].
  destruct (Z.eqb_spec r 0), (Z.eqb_spec h 0); cbn; subst.
  1: by intros [= <-].
  all: destruct (free_slot l) as [j|] eqn:E; cbn; [|done]; intros [= <-]; by apply IH.
Qed.

Lemma find_record_insert l i rip h :
  find_record l rip = None → (i < length l)%nat → find_record (<[i := ExRec rip h]> l) rip = Some h.
Proof.
  revert i. induction l as [|e l IH]; intros i Hn Hi; cbn in Hi; [lia|]. cbn in Hn.
  destruct (Z.eqb_spec (ex_rip e) rip); [done|]. destruct i as [|i]; cbn.
  - by rewrite Z.eqb_refl.
  - destruct (Z.eqb_spec (ex_rip e) rip); [done|]. apply IH; [done|lia].
Qed.

Lemma find_record_free l i : free_slot l = Some i → ∃ h, find_record l 0 = Some h ∧
  ((∀ e, e ∈ l → ex_rip e = 0 → ex_handler e = 0) → h = 0).
Proof.
  revert i. induction l as [|[r h] l IH]; intros i; cbn; [done|].
  destruct (Z.eqb_spec r 0) as [->|Hr]; cbn.
  - intros _. exists h. split; [done|]. intros H. apply (H (ExRec 0 h)); [by left|done].
  - destruct (free_slot l) as [j|] eqn:E; cbn; [|done]. intros [= <-].
    destruct (IH j eq_refl) as (h' & Hh & H). exists h'. split; [done|]. intros H'. apply H.
    intros e He. apply H'. by right.
Qed.

(** an exception at a registered address resumes at its handler, and
    unregistering gives back the table that was there before; a full table
    returns -1 and registers nothing. *)
Theorem register_runtime_fixup addr h e s :
  addr ≠ 0 → rip e = addr → fixup s addr = None →
  match free_slot (runtime_exception_table s) with
  | Some _ =>
      wp (i ← register_runtime_exception addr h; r ← check_exception_table e;
          unregister_runtime_exception i;; mret (i, r))
        (λ '(i, r) s', 0 <= i < Z.of_nat (length (runtime_exception_table s)) ∧ rip r = h ∧
           runtime_exception_table s' = runtime_exception_table s) s
  | None => register_runtime_exception addr h s = Ret (-1, s)
  end.
Proof.
  intros Ha He Hf. unfold fixup in Hf. destruct (find_record (exception_table s) addr) eqn:Es; [done|].
  destruct (free_slot (runtime_exception_table s)) as [i|] eqn:Ei.
  - pose proof (free_slot_lookup _ _ Ei) as Hi. pose proof (lookup_lt_Some _ _ _ Hi) as Hlt.
    unfold register_runtime_exception. wstep. wstep. wstep. rewrite Ei. wsteps.
    eapply wp_mono.
    { apply (check_table_wp e h). unfold fixup. cbn. rewrite He, Es. by apply find_record_insert. }
    intros r s' [-> ->]. wstep. unfold unregister_runtime_exception. wstep.
    eapply elem_wp; [lia|cbn; rewrite Nat2Z.id; by apply list_lookup_insert_eq|]. wsteps. cbn.
    split; [lia|]. split; [done|]. rewrite Nat2Z.id, list_insert_insert_eq. by apply list_insert_id.
  - unfold register_runtime_exception, mbind, prog_bind, gets. by rewrite Ei.
Qed.

(** an exception at address 0 (a call of a null pointer) that has no record
    is not reported: a free slot of the runtime table matches it, and the
    program resumes at 0, where it faults again. *)
Theorem null_call_resumes e s :
  rip e = 0 → find_record (exception_table s) 0 = None →
  free_slot (runtime_exception_table s) ≠ None →
  (∀ r, r ∈ runtime_exception_table s → ex_rip r = 0 → ex_handler r = 0) →
  wp (check_exception_table e) (λ r s', rip r = 0 ∧ runtime_exception_table s' = runtime_exception_table s) s.
Proof.
  intros He Hs Hf Hz. destruct (free_slot (runtime_exception_table s)) as [i|] eqn:Ei; [|done].
  destruct (find_record_free _ _ Ei) as (h & Hh & Hh0). rewrite (Hh0 Hz) in Hh.
  eapply wp_mono; [apply (check_table_wp e 0); unfold fixup; by rewrite He, Hs|].
  by intros r s' [-> ->].
Qed.

(** ** A machine to test with *)

(** All handlers look the tables up; one static record. *)
Definition desc_start : desc_state :=
  DState (replicate 256 (Idt 0 0 0 0 0 0 0 0 0)) (replicate 32 (Gdt 0 0 0 0 0 0)) 0 0
         [ExRec 0x1000 0x1008] (replicate 32 (ExRec 0 0)) (replicate 32 CheckTable) false.

Lemma set_idt_entry_gate_witness :
  wp (set_idt_entry_ist 8 14 0xffff800012345678 3 1;; elem boot_idt 14)
    (λ e s', gate_offset e = 0xffff800012345678 ∧ selector e = 8) desc_start.
Proof.
  eapply wp_mono.
  - apply (set_idt_entry_gate 8 14 0xffff800012345678 3 1 desc_start); [cbn; lia|lia|lia|lia|lia].
  - intros e s' (H1 & H2 & _). done.
Defined.

Lemma set_gdt64_entry_fields_witness :
  wp (set_gdt64_entry 0x80 0xffff800012345678 0xfffff 0x89 0x0f;; lo ← elem gdt64 16; hi ← elem gdt64 17;
      mret (lo, hi))
    (λ '(lo, hi) s', sys_base lo hi = 0xffff800012345678 ∧ seg_limit lo = 0xfffff) desc_start.
Proof.
  eapply wp_mono.
  - apply (set_gdt64_entry_fields 0x80 0xffff800012345678 0xfffff 0x89 0x0f desc_start);
      [by vm_compute|by vm_compute|lia|lia|lia|lia].
  - intros [lo hi] s' (H1 & H2 & _). done.
Defined.

Lemma test_for_exception_reports_witness :
  wp (test_for_exception (λ _ r, mret r) 0x2000 13 [Regs 14 2 0x1000 8 0x10002; Regs 13 0x18 0x1234 8 0x10002])
    (λ r s', r = true ∧ exception_handlers s' = exception_handlers desc_start ∧ exception_vector s' = 13 ∧
             exception_error_code s' = 0x18 ∧ exception_rflags_rf s' = true) desc_start.
Proof.
  apply (test_for_exception_reports (λ _ r, mret r) 0x2000 13 [Regs 14 2 0x1000 8 0x10002] desc_start)
    with (e := Regs 13 0x18 0x1234 8 0x10002) (post := []); cbn; try lia.
  intros e He. apply list_elem_of_singleton in He as ->. split; [done|]. split; [cbn; lia|]. split; [done|].
  by exists 0x1008.
Defined.

Lemma register_runtime_fixup_witness :
  wp (i ← register_runtime_exception 0x3000 0x3010; r ← check_exception_table (Regs 6 0 0x3000 8 2);
      unregister_runtime_exception i;; mret (i, r))
    (λ '(i, r) s', 0 <= i < 32 ∧ rip r = 0x3010 ∧
       runtime_exception_table s' = runtime_exception_table desc_start) desc_start.
Proof. by apply (register_runtime_fixup 0x3000 0x3010 (Regs 6 0 0x3000 8 2) desc_start). Defined.

Lemma null_call_resumes_witness :
  wp (check_exception_table (Regs 14 0x10 0 8 2)) (λ r _, rip r = 0) desc_start.
Proof.
  eapply wp_mono.
  - apply (null_call_resumes (Regs 14 0x10 0 8 2) desc_start); [done|done|done|].
    intros r Hr. apply elem_of_replicate in Hr as [-> _]. done.
  - by intros r s' [-> _].
Defined.
