(* ===== verification/Isr.v ===== *)
(** * Interrupt handlers: lib/x86/isr.c

    [handle_irq] writes a piece of machine code, the thunk, into a block of
    memory and installs its address in the interrupt descriptor table.  The
    instructions of the thunk are executed by [x86_step], which decodes the four
    encodings that occur.  [read_cs] and the address of [isr_entry_point] are
    arguments. *)

From S2P Require Import Prelude Memory CString Bits AllocPage Alloc Desc.

Record isr_state (St : Type) := IState { heap : St; desc : desc_state }.
Arguments IState {St} _ _.
Arguments heap {St} _.
Arguments desc {St} _.

Section Isr.
Context {St : Type} {ops : AllocOps St} (read_cs isr_entry_point : Z).
#[local] Abbreviation iprog := (prog (isr_state St)).

Definition on_heap {A} (m : prog St A) : iprog A := zoom heap (λ h s, IState h (desc s)) m.
Definition on_desc {A} (m : dprog A) : iprog A := zoom desc (λ d s, IState (heap s) d) m.

(** [*thunk++ = b] and [*(u32 * )thunk = v; thunk += 4] *)
Definition put (b thunk : Z) : iprog Z :=
  on_heap (modify (λ s, ao_set_mem (wr8 (ao_mem s) thunk b) s));; mret (thunk + 1).
Definition put32 (v thunk : Z) : iprog Z :=
  on_heap (modify (λ s, ao_set_mem (st32 (ao_mem s) thunk (u32 v)) s));; mret (thunk + 4).

Fixpoint puts (l : list Z) (thunk : Z) : iprog Z :=
  match l with [] => mret thunk | b :: l' => thunk ← put b thunk; puts l' thunk end.

Definition handle_irq (vec func : Z) : iprog unit :=
  thunk ← on_heap (malloc 50);
  on_desc (set_idt_entry read_cs vec thunk 0);;
  (* sub $8, %rsp *)
  thunk ← puts [0x48; 0x83; 0xec; 0x08] thunk;
  (* mov $func_low, (%rsp) *)
  thunk ← puts [0xc7; 0x04; 0x24] thunk;
  thunk ← put32 func thunk;
  (* mov $func_high, 4(%rsp) *)
  thunk ← puts [0xc7; 0x44; 0x24; 0x04] thunk;
  thunk ← put32 (Z.shiftr func 32) thunk;
  (* jmp isr_entry_point *)
  thunk ← puts [0xe9] thunk;
  _ ← put32 (isr_entry_point - (thunk + 4)) thunk;
  mret ().

(** The address that [handle_external_interrupt] calls. *)
Definition external_entry (vector : Z) : dprog Z :=
  idt ← elem boot_idt vector;
  mret (Z.lor (Z.lor (offset0 idt) (Z.shiftl (offset1 idt) 16)) (Z.shiftl (offset2 idt) 32)).
End Isr.

(** ** The instructions of the thunk *)

(** Memory, instruction pointer and stack pointer. *)
Definition cpu : Type := mem * Z * Z.

Definition x86_step '((m, rip, rsp) : cpu) : option cpu :=
  let b i := rd8 m (rip + i) in
  if (b 0 =? 0x48) && (b 1 =? 0x83) && (b 2 =? 0xec) then
    Some (m, u64 (rip + 4), u64 (rsp - s8 (b 3)))
  else if (b 0 =? 0xc7) && (b 1 =? 0x04) && (b 2 =? 0x24) then
    Some (st32 m rsp (ld32 m (rip + 3)), u64 (rip + 7), rsp)
  else if (b 0 =? 0xc7) && (b 1 =? 0x44) && (b 2 =? 0x24) then
    Some (st32 m (u64 (rsp + s8 (b 3))) (ld32 m (rip + 4)), u64 (rip + 8), rsp)
  else if b 0 =? 0xe9 then Some (m, u64 (rip + 5 + s32 (ld32 m (rip + 1))), rsp)
  else None.

Fixpoint x86_run (n : nat) (c : cpu) : option cpu :=
  match n with O => Some c | S n' => match x86_step c with Some c' => x86_run n' c' | None => None end end.

(** The bytes of the thunk. *)
Definition le32 (v : Z) : list Z := [v; v / 2 ^ 8; v / 2 ^ 8 / 2 ^ 8; v / 2 ^ 8 / 2 ^ 8 / 2 ^ 8].
Definition thunk_code (t func entry : Z) : list Z :=
  [0x48; 0x83; 0xec; 0x08] ++ [0xc7; 0x04; 0x24] ++ le32 (u32 func) ++ [0xc7; 0x44; 0x24; 0x04] ++
  le32 (u32 (Z.shiftr func 32)) ++ [0xe9] ++ le32 (u32 (entry - (t + 24))).

(** The code is in memory at [t]. *)
Definition code_at (m : mem) (t : Z) (l : list Z) : Prop := rdl m t (length l) = u8 <$> l.

Lemma code_rd8 m t l i x : code_at m t l → l !! i = Some x → rd8 m (t + Z.of_nat i) = u8 x.
Proof.
  intros H Hi. assert (i < length l)%nat as Hlt by by eapply lookup_lt_Some.
  pose proof (rdl_lookup m t (length l) i Hlt) as Hr. rewrite H, list_lookup_fmap, Hi in Hr.
  cbn in Hr. congruence.
Qed.

Lemma code_keep m m' t l :
  (∀ x, t <= x < t + Z.of_nat (length l) → rd8 m' x = rd8 m x) → code_at m t l → code_at m' t l.
Proof.
  intros H Hc. unfold code_at in *. rewrite <- Hc. apply rdl_ext. intros i Hi. apply H. lia.
Qed.

Lemma code_ld32 m t l i v :
  0 <= v < 2 ^ 32 → code_at m t l → take 4 (drop i l) = le32 v → ld32 m (t + Z.of_nat i) = v.
Proof.
  intros Hv Hc Hl.
  assert (∀ j x, le32 v !! j = Some x → (j < 4)%nat → rd8 m (t + Z.of_nat i + Z.of_nat j) = u8 x) as Hj.
  { intros j x Hx Hlt. rewrite <- Hl, lookup_take_lt, lookup_drop in Hx by done.
    rewrite <- (code_rd8 m t l (i + j) x Hc Hx). f_equal. lia. }
  unfold ldn. pose proof (Hj 0%nat _ eq_refl ltac:(lia)) as H0. pose proof (Hj 1%nat _ eq_refl ltac:(lia)) as H1.
  pose proof (Hj 2%nat _ eq_refl ltac:(lia)) as H2. pose proof (Hj 3%nat _ eq_refl ltac:(lia)) as H3.
  rewrite Z.add_0_r in H0. replace (t + Z.of_nat i + 1 + 1) with (t + Z.of_nat i + Z.of_nat 2) by lia.
  replace (t + Z.of_nat i + Z.of_nat 2 + 1) with (t + Z.of_nat i + Z.of_nat 3) by lia.
  replace (t + Z.of_nat i + 1) with (t + Z.of_nat i + Z.of_nat 1) by lia.
  rewrite H0, H1, H2, H3. clear - Hv. mlia.
Qed.

Lemma code_byte m t l a i x : code_at m t l → a = t + Z.of_nat i → l !! i = Some x → rd8 m a = u8 x.
Proof. intros Hc ->. by apply code_rd8. Qed.

Lemma code_word m t l a i v :
  0 <= v < 2 ^ 32 → code_at m t l → a = t + Z.of_nat i → take 4 (drop i l) = le32 v → ld32 m a = v.
Proof. intros Hv Hc ->. by apply code_ld32. Qed.

(** Executing the thunk pushes [func] and goes to the entry point. *)
Lemma thunk_runs m t func entry rsp :
  code_at m t (thunk_code t func entry) →
  0 <= t → t + 24 <= 2 ^ 64 - 1 → 8 <= rsp < 2 ^ 64 → 0 <= func < 2 ^ 64 → 0 <= entry < 2 ^ 64 →
  - 2 ^ 31 <= entry - (t + 24) < 2 ^ 31 → (rsp <= t ∨ t + 24 <= rsp - 8) →
  ∃ m', x86_run 4 (m, t, rsp) = Some (m', entry, rsp - 8) ∧ ld64 m' (rsp - 8) = func ∧
        (∀ x, (x < rsp - 8 ∨ rsp <= x) → rd8 m' x = rd8 m x).
Proof.
  intros Hc Ht Ht2 Hrsp Hf He Hrel Hdis. set (l := thunk_code t func entry) in *.
  assert (∀ v w, code_at (st32 (st32 m (rsp - 8) v) (rsp - 8 + 4) w) t l ∧ code_at (st32 m (rsp - 8) v) t l) as Hk.
  { intros v w. split; apply (code_keep m); try done; intros x Hx; change (length l) with 24%nat in Hx;
      rewrite !rd8_stn_other by lia; done. }
  set (lo := u32 func). set (hi := u32 (Z.shiftr func 32)). set (rel := u32 (entry - (t + 24))).
  assert (0 <= lo < 2 ^ 32 ∧ 0 <= hi < 2 ^ 32 ∧ 0 <= rel < 2 ^ 32) as (Hlo & Hhi & Hre) by (repeat split; by apply wrap_range).
  set (m1 := st32 m (rsp - 8) lo). set (m2 := st32 m1 (rsp - 8 + 4) hi).
  destruct (Hk lo hi) as [Hc2 Hc1]. fold m1 in Hc1, Hc2. fold m2 in Hc2.
  exists m2. split; [|split].
  - cbn [x86_run]. unfold x86_step at 1.
    rewrite (code_byte m t l (t + 0) 0 0x48), (code_byte m t l (t + 1) 1 0x83),
      (code_byte m t l (t + 2) 2 0xec), (code_byte m t l (t + 3) 3 0x08) by (done || lia).
    change (u8 0x48) with 0x48. change (u8 0x83) with 0x83. change (u8 0xec) with 0xec.
    change (s8 (u8 0x08)) with 8. cbn [Z.eqb andb Pos.eqb]. rewrite !wrap_small by lia.
    unfold x86_step at 1.
    rewrite (code_byte m t l (t + 4 + 0) 4 0xc7), (code_byte m t l (t + 4 + 1) 5 0x04),
      (code_byte m t l (t + 4 + 2) 6 0x24), (code_word m t l (t + 4 + 3) 7 lo) by (done || lia).
    change (u8 0xc7) with 0xc7. change (u8 0x04) with 0x04. change (u8 0x24) with 0x24.
    cbn [Z.eqb andb Pos.eqb]. fold m1. rewrite wrap_small by lia. unfold x86_step at 1.
    rewrite (code_byte m1 t l (t + 4 + 7 + 0) 11 0xc7), (code_byte m1 t l (t + 4 + 7 + 1) 12 0x44),
      (code_byte m1 t l (t + 4 + 7 + 2) 13 0x24), (code_byte m1 t l (t + 4 + 7 + 3) 14 0x04),
      (code_word m1 t l (t + 4 + 7 + 4) 15 hi) by (done || lia).
    change (u8 0xc7) with 0xc7. change (u8 0x44) with 0x44. change (u8 0x24) with 0x24.
    change (s8 (u8 0x04)) with 4. cbn [Z.eqb andb Pos.eqb].
    rewrite (wrap_small 64 (rsp - 8 + 4)), (wrap_small 64 (t + 4 + 7 + 8)) by lia. fold m2.
    unfold x86_step at 1.
    rewrite (code_byte m2 t l (t + 4 + 7 + 8 + 0) 19 0xe9), (code_word m2 t l (t + 4 + 7 + 8 + 1) 20 rel)
      by (done || lia).
    change (u8 0xe9) with 0xe9. cbn [Z.eqb andb Pos.eqb]. do 3 f_equal.
    assert (s32 rel = entry - (t + 24)) as ->.
    { unfold rel, swrap, wrap. clear - Hrel. Z.div_mod_to_equations. lia. }
    rewrite wrap_small; lia.
  - rewrite (ldn_split 4 4). unfold m2. rewrite ldn_stn_same, ldn_stn_other by lia.
    unfold m1. rewrite ldn_stn_same. unfold lo, hi. rewrite !wrap_wrap, Z.shiftr_div_pow2 by lia.
    clear - Hf. mlia.
  - intros x Hx. unfold m2, m1. by rewrite !rd8_stn_other by lia.
Qed.

(** ** [handle_irq] *)

Section Laws.
Context {St : Type} {ops : AllocOps St} {laws : AllocLaws St} (read_cs isr_entry_point : Z).

(** A block of the heap that the caller owns may be written. *)
Lemma put_wp b t (Q : Z → isr_state St → Prop) s :
  Q (t + 1) (IState (ao_set_mem (wr8 (ao_mem (heap s)) t b) (heap s)) (desc s)) → wp (put b t) Q s.
Proof using Type. intros H. unfold put, on_heap. by wsteps. Qed.

Lemma put32_wp v t (Q : Z → isr_state St → Prop) s :
  Q (t + 4) (IState (ao_set_mem (st32 (ao_mem (heap s)) t (u32 v)) (heap s)) (desc s)) → wp (put32 v t) Q s.
Proof using Type. intros H. unfold put32, on_heap. by wsteps. Qed.

(** Stores into the block [(q, n)]: memory outside is kept. *)
Definition written (s s' : isr_state St) (q : Z) (l : list Z) : Prop :=
  ao_mem (heap s') = wrl (ao_mem (heap s)) q l ∧ desc s' = desc s ∧
  ∀ bs, owns (heap s) bs → (∃ b, b ∈ bs ∧ b.1 <= q ∧ q + Z.of_nat (length l) <= b.1 + b.2) → owns (heap s') bs.

Lemma written_nil s q : written s s q [].
Proof using Type. split; [done|]. split; [done|]. by intros bs. Qed.

Lemma written_app s s' s'' q l k :
  written s s' q l → written s' s'' (q + Z.of_nat (length l)) k → written s s'' q (l ++ k).
Proof using Type.
  intros (M1 & D1 & O1) (M2 & D2 & O2). split; [by rewrite M2, M1, wrl_app|]. split; [congruence|].
  intros bs Hs (b & Hb & H1 & H2). rewrite length_app in H2. apply O2.
  - apply O1; [done|]. exists b. split; [done|]. lia.
  - exists b. split; [done|]. lia.
Qed.

Lemma written_one s q b :
  written s (IState (ao_set_mem (wr8 (ao_mem (heap s)) q b) (heap s)) (desc s)) q [b].
Proof using Type.
  split; [cbn; by rewrite al_mem_set|]. split; [done|]. intros bs Hs (c & Hc & H1 & H2). cbn in *.
  apply al_write; [done|]. intros x Hx. apply rd8_wr8_other. specialize (Hx c Hc). lia.
Qed.

Lemma written_four s q v :
  written s (IState (ao_set_mem (st32 (ao_mem (heap s)) q v) (heap s)) (desc s)) q (le32 v).
Proof using Type.
  split; [cbn; by rewrite al_mem_set|]. split; [done|]. intros bs Hs (c & Hc & H1 & H2). cbn in *.
  apply al_write; [done|]. intros x Hx. apply rd8_stn_other. specialize (Hx c Hc). lia.
Qed.

Lemma puts_wp l t (Q : Z → isr_state St → Prop) s :
  (∀ s', written s s' t l → Q (t + Z.of_nat (length l)) s') → wp (puts l t) Q s.
Proof using Type.
  revert t s. induction l as [|b l IH]; intros t s HQ; cbn [puts].
  - wstep. replace t with (t + Z.of_nat (length (@nil Z))) at 1 by (cbn; lia). apply HQ, written_nil.
  - wstep. apply put_wp. apply IH. intros s' Hw.
    replace (t + 1 + Z.of_nat (length l)) with (t + Z.of_nat (length (b :: l))) by (cbn; lia).
    apply HQ. change (b :: l) with ([b] ++ l). eapply written_app; [apply written_one|exact Hw].
Qed.

Lemma put32_written v t (Q : Z → isr_state St → Prop) s :
  (∀ s', written s s' t (le32 (u32 v)) → Q (t + 4) s') → wp (put32 v t) Q s.
Proof using Type. intros HQ. apply put32_wp, HQ, written_four. Qed.

(** The stores of the thunk, one after the other. *)
Lemma emit_wp (func t : Z) (Q : unit → isr_state St → Prop) s :
  (∀ s', written s s' t (thunk_code t func isr_entry_point) → Q () s') →
  wp (thunk ← puts [0x48; 0x83; 0xec; 0x08] t; thunk ← puts [0xc7; 0x04; 0x24] thunk;
      thunk ← put32 func thunk; thunk ← puts [0xc7; 0x44; 0x24; 0x04] thunk;
      thunk ← put32 (Z.shiftr func 32) thunk; thunk ← puts [0xe9] thunk;
      _ ← put32 (isr_entry_point - (thunk + 4)) thunk; mret ()) Q s.
Proof using Type.
  intros HQ. wstep. apply puts_wp. intros s1 W1. wstep. apply puts_wp. intros s2 W2.
  wstep. apply put32_written. intros s3 W3. wstep. apply puts_wp. intros s4 W4.
  wstep. apply put32_written. intros s5 W5. wstep. apply puts_wp. intros s6 W6.
  wstep. apply put32_written. intros s7 W7. wstep. apply HQ. cbn [length] in *.
  unfold thunk_code. do 6 (eapply written_app; [eassumption|]). cbn [length le32] in *.
  replace (isr_entry_point - (t + 24)) with (isr_entry_point - (t + Z.of_nat 4 + Z.of_nat 3 + 4 + Z.of_nat 4 + 4 + Z.of_nat 1 + 4)) by lia.
  exact W7.
Qed.

(** after [handle_irq] the gate [vec] leads to a block of the heap (or, when
    there is no memory, to address 16) with four instructions that push [func]
    and jump to [isr_entry_point], provided the block is within 2 GiB of it;
    the other gates and the blocks handed out before are as they were. *)
Theorem handle_irq_thunk vec func bs s :
  owns (heap s) bs → 0 <= vec < Z.of_nat (length (boot_idt (desc s))) → 0 <= func < 2 ^ 64 →
  0 <= isr_entry_point < 2 ^ 64 →
  wp (handle_irq read_cs isr_entry_point vec func)
    (λ _ s', ∃ t, 0 <= t ∧
       (t = 16 ∨ ∃ p n, owns (heap s') ((p, n) :: bs) ∧ p <= t ∧ t + 50 <= p + n) ∧
       external_entry vec (desc s') = Ret (t, desc s') ∧
       (∀ j, j ≠ Z.to_nat vec → boot_idt (desc s') !! j = boot_idt (desc s) !! j) ∧
       ∀ rsp, 8 <= rsp < 2 ^ 64 → (rsp <= t ∨ t + 24 <= rsp - 8) →
         - 2 ^ 31 <= isr_entry_point - (t + 24) < 2 ^ 31 →
         ∃ m', x86_run 4 (ao_mem (heap s'), t, rsp) = Some (m', isr_entry_point, rsp - 8) ∧
               ld64 m' (rsp - 8) = func) s.
Proof using Type.
  intros Hs Hv Hf He. unfold handle_irq, on_heap, on_desc. wstep. wstep. unfold malloc. change 8 with (2 ^ 3).
  eapply wp_mono; [apply (memalign_wp (heap s) bs 3 50); [done|lia|lia]|].
  intros t h1 Ht. wstep. wstep. cbn [desc].
  assert (0 <= t ∧ t + 50 <= 2 ^ 64) as Htr.
  { destruct Ht as [->|(p & n & _ & (H1 & H2 & H3 & H4 & _) & _)]; [by vm_compute|lia]. }
  destruct (lookup_lt_is_Some_2 (boot_idt (desc s)) (Z.to_nat vec)) as [e0 He0]; [lia|].
  unfold set_idt_entry, set_idt_entry_ex. eapply idt_update_wp; [lia|done|]. cbn [heap].
  apply emit_wp. intros s' (Hm & Hd & Ho). cbn [heap desc] in *. exists t. split; [lia|]. split; [|split; [|split]].
  - destruct Ht as [->|(p & n & Hown & (H1 & H2 & _) & _ & _)]; [by left|right]. exists p, n.
    split; [|lia]. apply Ho; [done|]. exists (p, n). split; [by left|]. cbn. lia.
  - rewrite Hd. unfold external_entry, elem, mbind, prog_bind, gets. cbn [boot_idt set_idt].
    destruct (Z.ltb_spec vec 0); [lia|]. rewrite list_lookup_insert_eq by lia. cbn.
    by rewrite split_16_16_32 by lia.
  - intros j Hj. rewrite Hd. cbn. by apply list_lookup_insert_ne.
  - intros rsp Hrsp Hdis Hrel.
    destruct (thunk_runs (ao_mem (heap s')) t func isr_entry_point rsp) as (m' & Hrun & Hld & _); try done; try lia.
    + unfold code_at. rewrite Hm. apply rdl_wrl.
    + by exists m'.
Qed.
End Laws.

(** The handler 0x401000 for the vector 0x30, with the entry point 0x400100. *)
Definition isr_start : isr_state pages := IState ex_pages8 desc_start.

Lemma handle_irq_thunk_witness :
  wp (handle_irq (ops := ex_ops) 8 0x400100 0x30 0x401000)
    (λ _ s', ∃ t, external_entry 0x30 (desc s') = Ret (t, desc s') ∧
       ∀ rsp, 8 <= rsp < 2 ^ 64 → (rsp <= t ∨ t + 24 <= rsp - 8) →
         - 2 ^ 31 <= 0x400100 - (t + 24) < 2 ^ 31 →
         ∃ m', x86_run 4 (ao_mem (AllocOps := ex_ops) (heap s'), t, rsp) = Some (m', 0x400100, rsp - 8) ∧
               ld64 m' (rsp - 8) = 0x401000) isr_start.
Proof.
  eapply wp_mono.
  - apply (handle_irq_thunk (laws := ex_laws) 8 0x400100 0x30 0x401000 [] isr_start);
      [exact ex_pages8_owns|by vm_compute|lia|lia].
  - intros _ s' (t & _ & _ & H1 & _ & H2). by exists t.
Defined.
