(* ===== verification/Report.v ===== *)
(** * Test reports: lib/report.c

    The counters, the array [prefixes] in memory and the lock.  [console] is the
    text printed so far.  The addresses of the array, of the string literals
    "%s" and ": ", and of the local buffers of [vsnprintf] and [vprintf] are
    arguments, like [fuel], the bound on the strings.  A failed [assert_msg]
    prints and stops the machine. *)

From S2P Require Import Prelude Memory CString Printf.

Record report_state := RState {
  r_mem : mem; tests : Z; failures : Z; xfailures : Z; skipped : Z; r_lock : bool; console : list Z
}.

Definition set_mem (m : mem) (s : report_state) : report_state :=
  RState m (tests s) (failures s) (xfailures s) (skipped s) (r_lock s) (console s).
Definition set_lock (b : bool) (s : report_state) : report_state :=
  RState (r_mem s) (tests s) (failures s) (xfailures s) (skipped s) b (console s).
Definition say (l : list Z) (s : report_state) : report_state :=
  RState (r_mem s) (tests s) (failures s) (xfailures s) (skipped s) (r_lock s) (console s ++ l).
(** Adds to the four counters, which are unsigned. *)
Definition count (t f x k : Z) (s : report_state) : report_state :=
  RState (r_mem s) (u32 (tests s + t)) (u32 (failures s + f)) (u32 (xfailures s + x)) (u32 (skipped s + k))
         (r_lock s) (console s).

(** The characters of a Rocq string. *)
Definition chars (s : string) : list Z := (λ a, Z.of_nat (Ascii.nat_of_ascii a)) <$> String.list_ascii_of_string s.

Definition PREFIX_DELIMITER : list Z := Eval vm_compute in chars ": ".
Definition sizeof_prefixes : Z := 256.

Section Report.
Context (prefixes sp vbuf fmt_s delim : Z) (fuel : nat).
#[local] Abbreviation rprog := (prog report_state).

Definition lock_reports : rprog unit := spin_lock r_lock set_lock.
Definition unlock_reports : rprog unit := spin_unlock set_lock.

(** A string function on the memory; [None] is a string that is longer than
    the fuel or an undefined access. *)
Definition on_mem {A} (f : mem → option A) : rprog A :=
  m ← gets r_mem; match f m with Some a => mret a | None => stop_with Undef end.

Definition vsn (buf size fmt : Z) (va : list Z) : rprog Z :=
  '(m, r) ← on_mem (λ m, vsnprintf fuel m sp buf size fmt va);
  modify (set_mem m);; mret r.

Definition report_pass : rprog unit :=
  lock_reports;; modify (count 1 0 0 0);; unlock_reports.

Definition report_prefix_pushf (prefix_fmt : Z) (va : list Z) : rprog unit :=
  lock_reports;;
  len ← on_mem (λ m, strlen fuel m prefixes);
  let len := u32 len in
  assert (len <? sizeof_prefixes);;
  let start := len in
  r ← vsn (prefixes + len) (sizeof_prefixes - len) prefix_fmt va;
  let len := u32 (len + r) in
  assert (len <? sizeof_prefixes);;
  q ← on_mem (λ m, strstr fuel m (prefixes + start) delim);
  assert (q =? NULL);;
  r ← vsn (prefixes + len) (sizeof_prefixes - len) delim [];
  let len := u32 (len + r) in
  assert (len <? sizeof_prefixes);;
  unlock_reports.

Definition report_prefix_push (prefix : Z) : rprog unit := report_prefix_pushf fmt_s [prefix].

(** [for (...; *q; p = q, q = strstr(p, PREFIX_DELIMITER) + 2)] *)
Definition pop_step (pq : Z * Z) : rprog (Z * Z + Z) :=
  let '(p, q) := pq in
  c ← on_mem (λ m, Some (rdc m q));
  if c =? 0 then mret (inr p)
  else n ← on_mem (λ m, strstr fuel m q delim); mret (inl (q, n + 2)).

Definition report_prefix_pop : rprog unit :=
  lock_reports;;
  c ← on_mem (λ m, Some (rdc m prefixes));
  if c =? 0 then unlock_reports
  else
    q ← on_mem (λ m, strstr fuel m prefixes delim);
    p ← iter fuel pop_step (prefixes, q + 2);
    modify (λ s, set_mem (wr8 (r_mem s) p 0) s);;
    unlock_reports.

(** [puts] of a string in memory, and [vprintf]. *)
Definition puts_at (p : Z) : rprog unit :=
  n ← on_mem (λ m, strlen fuel m p);
  modify (λ s, say (rdl (r_mem s) p (Z.to_nat n)) s).
Definition vprint (fmt : Z) (va : list Z) : rprog unit :=
  '(m, _, l) ← on_mem (λ m, vprintf fuel m sp vbuf fmt va);
  modify (λ s, say l (set_mem m s)).

(** The verdict printed in front of the message. *)
Definition verdict (pass xfail skip : bool) : string :=
  if skip then "SKIP"
  else if xfail then (if pass then "XPASS" else "XFAIL") else (if pass then "PASS" else "FAIL").

Definition va_report (msg_fmt : Z) (pass xfail skip : bool) (va : list Z) : rprog unit :=
  lock_reports;;
  modify (count 1 0 0 0);;
  modify (say (chars (verdict pass xfail skip) ++ chars ": "));;
  puts_at prefixes;;
  vprint msg_fmt va;;
  modify (say [ch_nl]);;
  (if skip then modify (count 0 0 0 1)
   else if xfail && negb pass then modify (count 0 0 1 0)
   else if xfail || negb pass then modify (count 0 1 0 0)
   else mret ());;
  unlock_reports.

Definition report (msg_fmt : Z) (pass : bool) (va : list Z) : rprog unit := va_report msg_fmt pass false false va.
Definition report_xfail (msg_fmt : Z) (xfail pass : bool) (va : list Z) : rprog unit :=
  va_report msg_fmt pass xfail false va.
Definition report_skip (msg_fmt : Z) (va : list Z) : rprog unit := va_report msg_fmt false false true va.

Definition report_info (msg_fmt : Z) (va : list Z) : rprog unit :=
  lock_reports;; modify (say (chars "INFO: "));; puts_at prefixes;; vprint msg_fmt va;;
  modify (say [ch_nl]);; unlock_reports.

(** The text of [printf] with one [%d], of a number below 2^31. *)
Definition say_count (n : Z) (text : string) : rprog unit := modify (say (int_text (s32 n) 10 ++ chars text)).
Definition say_if (n : Z) (text : string) : rprog unit :=
  if n =? 0 then mret () else modify (say (chars ", "));; say_count n text.

Definition report_summary : rprog Z :=
  lock_reports;;
  modify (say (chars "SUMMARY: "));;
  s ← get;
  say_count (tests s) " tests";;
  say_if (failures s) " unexpected failures";;
  say_if (xfailures s) " expected failures";;
  say_if (skipped s) " skipped";;
  modify (say [ch_nl]);;
  if tests s =? skipped s then unlock_reports;; mret (Z.shiftr 77 1)
  else
    let ret := if 0 <? failures s then 1 else 0 in
    unlock_reports;; mret ret.

Definition report_abort (msg_fmt : Z) (va : list Z) : rprog unit :=
  lock_reports;; modify (say (chars "ABORT: "));; puts_at prefixes;; vprint msg_fmt va;;
  modify (say [ch_nl]);; unlock_reports;;
  _ ← report_summary; stop_with Halt.
End Report.

(** ** The stack of prefixes *)

Definition stack_text (ps : list (list Z)) : list Z := concat ((λ t, t ++ PREFIX_DELIMITER) <$> ps).
Definition no_delim (t : list Z) : Prop := find_sub t PREFIX_DELIMITER = None.

#[export] Instance no_delim_dec t : Decision (no_delim t).
Proof. unfold no_delim. apply _. Defined.

Lemma stack_text_app ps qs : stack_text (ps ++ qs) = stack_text ps ++ stack_text qs.
Proof. unfold stack_text. by rewrite fmap_app, concat_app. Qed.

Lemma stack_text_one t : stack_text [t] = t ++ PREFIX_DELIMITER.
Proof. unfold stack_text. cbn. by rewrite app_nil_r. Qed.

Lemma find_sub_tail b t k : find_sub (b :: t) k = None → find_sub t k = None ∧ ¬ k `prefix_of` b :: t.
Proof. cbn. destruct (decide _); [done|]. by destruct (find_sub t k). Qed.

(** The delimiter after a text that does not contain it is the first one. *)
Lemma find_delim t r : no_delim t → find_sub (t ++ PREFIX_DELIMITER ++ r) PREFIX_DELIMITER = Some (length t).
Proof.
  unfold no_delim. induction t as [|b t IH]; intros Ht.
  - apply find_sub_prefix. by exists r.
  - apply find_sub_tail in Ht as [Ht Hp]. cbn [app find_sub length]. rewrite decide_False.
    { by rewrite (IH Ht). }
    intros [v Hv]. apply Hp. change PREFIX_DELIMITER with [58; 32] in *.
    destruct t as [|c t]; cbn in Hv; [by destruct r|]. injection Hv as -> -> _. by exists t.
Qed.

Lemma padded_none c a l : padded (Strprops c 0 a) l = l.
Proof. unfold padded. cbn [npad]. replace (Z.to_nat (- 0 - length l)) with 0%nat by lia. apply app_nil_r. Qed.

Lemma stack_length ps : (length ps <= length (stack_text ps))%nat.
Proof.
  induction ps as [|t ps IH]; [done|]. change (t :: ps) with ([t] ++ ps).
  rewrite stack_text_app, stack_text_one, !length_app. cbn. lia.
Qed.

(** ** The calls of a test program and their summary *)

Inductive result := RPass | RFail | RXfail | RSkip.
#[export] Instance result_dec : EqDecision result.
Proof. solve_decision. Defined.

Inductive call :=
| CPass
| CReport (msg_fmt : Z) (pass : bool) (va : list Z)
| CXfail (msg_fmt : Z) (xfail pass : bool) (va : list Z)
| CSkip (msg_fmt : Z) (va : list Z).

(** A failure that is expected and a success that is not. *)
Definition result_of (c : call) : result :=
  match c with
  | CPass => RPass
  | CReport _ p _ => if p then RPass else RFail
  | CXfail _ true p _ => if p then RFail else RXfail
  | CXfail _ false p _ => if p then RPass else RFail
  | CSkip _ _ => RSkip
  end.

Definition counters (s : report_state) : Z * Z * Z * Z := (tests s, failures s, xfailures s, skipped s).
Definition nres (r : result) (l : list call) : Z := length (filter (λ c, result_of c = r) l).

(** The counters after a call with the result [r]. *)
Definition bump (r : result) (s : report_state) : report_state :=
  match r with
  | RPass => count 1 0 0 0 s | RFail => count 1 1 0 0 s | RXfail => count 1 0 1 0 s | RSkip => count 1 0 0 1 s
  end.

Definition bounded (n : Z) (s : report_state) : Prop :=
  0 <= tests s < n ∧ 0 <= failures s < n ∧ 0 <= xfailures s < n ∧ 0 <= skipped s < n.

Lemma nres_cons r c l : nres r (c :: l) = nres r [c] + nres r l.
Proof. unfold nres. rewrite !filter_cons, filter_nil. destruct (decide (result_of c = r)); cbn; lia. Qed.

Lemma bump_bounded c n s s1 :
  bounded (2 ^ 31 - S n) s → counters s1 = counters (bump (result_of c) s) →
  bounded (2 ^ 31 - n) s1 ∧
  counters s1 = (tests s + 1, failures s + nres RFail [c], xfailures s + nres RXfail [c], skipped s + nres RSkip [c]).
Proof.
  unfold bounded, counters, nres. intros Hb E. rewrite !filter_cons, !filter_nil.
  destruct (result_of c); cbn -[wrap] in *; rewrite !(wrap_small 32) in E by lia; injection E as -> -> -> ->;
    (split; [lia|]; repeat f_equal; lia).
Qed.

Definition summary_line (t f x k : Z) : list Z :=
  let part n text := if n =? 0 then [] else chars ", " ++ int_text n 10 ++ chars text in
  chars "SUMMARY: " ++ int_text t 10 ++ chars " tests" ++ part f " unexpected failures"%string ++
  part x " expected failures"%string ++ part k " skipped"%string ++ [ch_nl].

(** The exit code: 38 if every call was skipped, 1 after an unexpected result, 0 otherwise. *)
Definition summary_code (l : list call) : Z :=
  if forallb (λ c, bool_decide (result_of c = RSkip)) l then 38
  else if existsb (λ c, bool_decide (result_of c = RFail)) l then 1 else 0.


Lemma nres_one r c : nres r [c] = if bool_decide (result_of c = r) then 1 else 0.
Proof. unfold nres. rewrite filter_cons, filter_nil. case_bool_decide; [by rewrite decide_True|by rewrite decide_False]. Qed.

Lemma nres_bounds r l : 0 <= nres r l <= length l.
Proof. unfold nres. pose proof (length_filter (λ c, result_of c = r) l). lia. Qed.

Lemma summary_code_counts l :
  summary_code l = if length l =? nres RSkip l then 38 else if 0 <? nres RFail l then 1 else 0.
Proof.
  unfold summary_code.
  assert (forallb (λ c, bool_decide (result_of c = RSkip)) l = (length l =? nres RSkip l)) as ->.
  { induction l as [|c l IH]; [done|]. cbn [forallb]. rewrite IH, nres_cons, nres_one. cbn [length].
    pose proof (nres_bounds RSkip l). case_bool_decide; cbn [andb];
      [apply Bool.eq_true_iff_eq; rewrite !Z.eqb_eq; lia|symmetry; apply Z.eqb_neq; lia]. }
  assert (existsb (λ c, bool_decide (result_of c = RFail)) l = (0 <? nres RFail l)) as ->; [|done].
  induction l as [|c l IH]; [done|]. cbn [existsb]. rewrite IH, nres_cons, nres_one.
  pose proof (nres_bounds RFail l). case_bool_decide; cbn [orb];
    [symmetry; apply Z.ltb_lt; lia|by rewrite Z.add_0_l].
Qed.


Section Laws.
Context (prefixes sp vbuf fmt_s delim : Z) (fuel : nat).
(** The strings that the program points to, none longer than [bound]. *)
Context (str : Z → option (list Z)) (bound : nat).
Context (Hbound : bound < 2 ^ 31) (Hfuel : (2 * bound + 2100 < fuel)%nat).
Context (Hfmt : str fmt_s = Some (chars "%s")) (Hdelim : str delim = Some PREFIX_DELIMITER).
Context (Hpre : 0 < prefixes) (Hps : disjoint_regions sp local_len prefixes 256)
        (Hvs : disjoint_regions sp local_len vbuf BUFSZ) (Hpv : disjoint_regions prefixes 256 vbuf BUFSZ).

(** The strings are in memory, away from the buffers. *)
Definition strings_ok (m : mem) : Prop := ∀ p l, str p = Some l →
  cstr m p l ∧ (length l < bound)%nat ∧ disjoint_regions p (length l + 1) prefixes 256 ∧
  disjoint_regions p (length l + 1) vbuf BUFSZ ∧ disjoint_regions p (length l + 1) sp local_len.

Definition holds (ps : list (list Z)) (s : report_state) : Prop :=
  cstr (r_mem s) prefixes (stack_text ps) ∧ length (stack_text ps) < 256 ∧ Forall no_delim ps ∧
  r_lock s = false ∧ strings_ok (r_mem s).

(** Nothing but the buffers is written, and the counters stay. *)
Definition untouched (s s' : report_state) : Prop :=
  (tests s', failures s', xfailures s', skipped s', console s') =
  (tests s, failures s, xfailures s, skipped s, console s) ∧
  ∀ x, (x < prefixes ∨ prefixes + 256 <= x) → (x < sp ∨ sp + local_len <= x) → rd8 (r_mem s') x = rd8 (r_mem s) x.

Lemma strings_ok_frame m m' :
  strings_ok m → (∀ x, (x < prefixes ∨ prefixes + 256 <= x) → (x < vbuf ∨ vbuf + BUFSZ <= x) →
                       (x < sp ∨ sp + local_len <= x) → rd8 m' x = rd8 m x) → strings_ok m'.
Proof using All.
  intros Hs Hf p l E. destruct (Hs p l E) as (Hc & H1 & H2 & H3 & H4). split; [|done].
  eapply cstr_ext; [|done]. unfold disjoint_regions in *. intros i Hi. apply Hf; lia.
Qed.

Lemma wpe_on_mem {A} (f : mem → option A) a (Q : A → report_state → Prop) E s :
  f (r_mem s) = Some a → Q a s → wpe (on_mem f) Q E s.
Proof. intros Hf HQ. unfold wpe, on_mem, mbind, prog_bind, gets. by rewrite Hf. Qed.

(** [vsnprintf] into the rest of a buffer that no string overlaps. *)
Lemma vsn_wpe its buf size fmt va text (Q : Z → report_state → Prop) E s :
  strings_ok (r_mem s) → str fmt = Some (render its) → Forall item_ok its → items_text str its va = Some text →
  (prefixes <= buf ∧ buf + size <= prefixes + 256) → 1 <= size → length text < 2 ^ 31 →
  (∀ m', let k := Z.min (length text) (size - 1) in
     strings_ok m' → rdl m' buf (Z.to_nat k) = take (Z.to_nat k) text → rd8 m' (buf + k) = 0 →
     (∀ x, (x < buf ∨ buf + size <= x) → (x < sp ∨ sp + local_len <= x) → rd8 m' x = rd8 (r_mem s) x) →
     Q (length text) (set_mem m' s)) →
  wpe (vsn sp fuel buf size fmt va) Q E s.
Proof using All.
  intros Hs Hf Hok Ht Hb Hsz Hlen HQ. unfold vsn. apply wpe_bind.
  destruct (Hs fmt _ Hf) as (Hc & Hl & H1 & H2 & H3). unfold disjoint_regions in *.
  destruct (vsnprintf_spec buf size sp ltac:(lia) ltac:(unfold disjoint_regions; lia) str bound ltac:(lia)
              its fuel (r_mem s) fmt va text) as (m' & Em & Hr & Hz & Hfr); try done; try lia.
  - intros p l E'. destruct (Hs p l E') as (? & ? & ? & ? & ?). unfold disjoint_regions in *.
    split; [|done]. split; [done|]. unfold disjoint_regions. split; lia.
  - split; [done|]. unfold disjoint_regions. split; lia.
  - eapply wpe_on_mem; [done|]. apply (wpe_bind (modify _)). cbn. unfold wpe, modify. cbn.
    rewrite swrap_small by lia. apply HQ; [|done|done|done].
    eapply strings_ok_frame; [done|]. intros x ? ? ?. apply Hfr; lia.
Qed.

Lemma stack_fuel ps s : holds ps s → (length (stack_text ps) < fuel)%nat ∧ length (stack_text ps) < 2 ^ 64.
Proof using All. intros (_ & H & _). lia. Qed.

(** What [apush] and [apop] do to the stack; [None] is a failed assertion. *)
Definition apush (ps : list (list Z)) (t : list Z) : option (list (list Z)) :=
  if (length (stack_text ps) + length t + 2 <? 256) && bool_decide (no_delim t) then Some (ps ++ [t]) else None.
Definition apop (ps : list (list Z)) : list (list Z) := take (length ps - 1) ps.

(** An outcome that the abstract operation [r] gives. *)
Definition refines (r : option (list (list Z))) (s : report_state) (m : prog report_state unit) : Prop :=
  wpe m (λ _ s', ∃ ps', r = Some ps' ∧ holds ps' s' ∧ untouched s s') (λ e, e = Halt ∧ r = None) s.

(** The memory after a text has been printed at the end of the stack. *)
Lemma appended ps m m' t :
  cstr m prefixes (stack_text ps) → Forall (λ b, b ≠ 0) t →
  rdl m' (prefixes + length (stack_text ps)) (length t) = t →
  rd8 m' (prefixes + length (stack_text ps) + length t) = 0 →
  (∀ x, x < prefixes + length (stack_text ps) → (x < sp ∨ sp + local_len <= x) → rd8 m' x = rd8 m x) →
  length (stack_text ps) < 256 → cstr m' prefixes (stack_text ps ++ t).
Proof using All.
  intros Hc Ht Hr Hz Hf Hlen. apply cstr_app. split; [|split].
  - transitivity (rdl m prefixes (length (stack_text ps))); [|by apply cstr_rdl].
    apply rdl_ext. unfold disjoint_regions in *. intros i Hi. apply Hf; lia.
  - eapply Forall_impl; [by eapply cstr_bounds|]. cbn. lia.
  - by apply cstr_intro.
Qed.

Lemma push_wpe ps p t s :
  holds ps s → str (u64 p) = Some t →
  refines (apush ps t) s (report_prefix_push prefixes sp fmt_s delim fuel p).
Proof using All.
  intros (Hc & Hlen & Hnd & Hl & Hs) Ht. set (L := stack_text ps) in *.
  destruct (Hs _ _ Ht) as (Htc & Htb & _). destruct (Hs _ _ Hdelim) as (Hdc & Hdb & _).
  pose proof (cstr_bounds _ _ _ Htc) as Htnz.
  assert (Forall (λ b, b ≠ 0) t) as Htz by (eapply Forall_impl; [exact Htnz|]; cbn; lia).
  unfold refines, report_prefix_push, report_prefix_pushf, lock_reports. apply wpe_wp, wp_spin_lock; [done|].
  apply wpe_bind. eapply wpe_on_mem; [apply (strlen_cstr _ _ _ L); [done|lia|lia]|].
  rewrite (wrap_small 32) by lia. cbn zeta. fold L.
  apply wpe_bind, wpe_assert; [intros _|unfold sizeof_prefixes; lia].
  apply wpe_bind. unfold sizeof_prefixes.
  apply (vsn_wpe [Conv (Cspec false NoNum [] CStr)] _ _ _ _ t); try done; try lia.
  { repeat constructor. }
  { cbn -[wrap padded]. rewrite Ht. cbn [mbind option_bind fmap option_fmap option_map].
    by rewrite padded_none, app_nil_r. }
  cbn zeta. intros m1 Hs1 Hr1 Hz1 Hf1. apply wpe_bind, wpe_assert; rewrite (wrap_small 32) by lia.
  2: { intros Hn%Z.ltb_ge. split; [done|]. unfold apush. fold L.
       destruct (Z.ltb_spec (length L + length t + 2) 256); [lia|done]. }
  intros Hn%Z.ltb_lt. rewrite Z.min_l, Nat2Z.id, take_ge in Hr1 by lia. rewrite Z.min_l in Hz1 by lia.
  destruct (Hs1 _ _ Hdelim) as (Hdc1 & _).
  assert (cstr m1 (prefixes + length L) t) as Hc1 by by apply cstr_intro.
  apply wpe_bind. eapply wpe_on_mem.
  { apply (strstr_spec fuel m1 _ delim t PREFIX_DELIMITER); try done; cbn; lia. }
  apply wpe_bind, wpe_assert; unfold NULL.
  2: { intros Hq. split; [done|]. unfold apush. fold L. rewrite bool_decide_eq_false_2; [by rewrite andb_false_r|].
       unfold no_delim. intros E. by rewrite E in Hq. }
  intros Hq. assert (no_delim t) as Hnt.
  { unfold no_delim. destruct (find_sub t _) as [i|]; [|done]. apply Z.eqb_eq in Hq. lia. }
  apply wpe_bind, (vsn_wpe [Chr 58; Chr 32] _ _ _ _ PREFIX_DELIMITER); try done; try lia.
  { repeat constructor; cbn; unfold ch_percent; lia. }
  cbn zeta. change (Z.of_nat (length PREFIX_DELIMITER)) with 2. intros m2 Hs2 Hr2 Hz2 Hf2.
  apply wpe_bind, wpe_assert; rewrite (wrap_small 32) by lia.
  2: { intros Hn2%Z.ltb_ge. split; [done|]. unfold apush. fold L.
       destruct (Z.ltb_spec (length L + length t + 2) 256); [lia|done]. }
  intros Hn2%Z.ltb_lt. rewrite Z.min_l in Hr2, Hz2 by lia. unfold wpe. cbn. cbn in Hf1, Hf2.
  assert (stack_text (ps ++ [t]) = L ++ t ++ PREFIX_DELIMITER) as Etext
    by by rewrite stack_text_app, stack_text_one.
  exists (ps ++ [t]). split; [|split].
  - unfold apush. fold L. rewrite bool_decide_eq_true_2 by done. by destruct (Z.ltb_spec (length L + length t + 2) 256); [|lia].
  - unfold holds. cbn. rewrite Etext. split; [|split; [|split; [|split]]].
    + apply (appended ps (r_mem s) m2); [done| | | | |done]; fold L; rewrite ?length_app.
      * apply Forall_app. split; [done|]. by repeat constructor.
      * rewrite rdl_app. f_equal.
        -- rewrite <- Hr1 at 2. apply rdl_ext. unfold disjoint_regions in *. intros i Hi. apply Hf2; lia.
        -- by rewrite <- Z.add_assoc.
      * rewrite <- Hz2. f_equal. cbn. lia.
      * intros x Hx Hx'. rewrite Hf2, Hf1 by lia. done.
    + rewrite !length_app. cbn. lia.
    + apply Forall_app. by repeat constructor.
    + done.
    + done.
  - split; [done|]. cbn. intros x Hx Hx'. rewrite Hf2, Hf1 by lia. done.
Qed.

Lemma stack_at m ps1 ps2 :
  cstr m prefixes (stack_text (ps1 ++ ps2)) → cstr m (prefixes + length (stack_text ps1)) (stack_text ps2).
Proof using Type. rewrite stack_text_app. intros (_ & _ & H)%cstr_app. done. Qed.

(** The search from the start of a text finds its end. *)
Lemma strstr_delim m ps1 t ps2 :
  cstr m prefixes (stack_text (ps1 ++ t :: ps2)) → length (stack_text (ps1 ++ t :: ps2)) < 256 →
  no_delim t → cstr m delim PREFIX_DELIMITER →
  strstr fuel m (prefixes + length (stack_text ps1)) delim =
    Some (prefixes + length (stack_text (ps1 ++ [t])) - 2).
Proof using All.
  intros Hc Hlen Hn Hd. pose proof (stack_at m ps1 (t :: ps2) Hc) as Hs.
  rewrite stack_text_app, length_app in Hlen. change (t :: ps2) with ([t] ++ ps2) in Hs, Hlen.
  rewrite stack_text_app, stack_text_one in Hs, Hlen. rewrite <- app_assoc in Hs, Hlen.
  rewrite (strstr_spec _ _ _ _ _ PREFIX_DELIMITER Hs) by (done || lia || (cbn; lia)). rewrite find_delim by done.
  rewrite stack_text_app, stack_text_one, !length_app. f_equal. cbn. lia.
Qed.

Lemma stack_head m ps1 t ps2 :
  cstr m prefixes (stack_text (ps1 ++ t :: ps2)) → (rdc m (prefixes + length (stack_text ps1)) =? 0) = false.
Proof using Type.
  intros Hs%stack_at. apply rdc_nz. change (t :: ps2) with ([t] ++ ps2) in Hs.
  rewrite stack_text_app, stack_text_one in Hs. destruct t; cbn in Hs; destruct Hs as (-> & H & _); done.
Qed.

Lemma pop_loop ps t s :
  holds (ps ++ [t]) (set_lock false s) →
  ∀ qs1 w qs2 (Q : Z → report_state → Prop), ps ++ [t] = qs1 ++ w :: qs2 → Q (prefixes + length (stack_text ps)) s →
  wp (iter fuel (pop_step delim fuel)
        (prefixes + length (stack_text qs1), prefixes + length (stack_text (qs1 ++ [w])))) Q s.
Proof using All.
  intros (Hc & Hlen & Hn & _ & Hs) qs1 w qs2 Q Eq HQ. cbn in Hc, Hs.
  apply (wp_iter (λ n '(p, q) s', s' = s ∧ ∃ ps1 u ps2, n = length ps2 ∧ ps ++ [t] = ps1 ++ u :: ps2 ∧
           p = prefixes + length (stack_text ps1) ∧ q = prefixes + length (stack_text (ps1 ++ [u]))))
    with (n := length qs2).
  - intros n [p q] s' (-> & ps1 & u & ps2 & -> & E & -> & ->).
    unfold pop_step. wstep. destruct (Hs _ _ Hdelim) as (Hd & _). destruct ps2 as [|v ps2].
    + apply app_inj_tail in E as [-> ->]. pose proof (cstr_end _ _ _ Hc) as Hz. apply rdc_z in Hz.
      unfold wp, on_mem, mbind, prog_bind, gets. cbn. by rewrite Hz.
    + assert (ps ++ [t] = (ps1 ++ [u]) ++ v :: ps2) as E' by by rewrite <- app_assoc.
      rewrite E' in Hc, Hlen, Hn. apply Forall_app in Hn as [_ [Hv _]%Forall_cons].
      pose proof (stack_head _ _ _ _ Hc) as Hh. pose proof (strstr_delim _ _ _ _ Hc Hlen Hv Hd) as Hq.
      unfold wp, on_mem, mbind, prog_bind, gets. cbn. rewrite Hh, Hq. exists (length ps2).
      split; [cbn; lia|]. split; [done|]. exists (ps1 ++ [u]), v, ps2. do 3 (split; [done|]). lia.
  - split; [done|]. by exists qs1, w, qs2.
  - pose proof (stack_length (ps ++ [t])) as H. rewrite Eq, length_app in H. rewrite Eq in Hlen. cbn in H. lia.
Qed.

(** Writing the terminator over the last text. *)
Lemma cut_top ps t s :
  holds (ps ++ [t]) (set_lock false s) → r_lock s = true →
  wpe (modify (λ s, set_mem (wr8 (r_mem s) (prefixes + length (stack_text ps)) 0) s);; unlock_reports)
    (λ _ s', ∃ ps', Some (apop (ps ++ [t])) = Some ps' ∧ holds ps' s' ∧ untouched (set_lock false s) s')
    (λ e, e = Halt ∧ Some (apop (ps ++ [t])) = None) s.
Proof using All.
  intros (Hc & Hlen & Hn & _ & Hs) Hl. cbn in Hc, Hs. rewrite stack_text_app in Hc, Hlen.
  rewrite length_app in Hlen. rewrite stack_text_one in Hlen. rewrite length_app in Hlen. cbn in Hlen.
  apply cstr_app in Hc as (Hr & Hnz & _). apply Forall_app in Hn as [Hn _].
  unfold wpe, modify, mbind, prog_bind, unlock_reports, spin_unlock. cbn. exists ps. split; [|split].
  - f_equal. unfold apop. rewrite length_app. cbn. rewrite Nat.add_sub. by rewrite take_app_length.
  - split; [|split; [lia|]].
    + cbn. apply cstr_intro; [|done|by rewrite rd8_wr8_same].
      transitivity (rdl (r_mem s) prefixes (length (stack_text ps))); [|done].
      apply rdl_ext. intros i Hi. apply rd8_wr8_other. lia.
    + split; [done|]. split; [done|]. eapply strings_ok_frame; [done|]. cbn. intros x Hx _ _.
      apply rd8_wr8_other. lia.
  - split; [done|]. cbn. intros x Hx _. apply rd8_wr8_other. lia.
Qed.

Lemma pop_wpe ps s : holds ps s → refines (Some (apop ps)) s (report_prefix_pop prefixes delim fuel).
Proof using All.
  intros (Hc & Hlen & Hn & Hl & Hs). unfold refines, report_prefix_pop, lock_reports.
  apply wpe_wp, wp_spin_lock; [done|]. apply wpe_bind. eapply wpe_on_mem; [done|].
  destruct ps as [|t ps _] using rev_ind.
  { cbn in Hc. change (r_mem (set_lock true s)) with (r_mem s). rewrite (rdc_z _ _ Hc). unfold wpe, unlock_reports. cbn. exists []. done. }
  destruct (ps ++ [t]) as [|u l] eqn:E; [by destruct ps|].
  pose proof (stack_head _ [] u l Hc) as Hh. rewrite Z.add_0_r in Hh. change (r_mem (set_lock true s)) with (r_mem s). rewrite Hh.
  destruct (Hs _ _ Hdelim) as (Hd & _).
  assert (no_delim u) as Hu by by apply Forall_cons in Hn as [? _].
  pose proof (strstr_delim _ [] u l Hc Hlen Hu Hd) as Hq. rewrite Z.add_0_r in Hq.
  apply wpe_bind. eapply wpe_on_mem; [exact Hq|].
  apply wpe_wp. rewrite Z.sub_add.
  rewrite <- (Z.add_0_r prefixes) at 1. change 0 with (Z.of_nat (length (stack_text []))) at 1.
  apply (pop_loop ps t) with (qs1 := []) (w := u) (qs2 := l); [rewrite E; done|done|].
  rewrite <- E. apply cut_top; [rewrite E; by split_and!|done].
Qed.

(** *** Refinement: the array is a stack of prefixes *)

Inductive prefix_op := Push (prefix : Z) | Pop.

Definition prefix_run (o : prefix_op) : prog report_state unit :=
  match o with
  | Push p => report_prefix_push prefixes sp fmt_s delim fuel p
  | Pop => report_prefix_pop prefixes delim fuel
  end.
Fixpoint prefix_exec (l : list prefix_op) : prog report_state unit :=
  match l with [] => mret () | o :: l' => prefix_run o;; prefix_exec l' end.

Definition prefix_step (ps : list (list Z)) (o : prefix_op) : option (list (list Z)) :=
  match o with Push p => t ← str (u64 p); apush ps t | Pop => Some (apop ps) end.
Fixpoint prefix_steps (ps : list (list Z)) (l : list prefix_op) : option (list (list Z)) :=
  match l with [] => Some ps | o :: l' => ps' ← prefix_step ps o; prefix_steps ps' l' end.

(** The pointers that are pushed are strings. *)
Definition known (o : prefix_op) : Prop := match o with Push p => is_Some (str (u64 p)) | Pop => True end.

Lemma untouched_trans s1 s2 s3 : untouched s1 s2 → untouched s2 s3 → untouched s1 s3.
Proof using Type. intros [E1 H1] [E2 H2]. split; [congruence|]. intros x ? ?. by rewrite H2, H1. Qed.

Lemma prefix_run_wpe o ps s : holds ps s → known o → refines (prefix_step ps o) s (prefix_run o).
Proof using All.
  intros Hs Ho. destruct o as [p|]; cbn.
  - destruct Ho as [t Ht]. rewrite Ht. cbn. by apply push_wpe.
  - by apply pop_wpe.
Qed.

Lemma prefix_exec_wpe l ps s : holds ps s → Forall known l → refines (prefix_steps ps l) s (prefix_exec l).
Proof using All.
  intros Hs Hl. revert ps s Hs. induction Hl as [|o l Ho Hl IH]; intros ps s Hs; cbn.
  { apply wpe_ret. exists ps. split; [done|]. by split. }
  apply wpe_bind. eapply wpe_mono; [by apply (prefix_run_wpe o ps)| |].
  - intros _ s1 (ps1 & -> & Hs1 & Hu1). cbn. eapply wpe_mono; [by apply IH| |done].
    intros _ s2 (ps2 & E2 & Hs2 & Hu2). exists ps2. split; [done|]. split; [done|]. by eapply untouched_trans.
  - intros e [-> ->]. done.
Qed.

Definition run_call (c : call) : prog report_state unit :=
  match c with
  | CPass => report_pass
  | CReport f p va => report prefixes sp vbuf fuel f p va
  | CXfail f x p va => report_xfail prefixes sp vbuf fuel f x p va
  | CSkip f va => report_skip prefixes sp vbuf fuel f va
  end.
Fixpoint run_calls (l : list call) : prog report_state unit :=
  match l with [] => mret () | c :: l' => run_call c;; run_calls l' end.

(** The message of a call, where its format is well formed, and the line it prints. *)
Definition message (c : call) (text : list Z) : Prop :=
  match c with
  | CPass => text = []
  | CReport f _ va | CXfail f _ _ va | CSkip f va =>
      ∃ its, str f = Some (render its) ∧ Forall item_ok its ∧ items_text str its va = Some text ∧
             length text < BUFSZ ∧ Forall (λ b, b ≠ 0) text
  end.
Definition line_of (ps : list (list Z)) (c : call) (text : list Z) : list Z :=
  let line v := chars v ++ chars ": " ++ stack_text ps ++ text ++ [ch_nl] in
  match c with
  | CPass => []
  | CReport _ p _ => line (if p then "PASS" else "FAIL")%string
  | CXfail _ x p _ => line (if x then if p then "XPASS" else "XFAIL" else if p then "PASS" else "FAIL")%string
  | CSkip _ _ => line "SKIP"%string
  end.

Lemma wp_on_mem {A} (f : mem → option A) a (Q : A → report_state → Prop) s :
  f (r_mem s) = Some a → Q a s → wp (on_mem f) Q s.
Proof using Type. intros Hf HQ. unfold wp, on_mem, mbind, prog_bind, gets. by rewrite Hf. Qed.

Lemma puts_prefixes_wp ps s (Q : unit → report_state → Prop) :
  holds ps (set_lock false s) → Q () (say (stack_text ps) s) → wp (puts_at fuel prefixes) Q s.
Proof using All.
  intros (Hc & Hlen & _) HQ. cbn in Hc. unfold puts_at. wstep.
  eapply wp_on_mem; [apply (strlen_cstr _ _ _ (stack_text ps)); [done|lia|lia]|]. wstep.
  by rewrite Nat2Z.id, (cstr_rdl _ _ _ Hc).
Qed.

Lemma vprint_wp ps fmt its va text s (Q : unit → report_state → Prop) :
  holds ps (set_lock false s) → str fmt = Some (render its) → Forall item_ok its →
  items_text str its va = Some text → length text < BUFSZ → Forall (λ b, b ≠ 0) text →
  (∀ m', holds ps (set_mem m' (set_lock false s)) → Q () (say text (set_mem m' s))) →
  wp (vprint sp vbuf fuel fmt va) Q s.
Proof using All.
  intros (Hc & Hlen & Hn & Hl & Hs) Hf Hok Ht Hb Hz HQ. cbn in Hc, Hs, Hl.
  destruct (Hs fmt _ Hf) as (Hfc & Hfl & H1 & H2 & H3). unfold disjoint_regions, BUFSZ, local_len in *.
  destruct (vsnprintf_spec vbuf BUFSZ sp ltac:(unfold BUFSZ; lia) ltac:(unfold disjoint_regions, BUFSZ, local_len; lia)
              str bound ltac:(lia) its fuel (r_mem s) fmt va text) as (m' & Em & Hr & Hz' & Hfr);
    try done; try lia.
  - intros p l E'. destruct (Hs p l E') as (? & ? & ? & ? & ?). unfold disjoint_regions, BUFSZ, local_len in *.
    split; [|done]. split; [done|]. unfold disjoint_regions, BUFSZ, local_len. split; lia.
  - split; [done|]. unfold disjoint_regions, BUFSZ, local_len. split; lia.
  - unfold BUFSZ, local_len in *. rewrite Z.min_l, Nat2Z.id in Hr by lia. rewrite Z.min_l in Hz' by lia.
    rewrite take_ge in Hr by lia.
    assert (cstr m' vbuf text) as Hct by by apply cstr_intro.
    unfold vprint. wstep. eapply wp_on_mem.
    { unfold vprintf. unfold BUFSZ. rewrite Em. cbn [mbind option_bind].
      rewrite (strlen_cstr _ _ _ text) by (done || lia). cbn [mbind option_bind]. by rewrite Nat2Z.id, Hr. }
    cbn beta iota. wstep. apply HQ. split; [|split; [done|split; [done|split; [done|]]]]; cbn.
    + eapply cstr_ext; [|done]. intros i Hi. apply Hfr; lia.
    + eapply strings_ok_frame; [done|]. unfold BUFSZ, local_len. intros x ? ? ?. apply Hfr; lia.
Qed.

Lemma va_report_wp ps fmt its va text (pass xfail skip : bool) s (Q : unit → report_state → Prop) :
  holds ps s → str fmt = Some (render its) → Forall item_ok its →
  items_text str its va = Some text → length text < BUFSZ → Forall (λ b, b ≠ 0) text →
  (∀ s', holds ps s' →
     counters s' = counters (bump (if skip then RSkip else if xfail && negb pass then RXfail
                                   else if xfail || negb pass then RFail else RPass) s) →
     console s' = console s ++ chars (verdict pass xfail skip) ++ chars ": " ++ stack_text ps ++ text ++ [ch_nl] →
     Q () s') →
  wp (va_report prefixes sp vbuf fuel fmt pass xfail skip va) Q s.
Proof using All.
  intros Hs Hf Hok Ht Hb Hz HQ. unfold va_report, lock_reports. pose proof Hs as (Hc & Hlen & Hn & Hl & Hso).
  wstep. apply wp_spin_lock; [done|]. wsteps. apply (puts_prefixes_wp ps); [by split_and!|]. wstep.
  eapply (vprint_wp ps); [by split_and!|done..|]. intros m' Hm. wsteps.
  apply wp_mono with (Q := λ _ s1, holds ps (set_lock false s1) ∧
    counters s1 = counters (bump (if skip then RSkip else if xfail && negb pass then RXfail
                                   else if xfail || negb pass then RFail else RPass) s) ∧
    console s1 = console s ++ chars (verdict pass xfail skip) ++ chars ": " ++ stack_text ps ++ text ++ [ch_nl]).
  - destruct skip, xfail, pass; cbn [andb orb negb]; wsteps; (split; [exact Hm|]);
      (split; [unfold counters; cbn -[wrap]; by rewrite ?wrap_add_l, ?Z.add_0_r|]);
      cbn -[chars verdict]; by rewrite <- !app_assoc.
  - intros _ s1 (H1 & H2 & H3). unfold unlock_reports. wstep. by apply HQ.
Qed.

(** Every call prints its line and counts its result once. *)
Lemma run_call_wp ps c text s :
  holds ps s → message c text →
  wp (run_call c) (λ _ s', holds ps s' ∧ counters s' = counters (bump (result_of c) s) ∧
                           console s' = console s ++ line_of ps c text) s.
Proof using All.
  intros Hs Hm. destruct c as [|f p va|f x p va|f va]; cbn [run_call].
  - destruct Hs as (H1 & H2 & H3 & H4 & H5). unfold report_pass, lock_reports, unlock_reports. wstep.
    apply wp_spin_lock; [done|]. wsteps. cbn in Hm. split; [by split_and!|]. split; [done|]. cbn.
    by rewrite app_nil_r.
  - destruct Hm as (its & H1 & H2 & H3 & H4 & H5). eapply va_report_wp; try done.
    intros s' Hs' Hc Ho. split; [done|]. split; [by destruct p|]. rewrite Ho. by destruct p.
  - destruct Hm as (its & H1 & H2 & H3 & H4 & H5). eapply va_report_wp; try done.
    intros s' Hs' Hc Ho. split; [done|]. split; [by destruct x, p|]. rewrite Ho. by destruct x, p.
  - destruct Hm as (its & H1 & H2 & H3 & H4 & H5). eapply va_report_wp; try done.
Qed.

Lemma run_calls_wp ps l texts s :
  holds ps s → Forall2 message l texts → bounded (2 ^ 31 - length l) s →
  wp (run_calls l) (λ _ s', holds ps s' ∧
    counters s' = (tests s + length l, failures s + nres RFail l, xfailures s + nres RXfail l,
                   skipped s + nres RSkip l) ∧
    console s' = console s ++ concat (zip_with (line_of ps) l texts)) s.
Proof using All.
  intros Hs Hm Hb. revert s Hs Hb. induction Hm as [|c text l texts Hc Hm IH]; intros s Hs Hb; cbn [run_calls].
  { wstep. cbn. rewrite app_nil_r. unfold counters, nres. cbn. by rewrite !Z.add_0_r. }
  wstep. eapply wp_mono; [by apply (run_call_wp ps c text)|]. intros _ s1 (H1 & H2 & H3).
  assert (bounded (2 ^ 31 - length l) s1 ∧
          counters s1 = (tests s + 1, failures s + nres RFail [c], xfailures s + nres RXfail [c],
                         skipped s + nres RSkip [c])) as [Hb1 Hc1].
  { by apply bump_bounded. }
  eapply wp_mono; [by apply IH|]. intros _ s2 (G1 & G2 & G3). split; [done|]. split.
  - rewrite G2. unfold counters in Hc1. injection Hc1 as -> -> -> ->. rewrite !(nres_cons _ c l). cbn [length].
    clear. apply f_equal2; [apply f_equal2; [apply f_equal2|]|]; lia.
  - rewrite G3, H3. cbn. by rewrite <- app_assoc.
Qed.

Lemma say_if_wp n text s (Q : unit → report_state → Prop) :
  0 <= n < 2 ^ 31 → Q () (say (if n =? 0 then [] else chars ", " ++ int_text n 10 ++ chars text) s) →
  wp (say_if n text) Q s.
Proof using Type.
  clear. intros Hn HQ. unfold say_if, say_count. rewrite swrap_small by lia. destruct (n =? 0); wsteps.
  - unfold say in HQ. rewrite app_nil_r in HQ. by destruct s.
  - unfold say in *. cbn -[chars] in *. rewrite <- app_assoc. exact HQ.
Qed.

Lemma summary_wp ps s (Q : Z → report_state → Prop) :
  holds ps s → bounded (2 ^ 31) s →
  (∀ s', holds ps s' → counters s' = counters s →
     console s' = console s ++ summary_line (tests s) (failures s) (xfailures s) (skipped s) →
     Q (if tests s =? skipped s then 38 else if 0 <? failures s then 1 else 0) s') →
  wp report_summary Q s.
Proof using All.
  intros Hs (Ht & Hf & Hx & Hk) HQ.
  unfold report_summary, lock_reports, say_count. wstep. apply wp_spin_lock; [by apply Hs|]. do 5 wstep.
  cbn [tests failures xfailures skipped say set_lock].
  wstep. rewrite swrap_small by lia. wstep. apply say_if_wp; [done|].
  wstep. apply say_if_wp; [done|]. wstep. apply say_if_wp; [done|]. wsteps.
  match goal with |- wp _ _ ?s1 => assert (holds ps (set_lock false s1)) as H1 by (destruct Hs as (? & ? & ? & ? & ?); by split_and!);
    assert (counters (set_lock false s1) = counters s) as H2 by done;
    assert (console (set_lock false s1) =
      console s ++ summary_line (tests s) (failures s) (xfailures s) (skipped s)) as H3 end.
  { cbn -[chars int_text]. unfold summary_line. by rewrite <- !app_assoc. }
  specialize (HQ _ H1 H2 H3). unfold unlock_reports. destruct (tests s =? skipped s); wsteps; exact HQ.
Qed.

(** C16: The array of prefixes is a stack: pushes and pops in any order have the
    effect that they have on the list of prefixes and write nothing else; a push
    that does not fit, or of a text that contains the delimiter, stops the
    machine. *)
Theorem prefix_stack_refines l ps s :
  holds ps s → Forall known l →
  match prefix_steps ps l with
  | Some ps' => wp (prefix_exec l) (λ _ s', holds ps' s' ∧ untouched s s') s
  | None => prefix_exec l s = Stop Halt
  end.
Proof using All.
  intros Hs Hl. pose proof (prefix_exec_wpe l ps s Hs Hl) as H. unfold refines, wpe in H. unfold wp.
  destruct (prefix_exec l s) as [[[] s']|e].
  - destruct H as (ps' & -> & H). done.
  - destruct H as [-> ->]. done.
Qed.

(** A program of reports prints a line per call, in order, and the summary
    of the results, and its exit code is 38 if every call was skipped, 1 if a
    test failed unexpectedly or succeeded unexpectedly, and 0 otherwise. *)
Theorem report_summary_code ps l texts s :
  holds ps s → Forall2 message l texts → counters s = (0, 0, 0, 0) → length l < 2 ^ 31 - 1 →
  wp (run_calls l;; report_summary) (λ r s', r = summary_code l ∧ holds ps s' ∧
    console s' = console s ++ concat (zip_with (line_of ps) l texts) ++
      summary_line (length l) (nres RFail l) (nres RXfail l) (nres RSkip l)) s.
Proof using All.
  intros Hs Hm Hc Hlen. injection Hc as H1 H2 H3 H4. wstep.
  eapply wp_mono; [apply (run_calls_wp ps l texts s); [done|done|]|].
  { unfold bounded. rewrite H1, H2, H3, H4. lia. }
  intros _ s1 (G1 & G2 & G3). rewrite H1, H2, H3, H4, !Z.add_0_l in G2. unfold counters in G2.
  injection G2 as E1 E2 E3 E4.
  pose proof (nres_bounds RFail l). pose proof (nres_bounds RXfail l). pose proof (nres_bounds RSkip l).
  apply (summary_wp ps); [done| |].
  { unfold bounded. rewrite E1, E2, E3, E4. lia. }
  intros s2 K1 K2 K3. rewrite E1, E2, E3, E4 in *. split; [by rewrite summary_code_counts|]. split; [done|].
  by rewrite K3, G3, <- app_assoc.
Qed.
End Laws.

(** ** A program to test with *)

Definition report_strings : list (Z * list Z) :=
  [(100, chars "%s"); (110, PREFIX_DELIMITER); (200, chars "vmx"); (210, chars "cr0"); (220, chars "a: b");
   (300, chars "case %d")].
Definition report_str (p : Z) : option (list Z) := snd <$> head (filter (λ x, x.1 = p) report_strings).

(** The strings, an empty array of prefixes at 1000, no test so far. *)
Definition report_start : report_state :=
  RState (foldr (λ '(p, l) m, wrl m p l) ∅ report_strings) 0 0 0 0 false [].

Lemma report_str_cases p l :
  report_str p = Some l → (p, l) ∈ report_strings.
Proof.
  unfold report_str. intros (x & E & Hx)%fmap_Some.
  apply head_Some_elem_of in E.
  apply list_elem_of_filter in E as [<- Hin]. subst. by destruct x.
Qed.

Lemma report_start_holds : holds 1000 5000 2000 report_str 16 [] report_start.
Proof.
  split; [done|]. split; [cbn; lia|]. split; [constructor|]. split; [done|].
  intros p l Hp. apply report_str_cases in Hp. unfold disjoint_regions, BUFSZ, local_len.
  repeat (apply elem_of_cons in Hp as [[= -> ->]|Hp]; [split; [by repeat split|cbn; lia]|]).
  by apply not_elem_of_nil in Hp.
Qed.

(** "vmx: " after a second prefix has been pushed and popped; a text with the
    delimiter is refused. *)
Lemma prefix_stack_refines_witness :
  wp (prefix_exec 1000 5000 100 110 2200 [Push 200; Push 210; Pop])
    (λ _ s', cstr (r_mem s') 1000 (chars "vmx: ")) report_start ∧
  prefix_exec 1000 5000 100 110 2200 [Push 200; Push 220] report_start = Stop Halt.
Proof.
  split.
  - eapply wp_mono.
    + apply (prefix_stack_refines 1000 5000 2000 100 110 2200 report_str 16) with (l := [Push 200; Push 210; Pop]) (ps := []);
        try (unfold disjoint_regions, BUFSZ, local_len; lia); [done|done|exact report_start_holds|].
      repeat (apply Forall_cons; split; [try by eexists|]); constructor.
    + intros _ s' [(H & _) _]. exact H.
  - apply (prefix_stack_refines 1000 5000 2000 100 110 2200 report_str 16) with (l := [Push 200; Push 220]) (ps := []);
      try (unfold disjoint_regions, BUFSZ, local_len; lia); [done|done|exact report_start_holds|].
    repeat (apply Forall_cons; split; [try by eexists|]); constructor.
Defined.

Definition report_calls : list call := [CPass; CReport 300 true [7]; CXfail 300 true true [8]; CSkip 300 [9]].
Definition report_texts : list (list Z) := [[]; chars "case 7"; chars "case 8"; chars "case 9"].

Lemma report_summary_code_witness :
  wp (run_calls 1000 5000 2000 2200 report_calls;; report_summary)
    (λ r s', r = 1 ∧ console s' = chars "PASS: case 7" ++ [ch_nl] ++ chars "XPASS: case 8" ++ [ch_nl] ++
       chars "SKIP: case 9" ++ [ch_nl] ++ chars "SUMMARY: 4 tests, 1 unexpected failures, 1 skipped" ++ [ch_nl])
    report_start.
Proof.
  eapply wp_mono.
  - apply (report_summary_code 1000 5000 2000 100 110 2200 report_str 16) with (l := report_calls) (texts := report_texts) (ps := []);
      try (unfold disjoint_regions, BUFSZ, local_len; lia); [done|done|exact report_start_holds| |done|done].
    constructor; [done|].
    do 3 (constructor; [exists ((Chr <$> chars "case ") ++ [Conv (Cspec false NoNum [] CInt)]); split_and!;
      [done| |by vm_compute|by vm_compute|]; repeat constructor; try done|]). constructor.
  - intros r s' (-> & _ & ->). by vm_compute.
Defined.
