(* ===== verification/Virtio.v ===== *)
(** * Virtqueues: lib/virtio.c

    A virtqueue is the driver's own fields and the three arrays it shares with
    the device.  The arrays are lists; an access outside is undefined.  The
    pointers to the device, its callback and the name are opaque numbers;
    [virt_to_phys] is the identity.  The device is the other half of the system:
    it takes buffers from the available ring and puts used ones back. *)

From S2P Require Import Prelude Bits CString.

Record vring_desc := VDesc { d_addr : Z; d_len : Z; d_flags : Z; d_next : Z }.
Record virtqueue := Vq { callback : Z; name : Z; vdev : Z; index : Z; num_free : Z }.

Record vring_virtqueue := VVq {
  vq : virtqueue;
  num : Z;
  desc : list vring_desc;
  avail_idx : Z; avail_ring : list Z;
  used_idx : Z; used_ring : list (Z * Z);      (* id and len *)
  free_head : Z; num_added : Z; last_used_idx : Z; notify : Z;
  data : list Z;
}.

Definition VRING_DESC_F_NEXT : Z := 1.

Definition with_free (n : Z) (q : virtqueue) : virtqueue := Vq (callback q) (name q) (vdev q) (index q) n.
Definition set_num_free (n : Z) (v : vring_virtqueue) : vring_virtqueue :=
  VVq (with_free n (vq v)) (num v) (desc v) (avail_idx v) (avail_ring v) (used_idx v) (used_ring v) (free_head v)
      (num_added v) (last_used_idx v) (notify v) (data v).
Definition set_desc (l : list vring_desc) (v : vring_virtqueue) : vring_virtqueue :=
  VVq (vq v) (num v) l (avail_idx v) (avail_ring v) (used_idx v) (used_ring v) (free_head v)
      (num_added v) (last_used_idx v) (notify v) (data v).
Definition set_avail (i : Z) (l : list Z) (v : vring_virtqueue) : vring_virtqueue :=
  VVq (vq v) (num v) (desc v) i l (used_idx v) (used_ring v) (free_head v)
      (num_added v) (last_used_idx v) (notify v) (data v).
Definition set_used (i : Z) (l : list (Z * Z)) (v : vring_virtqueue) : vring_virtqueue :=
  VVq (vq v) (num v) (desc v) (avail_idx v) (avail_ring v) i l (free_head v)
      (num_added v) (last_used_idx v) (notify v) (data v).
Definition set_free_head (h : Z) (v : vring_virtqueue) : vring_virtqueue :=
  VVq (vq v) (num v) (desc v) (avail_idx v) (avail_ring v) (used_idx v) (used_ring v) h
      (num_added v) (last_used_idx v) (notify v) (data v).
Definition set_num_added (n : Z) (v : vring_virtqueue) : vring_virtqueue :=
  VVq (vq v) (num v) (desc v) (avail_idx v) (avail_ring v) (used_idx v) (used_ring v) (free_head v)
      n (last_used_idx v) (notify v) (data v).
Definition set_last_used (n : Z) (v : vring_virtqueue) : vring_virtqueue :=
  VVq (vq v) (num v) (desc v) (avail_idx v) (avail_ring v) (used_idx v) (used_ring v) (free_head v)
      (num_added v) n (notify v) (data v).
Definition set_data (l : list Z) (v : vring_virtqueue) : vring_virtqueue :=
  VVq (vq v) (num v) (desc v) (avail_idx v) (avail_ring v) (used_idx v) (used_ring v) (free_head v)
      (num_added v) (last_used_idx v) (notify v) l.

Abbreviation vprog := (prog vring_virtqueue).

(** [l[i]] and [l[i] = x] *)
Definition rd {A} (l : vring_virtqueue → list A) (i : Z) : vprog A :=
  a ← gets l;
  if i <? 0 then stop_with Undef
  else match a !! Z.to_nat i with Some x => mret x | None => stop_with Undef end.
Definition upd {A} (l : vring_virtqueue → list A) (set : list A → vring_virtqueue → vring_virtqueue)
    (i : Z) (f : A → A) : vprog unit :=
  x ← rd l i; modify (λ v, set (<[Z.to_nat i := f x]> (l v)) v).

(** [vring_init]: the addresses of the three parts in the pages at [p]. *)
Record vring := Vring { r_num : Z; r_desc : Z; r_avail : Z; r_used : Z }.
Definition vring_init (num p align : Z) : vring :=
  let avail := p + num * 16 in
  Vring num p avail
        (Z.land (u64 (avail + 4 + num * 2 + 2 + align - 1)) (not64 (align - 1))).

(** [for (i = 0; i < num-1; i++)] of [vring_init_virtqueue] *)
Definition init_body (i : Z) (_ : unit) : vprog unit :=
  upd desc set_desc i (λ d, VDesc (d_addr d) (d_len d) (d_flags d) (u16 (i + 1)));;
  upd data set_data i (λ _, NULL).

(** The queue before the call is the memory it is in. *)
Definition vring_init_virtqueue (idx n vdv notfy cb nme : Z) : vprog unit :=
  modify (λ v, VVq (Vq cb nme vdv idx n) n (desc v) (avail_idx v) (avail_ring v) (used_idx v) (used_ring v)
                   0 0 0 notfy (data v));;
  for_up (Z.to_nat (n - 1)) 0 init_body ();;
  upd data set_data (n - 1) (λ _, NULL).

Definition virtqueue_add_outbuf (buf len : Z) : vprog Z :=
  assert (negb (buf =? NULL));;
  assert (negb (len =? 0));;
  v ← get;
  if num_free (vq v) =? 0 then mret (-1)
  else
    modify (set_num_free (num_free (vq v) - 1));;
    let head := free_head v in
    upd desc set_desc head (λ d, VDesc (d_addr d) (d_len d) 0 (d_next d));;
    upd desc set_desc head (λ d, VDesc buf (d_len d) (d_flags d) (d_next d));;
    upd desc set_desc head (λ d, VDesc (d_addr d) len (d_flags d) (d_next d));;
    d ← rd desc head;
    modify (set_free_head (d_next d));;
    upd data set_data head (λ _, buf);;
    v ← get;
    let avail := Z.land (avail_idx v) (num v - 1) in
    upd avail_ring (λ l v, set_avail (avail_idx v) l v) avail (λ _, u16 head);;
    modify (λ v, set_avail (u16 (avail_idx v + 1)) (avail_ring v) v);;
    modify (λ v, set_num_added (u32 (num_added v + 1)) v);;
    mret 0.

(** [vq->notify] is a call of the device. *)
Definition virtqueue_kick (call_notify : Z → vprog bool) : vprog bool :=
  v ← get; call_notify (notify v).

(** [while (vq->vring.desc[i].flags & VRING_DESC_F_NEXT)]: at most [fuel] steps *)
Definition detach_step (i : Z) : vprog (Z + Z) :=
  d ← rd desc i;
  if Z.land (d_flags d) VRING_DESC_F_NEXT =? 0 then mret (inr i)
  else
    modify (λ v, set_num_free (u32 (num_free (vq v) + 1)) v);;
    mret (inl (d_next d)).

Definition detach_buf (fuel : nat) (head : Z) : vprog unit :=
  upd data set_data head (λ _, NULL);;
  i ← iter fuel detach_step head;
  v ← get;
  upd desc set_desc i (λ d, VDesc (d_addr d) (d_len d) (d_flags d) (u16 (free_head v)));;
  modify (set_free_head head);;
  modify (λ v, set_num_free (u32 (num_free (vq v) + 1)) v).

(** The buffer and the number of bytes the device used. *)
Definition virtqueue_get_buf (fuel : nat) : vprog (Z * Z) :=
  v ← get;
  let last_used := u16 (Z.land (last_used_idx v) (num v - 1)) in
  '(i, len) ← rd used_ring last_used;
  ret ← rd data i;
  detach_buf fuel i;;
  modify (λ v, set_last_used (u16 (last_used_idx v + 1)) v);;
  mret (ret, len).

(** ** The device, and the queue the two implement together

    The device remembers how far it has read the available ring. *)

Record sys := Sys { q : vring_virtqueue; last_avail : Z }.

Definition on_q {A} (m : vprog A) : prog sys A := zoom q (λ v s, Sys v (last_avail s)) m.

(** The head of the next available buffer, with its address and length. *)
Definition device_take : prog sys (Z * Z * Z) :=
  s ← get;
  h ← on_q (rd avail_ring (Z.land (last_avail s) (num (q s) - 1)));
  d ← on_q (rd desc h);
  modify (λ s, Sys (q s) (u16 (last_avail s + 1)));;
  mret (h, d_addr d, d_len d).

Definition device_use (h len : Z) : prog sys unit :=
  s ← get;
  on_q (upd used_ring (λ l v, set_used (used_idx v) l v) (Z.land (used_idx (q s)) (num (q s) - 1)) (λ _, (h, len)));;
  on_q (modify (λ v, set_used (u16 (used_idx v + 1)) (used_ring v) v)).

Inductive action := Add (buf len : Z) | Take | Use (h len : Z) | Get.
Inductive output := OAdd (r : Z) | OTake (h buf len : Z) | OUse | OGet (buf len : Z).

Definition sys_step (a : action) : prog sys output :=
  match a with
  | Add buf len => r ← on_q (virtqueue_add_outbuf buf len); mret (OAdd r)
  | Take => '(h, b, l) ← device_take; mret (OTake h b l)
  | Use h len => device_use h len;; mret OUse
  | Get => '(b, l) ← on_q (virtqueue_get_buf 1); mret (OGet b l)
  end.

(** The abstract queue: buffers that wait for the device, that it works on, and
    that it has used, with their heads; [n] buffers at most. *)
Record aqueue := AQueue {
  queued : list (Z * Z * Z); taken : list (Z * Z); completed : list (Z * Z * Z)
}.
Definition busy (a : aqueue) : list (Z * Z) := (queued a).*1 ++ taken a ++ (completed a).*1.
Definition heads (a : aqueue) : list Z := (busy a).*1.

Inductive astep (n : Z) : aqueue → action → output → aqueue → Prop :=
| step_add h buf len qu ta co :
    length (heads (AQueue qu ta co)) < n → h ∉ heads (AQueue qu ta co) →
    astep n (AQueue qu ta co) (Add buf len) (OAdd 0) (AQueue (qu ++ [(h, buf, len)]) ta co)
| step_full buf len a : n = length (heads a) → astep n a (Add buf len) (OAdd (-1)) a
| step_take h buf len qu ta co :
    astep n (AQueue ((h, buf, len) :: qu) ta co) Take (OTake h buf len) (AQueue qu ((h, buf) :: ta) co)
| step_use h buf len qu ta1 ta2 co :
    astep n (AQueue qu (ta1 ++ (h, buf) :: ta2) co) (Use h len) OUse
            (AQueue qu (ta1 ++ ta2) (co ++ [(h, buf, len)]))
| step_get h buf len qu ta co :
    astep n (AQueue qu ta ((h, buf, len) :: co)) Get (OGet buf len) (AQueue qu ta co).

(** The rules of the protocol: the driver adds buffers that exist and asks for a
    used one when there is one; the device uses what it has taken. *)
Definition enabled (a : aqueue) (x : action) : Prop :=
  match x with
  | Add buf len => buf ≠ NULL ∧ len ≠ 0
  | Take => queued a ≠ []
  | Use h len => h ∈ (taken a).*1
  | Get => completed a ≠ []
  end.

(** *** Rings *)

(** [l] is in the ring from position [start] on. *)
Definition slots {A} (n start : Z) (ring l : list A) : Prop :=
  ∀ i x, l !! i = Some x → ring !! Z.to_nat ((start + Z.of_nat i) mod n) = Some x.

Section Slots.
Context {A : Type} (n : Z) (Hn : 0 < n).

Lemma slots_push start (ring l : list A) x :
  slots n start ring l → length l < n → length ring = Z.to_nat n →
  slots n start (<[Z.to_nat ((start + length l) mod n) := x]> ring) (l ++ [x]).
Proof using Hn.
  intros Hs Hl Hr i y Hy. pose proof (Z.mod_pos_bound (start + length l) n Hn).
  apply lookup_app_Some in Hy as [Hy|[Hi Hy]].
  - pose proof (lookup_lt_Some _ _ _ Hy). pose proof (Z.mod_pos_bound (start + i) n Hn).
    rewrite list_lookup_insert_ne; [by apply Hs|]. intros E%Z2Nat.inj; [|lia|lia].
    assert ((length l - i) mod n = 0) as E0.
    { replace (length l - i) with ((start + length l) - (start + i)) by lia.
      rewrite Zminus_mod, E, Z.sub_diag. by apply Zmod_0_l. }
    rewrite Z.mod_small in E0 by lia. lia.
  - apply list_lookup_singleton_Some in Hy as [Hi0 ->].
    replace i with (length l) by lia. apply list_lookup_insert_eq. lia.
Qed.

Lemma slots_pop start (ring l : list A) x :
  slots n start ring (x :: l) → ring !! Z.to_nat (start mod n) = Some x ∧ slots n (start + 1) ring l.
Proof using Type.
  intros Hs. split.
  - specialize (Hs 0%nat x eq_refl). by rewrite Z.add_0_r in Hs.
  - intros i y Hy. replace (start + 1 + i) with (start + S i) by lia. by apply Hs.
Qed.
End Slots.

Lemma ring_slot x k : 0 <= k <= 16 → Z.land (u16 x) (2 ^ k - 1) = x mod 2 ^ k.
Proof.
  intros Hk. rewrite Z.sub_1_r, <- Z.ones_equiv, Z.land_ones by lia.
  unfold wrap. replace (2 ^ 16) with (2 ^ k * 2 ^ (16 - k)) by (rewrite <- Z.pow_add_r by lia; f_equal; lia).
  rewrite Z.rem_mul_r by (try apply Z.pow_nonzero; try apply Z.pow_pos_nonneg; lia).
  rewrite Z.mul_comm, Z.mod_add by (apply Z.pow_nonzero; lia). by apply Zmod_mod.
Qed.

(** *** The relation between the two *)

(** The free descriptors are linked from [h]. *)
Fixpoint chain (l : list vring_desc) (h : Z) (free : list Z) : Prop :=
  match free with
  | [] => True
  | x :: free' => h = x ∧ ∃ d, l !! Z.to_nat x = Some d ∧ chain l (d_next d) free'
  end.

Lemma chain_insert l h free i d : (∀ x, x ∈ free → Z.to_nat x ≠ i) → chain l h free → chain (<[i := d]> l) h free.
Proof.
  revert h. induction free as [|x free IH]; intros h Hi; cbn; [done|]. intros (-> & d' & Hd & Hc).
  split; [done|]. exists d'. rewrite list_lookup_insert_ne by (apply not_eq_sym, Hi; by left).
  split; [done|]. apply IH; [|done]. intros y Hy. apply Hi. by right.
Qed.

(** [T] buffers have been taken by the device and [G] got back by the driver. *)
Record related (k T G : Z) (free : list Z) (s : sys) (a : aqueue) : Prop := {
  rel_k : 0 <= k <= 15;
  rel_num : num (q s) = 2 ^ k;
  rel_len : length (desc (q s)) = Z.to_nat (2 ^ k) ∧ length (avail_ring (q s)) = Z.to_nat (2 ^ k) ∧
            length (used_ring (q s)) = Z.to_nat (2 ^ k) ∧ length (data (q s)) = Z.to_nat (2 ^ k);
  rel_chain : chain (desc (q s)) (free_head (q s)) free;
  rel_free : num_free (vq (q s)) = length free;
  rel_perm : free ++ heads a ≡ₚ seqZ 0 (2 ^ k);
  rel_avail : avail_idx (q s) = u16 (T + length (queued a)) ∧ last_avail s = u16 T;
  rel_used : used_idx (q s) = u16 (G + length (completed a)) ∧ last_used_idx (q s) = u16 G;
  rel_queued : slots (2 ^ k) T (avail_ring (q s)) (queued a).*1.*1;
  rel_completed : slots (2 ^ k) G (used_ring (q s)) ((λ '(h, b, l), (h, l)) <$> completed a);
  rel_desc : ∀ h b l, (h, b, l) ∈ queued a → ∃ x, desc (q s) !! Z.to_nat h = Some (VDesc b l 0 x);
  rel_busy : ∀ h b, (h, b) ∈ busy a → data (q s) !! Z.to_nat h = Some b ∧
               ∃ d, desc (q s) !! Z.to_nat h = Some d ∧ d_flags d = 0;
}.

Lemma rd_wp {A} (l : vring_virtqueue → list A) i x v (Q : A → vring_virtqueue → Prop) :
  0 <= i → l v !! Z.to_nat i = Some x → Q x v → wp (rd l i) Q v.
Proof. intros Hi Hx HQ. unfold rd. wsteps. destruct (Z.ltb_spec i 0); [lia|]. rewrite Hx. by wstep. Qed.

Lemma upd_wp {A} (l : vring_virtqueue → list A) set i f x v (Q : unit → vring_virtqueue → Prop) :
  0 <= i → l v !! Z.to_nat i = Some x → Q () (set (<[Z.to_nat i := f x]> (l v)) v) → wp (upd l set i f) Q v.
Proof. intros Hi Hx HQ. unfold upd. wstep. eapply rd_wp; [done|done|]. by wstep. Qed.

Section Related.
Context (k T G : Z) (free : list Z) (s : sys) (a : aqueue) (R : related k T G free s a).

Lemma rel_nodup : NoDup (free ++ heads a).
Proof using R. rewrite (rel_perm _ _ _ _ _ _ R). apply NoDup_seqZ. Qed.

Lemma rel_range x : x ∈ free ++ heads a → 0 <= x < 2 ^ k ∧ x < 2 ^ 16.
Proof using R.
  rewrite (rel_perm _ _ _ _ _ _ R), elem_of_seqZ. pose proof (rel_k _ _ _ _ _ _ R).
  pose proof (Z.pow_le_mono_r 2 k 16). lia.
Qed.

Lemma rel_total : length free + length (heads a) = 2 ^ k.
Proof using R.
  pose proof (rel_perm _ _ _ _ _ _ R) as H. apply Permutation_length in H.
  rewrite length_app, length_seqZ in H. pose proof (Z.pow_nonneg 2 k). lia.
Qed.

Lemma rel_other x y : x ∈ free ++ heads a → y ∈ free ++ heads a → x ≠ y → Z.to_nat x ≠ Z.to_nat y.
Proof using R. intros Hx%rel_range Hy%rel_range ?. lia. Qed.

Lemma rel_lookup {A} (l : list A) x : length l = Z.to_nat (2 ^ k) → 0 <= x < 2 ^ k → is_Some (l !! Z.to_nat x).
Proof using Type. intros Hl Hx. apply lookup_lt_is_Some_2. lia. Qed.
End Related.

(** The same heads in another order. *)
Ltac solve_heads :=
  unfold heads, busy; cbn; rewrite ?fmap_app; cbn; rewrite ?fmap_app; cbn; solve_Permutation.

(** The same busy buffers in another order. *)
Ltac busy_elem H :=
  unfold busy in *; cbn in *; rewrite ?fmap_app in H; cbn in H;
  repeat first [rewrite elem_of_app in H | rewrite elem_of_cons in H | rewrite elem_of_nil in H];
  repeat first [rewrite elem_of_app | rewrite elem_of_cons];
  tauto.

Definition simulates (k : Z) (s : sys) (a : aqueue) (x : action) : Prop :=
  wp (sys_step x) (λ o s', ∃ a' T' G' free', astep (2 ^ k) a x o a' ∧ related k T' G' free' s' a') s.

(** Filling the descriptor at the head of the free list. *)
Lemma add_wp v head d buf len (r : Z) (Q : Z → vring_virtqueue → Prop) :
  buf ≠ NULL → len ≠ 0 → num_free (vq v) ≠ 0 → free_head v = head → 0 <= head < 2 ^ 16 →
  desc v !! Z.to_nat head = Some d → data v !! Z.to_nat head = Some r →
  0 <= Z.land (avail_idx v) (num v - 1) → is_Some (avail_ring v !! Z.to_nat (Z.land (avail_idx v) (num v - 1))) →
  Q 0 (VVq (with_free (num_free (vq v) - 1) (vq v)) (num v) (<[Z.to_nat head := VDesc buf len 0 (d_next d)]> (desc v))
           (u16 (avail_idx v + 1)) (<[Z.to_nat (Z.land (avail_idx v) (num v - 1)) := head]> (avail_ring v))
           (used_idx v) (used_ring v) (d_next d) (u32 (num_added v + 1)) (last_used_idx v) (notify v)
           (<[Z.to_nat head := buf]> (data v))) →
  wp (virtqueue_add_outbuf buf len) Q v.
Proof.
  intros Hb Hl Hf Hh Hr Hd Hdt Hs [y Hy] HQ. unfold virtqueue_add_outbuf, NULL in *.
  pose proof (lookup_lt_Some _ _ _ Hd) as Hlt.
  wstep. wstep; [by apply negb_true_iff, Z.eqb_neq|]. wstep. wstep; [by apply negb_true_iff, Z.eqb_neq|].
  wstep. wstep. destruct (Z.eqb_spec (num_free (vq v)) 0); [done|]. wstep. wstep. rewrite Hh.
  wstep. eapply upd_wp; [lia|exact Hd|]. wstep. eapply upd_wp; [lia|cbn; by apply list_lookup_insert_eq|].
  wstep. eapply upd_wp; [lia|cbn; by apply list_lookup_insert_eq; rewrite length_insert|].
  cbn. rewrite !list_insert_insert_eq. wstep. eapply rd_wp; [lia|cbn; by apply list_lookup_insert_eq|].
  wstep. wstep. wstep. eapply upd_wp; [lia|exact Hdt|]. wstep. wstep. wstep.
  eapply upd_wp; [done|exact Hy|]. wsteps. cbn. rewrite (wrap_small 16 head) by lia. exact HQ.
Qed.

Lemma add_sim k T G free s a buf len :
  related k T G free s a → enabled a (Add buf len) → simulates k s a (Add buf len).
Proof.
  intros R [Hb Hl]. pose proof (rel_total _ _ _ _ _ _ R) as Htot. destruct a as [qu ta co].
  unfold simulates. cbn [sys_step]. unfold on_q. wstep. wstep. destruct free as [|h free].
  { (* no descriptor is free *)
    pose proof (rel_free _ _ _ _ _ _ R) as Hf. unfold virtqueue_add_outbuf, NULL in *.
    wstep. wstep; [by apply negb_true_iff, Z.eqb_neq|]. wstep. wstep; [by apply negb_true_iff, Z.eqb_neq|].
    wstep. wstep. rewrite Hf. change (Z.of_nat (length []) =? 0) with true. cbv iota. wstep. wstep. eexists _, T, G, []. split.
    - apply step_full. cbn in *. lia.
    - by destruct s. }
  pose proof R as [Hk Hnum (L1 & L2 & L3 & L4) Hchain Hfree Hperm [Ha1 Ha2] [Hu1 Hu2] Hq Hc Hd Hbz].
  destruct Hchain as (Hh & d & Hdesc & Hch).
  assert (h ∈ (h :: free) ++ heads (AQueue qu ta co)) as Hin by by left.
  destruct (rel_range _ _ _ _ _ _ R h Hin) as [Hhr Hh16].
  assert (∀ x, x ∈ free ++ heads (AQueue qu ta co) → Z.to_nat x ≠ Z.to_nat h) as Hne.
  { intros x Hx. apply (rel_other _ _ _ _ _ _ R); [by right|done|]. intros ->.
    pose proof (rel_nodup _ _ _ _ _ _ R) as Hnd. by apply NoDup_cons in Hnd as [? _]. }
  destruct (rel_lookup k (data (q s)) h L4 Hhr) as [r Hr].
  assert (0 < 2 ^ k) as Hp by (apply Z.pow_pos_nonneg; lia).
  pose proof (Z.mod_pos_bound (T + length qu) (2 ^ k) Hp) as Hm.
  assert (Z.land (avail_idx (q s)) (num (q s) - 1) = (T + length qu) mod 2 ^ k) as Eslot
    by by rewrite Ha1, Hnum, ring_slot by lia.
  eapply (add_wp (q s) h d buf len r); [done|done|rewrite Hfree; cbn; lia|done|lia|done|done|rewrite Eslot; lia| |].
  { rewrite Eslot. by apply (rel_lookup k). }
  wstep. eexists _, T, G, free. split.
  { apply (step_add _ h); [cbn in *; lia|]. intros Hx. apply (Hne h); [|done]. apply elem_of_app. by right. }
  rewrite Eslot. split; cbn; rewrite ?length_insert; try done.
  - apply chain_insert; [|done]. intros x Hx. apply Hne, elem_of_app. by left.
  - rewrite Hfree. cbn. lia.
  - rewrite <- Hperm. solve_heads.
  - split; [|done]. rewrite Ha1, wrap_add_l, length_app. cbn. f_equal. lia.
  - rewrite !fmap_app. cbn. replace (T + length qu) with (T + length qu.*1.*1) by by rewrite !length_fmap.
    apply slots_push; [done|done|rewrite !length_fmap|done].
    cbn in Htot. unfold heads, busy in Htot. cbn in Htot. rewrite !fmap_app, !length_app, !length_fmap in Htot. lia.
  - intros h' b' l' [Hq'|Hq']%elem_of_app.
    + rewrite list_lookup_insert_ne; [by eapply Hd|]. apply not_eq_sym, Hne, elem_of_app. right.
      unfold heads, busy. cbn. rewrite fmap_app. apply elem_of_app. left.
      apply list_elem_of_fmap. exists (h', b'). split; [done|]. apply list_elem_of_fmap. by exists (h', b', l').
    + apply list_elem_of_singleton in Hq' as [= -> -> ->]. eexists. apply list_lookup_insert_eq. lia.
  - intros h' b' Hx. destruct (decide ((h', b') ∈ busy (AQueue qu ta co))) as [Hin'|Hnin].
    + assert (Z.to_nat h' ≠ Z.to_nat h) as Hn'.
      { apply Hne, elem_of_app. right. unfold heads. apply list_elem_of_fmap. by exists (h', b'). }
      rewrite !list_lookup_insert_ne by done. by apply Hbz.
    + assert ((h', b') = (h, buf)) as [= -> ->].
      { unfold busy in *. cbn in *. rewrite fmap_app in Hx. rewrite !elem_of_app in *. cbn in Hx.
        rewrite list_elem_of_singleton in Hx. tauto. }
      rewrite !list_lookup_insert_eq by lia. split; [done|]. by eexists.
Qed.

Lemma pow_pos k : 0 <= k → 0 < 2 ^ k.
Proof. intros. apply Z.pow_pos_nonneg; lia. Qed.

Lemma take_sim k T G free s a : related k T G free s a → enabled a Take → simulates k s a Take.
Proof.
  intros R Hen. destruct a as [[|[[h b] l] qu] ta co]; [done|].
  pose proof R as [Hk Hnum (L1 & L2 & L3 & L4) Hchain Hfree Hperm [Ha1 Ha2] [Hu1 Hu2] Hq Hc Hd Hbz].
  pose proof (pow_pos k ltac:(lia)) as Hp. pose proof (Z.mod_pos_bound T (2 ^ k) Hp) as Hm.
  cbn in Hq. apply slots_pop in Hq as [Hh Hq].
  destruct (Hd h b l) as [x Hx]; [by left|].
  assert (0 <= h) as Hh0.
  { apply (rel_range _ _ _ _ _ _ R h). apply elem_of_app. right. by left. }
  assert (Z.land (last_avail s) (num (q s) - 1) = T mod 2 ^ k) as Eslot by (rewrite Hnum, Ha2, ring_slot; [done|lia]).
  unfold simulates, sys_step, device_take, on_q. wstep. wstep. wstep. wstep. wstep. rewrite Eslot.
  eapply rd_wp; [lia|exact Hh|].
  wstep. wstep. eapply rd_wp; [done|exact Hx|]. wsteps. eexists _, (T + 1), G, free. split; [apply step_take|].
  split; cbn; try done.
  - rewrite <- Hperm. solve_heads.
  - rewrite Ha1, Ha2, wrap_add_l. cbn. split; [f_equal; lia|done].
  - intros h' b' l' H. apply (Hd h' b' l'). by right.
  - intros h' b' H. apply Hbz. busy_elem H.
Qed.

Lemma use_sim k T G free s a h len :
  related k T G free s a → enabled a (Use h len) → simulates k s a (Use h len).
Proof.
  intros R Hen. destruct a as [qu ta co]. cbn in Hen.
  apply list_elem_of_fmap in Hen as ([h' b] & -> & (ta1 & ta2 & ->)%list_elem_of_split). cbn [fst].
  pose proof (rel_total _ _ _ _ _ _ R) as Htot.
  pose proof R as [Hk Hnum (L1 & L2 & L3 & L4) Hchain Hfree Hperm [Ha1 Ha2] [Hu1 Hu2] Hq Hc Hd Hbz].
  pose proof (pow_pos k ltac:(lia)) as Hp. cbn in Hu1.
  pose proof (Z.mod_pos_bound (G + length co) (2 ^ k) Hp) as Hm.
  assert (Z.land (used_idx (q s)) (num (q s) - 1) = (G + length co) mod 2 ^ k) as Eslot
    by by rewrite Hu1, Hnum, ring_slot by lia.
  destruct (rel_lookup k (used_ring (q s)) ((G + length co) mod 2 ^ k) L3 Hm) as [y Hy].
  unfold simulates, sys_step, device_use, on_q. wstep. wstep. wstep. wstep. wstep. rewrite Eslot.
  eapply upd_wp; [lia|exact Hy|]. wsteps. eexists _, T, G, free. split; [apply step_use|].
  split; cbn; rewrite ?length_insert; try done.
  - rewrite <- Hperm. solve_heads.
  - rewrite Hu1, wrap_add_l, length_app. cbn. split; [f_equal; lia|done].
  - rewrite fmap_app. cbn.
    replace (G + length co) with (G + length ((λ '(h, b, l), (h, l)) <$> co)) by by rewrite length_fmap.
    apply slots_push; [done|done|rewrite length_fmap|done].
    unfold heads, busy in Htot. cbn in Htot. rewrite !fmap_app, !length_app, !length_fmap in Htot. cbn in Htot. lia.
  - intros h0 b0 H. apply Hbz. busy_elem H.
Qed.

(** Reading the used ring, and putting a descriptor without successor back. *)
Lemma get_wp v h len b d (Q : Z * Z → vring_virtqueue → Prop) (slot := Z.land (last_used_idx v) (num v - 1)) :
  0 <= slot < 2 ^ 16 → used_ring v !! Z.to_nat slot = Some (h, len) → 0 <= h → data v !! Z.to_nat h = Some b →
  desc v !! Z.to_nat h = Some d → d_flags d = 0 →
  Q (b, len)
    (VVq (with_free (u32 (num_free (vq v) + 1)) (vq v)) (num v)
         (<[Z.to_nat h := VDesc (d_addr d) (d_len d) 0 (u16 (free_head v))]> (desc v)) (avail_idx v) (avail_ring v)
         (used_idx v) (used_ring v) h (num_added v) (u16 (last_used_idx v + 1)) (notify v)
         (<[Z.to_nat h := NULL]> (data v))) →
  wp (virtqueue_get_buf 1) Q v.
Proof.
  intros Hs Hu Hh Hb Hd Hf HQ. unfold virtqueue_get_buf. wstep. wstep. wstep. fold slot. rewrite wrap_small by lia.
  eapply rd_wp; [lia|exact Hu|]. cbn beta iota. wstep. eapply rd_wp; [done|exact Hb|]. wstep. unfold detach_buf.
  wstep. eapply upd_wp; [done|exact Hb|]. wstep. cbn [iter]. wstep. unfold detach_step. wstep.
  eapply rd_wp; [done|exact Hd|]. rewrite Hf. change (Z.land 0 VRING_DESC_F_NEXT =? 0) with true. cbv iota.
  wstep. wstep. wstep. wstep. wstep. eapply upd_wp; [done|exact Hd|]. wsteps. rewrite Hf. exact HQ.
Qed.

Lemma get_sim k T G free s a : related k T G free s a → enabled a Get → simulates k s a Get.
Proof.
  intros R Hen. destruct a as [qu ta [|[[h b] l] co]]; [done|].
  pose proof (rel_total _ _ _ _ _ _ R) as Htot. pose proof (rel_nodup _ _ _ _ _ _ R) as Hnd.
  pose proof R as [Hk Hnum (L1 & L2 & L3 & L4) Hchain Hfree Hperm [Ha1 Ha2] [Hu1 Hu2] Hq Hc Hd Hbz].
  pose proof (pow_pos k ltac:(lia)) as Hp. pose proof (Z.mod_pos_bound G (2 ^ k) Hp) as Hm.
  pose proof (Z.pow_le_mono_r 2 k 15 ltac:(lia) ltac:(lia)) as Hk16.
  cbn in Hc. apply slots_pop in Hc as [Hh Hc].
  destruct (Hbz h b) as (Hdt & d & Hds & Hfl); [unfold busy; cbn; rewrite !elem_of_app; right; right; by left|].
  assert (h ∈ free ++ heads (AQueue qu ta ((h, b, l) :: co))) as Hin.
  { apply elem_of_app. right. unfold heads. apply list_elem_of_fmap. exists (h, b). split; [done|].
    unfold busy. cbn. rewrite !elem_of_app. right. right. by left. }
  destruct (rel_range _ _ _ _ _ _ R h Hin) as [Hhr _].
  assert (free ++ heads (AQueue qu ta ((h, b, l) :: co)) ≡ₚ h :: free ++ heads (AQueue qu ta co)) as Hperm'
    by solve_heads.
  rewrite Hperm' in Hnd. apply NoDup_cons in Hnd as [Hnin _].
  assert (∀ x, x ∈ free ++ heads (AQueue qu ta co) → Z.to_nat x ≠ Z.to_nat h) as Hne.
  { intros x Hx. apply (rel_other _ _ _ _ _ _ R); [rewrite Hperm'; by right|done|]. by intros ->. }
  assert (Z.land (last_used_idx (q s)) (num (q s) - 1) = G mod 2 ^ k) as Eslot
    by (rewrite Hnum, Hu2, ring_slot; [done|lia]).
  unfold simulates. cbn [sys_step]. unfold on_q. wstep. wstep.
  apply (get_wp (q s) h l b d); rewrite ?Eslot; [lia|exact Hh|lia|done|done|done|].
  wstep. eexists _, T, (G + 1), (h :: free). split; [apply step_get|].
  split; cbn; rewrite ?length_insert; try done.
  - split; [done|]. eexists. split; [apply list_lookup_insert_eq; lia|]. cbn.
    apply chain_insert; [intros x Hx; apply Hne, elem_of_app; by left|].
    destruct free as [|x free]; [done|]. destruct Hchain as [E Hch]. rewrite E. split; [|done].
    apply wrap_small. destruct (rel_range _ _ _ _ _ _ R x); [by left|lia].
  - rewrite Hfree, wrap_small by lia. lia.
  - by rewrite <- Hperm, Hperm'.
  - rewrite Hu1, Hu2, wrap_add_l. cbn. split; [f_equal; lia|done].
  - intros h' b' l' H. rewrite list_lookup_insert_ne; [by eapply Hd|]. apply not_eq_sym, Hne, elem_of_app. right.
    unfold heads, busy. cbn. rewrite fmap_app. apply elem_of_app. left. apply list_elem_of_fmap. exists (h', b').
    split; [done|]. apply list_elem_of_fmap. by exists (h', b', l').
  - intros h' b' H. assert (Z.to_nat h' ≠ Z.to_nat h) as Hn'.
    { apply Hne, elem_of_app. right. unfold heads. apply list_elem_of_fmap. by exists (h', b'). }
    rewrite !list_lookup_insert_ne by done. apply Hbz. busy_elem H.
Qed.

Lemma step_sim k T G free s a x : related k T G free s a → enabled a x → simulates k s a x.
Proof.
  intros R Hx. destruct x; [by eapply add_sim|by eapply take_sim|by eapply use_sim|by eapply get_sim].
Qed.

(** *** The queue at the start *)

Lemma desc_chain_seq l (m : nat) i n :
  0 <= i → i + m = n →
  (∀ j, i <= j < n → ∃ d, l !! Z.to_nat j = Some d ∧ (j + 1 < n → d_next d = j + 1)) →
  chain l i (seqZ i m).
Proof.
  revert i. induction m as [|m IH]; intros i Hi Hn Hl; [done|].
  rewrite seqZ_cons by lia. split; [done|]. destruct (Hl i) as (d & Hd & Hnx); [lia|]. exists d. split; [done|].
  replace (Z.pred (S m)) with (Z.of_nat m) by lia. destruct m as [|m].
  - done.
  - rewrite Hnx by lia. apply (IH (Z.succ i)); [lia|lia|]. intros j Hj. apply Hl. lia.
Qed.

(** The pages of the queue, all zero, as the allocator of the driver gives them. *)
Definition fresh (n : nat) (v : vring_virtqueue) : Prop :=
  desc v = replicate n (VDesc 0 0 0 0) ∧ avail_ring v = replicate n 0 ∧ used_ring v = replicate n (0, 0) ∧
  avail_idx v = 0 ∧ used_idx v = 0 ∧ length (data v) = n.

Lemma init_related k idx vdv notfy cb nme v :
  0 <= k <= 15 → fresh (Z.to_nat (2 ^ k)) v →
  wp (vring_init_virtqueue idx (2 ^ k) vdv notfy cb nme)
    (λ _ v', related k 0 0 (seqZ 0 (2 ^ k)) (Sys v' 0) (AQueue [] [] [])) v.
Proof.
  intros Hk (Fd & Fa & Fu & Fai & Fui & Fdt). pose proof (pow_pos k ltac:(lia)) as Hp.
  pose proof (Z.pow_le_mono_r 2 k 15 ltac:(lia) ltac:(lia)) as Hk16.
  unfold vring_init_virtqueue. wstep. wstep. wstep.
  set (Inv i (_ : unit) v' := 
    v' = VVq (Vq cb nme vdv idx (2 ^ k)) (2 ^ k) (desc v') 0 (avail_ring v) 0 (used_ring v) 0 0 0 notfy (data v') ∧
    length (data v') = Z.to_nat (2 ^ k) ∧ length (desc v') = Z.to_nat (2 ^ k) ∧
    ∀ j, 0 <= j < 2 ^ k → ∃ d, desc v' !! Z.to_nat j = Some d ∧ d_flags d = 0 ∧ (j < i → d_next d = j + 1)).
  apply (wp_for_up Inv).
  - intros j [] v' Hj (E & H1 & H2 & H3). unfold init_body. destruct (H3 j) as (d & Hd & Hfl & _); [lia|].
    destruct (rel_lookup k (data v') j) as [y Hy]; [done|lia|].
    wstep. eapply upd_wp; [lia|exact Hd|]. eapply upd_wp; [lia|exact Hy|]. rewrite E. unfold Inv. cbn.
    rewrite !length_insert. split; [done|]. split; [done|]. split; [done|]. intros i Hi.
    destruct (decide (i = j)) as [->|Hne].
    + eexists. split; [apply list_lookup_insert_eq; lia|]. split; [done|]. intros _. cbn. apply wrap_small. lia.
    + rewrite list_lookup_insert_ne by lia. destruct (H3 i Hi) as (d' & ? & ? & Hnx). exists d'.
      split; [done|]. split; [done|]. intros. apply Hnx. lia.
  - unfold Inv. cbn. rewrite Fai, Fui, Fd, length_replicate. split; [done|]. split; [done|]. split; [done|].
    intros j Hj. exists (VDesc 0 0 0 0). split; [apply lookup_replicate_2; lia|]. split; [done|lia].
  - intros [] v' (E & H1 & H2 & H3). destruct (rel_lookup k (data v') (2 ^ k - 1)) as [y Hy]; [done|lia|].
    eapply upd_wp; [lia|exact Hy|]. rewrite E. split; cbn; rewrite ?length_insert, ?Fa, ?Fu, ?length_replicate; try done.
    + rewrite <- (Z2Nat.id (2 ^ k)) by lia. apply (desc_chain_seq _ _ _ (2 ^ k)); [lia|lia|].
      intros j Hj. destruct (H3 j) as (d & Hd & _ & Hnx); [lia|]. exists d. split; [done|]. intros. apply Hnx. lia.
    + rewrite length_seqZ. lia.
    + by rewrite app_nil_r.
    + intros h b l H. by apply not_elem_of_nil in H.
    + intros h b H. by apply not_elem_of_nil in H.
Qed.

(** The outputs of the actions are those of some run of the abstract queue, as
    long as both sides keep the protocol. *)
Fixpoint refines_queue (n : Z) (l : list action) (s : sys) (a : aqueue) : Prop :=
  match l with
  | [] => True
  | x :: l' => enabled a x → wp (sys_step x) (λ o s', ∃ a', astep n a x o a' ∧ refines_queue n l' s' a') s
  end.

Lemma related_refines k l T G free s a : related k T G free s a → refines_queue (2 ^ k) l s a.
Proof.
  revert T G free s a. induction l as [|x l IH]; intros T G free s a R; cbn; [done|]. intros Hx.
  eapply wp_mono; [by eapply step_sim|]. intros o s' (a' & T' & G' & free' & Ha & R'). exists a'. split; [done|].
  by eapply IH.
Qed.

(** C14: A new virtqueue of 2^k entries implements a queue of at most 2^k buffers:
    in any interleaving of driver and device that keeps the protocol, a buffer is
    refused exactly when 2^k are outstanding, the device gets the buffers in the
    order and with the lengths they were added, and the driver gets each back
    once, in the order the device has used them. *)
Theorem virtqueue_refines k idx vdv notfy cb nme v l :
  0 <= k <= 15 → fresh (Z.to_nat (2 ^ k)) v →
  wp (vring_init_virtqueue idx (2 ^ k) vdv notfy cb nme)
    (λ _ v', refines_queue (2 ^ k) l (Sys v' 0) (AQueue [] [] [])) v.
Proof.
  intros Hk Hf. eapply wp_mono; [by apply init_related|]. intros [] v' R. by eapply related_refines.
Qed.

(** Four entries in zeroed pages. *)
Definition vq_start : vring_virtqueue :=
  VVq (Vq 0 0 0 0 0) 0 (replicate 4 (VDesc 0 0 0 0)) 0 (replicate 4 0) 0 (replicate 4 (0, 0)) 0 0 0 0 (replicate 4 0).

Lemma virtqueue_refines_witness :
  wp (vring_init_virtqueue 0 (2 ^ 2) 0 0 0 0)
    (λ _ v', refines_queue (2 ^ 2) [Add 0x5000 10; Add 0x6000 20; Take; Take; Use 1 20; Get] (Sys v' 0)
               (AQueue [] [] [])) vq_start.
Proof. apply (virtqueue_refines 2 0 0 0 0 0 vq_start); [lia|by repeat split]. Defined.

Fixpoint sys_run (l : list action) : prog sys (list output) :=
  match l with [] => mret [] | x :: l' => o ← sys_step x; os ← sys_run l'; mret (o :: os) end.

(** The second buffer is used first. *)
Example virtqueue_out_of_order :
  wp (on_q (vring_init_virtqueue 0 4 0 0 0 0);;
      sys_run [Add 0x5000 10; Add 0x6000 20; Take; Take; Use 1 20; Get; Add 0x7000 30; Take; Use 1 5; Get])
    (λ os _, os = [OAdd 0; OAdd 0; OTake 0 0x5000 10; OTake 1 0x6000 20; OUse; OGet 0x6000 20; OAdd 0;
                   OTake 1 0x7000 30; OUse; OGet 0x7000 5]) (Sys vq_start 0).
Proof. by vm_compute. Qed.

(** [virtqueue_get_buf] does not look at the used index: before the device has
    used anything it returns the buffer with the head 0, of length 0. *)
Example get_buf_too_early :
  wp (on_q (vring_init_virtqueue 0 4 0 0 0 0);; sys_run [Add 0x5000 10; Get])
    (λ os _, os = [OAdd 0; OGet 0x5000 0]) (Sys vq_start 0).
Proof. by vm_compute. Qed.
