(* ===== verification/DeviceTree.v ===== *)
(** * The device tree: lib/devicetree.c, devicetree.h

    The tree itself is read through libfdt, which is an interface here: a node
    is its offset, a property is the list of its bytes, and a negative number is
    an error of libfdt.  A function that can fail returns [inl] of its return
    code or [inr] of what it stores.  A cell beyond the end of a property is
    undefined.  [fdt] is the pointer [dt_init] has stored. *)

From S2P Require Import Prelude.

Definition FDT_ERR_NOTFOUND : Z := 1.

Class Fdt := {
  fdt_check_header : Z → Z;
  fdt_path_offset : Z → string → Z;
  fdt_get_property : Z → Z → string → Z + list Z;     (* the negative length, or the data *)
  fdt_parent_offset : Z → Z → Z;
  fdt_node_offset_by_compatible : Z → Z → string → Z;
  fdt_node_offset_by_prop_value : Z → Z → string → list Z → Z;
  fdt_first_subnode : Z → Z → Z;
  fdt_next_subnode : Z → Z → Z;
}.

(** The bytes of a string with its terminator, and the string in a property. *)
Definition zstring (s : string) : list Z :=
  ((λ a, Z.of_nat (Ascii.nat_of_ascii a)) <$> String.list_ascii_of_string s) ++ [0].
Fixpoint prop_string (data : list Z) : string :=
  match data with
  | [] => EmptyString
  | b :: l => if b =? 0 then EmptyString else String (Ascii.ascii_of_nat (Z.to_nat b)) (prop_string l)
  end.

(** [fdt32_to_cpu]: cells are big endian. *)
Definition be32 (l : list Z) : Z := foldl (λ acc b, acc * 2 ^ 8 + b) 0 l.

(** A "reg" tuple of the processor bus. *)
Record dt_pbus_reg := PReg { addr : Z; size : Z }.
Record dt_reg := DReg { nr_address_cells : Z; nr_size_cells : Z; address_cells : list Z; size_cells : list Z }.
Definition MAX_CELLS : Z := 4.

Record dt_device := DDev { fdtnode : Z; info : Z }.

Section Dt.
Context {F : Fdt} {St : Type} (fdt : Z) (fuel : nat).
#[local] Abbreviation dprog := (prog St).

Definition dt_available : bool := fdt_check_header fdt =? 0.

(** [fdt32_to_cpu(data[i])] *)
Definition cell (data : list Z) (i : Z) : dprog Z :=
  let c := take 4 (drop (Z.to_nat (4 * i)) data) in
  if (0 <=? i) && (length c =? 4) then mret (be32 c) else stop_with Undef.

Definition dt_get_nr_cells (node : Z) : dprog (Z + Z * Z) :=
  match fdt_get_property fdt node "#address-cells" with
  | inl len => mret (inl len)
  | inr data =>
      nac ← cell data 0;
      match fdt_get_property fdt node "#size-cells" with
      | inl len => mret (inl len)
      | inr data => nsc ← cell data 0; mret (inr (nac, nsc))
      end
  end.

Definition dt_reg_init (nac nsc : Z) : dt_reg := DReg nac nsc (replicate 4 0) (replicate 4 0).

(** [for (i = 0; i < n; ++i) dst[i] = fdt32_to_cpu(cells[start + i]);] into an
    array of four cells *)
Definition copy_cells (data : list Z) (start n : Z) (dst : list Z) : dprog (list Z) :=
  if MAX_CELLS <? n then stop_with Undef
  else for_up (Z.to_nat n) 0 (λ i dst, c ← cell data (start + i); mret (<[Z.to_nat i := c]> dst)) dst.

Definition dt_get_reg (node regidx : Z) (reg : dt_reg) : dprog (Z + dt_reg) :=
  match fdt_get_property fdt node "reg" with
  | inl len => mret (inl len)
  | inr data =>
      let nr_tuple_cells := u32 (nr_address_cells reg + nr_size_cells reg) in
      let regidx := s32 (regidx * nr_tuple_cells) in
      if Z.of_nat (length data) / 4 <? u32 (regidx + nr_tuple_cells) then mret (inl (- FDT_ERR_NOTFOUND))
      else
        ac ← copy_cells data regidx (nr_address_cells reg) (address_cells reg);
        let regidx := s32 (regidx + nr_address_cells reg) in
        sc ← copy_cells data regidx (nr_size_cells reg) (size_cells reg);
        mret (inr (DReg (nr_address_cells reg) (nr_size_cells reg) ac sc))
  end.

Definition dt_pbus_read_cells (nr_cells : Z) (cells : list Z) : Z :=
  if nr_cells =? 1 then nth 0 cells 0
  else if nr_cells =? 2 then Z.lor (Z.shiftl (nth 0 cells 0) 32) (nth 1 cells 0)
  else u64 (Z.lnot 0).

Definition dt_pbus_translate_node (node regidx : Z) : dprog (Z + dt_pbus_reg) :=
  let parent := fdt_parent_offset fdt node in
  if parent <? 0 then mret (inl parent)
  else
    r ← dt_get_nr_cells parent;
    match r with
    | inl ret => mret (inl ret)
    | inr (nac, nsc) =>
        r ← dt_get_reg node regidx (dt_reg_init nac nsc);
        match r with
        | inl ret => mret (inl ret)
        | inr raw => mret (inr (PReg (dt_pbus_read_cells (nr_address_cells raw) (address_cells raw))
                                     (dt_pbus_read_cells (nr_size_cells raw) (size_cells raw))))
        end
    end.

Definition dt_pbus_translate (dev : dt_device) (regidx : Z) : dprog (Z + dt_pbus_reg) :=
  dt_pbus_translate_node (fdtnode dev) regidx.
Definition dt_pbus_get_base (dev : dt_device) : dprog (Z + dt_pbus_reg) := dt_pbus_translate dev 0.

(** A bus as its two functions; [match] may change the device. *)
Record dt_bus := DBus {
  bus_match : dt_device → Z → dprog (dt_device * Z);
  bus_translate : dt_device → Z → dprog (Z + dt_pbus_reg);
}.

Definition dt_bus_match_any (dev : dt_device) (node : Z) : dprog (dt_device * Z) :=
  mret (dev, if node <? 0 then node else 1).

Definition dt_bus_init_defaults : dt_bus := DBus dt_bus_match_any dt_pbus_translate.
Definition dt_device_init (info : Z) : dt_device := DDev 0 info.
Definition dt_device_bind_node (dev : dt_device) (node : Z) : dt_device := DDev node (info dev).

(** The node found, or a negative error, and the device after the calls of [match]. *)
Definition dt_device_find_compatible (bus : dt_bus) (dev : dt_device) (compatible : string) : dprog (dt_device * Z) :=
  iter fuel (λ '(dev, node),
    if node <? 0 then mret (inr (dev, node))
    else
      '(dev, ret) ← bus_match bus dev node;
      if ret <? 0 then mret (inr (dev, ret))
      else if negb (ret =? 0) then mret (inr (dev, node))
      else mret (inl (dev, fdt_node_offset_by_compatible fdt node compatible)))
    (dev, fdt_node_offset_by_compatible fdt (-1) compatible).

Definition dt_pbus_get_base_compatible (compatible : string) : dprog (Z + dt_pbus_reg) :=
  '(dev, node) ← dt_device_find_compatible dt_bus_init_defaults (dt_device_init 0) compatible;
  if node <? 0 then mret (inl node)
  else dt_pbus_get_base (dt_device_bind_node dev node).

(** [while (nr < nr_regs)]: [regs] are the entries stored so far; [Some ret] is
    an error. *)
Fixpoint node_regs (n : nat) (node reg_idx nr_regs : Z) (regs : list dt_pbus_reg)
    : dprog (option Z * list dt_pbus_reg) :=
  match n with
  | O => stop_with NoFuel
  | S n' =>
      if Z.of_nat (length regs) <? nr_regs then
        r ← dt_pbus_translate_node node reg_idx;
        match r with
        | inl ret =>
            if ret =? - FDT_ERR_NOTFOUND then mret (None, regs)
            else if ret <? 0 then mret (Some ret, regs) else stop_with Undef
        | inr reg => node_regs n' node (reg_idx + 1) nr_regs (regs ++ [reg])
        end
      else mret (None, regs)
  end.

Definition memory_node (node : Z) : Z := fdt_node_offset_by_prop_value fdt node "device_type" (zstring "memory").

Definition dt_get_memory_params (nr_regs : Z) : dprog (Z * list dt_pbus_reg) :=
  iter fuel (λ '(node, regs),
    if node <? 0 then
      mret (inr (if negb (node =? - FDT_ERR_NOTFOUND) then node else Z.of_nat (length regs), regs))
    else
      '(ret, regs) ← node_regs (S (Z.to_nat nr_regs)) node 0 nr_regs regs;
      match ret with
      | Some ret => mret (inr (ret, regs))
      | None => mret (inl (memory_node node, regs))
      end) (memory_node (-1), []).

Definition dt_for_each_cpu_node (func : Z → Z → dprog unit) : dprog Z :=
  let cpus := fdt_path_offset fdt "/cpus" in
  if cpus <? 0 then mret cpus
  else
    r ← dt_get_nr_cells cpus;
    match r with
    | inl ret => if ret <? 0 then mret ret else stop_with Undef
    | inr (nac, nsc) =>
        iter fuel (λ '(cpu, raw_reg),
          if cpu =? - FDT_ERR_NOTFOUND then mret (inr 0)
          else
            match fdt_get_property fdt cpu "device_type" with
            | inl len => mret (inr len)
            | inr data =>
                if bool_decide (data = zstring "cpu") then
                  r ← dt_get_reg cpu 0 raw_reg;
                  match r with
                  | inl ret => if ret <? 0 then mret (inr ret) else stop_with Undef
                  | inr raw =>
                      let regval := nth 0 (address_cells raw) 0 in
                      let regval := if nac =? 2 then Z.lor (u64 (Z.shiftl regval 32)) (nth 1 (address_cells raw) 0)
                                    else regval in
                      func cpu regval;;
                      mret (inl (fdt_next_subnode fdt cpu, raw))
                  end
                else mret (inl (fdt_next_subnode fdt cpu, raw_reg))
            end) (fdt_first_subnode fdt cpus, dt_reg_init nac nsc)
    end.

Definition dt_get_bootargs : Z + list Z :=
  let node := fdt_path_offset fdt "/chosen" in
  if node <? 0 then inl node else fdt_get_property fdt node "bootargs".

Definition dt_get_default_console_node : Z :=
  let node := fdt_path_offset fdt "/chosen" in
  if node <? 0 then node
  else
    match fdt_get_property fdt node "stdout-path" with
    | inr data => fdt_path_offset fdt (prop_string data)
    | inl _ =>
        match fdt_get_property fdt node "linux,stdout-path" with
        | inr data => fdt_path_offset fdt (prop_string data)
        | inl len => len
        end
    end.

Definition dt_get_initrd : dprog (Z + Z * Z) :=
  let node := fdt_path_offset fdt "/chosen" in
  if node <? 0 then mret (inl node)
  else
    match fdt_get_property fdt node "linux,initrd-start" with
    | inl len => mret (inl len)
    | inr data =>
        start ← cell data 0;
        match fdt_get_property fdt node "linux,initrd-end" with
        | inl len => assert (negb (len =? - FDT_ERR_NOTFOUND));; mret (inl len)
        | inr data => end_ ← cell data 0; mret (inr (start, u32 (end_ - start)))
        end
    end.

(** The pointer to store, or an error. *)
Definition dt_init (fdt_ptr : Z) : Z + Z :=
  let ret := fdt_check_header fdt_ptr in
  if ret <? 0 then inl ret
  else
    let ret := fdt_path_offset fdt_ptr "/" in
    if ret <? 0 then inl ret else inr fdt_ptr.
End Dt.

(** ** What a tree says about the memory *)

(** The big-endian bytes of a cell, and a number of one or two cells. *)
Definition be_bytes (v : Z) : list Z := [v / 2 ^ 24; v / 2 ^ 16 mod 2 ^ 8; v / 2 ^ 8 mod 2 ^ 8; v mod 2 ^ 8].
Definition enc_cells (n v : Z) : list Z :=
  if n =? 1 then be_bytes v else be_bytes (v / 2 ^ 32) ++ be_bytes (v mod 2 ^ 32).
Definition enc_reg (nac nsc : Z) (r : dt_pbus_reg) : list Z := enc_cells nac (addr r) ++ enc_cells nsc (size r).

Definition cells_ok (n : Z) : Prop := n = 1 ∨ n = 2.
Definition reg_ok (nac nsc : Z) (r : dt_pbus_reg) : Prop :=
  0 <= addr r < 2 ^ (32 * nac) ∧ 0 <= size r < 2 ^ (32 * nsc).

Lemma be32_bytes v : 0 <= v < 2 ^ 32 → be32 (be_bytes v) = v.
Proof. intros. cbn. Z.div_mod_to_equations. lia. Qed.

Lemma enc_cells_length n v : cells_ok n → Z.of_nat (length (enc_cells n v)) = 4 * n.
Proof. by intros [-> | ->]. Qed.

Section Memory.
Context {F : Fdt} {St : Type} (fdt : Z).
#[local] Abbreviation dprog := (prog St).

Lemma cell_wp pre v post i (Q : Z → St → Prop) s :
  0 <= v < 2 ^ 32 → Z.of_nat (length pre) = 4 * i → Q v s → wp (cell (pre ++ be_bytes v ++ post) i) Q s.
Proof.
  intros Hv Hp HQ. unfold cell. cbn zeta. rewrite drop_app_ge by lia.
  replace (Z.to_nat (4 * i) - length pre)%nat with 0%nat by lia. rewrite drop_0.
  rewrite take_app_le by (cbn; lia). rewrite take_ge by (cbn; lia).
  destruct (Z.leb_spec 0 i); [|lia]. cbn [andb].
  change (length (be_bytes v) =? 4) with true. cbv iota. apply wp_ret. by rewrite be32_bytes.
Qed.

(** Reading a number of one or two cells into a cleared array. *)
Lemma copy_cells_wp pre n v post i (Q : list Z → St → Prop) s :
  cells_ok n → 0 <= v < 2 ^ (32 * n) → Z.of_nat (length pre) = 4 * i →
  (∀ cells, dt_pbus_read_cells n cells = v → Q cells s) →
  wp (copy_cells (pre ++ enc_cells n v ++ post) i n (replicate 4 0)) Q s.
Proof.
  intros [-> | ->] Hv Hp HQ; unfold copy_cells, enc_cells; cbn -[cell be_bytes Z.pow Z.div Z.modulo].
  - change (Z.to_nat 1) with 1%nat. cbn [for_up]. wstep. wstep. rewrite Z.add_0_r. apply cell_wp; [lia|done|].
    wsteps. by apply HQ.
  - assert (0 <= v / 2 ^ 32 < 2 ^ 32 ∧ 0 <= v mod 2 ^ 32 < 2 ^ 32) as [H1 H2] by (Z.div_mod_to_equations; lia).
    change (Z.to_nat 2) with 2%nat. cbn [for_up]. rewrite <- !app_assoc. wstep. wstep. rewrite Z.add_0_r. apply cell_wp; [done|done|]. wstep. wstep. wstep.
    rewrite (app_assoc pre). apply cell_wp; [done|rewrite length_app; cbn [length be_bytes]; lia|]. wsteps. apply HQ. 
    change (Z.lor (Z.shiftl (v / 2 ^ 32) 32) (v mod 2 ^ 32) = v).
    rewrite Z.shiftl_mul_pow2, lor_add by lia. Z.div_mod_to_equations. lia.
Qed.

(** A node with the "reg" entries [regs], and its parent. *)
Record memory_at (node : Z) (regs : list dt_pbus_reg) (nac nsc : Z) : Prop := {
  ma_parent : 0 <= fdt_parent_offset fdt node;
  ma_nac : fdt_get_property fdt (fdt_parent_offset fdt node) "#address-cells" = inr (be_bytes nac);
  ma_nsc : fdt_get_property fdt (fdt_parent_offset fdt node) "#size-cells" = inr (be_bytes nsc);
  ma_cells : cells_ok nac ∧ cells_ok nsc;
  ma_reg : fdt_get_property fdt node "reg" = inr (concat (enc_reg nac nsc <$> regs));
  ma_regs : Forall (reg_ok nac nsc) regs;
  ma_len : length regs < 2 ^ 16;
}.

Lemma cell0_wp v (Q : Z → St → Prop) s : 0 <= v < 2 ^ 32 → Q v s → wp (cell (be_bytes v) 0) Q s.
Proof. intros Hv HQ. rewrite <- (app_nil_r (be_bytes v)). by apply (cell_wp []). Qed.

Lemma regs_length nac nsc regs : cells_ok nac → cells_ok nsc →
  Z.of_nat (length (concat (enc_reg nac nsc <$> regs))) = 4 * (nac + nsc) * length regs.
Proof.
  intros H1 H2. induction regs as [|r regs IH]; cbn [fmap list_fmap concat length]; [cbn; lia|].
  unfold enc_reg at 1. rewrite !length_app, !Nat2Z.inj_add, IH, !enc_cells_length by done. lia.
Qed.

Lemma translate_wp node regs nac nsc (i : nat) (Q : Z + dt_pbus_reg → St → Prop) s :
  memory_at node regs nac nsc → (i <= length regs)%nat →
  Q (match regs !! i with Some r => inr r | None => inl (- FDT_ERR_NOTFOUND) end) s →
  wp (dt_pbus_translate_node fdt node i) Q s.
Proof.
  intros [Hp Hna Hns [Ca Cs] Hreg Hok Hlen] Hi HQ. unfold dt_pbus_translate_node, dt_get_nr_cells.
  assert (0 <= nac < 2 ^ 32 ∧ 0 <= nsc < 2 ^ 32 ∧ 2 <= nac + nsc <= 4) as (Ra & Rs & Ras) by (destruct Ca, Cs; subst; lia).
  destruct (Z.ltb_spec (fdt_parent_offset fdt node) 0); [lia|]. rewrite Hna. wstep. wstep. apply cell0_wp; [done|].
  rewrite Hns. wstep. apply cell0_wp; [done|]. wstep. unfold dt_get_reg. rewrite Hreg. wstep.
  cbn [dt_reg_init nr_address_cells nr_size_cells address_cells size_cells].
  rewrite regs_length by done. rewrite (wrap_small 32 (nac + nsc)) by lia.
  rewrite (swrap_small 32 (i * (nac + nsc))) by nia. rewrite (wrap_small 32 (i * (nac + nsc) + _)) by nia.
  assert (4 * (nac + nsc) * length regs / 4 = (nac + nsc) * length regs) as ->
    by (replace (4 * (nac + nsc) * length regs) with ((nac + nsc) * length regs * 4) by lia; by apply Z.div_mul).
  destruct (regs !! i) as [r|] eqn:Hr.
  - pose proof (lookup_lt_Some _ _ _ Hr) as Hlt. destruct (Z.ltb_spec ((nac + nsc) * length regs) (i * (nac + nsc) + (nac + nsc))); [nia|].
    assert (reg_ok nac nsc r) as [Hra Hrs] by (by eapply Forall_lookup_1).
    set (pre := concat (enc_reg nac nsc <$> take i regs)). set (post := concat (enc_reg nac nsc <$> drop (S i) regs)).
    assert (Z.of_nat (length pre) = 4 * (i * (nac + nsc))) as Epre.
    { unfold pre. rewrite regs_length, length_take_le by (done || lia). lia. }
    assert (concat (enc_reg nac nsc <$> regs) = pre ++ enc_cells nac (addr r) ++ enc_cells nsc (size r) ++ post) as ->.
    { rewrite <- (take_drop_middle _ _ _ Hr) at 1. rewrite fmap_app, concat_app. cbn. unfold enc_reg at 2. by rewrite <- !app_assoc. }
    wstep. apply copy_cells_wp; [done|done|done|]. intros ac Hac. wstep. rewrite app_assoc.
    rewrite swrap_small by nia. apply copy_cells_wp; [done|done| |].
    { rewrite length_app, Nat2Z.inj_add, enc_cells_length by done. lia. }
    intros sc Hsc. wstep. wstep. cbn [nr_address_cells nr_size_cells address_cells size_cells]. rewrite Hac, Hsc.
    by destruct r.
  - apply lookup_ge_None in Hr. destruct (Z.ltb_spec ((nac + nsc) * length regs) (i * (nac + nsc) + (nac + nsc))); [|nia].
    wsteps. exact HQ.
Qed.

Lemma node_regs_wp n node regs nac nsc (i : nat) nr acc (s : St) :
  memory_at node regs nac nsc → (i <= length regs)%nat → Z.of_nat (length acc) <= nr →
  nr - length acc < Z.of_nat n →
  wp (node_regs fdt n node i nr acc)
    (λ (r : option Z * list dt_pbus_reg) s', r = (None, acc ++ take (Z.to_nat (nr - length acc)) (drop i regs)) ∧ s' = s) s.
Proof.
  intros Hn. revert i acc. induction n as [|n IH]; intros i acc Hi Hacc Hf; [lia|]. cbn [node_regs].
  destruct (Z.ltb_spec (length acc) nr) as [Hlt|Hge].
  - wstep. eapply translate_wp; [done|done|]. destruct (regs !! i) as [r|] eqn:Hr.
    + pose proof (lookup_lt_Some _ _ _ Hr). replace (i + 1) with (Z.of_nat (S i)) by lia.
      eapply wp_mono; [apply IH; [lia|rewrite length_app; cbn; lia|rewrite length_app; cbn; lia]|].
      intros res s' [-> ->]. split; [|done]. rewrite <- app_assoc. do 2 f_equal.
      rewrite (drop_S _ _ _ Hr). rewrite length_app. cbn [length].
      replace (Z.to_nat (nr - length acc)) with (S (Z.to_nat (nr - (length acc + 1)%nat))) by lia. done.
    + apply lookup_ge_None in Hr. change (- FDT_ERR_NOTFOUND =? - FDT_ERR_NOTFOUND) with true. cbv iota. wstep.
      rewrite drop_ge by lia. by rewrite take_nil, app_nil_r.
  - wstep. replace (Z.to_nat (nr - length acc)) with 0%nat by lia. by rewrite app_nil_r.
Qed.

(** The memory nodes after [start], with their entries. *)
Inductive memory_nodes (start : Z) : list (list dt_pbus_reg) → Prop :=
| nodes_end : memory_node fdt start = - FDT_ERR_NOTFOUND → memory_nodes start []
| nodes_next regs nac nsc l :
    0 <= memory_node fdt start → memory_at (memory_node fdt start) regs nac nsc →
    memory_nodes (memory_node fdt start) l → memory_nodes start (regs :: l).

Lemma memory_loop l start nr acc fuel (s : St) :
  memory_nodes start l → (length l < fuel)%nat → Z.of_nat (length acc) <= nr →
  wp (iter fuel (λ '(node, regs),
        if node <? 0 then
          mret (inr (if negb (node =? - FDT_ERR_NOTFOUND) then node else Z.of_nat (length regs), regs))
        else
          '(ret, regs) ← node_regs fdt (S (Z.to_nat nr)) node 0 nr regs;
          match ret with
          | Some ret => mret (inr (ret, regs))
          | None => mret (inl (memory_node fdt node, regs))
          end) (memory_node fdt start, acc))
    (λ '((ret, regs) : Z * list dt_pbus_reg) s',
       regs = take (Z.to_nat nr) (acc ++ concat l) ∧ ret = Z.of_nat (length regs) ∧ s' = s) s.
Proof.
  intros Hl. revert acc fuel. induction Hl as [start He|start regs nac nsc l Hn Hm Hl IH]; intros acc [|fuel] Hf Hacc; cbn in Hf; try lia.
  - cbn [iter]. wstep. rewrite He. cbn. unfold wp. cbn. rewrite app_nil_r, take_ge by lia. done.
  - cbn [iter]. wstep. destruct (Z.ltb_spec (memory_node fdt start) 0); [lia|]. wstep.
    eapply wp_mono; [apply (node_regs_wp _ _ regs nac nsc 0%nat); [done|lia|done|lia]|].
    intros r s' [-> ->]. wstep. eapply wp_mono; [apply IH; [lia|]|].
    { rewrite length_app, length_take. lia. }
    intros [ret rs] s' (-> & -> & ->). split; [|done]. cbn [concat].
    rewrite drop_0, <- app_assoc, !take_app, length_take, take_take.
    f_equal. f_equal; f_equal; lia.
Qed.
End Memory.

(** C27: [dt_get_memory_params] returns the "reg" entries of all memory nodes,
    in the order of the tree, as many as fit, whatever the sizes of the cells of
    their parents are. *)
Theorem dt_get_memory_params_all {F : Fdt} {St} (fdt : Z) (fuel : nat) nr l (s : St) :
  memory_nodes fdt (-1) l → (length l < fuel)%nat → 0 <= nr →
  wp (dt_get_memory_params fdt fuel nr)
    (λ '(ret, regs) s', regs = take (Z.to_nat nr) (concat l) ∧ ret = Z.of_nat (length regs) ∧ s' = s) s.
Proof. intros Hl Hf Hn. by apply (memory_loop fdt l (-1) nr []). Qed.

(** ** A tree to test with

    The root 0 has two address cells and one size cell; the nodes 100 and 200 are
    its memory nodes, with two entries and one. *)
Definition ex_regs0 : list dt_pbus_reg := [PReg 0 0x80000000; PReg 0x100000000 0x40000000].
Definition ex_regs1 : list dt_pbus_reg := [PReg 0x800000000 0x10000].

Definition ex_prop (node : Z) (name : string) : Z + list Z :=
  if (node =? 0) && bool_decide (name = "#address-cells"%string) then inr (be_bytes 2)
  else if (node =? 0) && bool_decide (name = "#size-cells"%string) then inr (be_bytes 1)
  else if (node =? 100) && bool_decide (name = "reg"%string) then inr (concat (enc_reg 2 1 <$> ex_regs0))
  else if (node =? 200) && bool_decide (name = "reg"%string) then inr (concat (enc_reg 2 1 <$> ex_regs1))
  else inl (- FDT_ERR_NOTFOUND).

#[local] Instance ex_fdt : Fdt := {|
  fdt_check_header _ := 0;
  fdt_path_offset _ _ := 0;
  fdt_get_property _ := ex_prop;
  fdt_parent_offset _ node := if node =? 0 then - FDT_ERR_NOTFOUND else 0;
  fdt_node_offset_by_compatible _ _ _ := - FDT_ERR_NOTFOUND;
  fdt_node_offset_by_prop_value _ start _ _ :=
    if start <? 100 then 100 else if start <? 200 then 200 else - FDT_ERR_NOTFOUND;
  fdt_first_subnode _ _ := 100;
  fdt_next_subnode _ node := if node =? 100 then 200 else - FDT_ERR_NOTFOUND;
|}.

Lemma ex_memory_nodes : memory_nodes 0x1000 (-1) [ex_regs0; ex_regs1].
Proof.
  apply (nodes_next _ _ _ 2 1); [done| |].
  { split; try done; [by split; [right|left]|repeat (apply Forall_cons; split; [split; cbn; lia|]); apply Forall_nil_2]. }
  apply (nodes_next _ _ _ 2 1); [done| |by apply nodes_end].
  split; try done; [by split; [right|left]|repeat (apply Forall_cons; split; [split; cbn; lia|]); apply Forall_nil_2].
Qed.

Lemma dt_get_memory_params_all_witness :
  wp (dt_get_memory_params 0x1000 3 2) (λ '(ret, regs) _, ret = 2 ∧ regs = ex_regs0) () ∧
  wp (dt_get_memory_params 0x1000 3 8) (λ '(ret, regs) _, ret = 3 ∧ regs = ex_regs0 ++ ex_regs1) ().
Proof.
  split; (eapply wp_mono; [apply (dt_get_memory_params_all 0x1000 3) with (l := [ex_regs0; ex_regs1]);
    [exact ex_memory_nodes|cbn; lia|lia]|]); intros [ret regs] s' (-> & -> & _); done.
Defined.
