(* ===== verification/PciHost.v ===== *)
(** * The generic PCI host bridge: lib/pci-host-generic.c

    The bridge is read from the device tree, hands out PCI addresses for the
    regions of devices, translates PCI addresses, and gives access to the
    configuration space, which is in memory.  The functions of pci.c that the
    probe calls are an interface ([PciLib]), since they go through the accessors
    at the end of this file or those of the file PciConf, depending on the
    build. *)

From S2P Require Import Prelude Bits AllocPhys PciConf Pci DeviceTree.

Record pci_addr_space := Space { pci_start : Z; start : Z; as_size : Z; allocated : Z; as_type : Z }.
Record pci_host_bridge := Host {
  h_start : Z; h_size : Z; bus : Z; bus_max : Z; addr_space : list pci_addr_space
}.

(** The state of the machine and the static pointer [pci_host_bridge]. *)
Record host_state (St : Type) := HState { base : St; host : option pci_host_bridge }.
Arguments HState {St} _ _.
Arguments base {St} _.
Arguments host {St} _.

Class PciLib (St : Type) := {
  pl_dev_exists : Z → prog St bool;
  pl_dev_init : Z → prog St pci_dev;
  pl_bar_size : pci_dev → Z → prog St Z;
  pl_bar_get : pci_dev → Z → prog St Z;
  pl_bar_set_addr : pci_dev → Z → Z → prog St pci_dev;
  pl_bar_is_memory : pci_dev → Z → prog St bool;
  pl_bar_is64 : pci_dev → Z → prog St bool;
  pl_config_readb : Z → Z → prog St Z;
  pl_config_writew : Z → Z → Z → prog St unit;
}.

#[export] Instance conf1_lib {St} {io : PortIO St} : PciLib St := {|
  pl_dev_exists := pci_dev_exists; pl_dev_init := pci_dev_init; pl_bar_size := pci_bar_size;
  pl_bar_get := pci_bar_get; pl_bar_set_addr := pci_bar_set_addr; pl_bar_is_memory := pci_bar_is_memory;
  pl_bar_is64 := pci_bar_is64; pl_config_readb := pci_config_readb; pl_config_writew := pci_config_writew;
|}.

Definition PCI_BASE_ADDRESS_MEM_TYPE_32 : Z := 0x00.
Definition PCI_BASE_ADDRESS_MEM_PREFETCH : Z := 0x08.
Definition PCI_HEADER_TYPE : Z := 0x0e.
Definition PCI_HEADER_TYPE_MASK : Z := 0x7f.
Definition PCI_HEADER_TYPE_NORMAL : Z := 0.
Definition PCI_COMMAND_IO : Z := 0x1.
Definition PCI_COMMAND_MEMORY : Z := 0x2.
Definition PCI_COMMAND_PARITY : Z := 0x40.
Definition PCI_COMMAND_SERR : Z := 0x100.
Definition PCI_ECAM_BUS_SHIFT : Z := 20.
Definition PCI_ECAM_DEVFN_SHIFT : Z := 12.

(** [type_map]: index 0 is excluded by the assertion. *)
Definition of_flags_to_pci_type {St} (of_flags : Z) : prog St Z :=
  let idx := Z.land (Z.shiftr of_flags 24) 0x03 in
  assert (0 <? idx);;
  let res := if idx =? 1 then PCI_BASE_ADDRESS_SPACE_IO
             else if idx =? 2 then PCI_BASE_ADDRESS_MEM_TYPE_32 else PCI_BASE_ADDRESS_MEM_TYPE_64 in
  mret (if bit_set of_flags 0x40000000 then Z.lor res PCI_BASE_ADDRESS_MEM_PREFETCH else res).

Definition pci_bar_type (bar : Z) : Z :=
  if bit_set bar 0x01 then PCI_BASE_ADDRESS_SPACE_IO
  else Z.land bar (Z.lor PCI_BASE_ADDRESS_MEM_TYPE_MASK PCI_BASE_ADDRESS_MEM_PREFETCH).

(** The kind of address space a region needs: a 64-bit one need not be prefetchable. *)
Definition resource_type (bar : Z) : Z :=
  let type := pci_bar_type bar in
  if bit_set type PCI_BASE_ADDRESS_MEM_TYPE_MASK then Z.ldiff type PCI_BASE_ADDRESS_MEM_PREFETCH else type.

Section Probe.
Context {F : Fdt} {St : Type} (fdt : Z) (fuel : nat).

(** [((u64)fdt32_to_cpu(data[i]) << 32) | fdt32_to_cpu(data[i + 1])] *)
Definition cell64 (data : list Z) (i : Z) : prog St Z :=
  hi ← cell data i; lo ← cell data (i + 1); mret (Z.lor (u64 (Z.shiftl hi 32)) lo).

(** One entry of "ranges", from cell [i] on, with [n] cells; [alloc0] is what
    [malloc] leaves in [allocated], which is not initialised. *)
Definition range_space (data : list Z) (i n alloc0 : Z) : prog St pci_addr_space :=
  flags ← cell data i;
  type ← of_flags_to_pci_type flags;
  pci ← cell64 data (i + 1);
  if n =? 6 then
    start ← cell data (i + 3); size ← cell64 data (i + 4); mret (Space pci start size alloc0 type)
  else
    start ← cell64 data (i + 3); size ← cell64 data (i + 5); mret (Space pci start size alloc0 type).

Definition bus_range (node : Z) : prog St (Z * Z) :=
  match fdt_get_property fdt node "bus-range" with
  | inl len => assert (len =? - FDT_ERR_NOTFOUND);; mret (0x00, 0xff)
  | inr data => b ← cell data 0; m ← cell data 1; assert (b <=? m);; mret (b, m)
  end.

Definition pci_dt_probe (alloc0 : Z → Z) : prog St (option pci_host_bridge) :=
  if negb (dt_available fdt) then mret None
  else
    let node := fdt_path_offset fdt "/" in
    assert (0 <=? node);;
    r ← dt_get_nr_cells fdt node;
    match r with
    | inl ret => stop_with (if ret =? 0 then Undef else Halt)
    | inr (nac_root, _) =>
        assert ((nac_root =? 1) || (nac_root =? 2));;
        let node := fdt_node_offset_by_compatible fdt node "pci-host-ecam-generic" in
        if node =? - FDT_ERR_NOTFOUND then mret None
        else
          assert (0 <=? node);;
          assert (match fdt_get_property fdt node "device_type" with
                  | inr data => bool_decide (data = zstring "pci") | inl _ => false end);;
          b ← dt_pbus_get_base fdt (dt_device_bind_node (dt_device_init 0) node);
          match b with
          | inl ret => stop_with (if ret =? 0 then Undef else Halt)
          | inr base =>
              '(bus, bus_max) ← bus_range node;
              assert (bus_max <? DeviceTree.size base / 2 ^ PCI_ECAM_BUS_SHIFT);;
              r ← dt_get_nr_cells fdt node;
              match r with
              | inl ret => stop_with (if ret =? 0 then Undef else Halt)
              | inr (nac, nsc) =>
                  assert ((nac =? 3) && (nsc =? 2));;
                  match fdt_get_property fdt node "ranges" with
                  | inl _ => stop_with Halt
                  | inr data =>
                      let nr_range_cells := nac + nsc + nac_root in
                      let nr_addr_spaces := Z.of_nat (length data) / 4 / nr_range_cells in
                      assert (negb (nr_addr_spaces =? 0));;
                      spaces ← for_up (Z.to_nat nr_addr_spaces) 0 (λ i l,
                        as_ ← range_space data (i * nr_range_cells) nr_range_cells (alloc0 i); mret (l ++ [as_])) [];
                      mret (Some (Host (DeviceTree.addr base) (DeviceTree.size base) bus bus_max spaces))
                  end
              end
          end
    end.
End Probe.

Section Host.
Context {St : Type} {lib : PciLib St}.
#[local] Abbreviation hprog := (prog (host_state St)).

Definition on_base {A} (m : prog St A) : hprog A := zoom base (λ b s, HState b (host s)) m.

(** A null [pci_host_bridge] is not to be followed. *)
Definition get_host : hprog pci_host_bridge :=
  h ← gets host; match h with Some h => mret h | None => stop_with Undef end.

(** The first address space of the type. *)
Fixpoint find_space (type : Z) (l : list pci_addr_space) : option (nat * pci_addr_space) :=
  match l with
  | [] => None
  | s :: l' => if as_type s =? type then Some (O, s) else '(i, s') ← find_space type l'; Some (S i, s')
  end.

Definition with_allocated (n : Z) (s : pci_addr_space) : pci_addr_space :=
  Space (pci_start s) (start s) (as_size s) n (as_type s).
Definition with_spaces (l : list pci_addr_space) (h : pci_host_bridge) : pci_host_bridge :=
  Host (h_start h) (h_size h) (bus h) (bus_max h) l.

(** The result and [*addr]. *)
Definition pci_alloc_resource (dev : pci_dev) (bar_num : Z) : hprog (bool * Z) :=
  h ← get_host;
  size ← on_base (pl_bar_size dev bar_num);
  if size =? 0 then mret (false, INVALID_PHYS_ADDR)
  else
    bar ← on_base (pl_bar_get dev bar_num);
    match find_space (resource_type bar) (addr_space h) with
    | None => mret (false, INVALID_PHYS_ADDR)
    | Some (i, as_) =>
        let cur := u64 (pci_start as_ + allocated as_) in
        let pci_addr := ALIGN cur size in
        let size := u64 (size + (pci_addr - cur)) in
        assert (u64 (allocated as_ + size) <=? as_size as_);;
        modify (λ s, HState (base s)
          (Some (with_spaces (<[i := with_allocated (u64 (allocated as_ + size)) as_]> (addr_space h)) h)));;
        mret (true, pci_addr)
    end.

(** [for (i = 0; i < PCI_BAR_NUM; i++)] with the skip after a 64-bit region *)
Fixpoint probe_bars (n : nat) (dev : pci_dev) (i cmd : Z) : hprog (pci_dev * Z) :=
  match n with
  | O => mret (dev, cmd)
  | S n' =>
      if i <? PCI_BAR_NUM then
        '(ok, addr) ← pci_alloc_resource dev i;
        '(dev, cmd) ← (if (ok : bool) then
                         dev ← on_base (pl_bar_set_addr dev i addr);
                         m ← on_base (pl_bar_is_memory dev i);
                         mret (dev, Z.lor cmd (if (m : bool) then PCI_COMMAND_MEMORY else PCI_COMMAND_IO))
                       else mret (dev, cmd));
        is64 ← on_base (pl_bar_is64 dev i);
        probe_bars n' dev (if (is64 : bool) then i + 2 else i + 1) cmd
      else mret (dev, cmd)
  end.

Definition probe_dev (dev : Z) (_ : unit) : hprog unit :=
  exists_ ← on_base (pl_dev_exists dev);
  if negb exists_ then mret ()
  else
    pci_dev ← on_base (pl_dev_init dev);
    header ← on_base (pl_config_readb dev PCI_HEADER_TYPE);
    if negb (Z.land header PCI_HEADER_TYPE_MASK =? PCI_HEADER_TYPE_NORMAL) then mret ()
    else
      '(_, cmd) ← probe_bars 6 pci_dev 0 (Z.lor PCI_COMMAND_SERR PCI_COMMAND_PARITY);
      on_base (pl_config_writew dev PCI_COMMAND cmd).

Definition pci_probe {F : Fdt} (fdt : Z) (fuel : nat) (alloc0 : Z → Z) : hprog bool :=
  h ← gets host;
  assert (bool_decide (h = None));;
  h ← on_base (pci_dt_probe fdt alloc0);
  modify (λ s, HState (base s) h);;
  match h with
  | None => mret false
  | Some _ => for_up PCI_DEVFN_MAX 0 probe_dev ();; mret true
  end.

Fixpoint paddr_from (l : list pci_addr_space) (pci_addr : Z) : Z :=
  match l with
  | [] => INVALID_PHYS_ADDR
  | s :: l' =>
      if (pci_start s <=? pci_addr) && (pci_addr <? u64 (pci_start s + as_size s))
      then u64 (start s + (pci_addr - pci_start s))
      else paddr_from l' pci_addr
  end.
Definition pci_host_bridge_get_paddr (pci_addr : Z) : hprog Z :=
  h ← get_host; mret (paddr_from (addr_space h) pci_addr).

(** *** The configuration space in memory *)

Definition pci_get_dev_conf (h : pci_host_bridge) (devfn : Z) : Z :=
  h_start h + Z.shiftl devfn PCI_ECAM_DEVFN_SHIFT.

Context {io : PortIO St}.
Definition ecam_read (n : nat) (dev off : Z) : hprog Z :=
  h ← get_host; on_base (mm_read n (pci_get_dev_conf h dev + off)).
Definition ecam_write (n : nat) (dev off val : Z) : hprog unit :=
  h ← get_host; on_base (mm_write n (wrap (8 * n) val) (pci_get_dev_conf h dev + off)).
Definition ecam_readb := ecam_read 1.
Definition ecam_readw := ecam_read 2.
Definition ecam_readl := ecam_read 4.
Definition ecam_writeb := ecam_write 1.
Definition ecam_writew := ecam_write 2.
Definition ecam_writel := ecam_write 4.
End Host.

(** ** Handing out addresses *)

Lemma find_space_spec ty l i s : find_space ty l = Some (i, s) → l !! i = Some s ∧ as_type s = ty.
Proof.
  revert i s. induction l as [|x l IH]; intros i s; cbn; [done|].
  destruct (Z.eqb_spec (as_type x) ty); [by intros [= <- <-]|].
  destruct (find_space ty l) as [[j y]|]; cbn; [|done]. intros [= <- <-]. by apply IH.
Qed.

Lemma find_space_insert ty ty' l i s n :
  find_space ty l = Some (i, s) →
  find_space ty' (<[i := with_allocated n s]> l) =
    if ty' =? ty then Some (i, with_allocated n s) else find_space ty' l.
Proof.
  revert i s. induction l as [|x l IH]; intros i s; cbn; [done|].
  destruct (Z.eqb_spec (as_type x) ty) as [<-|Hne].
  - intros [= <- <-]. cbn. rewrite (Z.eqb_sym (as_type x)). by destruct (Z.eqb_spec ty' (as_type x)).
  - destruct (find_space ty l) as [[j y]|] eqn:E; cbn; [|done]. intros [= <- <-].
    change (<[S j := with_allocated n y]> (x :: l)) with (x :: <[j := with_allocated n y]> l). cbn [find_space].
    rewrite (IH j y eq_refl).
    destruct (Z.eqb_spec (as_type x) ty'), (Z.eqb_spec ty' ty); cbn; try done; congruence.
Qed.

Section Windows.
Context {St : Type} {lib : PciLib St}.
#[local] Abbreviation hprog := (prog (host_state St)).
(** The sizes and kinds of the regions of the devices. *)
Context (sz ty : pci_dev → Z → Z).
Context (Hsize : ∀ d n s, wp (pl_bar_size d n) (λ r _, r = sz d n) s).
Context (Hget : ∀ d n s, wp (pl_bar_get d n) (λ r _, resource_type r = ty d n) s).
Context (Hsz : ∀ d n, sz d n = 0 ∨ ∃ j, 0 <= j <= 62 ∧ sz d n = 2 ^ j).

Fixpoint alloc_all (l : list (pci_dev * Z)) : hprog (list (bool * Z)) :=
  match l with
  | [] => mret []
  | (d, n) :: l' => r ← pci_alloc_resource d n; rs ← alloc_all l'; mret (r :: rs)
  end.

(** What the regions of a kind can need: each at most twice its size. *)
Fixpoint demand (k : Z) (l : list (pci_dev * Z)) : Z :=
  match l with [] => 0 | (d, n) :: l' => (if ty d n =? k then 2 * sz d n else 0) + demand k l' end.

Definition enough (l : list (pci_dev * Z)) (spaces : list pci_addr_space) : Prop :=
  ∀ k i s, find_space k spaces = Some (i, s) →
    0 <= pci_start s ∧ 0 <= allocated s ∧ allocated s + demand k l <= as_size s ∧ pci_start s + as_size s <= 2 ^ 63.

(** The blocks granted, with their kinds and sizes. *)
Definition grant (x : (pci_dev * Z) * (bool * Z)) : option (Z * Z * Z) :=
  let '((d, n), (ok, a)) := x in if ok then Some (ty d n, a, sz d n) else None.
Definition grants (l : list (pci_dev * Z)) (rs : list (bool * Z)) : list (Z * Z * Z) := omap grant (zip l rs).

(** A block lies in what is left of the first space of its kind. *)
Definition in_space (spaces : list pci_addr_space) (b : Z * Z * Z) : Prop :=
  let '(k, a, n) := b in ∃ i s, find_space k spaces = Some (i, s) ∧
    a mod n = 0 ∧ pci_start s + allocated s <= a ∧ a + n <= pci_start s + as_size s.

(** Blocks of one kind are handed out in ascending order, without overlap. *)
Fixpoint ascending (l : list (Z * Z * Z)) : Prop :=
  match l with
  | [] => True
  | (k, a, n) :: l' => (∀ b m, (k, b, m) ∈ l' → a + n <= b) ∧ ascending l'
  end.

(** Only regions that are not there or that no space is for are refused. *)
Definition refused (spaces : list pci_addr_space) (x : pci_dev * Z) : Prop :=
  sz x.1 x.2 = 0 ∨ find_space (ty x.1 x.2) spaces = None.

Lemma demand_nonneg k l : 0 <= demand k l.
Proof using Hsz.
  induction l as [|[d n] l IH]; cbn; [done|]. destruct (Hsz d n) as [E|(j & Hj & E)]; rewrite E; [destruct (_ =? k); lia|].
  pose proof (Z.pow_nonneg 2 j). destruct (_ =? k); lia.
Qed.

Lemma alloc_wp d n l s h :
  host s = Some h → enough ((d, n) :: l) (addr_space h) →
  wp (pci_alloc_resource d n) (λ '(ok, a) s',
    (ok = false ∧ refused (addr_space h) (d, n) ∧ host s' = Some h) ∨
    ∃ i as_, ok = true ∧ sz d n ≠ 0 ∧ find_space (ty d n) (addr_space h) = Some (i, as_) ∧
      in_space (addr_space h) (ty d n, a, sz d n) ∧
      host s' = Some (with_spaces (<[i := with_allocated (a + sz d n - pci_start as_) as_]> (addr_space h)) h) ∧
      a + sz d n - pci_start as_ <= allocated as_ + 2 * sz d n) s.
Proof using Hsize Hget Hsz.
  intros Hh He. unfold pci_alloc_resource, get_host, on_base. wstep. wstep. wstep. rewrite Hh. wstep. wstep. wstep.
  eapply wp_mono; [apply Hsize|]. intros r b1 ->. destruct (Z.eqb_spec (sz d n) 0) as [Hz|Hz].
  { wstep. left. split; [done|]. split; [by left|done]. }
  wstep. wstep. eapply wp_mono; [apply Hget|]. intros r b2 Hr. rewrite Hr.
  destruct (find_space (ty d n) (addr_space h)) as [[i as_]|] eqn:Ef.
  2: { wstep. left. split; [done|]. split; [by right|done]. }
  destruct (He _ _ _ Ef) as (H1 & H2 & H3 & H4). cbn [demand] in H3. rewrite Z.eqb_refl in H3.
  pose proof (demand_nonneg (ty d n) l). destruct (Hsz d n) as [E|(j & Hj & E)]; [done|].
  pose proof (Z.pow_pos_nonneg 2 j ltac:(lia) ltac:(lia)) as Hp.
  pose proof (Z.pow_le_mono_r 2 j 62 ltac:(lia) ltac:(lia)) as Hp62. rewrite E in *.
  rewrite (wrap_small 64 (pci_start as_ + allocated as_)) by lia.
  set (cur := pci_start as_ + allocated as_) in *.
  destruct (ALIGN_spec cur j) as [Ha1 Ha2]; [lia|lia|lia|]. set (a := ALIGN cur (2 ^ j)) in *.
  rewrite (wrap_small 64 (2 ^ j + (a - cur))) by lia.
  rewrite (wrap_small 64 (allocated as_ + _)) by lia.
  wstep. wstep; [apply Z.leb_le; lia|]. wsteps. right. exists i, as_.
  split; [done|]. split; [done|]. split; [done|]. split; [|split; [|lia]].
  - exists i, as_. split; [done|]. split; [done|]. lia.
  - cbn. do 4 f_equal. unfold cur. lia.
Qed.

Lemma enough_refused d n l spaces : enough ((d, n) :: l) spaces → enough l spaces.
Proof using Hsz.
  intros He k i s Ef. destruct (He k i s Ef) as (H1 & H2 & H3 & H4). cbn in H3.
  pose proof (demand_nonneg k [(d, n)]) as Hd. cbn in Hd. lia.
Qed.

Lemma enough_granted d n l spaces i as_ a :
  enough ((d, n) :: l) spaces → find_space (ty d n) spaces = Some (i, as_) →
  allocated as_ <= a <= allocated as_ + 2 * sz d n → enough l (<[i := with_allocated a as_]> spaces).
Proof using Type.
  intros He Ef Ha k j s. rewrite (find_space_insert _ _ _ _ _ _ Ef).
  destruct (Z.eqb_spec k (ty d n)) as [->|Hne].
  - intros [= <- <-]. destruct (He _ _ _ Ef) as (H1 & H2 & H3 & H4). cbn in *. rewrite Z.eqb_refl in H3. lia.
  - intros E. destruct (He _ _ _ E) as (H1 & H2 & H3 & H4). cbn in H3.
    destruct (Z.eqb_spec (ty d n) k); [done|]. lia.
Qed.

(** What is in the space after a grant was in it before, behind the block granted. *)
Lemma in_space_granted k spaces i as_ a b :
  find_space k spaces = Some (i, as_) → allocated as_ <= a →
  in_space (<[i := with_allocated a as_]> spaces) b →
  in_space spaces b ∧ (b.1.1 = k → pci_start as_ + a <= b.1.2).
Proof using Type.
  destruct b as [[k' b] m]. intros Ef Ha (j & s & Es & H1 & H2 & H3). cbn.
  rewrite (find_space_insert _ _ _ _ _ _ Ef) in Es. destruct (Z.eqb_spec k' k) as [->|Hne].
  - injection Es as <- <-. cbn in *. split; [|lia]. exists i, as_. split; [done|]. split; [done|]. lia.
  - split; [|done]. by exists j, s.
Qed.

Lemma alloc_all_wp l s h :
  host s = Some h → enough l (addr_space h) →
  wp (alloc_all l) (λ rs s', length rs = length l ∧ Forall (in_space (addr_space h)) (grants l rs) ∧
    ascending (grants l rs) ∧ ∀ x r, (x, r) ∈ zip l rs → r.1 = false → refused (addr_space h) x) s.
Proof using Hsize Hget Hsz.
  revert s h. induction l as [|[d n] l IH]; intros s h Hh He; cbn [alloc_all].
  { wstep. split; [done|]. split; [constructor|]. split; [done|]. intros x r H. by apply not_elem_of_nil in H. }
  wstep. eapply wp_mono; [by eapply alloc_wp|]. intros [ok a] s1 [(-> & Hr & Hh1)|(i & as_ & -> & Hz & Ef & Hin & Hh1 & Ha)]; wstep.
  - eapply wp_mono; [apply (IH s1 h); [done|by eapply enough_refused]|]. intros rs s2 (H1 & H2 & H3 & H4). wstep.
    cbn. split; [lia|]. split; [done|]. split; [done|]. intros x r [[= -> ->]|Hx]%elem_of_cons; [done|by eapply H4].
  - pose proof Hin as (i' & as' & Ef' & Hm & Hlo & Hhi). rewrite Ef in Ef'. injection Ef' as <- <-.
    assert (0 < sz d n) by (destruct (Hsz d n) as [?|(j & ? & ->)]; [done|apply Z.pow_pos_nonneg; lia]).
    eapply wp_mono; [apply (IH s1 _ Hh1); cbn; eapply enough_granted; [done|done|lia]|].
    intros rs s2 (H1 & H2 & H3 & H4). wstep. cbn in *. split; [lia|].
    assert (allocated as_ <= a + sz d n - pci_start as_) as Hle by lia.
    assert (∀ b, b ∈ grants l rs → in_space (addr_space h) b ∧ (b.1.1 = ty d n → a + sz d n <= b.1.2)) as Hb.
    { intros b Hb. rewrite Forall_forall in H2. destruct (in_space_granted _ _ _ _ _ _ Ef Hle (H2 b Hb)) as [? Hk].
      split; [done|]. intros E. specialize (Hk E). lia. }
    split; [|split; [split|]].
    + apply Forall_cons. split; [done|]. apply Forall_forall. intros b Hb'. by apply Hb.
    + intros b m Hbm. by apply (Hb _ Hbm).
    + done.
    + intros x r [[= -> ->]|Hx]%elem_of_cons; [done|]. intros Hr. destruct (H4 x r Hx Hr) as [|E]; [by left|right].
      rewrite (find_space_insert _ _ _ _ _ _ Ef) in E. by destruct (_ =? _).
Qed.
End Windows.


(** Devices with a page of memory, 16 ports and, at index 2, 4 GiB of 64-bit memory. *)
#[local] Instance ex_lib : PciLib unit := {|
  pl_dev_exists _ := mret true; pl_dev_init b := mret (Dev b 0 (replicate 6 0));
  pl_bar_size _ n := mret (if n =? 0 then 2 ^ 12 else if n =? 1 then 2 ^ 4 else if n =? 2 then 2 ^ 32 else 0);
  pl_bar_get _ n := mret (if n =? 1 then 1 else if n =? 2 then 0x0c else 0);
  pl_bar_set_addr d _ _ := mret d; pl_bar_is_memory _ n := mret (negb (n =? 1)); pl_bar_is64 _ n := mret (n =? 2);
  pl_config_readb _ _ := mret 0; pl_config_writew _ _ _ := mret ();
|}.
Definition ex_sz (d : pci_dev) (n : Z) : Z :=
  if n =? 0 then 2 ^ 12 else if n =? 1 then 2 ^ 4 else if n =? 2 then 2 ^ 32 else 0.
Definition ex_ty (d : pci_dev) (n : Z) : Z := if n =? 1 then 1 else if n =? 2 then 4 else 0.
Definition ex_host : pci_host_bridge :=
  Host 0x3f000000 0x1000000 0 15 [Space 0 0x3eff0000 0x10000 0 1; Space 0x10000100 0x10000100 0x2eff0000 0 0].

