(* ===== verification/Apic.v ===== *)
(** * The local APIC and the I/O APIC

    lib/x86/apic.c: the two ways of addressing the local APIC (memory in xAPIC
    mode, model-specific registers in x2APIC mode) behind one table of
    functions, the mode switches, and the redirection table of the I/O APIC.
    The processor and the two devices are interfaces; [LapicLaws] and
    [IoapicLaws] state what Intel's manual says of them. *)

From S2P Require Import Prelude Bits PciConf.

(** Privileged instructions. *)
Class Cpu (St : Type) := {
  rdmsr : Z → prog St Z;
  wrmsr : Z → Z → prog St unit;          (* index, value *)
  cpuid_ecx : Z → prog St Z;
  read_cr8 : prog St Z;
  write_cr8 : Z → prog St unit;
}.

(** ** Constants of lib/x86/apic-defs.h and lib/x86/msr.h *)

Definition g_apic : Z := 0xfee00000.
Definition g_ioapic : Z := 0xfec00000.
Definition APIC_ID : Z := 0x20.
Definition APIC_TASKPRI : Z := 0x80.
Definition APIC_EOI : Z := 0xB0.
Definition APIC_SPIV : Z := 0xF0.
Definition APIC_ICR : Z := 0x300.
Definition APIC_ICR2 : Z := 0x310.
Definition APIC_ICR_BUSY : Z := 0x1000.
Definition APIC_BASE_MSR : Z := 0x800.
Definition MSR_IA32_APICBASE : Z := 0x1b.
Definition APIC_EXTD : Z := Z.shiftl 1 10.
Definition APIC_EN : Z := Z.shiftl 1 11.

(** ** Redirection entries

    [ioapic_redir_entry_t], field by field, and the two 32-bit words the code
    sees through a pointer to [u32]: the layout gcc gives the bit fields. *)
Record ioapic_redir_entry := RedirEntry {
  vector : Z; delivery_mode : Z; dest_mode : Z; delivery_status : Z; polarity : Z;
  remote_irr : Z; trig_mode : Z; mask : Z; reserve : Z;
  reserved : Z;                  (* the four bytes, as a little-endian number *)
  dest_id : Z;
}.

Definition redir_lo (e : ioapic_redir_entry) : Z :=
  vector e + delivery_mode e * 2 ^ 8 + dest_mode e * 2 ^ 11 + delivery_status e * 2 ^ 12 +
  polarity e * 2 ^ 13 + remote_irr e * 2 ^ 14 + trig_mode e * 2 ^ 15 + mask e * 2 ^ 16 +
  reserve e * 2 ^ 17 + (reserved e mod 2 ^ 8) * 2 ^ 24.
Definition redir_hi (e : ioapic_redir_entry) : Z := reserved e / 2 ^ 8 + dest_id e * 2 ^ 24.

Definition field (x lo n : Z) : Z := x / 2 ^ lo mod 2 ^ n.
Definition redir_of (lo hi : Z) : ioapic_redir_entry :=
  RedirEntry (field lo 0 8) (field lo 8 3) (field lo 11 1) (field lo 12 1) (field lo 13 1)
    (field lo 14 1) (field lo 15 1) (field lo 16 1) (field lo 17 7)
    (field lo 24 8 + field hi 0 24 * 2 ^ 8) (field hi 24 8).

Definition TRIGGER_EDGE : Z := 0.
Definition TRIGGER_LEVEL : Z := 1.

(** ** The functions *)

(** [apic_ops] points to one of the two constant tables. *)
Inductive ops_table := xapic_ops | x2apic_ops.
#[export] Instance ops_table_eq : EqDecision ops_table.
Proof. solve_decision. Defined.

Record apic_state (St : Type) := ApicState {
  hw : St;
  ops : ops_table;
  out : list Z;                        (* what has been printed *)
}.
Arguments ApicState {St}.
Arguments hw {St}.
Arguments ops {St}.
Arguments out {St}.

Record apic_ops (St : Type) := ApicOps {
  reg_read : Z → prog St Z;
  reg_write : Z → Z → prog St unit;
  icr_write : Z → Z → prog St unit;
  id : prog St Z;
}.
Arguments ApicOps {St}.
Arguments reg_read {St}.
Arguments reg_write {St}.
Arguments icr_write {St}.
Arguments id {St}.

Definition set_hw {St} (h : St) (s : apic_state St) : apic_state St := ApicState h (ops s) (out s).
Definition set_ops {St} (t : ops_table) (s : apic_state St) : apic_state St := ApicState (hw s) t (out s).

Section Apic.
Context {St : Type} {io : PortIO St} {cpu : Cpu St}.
(** The bound on the polls of the delivery status. *)
Context (fuel : nat).

Definition xapic_read (reg : Z) : prog St Z := mm_read 4 (g_apic + reg).
Definition xapic_write (reg val : Z) : prog St unit := mm_write 4 val (g_apic + reg).

Definition icr_poll (_ : unit) : prog St (unit + unit) :=
  v ← xapic_read APIC_ICR;
  mret (if Z.land v APIC_ICR_BUSY =? 0 then inr () else inl ()).

Definition xapic_icr_write (val dest : Z) : prog St unit :=
  iter fuel icr_poll ();;
  xapic_write APIC_ICR2 (u32 (Z.shiftl dest 24));;
  xapic_write APIC_ICR val.

Definition xapic_id : prog St Z := v ← xapic_read APIC_ID; mret (Z.shiftr v 24).

(** [a | (u64)d << 32], returned as [u32]. *)
Definition x2apic_read (reg : Z) : prog St Z :=
  v ← rdmsr (u32 (APIC_BASE_MSR + reg / 16)); mret (u32 v).
Definition x2apic_write (reg val : Z) : prog St unit :=
  wrmsr (u32 (APIC_BASE_MSR + reg / 16)) val.
Definition x2apic_icr_write (val dest : Z) : prog St unit :=
  wrmsr (APIC_BASE_MSR + APIC_ICR / 16) (Z.lor val (Z.shiftl dest 32)).
Definition x2apic_id : prog St Z := x2apic_read APIC_ID.

Definition table (t : ops_table) : apic_ops St :=
  match t with
  | xapic_ops => ApicOps xapic_read xapic_write xapic_icr_write xapic_id
  | x2apic_ops => ApicOps x2apic_read x2apic_write x2apic_icr_write x2apic_id
  end.

Definition on_hw {A} (m : prog St A) : prog (apic_state St) A := zoom hw set_hw m.

Definition apic_read (reg : Z) : prog (apic_state St) Z :=
  t ← gets ops; on_hw (reg_read (table t) reg).
Definition apic_write (reg val : Z) : prog (apic_state St) unit :=
  t ← gets ops; on_hw (reg_write (table t) reg val).
Definition apic_icr_write (val dest : Z) : prog (apic_state St) unit :=
  t ← gets ops; on_hw (icr_write (table t) val dest).
Definition apic_id : prog (apic_state St) Z := t ← gets ops; on_hw (id (table t)).

Definition eoi : prog (apic_state St) unit := apic_write APIC_EOI 0.

(** [n] is an [int]; the sum is [unsigned]. *)
Definition apic_read_bit (reg n : Z) : prog (apic_state St) bool :=
  v ← apic_read (u32 (reg + Z.shiftl (Z.shiftr n 5) 4));
  mret (negb (Z.land v (u32 (Z.shiftl 1 (Z.land n 31))) =? 0)).

(** The x86_64 build: the task priority is control register 8. *)
Definition apic_get_tpr : prog (apic_state St) Z := v ← on_hw read_cr8; mret (u8 v).
Definition apic_set_tpr (tpr : Z) : prog (apic_state St) unit := on_hw (write_cr8 tpr).

Definition enable_x2apic : prog (apic_state St) Z :=
  c ← on_hw (cpuid_ecx 1);
  if negb (Z.land c (Z.shiftl 1 21) =? 0) then
    v ← on_hw (rdmsr MSR_IA32_APICBASE);
    on_hw (wrmsr MSR_IA32_APICBASE (Z.lor v (Z.shiftl 1 10)));;
    modify (set_ops x2apic_ops);;
    mret 1
  else mret 0.

Definition disable_apic : prog (apic_state St) unit :=
  v ← on_hw (rdmsr MSR_IA32_APICBASE);
  on_hw (wrmsr MSR_IA32_APICBASE (Z.land v (not64 (Z.lor APIC_EN APIC_EXTD))));;
  modify (set_ops xapic_ops).

Definition reset_apic : prog (apic_state St) unit :=
  disable_apic;;
  v ← on_hw (rdmsr MSR_IA32_APICBASE);
  on_hw (wrmsr MSR_IA32_APICBASE (Z.lor v APIC_EN)).

Definition printf_text (l : list Z) (s : apic_state St) : apic_state St := ApicState (hw s) (ops s) (out s ++ l).
Definition enabling_apic : list Z :=
  (λ a, Z.of_nat (Ascii.nat_of_ascii a)) <$> String.list_ascii_of_string "enabling apic" ++ [Ascii.ascii_of_nat 10].

Definition enable_apic : prog (apic_state St) unit :=
  modify (printf_text enabling_apic);;
  v ← on_hw (rdmsr MSR_IA32_APICBASE);
  (if negb (Z.land v (Z.lor APIC_EN APIC_EXTD) =? Z.lor APIC_EN APIC_EXTD) then
     enable_x2apic;; mret ()
   else modify (set_ops x2apic_ops));;
  apic_write 0xf0 0x1ff.

Definition ioapic_read_reg (reg : Z) : prog St Z :=
  mm_write 4 reg g_ioapic;; mm_read 4 (g_ioapic + 0x10).
Definition ioapic_write_reg (reg value : Z) : prog St unit :=
  mm_write 4 reg g_ioapic;; mm_write 4 value (g_ioapic + 0x10).

Definition ioapic_write_redir (line : Z) (e : ioapic_redir_entry) : prog St unit :=
  ioapic_write_reg (u32 (0x10 + line * 2 + 0)) (redir_lo e);;
  ioapic_write_reg (u32 (0x10 + line * 2 + 1)) (redir_hi e).

Definition ioapic_read_redir (line : Z) : prog St ioapic_redir_entry :=
  lo ← ioapic_read_reg (u32 (0x10 + line * 2 + 0));
  hi ← ioapic_read_reg (u32 (0x10 + line * 2 + 1));
  mret (redir_of lo hi).

(** The initializer converts to the widths of the fields; the fields it does
    not name are zero. *)
Definition ioapic_set_redir (line vec trig : Z) : prog St unit :=
  ioapic_write_redir line (RedirEntry (u8 vec) 0 0 0 0 0 (wrap 1 trig) 0 0 0 0).

Definition set_mask (line m : Z) : prog St unit :=
  e ← ioapic_read_redir line;
  ioapic_write_redir line
    (RedirEntry (vector e) (delivery_mode e) (dest_mode e) (delivery_status e) (polarity e)
       (remote_irr e) (trig_mode e) (wrap 1 m) (reserve e) (reserved e) (dest_id e)).

Definition set_irq_line (line val : Z) : prog St unit := io_out 1 (u8 val) (u16 (0x2000 + line)).

Definition mask_pic_interrupts : prog St unit := io_out 1 0xff 0x21;; io_out 1 0xff 0xa1.
End Apic.

(** ** What the devices do *)

(** The state IA32_APIC_BASE selects; [None] is the disabled local APIC and the
    invalid combination of the two bits. *)
Definition mode_of (b : Z) : option ops_table :=
  match Z.testbit b 11, Z.testbit b 10 with
  | true, false => Some xapic_ops
  | true, true => Some x2apic_ops
  | false, _ => None
  end.

(** The transitions of the manual's figure of local APIC states; any other
    value raises #GP.  [feat] is the ECX of leaf 1. *)
Definition base_ok (feat old new : Z) : bool :=
  (Z.land (Z.lxor old new) (not64 (Z.lor APIC_EN APIC_EXTD)) =? 0) &&
  match Z.testbit old 11, Z.testbit old 10, Z.testbit new 11, Z.testbit new 10 with
  | _, _, false, true => false                              (* invalid *)
  | true, true, true, false => false                        (* x2APIC to xAPIC *)
  | false, _, true, true => false                           (* disabled to x2APIC *)
  | _, _, true, true => Z.testbit feat 21
  | _, _, _, _ => true
  end.

(** Registers with the same contents in both modes. *)
Definition lapic_readable (r : Z) : Prop :=
  r mod 16 = 0 ∧ (r = 0x30 ∨ r = APIC_TASKPRI ∨ r = 0xA0 ∨ r = APIC_SPIV ∨ 0x100 <= r < 0x290 ∨
                  0x320 <= r < 0x3A0 ∨ r = 0x3E0).
Definition lapic_writable (r v : Z) : Prop :=
  (r = APIC_EOI ∨ r = 0x280) ∧ v = 0 ∨ r = APIC_TASKPRI ∧ 0 <= v < 2 ^ 8 ∨
  r = APIC_SPIV ∧ 0 <= v < 2 ^ 10 ∨ r = 0x380 ∧ 0 <= v < 2 ^ 32.

(** The bits of an interrupt command that are not reserved. *)
Definition icr_ok (v : Z) : Prop := Z.land v 0xCCFFF = v.

Class LapicLaws (St : Type) {io : PortIO St} {cpu : Cpu St} := {
  lp_feat : Z;
  lp_base : St → Z;                      (* IA32_APIC_BASE *)
  lp_reg : St → Z → Z;                   (* the registers *)
  lp_id : St → Z;
  lp_icr : St → Z;                       (* low word of the interrupt command *)
  lp_dest : St → Z;                      (* high word, xAPIC *)
  lp_pending : St → nat;                 (* polls until the last one is accepted *)
  lp_ipis : St → list (Z * Z);           (* interprocessor interrupts sent: command, destination *)
  lp_set_base : Z → St → St;
  lp_put : Z → Z → St → St;
  lp_tick : St → St;
  lp_set_dest : Z → St → St;
  lp_send : Z → Z → St → St;
  lp_cpuid s : cpuid_ecx 1 s = Ret (lp_feat, s);
  lp_rd_base s : rdmsr MSR_IA32_APICBASE s = Ret (lp_base s, s);
  lp_wr_base v s : wrmsr MSR_IA32_APICBASE v s =
    if base_ok lp_feat (lp_base s) v then Ret ((), lp_set_base v s) else Stop Halt;
  lp_base_range s : 0 <= lp_base s < 2 ^ 64;
  (** a processor without x2APIC is not in x2APIC mode *)
  lp_base_feat s : mode_of (lp_base s) = Some x2apic_ops → Z.testbit lp_feat 21 = true;
  lp_reg_range s r : 0 <= lp_reg s r < 2 ^ 32;
  lp_id_range s : 0 <= lp_id s < 2 ^ 32;
  lp_x_read s r : mode_of (lp_base s) = Some xapic_ops → lapic_readable r →
    mm_read 4 (g_apic + r) s = Ret (lp_reg s r, s);
  lp_x2_read s r : mode_of (lp_base s) = Some x2apic_ops → lapic_readable r →
    rdmsr (APIC_BASE_MSR + r / 16) s = Ret (lp_reg s r, s);
  lp_x_id s : mode_of (lp_base s) = Some xapic_ops →
    mm_read 4 (g_apic + APIC_ID) s = Ret (lp_id s mod 2 ^ 8 * 2 ^ 24, s);
  lp_x2_id s : mode_of (lp_base s) = Some x2apic_ops →
    rdmsr (APIC_BASE_MSR + APIC_ID / 16) s = Ret (lp_id s, s);
  lp_x_write s r v : mode_of (lp_base s) = Some xapic_ops → lapic_writable r v →
    mm_write 4 v (g_apic + r) s = Ret ((), lp_put r v s);
  lp_x2_write s r v : mode_of (lp_base s) = Some x2apic_ops → lapic_writable r v →
    wrmsr (APIC_BASE_MSR + r / 16) v s = Ret ((), lp_put r v s);
  lp_x_poll s : mode_of (lp_base s) = Some xapic_ops →
    mm_read 4 (g_apic + APIC_ICR) s = Ret (lp_icr s, lp_tick s);
  lp_x_dest s v : mode_of (lp_base s) = Some xapic_ops →
    mm_write 4 v (g_apic + APIC_ICR2) s = Ret ((), lp_set_dest v s);
  lp_x_send s v : mode_of (lp_base s) = Some xapic_ops → lp_pending s = 0%nat → icr_ok v →
    mm_write 4 v (g_apic + APIC_ICR) s = Ret ((), lp_send v (Z.shiftr (lp_dest s) 24) s);
  lp_x2_send s x : mode_of (lp_base s) = Some x2apic_ops → icr_ok (u32 x) →
    wrmsr (APIC_BASE_MSR + APIC_ICR / 16) x s = Ret ((), lp_send (u32 x) (Z.shiftr x 32) s);
  lp_icr_busy s : Z.land (lp_icr s) APIC_ICR_BUSY = 0 ↔ lp_pending s = 0%nat;
  lp_pending_tick s : lp_pending (lp_tick s) = pred (lp_pending s);
  lp_base_set v s : 0 <= v < 2 ^ 64 → lp_base (lp_set_base v s) = v;
  lp_base_put r v s : lp_base (lp_put r v s) = lp_base s;
  lp_base_tick s : lp_base (lp_tick s) = lp_base s;
  lp_base_dest v s : lp_base (lp_set_dest v s) = lp_base s;
  lp_base_send v d s : lp_base (lp_send v d s) = lp_base s;
  lp_pending_dest v s : lp_pending (lp_set_dest v s) = lp_pending s;
  (** the destination is the highest byte of the word *)
  lp_dest_set v s : Z.shiftr (lp_dest (lp_set_dest v s)) 24 = Z.shiftr v 24;
  lp_ipis_tick s : lp_ipis (lp_tick s) = lp_ipis s;
  lp_ipis_dest v s : lp_ipis (lp_set_dest v s) = lp_ipis s;
  lp_ipis_send v d s : lp_ipis (lp_send v d s) = lp_ipis s ++ [(v, d)];
}.

Section Lapic.
Context {St : Type} {io : PortIO St} {cpu : Cpu St} {laws : LapicLaws St}.
Context (fuel : nat).

(** The table in use is the one for the mode the local APIC is in. *)
Definition consistent (s : apic_state St) : Prop := mode_of (lp_base (hw s)) = Some (ops s).

Lemma u32_msr r : 0 <= r < 0x400 -> u32 (APIC_BASE_MSR + r / 16) = APIC_BASE_MSR + r / 16.
Proof. intros H. unfold APIC_BASE_MSR. mlia. Qed.

Lemma readable_range r : lapic_readable r → 0 <= r < 0x400.
Proof. unfold lapic_readable, APIC_TASKPRI, APIC_SPIV. lia. Qed.

Lemma writable_range r v : lapic_writable r v → 0 <= r < 0x400.
Proof. unfold lapic_writable, APIC_TASKPRI, APIC_SPIV, APIC_EOI. lia. Qed.

Lemma wp_apic_read r s (Q : Z → apic_state St → Prop) :
  consistent s → lapic_readable r → Q (lp_reg (hw s) r) s → wp (apic_read fuel r) Q s.
Proof.
  intros Hc Hr HQ. unfold apic_read, on_hw. do 3 wstep. unfold consistent in Hc.
  destruct (ops s) eqn:E; cbn [table reg_read]; unfold xapic_read, x2apic_read.
  - eapply wp_exact; [by apply lp_x_read|]. unfold set_hw. by destruct s.
  - rewrite u32_msr by (by apply readable_range). wstep.
    eapply wp_exact; [by apply lp_x2_read|]. wstep.
    rewrite wrap_small by apply lp_reg_range. unfold set_hw. by destruct s.
Qed.

Lemma wp_apic_write r v s (Q : unit → apic_state St → Prop) :
  consistent s → lapic_writable r v → Q () (set_hw (lp_put r v (hw s)) s) →
  wp (apic_write fuel r v) Q s.
Proof.
  intros Hc Hr HQ. unfold apic_write, on_hw. do 3 wstep. unfold consistent in Hc.
  destruct (ops s) eqn:E; cbn [table reg_write]; unfold xapic_write, x2apic_write.
  - eapply wp_exact; [by apply lp_x_write|done].
  - rewrite u32_msr by (by eapply writable_range).
    eapply wp_exact; [by apply lp_x2_write|done].
Qed.

(** The identifier is the whole 32-bit one in x2APIC mode and its low byte in
    xAPIC mode. *)
Lemma wp_apic_id s (Q : Z → apic_state St → Prop) :
  consistent s →
  Q (if decide (ops s = xapic_ops) then lp_id (hw s) mod 2 ^ 8 else lp_id (hw s)) s →
  wp (apic_id fuel) Q s.
Proof.
  intros Hc HQ. unfold apic_id, on_hw. do 3 wstep. unfold consistent in Hc.
  destruct (ops s) eqn:E; cbn [table id]; unfold xapic_id, x2apic_id, x2apic_read, xapic_read; wstep.
  - eapply wp_exact; [by apply lp_x_id|]. wstep. unfold set_hw.
    rewrite Z.shiftr_div_pow2, Z.div_mul by lia. destruct s; exact HQ.
  - eapply wp_exact; [by apply lp_x2_id|]. wstep.
    rewrite wrap_small by apply lp_id_range. unfold set_hw. destruct s; exact HQ.
Qed.

Lemma poll_done s :
  mode_of (lp_base s) = Some xapic_ops → (lp_pending s < fuel)%nat →
  wp (iter fuel icr_poll ())
    (λ _ s', lp_base s' = lp_base s ∧ lp_pending s' = 0%nat ∧ lp_ipis s' = lp_ipis s) s.
Proof.
  intros Hm Hf.
  apply (wp_iter (λ n _ s', lp_base s' = lp_base s ∧ lp_ipis s' = lp_ipis s ∧ lp_pending s' = n) _ _)
    with (n := lp_pending s); [|done..].
  intros n [] s' (Hb & Hi & Hn). unfold icr_poll, xapic_read. wstep.
  eapply wp_exact; [apply lp_x_poll; by rewrite Hb|]. wstep.
  destruct (Z.eqb_spec (Z.land (lp_icr s') APIC_ICR_BUSY) 0) as [E|E].
  - apply lp_icr_busy in E. rewrite lp_base_tick, lp_pending_tick, lp_ipis_tick. by rewrite E.
  - assert (lp_pending s' ≠ 0%nat) by (intros H; by apply lp_icr_busy in H).
    exists (pred n). rewrite lp_base_tick, lp_pending_tick, lp_ipis_tick. split_and!; try done; lia.
Qed.

Lemma icr_ok_range v : icr_ok v → 0 <= v < 2 ^ 32.
Proof.
  unfold icr_ok. intros <-. rewrite Z.land_comm. split; [apply Z.land_nonneg; lia|].
  destruct (decide (0 <= v)) as [H|H].
  - enough (0 <= Z.land 0xCCFFF v < 2 ^ 32) by lia. apply land_range; lia.
  - rewrite <- (wrap_small 32 0xCCFFF) by lia.
    assert (Z.land (wrap 32 0xCCFFF) v = wrap 32 (Z.land 0xCCFFF v)) as -> by zbits.
    apply wrap_range. lia.
Qed.

Lemma apic_icr_write_wp val dest s :
  consistent s → icr_ok val → 0 <= dest < 2 ^ 32 → (lp_pending (hw s) < fuel)%nat →
  wp (apic_icr_write fuel val dest)
    (λ _ s', lp_ipis (hw s') =
               lp_ipis (hw s) ++ [(val, if decide (ops s = xapic_ops) then dest mod 2 ^ 8 else dest)] ∧
             ops s' = ops s ∧ lp_base (hw s') = lp_base (hw s) ∧ ∃ v d h, hw s' = lp_send v d h) s.
Proof.
  intros Hc Hv Hd Hf. unfold apic_icr_write, on_hw. do 3 wstep. unfold consistent in Hc.
  destruct (ops s) eqn:E; cbn [table icr_write]; unfold xapic_icr_write, x2apic_icr_write, xapic_write.
  - wstep. eapply wp_mono; [by apply poll_done|]. intros [] h (Hb & Hp & Hi).
    rewrite <- Hb in Hc. wstep. eapply wp_exact; [by apply lp_x_dest|].
    eapply wp_exact; [apply lp_x_send; [by rewrite lp_base_dest|by rewrite lp_pending_dest|done]|].
    cbn [hw ops set_hw]. rewrite lp_base_send, lp_base_dest, lp_ipis_send, lp_ipis_dest, lp_dest_set, Hi.
    split_and!; [|done|done|by eexists _, _, _]. do 3 f_equal. rewrite decide_True by done.
    replace (dest mod 2 ^ 8) with (wrap 8 dest) by done.
    zbits; try lia. by replace (i + 24 - 24) with i by lia.
  - pose proof (icr_ok_range val Hv) as Hr.
    assert (Z.shiftl dest 32 = dest * 2 ^ 32) as Hs by (by rewrite Z.shiftl_mul_pow2 by lia).
    assert (Z.lor val (Z.shiftl dest 32) = dest * 2 ^ 32 + val) as ->
      by (rewrite Hs, Z.lor_comm; by apply lor_add).
    assert (u32 (dest * 2 ^ 32 + val) = val) as Hu.
    { unfold wrap. rewrite Z.add_comm, Z.mod_add by lia. by apply Z.mod_small. }
    assert (Z.shiftr (dest * 2 ^ 32 + val) 32 = dest) as Hh.
    { rewrite Z.shiftr_div_pow2, Z.div_add_l by lia. rewrite Z.div_small; lia. }
    eapply wp_exact; [apply lp_x2_send; [done|by rewrite Hu]|]. rewrite Hu, Hh.
    cbn [hw ops set_hw]. rewrite lp_base_send, lp_ipis_send. split_and!; [done..|by eexists _, _, _].
Qed.

(** C29: In whichever mode the local APIC is, [apic_icr_write] sends exactly the
    one interprocessor interrupt asked for - in xAPIC mode after the previous
    one has been accepted, and to the low byte of the destination. *)
Theorem apic_icr_write_sends val dest s :
  consistent s → icr_ok val → 0 <= dest < 2 ^ 32 → (lp_pending (hw s) < fuel)%nat →
  wp (apic_icr_write fuel val dest)
    (λ _ s', lp_ipis (hw s') =
               lp_ipis (hw s) ++ [(val, if decide (ops s = xapic_ops) then dest mod 2 ^ 8 else dest)] ∧
             ops s' = ops s ∧ lp_base (hw s') = lp_base (hw s)) s.
Proof.
  intros Hc Hv Hd Hf. eapply wp_mono; [by apply apic_icr_write_wp|]. intros _ s' (H1 & H2 & H3 & _). done.
Qed.

(** [apic_read_bit] reads bit [n] of one of the 256-bit registers, which are
    eight 32-bit words sixteen bytes apart. *)
Lemma apic_read_bit_word reg n s :
  consistent s → reg = 0x100 ∨ reg = 0x180 ∨ reg = 0x200 → 0 <= n < 256 ->
  wp (apic_read_bit fuel reg n)
    (λ b s', b = Z.testbit (lp_reg (hw s) (reg + 16 * (n / 32))) (n mod 32) ∧ s' = s) s.
Proof.
  intros Hc Hreg Hn. unfold apic_read_bit. wstep.
  assert (Z.shiftl (Z.shiftr n 5) 4 = 16 * (n / 32)) as ->
    by (rewrite Z.shiftr_div_pow2, Z.shiftl_mul_pow2 by lia; change (2 ^ 5) with 32; lia).
  assert (0 <= n / 32 < 8) by mlia. rewrite (wrap_small 32) by lia.
  apply wp_apic_read; [done|unfold lapic_readable; split; [mlia|lia]|]. wstep. split; [|done].
  change 31 with (Z.ones 5). rewrite Z.land_ones by lia. change (2 ^ 5) with 32.
  assert (0 <= n mod 32 < 32) by mlia. rewrite Z.shiftl_mul_pow2, Z.mul_1_l by lia.
  rewrite (wrap_small 32) by (split; [lia|apply Z.pow_lt_mono_r; lia]).
  generalize (lp_reg (hw s) (reg + 16 * (n / 32))) (n mod 32) H0. clear. intros v k Hk.
  destruct (Z.testbit v k) eqn:Eb.
  - destruct (Z.eqb_spec (Z.land v (2 ^ k)) 0) as [E|E]; [|done].
    apply (f_equal (λ x, Z.testbit x k)) in E. revert E. autorewrite with zbits.
    by rewrite Eb, Z.eqb_refl.
  - destruct (Z.eqb_spec (Z.land v (2 ^ k)) 0) as [E|E]; [done|].
    destruct E. zbits_intro i. destruct (Z.eqb_spec i k) as [->|]; by rewrite ?Eb, ?andb_false_r.
Qed.

(** ** The mode switches *)

Ltac eqb_lits :=
  repeat match goal with
  | |- context [Zpos ?a =? Zpos ?b] =>
      let r := eval vm_compute in (Zpos a =? Zpos b) in change (Zpos a =? Zpos b) with r
  end.

Lemma lor_pow2_bit v k i : 0 <= k -> 0 <= i -> Z.testbit (Z.lor v (Z.shiftl 1 k)) i = Z.testbit v i || (i =? k).
Proof. intros. rewrite Z.shiftl_mul_pow2, Z.mul_1_l by lia. by autorewrite with zbits. Qed.

(** The base register after an [or] with the bit of a mode. *)
Lemma base_ok_x2 old :
  0 <= old < 2 ^ 64 -> Z.testbit old 11 = true -> Z.testbit lp_feat 21 = true ->
  base_ok lp_feat old (Z.lor old (Z.shiftl 1 10)) = true.
Proof.
  intros Hr H11 Hf. unfold base_ok. rewrite !lor_pow2_bit, H11, Hf by lia.
  eqb_lits. rewrite orb_true_r.
  replace (Z.land _ _ =? 0) with true; [by destruct (Z.testbit old 10)|].
  symmetry. apply Z.eqb_eq. apply Z.bits_inj'. intros i Hi.
  rewrite Z.land_spec, Z.lxor_spec, lor_pow2_bit, Z.bits_0 by lia.
  destruct (Z.eqb_spec i 10) as [->|]; [apply andb_false_r|].
  by rewrite orb_false_r, xorb_nilpotent.
Qed.

Lemma enable_x2apic_wp s (Q : Z → apic_state St → Prop) :
  Z.testbit (lp_base (hw s)) 11 = true →
  (Z.testbit lp_feat 21 = true →
   Q 1 (ApicState (lp_set_base (Z.lor (lp_base (hw s)) (Z.shiftl 1 10)) (hw s)) x2apic_ops (out s))) →
  (Z.testbit lp_feat 21 = false → Q 0 s) →
  wp enable_x2apic Q s.
Proof.
  intros H11 H1 H0. unfold enable_x2apic, on_hw. do 2 wstep.
  eapply wp_exact; [apply lp_cpuid|].
  assert (Z.land lp_feat (Z.shiftl 1 21) = if Z.testbit lp_feat 21 then 2 ^ 21 else 0) as ->.
  { rewrite Z.shiftl_mul_pow2, Z.mul_1_l by lia. destruct (Z.testbit lp_feat 21) eqn:E;
      zbits_intro i; destruct (Z.eqb_spec i 21) as [->|]; by rewrite ?E, ?andb_false_r. }
  destruct (Z.testbit lp_feat 21) eqn:Ef; cbn [negb Z.eqb].
  - change (negb (2 ^ 21 =? 0)) with true. cbn iota. do 2 wstep.
    eapply wp_exact; [apply lp_rd_base|]. do 2 wstep. eapply wp_exact.
    { rewrite lp_wr_base. cbn [hw set_hw]. by rewrite base_ok_x2 by (done || apply lp_base_range). }
    do 2 wstep. wstep. cbn. by apply H1.
  - wstep. specialize (H0 eq_refl). by destruct s.
Qed.

Lemma enable_x2apic_disabled s :
  Z.testbit (lp_base (hw s)) 11 = false → Z.testbit lp_feat 21 = true →
  enable_x2apic s = Stop Halt.
Proof.
  intros H11 Hf. unfold enable_x2apic, on_hw, zoom, mbind, prog_bind. rewrite lp_cpuid.
  destruct (Z.eqb_spec (Z.land lp_feat (Z.shiftl 1 21)) 0) as [E|E].
  - apply (f_equal (λ x, Z.testbit x 21)) in E. revert E.
    rewrite Z.land_spec, Hf, Z.bits_0. by vm_compute.
  - cbn [negb hw set_hw]. rewrite lp_rd_base. cbn [hw set_hw]. rewrite lp_wr_base.
    assert (base_ok lp_feat (lp_base (hw s)) (Z.lor (lp_base (hw s)) (Z.shiftl 1 10)) = false) as ->; [|done].
    unfold base_ok. rewrite !lor_pow2_bit, H11 by lia. eqb_lits. rewrite orb_true_r.
    by destruct (Z.testbit (lp_base (hw s)) 10); rewrite andb_false_r.
Qed.

Lemma not_modes_bit b i : 0 <= i →
  Z.testbit (Z.land b (not64 (Z.lor APIC_EN APIC_EXTD))) i =
  Z.testbit b i && ((i <? 64) && negb ((i =? 11) || (i =? 10))).
Proof.
  intros Hi. rewrite Z.land_spec. f_equal.
  change (not64 (Z.lor APIC_EN APIC_EXTD)) with (Z.ldiff (Z.ones 64) (Z.lor (2 ^ 11) (2 ^ 10))).
  autorewrite with zbits. zcases; done || lia.
Qed.

Lemma range_bit b i : 0 <= b < 2 ^ 64 → Z.testbit b i = Z.testbit b i && (i <? 64).
Proof.
  intros Hb. rewrite <- (wrap_small 64 b) by done. rewrite testbit_wrap by lia.
  by destruct (Z.ltb_spec i 64); cbn; rewrite ?andb_true_r.
Qed.

(** Clearing both bits is legal in every state, and so is enabling the disabled
    local APIC in xAPIC mode. *)
Lemma base_ok_off old :
  0 <= old < 2 ^ 64 → base_ok lp_feat old (Z.land old (not64 (Z.lor APIC_EN APIC_EXTD))) = true.
Proof.
  intros Ho. unfold base_ok. rewrite !not_modes_bit by lia. eqb_lits. cbn [orb negb andb]. rewrite !andb_false_r.
  replace (Z.land _ _ =? 0) with true; [by destruct (Z.testbit old 11), (Z.testbit old 10)|].
  symmetry. apply Z.eqb_eq, Z.bits_inj'. intros i Hi.
  rewrite not_modes_bit, Z.lxor_spec, not_modes_bit, Z.bits_0, (range_bit old i) by done.
  by destruct (Z.testbit old i), (i <? 64), (i =? 11), (i =? 10).
Qed.

Lemma base_ok_on old :
  Z.testbit old 11 = false → Z.testbit old 10 = false →
  base_ok lp_feat old (Z.lor old APIC_EN) = true.
Proof.
  intros H11 H10. assert (∀ i, 0 <= i → Z.testbit (Z.lor old APIC_EN) i = Z.testbit old i || (i =? 11)) as HE
    by (intros; by apply lor_pow2_bit).
  unfold base_ok. rewrite !HE, H11, ?H10 by lia. eqb_lits. cbn [orb].
  replace (Z.land _ _ =? 0) with true; [done|].
  symmetry. apply Z.eqb_eq, Z.bits_inj'. intros i Hi.
  rewrite not_modes_bit, Z.lxor_spec, Z.bits_0 by done. rewrite HE by done.
  by destruct (Z.testbit old i), (i =? 11), (i =? 10), (i <? 64).
Qed.

(** ** The modes as a state machine *)

Inductive mode_call := Enable_x2apic | Disable_apic | Reset_apic | Enable_apic.
Definition run_mode_call (c : mode_call) : prog (apic_state St) unit :=
  match c with
  | Enable_x2apic => enable_x2apic;; mret ()
  | Disable_apic => disable_apic
  | Reset_apic => reset_apic
  | Enable_apic => enable_apic fuel
  end.
Fixpoint run_mode_calls (cs : list mode_call) : prog (apic_state St) unit :=
  match cs with [] => mret () | c :: cs => run_mode_call c;; run_mode_calls cs end.

(** What the calls mean on a processor with x2APIC: [None] is the disabled local
    APIC, and the outer [None] the #GP of an illegal transition. *)
Definition spec_call (c : mode_call) (a : option ops_table) : option (option ops_table) :=
  match c, a with
  | (Enable_x2apic | Enable_apic), None => None
  | (Enable_x2apic | Enable_apic), Some _ => Some (Some x2apic_ops)
  | Disable_apic, _ => Some None
  | Reset_apic, _ => Some (Some xapic_ops)
  end.
Fixpoint spec_calls (cs : list mode_call) (a : option ops_table) : option (option ops_table) :=
  match cs with [] => Some a | c :: cs => a' ← spec_call c a; spec_calls cs a' end.

(** The state agrees with an abstract one. *)
Definition in_mode (a : option ops_table) (s : apic_state St) : Prop :=
  match a with
  | Some t => mode_of (lp_base (hw s)) = Some t ∧ ops s = t
  | None => Z.testbit (lp_base (hw s)) 11 = false ∧ Z.testbit (lp_base (hw s)) 10 = false ∧ ops s = xapic_ops
  end.

Lemma mode_of_enabled b t : mode_of b = Some t → Z.testbit b 11 = true.
Proof. unfold mode_of. by destruct (Z.testbit b 11). Qed.

Lemma mode_of_x2 b : Z.testbit b 11 = true → mode_of (Z.lor b (Z.shiftl 1 10)) = Some x2apic_ops.
Proof. intros H. unfold mode_of. rewrite !lor_pow2_bit, H by lia. eqb_lits. by rewrite orb_true_r. Qed.

Lemma off_range b : 0 <= b < 2 ^ 64 → 0 <= Z.land b (not64 (Z.lor APIC_EN APIC_EXTD)) < 2 ^ 64.
Proof. intros. apply land_range; [done|by vm_compute|lia]. Qed.
Lemma on_range b k : 0 <= b < 2 ^ 64 → 0 <= k < 64 → 0 <= Z.lor b (Z.shiftl 1 k) < 2 ^ 64.
Proof.
  intros. apply lor_range; [done| |lia]. rewrite Z.shiftl_mul_pow2, Z.mul_1_l by lia.
  split; [apply Z.pow_nonneg; lia|apply Z.pow_lt_mono_r; lia].
Qed.
Lemma lp_base_x2 s : lp_base (lp_set_base (Z.lor (lp_base s) (Z.shiftl 1 10)) s) = Z.lor (lp_base s) (Z.shiftl 1 10).
Proof. apply lp_base_set, on_range; [apply lp_base_range|lia]. Qed.
Lemma lp_base_off s :
  lp_base (lp_set_base (Z.land (lp_base s) (not64 (Z.lor APIC_EN APIC_EXTD))) s) =
  Z.land (lp_base s) (not64 (Z.lor APIC_EN APIC_EXTD)).
Proof. apply lp_base_set, off_range, lp_base_range. Qed.

Lemma disable_apic_wp s (Q : unit → apic_state St → Prop) :
  Q () (ApicState (lp_set_base (Z.land (lp_base (hw s)) (not64 (Z.lor APIC_EN APIC_EXTD))) (hw s))
          xapic_ops (out s)) →
  wp disable_apic Q s.
Proof.
  intros HQ. unfold disable_apic, on_hw. do 2 wstep. eapply wp_exact; [apply lp_rd_base|].
  do 2 wstep. eapply wp_exact; [|wstep; exact HQ].
  cbn [hw set_hw]. by rewrite lp_wr_base, base_ok_off by apply lp_base_range.
Qed.

Lemma reset_apic_wp s (Q : unit → apic_state St → Prop) :
  (∀ h, mode_of (lp_base h) = Some xapic_ops → Q () (ApicState h xapic_ops (out s))) →
  wp reset_apic Q s.
Proof.
  intros HQ. unfold reset_apic. wstep. apply disable_apic_wp.
  set (off := Z.land (lp_base (hw s)) (not64 (Z.lor APIC_EN APIC_EXTD))).
  assert (Z.testbit off 11 = false ∧ Z.testbit off 10 = false) as [H11 H10].
  { unfold off. rewrite !not_modes_bit by lia. eqb_lits. cbn [orb negb andb].
    by rewrite !andb_false_r. }
  unfold on_hw. do 2 wstep. eapply wp_exact; [apply lp_rd_base|]. wstep. cbn [hw set_hw].
  assert (lp_base (lp_set_base off (hw s)) = off) as Eo by apply lp_base_off. rewrite Eo.
  eapply wp_exact; [by rewrite lp_wr_base, Eo, base_ok_on|].
  apply HQ. rewrite lp_base_set by (apply on_range; [apply off_range, lp_base_range|lia]). unfold mode_of, APIC_EN. rewrite !lor_pow2_bit, H10 by lia.
  eqb_lits. by rewrite orb_true_r.
Qed.

Lemma modes_land b :
  Z.land b (Z.lor APIC_EN APIC_EXTD) = Z.lor APIC_EN APIC_EXTD ↔
  Z.testbit b 11 = true ∧ Z.testbit b 10 = true.
Proof.
  change (Z.lor APIC_EN APIC_EXTD) with (Z.lor (2 ^ 11) (2 ^ 10)). split.
  - intros E. pose proof (f_equal (λ x, Z.testbit x 11) E) as H11.
    pose proof (f_equal (λ x, Z.testbit x 10) E) as H10.
    cbv beta in H10, H11. rewrite Z.land_spec in H10, H11.
    change (Z.testbit (Z.lor (2 ^ 11) (2 ^ 10)) 11) with true in H11.
    change (Z.testbit (Z.lor (2 ^ 11) (2 ^ 10)) 10) with true in H10.
    by rewrite andb_true_r in H10, H11.
  - intros [H11 H10]. zbits_intro i.
    destruct (Z.eqb_spec i 11) as [->|]; [by rewrite H11|].
    destruct (Z.eqb_spec i 10) as [->|]; [by rewrite H10|]. by rewrite andb_false_r.
Qed.

(** [enable_apic] ends in the best mode the processor has, with the local APIC
    enabled and spurious vector 0xff. *)
Lemma enable_apic_wp s (Q : unit → apic_state St → Prop) :
  Z.testbit (lp_base (hw s)) 11 = true → Z.testbit lp_feat 21 = true →
  (∀ h l, mode_of (lp_base h) = Some x2apic_ops →
     Q () (ApicState (lp_put APIC_SPIV 0x1ff h) x2apic_ops l)) →
  wp (enable_apic fuel) Q s.
Proof.
  intros H11 Hf HQ. unfold enable_apic, on_hw at 1. do 4 wstep.
  eapply wp_exact; [apply lp_rd_base|]. wstep. unfold printf_text, set_hw. cbn [hw ops out].
  assert (∀ h l, mode_of (lp_base h) = Some x2apic_ops →
            wp (apic_write fuel 240 511) Q (ApicState h x2apic_ops l)) as Hw.
  { intros h l Hm. apply wp_apic_write; [done| |by apply HQ].
    unfold lapic_writable, APIC_SPIV, APIC_TASKPRI, APIC_EOI. lia. }
  destruct (Z.eqb_spec (Z.land (lp_base (hw s)) (Z.lor APIC_EN APIC_EXTD)) (Z.lor APIC_EN APIC_EXTD))
    as [E|E]; cbn [negb].
  - wstep. apply Hw. cbn [hw]. apply modes_land in E as [E1 E2]. unfold mode_of. by rewrite E1, E2.
  - wstep. apply enable_x2apic_wp; cbn [hw out]; [done| |by rewrite Hf].
    intros _. wstep. apply Hw. rewrite lp_base_x2. by apply mode_of_x2.
Qed.

Lemma enable_apic_disabled s :
  Z.testbit (lp_base (hw s)) 11 = false → Z.testbit lp_feat 21 = true →
  enable_apic fuel s = Stop Halt.
Proof.
  intros H11 Hf. unfold enable_apic, on_hw, zoom, mbind, prog_bind, modify.
  unfold printf_text, set_hw. cbn [hw ops out]. rewrite lp_rd_base.
  destruct (Z.eqb_spec (Z.land (lp_base (hw s)) (Z.lor APIC_EN APIC_EXTD)) (Z.lor APIC_EN APIC_EXTD))
    as [E|E]; cbn [negb].
  - apply modes_land in E as [E _]. congruence.
  - by rewrite enable_x2apic_disabled.
Qed.

Lemma mode_call_refines c a s :
  Z.testbit lp_feat 21 = true → in_mode a s →
  match spec_call c a with
  | Some a' => wp (run_mode_call c) (λ _ s', in_mode a' s') s
  | None => run_mode_call c s = Stop Halt
  end.
Proof.
  intros Hf Hin.
  assert (∀ t, a = Some t → Z.testbit (lp_base (hw s)) 11 = true) as Hen.
  { intros t ->. destruct Hin as [Hm _]. by eapply mode_of_enabled. }
  destruct c; cbn [run_mode_call spec_call].
  - destruct a as [t|].
    + wstep. apply enable_x2apic_wp; [by eapply Hen| |by rewrite Hf].
      intros _. wstep. split; [|done]. cbn [hw]. rewrite lp_base_x2. apply mode_of_x2. by eapply Hen.
    + destruct Hin as (H11 & _). unfold mbind, prog_bind. by rewrite enable_x2apic_disabled.
  - apply disable_apic_wp. unfold in_mode. cbn [hw ops]. rewrite lp_base_off, !not_modes_bit by lia.
    eqb_lits. cbn [orb negb andb]. by rewrite !andb_false_r.
  - apply reset_apic_wp. intros h Hh. by split.
  - destruct a as [t|].
    + apply enable_apic_wp; [by eapply Hen|done|]. intros h l Hm. split; [|done].
      cbn [hw]. by rewrite lp_base_put.
    + destruct Hin as (H11 & _). by apply enable_apic_disabled.
Qed.

(** C15: Every sequence of [enable_x2apic], [disable_apic], [reset_apic] and
    [enable_apic] follows the mode machine [spec_call]: the table of functions
    in use is the one for the mode the local APIC is in, and the only calls
    that fault are the ones that enable a disabled local APIC without
    resetting it first. *)
Theorem apic_modes_refine cs a s :
  Z.testbit lp_feat 21 = true → in_mode a s →
  match spec_calls cs a with
  | Some a' => wp (run_mode_calls cs) (λ _ s', in_mode a' s') s
  | None => run_mode_calls cs s = Stop Halt
  end.
Proof.
  intros Hf. revert a s. induction cs as [|c cs IH]; intros a s Hin; cbn [spec_calls run_mode_calls].
  { by wstep. }
  pose proof (mode_call_refines c a s Hf Hin) as Hc.
  destruct (spec_call c a) as [a1|]; cbn [mbind option_bind].
  - apply wp_run in Hc as ([] & s1 & E & Hs1). specialize (IH a1 s1 Hs1).
    destruct (spec_calls cs a1); [apply wp_bind; eapply wp_exact; [exact E|exact IH]|].
    unfold mbind, prog_bind. by rewrite E.
  - unfold mbind, prog_bind. by rewrite Hc.
Qed.
End Lapic.

(** ** The redirection table *)

(** Each field in the range of its bit field. *)
Definition redir_wf (e : ioapic_redir_entry) : Prop :=
  0 <= vector e < 2 ^ 8 ∧ 0 <= delivery_mode e < 2 ^ 3 ∧ 0 <= dest_mode e < 2 ∧
  0 <= delivery_status e < 2 ∧ 0 <= polarity e < 2 ∧ 0 <= remote_irr e < 2 ∧
  0 <= trig_mode e < 2 ∧ 0 <= mask e < 2 ∧ 0 <= reserve e < 2 ^ 7 ∧
  0 <= reserved e < 2 ^ 32 ∧ 0 <= dest_id e < 2 ^ 8.

Lemma field_range x lo n : 0 <= n → 0 <= field x lo n < 2 ^ n.
Proof. intros. apply Z.mod_pos_bound. apply Z.pow_pos_nonneg; lia. Qed.

Lemma redir_of_wf lo hi : redir_wf (redir_of lo hi).
Proof. unfold redir_wf, redir_of, field. cbn. mlia. Qed.

Lemma redir_lo_of lo hi : 0 <= lo < 2 ^ 32 → redir_lo (redir_of lo hi) = lo.
Proof. unfold redir_lo, redir_of, field. cbn. intros. mlia. Qed.

Lemma redir_hi_of lo hi : 0 <= hi < 2 ^ 32 → redir_hi (redir_of lo hi) = hi.
Proof. unfold redir_hi, redir_of, field. cbn. intros. mlia. Qed.

(** A word with another mask bit, and its bits. *)
Definition with_mask (b : Z) (e : ioapic_redir_entry) : ioapic_redir_entry :=
  RedirEntry (vector e) (delivery_mode e) (dest_mode e) (delivery_status e) (polarity e)
    (remote_irr e) (trig_mode e) b (reserve e) (reserved e) (dest_id e).

Lemma redir_lo_mask_bit lo hi b i :
  0 <= lo < 2 ^ 32 → 0 <= b < 2 → 0 <= i →
  Z.testbit (redir_lo (with_mask b (redir_of lo hi))) i =
  if decide (i = 16) then Z.odd b else Z.testbit lo i.
Proof.
  intros Hlo Hb Hi. set (x := redir_lo _).
  assert (x = lo / 2 ^ 17 * 2 ^ 17 + b * 2 ^ 16 + lo mod 2 ^ 16) as Ex.
  { unfold x, redir_lo, with_mask, redir_of, field. cbn. mlia. }
  clearbody x. destruct (decide (i = 16)) as [->|Hne].
  - rewrite Z.testbit_odd, Z.shiftr_div_pow2 by lia.
    assert (x / 2 ^ 16 = b + 2 * (lo / 2 ^ 17)) as -> by mlia. by rewrite Z.odd_add_mul_2.
  - destruct (decide (i < 16)).
    + rewrite <- (Z.mod_pow2_bits_low x 16 i), <- (Z.mod_pow2_bits_low lo 16 i) by lia.
      f_equal. rewrite Ex. clear Ex. mlia.
    + replace i with (i - 17 + 17) by lia. rewrite <- !Z.div_pow2_bits by lia.
      f_equal. rewrite Ex. clear Ex. mlia.
Qed.

Lemma redir_hi_mask lo hi b : 0 <= hi < 2 ^ 32 → redir_hi (with_mask b (redir_of lo hi)) = hi.
Proof. intros. by rewrite <- (redir_hi_of lo hi) at 2. Qed.

Lemma redir_of_words e : redir_wf e → redir_of (redir_lo e) (redir_hi e) = e.
Proof.
  destruct e. unfold redir_wf, redir_of, redir_lo, redir_hi, field. cbn. intros. f_equal; mlia.
Qed.

(** The bits of a redirection register that software sets: vector, delivery and
    destination mode, polarity, trigger mode and mask in the low word, the
    destination in the high one. *)
Definition redir_rw (r i : Z) : bool :=
  if Z.even r then (i <? 12) || (i =? 13) || (i =? 15) || (i =? 16) else 24 <=? i.

Definition is_redir (r : Z) : Prop := 0x10 <= r < 0x100.

Class IoapicLaws (St : Type) {io : PortIO St} := {
  ia_sel : St → Z;                       (* the index register *)
  ia_reg : St → Z → Z;
  ia_select : Z → St → St;
  ia_put : Z → Z → St → St;
  ia_write_index r s : 0 <= r < 0x100 → mm_write 4 r g_ioapic s = Ret ((), ia_select r s);
  ia_read_data s : mm_read 4 (g_ioapic + 0x10) s = Ret (ia_reg s (ia_sel s), s);
  ia_write_data v s : 0 <= v < 2 ^ 32 →
    mm_write 4 v (g_ioapic + 0x10) s = Ret ((), ia_put (ia_sel s) v s);
  ia_sel_select r s : ia_sel (ia_select r s) = r;
  ia_reg_select r r' s : ia_reg (ia_select r s) r' = ia_reg s r';
  ia_reg_put_ne r r' v s : r ≠ r' → ia_reg (ia_put r v s) r' = ia_reg s r';
  ia_reg_put r v s i : is_redir r → 0 <= i < 32 → redir_rw r i = true →
    Z.testbit (ia_reg (ia_put r v s) r) i = Z.testbit v i;
  ia_reg_range s r : 0 <= ia_reg s r < 2 ^ 32;
}.

Section Ioapic.
Context {St : Type} {io : PortIO St} {laws : IoapicLaws St}.

Definition same_ioapic (s s' : St) : Prop := ∀ r, ia_reg s' r = ia_reg s r.

Lemma wp_ioapic_read_reg r (Q : Z → St → Prop) s :
  0 <= r < 0x100 → (∀ s', same_ioapic s s' → Q (ia_reg s r) s') → wp (ioapic_read_reg r) Q s.
Proof.
  intros Hr HQ. unfold ioapic_read_reg. wstep. eapply wp_exact; [by apply ia_write_index|].
  eapply wp_exact; [apply ia_read_data|]. rewrite ia_sel_select, ia_reg_select.
  apply HQ. intros r'. apply ia_reg_select.
Qed.

Lemma wp_ioapic_write_reg r v (Q : unit → St → Prop) s :
  0 <= r < 0x100 → 0 <= v < 2 ^ 32 →
  (∀ s', (∀ r', r' ≠ r → ia_reg s' r' = ia_reg s r') →
         (is_redir r → ∀ i, 0 <= i < 32 → redir_rw r i = true → Z.testbit (ia_reg s' r) i = Z.testbit v i) →
         Q () s') →
  wp (ioapic_write_reg r v) Q s.
Proof.
  intros Hr Hv HQ. unfold ioapic_write_reg. wstep. eapply wp_exact; [by apply ia_write_index|].
  eapply wp_exact; [by apply ia_write_data|]. rewrite ia_sel_select. apply HQ.
  - intros r' H. by rewrite ia_reg_put_ne, ia_reg_select by done.
  - intros Hre i Hi Hw. by apply ia_reg_put.
Qed.

Lemma redir_words_range e : redir_wf e → 0 <= redir_lo e < 2 ^ 32 ∧ 0 <= redir_hi e < 2 ^ 32.
Proof. destruct e. unfold redir_wf, redir_lo, redir_hi. cbn. intros. mlia. Qed.

Definition redir_reg (line : Z) : Z := 0x10 + line * 2.

Lemma wp_ioapic_read_redir line (Q : ioapic_redir_entry → St → Prop) s :
  0 <= line < 120 →
  (∀ s', same_ioapic s s' → Q (redir_of (ia_reg s (redir_reg line)) (ia_reg s (redir_reg line + 1))) s') →
  wp (ioapic_read_redir line) Q s.
Proof.
  intros Hl HQ. unfold ioapic_read_redir. rewrite !(wrap_small 32) by lia.
  wstep. apply wp_ioapic_read_reg; [lia|]. intros s1 H1. wstep.
  apply wp_ioapic_read_reg; [lia|]. intros s2 H2. wstep.
  replace (16 + line * 2 + 0) with (redir_reg line) by (unfold redir_reg; lia).
  rewrite H1. apply HQ. intros r. by rewrite H2, H1.
Qed.

(** The registers after a write of an entry: the bits software sets are those
    of the entry, and no other line is touched. *)
Lemma wp_ioapic_write_redir line e (Q : unit → St → Prop) s :
  0 <= line < 120 → redir_wf e →
  (∀ s', (∀ r, r ≠ redir_reg line → r ≠ redir_reg line + 1 → ia_reg s' r = ia_reg s r) →
         (∀ i, 0 <= i < 32 → redir_rw 0 i = true →
               Z.testbit (ia_reg s' (redir_reg line)) i = Z.testbit (redir_lo e) i) →
         (∀ i, 0 <= i < 32 → redir_rw 1 i = true →
               Z.testbit (ia_reg s' (redir_reg line + 1)) i = Z.testbit (redir_hi e) i) →
         Q () s') →
  wp (ioapic_write_redir line e) Q s.
Proof.
  intros Hl He HQ. destruct (redir_words_range e He) as [Hlo Hhi].
  unfold ioapic_write_redir. rewrite !(wrap_small 32) by lia.
  replace (16 + line * 2 + 0) with (redir_reg line) by (unfold redir_reg; lia).
  change (16 + line * 2 + 1) with (redir_reg line + 1).
  assert (Z.even (redir_reg line) = true) as Hev.
  { unfold redir_reg. rewrite Z.even_add, Z.even_mul. by destruct (Z.even line). }
  assert (Z.even (redir_reg line + 1) = false) as Hod by (by rewrite Z.even_add, Hev).
  assert (is_redir (redir_reg line) ∧ is_redir (redir_reg line + 1)) as [R1 R2]
    by (unfold is_redir, redir_reg; lia).
  wstep. apply wp_ioapic_write_reg; [unfold redir_reg; lia|done|]. intros s1 Hne1 H1.
  apply wp_ioapic_write_reg; [unfold redir_reg; lia|done|]. intros s2 Hne2 H2.
  apply HQ.
  - intros r ??. by rewrite Hne2, Hne1.
  - intros i Hi Hw. rewrite Hne2 by lia. apply H1; [done..|]. unfold redir_rw in *. by rewrite Hev.
  - intros i Hi Hw. apply H2; [done..|]. unfold redir_rw in *. by rewrite Hod.
Qed.

(** [set_mask] masks or unmasks one interrupt line: of everything software
    sets in the redirection table, only the mask bit of that line changes. *)
Theorem set_mask_one_bit line m s :
  0 <= line < 120 →
  wp (set_mask line m)
    (λ _ s', ∀ r i, is_redir r → 0 <= i < 32 → redir_rw r i = true →
       Z.testbit (ia_reg s' r) i =
       if decide (r = 0x10 + 2 * line ∧ i = 16) then Z.odd m else Z.testbit (ia_reg s r) i) s.
Proof.
  intros Hl. unfold set_mask. wstep. apply wp_ioapic_read_redir; [done|]. intros s1 H1.
  set (lo := ia_reg s (redir_reg line)). set (hi := ia_reg s (redir_reg line + 1)).
  pose proof (redir_of_wf lo hi) as He. pose proof (ia_reg_range s (redir_reg line)) as Rlo.
  pose proof (ia_reg_range s (redir_reg line + 1)) as Rhi. fold lo in Rlo. fold hi in Rhi.
  assert (0 <= wrap 1 m < 2) as Hm by (apply (wrap_range 1); lia).
  apply wp_ioapic_write_redir; [done| |].
  { unfold redir_wf in *. cbn in *. tauto. }
  intros s2 Hne Hlo Hhi r i Hr Hi Hw.
  fold (with_mask (wrap 1 m) (redir_of lo hi)) in Hlo, Hhi.
  assert (Z.even (redir_reg line) = true) as Hev.
  { unfold redir_reg. rewrite Z.even_add, Z.even_mul. by destruct (Z.even line). }
  assert (Z.odd (wrap 1 m) = Z.odd m) as Hodd.
  { unfold wrap. change (2 ^ 1) with 2. rewrite Zmod_odd. by destruct (Z.odd m). }
  destruct (decide (r = redir_reg line)) as [->|Hr1]; [|destruct (decide (r = redir_reg line + 1)) as [->|Hr2]].
  - unfold redir_rw in Hw. rewrite Hev in Hw. rewrite Hlo, redir_lo_mask_bit, Hodd by done || lia.
    destruct (decide (i = 16)); [rewrite decide_True|rewrite decide_False]; unfold redir_reg; done || lia.
  - unfold redir_rw in Hw. rewrite Z.even_add, Hev in Hw.
    rewrite Hhi, redir_hi_mask, decide_False by done || (unfold redir_reg; lia). done.
  - rewrite Hne, H1 by done. rewrite decide_False; [done|]. unfold redir_reg in Hr1. lia.
Qed.
End Ioapic.

(** ** A processor *)

Record board := Board {
  b_base : Z; b_regs : Z → Z; b_icr2 : Z; b_busy : nat; b_sent : list (Z * Z);
  b_sel : Z; b_io : Z → Z;
}.
Definition upd (f : Z → Z) (k v : Z) : Z → Z := λ x, if x =? k then v else f x.
Definition board_put (r v : Z) (b : board) : board :=
  Board (b_base b) (upd (b_regs b) r (u32 v)) (b_icr2 b) (b_busy b) (b_sent b) (b_sel b) (b_io b).
Definition board_send (v d : Z) (b : board) : board :=
  Board (b_base b) (b_regs b) (b_icr2 b) 2 (b_sent b ++ [(v, d)]) (b_sel b) (b_io b).
Definition board_tick (b : board) : board :=
  Board (b_base b) (b_regs b) (b_icr2 b) (pred (b_busy b)) (b_sent b) (b_sel b) (b_io b).
Definition board_dest (v : Z) (b : board) : board :=
  Board (b_base b) (b_regs b) v (b_busy b) (b_sent b) (b_sel b) (b_io b).
Definition board_base (v : Z) (b : board) : board :=
  Board (u64 v) (b_regs b) (b_icr2 b) (b_busy b) (b_sent b) (b_sel b) (b_io b).
Definition board_select (r : Z) (b : board) : board :=
  Board (b_base b) (b_regs b) (b_icr2 b) (b_busy b) (b_sent b) r (b_io b).
Definition board_io_put (r v : Z) (b : board) : board :=
  Board (b_base b) (b_regs b) (b_icr2 b) (b_busy b) (b_sent b) (b_sel b) (upd (b_io b) r v).

Definition board_icr (b : board) : Z := match b_busy b with O => 0 | S _ => APIC_ICR_BUSY end.

#[export] Instance board_ports : PortIO board := {
  io_out n v p b := Ret ((), b);
  io_in n p b := Ret (0, b);
  mm_write n v a b :=
    if a =? g_ioapic then Ret ((), board_select v b)
    else if a =? g_ioapic + 0x10 then Ret ((), board_io_put (b_sel b) v b)
    else if a =? g_apic + APIC_ICR then Ret ((), board_send v (Z.shiftr (b_icr2 b) 24) b)
    else if a =? g_apic + APIC_ICR2 then Ret ((), board_dest v b)
    else Ret ((), board_put (a - g_apic) v b);
  mm_read n a b :=
    if a =? g_ioapic + 0x10 then Ret (u32 (b_io b (b_sel b)), b)
    else if a =? g_apic + APIC_ICR then
      Ret (board_icr b, board_tick b)
    else if a =? g_apic + APIC_ID then Ret (3 * 2 ^ 24, b)
    else Ret (u32 (b_regs b (a - g_apic)), b);
}.

#[export] Instance board_cpu : Cpu board := {
  rdmsr i b :=
    if i =? MSR_IA32_APICBASE then Ret (u64 (b_base b), b)
    else if i =? APIC_BASE_MSR + APIC_ID / 16 then Ret (3, b)
    else Ret (u32 (b_regs b ((i - APIC_BASE_MSR) * 16)), b);
  wrmsr i v b :=
    if i =? MSR_IA32_APICBASE then
      if base_ok (2 ^ 21) (u64 (b_base b)) v then Ret ((), board_base v b) else Stop Halt
    else if i =? APIC_BASE_MSR + APIC_ICR / 16 then Ret ((), board_send (u32 v) (Z.shiftr v 32) b)
    else Ret ((), board_put ((i - APIC_BASE_MSR) * 16) v b);
  cpuid_ecx l b := Ret (2 ^ 21, b);
  read_cr8 b := Ret (Z.shiftr (u8 (b_regs b APIC_TASKPRI)) 4, b);
  write_cr8 v b := Ret ((), board_put APIC_TASKPRI (Z.shiftl v 4) b);
}.

Ltac addr_cases :=
  repeat match goal with
  | |- context [?a =? ?b] => destruct (Z.eqb_spec a b); try lia
  end.

Lemma readable_msr r : lapic_readable r → (APIC_BASE_MSR + r / 16 - APIC_BASE_MSR) * 16 = r.
Proof. unfold lapic_readable. intros [H _]. mlia. Qed.

Lemma writable_msr r v : lapic_writable r v → (APIC_BASE_MSR + r / 16 - APIC_BASE_MSR) * 16 = r.
Proof. unfold lapic_writable, APIC_EOI, APIC_TASKPRI, APIC_SPIV. intros H. mlia. Qed.

Lemma board_mm_regs r :
  0 <= r < 0x400 → g_apic + r ≠ g_ioapic ∧ g_apic + r ≠ g_ioapic + 0x10 ∧ g_apic + r - g_apic = r.
Proof. unfold g_apic, g_ioapic. lia. Qed.

#[export] Program Instance board_lapic : LapicLaws board := {
  lp_feat := 2 ^ 21;
  lp_base b := u64 (b_base b);
  lp_reg b r := u32 (b_regs b r);
  lp_id b := 3;
  lp_icr := board_icr;
  lp_dest := b_icr2;
  lp_pending := b_busy;
  lp_ipis := b_sent;
  lp_set_base := board_base;
  lp_put := board_put;
  lp_tick := board_tick;
  lp_set_dest := board_dest;
  lp_send := board_send;
}.
Solve Obligations with try done.
Next Obligation. intros. apply wrap_range. lia. Qed.
Next Obligation. intros. apply wrap_range. lia. Qed.
Next Obligation.
  intros s r _ Hr. pose proof (readable_range r Hr) as R. destruct (board_mm_regs r R) as (H1 & H2 & H3).
  unfold lapic_readable, APIC_TASKPRI, APIC_SPIV in Hr.
  cbn. unfold APIC_ICR, APIC_ID. rewrite H3. addr_cases. done.
Qed.
Next Obligation.
  intros s r _ Hr. pose proof (readable_range r Hr) as R. cbn. rewrite readable_msr by done.
  unfold lapic_readable, APIC_TASKPRI, APIC_SPIV in Hr. unfold APIC_BASE_MSR, MSR_IA32_APICBASE, APIC_ID.
  destruct (Z.eqb_spec (0x800 + r / 16) 0x1b); [mlia|].
  destruct (Z.eqb_spec (0x800 + r / 16) (0x800 + 0x20 / 16)) as [E|]; [|done].
  change (0x20 / 16) with 2 in E. mlia.
Qed.
Next Obligation.
  intros s r v _ Hr. pose proof (writable_range r v Hr) as R. destruct (board_mm_regs r R) as (H1 & H2 & H3).
  unfold lapic_writable, APIC_TASKPRI, APIC_SPIV, APIC_EOI in Hr.
  cbn. unfold APIC_ICR, APIC_ICR2. rewrite H3. addr_cases. done.
Qed.
Next Obligation.
  intros s r v _ Hr. pose proof (writable_range r v Hr) as R. cbn. rewrite (writable_msr r v) by done.
  unfold lapic_writable, APIC_TASKPRI, APIC_SPIV, APIC_EOI in Hr.
  unfold APIC_BASE_MSR, MSR_IA32_APICBASE, APIC_ICR.
  destruct (Z.eqb_spec (0x800 + r / 16) 0x1b); [mlia|].
  destruct (Z.eqb_spec (0x800 + r / 16) (0x800 + 0x300 / 16)) as [E|]; [|done].
  change (0x300 / 16) with 48 in E. mlia.
Qed.
Next Obligation. intros s. unfold board_icr. by destruct (b_busy s). Qed.
Next Obligation. intros v s Hv. cbn. by rewrite !wrap_small by (rewrite ?wrap_small; done). Qed.

#[export] Program Instance board_ioapic : IoapicLaws board := {
  ia_sel := b_sel;
  ia_reg b r := u32 (b_io b r);
  ia_select := board_select;
  ia_put := board_io_put;
}.
Solve Obligations with try done.
Next Obligation.
  intros r r' v s Hne. cbn. unfold upd. by destruct (Z.eqb_spec r' r).
Qed.
Next Obligation.
  intros r v s i _ Hi _. cbn. unfold upd. rewrite Z.eqb_refl, testbit_wrap by lia.
  by destruct (Z.ltb_spec i 32); [|lia].
Qed.
Next Obligation. intros. apply wrap_range. lia. Qed.

Definition start_board : apic_state board :=
  ApicState (Board 0xfee00900 (λ _, 0) 0 1 [] 0 (λ r, if r =? 0x14 then 0x15030 else 0x3000000)) xapic_ops [].

Lemma apic_modes_refine_witness :
  wp (run_mode_calls 10 [Enable_apic; Disable_apic; Reset_apic; Enable_x2apic])
    (λ _ s', in_mode (Some x2apic_ops) s') start_board ∧
  run_mode_calls 10 [Disable_apic; Enable_apic] start_board = Stop Halt.
Proof.
  split.
  - apply (apic_modes_refine 10 [Enable_apic; Disable_apic; Reset_apic; Enable_x2apic] (Some xapic_ops));
      vm_compute; done.
  - apply (apic_modes_refine 10 [Disable_apic; Enable_apic] (Some xapic_ops)); vm_compute; done.
Defined.

(** Sending interrupt 0x20 to cpu 0x103 while one is pending: cpu 3 gets it. *)
Lemma apic_icr_write_sends_witness :
  wp (apic_icr_write 10 0x4020 0x103)
    (λ _ s', lp_ipis (hw s') =
               lp_ipis (hw start_board) ++ [(0x4020, if decide (ops start_board = xapic_ops) then 0x103 mod 2 ^ 8 else 0x103)] ∧
             ops s' = ops start_board ∧ lp_base (hw s') = lp_base (hw start_board)) start_board.
Proof. apply (apic_icr_write_sends 10 0x4020 0x103 start_board); [done|done|done|cbn; lia]. Defined.

Lemma set_mask_one_bit_witness :
  wp (set_mask 2 (-1))
    (λ _ s', ∀ r i, is_redir r → 0 <= i < 32 → redir_rw r i = true →
       Z.testbit (ia_reg s' r) i =
       if decide (r = 0x10 + 2 * 2 ∧ i = 16) then Z.odd (-1) else Z.testbit (ia_reg (hw start_board) r) i)
    (hw start_board).
Proof. apply (set_mask_one_bit 2 (-1) (hw start_board)). lia. Defined.
