(* ===== verification/Vmalloc.v ===== *)
(** * Virtual memory allocation: lib/vmalloc.c

    The allocator behind [malloc] once paging is on: virtual pages are taken
    from the top of the address space downwards, each is backed by a page of the
    page allocator and mapped with [install_page].  [setup_vm] joins the early
    allocator, the page allocator and the page tables. *)

From S2P Require Import Prelude Memory Bits AllocPhys AllocPage Paging Vm.

Section Vmalloc.
Context {St : Type} {ops : PageAlloc St}.

(** The static variables of the file, and the machine with the allocator of
    pages in its memory. *)
Record vstate := VState {
  machine : mmu (St := St);
  vlock : bool;
  vfree_top : Z;
  page_root : Z;
}.

Definition set_vlock (b : bool) (s : vstate) : vstate :=
  VState (machine s) b (vfree_top s) (page_root s).
Definition set_vfree_top (p : Z) (s : vstate) : vstate :=
  VState (machine s) (vlock s) p (page_root s).
Definition set_page_root (p : Z) (s : vstate) : vstate :=
  VState (machine s) (vlock s) (vfree_top s) p.
Definition set_machine (m : mmu) (s : vstate) : vstate :=
  VState m (vlock s) (vfree_top s) (page_root s).
Definition set_alloc (p : St) (s : vstate) : vstate := set_machine (set_mm p (machine s)) s.

(** An operation of the page allocator or of the page tables. *)
Definition on_pages {A} (m : prog St A) : prog vstate A := zoom (λ s, mm (machine s)) set_alloc m.

Definition alloc_vpages (nr : Z) : prog vstate Z :=
  spin_lock vlock set_vlock;;
  modify (λ s, set_vfree_top (u64 (vfree_top s - u64 (PAGE_SIZE * nr))) s);;
  spin_unlock set_vlock;;
  gets vfree_top.

Definition alloc_vpage : prog vstate Z := alloc_vpages 1.

Definition init_alloc_vpage (top : Z) : prog vstate unit := modify (set_vfree_top top).

(** [(size + PAGE_SIZE - 1) & ~(PAGE_SIZE - 1)] *)
Definition round_page (size : Z) : Z := Z.land (u64 (size + PAGE_SIZE - 1)) (not64 (PAGE_SIZE - 1)).

(** [while (pages--) { install_page(page_root, phys, p); ... }] *)
Fixpoint vmap_pages (pages : nat) (root phys p : Z) : prog vstate unit :=
  match pages with
  | O => mret ()
  | S pages' =>
      on_pages (install_page root phys p);;
      vmap_pages pages' root (u64 (phys + PAGE_SIZE)) (u64 (p + PAGE_SIZE))
  end.

Definition vmap (phys size : Z) : prog vstate Z :=
  let size := round_page size in
  let pages := u32 (size / PAGE_SIZE) in
  mem ← alloc_vpages pages;
  let phys := Z.land phys (not64 (PAGE_SIZE - 1)) in
  root ← gets page_root;
  vmap_pages (Z.to_nat pages) root phys mem;;
  mret mem.

Fixpoint back_pages (pages : nat) (root p : Z) : prog vstate unit :=
  match pages with
  | O => mret ()
  | S pages' =>
      pa ← on_pages pg_alloc_page;
      on_pages (install_page root pa p);;
      back_pages pages' root (u64 (p + PAGE_SIZE))
  end.

Definition vm_memalign (alignment size : Z) : prog vstate Z :=
  assert (alignment <=? PAGE_SIZE);;
  let size := round_page size in
  let pages := u32 (size / PAGE_SIZE) in
  mem ← alloc_vpages pages;
  root ← gets page_root;
  back_pages (Z.to_nat pages) root mem;;
  mret mem.

(** The value of a computation that only reads. *)
Definition value {S A} (o : outcome A) : prog S A := λ s, match o with Ret a => Ret (a, s) | Stop e => Stop e end.

(** [fuel] bounds the iterations of [while (size)]. *)
Definition vm_free_step '((mem, size) : Z * Z) : prog vstate (Z * Z + unit) :=
  if size =? 0 then mret (inr ())
  else
    root ← gets page_root;
    m ← gets (λ s, pg_mem (mm (machine s)));
    pa ← value (virt_to_pte_phys m root mem);
    on_pages (pg_free_page pa);;
    mret (inl (u64 (mem + PAGE_SIZE), u64 (size - PAGE_SIZE))).

Definition vm_free (fuel : nat) (mem size : Z) : prog vstate unit := iter fuel vm_free_step (mem, size).
End Vmalloc.
Arguments vstate St : clear implicits.

(** ** Start-up *)

Record boot_state := Boot {
  early : phys;
  virt : vstate pages;
  is_vmalloc : bool;        (* alloc_ops == &vmalloc_ops *)
}.
Definition set_early (p : phys) (s : boot_state) : boot_state := Boot p (virt s) (is_vmalloc s).
Definition set_virt (v : vstate pages) (s : boot_state) : boot_state := Boot (early s) v (is_vmalloc s).

Definition on_virt {A} (m : prog (vstate pages) A) : prog boot_state A := zoom virt set_virt m.

Definition setup_vm : prog boot_state unit :=
  done ← gets is_vmalloc;
  if (done : bool) then mret ()
  else
    '(base, top) ← zoom early set_early phys_alloc_get_unused;
    init ← on_virt (on_pages page_alloc_initialized);
    assert (negb (base =? top) || init);;
    init ← on_virt (on_pages page_alloc_initialized);
    top ← (if negb init then
      let base := Z.land (u64 (base + PAGE_SIZE - 1)) (u64 (- PAGE_SIZE)) in
      let top := Z.land top (u64 (- PAGE_SIZE)) in
      on_virt (on_pages (free_pages base (u64 (top - base))));;
      mret top
    else mret top);
    root ← on_virt (zoom machine set_machine (setup_mmu top));
    on_virt (modify (set_page_root root));;
    modify (λ s, Boot (early s) (virt s) true).

(** ** Blocks of virtual memory *)

Lemma round_page_spec size n :
  0 <= size → size <= PAGE_SIZE * n → PAGE_SIZE * n < size + PAGE_SIZE → PAGE_SIZE * n < 2 ^ 63 →
  round_page size = PAGE_SIZE * n.
Proof.
  intros H0 H1 H2 H3. unfold round_page. rewrite wrap_small by lia.
  change (PAGE_SIZE - 1) with (2 ^ 12 - 1). rewrite mask_high by lia. mlia.
Qed.

Lemma page_entry_addr q :
  q mod PAGE_SIZE = 0 → 0 <= q → q + PAGE_SIZE <= 2 ^ 52 → Z.land (page_entry q) PT_ADDR_MASK = q.
Proof.
  intros Hm H0 Hb. unfold page_entry. rewrite <- !Z.lor_assoc.
  change (Z.lor PT_PRESENT_MASK (Z.lor PT_WRITABLE_MASK PT_USER_MASK)) with 7.
  by destruct (pte_flags q 7 Hm) as [H1 _]; [lia..|].
Qed.

(** The pages [ps] back the virtual pages from [v] on. *)
Definition backed (m : mem) (root v : Z) (ps : list Z) : Prop :=
  ∀ i q off, ps !! i = Some q → 0 <= off < PAGE_SIZE →
    leaf m root (v + PAGE_SIZE * Z.of_nat i + off) = Some (1%nat, page_entry q).

(** No address of the range is mapped by a large page. *)
Definition unmapped (m : mem) (root v : Z) (n : nat) : Prop :=
  ∀ va, v <= va < v + PAGE_SIZE * n → mappable m root 1 va.

(** Pages that are data: free before, and neither free nor tables now. *)
Definition data_pages (l l' : list Z) (T' : gmap Z (list Z)) (ps : list Z) : Prop :=
  NoDup ps ∧ Forall (λ q, q ∈ l ∧ (q ∉ l') ∧ (T' !! q = None)) ps.

Section Blocks.
Context {St : Type} {ops : PageAlloc St} {laws : PageAllocLaws St}.

Abbreviation alloc_of s := (mm (machine s)).

Definition tables_inv (s : vstate St) (T : gmap Z (list Z)) (l : list Z) : Prop :=
  vm_inv (alloc_of s) (page_root s) T l.

Lemma vm_inv_alloc s root T q l :
  vm_inv s root T (q :: l) →
  wp pg_alloc_page (λ r s', r = q ∧ vm_inv s' root T l ∧ pg_mem s' = pg_mem s ∧
    page_ok q ∧ q + PAGE_SIZE <= 2 ^ 52 ∧ (T !! q = None) ∧ (q ∉ l) ∧ NoDup l) s.
Proof using laws.
  intros (Hwf & Hav & Hfr). destruct (pg_avail_ok s _ Hav) as [Hok Hnd].
  apply Forall_cons in Hok as [Hq _]. apply NoDup_cons in Hnd as [Hql Hnd].
  destruct (Hfr q ltac:(by left)) as [HT H52].
  eapply wp_mono; [by apply pg_alloc_wp|]. cbn beta iota. intros r s1 (-> & Hav1 & Em).
  split_and!; try done. split; [by rewrite Em|]. split; [done|].
  intros p Hp. apply Hfr. by right.
Qed.

Lemma page_span va p :
  p mod PAGE_SIZE = 0 → (va / span 1 = p / span 1 ↔ p <= va < p + PAGE_SIZE).
Proof. change (span 1) with PAGE_SIZE. intros H. split; intros; mlia. Qed.

(** The loop of [vm_memalign]. *)
Lemma back_pages_wp (n : nat) s T l v root :
  tables_inv s T l → page_root s = root → v mod PAGE_SIZE = 0 → 0 <= v → v + PAGE_SIZE * n <= 2 ^ 48 →
  (4 * n <= length l)%nat → unmapped (pg_mem (alloc_of s)) root v n →
  wp (back_pages n root v) (λ _ s', ∃ T' l' ps,
    tables_inv s' T' l' ∧ length ps = n ∧ data_pages l l' T' ps ∧
    (∀ t, is_Some (T' !! t) → is_Some (T !! t) ∨ t ∈ l) ∧ (∀ q, q ∈ l' → q ∈ l) ∧
    backed (pg_mem (alloc_of s')) root v ps ∧
    (∀ va, addr48 va → (va < v ∨ v + PAGE_SIZE * n <= va) →
       leaf (pg_mem (alloc_of s')) root va = leaf (pg_mem (alloc_of s)) root va) ∧
    s' = set_machine (machine s') s ∧ (length l <= length l' + 4 * n)%nat) s.
Proof using laws.
  revert s T l v. induction n as [|n IH]; intros s T l v Hinv Hroot Hv H0 Hv48 Hl Hun.
  { cbn [back_pages]. apply wp_ret. exists T, l, [].
    split_and!; try done; [split; [apply NoDup_nil_2|done]|by left|by destruct s as [[]]|lia]. }
  destruct l as [|q l]; [cbn in Hl; lia|]. cbn in Hl. cbn [back_pages]. wstep. unfold on_pages at 1.
  wstep. unfold tables_inv in Hinv. rewrite Hroot in Hinv.
  eapply wp_mono; [by apply (vm_inv_alloc _ root T q l)|].
  intros r s1 (-> & Hinv1 & Em & Hq & Hq52 & HTq & Hql & Hnd). cbv beta. wstep. unfold on_pages at 1. wstep. cbn [machine set_alloc set_machine mm set_mm].
  destruct Hq as (Hq0 & Hqm & Hq64). rewrite Nat2Z.inj_succ in *.
  eapply wp_mono; [apply (install_page_tables s1 root T l q v Hinv1);
    [unfold addr48; lia| |lia|done|lia|done]|].
  { rewrite Em. apply Hun. lia. }
  intros _ s2 (T1 & l1 & used & Hinv2 & HT1 & El & Hlen & _ & Hleaf2).
  rewrite Em in Hleaf2.
  assert (T1 !! q = None) as HT1q.
  { destruct (T1 !! q) eqn:E; [|done]. destruct (proj2 HT1 q ltac:(by rewrite E)) as [[? ?]|Hu]; [congruence|].
    destruct Hql. rewrite El. apply elem_of_app. by left. }
  assert (∀ va, v <= va < v + PAGE_SIZE ↔ va / span 1 = v / span 1) as Hsp
    by (intros va; symmetry; by apply page_span).
  rewrite (wrap_small 64) by lia. set (s2' := set_alloc s2 _).
  eapply wp_mono; [apply (IH s2' T1 l1 (v + PAGE_SIZE))|]; unfold tables_inv; cbn [s2' machine set_alloc set_machine mm set_mm page_root].
  - rewrite Hroot. exact Hinv2.
  - done.
  - rewrite <- Zplus_mod_idemp_r, Z_mod_same_full, Z.add_0_r. exact Hv.
  - lia.
  - lia.
  - assert (length l = length used + length l1)%nat by (rewrite El; apply length_app). lia.
  - intros va Hva j e. rewrite Hleaf2 by (unfold addr48; lia).
    rewrite decide_False by (rewrite <- Hsp; lia). apply Hun. lia.
  - intros [] s' (T' & l' & ps & Hinv' & Hps & (Hpd & Hpf) & HT' & Hl' & Hb & Hsame & Es & Hcnt).
    exists T', l', (q :: ps). rewrite Forall_forall in Hpf.
    assert (∀ x, x ∈ l1 → x ∈ l) as Hl1 by (intros x Hx; rewrite El; apply elem_of_app; by right).
    split; [exact Hinv'|]. split; [cbn; lia|]. split; [split|split; [|split; [|split; [|split; [|split]]]]].
    + apply NoDup_cons. split; [|done]. intros Hin. destruct (Hpf q Hin) as (? & _). apply Hql. by apply Hl1.
    + apply Forall_cons. split; [split_and!|].
      * by left.
      * intros Hin. apply Hql, Hl1, Hl', Hin.
      * destruct (T' !! q) eqn:E; [|done]. destruct (HT' q ltac:(by rewrite E)) as [[? ?]|Hu]; [congruence|].
        destruct Hql. by apply Hl1.
      * apply Forall_forall. intros x Hx. destruct (Hpf x Hx) as (H1 & H2 & H3).
        split_and!; [right; by apply Hl1|done|done].
    + intros t Ht. destruct (HT' t Ht) as [Ht1|Ht1]; [|right; right; by apply Hl1].
      destruct (proj2 HT1 t Ht1) as [?|Hu]; [by left|]. right. right. rewrite El. apply elem_of_app. by left.
    + intros x Hx. right. by apply Hl1, Hl'.
    + intros [|i] x off Hx Hoff; cbn in Hx.
      * injection Hx as ->. rewrite Hsame by (unfold addr48; lia). rewrite Hleaf2 by (unfold addr48; lia).
        rewrite decide_True; [done|]. apply Hsp. lia.
      * replace (v + 4096 * S i + off) with (v + PAGE_SIZE + PAGE_SIZE * i + off) by lia. by apply Hb.
    + intros va Hva Hout. rewrite Hsame, Hleaf2 by (unfold addr48 in *; lia).
      rewrite decide_False; [done|]. rewrite <- Hsp. lia.
    + rewrite Es. by destruct s as [[]].
    + assert (length l = length used + length l1)%nat by (rewrite El; apply length_app). cbn [length]. lia.
Qed.

Lemma wp_alloc_vpages nr s (Q : Z → vstate St → Prop) :
  vlock s = false → 0 <= nr → PAGE_SIZE * nr <= vfree_top s < 2 ^ 64 →
  Q (vfree_top s - PAGE_SIZE * nr) (set_vfree_top (vfree_top s - PAGE_SIZE * nr) s) →
  wp (alloc_vpages nr) Q s.
Proof.
  intros Hl Hn Ht HQ. unfold alloc_vpages. wstep. wstep; [done|]. wsteps.
  unfold set_vfree_top, set_vlock in *. cbn [machine vlock vfree_top page_root] in *.
  rewrite (wrap_small 64 (4096 * nr)), wrap_small by lia. by rewrite Hl in HQ.
Qed.

(** What [vm_memalign] gives: the block is [n] virtual pages just below the old
    top, each backed by a page of its own that is neither free nor a table. *)
Definition block_post (n : nat) (s : vstate St) (T : gmap Z (list Z)) (l : list Z) (r : Z) (s' : vstate St) : Prop :=
  ∃ T' l' ps,
    tables_inv s' T' l' ∧ length ps = n ∧ data_pages l l' T' ps ∧
    (∀ t, is_Some (T' !! t) → is_Some (T !! t) ∨ t ∈ l) ∧ (∀ q, q ∈ l' → q ∈ l) ∧
    backed (pg_mem (alloc_of s')) (page_root s) r ps ∧
    (∀ va, addr48 va → (va < r ∨ r + PAGE_SIZE * n <= va) →
       leaf (pg_mem (alloc_of s')) (page_root s) va = leaf (pg_mem (alloc_of s)) (page_root s) va) ∧
    (length l <= length l' + 4 * n)%nat ∧ r = vfree_top s - PAGE_SIZE * n ∧
    vfree_top s' = r ∧ vlock s' = false ∧ page_root s' = page_root s.

Lemma vm_memalign_wp alignment size (n : nat) s T l :
  tables_inv s T l → vlock s = false → alignment <= PAGE_SIZE →
  0 <= size → size <= PAGE_SIZE * n → PAGE_SIZE * n < size + PAGE_SIZE → Z.of_nat n < 2 ^ 32 →
  vfree_top s mod PAGE_SIZE = 0 → PAGE_SIZE * n <= vfree_top s <= 2 ^ 48 → (4 * n <= length l)%nat →
  unmapped (pg_mem (alloc_of s)) (page_root s) (vfree_top s - PAGE_SIZE * n) n →
  wp (vm_memalign alignment size) (block_post n s T l) s.
Proof using laws.
  intros Hinv Hlk Ha H0 H1 H2 Hn32 Ht Hb Hl Hun. unfold vm_memalign. cbv zeta. wstep.
  wstep; [by apply Z.leb_le|]. rewrite (round_page_spec size n) by lia.
  assert (u32 (PAGE_SIZE * n / PAGE_SIZE) = n) as -> by (rewrite Z.mul_comm, Z.div_mul by lia; apply wrap_small; lia). wstep.
  apply wp_alloc_vpages; [done|lia|lia|]. do 2 wstep. wstep. rewrite Nat2Z.id.
  eapply wp_mono; [apply (back_pages_wp n (set_vfree_top _ s) T l _ (page_root s)); try done|].
  - rewrite <- Ht. rewrite Z.mul_comm, <- (Z.mod_add _ n) by lia. f_equal. lia.
  - lia.
  - lia.
  - intros [] s' (T' & l' & ps & H3 & H4 & H5 & H6 & H7 & H8 & H9 & Es & Hc). wstep.
    exists T', l', ps. rewrite Es. cbn [machine vfree_top vlock page_root set_machine set_vfree_top].
    rewrite Es in H3. by split_and!.
Qed.

(** ** Freeing *)

Lemma virt_to_pte_phys_page m root T va q :
  wf m root T → leaf m root va = Some (1%nat, page_entry q) → va mod PAGE_SIZE = 0 →
  page_ok q → q + PAGE_SIZE <= 2 ^ 52 → virt_to_pte_phys m root va = Ret q.
Proof.
  intros Hwf Hl Hva (Hq0 & Hqm & _) H52. unfold virt_to_pte_phys.
  destruct (get_pte_spec m root T va Hwf) as (p & -> & Hp). rewrite Hl in Hp.
  destruct Hp as (_ & -> & _). rewrite page_entry_addr by (done || lia).
  change (PAGE_SIZE - 1) with (2 ^ 12 - 1). rewrite mask_low by lia. change (2 ^ 12) with PAGE_SIZE.
  rewrite Hva, Z.add_0_r. f_equal. apply wrap_small. lia.
Qed.

Context {fl : PageFreeLaws St}.

Lemma vm_free_wp fuel ps s T l v :
  tables_inv s T l → backed (pg_mem (alloc_of s)) (page_root s) v ps → NoDup ps →
  Forall (λ q, page_ok q ∧ q + PAGE_SIZE <= 2 ^ 52 ∧ (q ∉ l) ∧ (T !! q = None)) ps →
  v mod PAGE_SIZE = 0 → 0 <= v → v + PAGE_SIZE * Z.of_nat (length ps) <= 2 ^ 48 → (length ps < fuel)%nat →
  wp (vm_free fuel v (PAGE_SIZE * Z.of_nat (length ps))) (λ _ s',
    tables_inv s' T (reverse ps ++ l) ∧
    (∀ va, leaf (pg_mem (alloc_of s')) (page_root s) va = leaf (pg_mem (alloc_of s)) (page_root s) va) ∧
    s' = set_machine (machine s') s) s.
Proof using All.
  revert fuel s l v. induction ps as [|q ps IH]; intros fuel s l v Hinv Hb Hnd Hf Hv H0 H48 Hfuel.
  - destruct fuel as [|fuel]; [lia|]. unfold vm_free. cbn [iter]. wstep. unfold vm_free_step at 1.
    cbn [length]. change (PAGE_SIZE * 0%nat =? 0) with true. cbn iota. wstep. cbn iota. wstep. split_and!; [done|done|by destruct s as [[]]].
  - destruct fuel as [|fuel]; [lia|]. unfold vm_free. cbn [iter length] in *. wstep.
    apply NoDup_cons in Hnd as [Hqps Hnd]. apply Forall_cons in Hf as [(Hq & H52 & Hql & HTq) Hf].
    rewrite Nat2Z.inj_succ in *. unfold vm_free_step at 1.
    rewrite (proj2 (Z.eqb_neq _ _)) by lia. do 4 wstep.
    wstep. unfold value. eapply wp_exact.
    { rewrite (virt_to_pte_phys_page _ _ T v q); [done|apply Hinv| |done..].
      pose proof (Hb 0%nat q 0 eq_refl ltac:(lia)) as Hl. cbn in Hl. by rewrite Z.mul_0_r, !Z.add_0_r in Hl. }
    cbv beta. unfold on_pages. do 2 wstep.
    eapply wp_mono; [by apply (free_page_keeps _ (page_root s) T l q)|].
    intros [] s1 [Hinv1 Hl1]. wstep. set (s1' := set_alloc s1 s).
    rewrite !wrap_small by lia.
    replace (PAGE_SIZE * Z.succ (length ps) - PAGE_SIZE) with (PAGE_SIZE * Z.of_nat (length ps)) by lia.
    eapply wp_mono; [apply (IH fuel s1' (q :: l) (v + PAGE_SIZE))|]; try done.
    + intros i x off Hx Hoff. change (alloc_of s1') with s1. change (page_root s1') with (page_root s).
      rewrite Hl1.
      replace (v + 4096 + 4096 * i + off) with (v + PAGE_SIZE * S i + off) by lia. by apply Hb.
    + rewrite Forall_forall in Hf |- *. intros x Hx. destruct (Hf x Hx) as (? & ? & ? & ?).
      split_and!; try done. intros [->|]%elem_of_cons; done.
    + rewrite <- Zplus_mod_idemp_r, Z_mod_same_full, Z.add_0_r. exact Hv.
    + lia.
    + lia.
    + lia.
    + intros [] s' (Hinv' & Hl' & Es). rewrite reverse_cons, <- app_assoc. cbn [app].
      split; [done|]. split; [intros va; etrans; [apply Hl'|apply Hl1]|]. rewrite Es. by destruct s as [[]].
Qed.
End Blocks.

(** ** Start-up *)

Lemma get_unused_wp (p : phys) (Q : Z * Z → phys → Prop) :
  phys_ok p → AllocPhys.base p < AllocPhys.top p → nr_regions p < 256 →
  (∀ p', AllocPhys.base p' = AllocPhys.top p' → Q (AllocPhys.base p, AllocPhys.top p) p') →
  wp phys_alloc_get_unused Q p.
Proof.
  intros (Hl & Hb & Ht & Hlen & Hn) Hlt Hnr HQ. unfold phys_alloc_get_unused.
  do 2 wstep. rewrite (proj2 (Z.eqb_neq _ _)) by lia. wstep. wstep; [done|].
  unfold log_region, PHYS_ALLOC_NR_REGIONS. do 3 wstep. cbn [nr_regions set_lock].
  rewrite (proj2 (Z.leb_le _ _)), (proj2 (Z.ltb_lt _ _)) by lia. cbn [andb]. wsteps. by apply HQ.
Qed.

(** The page addresses [(x + PAGE_SIZE - 1) & -PAGE_SIZE] and [x & -PAGE_SIZE]. *)
Definition page_up (x : Z) : Z := Z.land (u64 (x + PAGE_SIZE - 1)) (u64 (- PAGE_SIZE)).
Definition page_down (x : Z) : Z := Z.land x (u64 (- PAGE_SIZE)).

Lemma page_down_spec x : 0 <= x < 2 ^ 64 → page_down x = x - x mod PAGE_SIZE.
Proof.
  intros Hx. unfold page_down. change (u64 (- PAGE_SIZE)) with (not64 (2 ^ 12 - 1)).
  by apply mask_high.
Qed.

Lemma page_up_spec x :
  0 <= x → x + PAGE_SIZE <= 2 ^ 64 →
  page_up x mod PAGE_SIZE = 0 ∧ x <= page_up x < x + PAGE_SIZE.
Proof.
  intros Hx Hb. change (page_up x) with (page_down (u64 (x + PAGE_SIZE - 1))).
  rewrite wrap_small, page_down_spec by lia. mlia.
Qed.

(** What the boot leaves to the page tables: enough memory for the largest of
    them. *)
Definition boot_ok (s : boot_state) (n : nat) : Prop :=
  is_vmalloc s = false ∧ phys_ok (early s) ∧ AllocPhys.base (early s) < AllocPhys.top (early s) ∧
  nr_regions (early s) < 256 ∧ free_list (mm (machine (virt s))) [] ∧
  0 < AllocPhys.base (early s) ∧
  page_down (AllocPhys.top (early s)) = page_up (AllocPhys.base (early s)) + PAGE_SIZE * S n.

Lemma free_list_empty s : free_list s [] → freelist s = 0.
Proof. by intros (_ & H & _). Qed.

Lemma setup_vm_wp s n (top := page_down (AllocPhys.top (early s))) :
  boot_ok s n → Z.max top (2 ^ 32) <= 2 ^ 48 - LARGE_PAGE_SIZE →
  1 + 2 * ((Z.max top (2 ^ 32) - 1) / 2 ^ 30 + 1) + 3 <= S n →
  wp setup_vm (λ _ s', is_vmalloc s' = true ∧ AllocPhys.base (early s') = AllocPhys.top (early s') ∧
    cr3 (machine (virt s')) = page_root (virt s') ∧ cr0 (machine (virt s')) = 0x80010001 ∧
    (∃ T l, tables_inv (virt s') T l) ∧
    identity (pg_mem (mm (machine (virt s')))) (page_root (virt s')) (Z.max top (2 ^ 32))) s.
Proof.
  intros (Hv & Hok & Hlt & Hnr & Hfl & Hb0 & Hsz) Hmax Hlen.
  pose proof Hok as (_ & Hb & Ht & _).
  unfold setup_vm. do 2 wstep. rewrite Hv. cbv iota. do 2 wstep.
  apply get_unused_wp; [done..|]. intros p' Hp'. cbn beta iota.
  pose proof (free_list_empty _ Hfl) as Hf0.
  unfold on_virt, on_pages, page_alloc_initialized. do 4 wstep.
  cbn [virt set_virt set_early machine set_alloc set_machine mm set_mm]. rewrite Hf0. cbn [negb Z.eqb].
  wstep. wstep. { rewrite (proj2 (Z.eqb_neq _ _)) by lia. done. }
  do 4 wstep. cbn [virt set_virt set_early machine set_alloc set_machine mm set_mm]. rewrite Hf0. cbn [negb Z.eqb].
  fold (page_up (AllocPhys.base (early s))). fold (page_down (AllocPhys.top (early s))). fold top.
  pose proof (page_down_spec (AllocPhys.top (early s)) ltac:(lia)) as Hdown. fold top in Hdown, Hsz.
  pose proof (Z.mod_pos_bound (AllocPhys.top (early s)) PAGE_SIZE ltac:(lia)) as Hmod.
  unfold LARGE_PAGE_SIZE in Hmax.
  destruct (page_up_spec (AllocPhys.base (early s)) ltac:(lia) ltac:(lia)) as [Hum Hu].
  assert (u64 (top - page_up (AllocPhys.base (early s))) = PAGE_SIZE * S n) as Hsize
    by (rewrite Hsz, wrap_small; lia).
  rewrite Hsize. wsteps. cbn [virt set_virt set_early machine set_alloc set_machine mm set_mm].
  eapply wp_mono; [apply (free_pages_wp _ [] (page_up (AllocPhys.base (early s))) n Hfl)|].
  { split; [lia|]. split; [done|lia]. }
  { intros q Hq. by apply elem_of_nil in Hq. }
  { lia. }
  intros [] s1 [Hs1 _]. rewrite app_nil_r in Hs1. wsteps.
  cbn [virt set_virt set_early machine set_alloc set_machine mm set_mm].
  assert (top mod PAGE_SIZE = 0) as Htm
    by (rewrite Hsz, Z.mul_comm, Z.mod_add by lia; done).
  eapply wp_mono; [apply (setup_mmu_wp _ (page_seq (page_up (AllocPhys.base (early s))) (S n)) top)|].
  - exact Hs1.
  - intros q Hq%elem_of_page_seq. destruct Hq as (i & Hi & ->). lia.
  - lia.
  - unfold LARGE_PAGE_SIZE. lia.
  - done.
  - assert (∀ k p, length (page_seq p k) = k) as -> by (induction k as [|k IHk]; intros p; cbn; [done|by rewrite IHk]). lia.
  - intros r s2 (Hc & Hc0 & T & l' & Hinv & Hid). wsteps. cbn.
    split_and!; try done. by exists T, l'.
Qed.

(** ** Properties *)

Lemma translate_page m root va q :
  leaf m root va = Some (1%nat, page_entry q) → page_ok q → q + PAGE_SIZE <= 2 ^ 52 →
  translate m root va = Some (q + va mod PAGE_SIZE).
Proof.
  intros Hl (Hq0 & Hqm & _) H52. unfold translate. rewrite Hl. cbn.
  destruct (page_entry_spec q Hqm ltac:(lia) H52) as (_ & _ & H). by rewrite H.
Qed.

(** The pages of a block, as the loop of the allocator leaves them. *)
Lemma block_pages {St} {ops : PageAlloc St} {laws : PageAllocLaws St} n s T l r s' :
  tables_inv s T l → block_post n s T l r s' →
  ∃ T' l' ps, tables_inv s' T' l' ∧ length ps = n ∧ data_pages l l' T' ps ∧
    Forall (λ q, page_ok q ∧ q + PAGE_SIZE <= 2 ^ 52 ∧ (q ∉ l') ∧ (T' !! q = None)) ps ∧
    backed (pg_mem (mm (machine s'))) (page_root s) r ps ∧
    (length l <= length l' + 4 * n)%nat.
Proof.
  intros (_ & Hav & Hfr) (T' & l' & ps & H1 & H2 & H3 & _ & _ & H6 & _ & H8 & _).
  exists T', l', ps. split_and!; try done. destruct (pg_avail_ok _ _ Hav) as [Hok _].
  rewrite Forall_forall in Hok. eapply Forall_impl; [apply H3|]. cbn. intros q (Hq & Hql & HT).
  split_and!; [by apply Hok|by apply Hfr|done|done].
Qed.


(** Freeing the block of [vm_memalign] makes its pages free again, at most three
    pages per page of the block stay behind as tables - but the addresses of the
    block are still translated to the freed pages. *)
Theorem vm_memalign_free {St} {ops : PageAlloc St} {laws : PageAllocLaws St} {fl : PageFreeLaws St}
    alignment size (n : nat) fuel (s : vstate St) T l :
  tables_inv s T l → vlock s = false → alignment <= PAGE_SIZE →
  0 <= size → size <= PAGE_SIZE * n → PAGE_SIZE * n < size + PAGE_SIZE → Z.of_nat n < 2 ^ 32 →
  vfree_top s mod PAGE_SIZE = 0 → PAGE_SIZE * n <= vfree_top s <= 2 ^ 48 → (4 * n <= length l)%nat →
  unmapped (pg_mem (mm (machine s))) (page_root s) (vfree_top s - PAGE_SIZE * n) n → (n < fuel)%nat →
  wp (mem ← vm_memalign alignment size; vm_free fuel mem (round_page size);; mret mem) (λ r s',
    ∃ T' l' ps, tables_inv s' T' (reverse ps ++ l') ∧ length ps = n ∧ NoDup ps ∧ Forall (.∈ l) ps ∧
      (length l <= length (reverse ps ++ l') + 3 * n)%nat ∧
      ∀ i q, ps !! i = Some q →
        translate (pg_mem (mm (machine s'))) (page_root s') (r + PAGE_SIZE * Z.of_nat i) = Some q) s.
Proof.
  intros Hinv Hlk Ha H0 H1 H2 H32 Ht Hb Hl Hun Hfuel. wstep.
  eapply wp_mono; [by apply (vm_memalign_wp alignment size n s T l)|]. intros r s1 Hp. wstep.
  destruct (block_pages n s T l r s1 Hinv Hp) as (T' & l' & ps & G1 & G2 & [G3 G3'] & G4 & G5 & G6).
  destruct Hp as (_ & _ & _ & _ & _ & _ & _ & _ & _ & _ & _ & Er & Et & _ & Eroot).
  rewrite (round_page_spec size n) by lia. rewrite <- G2 at 1.
  assert (r mod PAGE_SIZE = 0) as Hrm
    by (rewrite Er, <- Ht, Z.mul_comm, <- (Z.mod_add _ n) by lia; f_equal; lia).
  eapply wp_mono; [apply (vm_free_wp fuel ps s1 T' l' r); try done; rewrite ?Eroot, ?G2; done || lia|].
  intros [] s2 (K1 & K2 & K3). wstep. exists T', l', ps. split_and!; try done.
  - eapply Forall_impl; [exact G3'|]. by intros q (? & _).
  - rewrite length_app, length_reverse. lia.
  - intros i q Hi. rewrite Forall_lookup in G4. destruct (G4 _ _ Hi) as ((Hq0 & Hqm & Hq64) & H52 & _).
    apply lookup_lt_Some in Hi as Hlt.
    rewrite (translate_page _ _ _ q); [|rewrite K3; cbn [page_root set_machine]; rewrite K2|done..].
    + f_equal. rewrite Z.mul_comm, Z.mod_add by lia. lia.
    + rewrite Eroot. pose proof (G5 i q 0 Hi ltac:(lia)) as Hb'. by rewrite Z.add_0_r in Hb'.
Qed.


(** ** Concrete instances *)

Definition ex_vstate : vstate pages := VState (Mmu ex_state 0x80010001 0x20000) false (2 ^ 40) 0x20000.

Lemma ex_unmapped (n : nat) : unmapped (pg_mem (mm (machine ex_vstate))) 0x20000 (2 ^ 40 - PAGE_SIZE * n) n.
Proof.
  intros va _ j e H. pose proof (proj2 ex_root va) as Hn.
  assert (leaf (pmem ex_state) 0x20000 va = Some (j, e)) as H' by exact H. congruence.
Qed.


Lemma vm_memalign_free_witness :
  wp (mem ← vm_memalign 16 0x2800; vm_free 4 mem (round_page 0x2800);; mret mem) (λ r s',
    ∃ T' l' ps, tables_inv s' T' (reverse ps ++ l') ∧ length ps = 3%nat ∧ NoDup ps ∧ Forall (.∈ ex_free) ps ∧
      (length ex_free <= length (reverse ps ++ l') + 3 * 3)%nat ∧
      ∀ i q, ps !! i = Some q →
        translate (pg_mem (mm (machine s'))) (page_root s') (r + PAGE_SIZE * Z.of_nat i) = Some q) ex_vstate.
Proof.
  apply (vm_memalign_free 16 0x2800 3 4 ex_vstate {[0x20000 := []]} ex_free).
  - apply ex_vm_inv.
  - done.
  - done.
  - done.
  - done.
  - done.
  - done.
  - done.
  - cbn. lia.
  - cbn. lia.
  - apply ex_unmapped.
  - lia.
Defined.

Definition ex_boot : boot_state :=
  Boot (Phys (regions phys0) 0 false 0x100008 0x200010 false 32)
    (VState (Mmu (Pages ∅ 0 false) 0 0) false 0 0) false.

