(* ===== verification/Iommu.v ===== *)
(** * The IOMMU: lib/x86/intel-iommu.c

    The driver of Intel's VT-d: the root and context tables and the three levels
    of page tables that translate the addresses of a device, and the interrupt
    remapping table.  The tables are in the memory of the page allocator, the
    registers are memory mapped.  The messages it prints are left out, the
    registers they read are not. *)

From S2P Require Import Prelude Memory CString Bits AllocPage Paging Vm Vmalloc PciConf Pci Apic.

Definition VTD_PAGE_LEVEL : nat := 3.
Definition VTD_CE_AW_39BIT : Z := 0x1.
Definition Q35_HOST_BRIDGE_IOMMU_ADDR : Z := 0xfed90000.
Definition DMAR_VER_REG : Z := 0x0.
Definition DMAR_CAP_REG : Z := 0x8.
Definition DMAR_ECAP_REG : Z := 0x10.
Definition DMAR_GCMD_REG : Z := 0x18.
Definition DMAR_GSTS_REG : Z := 0x1c.
Definition DMAR_RTADDR_REG : Z := 0x20.
Definition DMAR_IRTA_REG : Z := 0xb8.
Definition VTD_GCMD_IR_TABLE : Z := 0x1000000.
Definition VTD_GCMD_IR : Z := 0x2000000.
Definition VTD_GCMD_QI : Z := 0x4000000.
Definition VTD_GCMD_WBF : Z := 0x8000000.
Definition VTD_GCMD_SFL : Z := 0x20000000.
Definition VTD_GCMD_ROOT : Z := 0x40000000.
Definition VTD_GCMD_DMAR : Z := 0x80000000.
Definition VTD_GCMD_ONE_SHOT_BITS : Z :=
  Z.lor (Z.lor (Z.lor VTD_GCMD_IR_TABLE VTD_GCMD_WBF) VTD_GCMD_SFL) VTD_GCMD_ROOT.
Definition VTD_CONTEXT_TT_MULTI_LEVEL : Z := 0.
Definition VTD_PTE_RW : Z := Z.lor (Z.shiftl 1 0) (Z.shiftl 1 1).
Definition VTD_PTE_ADDR : Z := GENMASK_ULL 63 12.
Definition VTD_PTE_HUGE : Z := Z.shiftl 1 7.
(** [PAGE_MASK], of [unsigned long] *)
Definition PAGE_MASK : Z := not64 (PAGE_SIZE - 1).

(** The machine, [vtd_reg_base] and the counter of [vtd_intr_index_alloc]. *)
Record iommu (St : Type) := Iommu {
  vt : vstate St;
  vtd_reg_base : Z;
  index_ctr : Z;
}.
Arguments Iommu {St}.
Arguments vt {St}.
Arguments vtd_reg_base {St}.
Arguments index_ctr {St}.

Section Iommu.
Context {St : Type} {io : PortIO St} {ops : PageAlloc St}.
(** The bound on the polls of the status register and on [while (size)]. *)
Context (fuel : nat).
#[local] Abbreviation vprog := (prog (iommu St)).

Definition hwst (s : iommu St) : St := mm (machine (vt s)).
Definition set_vt (v : vstate St) (s : iommu St) : iommu St := Iommu v (vtd_reg_base s) (index_ctr s).
Definition set_hwst (h : St) (s : iommu St) : iommu St := set_vt (set_alloc h (vt s)) s.
Definition on_hwst {A} (m : prog St A) : vprog A := zoom hwst set_hwst m.

Definition vtd_reg (reg : Z) : vprog Z :=
  b ← gets vtd_reg_base; assert (negb (b =? 0));; mret (b + reg).
Definition vtd_writel (reg value : Z) : vprog unit := a ← vtd_reg reg; on_hwst (mm_write 4 value a).
Definition vtd_writeq (reg value : Z) : vprog unit := a ← vtd_reg reg; on_hwst (mm_write 8 value a).
Definition vtd_readl (reg : Z) : vprog Z := a ← vtd_reg reg; on_hwst (mm_read 4 a).
Definition vtd_readq (reg : Z) : vprog Z := a ← vtd_reg reg; on_hwst (mm_read 8 a).

Definition vtd_root_table : vprog Z := v ← vtd_readq DMAR_RTADDR_REG; mret (Z.land v PAGE_MASK).
Definition vtd_ir_table : vprog Z := v ← vtd_readq DMAR_IRTA_REG; mret (Z.land v PAGE_MASK).

Definition gsts_poll (cmd : Z) (_ : unit) : vprog (unit + unit) :=
  v ← vtd_readl DMAR_GSTS_REG;
  mret (if Z.land v cmd =? 0 then inl () else inr ()).

Definition vtd_gcmd_or (cmd : Z) : vprog unit :=
  assert (is_power_of_2 cmd);;
  status ← vtd_readl DMAR_GSTS_REG;
  vtd_writel DMAR_GCMD_REG (Z.lor status cmd);;
  if negb (Z.land cmd VTD_GCMD_ONE_SHOT_BITS =? 0) then mret ()
  else iter fuel (gsts_poll cmd) ().

Definition vtd_dump_init_info : vprog unit :=
  version ← vtd_readl DMAR_VER_REG;
  assert (1 <=? Z.land (Z.shiftr version 3) 0xf);;
  _ ← vtd_readq DMAR_CAP_REG;
  _ ← vtd_readq DMAR_ECAP_REG;
  mret ().

(** [alloc_page] and [memset(page, 0, PAGE_SIZE)] *)
Definition alloc_zero_page : vprog Z :=
  page ← on_hwst pg_alloc_page; on_hwst (zero_page page);; mret page.

Definition vtd_setup_root_table : vprog unit :=
  root ← alloc_zero_page;
  vtd_writeq DMAR_RTADDR_REG root;;
  vtd_gcmd_or VTD_GCMD_ROOT;;
  _ ← vtd_root_table;
  mret ().

Definition vtd_setup_ir_table : vprog unit :=
  root ← alloc_zero_page;
  vtd_writeq DMAR_IRTA_REG (Z.lor root 0xf);;
  vtd_gcmd_or VTD_GCMD_IR_TABLE;;
  _ ← vtd_ir_table;
  mret ().

(** [for (level = VTD_PAGE_LEVEL; level > level_target; level--)], [n]
    iterations from [level] down. *)
Fixpoint vtd_walk (n : nat) (level : Z) (root iova : Z) : vprog Z :=
  match n with
  | O => mret root
  | S n' =>
      let a := pte_at root (PGDIR_OFFSET iova level) in
      e ← on_hwst (load64 a);
      (if Z.land e VTD_PTE_RW =? 0 then
         page ← alloc_zero_page;
         on_hwst (store64 a (Z.lor page VTD_PTE_RW))
       else mret ());;
      e ← on_hwst (load64 a);
      vtd_walk n' (level - 1) (Z.land e VTD_PTE_ADDR) iova
  end.

Definition vtd_install_pte (root iova pa : Z) (level_target : nat) : vprog unit :=
  root ← vtd_walk (VTD_PAGE_LEVEL - level_target) VTD_PAGE_LEVEL root iova;
  let a := pte_at root (PGDIR_OFFSET iova level_target) in
  on_hwst (store64 a (Z.lor pa VTD_PTE_RW));;
  if negb (level_target =? 1)%nat then
    e ← on_hwst (load64 a); on_hwst (store64 a (Z.lor e VTD_PTE_HUGE))
  else mret ().

(** ** Bit fields of the entries: [n] bits at bit [lo] of the quad at [a] *)
Definition with_bits (q lo n v : Z) : Z := q - field q lo n * 2 ^ lo + wrap n v * 2 ^ lo.
Definition store_bits (a lo n v : Z) : vprog unit :=
  q ← on_hwst (load64 a); on_hwst (store64 a (with_bits q lo n v)).
Definition load_bits (a lo n : Z) : vprog Z := q ← on_hwst (load64 a); mret (field q lo n).
(** [memset(p, 0, 16)], of an entry of two quads *)
Definition zero_entry (p : Z) : vprog unit :=
  on_hwst (modify (λ s, pg_set_mem (memset (pg_mem s) p 0 16) s)).

(** The context table of the bus, [re] is its root entry. *)
Definition root_entry_ctx (re : Z) : vprog Z :=
  present ← load_bits re 0 1;
  if present =? 0 then
    ce ← alloc_zero_page;
    zero_entry re;;
    store_bits re 12 52 (Z.shiftr ce PAGE_SHIFT);;
    store_bits re 0 1 1;;
    mret ce
  else p ← load_bits re 12 52; mret (u64 (Z.shiftl p PAGE_SHIFT)).

(** The page tables of the device, [ce] is its context entry. *)
Definition context_entry_slpt (ce sid : Z) : vprog Z :=
  present ← load_bits ce 0 1;
  if present =? 0 then
    slptptr ← alloc_zero_page;
    zero_entry ce;;
    store_bits (ce + 8) 8 16 sid;;                              (* domain_id *)
    store_bits (ce + 8) 0 3 VTD_CE_AW_39BIT;;                   (* addr_width *)
    store_bits ce 12 52 (Z.shiftr slptptr PAGE_SHIFT);;         (* slptptr *)
    store_bits ce 2 2 VTD_CONTEXT_TT_MULTI_LEVEL;;              (* trans_type *)
    store_bits ce 0 1 1;;                                       (* present *)
    store_bits ce 1 1 1;;                                       (* disable_fault_report *)
    mret slptptr
  else p ← load_bits ce 12 52; mret (u64 (Z.shiftl p PAGE_SHIFT)).

Definition map_step (slptptr : Z) '((iova, pa, size) : Z * Z * Z) : vprog (Z * Z * Z + unit) :=
  if size =? 0 then mret (inr ())
  else
    vtd_install_pte slptptr iova pa 1;;
    mret (inl (u64 (iova + PAGE_SIZE), u64 (pa + PAGE_SIZE), u64 (size - PAGE_SIZE))).

Definition vtd_map_range (sid iova pa size : Z) : vprog unit :=
  re ← vtd_root_table;
  assert (IS_ALIGNED iova PAGE_SIZE);;
  assert (IS_ALIGNED pa PAGE_SIZE);;
  assert (IS_ALIGNED size PAGE_SIZE);;
  let bus_n := Z.land (Z.shiftr sid 8) 0xff in
  let devfn := Z.land sid 0xff in
  ce ← root_entry_ctx (re + 16 * bus_n);
  slptptr ← context_entry_slpt (ce + 16 * devfn) sid;
  iter fuel (map_step slptptr) (iova, pa, size).

(** ** Interrupt remapping *)

Definition vtd_intr_index_alloc : vprog Z :=
  ctr ← gets index_ctr;
  assert (ctr <? 65535);;
  modify (λ s, Iommu (vt s) (vtd_reg_base s) (s32 (index_ctr s + 1)));;
  ctr ← gets index_ctr;
  mret (u16 ctr).

Definition vtd_setup_irte (dev : pci_dev) (irte vector dest_id trigger : Z) : vprog unit :=
  zero_entry irte;;
  store_bits irte 1 1 1;;                   (* fault_disable *)
  store_bits irte 2 1 0;;                   (* dest_mode *)
  store_bits irte 4 1 trigger;;             (* trigger_mode *)
  store_bits irte 5 3 0;;                   (* delivery_mode *)
  store_bits irte 15 1 0;;                  (* irte_mode *)
  store_bits irte 16 8 vector;;             (* vector *)
  store_bits irte 32 32 dest_id;;           (* dest_id *)
  store_bits (irte + 8) 0 16 (bdf dev);;    (* source_id *)
  store_bits (irte + 8) 16 2 0;;            (* sid_q *)
  store_bits (irte + 8) 18 2 1;;            (* sid_vtype *)
  store_bits irte 0 1 1.                    (* present *)

(** [vtd_msi_addr_t]: handle[15], shv, format, handle[14:0] and 0xfee. *)
Definition vtd_msi_addr (index : Z) : Z :=
  Z.land (Z.shiftr index 15) 1 * 2 ^ 2 + 0 * 2 ^ 3 + 1 * 2 ^ 4 + Z.land index 0x7fff * 2 ^ 5 +
  0xfee * 2 ^ 20.

Definition vtd_setup_msi (dev : pci_dev) (vector dest_id : Z) : vprog bool :=
  irte ← vtd_ir_table;
  index ← vtd_intr_index_alloc;
  vtd_setup_irte dev (irte + 16 * index) vector dest_id TRIGGER_EDGE;;
  on_hwst (pci_setup_msi dev (vtd_msi_addr index) 0).

(** [vtd_ioapic_entry_t] *)
Definition vtd_ioapic_entry (index vector trigger : Z) : Z :=
  wrap 8 vector + Z.land (Z.shiftr index 15) 1 * 2 ^ 11 + wrap 1 trigger * 2 ^ 15 + 1 * 2 ^ 48 +
  Z.land index 0x7fff * 2 ^ 49.

Definition vtd_setup_ioapic_irq (dev : pci_dev) (vector dest_id trigger : Z) : vprog unit :=
  irte ← vtd_ir_table;
  index ← vtd_intr_index_alloc;
  vtd_setup_irte dev (irte + 16 * index) vector dest_id trigger;;
  let entry := vtd_ioapic_entry index vector trigger in
  line ← on_hwst (pci_intx_line dev);
  on_hwst (ioapic_write_redir line (redir_of (u32 entry) (entry / 2 ^ 32))).

(** lib/x86/io.c *)
Definition ioremap (phys_addr size : Z) : vprog Z :=
  let base := Z.land phys_addr PAGE_MASK in
  let offset := u64 (phys_addr - base) in
  p ← zoom vt set_vt (vmap phys_addr size);
  mret (u64 (p + offset)).

Definition vtd_init : vprog unit :=
  p ← ioremap Q35_HOST_BRIDGE_IOMMU_ADDR PAGE_SIZE;
  modify (λ s, Iommu (vt s) p (index_ctr s));;
  vtd_dump_init_info;;
  vtd_gcmd_or VTD_GCMD_QI;;
  vtd_setup_root_table;;
  vtd_setup_ir_table;;
  vtd_gcmd_or VTD_GCMD_DMAR;;
  vtd_gcmd_or VTD_GCMD_IR.
End Iommu.

(** ** The tables as the hardware reads them

    A walk goes through the root table (entries of 16 bytes, indexed with the
    bus), the context table (with device and function) and three levels of page
    tables: [d] is the number of the table on the way, from 0 to 4, and the path
    of an address has five indices. *)

Definition esize (d : nat) : Z := if (d <? 2)%nat then 16 else 8.
Definition ewidth (d : nat) : Z := if (d <? 2)%nat then 256 else 512.
Definition slot_at (d : nat) (t i : Z) : Z := t + esize d * i.
Definition slot (m : mem) (d : nat) (t i : Z) : Z := ld64 m (slot_at d t i).
Definition vpresent (d : nat) (e : Z) : bool :=
  if (d <? 2)%nat then Z.testbit e 0 else negb (Z.land e VTD_PTE_RW =? 0).
(** A page of 1G or 2M. *)
Definition vhuge (d : nat) (e : Z) : bool := ((d =? 2) || (d =? 3))%nat && Z.testbit e 7.
Definition vnext (e : Z) : Z := Z.land e VTD_PTE_ADDR.

Fixpoint vwalk (m : mem) (d : nat) (t : Z) (π : list Z) : option (nat * Z) :=
  match π with
  | [] => None
  | i :: π' =>
      let e := slot m d t i in
      if negb (vpresent d e) then None
      else match π' with
           | [] => Some (d, e)
           | _ => if vhuge d e then Some (d, e) else vwalk m (S d) (vnext e) π'
           end
  end.

Definition dma_path (sid iova : Z) : list Z :=
  [Z.land (Z.shiftr sid 8) 0xff; Z.land sid 0xff; idx iova 3; idx iova 2; idx iova 1].
(** The bytes an entry of table [d] maps. *)
Definition dma_span (d : nat) : Z := span (5 - d).

(** The address that the device [sid] reaches at [iova]. *)
Definition dma (m : mem) (root sid iova : Z) : option Z :=
  '(d, e) ← vwalk m 0 root (dma_path sid iova);
  Some (vnext e / dma_span d * dma_span d + iova mod dma_span d).

(** ** Well-formed tables *)

Record vwf (m : mem) (root : Z) (T : gmap Z (list Z)) : Prop := {
  vwf_root : T !! root = Some [];
  vwf_table : ∀ t π, T !! t = Some π → table_ok t ∧ (length π <= 4)%nat;
  vwf_child : ∀ t π i, T !! t = Some π → (length π < 4)%nat → 0 <= i < ewidth (length π) →
    vpresent (length π) (slot m (length π) t i) = true →
    vhuge (length π) (slot m (length π) t i) = false ∧
    T !! vnext (slot m (length π) t i) = Some (π ++ [i]);
}.

Definition path_ok (d : nat) (π : list Z) : Prop := ∀ k i, π !! k = Some i → 0 <= i < ewidth (d + k).

Lemma path_ok_nil d : path_ok d [].
Proof. by intros [|k] i. Qed.

Lemma path_ok_cons d i π : path_ok d (i :: π) ↔ 0 <= i < ewidth d ∧ path_ok (S d) π.
Proof.
  unfold path_ok. split.
  - intros H. split; [rewrite <- (Nat.add_0_r d); by apply (H 0%nat)|].
    intros k j Hj. replace (S d + k)%nat with (d + S k)%nat by lia. by apply (H (S k)).
  - intros [H1 H2] [|k] j Hj; cbn in Hj.
    + injection Hj as <-. by rewrite Nat.add_0_r.
    + replace (d + S k)%nat with (S d + k)%nat by lia. by apply H2.
Qed.

Lemma dma_path_ok sid iova : path_ok 0 (dma_path sid iova).
Proof.
  unfold dma_path. change 0xff with (2 ^ 8 - 1). rewrite !mask_low by lia.
  rewrite !path_ok_cons. unfold ewidth. cbn [Nat.ltb Nat.leb].
  pose proof (idx_range iova 3). pose proof (idx_range iova 2). pose proof (idx_range iova 1).
  pose proof (Z.mod_pos_bound (Z.shiftr sid 8) (2 ^ 8) ltac:(lia)).
  pose proof (Z.mod_pos_bound sid (2 ^ 8) ltac:(lia)).
  pose proof (path_ok_nil 5). lia || (split_and!; lia || done).
Qed.

(** The table at the end of a path. *)
Fixpoint vreach (m : mem) (d : nat) (t : Z) (π : list Z) : option Z :=
  match π with
  | [] => Some t
  | i :: π' => if vpresent d (slot m d t i) then vreach m (S d) (vnext (slot m d t i)) π' else None
  end.

Lemma vreach_snoc m d t π i t' :
  vreach m d t π = Some t' →
  vreach m d t (π ++ [i]) =
    (let e := slot m (d + length π) t' i in if vpresent (d + length π) e then Some (vnext e) else None).
Proof.
  revert d t. induction π as [|j π IH]; intros d t; cbn [vreach app length].
  - intros [= ->]. rewrite Nat.add_0_r. done.
  - destruct (vpresent _ _); [|done]. intros H. rewrite (IH _ _ H).
    by replace (S d + length π)%nat with (d + S (length π))%nat by lia.
Qed.

Section Tables.
Context (m : mem) (root : Z) (T : gmap Z (list Z)) (Hwf : vwf m root T).

Lemma vreach_T d t ρ π t' :
  T !! t = Some ρ → d = length ρ → (length ρ + length π <= 4)%nat → path_ok d π →
  vreach m d t π = Some t' → T !! t' = Some (ρ ++ π).
Proof using All.
  revert d t ρ. induction π as [|i π IH]; intros d t ρ Ht Hd Hlen Hp; cbn [vreach length] in *.
  - intros [= <-]. by rewrite app_nil_r.
  - apply path_ok_cons in Hp as [Hi Hp]. subst d. destruct (vpresent _ _) eqn:Ep; [|done]. intros Hr.
    destruct (vwf_child _ _ _ Hwf t ρ i Ht ltac:(lia) Hi Ep) as [_ Hc].
    rewrite (cons_middle i ρ π), app_assoc. apply (IH (S (length ρ)) _ (ρ ++ [i]) Hc);
      rewrite ?length_app; cbn; done || lia.
Qed.

Lemma vwalk_reach d t ρ π1 π2 t' :
  T !! t = Some ρ → d = length ρ → (length ρ + length π1 <= 4)%nat → path_ok d π1 → π2 ≠ [] →
  vreach m d t π1 = Some t' → vwalk m d t (π1 ++ π2) = vwalk m (d + length π1) t' π2.
Proof using All.
  revert d t ρ. induction π1 as [|i π IH]; intros d t ρ Ht Hd Hlen Hp Hne; cbn [vreach app length] in *.
  - intros [= ->]. by rewrite Nat.add_0_r.
  - apply path_ok_cons in Hp as [Hi Hp]. subst d. destruct (vpresent _ _) eqn:Ep; [|done]. intros Hr.
    destruct (vwf_child _ _ _ Hwf t ρ i Ht ltac:(lia) Hi Ep) as [Hh Hc].
    cbn [vwalk]. rewrite Ep, Hh. cbn [negb].
    assert (vwalk m (S (length ρ)) (vnext (slot m (length ρ) t i)) (π ++ π2) =
            vwalk m (S (length ρ) + length π) t' π2) as HI.
    { apply (IH _ _ (ρ ++ [i]) Hc); rewrite ?length_app; cbn; done || lia. }
    replace (length ρ + S (length π))%nat with (S (length ρ) + length π)%nat by lia. rewrite <- HI.
    destruct (π ++ π2) eqn:E; [by apply app_eq_nil in E as [_ ?]|done].
Qed.

(** [m'] differs from [m] in the entry [i0] of the table [t0] only. *)
Context (m' : mem) (t0 : Z) (π0 : list Z) (i0 : Z) (Ht0 : T !! t0 = Some π0).
Context (Hagree : ∀ t π i, T !! t = Some π → 0 <= i < ewidth (length π) → (t, i) ≠ (t0, i0) →
  slot m' (length π) t i = slot m (length π) t i).

Lemma vwalk_off d t ρ π :
  T !! t = Some ρ → d = length ρ → (length ρ + length π <= 5)%nat → path_ok d π →
  ¬ (π0 ++ [i0] `prefix_of` ρ ++ π) → vwalk m' d t π = vwalk m d t π.
Proof using All.
  revert d t ρ. induction π as [|i π IH]; intros d t ρ Ht Hd Hlen Hp Hpre; cbn [vwalk]; [done|].
  apply path_ok_cons in Hp as [Hi Hp]. subst d. cbn [length] in Hlen.
  assert (slot m' (length ρ) t i = slot m (length ρ) t i) as E.
  { apply Hagree; [done..|]. intros [= -> ->]. rewrite Ht in Ht0. injection Ht0 as ->.
    apply Hpre. exists π. by rewrite <- app_assoc. }
  rewrite E. destruct (vpresent _ _) eqn:Ep; [|done]. cbn [negb].
  destruct π as [|j π]; [done|]. destruct (vhuge _ _) eqn:Eh; [done|]. cbn [length] in Hlen.
  destruct (vwf_child _ _ _ Hwf t ρ i Ht ltac:(lia) Hi Ep) as [_ Hc].
  apply (IH (S (length ρ)) _ (ρ ++ [i]) Hc); rewrite ?length_app, <- ?app_assoc; cbn; done || lia.
Qed.

Lemma vreach_off d t ρ π :
  T !! t = Some ρ → d = length ρ → (length ρ + length π <= 4)%nat → path_ok d π →
  ¬ (π0 ++ [i0] `prefix_of` ρ ++ π) → vreach m' d t π = vreach m d t π.
Proof using All.
  revert d t ρ. induction π as [|i π IH]; intros d t ρ Ht Hd Hlen Hp Hpre; cbn [vreach]; [done|].
  apply path_ok_cons in Hp as [Hi Hp]. subst d. cbn [length] in Hlen.
  assert (slot m' (length ρ) t i = slot m (length ρ) t i) as E.
  { apply Hagree; [done..|]. intros [= -> ->]. rewrite Ht in Ht0. injection Ht0 as ->.
    apply Hpre. exists π. by rewrite <- app_assoc. }
  rewrite E. destruct (vpresent _ _) eqn:Ep; [|done].
  destruct (vwf_child _ _ _ Hwf t ρ i Ht ltac:(lia) Hi Ep) as [_ Hc].
  apply (IH (S (length ρ)) _ (ρ ++ [i]) Hc); rewrite ?length_app, <- ?app_assoc; cbn; done || lia.
Qed.

Lemma no_prefix_self : ¬ (π0 ++ [i0] `prefix_of` π0).
Proof using Type. intros H%prefix_length. rewrite length_app in H. cbn in H. lia. Qed.
End Tables.

(** ** Changing one entry *)

(** Tables are reached as before. *)
Definition keeps (m m' : mem) (root : Z) : Prop :=
  ∀ π t, path_ok 0 π → (length π <= 4)%nat → vreach m 0 root π = Some t → vreach m' 0 root π = Some t.

Lemma vreach_app m d t π1 π2 :
  vreach m d t (π1 ++ π2) = (t' ← vreach m d t π1; vreach m (d + length π1) t' π2).
Proof.
  revert d t. induction π1 as [|i π IH]; intros d t; cbn [vreach app length].
  - by rewrite Nat.add_0_r.
  - destruct (vpresent _ _); [|done]. rewrite IH.
    by replace (S d + length π)%nat with (d + S (length π))%nat by lia.
Qed.

Definition in_slot (d : nat) (t i x : Z) : Prop := slot_at d t i <= x < slot_at d t i + esize d.

Lemma slot_in_page d t i : 0 <= i < ewidth d → t <= slot_at d t i ∧ slot_at d t i + esize d <= t + PAGE_SIZE.
Proof. unfold slot_at, esize, ewidth. destruct (d <? 2)%nat; lia. Qed.

Lemma slot_ext m m' d t i :
  (∀ x, in_slot d t i x → rd8 m' x = rd8 m x) → slot m' d t i = slot m d t i.
Proof.
  intros H. apply ldn_ext. intros x Hx. apply H. unfold in_slot, esize. destruct (d <? 2)%nat; lia.
Qed.

Lemma slots_apart d t i j : i ≠ j → ∀ x, in_slot d t i x → ¬ in_slot d t j x.
Proof. unfold in_slot, slot_at, esize. destruct (d <? 2)%nat; lia. Qed.

Lemma agree_slots m m' root T t0 π0 i0 (P : Z → Prop) :
  vwf m root T → T !! t0 = Some π0 → 0 <= i0 < ewidth (length π0) →
  (∀ x, ¬ in_slot (length π0) t0 i0 x → ¬ P x → rd8 m' x = rd8 m x) →
  (∀ t x, is_Some (T !! t) → t <= x < t + PAGE_SIZE → ¬ P x) →
  ∀ t π i, T !! t = Some π → 0 <= i < ewidth (length π) → (t, i) ≠ (t0, i0) →
    slot m' (length π) t i = slot m (length π) t i.
Proof.
  intros Hwf Ht0 Hi0 Hout HP t π i Ht Hi Hne.
  pose proof (slot_in_page _ t i Hi) as Hs. pose proof (slot_in_page _ t0 i0 Hi0) as Hs0.
  apply slot_ext. intros x Hx. assert (t <= x < t + PAGE_SIZE) as Hx' by (unfold in_slot in Hx; lia).
  apply Hout; [|by eapply HP].
  destruct (decide (t = t0)) as [->|Htt].
  - rewrite Ht in Ht0. injection Ht0 as ->. apply (slots_apart _ _ i i0); [congruence|done].
  - destruct (vwf_table _ _ _ Hwf _ _ Ht) as [[Hp _] _].
    destruct (vwf_table _ _ _ Hwf _ _ Ht0) as [[Hp0 _] _].
    destruct (page_apart t t0 Hp Hp0 Htt); unfold in_slot; lia.
Qed.

Section Update.
Context (m m' : mem) (root : Z) (T : gmap Z (list Z)) (π0 : list Z) (t0 i0 : Z).
Context (Hwf : vwf m root T) (Hr : vreach m 0 root π0 = Some t0).
Context (Hp0 : path_ok 0 π0) (Hi0 : 0 <= i0 < ewidth (length π0)).

Lemma update_T : (length π0 <= 4)%nat → T !! t0 = Some π0.
Proof using All.
  intros Hl. apply (vreach_T m root T Hwf 0 root [] π0); try done. apply Hwf.
Qed.

(** An entry of the last table. *)
Lemma set_leaf :
  length π0 = 4%nat → (∀ x, ¬ in_slot (length π0) t0 i0 x → rd8 m' x = rd8 m x) →
  vwf m' root T ∧ keeps m m' root ∧
  ∀ π, length π = 5%nat → path_ok 0 π → vwalk m' 0 root π =
    if decide (π = π0 ++ [i0]) then
      if vpresent 4 (slot m' 4 t0 i0) then Some (4%nat, slot m' 4 t0 i0) else None
    else vwalk m 0 root π.
Proof using All.
  intros Hl Hout. pose proof (update_T ltac:(lia)) as Ht0.
  pose proof (agree_slots m m' root T t0 π0 i0 (λ _, False) Hwf Ht0 Hi0
                ltac:(intros; by apply Hout) ltac:(naive_solver)) as Ha.
  assert (vwf m' root T) as Hwf'.
  { split; [apply Hwf|apply Hwf|]. intros t π i Ht Hlt Hi.
    assert ((t, i) ≠ (t0, i0)) by (intros [= -> ->]; rewrite Ht in Ht0; injection Ht0 as ->; lia).
    rewrite (Ha t π i) by done. by apply Hwf. }
  assert (vreach m' 0 root π0 = Some t0) as Hr'.
  { rewrite (vreach_off m root T Hwf m' t0 π0 i0 Ht0 Ha 0 root []); try done;
      [apply Hwf|cbn; lia|apply no_prefix_self]. }
  split; [done|]. split.
  { intros π t Hok Hπ Hrπ.
    rewrite (vreach_off m root T Hwf m' t0 π0 i0 Ht0 Ha 0 root []); try done; [apply Hwf|].
    intros Hp%prefix_length. rewrite length_app in Hp. cbn in Hp. lia. }
  intros π Hπ Hok. case_decide as E.
  - subst π. rewrite (vwalk_reach m' root T Hwf' 0 root [] π0 [i0] t0); try done; [|apply Hwf'|cbn; lia].
    rewrite Hl. cbn [Nat.add vwalk]. by destruct (vpresent _ _).
  - apply (vwalk_off m root T Hwf m' t0 π0 i0 Ht0 Ha 0 root []); try done; [apply Hwf|cbn; lia|].
    cbn. intros [ρ ->]. rewrite !length_app in Hπ. cbn in Hπ. destruct ρ; [by rewrite app_nil_r in E|cbn in Hπ; lia].
Qed.

(** A fresh zeroed table [p] is linked. *)
Lemma link_vtd_table p :
  (length π0 < 4)%nat → table_ok p → T !! p = None →
  vpresent (length π0) (slot m (length π0) t0 i0) = false →
  (∀ x, ¬ in_slot (length π0) t0 i0 x → ¬ (p <= x < p + PAGE_SIZE) → rd8 m' x = rd8 m x) →
  (∀ x, p <= x < p + PAGE_SIZE → rd8 m' x = 0) →
  vpresent (length π0) (slot m' (length π0) t0 i0) = true →
  vhuge (length π0) (slot m' (length π0) t0 i0) = false →
  vnext (slot m' (length π0) t0 i0) = p →
  vwf m' root (<[p := π0 ++ [i0]]> T) ∧ vreach m' 0 root (π0 ++ [i0]) = Some p ∧ keeps m m' root ∧
  ∀ π, length π = 5%nat → path_ok 0 π → vwalk m' 0 root π = vwalk m 0 root π.
Proof using All.
  intros Hl Hp HTp Habs Hout Hz He1 He2 He3. pose proof (update_T ltac:(lia)) as Ht0.
  assert (∀ t x, is_Some (T !! t) → t <= x < t + PAGE_SIZE → ¬ (p <= x < p + PAGE_SIZE)) as HP.
  { intros t x [π Ht] Hx. destruct (vwf_table _ _ _ Hwf _ _ Ht) as [[Hpt _] _].
    destruct (page_apart t p Hpt (proj1 Hp)); [congruence|lia..]. }
  pose proof (agree_slots m m' root T t0 π0 i0 _ Hwf Ht0 Hi0 Hout HP) as Ha.
  assert (∀ d i, 0 <= i < ewidth d → vpresent d (slot m' d p i) = false) as Hzero.
  { intros d i Hi. pose proof (slot_in_page d p i Hi) as Hs. 
    assert (slot m' d p i = 0) as ->; [|unfold vpresent; by destruct (d <? 2)%nat].
    unfold slot. rewrite (ldn_ext 8 m' ∅); [done|]. intros x Hx. rewrite rd8_empty. apply Hz.
    unfold esize in Hs. destruct (d <? 2)%nat; lia. }
  assert (p ≠ t0) as Hpt0 by congruence.
  assert (vwf m' root (<[p := π0 ++ [i0]]> T)) as Hwf'.
  { split.
    - rewrite lookup_insert_ne; [apply Hwf|]. intros ->. rewrite (vwf_root _ _ _ Hwf) in HTp. done.
    - intros t π. destruct (decide (t = p)) as [->|Hne].
      + rewrite lookup_insert_eq. intros [= <-]. rewrite length_app. cbn. split; [done|lia].
      + rewrite lookup_insert_ne by done. apply Hwf.
    - intros t π i. destruct (decide (t = p)) as [->|Hne].
      + rewrite lookup_insert_eq. intros [= <-] _ Hi. by rewrite Hzero.
      + rewrite lookup_insert_ne by done. intros Ht Hlt Hi Hpr.
        destruct (decide ((t, i) = (t0, i0))) as [[= -> ->]|Hd].
        * rewrite Ht in Ht0. injection Ht0 as ->. rewrite He3, lookup_insert_eq. done.
        * rewrite (Ha t π i) in Hpr |- * by done. destruct (vwf_child _ _ _ Hwf t π i Ht Hlt Hi Hpr) as [H1 H2].
          split; [done|]. rewrite lookup_insert_ne; [done|congruence]. }
  assert (vreach m' 0 root π0 = Some t0) as Hr'.
  { rewrite (vreach_off m root T Hwf m' t0 π0 i0 Ht0 Ha 0 root []); try done;
      [apply Hwf|cbn; lia|apply no_prefix_self]. }
  split; [done|]. split.
  { rewrite (vreach_snoc _ _ _ _ _ _ Hr'). cbn. by rewrite He1, He3. }
  split.
  { intros π t Hok Hπ Hrπ. destruct (decide (π0 ++ [i0] `prefix_of` π)) as [[ρ ->]|Hpre].
    - rewrite vreach_app, (vreach_snoc _ _ _ _ _ _ Hr) in Hrπ. cbn in Hrπ. by rewrite Habs in Hrπ.
    - rewrite (vreach_off m root T Hwf m' t0 π0 i0 Ht0 Ha 0 root []); try done. apply Hwf. }
  intros π Hπ Hok. destruct (decide (π0 ++ [i0] `prefix_of` π)) as [[ρ ->]|Hpre].
  - rewrite <- app_assoc in *. rewrite !length_app in Hπ. cbn in Hπ.
    assert (vwalk m' (S (length π0)) p ρ = None) as Hn.
    { destruct ρ as [|j ρ]; [done|]. cbn [vwalk]. rewrite Hzero; [done|].
      specialize (Hok (S (length π0)) j). rewrite lookup_app_r in Hok by lia.
      replace (S (length π0) - length π0)%nat with 1%nat in Hok by lia. by apply Hok. }
    rewrite (vwalk_reach m' _ _ Hwf' 0 root [] π0 _ t0); try done; [|apply Hwf'|cbn; lia].
    rewrite (vwalk_reach m _ _ Hwf 0 root [] π0 _ t0); try done; [|apply Hwf|cbn; lia].
    cbn [app vwalk Nat.add length]. rewrite He1, He2, He3, Habs. cbn [negb].
    destruct ρ as [|j ρ]; [cbn in Hπ; lia|]. exact Hn.
  - apply (vwalk_off m root T Hwf m' t0 π0 i0 Ht0 Ha 0 root []); try done; [apply Hwf|cbn; lia].
Qed.
End Update.

(** ** Values of entries *)

Lemma vnext_spec e : 0 <= e < 2 ^ 64 → vnext e = e - e mod PAGE_SIZE.
Proof.
  intros He. unfold vnext. change VTD_PTE_ADDR with (not64 (2 ^ 12 - 1)). by apply mask_high.
Qed.

Lemma vnext_field e : 0 <= e < 2 ^ 64 → u64 (Z.shiftl (field e 12 52) PAGE_SHIFT) = vnext e.
Proof.
  intros He. rewrite vnext_spec by done. unfold field. rewrite Z.shiftl_mul_pow2 by done.
  change (2 ^ PAGE_SHIFT) with 4096. mlia.
Qed.

Lemma field_bit e : field e 0 1 = if Z.testbit e 0 then 1 else 0.
Proof. unfold field. rewrite Z.div_1_r, Z.bit0_odd, Zmod_odd. done. Qed.

Lemma page_bit p k : p mod PAGE_SIZE = 0 → 0 <= k < 12 → Z.testbit p k = false.
Proof.
  intros Hp Hk. rewrite <- (Z.mod_pow2_bits_low p 12) by lia.
  change (2 ^ 12) with PAGE_SIZE. rewrite Hp. apply Z.bits_0.
Qed.

Lemma page_flag_bit p f k :
  p mod PAGE_SIZE = 0 → 0 <= k < 12 → Z.testbit (Z.lor p f) k = Z.testbit f k.
Proof. intros Hp Hk. by rewrite Z.lor_spec, page_bit. Qed.

(** The quad of a table at [p]: its address with some flags. *)
Lemma page_flags_entry p f d :
  table_ok p → 0 < f < 128 → Z.testbit f 0 = true →
  0 <= Z.lor p f < 2 ^ 64 ∧ Z.lor p f = p + f ∧ vnext (Z.lor p f) = p ∧
  vpresent d (Z.lor p f) = true ∧ vhuge d (Z.lor p f) = false.
Proof.
  intros ((Hp0 & Hpm & Hp64) & Hp52) Hf Hf0.
  destruct (pte_flags p f Hpm) as [_ E]; [lia..|].
  split; [lia|]. split; [done|]. split; [|split].
  - rewrite E, vnext_spec by lia. mlia.
  - unfold vpresent. destruct (d <? 2)%nat; [by rewrite page_flag_bit|].
    apply negb_true_iff, Z.eqb_neq. intros H. apply (f_equal (λ x, Z.testbit x 0)) in H.
    rewrite Z.land_spec, page_flag_bit, Hf0, Z.bits_0 in H by (done || lia). done.
  - unfold vhuge. rewrite page_flag_bit by (done || lia).
    replace (Z.testbit f 7) with false; [by rewrite andb_false_r|].
    rewrite <- (wrap_small 7 f) by lia. by rewrite testbit_wrap.
Qed.

Lemma root_entry_value p :
  table_ok p → with_bits (with_bits 0 12 52 (Z.shiftr p PAGE_SHIFT)) 0 1 1 = Z.lor p 1.
Proof.
  intros Hp. destruct (page_flags_entry p 1 0 Hp ltac:(lia) eq_refl) as (_ & -> & _).
  destruct Hp as ((Hp0 & Hpm & _) & Hp52). rewrite Z.shiftr_div_pow2 by done.
  change (2 ^ PAGE_SHIFT) with 4096. unfold with_bits, field. mlia.
Qed.

Lemma context_entry_value p :
  table_ok p →
  with_bits (with_bits (with_bits (with_bits 0 12 52 (Z.shiftr p PAGE_SHIFT)) 2 2 0) 0 1 1) 1 1 1 = Z.lor p 3.
Proof.
  intros Hp. destruct (page_flags_entry p 3 0 Hp ltac:(lia) eq_refl) as (_ & -> & _).
  destruct Hp as ((Hp0 & Hpm & _) & Hp52). rewrite Z.shiftr_div_pow2 by done.
  change (2 ^ PAGE_SHIFT) with 4096.
  apply Z.mod_divide in Hpm as [k ->]; [|lia]. rewrite Z.div_mul by lia.
  assert (with_bits 0 12 52 k = k * 4096) as -> by (unfold with_bits, field; mlia).
  assert (with_bits (k * 4096) 2 2 0 = k * 4096) as -> by (unfold with_bits, field; mlia).
  assert (with_bits (k * 4096) 0 1 1 = k * 4096 + 1) as -> by (unfold with_bits, field; mlia).
  unfold with_bits, field. mlia.
Qed.

Lemma with_bits_range q lo n v :
  0 <= q < 2 ^ 64 → 0 <= lo → 0 <= n → lo + n <= 64 → 0 <= with_bits q lo n v < 2 ^ 64.
Proof.
  intros Hq Hlo Hn Hs. unfold with_bits.
  pose proof (Z.pow_pos_nonneg 2 lo ltac:(lia) Hlo) as P1.
  pose proof (Z.pow_pos_nonneg 2 n ltac:(lia) Hn) as P2.
  pose proof (wrap_range n v Hn) as Hw. pose proof (field_range q lo n Hn) as Hf. unfold field in *.
  assert (2 ^ 64 = 2 ^ (64 - lo - n) * 2 ^ n * 2 ^ lo) as E
    by (rewrite <- !Z.pow_add_r by lia; f_equal; lia).
  set (a := 2 ^ lo) in *. set (b := 2 ^ n) in *. set (c := 2 ^ (64 - lo - n)) in *.
  assert (0 < c) by (apply Z.pow_pos_nonneg; lia).
  pose proof (Z.div_mod q a ltac:(lia)) as D1. pose proof (Z.mod_pos_bound q a P1) as B1.
  pose proof (Z.div_mod (q / a) b ltac:(lia)) as D2. pose proof (Z.mod_pos_bound (q / a) b P2) as B2.
  set (h := q / a / b) in *. set (f := q / a mod b) in *. set (r := q mod a) in *. set (w := wrap n v) in *.
  assert (0 <= h < c) as Hh.
  { unfold h. rewrite Z.div_div by lia. split; [apply Z.div_pos; nia|].
    apply Z.div_lt_upper_bound; nia. }
  assert (q = (h * b + f) * a + r) as Eq by (rewrite Z.mul_comm, (Z.mul_comm h), <- D2; exact D1).
  assert (q - f * a + w * a = (h * b + w) * a + r) as -> by (rewrite Eq at 1; ring).
  assert (0 <= h * b + w < c * b) by nia. split; [nia|]. rewrite E. nia.
Qed.

(** ** The operations *)

(** The registers the tables depend on: the root table and the interrupt
    remapping table; they are mapped at [vt_base]. *)
Class VtdLaws (St : Type) {io : PortIO St} := {
  vt_base : Z;
  vt_root : St → Z;
  vt_ir : St → Z;
  vt_base_nz : vt_base ≠ 0;
  vt_rd_root s : mm_read 8 (vt_base + DMAR_RTADDR_REG) s = Ret (vt_root s, s);
  vt_rd_ir s : mm_read 8 (vt_base + DMAR_IRTA_REG) s = Ret (vt_ir s, s);
}.

Section Driver.
Context {St : Type} {io : PortIO St} {ops : PageAlloc St} {laws : PageAllocLaws St} {vl : VtdLaws St}.

Abbreviation memory s := (pg_mem (hwst s)).

Definition vinv (s : iommu St) (root : Z) (T : gmap Z (list Z)) (l : list Z) : Prop :=
  vwf (memory s) root T ∧ pg_avail (hwst s) l ∧ ∀ p, p ∈ l → (T !! p = None) ∧ p + PAGE_SIZE <= 2 ^ 52.

(** Only the hardware state has changed. *)
Definition same_driver (s s' : iommu St) : Prop := s' = set_hwst (hwst s') s.

Lemma same_driver_trans s1 s2 s3 : same_driver s1 s2 → same_driver s2 s3 → same_driver s1 s3.
Proof.
  unfold same_driver. intros E1 E2. rewrite E2 at 1. rewrite E1. by destruct s1 as [[[]]].
Qed.

Lemma same_driver_set (s : iommu St) h : same_driver s (set_hwst h s).
Proof. unfold same_driver. by destruct s as [[[]]]. Qed.

Lemma set_hwst_id (s : iommu St) : set_hwst (hwst s) s = s.
Proof. by destruct s as [[[]]]. Qed.

Lemma same_driver_refl (s : iommu St) : same_driver s s.
Proof. unfold same_driver. by rewrite set_hwst_id. Qed.

Lemma hwst_set (s : iommu St) h : hwst (set_hwst h s) = h.
Proof. done. Qed.

Lemma wp_load a s (Q : Z → iommu St → Prop) : Q (ld64 (memory s) a) s → wp (on_hwst (load64 a)) Q s.
Proof. intros H. unfold on_hwst. wstep. apply wp_load64. by rewrite set_hwst_id. Qed.

Lemma wp_store a v s (Q : unit → iommu St → Prop) :
  Q () (set_hwst (pg_set_mem (st64 (memory s) a v) (hwst s)) s) → wp (on_hwst (store64 a v)) Q s.
Proof. done. Qed.

(** While an entry of 16 bytes at [E] is filled in: the free pages are kept, the
    memory around the entry is [m1], and its quads are [q0] and [q1]. *)
Definition filling (s0 : iommu St) (m1 : mem) (E : Z) (l : list Z) (q0 q1 : Z) (s : iommu St) : Prop :=
  pg_avail (hwst s) l ∧ (∀ x, (x < E ∨ E + 16 <= x) → rd8 (memory s) x = rd8 m1 x) ∧
  ld64 (memory s) E = q0 ∧ ld64 (memory s) (E + 8) = q1 ∧ same_driver s0 s.

Definition off_pages (E n : Z) (l : list Z) : Prop :=
  ∀ q, q ∈ l → q + PAGE_SIZE <= E ∨ E + n <= q.

Lemma zero_entry_wp s0 m1 E l s :
  off_pages E 16 l → pg_avail (hwst s) l → memory s = m1 → same_driver s0 s →
  wp (zero_entry E) (λ _ s', filling s0 m1 E l 0 0 s') s.
Proof using All.
  intros Hoff Hav Em Hs. unfold zero_entry, on_hwst. wstep. wstep.
  assert (∀ a, E <= a → a + 8 <= E + 16 → ld64 (memset (pg_mem (hwst s)) E 0 16) a = 0) as Hz.
  { intros a H1 H2. rewrite (ldn_ext 8 _ ∅); [done|]. intros x Hx. rewrite rd8_empty.
    rewrite memset_in; [done|lia]. }
  unfold filling. rewrite !hwst_set, !pg_mem_set. split_and!.
  - apply pg_avail_write; [done|]. intros q x Hq Hx. apply memset_out. destruct (Hoff q Hq); lia.
  - intros x Hx. rewrite <- Em. apply memset_out. lia.
  - apply Hz; lia.
  - apply Hz; lia.
  - eapply same_driver_trans; [exact Hs|apply same_driver_set].
Qed.

Lemma store_bits_wp s0 m1 E l q0 q1 lo n v (second : bool) s :
  off_pages E 16 l → 0 <= lo → 0 <= n → lo + n <= 64 → filling s0 m1 E l q0 q1 s →
  wp (store_bits (if second then E + 8 else E) lo n v) (λ _ s',
    if second then filling s0 m1 E l q0 (with_bits q1 lo n v) s'
    else filling s0 m1 E l (with_bits q0 lo n v) q1 s') s.
Proof using All.
  intros Hoff H1 H2 H3 (Hav & Hout & E0 & E1 & Hs). unfold store_bits. wstep. apply wp_load, wp_store.
  set (a := if second then E + 8 else E).
  assert (E <= a ∧ a + 8 <= E + 16) as Ha by (unfold a; destruct second; lia).
  pose proof (ldn_range 8 (memory s) a) as Hr. change (2 ^ (8 * 8%nat)) with (2 ^ 64) in Hr.
  pose proof (with_bits_range _ lo n v Hr H1 H2 H3) as Hw.
  set (w := with_bits (ld64 (memory s) a) lo n v) in *.
  assert (pg_avail (pg_set_mem (st64 (memory s) a w) (hwst s)) l) as Hav'.
  { apply pg_avail_write; [done|]. intros q x Hq Hx. apply rd8_stn_other. destruct (Hoff q Hq); lia. }
  assert (∀ x, (x < E ∨ E + 16 <= x) → rd8 (st64 (memory s) a w) x = rd8 m1 x) as Hout'.
  { intros x Hx. rewrite rd8_stn_other by lia. by apply Hout. }
  assert (same_driver s0 (set_hwst (pg_set_mem (st64 (memory s) a w) (hwst s)) s)) as Hs'
    by (eapply same_driver_trans; [exact Hs|apply same_driver_set]).
  unfold filling, a, w in *. destruct second;
    rewrite !hwst_set, !pg_mem_set; split_and!; try done.
  - by rewrite ldn_stn_other by lia.
  - rewrite ld64_st64_same by done. by rewrite <- E1.
  - rewrite ld64_st64_same by done. by rewrite <- E0.
  - by rewrite ldn_stn_other by lia.
Qed.

End Driver.

(** [fill E lo n b H]: the next [store_bits] of an entry at [E], into its first
    or ([b]) its second quad. *)
Ltac fill E lo n b H :=
  eapply wp_mono; [by eapply (store_bits_wp _ _ E _ _ _ lo n _ b)|];
  cbv iota; intros [] ? H; try wstep.

Section Mapping.
Context {St : Type} {io : PortIO St} {ops : PageAlloc St} {laws : PageAllocLaws St} {vl : VtdLaws St}.

Abbreviation memory s := (pg_mem (hwst s)).

Lemma vinv_page s root T p l :
  vinv s root T (p :: l) → table_ok p ∧ (T !! p = None) ∧ (p ∉ l) ∧
    ∀ q, q ∈ l → q + PAGE_SIZE <= p ∨ p + PAGE_SIZE <= q.
Proof using All.
  intros (_ & Hav & Hfr). destruct (pg_avail_ok _ _ Hav) as [Hok Hnd].
  apply Forall_cons in Hok as [Hp Hok]. apply NoDup_cons in Hnd as [Hpl _].
  destruct (Hfr p ltac:(by left)) as [HT H52]. split_and!; try done. intros q Hq.
  rewrite Forall_forall in Hok. destruct (page_apart q p (Hok q Hq) Hp); [congruence|by left|by right].
Qed.

Lemma vinv_table s root T l t π :
  vinv s root T l → T !! t = Some π → page_ok t ∧ off_pages t PAGE_SIZE l.
Proof using All.
  intros (Hwf & Hav & Hfr) Ht. destruct (vwf_table _ _ _ Hwf _ _ Ht) as [[Hp _] _].
  split; [done|]. intros q Hq. destruct (pg_avail_ok _ _ Hav) as [Hok _]. rewrite Forall_forall in Hok.
  destruct (Hfr q Hq) as [HT _]. destruct (page_apart q t (Hok q Hq) Hp); [congruence|by left|by right].
Qed.

Lemma alloc_zero_page_wp s root T p l :
  vinv s root T (p :: l) →
  wp alloc_zero_page (λ r s', r = p ∧ same_driver s s' ∧ pg_avail (hwst s') l ∧
    (∀ x, p <= x < p + PAGE_SIZE → rd8 (memory s') x = 0) ∧
    (∀ x, (x < p ∨ p + PAGE_SIZE <= x) → rd8 (memory s') x = rd8 (memory s) x)) s.
Proof using All.
  intros Hinv. destruct (vinv_page _ _ _ _ _ Hinv) as (_ & _ & _ & Hapart).
  destruct Hinv as (_ & Hav & _). unfold alloc_zero_page, on_hwst. do 2 wstep.
  eapply wp_mono; [by apply pg_alloc_wp|]. cbn beta iota. intros r h (-> & Hav' & Em).
  unfold zero_page. do 4 wstep. rewrite !hwst_set, !pg_mem_set, Em.
  split; [done|]. split; [|split; [|split]].
  - eapply same_driver_trans; apply same_driver_set.
  - apply pg_avail_write; [done|]. intros q x Hq Hx. rewrite Em. apply memset_out. destruct (Hapart q Hq); lia.
  - intros x Hx. apply memset_in. lia.
  - intros x Hx. apply memset_out. lia.
Qed.

(** The table at the end of [π] is there, and nothing is translated differently. *)
Definition linked (k : nat) (s : iommu St) (root : Z) (l : list Z) (π : list Z) (r : Z) (s' : iommu St) : Prop :=
  ∃ T' l' used, vinv s' root T' l' ∧ l = used ++ l' ∧ (length used <= k)%nat ∧
    vreach (memory s') 0 root π = Some r ∧ same_driver s s' ∧ keeps (memory s) (memory s') root ∧
    ∀ π', length π' = 5%nat → path_ok 0 π' → vwalk (memory s') 0 root π' = vwalk (memory s) 0 root π'.

Lemma linked_same k s root T l π r s' :
  vinv s root T l → vreach (memory s) 0 root π = Some r → s' = s → linked k s root l π r s'.
Proof using All.
  intros Hinv Hr ->. exists T, l, []. split_and!; try done; [cbn; lia|apply same_driver_refl|].
  by intros π' t _ _.
Qed.

Lemma linked_new s root T p l π0 t0 i0 s' :
  vinv s root T (p :: l) → vreach (memory s) 0 root π0 = Some t0 → path_ok 0 π0 →
  0 <= i0 < ewidth (length π0) → (length π0 < 4)%nat →
  vpresent (length π0) (slot (memory s) (length π0) t0 i0) = false →
  (∀ x, ¬ in_slot (length π0) t0 i0 x → ¬ (p <= x < p + PAGE_SIZE) → rd8 (memory s') x = rd8 (memory s) x) →
  (∀ x, p <= x < p + PAGE_SIZE → rd8 (memory s') x = 0) →
  (∃ f, slot (memory s') (length π0) t0 i0 = Z.lor p f ∧ 0 < f < 128 ∧ Z.testbit f 0 = true) →
  pg_avail (hwst s') l → same_driver s s' →
  linked 1 s root (p :: l) (π0 ++ [i0]) p s'.
Proof using All.
  intros Hinv Hr Hok Hi Hlen Habs Hout Hz (f & Ef & Hf & Hf0) Hav Hs.
  destruct (vinv_page _ _ _ _ _ Hinv) as (Hp & HTp & Hpl & _). destruct Hinv as (Hwf & _ & Hfr).
  destruct (page_flags_entry p f (length π0) Hp Hf Hf0) as (_ & _ & E1 & E2 & E3).
  destruct (link_vtd_table (memory s) (memory s') root T π0 t0 i0 Hwf Hr Hok Hi p) as (Hwf' & Hr' & Hk & Hw);
    try done; rewrite ?Ef; try done.
  exists (<[p := π0 ++ [i0]]> T), l, [p]. split_and!; try done.
  split; [done|]. split; [done|]. intros q Hq. destruct (Hfr q ltac:(by right)) as [HT H52].
  split; [|done]. rewrite lookup_insert_ne; [done|]. intros ->. done.
Qed.

Lemma load_bits_wp a lo n s (Q : Z → iommu St → Prop) :
  Q (field (ld64 (memory s) a) lo n) s → wp (load_bits a lo n) Q s.
Proof using All. intros H. unfold load_bits. wstep. apply wp_load. by wstep. Qed.

(** The region of an entry is in the page of its table, apart from the free pages. *)
Lemma entry_off s root T l t π i :
  vinv s root T l → T !! t = Some π → (length π < 2)%nat → 0 <= i < 256 →
  off_pages (t + 16 * i) 16 l.
Proof using All.
  intros Hinv Ht Hlen Hi q Hq. destruct (vinv_table _ _ _ _ _ _ Hinv Ht) as [_ Hoff].
  destruct (Hoff q Hq); lia.
Qed.

(** Both upper tables: the entry leads to a table, or a new one is linked. [fill]
    is what stores the entry of a new table. *)
Lemma upper_entry_wp s root T l π0 t0 i0 (fill : Z → prog (iommu St) Z) :
  vinv s root T l → vreach (memory s) 0 root π0 = Some t0 → path_ok 0 (π0 ++ [i0]) →
  (length π0 < 2)%nat → (1 <= length l)%nat →
  (∀ p l' s1, l = p :: l' → pg_avail (hwst s1) l' → off_pages (t0 + 16 * i0) 16 l' → table_ok p →
     wp (fill p) (λ r s', r = p ∧ same_driver s1 s' ∧ pg_avail (hwst s') l' ∧
       (∀ x, (x < t0 + 16 * i0 ∨ t0 + 16 * i0 + 16 <= x) → rd8 (memory s') x = rd8 (memory s1) x) ∧
       ∃ f, ld64 (memory s') (t0 + 16 * i0) = Z.lor p f ∧ 0 < f < 128 ∧ Z.testbit f 0 = true) s1) →
  wp (present ← load_bits (t0 + 16 * i0) 0 1;
      if present =? 0 then p ← alloc_zero_page; fill p
      else p ← load_bits (t0 + 16 * i0) 12 52; mret (u64 (Z.shiftl p PAGE_SHIFT)))
    (linked 1 s root l (π0 ++ [i0])) s.
Proof using All.
  intros Hinv Hr Hok Hlen Hl Hfill.
  assert (path_ok 0 π0 ∧ 0 <= i0 < ewidth (length π0)) as [Hok0 Hi0].
  { split.
    - intros k j Hj. apply Hok. by apply lookup_app_l_Some.
    - apply (Hok (length π0) i0). by rewrite list_lookup_middle. }
  assert ((length π0 <? 2)%nat = true) as E2 by (by apply Nat.ltb_lt).
  assert (ewidth (length π0) = 256) as Ew by (unfold ewidth; by rewrite E2).
  assert (slot_at (length π0) t0 i0 = t0 + 16 * i0) as Es by (unfold slot_at, esize; by rewrite E2).
  assert (T !! t0 = Some π0) as Ht0 by (apply (update_T (memory s) (memory s) root T π0 t0 i0); try done; [apply Hinv|lia]).
  set (e := ld64 (memory s) (t0 + 16 * i0)).
  assert (slot (memory s) (length π0) t0 i0 = e) as Ee by (unfold slot; by rewrite Es).
  pose proof (ldn_range 8 (memory s) (t0 + 16 * i0)) as Hre. change (2 ^ (8 * 8%nat)) with (2 ^ 64) in Hre. fold e in Hre.
  wstep. apply load_bits_wp. fold e. rewrite field_bit. destruct (Z.testbit e 0) eqn:Ep.
  - change (1 =? 0) with false. cbv iota. wstep. apply load_bits_wp. fold e. wstep.
    rewrite vnext_field by done. apply (linked_same 1 s root T); [done| |done].
    rewrite (vreach_snoc _ _ _ _ _ _ Hr). cbn. rewrite Ee. unfold vpresent. by rewrite E2, Ep.
  - change (0 =? 0) with true. cbv iota. destruct l as [|p l]; [cbn in Hl; lia|]. wstep.
    destruct (vinv_page _ _ _ _ _ Hinv) as (Hp & HTp & Hpl & Hap).
    eapply wp_mono; [by apply (alloc_zero_page_wp s root T p l)|].
    intros r s1 (-> & Hs1 & Hav1 & Hz1 & Ho1).
    pose proof (entry_off s root T _ t0 π0 i0 Hinv Ht0 Hlen ltac:(lia)) as Hoff.
    eapply wp_mono; [apply (Hfill p l s1 eq_refl Hav1); [|done]|].
    { intros q Hq. apply Hoff. by right. }
    intros r s' (-> & Hs' & Hav' & Ho' & f & Ef & Hf & Hf0).
    destruct (Hoff p ltac:(by left)) as [Hpe|Hpe].
    all: apply (linked_new s root T p l π0 t0 i0 s'); try done; try lia;
      [rewrite Ee; unfold vpresent; by rewrite E2
      |intros x Hx1 Hx2; unfold in_slot, esize in Hx1; rewrite E2, Es in Hx1;
       rewrite Ho', Ho1 by lia; done
      |intros x Hx; rewrite Ho' by lia; by apply Hz1
      |exists f; unfold slot; rewrite Es; done
      |by eapply same_driver_trans].
Qed.

Lemma root_entry_ctx_wp s root T l bus :
  vinv s root T l → 0 <= bus < 256 → (1 <= length l)%nat →
  wp (root_entry_ctx (root + 16 * bus)) (linked 1 s root l [bus]) s.
Proof using All.
  intros Hinv Hb Hl. unfold root_entry_ctx.
  apply (upper_entry_wp s root T l [] root bus
    (λ ce, zero_entry (root + 16 * bus);; store_bits (root + 16 * bus) 12 52 (Z.shiftr ce PAGE_SHIFT);;
           store_bits (root + 16 * bus) 0 1 1;; mret ce)); try done; [|cbn; lia|].
  { apply path_ok_cons. split; [done|apply path_ok_nil]. }
  intros p l' s1 -> Hav Hoff Hp. wstep.
  eapply wp_mono; [apply (zero_entry_wp s1 (memory s1) _ l'); try done; apply same_driver_refl|]. intros [] s2 H2. wstep.
  fill (root + 16 * bus) 12 52 false H3.
  eapply wp_mono; [by eapply (store_bits_wp s1 (memory s1) (root + 16 * bus) l' _ 0 0 1 1 false)|]. intros [] s4 H4. wstep.
  cbv iota in H4. rewrite root_entry_value in H4 by done. destruct H4 as (G1 & G2 & G3 & _ & G5).
  split_and!; try done. by exists 1.
Qed.

Lemma context_entry_slpt_wp s root T l bus ctx devfn sid :
  vinv s root T l → vreach (memory s) 0 root [bus] = Some ctx → 0 <= bus < 256 → 0 <= devfn < 256 →
  (1 <= length l)%nat →
  wp (context_entry_slpt (ctx + 16 * devfn) sid) (linked 1 s root l [bus; devfn]) s.
Proof using All.
  intros Hinv Hr Hb Hd Hl. unfold context_entry_slpt.
  refine (upper_entry_wp s root T l [bus] ctx devfn
    (λ slptptr, zero_entry (ctx + 16 * devfn);; store_bits (ctx + 16 * devfn + 8) 8 16 sid;;
       store_bits (ctx + 16 * devfn + 8) 0 3 VTD_CE_AW_39BIT;;
       store_bits (ctx + 16 * devfn) 12 52 (Z.shiftr slptptr PAGE_SHIFT);;
       store_bits (ctx + 16 * devfn) 2 2 VTD_CONTEXT_TT_MULTI_LEVEL;;
       store_bits (ctx + 16 * devfn) 0 1 1;; store_bits (ctx + 16 * devfn) 1 1 1;; mret slptptr) Hinv Hr _ _ Hl _).
  { cbn [app]. rewrite !path_ok_cons. split; [exact Hb|]. split; [exact Hd|]. apply path_ok_nil. }
  { cbn. lia. }
  intros p l' s1 -> Hav Hoff Hp. wstep.
  eapply wp_mono; [apply (zero_entry_wp s1 (memory s1) _ l'); try done; apply same_driver_refl|]. intros [] s2 H2. wstep.
  fill (ctx + 16 * devfn) 8 16 true H3.
  fill (ctx + 16 * devfn) 0 3 true H4.
  fill (ctx + 16 * devfn) 12 52 false H5.
  fill (ctx + 16 * devfn) 2 2 false H6.
  eapply wp_mono; [by eapply (store_bits_wp s1 (memory s1) (ctx + 16 * devfn) l' _ _ 0 1 1 false)|]. intros [] s7 H7. wstep.
  eapply wp_mono; [by eapply (store_bits_wp s1 (memory s1) (ctx + 16 * devfn) l' _ _ 1 1 1 false)|]. intros [] s8 H8. wstep.
  cbv iota in H8. rewrite context_entry_value in H8 by done. destruct H8 as (G1 & G2 & G3 & _ & G5).
  split_and!; try done. by exists 3.
Qed.

Lemma linked_trans k1 k2 s root l u1 l1 s1 π2 r2 s2 :
  l = u1 ++ l1 → (length u1 <= k1)%nat → same_driver s s1 →
  keeps (memory s) (memory s1) root →
  (∀ π', length π' = 5%nat → path_ok 0 π' → vwalk (memory s1) 0 root π' = vwalk (memory s) 0 root π') →
  linked k2 s1 root l1 π2 r2 s2 → linked (k1 + k2) s root l π2 r2 s2.
Proof using All.
  intros -> Hl1 Hs1 Hk1 Hw1 (T2 & l2 & u2 & Hi2 & -> & Hl2 & Hr2 & Hs2 & Hk2 & Hw2).
  exists T2, l2, (u1 ++ u2). split_and!; try done.
  - by rewrite app_assoc.
  - rewrite length_app. lia.
  - by eapply same_driver_trans.
  - intros π t Hok Hπ Hr. by apply Hk2, Hk1.
  - intros π' Hπ Hok. by rewrite Hw2, Hw1.
Qed.

(** One level of the page tables. *)
Lemma walk_step_wp s root T l π t i :
  vinv s root T l → vreach (memory s) 0 root π = Some t → path_ok 0 π → 0 <= i < 512 →
  (2 <= length π < 4)%nat → (1 <= length l)%nat →
  wp (e ← on_hwst (load64 (pte_at t i));
      (if Z.land e VTD_PTE_RW =? 0 then
         page ← alloc_zero_page; on_hwst (store64 (pte_at t i) (Z.lor page VTD_PTE_RW))
       else mret ());;
      e ← on_hwst (load64 (pte_at t i)); mret (Z.land e VTD_PTE_ADDR))
    (linked 1 s root l (π ++ [i])) s.
Proof using All.
  intros Hinv Hr Hok Hi Hlen Hl.
  assert ((length π <? 2)%nat = false) as E2 by (apply Nat.ltb_ge; lia).
  assert (0 <= i < ewidth (length π)) as Hi0 by (unfold ewidth; by rewrite E2).
  assert (slot_at (length π) t i = pte_at t i) as Es by (unfold slot_at, esize, pte_at; by rewrite E2).
  assert (T !! t = Some π) as Ht by (apply (update_T (memory s) (memory s) root T π t i); try done; [apply Hinv|lia]).
  set (e := ld64 (memory s) (pte_at t i)).
  assert (slot (memory s) (length π) t i = e) as Ee by (unfold slot; by rewrite Es).
  assert (vpresent (length π) e = negb (Z.land e VTD_PTE_RW =? 0)) as Ep by (unfold vpresent; by rewrite E2).
  do 1 wstep. apply wp_load. fold e. wstep. destruct (Z.land e VTD_PTE_RW =? 0) eqn:Ez.
  - destruct l as [|p l]; [cbn in Hl; lia|]. wstep.
    destruct (vinv_page _ _ _ _ _ Hinv) as (Hp & HTp & Hpl & Hap).
    destruct (vinv_table _ _ _ _ _ _ Hinv Ht) as [Hpt Hoff].
    eapply wp_mono; [by apply (alloc_zero_page_wp s root T p l)|].
    intros r s1 (-> & Hs1 & Hav1 & Hz1 & Ho1). apply wp_store. wstep. apply wp_load. wstep.
    rewrite hwst_set, pg_mem_set. set (s2 := set_hwst _ s1).
    destruct (page_flags_entry p VTD_PTE_RW (length π) Hp) as (F1 & F2 & F3 & _ & _); [done|done|].
    assert (memory s2 = st64 (memory s1) (pte_at t i) (Z.lor p VTD_PTE_RW)) as Em
      by (unfold s2; by rewrite hwst_set, pg_mem_set).
    rewrite ld64_st64_same by done. unfold vnext in F3. rewrite F3.
    pose proof (slot_in_page _ t i Hi0) as Hsl. rewrite Es in Hsl. unfold esize in Hsl. rewrite E2 in Hsl.
    destruct (Hoff p ltac:(by left)) as [Hpe|Hpe].
    all: apply (linked_new s root T p l π t i s2); try done; try lia;
      [by rewrite Ee, Ep
      |intros x Hx1 Hx2; unfold in_slot, esize in Hx1; rewrite E2, Es in Hx1;
       rewrite Em, rd8_stn_other, Ho1 by lia; done
      |intros x Hx; rewrite Em, rd8_stn_other by lia; by apply Hz1
      |exists VTD_PTE_RW; unfold slot; rewrite Es, Em, ld64_st64_same by done; done
      |unfold s2; rewrite hwst_set; apply pg_avail_write; [done|]; intros q x Hq Hx; apply rd8_stn_other;
       destruct (Hoff q ltac:(by right)); lia
      |eapply same_driver_trans; [exact Hs1|apply same_driver_set]].
  - wstep. wstep. apply wp_load. fold e. wstep. apply (linked_same 1 s root T); [done| |done].
    rewrite (vreach_snoc _ _ _ _ _ _ Hr). cbn [Nat.add]. cbv zeta. rewrite Ee, Ep. done.
Qed.

Definition walk_step (a : Z) : prog (iommu St) Z :=
  e ← on_hwst (load64 a);
  (if Z.land e VTD_PTE_RW =? 0 then
     page ← alloc_zero_page; on_hwst (store64 a (Z.lor page VTD_PTE_RW))
   else mret ());;
  e ← on_hwst (load64 a); mret (Z.land e VTD_PTE_ADDR).

Lemma vtd_walk_step n level root iova s (Q : Z → iommu St → Prop) :
  wp (walk_step (pte_at root (PGDIR_OFFSET iova level)) ≫= λ r, vtd_walk n (level - 1) r iova) Q s →
  wp (vtd_walk (S n) level root iova) Q s.
Proof using Type.
  unfold wp, walk_step. cbn [vtd_walk]. cbv zeta. unfold mbind, prog_bind, mret, prog_ret.
  intros H. repeat (case_match; simplify_eq/=; try done).
Qed.

Lemma vtd_walk_wp n s root T l π t iova :
  vinv s root T l → vreach (memory s) 0 root π = Some t → path_ok 0 π →
  (2 <= length π)%nat → (length π + n <= 4)%nat → (n <= length l)%nat →
  wp (vtd_walk n (5 - length π)%nat t iova) (linked n s root l (π ++ vpath iova (5 - length π) n)) s.
Proof using All.
  revert s T l π t. induction n as [|n IH]; intros s T l π t Hinv Hr Hok H2 H4 Hl.
  - cbn [vtd_walk vpath]. wstep. rewrite app_nil_r. by apply (linked_same 0 s root T).
  - apply vtd_walk_step. rewrite PGDIR_OFFSET_idx by lia. set (lv := (5 - length π)%nat) in *. wstep.
    eapply wp_mono; [apply (walk_step_wp s root T l π t (idx iova lv)); try done; [apply idx_range|lia..]|].
    intros r s1 (T1 & l1 & u1 & Hi1 & El & Hu & Hr1 & Hs1 & Hk1 & Hw1).
    assert (length (π ++ [idx iova lv]) = S (length π)) as Elen by (rewrite length_app; cbn; lia).
    assert (path_ok 0 (π ++ [idx iova lv])) as Hok1.
    { intros k j Hj. destruct (decide (k < length π)%nat) as [Hk|Hk].
      - rewrite lookup_app_l in Hj by done. by apply Hok.
      - rewrite lookup_app_r in Hj by lia. destruct (k - length π)%nat eqn:Ek; [|done]. injection Hj as <-.
        assert (k = length π) as -> by lia. unfold ewidth. cbn [Nat.add].
        assert ((length π <? 2)%nat = false) as -> by (apply Nat.ltb_ge; lia). apply idx_range. }
    pose proof (IH s1 T1 l1 (π ++ [idx iova lv]) r Hi1 Hr1 Hok1) as IH1. rewrite Elen in IH1.
    replace (Z.of_nat lv - 1) with (Z.of_nat (5 - S (length π))) by (unfold lv; lia).
    eapply wp_mono; [apply IH1; [lia|lia|]|].
    { rewrite El, length_app in Hl. lia. }
    intros r2 s2 H3. cbn [vpath]. replace (lv - 1)%nat with (5 - S (length π))%nat by (unfold lv; lia).
    rewrite (cons_middle _ π), app_assoc. change (S n) with (1 + n)%nat.
    by apply (linked_trans 1 n s root l u1 l1 s1).
Qed.

(** Mapping one page of 4K. *)
Lemma vtd_install_pte_wp s root T l slpt bus devfn iova pa :
  vinv s root T l → vreach (memory s) 0 root [bus; devfn] = Some slpt → 0 <= bus < 256 → 0 <= devfn < 256 →
  (2 <= length l)%nat → 0 <= pa → pa mod PAGE_SIZE = 0 → pa + PAGE_SIZE <= 2 ^ 52 →
  wp (vtd_install_pte slpt iova pa 1) (λ _ s', ∃ T' l' used,
    vinv s' root T' l' ∧ l = used ++ l' ∧ (length used <= 2)%nat ∧ same_driver s s' ∧
    vreach (memory s') 0 root [bus; devfn] = Some slpt ∧
    ∀ π, length π = 5%nat → path_ok 0 π → vwalk (memory s') 0 root π =
      if decide (π = [bus; devfn; idx iova 3; idx iova 2; idx iova 1]) then Some (4%nat, Z.lor pa VTD_PTE_RW)
      else vwalk (memory s) 0 root π) s.
Proof using All.
  intros Hinv Hr Hb Hd Hl Hpa Hpm Hp52. unfold vtd_install_pte. wstep.
  assert (path_ok 0 [bus; devfn]) as Hok.
  { rewrite !path_ok_cons. split; [exact Hb|]. split; [exact Hd|]. apply path_ok_nil. }
  pose proof (vtd_walk_wp 2 s root T l [bus; devfn] slpt iova Hinv Hr Hok ltac:(cbn; lia) ltac:(cbn; lia) Hl) as Hw.
  cbn [length Nat.sub vpath app] in Hw. change (VTD_PAGE_LEVEL - 1)%nat with 2%nat.
  change (Z.of_nat VTD_PAGE_LEVEL) with (Z.of_nat 3).
  eapply wp_mono; [exact Hw|]. clear Hw. intros t s1 (T1 & l1 & u1 & Hi1 & El & Hu & Hr1 & Hs1 & Hk1 & Hw1).
  rewrite PGDIR_OFFSET_idx by lia. cbv zeta. wstep. apply wp_store. change (1 =? 1)%nat with true.
  cbn [negb]. wstep. set (i1 := idx iova 1) in *. pose proof (idx_range iova 1) as Hi. fold i1 in Hi.
  set (v := Z.lor pa VTD_PTE_RW). set (m' := st64 (memory s1) (pte_at t i1) v).
  set (π0 := [bus; devfn; idx iova 3; idx iova 2]) in *.
  assert (path_ok 0 π0) as Hok0.
  { unfold π0. rewrite !path_ok_cons. split; [exact Hb|]. split; [exact Hd|].
    split; [apply idx_range|]. split; [apply idx_range|]. apply path_ok_nil. }
  pose proof Hi1 as (Hwf1 & Hav1 & Hfr1).
  assert (T1 !! t = Some π0) as Ht by (apply (update_T (memory s1) (memory s1) root T1 π0 t i1); done || (cbn; lia)).
  assert (slot_at 4 t i1 = pte_at t i1) as Es by done.
  destruct (pte_flags pa VTD_PTE_RW Hpm) as [_ Ev]; [lia|lia|done|]. change VTD_PTE_RW with 3 in Ev at 2.
  assert (0 <= v < 2 ^ 64) as Hv by (unfold v; lia).
  destruct (set_leaf (memory s1) m' root T1 π0 t i1 Hwf1 Hr1 Hok0 Hi eq_refl) as (Hwf2 & Hr2 & Hw2).
  { intros x Hx. apply rd8_stn_other. unfold in_slot in Hx. change (length π0) with 4%nat in Hx.
    rewrite Es in Hx. cbn in Hx. lia. }
  assert (slot m' 4 t i1 = v) as Eslot by (unfold slot, m'; rewrite Es; by apply ld64_st64_same).
  assert (vpresent 4 v = true) as Epr.
  { unfold vpresent. cbn [Nat.ltb Nat.leb]. apply negb_true_iff, Z.eqb_neq. intros H.
    apply (f_equal (λ x, Z.testbit x 0)) in H. unfold v in H.
    rewrite Z.land_spec, page_flag_bit, Z.bits_0 in H by (done || lia). done. }
  assert (∀ d h, vreach (memory (set_hwst (pg_set_mem m' h) s1)) d = vreach m' d) as Em
    by (intros; by rewrite hwst_set, pg_mem_set).
  exists T1, l1, u1. unfold vinv. rewrite !hwst_set, !pg_mem_set. split_and!; try done.
  - apply pg_avail_write; [done|]. intros q x Hq Hx. apply rd8_stn_other.
    destruct (vinv_table _ _ _ _ _ _ Hi1 Ht) as [_ Hoff]. destruct (Hoff q Hq); unfold pte_at; lia.
  - eapply same_driver_trans; [exact Hs1|apply same_driver_set].
  - apply Hr2; [done|cbn; lia|]. apply Hk1; [done|cbn; lia|done].
  - intros π Hπ Hokπ. rewrite Hw2, Eslot, Epr by done. unfold π0. cbn [app].
    case_decide; [done|]. by apply Hw1.
Qed.

Definition dev_path (b d va : Z) : list Z := [b; d; idx va 3; idx va 2; idx va 1].

Lemma idx_eq va va' :
  0 <= va < 2 ^ 39 → 0 <= va' < 2 ^ 39 → idx va 3 = idx va' 3 → idx va 2 = idx va' 2 →
  idx va 1 = idx va' 1 → va / PAGE_SIZE = va' / PAGE_SIZE.
Proof using Type.
  unfold idx. change (span 1) with 4096. change (span 2) with (512 * 4096).
  change (span 3) with (512 * (512 * 4096)). intros. mlia.
Qed.

Lemma dev_path_eq b d va b' d' va' :
  0 <= va < 2 ^ 39 → 0 <= va' < 2 ^ 39 → va' mod PAGE_SIZE = 0 →
  dev_path b d va = dev_path b' d' va' ↔ b = b' ∧ d = d' ∧ va' <= va < va' + PAGE_SIZE.
Proof using Type.
  intros H1 H2 Hm. unfold dev_path. split.
  - intros [= -> -> E3 E2 E1]. split; [done|]. split; [done|].
    pose proof (idx_eq va va' H1 H2 E3 E2 E1). mlia.
  - intros (-> & -> & Hr). assert (va / PAGE_SIZE = va' / PAGE_SIZE) as E by mlia.
    assert (∀ k, (1 <= k)%nat → idx va k = idx va' k) as Hk; [|by rewrite !Hk by lia].
    intros k Hk. unfold idx. f_equal. unfold span.
    replace (2 ^ (9 * (k - 1) + 12)) with (PAGE_SIZE * 2 ^ (9 * (k - 1)))
      by (rewrite Z.pow_add_r by lia; change (2 ^ 12) with PAGE_SIZE; lia).
    rewrite <- !Z.div_div by (try apply Z.pow_pos_nonneg; lia). by rewrite E.
Qed.

Lemma dev_path_ok b d va : 0 <= b < 256 → 0 <= d < 256 → path_ok 0 (dev_path b d va).
Proof using Type.
  intros Hb Hd. unfold dev_path. rewrite !path_ok_cons.
  split; [exact Hb|]. split; [exact Hd|]. split; [apply idx_range|]. split; [apply idx_range|].
  split; [apply idx_range|apply path_ok_nil].
Qed.

(** The leaf of an address of a device after the pages from [iova] on are mapped
    to the frames from [pa] on. *)
Definition device_leaf (m : mem) (root bus devfn iova pa : Z) (n : nat) (b d va : Z) : option (nat * Z) :=
  if decide (b = bus ∧ d = devfn ∧ iova <= va < iova + PAGE_SIZE * n)
  then Some (4%nat, Z.lor (pa + (va - iova) / PAGE_SIZE * PAGE_SIZE) VTD_PTE_RW)
  else vwalk m 0 root (dev_path b d va).

Lemma map_loop_wp (n : nat) fuel s root T l slpt bus devfn iova pa :
  vinv s root T l → vreach (memory s) 0 root [bus; devfn] = Some slpt → 0 <= bus < 256 → 0 <= devfn < 256 →
  (2 * n <= length l)%nat → 0 <= iova → iova mod PAGE_SIZE = 0 → iova + PAGE_SIZE * n <= 2 ^ 39 →
  0 <= pa → pa mod PAGE_SIZE = 0 → pa + PAGE_SIZE * n <= 2 ^ 52 → (n < fuel)%nat →
  wp (iter fuel (map_step slpt) (iova, pa, PAGE_SIZE * n)) (λ _ s', ∃ T' l',
    vinv s' root T' l' ∧ same_driver s s' ∧ (length l <= length l' + 2 * n)%nat ∧
    ∀ b d va, 0 <= b < 256 → 0 <= d < 256 → 0 <= va < 2 ^ 39 →
      vwalk (memory s') 0 root (dev_path b d va) = device_leaf (memory s) root bus devfn iova pa n b d va) s.
Proof using All.
  revert fuel s T l iova pa. induction n as [|n IH];
    intros fuel s T l iova pa Hinv Hr Hb Hd Hl Hi0 Him Hi39 Hp0 Hpm Hp52 Hf;
    (destruct fuel as [|fuel]; [lia|]); cbn [iter]; wstep; unfold map_step at 1.
  - change (PAGE_SIZE * 0%nat =? 0) with true. cbv iota. wstep. wstep. exists T, l.
    split_and!; try done; [apply same_driver_refl|lia|]. intros b d va _ _ _. unfold device_leaf.
    rewrite decide_False by lia. done.
  - rewrite Nat2Z.inj_succ in *. rewrite (proj2 (Z.eqb_neq _ _)) by lia. wstep.
    eapply wp_mono; [apply (vtd_install_pte_wp s root T l slpt bus devfn iova pa); try done; lia|].
    intros [] s1 (T1 & l1 & u1 & Hi1 & El & Hu & Hs1 & Hr1 & Hw1). wstep.
    assert (length l = length u1 + length l1)%nat as Ell by (rewrite El; apply length_app).
    rewrite !wrap_small by lia.
    replace (PAGE_SIZE * Z.succ n - PAGE_SIZE) with (PAGE_SIZE * n) by lia.
    assert (∀ x, x mod PAGE_SIZE = 0 → (x + PAGE_SIZE) mod PAGE_SIZE = 0) as Hmod
      by (intros x Hx; rewrite <- Zplus_mod_idemp_r, Z_mod_same_full, Z.add_0_r; exact Hx).
    eapply wp_mono; [apply (IH fuel s1 T1 l1); try done; (lia || by apply Hmod)|].
    intros [] s2 (T2 & l2 & Hi2 & Hs2 & Hll & Hw2). exists T2, l2.
    split; [done|]. split; [by eapply same_driver_trans|]. split; [lia|].
    intros b d va Hb' Hd' Hva. rewrite Hw2 by done. unfold device_leaf.
    rewrite Hw1 by (done || by apply dev_path_ok).
    change [bus; devfn; idx iova 3; idx iova 2; idx iova 1] with (dev_path bus devfn iova).
    destruct (decide (dev_path b d va = dev_path bus devfn iova)) as [E|E];
      rewrite dev_path_eq in E by (done || lia).
    + destruct E as (-> & -> & Hin). rewrite decide_False, decide_True by lia.
      rewrite Z.div_small by lia. by rewrite Z.mul_0_l, Z.add_0_r.
    + destruct (decide (b = bus ∧ d = devfn ∧ iova + PAGE_SIZE <= va < iova + PAGE_SIZE + PAGE_SIZE * n)) as [Hin|Hin].
      * rewrite decide_True by lia. do 3 f_equal.
        replace (va - iova) with (va - (iova + PAGE_SIZE) + 1 * PAGE_SIZE) by lia. rewrite Z.div_add by lia. lia.
      * rewrite decide_False; [done|]. intros (-> & -> & H). apply Hin.
        split; [done|]. split; [done|]. destruct (decide (va < iova + PAGE_SIZE)); [|lia].
        destruct E. split; [done|]. split; [done|]. lia.
Qed.

Lemma vtd_table_wp reg v s (Q : Z → iommu St → Prop) :
  vtd_reg_base s = vt_base → mm_read 8 (vt_base + reg) (hwst s) = Ret (v, hwst s) →
  Q (Z.land v PAGE_MASK) s → wp (v ← vtd_readq reg; mret (Z.land v PAGE_MASK)) Q s.
Proof using All.
  intros Hb Hrd HQ. unfold vtd_readq, vtd_reg, on_hwst. do 5 wstep. wstep.
  { rewrite Hb. apply negb_true_iff, Z.eqb_neq, vt_base_nz. }
  do 2 wstep. eapply wp_exact; [by rewrite Hb|]. wstep. by rewrite set_hwst_id.
Qed.

Lemma is_aligned x n : 0 <= n → x = PAGE_SIZE * n → IS_ALIGNED x PAGE_SIZE = true.
Proof using Type.
  intros Hn ->. unfold IS_ALIGNED. change (u64 (PAGE_SIZE - 1)) with (2 ^ 12 - 1). rewrite mask_low by lia.
  change (2 ^ 12) with PAGE_SIZE. by rewrite Z.mul_comm, Z.mod_mul.
Qed.

Lemma vtd_map_range_wp (n : nat) fuel s root T l sid iova pa :
  vinv s root T l → vtd_reg_base s = vt_base → root = Z.land (vt_root (hwst s)) PAGE_MASK →
  (2 + 2 * n <= length l)%nat → 0 <= iova → iova mod PAGE_SIZE = 0 → iova + PAGE_SIZE * n <= 2 ^ 39 →
  0 <= pa → pa mod PAGE_SIZE = 0 → pa + PAGE_SIZE * n <= 2 ^ 52 → (n < fuel)%nat →
  wp (vtd_map_range fuel sid iova pa (PAGE_SIZE * n)) (λ _ s', ∃ T' l',
    vinv s' root T' l' ∧ same_driver s s' ∧
    ∀ b d va, 0 <= b < 256 → 0 <= d < 256 → 0 <= va < 2 ^ 39 →
      vwalk (memory s') 0 root (dev_path b d va) =
      device_leaf (memory s) root (Z.land (Z.shiftr sid 8) 0xff) (Z.land sid 0xff) iova pa n b d va) s.
Proof using All.
  intros Hinv Hb Hroot Hl Hi0 Him Hi39 Hp0 Hpm Hp52 Hf. unfold vtd_map_range, vtd_root_table. wstep.
  apply (vtd_table_wp _ (vt_root (hwst s))); [done|apply vt_rd_root|]. rewrite <- Hroot.
  wstep. wstep. { apply (is_aligned _ (iova / PAGE_SIZE)); mlia. }
  wstep. wstep. { apply (is_aligned _ (pa / PAGE_SIZE)); mlia. }
  wstep. wstep. { apply (is_aligned _ n); lia. }
  assert (∀ x, 0 <= Z.land x 0xff < 256) as Hff
    by (intros x; change 0xff with (2 ^ 8 - 1); rewrite mask_low by lia; by apply Z.mod_pos_bound).
  set (bus := Z.land (Z.shiftr sid 8) 0xff). set (devfn := Z.land sid 0xff).
  pose proof (Hff (Z.shiftr sid 8)) as Hbus. fold bus in Hbus. pose proof (Hff sid) as Hdev. fold devfn in Hdev.
  wstep. eapply wp_mono; [apply (root_entry_ctx_wp s root T l bus Hinv Hbus); lia|].
  intros ce s1 (T1 & l1 & u1 & Hi1 & El1 & Hu1 & Hr1 & Hs1 & Hk1 & Hw1). wstep.
  assert (length l = length u1 + length l1)%nat as E1 by (rewrite El1; apply length_app).
  eapply wp_mono; [apply (context_entry_slpt_wp s1 root T1 l1 bus ce devfn sid Hi1 Hr1 Hbus Hdev); lia|].
  intros slpt s2 (T2 & l2 & u2 & Hi2 & El2 & Hu2 & Hr2 & Hs2 & Hk2 & Hw2).
  assert (length l1 = length u2 + length l2)%nat as E2 by (rewrite El2; apply length_app).
  eapply wp_mono; [apply (map_loop_wp n fuel s2 root T2 l2 slpt bus devfn iova pa); try done; lia|].
  intros [] s3 (T3 & l3 & Hi3 & Hs3 & _ & Hw3). exists T3, l3. split; [done|].
  split; [eapply same_driver_trans; [by eapply same_driver_trans|done]|].
  intros b d va Hb' Hd' Hva. rewrite Hw3 by done. unfold device_leaf. case_decide; [done|].
  by rewrite Hw2, Hw1 by (done || by apply dev_path_ok).
Qed.
End Mapping.

(** C20: [vtd_map_range] maps a range for one device: afterwards the device reaches
    [pa + i] at [iova + i] for all [i] below the size, and every other address of
    this and of every other device is translated as before. *)
Theorem vtd_map_range_maps {St} {io : PortIO St} {ops : PageAlloc St} {laws : PageAllocLaws St} {vl : VtdLaws St}
    (n : nat) fuel (s : iommu St) root T l sid iova pa :
  vinv s root T l → vtd_reg_base s = vt_base → root = Z.land (vt_root (hwst s)) PAGE_MASK →
  (2 + 2 * n <= length l)%nat → 0 <= sid < 2 ^ 16 →
  0 <= iova → iova mod PAGE_SIZE = 0 → iova + PAGE_SIZE * n <= 2 ^ 39 →
  0 <= pa → pa mod PAGE_SIZE = 0 → pa + PAGE_SIZE * n <= 2 ^ 52 → (n < fuel)%nat →
  wp (vtd_map_range fuel sid iova pa (PAGE_SIZE * n)) (λ _ s',
    (∃ T' l', vinv s' root T' l') ∧
    ∀ sid' va, 0 <= sid' < 2 ^ 16 → 0 <= va < 2 ^ 39 →
      dma (pg_mem (hwst s')) root sid' va =
        if decide (sid' = sid ∧ iova <= va < iova + PAGE_SIZE * n) then Some (pa + (va - iova))
        else dma (pg_mem (hwst s)) root sid' va) s.
Proof.
  intros Hinv Hb Hroot Hl Hsid Hi0 Him Hi39 Hp0 Hpm Hp52 Hf.
  eapply wp_mono; [by apply (vtd_map_range_wp n fuel s root T l sid iova pa)|].
  intros [] s' (T' & l' & Hinv' & _ & Hw). split; [by exists T', l'|]. intros sid' va Hsid' Hva.
  assert (∀ x, Z.land x 0xff = x mod 256) as Hff
    by (intros x; change 0xff with (2 ^ 8 - 1); by rewrite mask_low by lia).
  unfold dma. change (dma_path sid' va) with (dev_path (Z.land (Z.shiftr sid' 8) 0xff) (Z.land sid' 0xff) va).
  rewrite Hw by (rewrite ?Hff; try apply Z.mod_pos_bound; lia). unfold device_leaf.
  rewrite !Hff, !Z.shiftr_div_pow2 by lia. change (2 ^ 8) with 256.
  case_decide as H1; case_decide as H2; [|exfalso; apply H2; mlia|exfalso; apply H1; mlia|done].
  cbn [mbind option_bind]. f_equal. destruct H2 as [_ Hr].
  change (dma_span 4) with PAGE_SIZE.
  assert (((va - iova) / PAGE_SIZE) * PAGE_SIZE <= va - iova) as Hq by mlia.
  assert (0 <= (va - iova) / PAGE_SIZE) as Hq0 by (apply Z.div_pos; lia).
  assert ((pa + (va - iova) / PAGE_SIZE * PAGE_SIZE) mod PAGE_SIZE = 0) as Hqm
    by (rewrite Z.mod_add by lia; exact Hpm).
  assert (pa + (va - iova) / PAGE_SIZE * PAGE_SIZE + PAGE_SIZE <= 2 ^ 52) as Hq52 by mlia.
  destruct (pte_flags _ VTD_PTE_RW Hqm) as [_ Ev]; [lia|exact Hq52|done|].
  change VTD_PTE_RW with 3 in Ev at 2. rewrite vnext_spec by lia. rewrite Ev.
  set (x := pa + (va - iova) / PAGE_SIZE * PAGE_SIZE) in *. assert ((x + 3) mod PAGE_SIZE = 3) as -> by mlia.
  replace (x + 3 - 3) with x by lia. unfold x. mlia.
Qed.

(** ** Interrupt remapping as the hardware does it

    A message whose address has the remappable format selects an entry of the
    table at [irta]; the entry is used when it is present and its source
    identifier is the one of the device.  The result is the vector, the
    destination field, the trigger and the delivery mode of the interrupt. *)
Definition irte_index (addr : Z) : Z := field addr 5 15 + field addr 2 1 * 2 ^ 15.

Definition remap (m : mem) (irta addr sid : Z) : option (Z * Z * Z * Z) :=
  if negb (field addr 4 1 =? 1) || negb (field addr 3 1 =? 0) || negb (field addr 20 12 =? 0xfee) then None
  else
    let a := irta + 16 * irte_index addr in
    let q0 := ld64 m a in
    let q1 := ld64 m (a + 8) in
    if (field q0 0 1 =? 1) && (field q0 15 1 =? 0) && (field q1 18 2 =? 1) && (field q1 16 2 =? 0) &&
       (field q1 0 16 =? sid)
    then Some (field q0 16 8, field q0 32 32, field q0 4 1, field q0 5 3) else None.

Lemma vtd_msi_addr_fields index :
  0 <= index < 2 ^ 16 →
  field (vtd_msi_addr index) 4 1 = 1 ∧ field (vtd_msi_addr index) 3 1 = 0 ∧
  field (vtd_msi_addr index) 20 12 = 0xfee ∧ irte_index (vtd_msi_addr index) = index.
Proof.
  intros Hi. unfold irte_index, vtd_msi_addr.
  change 0x7fff with (2 ^ 15 - 1). rewrite mask_low by lia.
  assert (Z.land (Z.shiftr index 15) 1 = index / 2 ^ 15) as ->.
  { change 1 with (2 ^ 1 - 1) at 1. rewrite mask_low, Z.shiftr_div_pow2 by lia. mlia. }
  unfold field. mlia.
Qed.

(** The quads of an entry that [vtd_setup_irte] fills in. *)
Definition irte_quad0 (trigger vector dest : Z) : Z := 3 + trigger * 2 ^ 4 + vector * 2 ^ 16 + dest * 2 ^ 32.
Definition irte_quad1 (sid : Z) : Z := sid + 2 ^ 18.

Lemma irte_quad0_value trigger vector dest :
  0 <= trigger < 2 → 0 <= vector < 2 ^ 8 → 0 <= dest < 2 ^ 32 →
  with_bits (with_bits (with_bits (with_bits (with_bits (with_bits (with_bits (with_bits 0
    1 1 1) 2 1 0) 4 1 trigger) 5 3 0) 15 1 0) 16 8 vector) 32 32 dest) 0 1 1 = irte_quad0 trigger vector dest.
Proof.
  intros Ht Hv Hd.
  change (with_bits (with_bits 0 1 1 1) 2 1 0) with 2.
  assert (with_bits 2 4 1 trigger = 2 + trigger * 16) as -> by (unfold with_bits, field; mlia).
  assert (with_bits (2 + trigger * 16) 5 3 0 = 2 + trigger * 16) as -> by (unfold with_bits, field; mlia).
  assert (with_bits (2 + trigger * 16) 15 1 0 = 2 + trigger * 16) as -> by (unfold with_bits, field; mlia).
  assert (with_bits (2 + trigger * 16) 16 8 vector = 2 + trigger * 16 + vector * 65536) as ->
    by (unfold with_bits, field; mlia).
  assert (with_bits (2 + trigger * 16 + vector * 65536) 32 32 dest =
          2 + trigger * 16 + vector * 65536 + dest * 2 ^ 32) as -> by (unfold with_bits, field; mlia).
  unfold with_bits, field, irte_quad0. mlia.
Qed.

Lemma irte_quad1_value sid :
  0 <= sid < 2 ^ 16 → with_bits (with_bits (with_bits 0 0 16 sid) 16 2 0) 18 2 1 = irte_quad1 sid.
Proof.
  intros Hs. assert (with_bits 0 0 16 sid = sid) as -> by (unfold with_bits, field; mlia).
  assert (with_bits sid 16 2 0 = sid) as -> by (unfold with_bits, field; mlia).
  unfold with_bits, field, irte_quad1. mlia.
Qed.

Lemma field_high h r lo n : 0 <= lo → 0 <= n → field (h * 2 ^ (lo + n) + r) lo n = field r lo n.
Proof.
  intros Hl Hn. unfold field. rewrite Z.pow_add_r, (Z.mul_comm (2 ^ lo)), Z.mul_assoc by lia.
  rewrite Z.div_add_l by (apply Z.pow_nonzero; lia).
  rewrite Z.add_comm, Z.mod_add; [done|apply Z.pow_nonzero; lia].
Qed.

Lemma irte_quad0_fields vector dest :
  0 <= vector < 2 ^ 8 → 0 <= dest < 2 ^ 32 →
  field (irte_quad0 0 vector dest) 0 1 = 1 ∧ field (irte_quad0 0 vector dest) 15 1 = 0 ∧
  field (irte_quad0 0 vector dest) 16 8 = vector ∧ field (irte_quad0 0 vector dest) 32 32 = dest ∧
  field (irte_quad0 0 vector dest) 4 1 = 0 ∧ field (irte_quad0 0 vector dest) 5 3 = 0.
Proof.
  intros Hv Hd. unfold irte_quad0.
  assert (∀ h r k, 3 + 0 * 2 ^ 4 + vector * 2 ^ 16 + dest * 2 ^ 32 = h * 2 ^ k + r →
            ∀ lo n, k = lo + n → 0 <= lo → 0 <= n →
            field (3 + 0 * 2 ^ 4 + vector * 2 ^ 16 + dest * 2 ^ 32) lo n = field r lo n) as Hf.
  { intros h r k -> lo n -> Hl Hn. by apply field_high. }
  split_and!.
  - by rewrite (Hf (vector * 2 ^ 15 + dest * 2 ^ 31 + 1) 1 1) by lia.
  - by rewrite (Hf (vector + dest * 2 ^ 16) 3 16) by lia.
  - rewrite (Hf (dest * 2 ^ 8) (3 + vector * 2 ^ 16) 24) by lia. unfold field. mlia.
  - unfold field. mlia.
  - by rewrite (Hf (vector * 2 ^ 11 + dest * 2 ^ 27) 3 5) by lia.
  - by rewrite (Hf (vector * 2 ^ 8 + dest * 2 ^ 24) 3 8) by lia.
Qed.

Lemma irte_quad1_fields sid :
  0 <= sid < 2 ^ 16 →
  field (irte_quad1 sid) 18 2 = 1 ∧ field (irte_quad1 sid) 16 2 = 0 ∧ field (irte_quad1 sid) 0 16 = sid.
Proof. intros Hs. unfold irte_quad1, field. mlia. Qed.

Section Remapping.
Context {St : Type} {io : PortIO St} {ops : PageAlloc St} {laws : PageAllocLaws St} {vl : VtdLaws St}.

Lemma vtd_setup_irte_wp dev E vector dest trigger l (s : iommu St) :
  off_pages E 16 l → pg_avail (hwst s) l →
  0 <= bdf dev < 2 ^ 16 → 0 <= trigger < 2 → 0 <= vector < 2 ^ 8 → 0 <= dest < 2 ^ 32 →
  wp (vtd_setup_irte dev E vector dest trigger)
    (λ _ s', filling s (pg_mem (hwst s)) E l (irte_quad0 trigger vector dest) (irte_quad1 (bdf dev)) s') s.
Proof using All.
  intros Hoff Hav Hb Ht Hv Hd. unfold vtd_setup_irte. set (m1 := pg_mem (hwst s)). wstep.
  eapply wp_mono; [apply (zero_entry_wp s m1 E l); try done; apply same_driver_refl|]. intros [] s2 H2. wstep.
  fill E 1 1 false H3.
  fill E 2 1 false H4.
  fill E 4 1 false H5.
  fill E 5 3 false H6.
  fill E 15 1 false H7.
  fill E 16 8 false H8.
  fill E 32 32 false H9.
  fill E 0 16 true H10.
  fill E 16 2 true H11.
  fill E 18 2 true H12.
  fill E 0 1 false H13.
  by rewrite irte_quad0_value, irte_quad1_value in H13.
Qed.
End Remapping.


(** ** Witnesses: a unit mapped at its physical address, its root table at
    0x20000 and its remapping table at 0x30000 *)

#[local] Instance ex_unit_io : PortIO pages := {
  io_out _ _ _ s := Ret ((), s);
  io_in _ _ s := Ret (0, s);
  mm_write _ _ _ s := Ret ((), s);
  mm_read _ a s := Ret (if a =? Q35_HOST_BRIDGE_IOMMU_ADDR + DMAR_IRTA_REG then 0x3000f else 0x20000, s);
}.

#[local] Program Instance ex_unit_laws : VtdLaws pages := {
  vt_base := Q35_HOST_BRIDGE_IOMMU_ADDR;
  vt_root _ := 0x20000;
  vt_ir _ := 0x3000f;
}.
Next Obligation. done. Qed.
Next Obligation. done. Qed.
Next Obligation. done. Qed.

Definition ex_unit : iommu pages :=
  Iommu (VState (Mmu ex_state 0 0) false 0 0) Q35_HOST_BRIDGE_IOMMU_ADDR 0.

(** The tables are empty, and no device reaches anything. *)
Lemma ex_slots d i : (d <= 4)%nat → 0 <= i < ewidth d → slot (pmem ex_state) d 0x20000 i = 0.
Proof.
  intros Hd Hi. unfold slot. apply ldn_zero. intros x Hx.
  assert (0x20000 <= x < 0x21000) as Hx'.
  { unfold slot_at, esize, ewidth in *. destruct (d <? 2)%nat; lia. }
  apply (fresh_pages_ok 0x100000 15); [apply ex_range|lia|]. lia.
Qed.

Lemma ex_unit_inv : vinv ex_unit 0x20000 {[0x20000 := []]} ex_free.
Proof.
  split; [|split; [apply ex_avail|]].
  - split.
    + by rewrite lookup_singleton_eq.
    + intros t π [<- <-]%lookup_singleton_Some. split; [by repeat split|cbn; lia].
    + intros t π i [<- <-]%lookup_singleton_Some _ Hi. cbn [length] in *.
      pose proof (ex_slots 0 i ltac:(lia) Hi) as E.
      change (slot (pg_mem (hwst ex_unit)) 0 0x20000 i = 0) in E. by rewrite E.
  - intros p Hp%ex_low. rewrite lookup_singleton_ne by lia. split; [done|lia].
Qed.

Lemma vtd_map_range_maps_witness :
  wp (vtd_map_range 4 0x18 0x400000 0x7000 (PAGE_SIZE * 3%nat)) (λ _ s',
    (∃ T' l', vinv s' 0x20000 T' l') ∧
    ∀ sid' va, 0 <= sid' < 2 ^ 16 → 0 <= va < 2 ^ 39 →
      dma (pg_mem (hwst s')) 0x20000 sid' va =
        if decide (sid' = 0x18 ∧ 0x400000 <= va < 0x400000 + PAGE_SIZE * 3%nat) then Some (0x7000 + (va - 0x400000))
        else dma (pg_mem (hwst ex_unit)) 0x20000 sid' va) ex_unit.
Proof.
  apply (vtd_map_range_maps 3 4 ex_unit 0x20000 {[0x20000 := []]} ex_free 0x18 0x400000 0x7000).
  - apply ex_unit_inv.
  - done.
  - done.
  - cbn. lia.
  - done.
  - done.
  - done.
  - done.
  - done.
  - done.
  - done.
  - lia.
Defined.

