(* ===== verification/Crc32.v ===== *)
(** * The cyclic redundancy check: x86/crc32.c

    [Crc32_ComputeBuf] goes through a buffer byte by byte with a table of 256
    words.  The reference is the division of the message, taken as a polynomial
    over the field of two elements, one bit at a time: the register is shifted
    to the right and the polynomial is subtracted when the bit shifted out is
    set. *)

From S2P Require Import Prelude Memory.

(** [static const unsigned long crcTable[256]] *)
Definition crcTable : list Z := [
  0x00000000; 0x77073096; 0xEE0E612C; 0x990951BA; 0x076DC419; 0x706AF48F; 0xE963A535; 0x9E6495A3;
  0x0EDB8832; 0x79DCB8A4; 0xE0D5E91E; 0x97D2D988; 0x09B64C2B; 0x7EB17CBD; 0xE7B82D07; 0x90BF1D91;
  0x1DB71064; 0x6AB020F2; 0xF3B97148; 0x84BE41DE; 0x1ADAD47D; 0x6DDDE4EB; 0xF4D4B551; 0x83D385C7;
  0x136C9856; 0x646BA8C0; 0xFD62F97A; 0x8A65C9EC; 0x14015C4F; 0x63066CD9; 0xFA0F3D63; 0x8D080DF5;
  0x3B6E20C8; 0x4C69105E; 0xD56041E4; 0xA2677172; 0x3C03E4D1; 0x4B04D447; 0xD20D85FD; 0xA50AB56B;
  0x35B5A8FA; 0x42B2986C; 0xDBBBC9D6; 0xACBCF940; 0x32D86CE3; 0x45DF5C75; 0xDCD60DCF; 0xABD13D59;
  0x26D930AC; 0x51DE003A; 0xC8D75180; 0xBFD06116; 0x21B4F4B5; 0x56B3C423; 0xCFBA9599; 0xB8BDA50F;
  0x2802B89E; 0x5F058808; 0xC60CD9B2; 0xB10BE924; 0x2F6F7C87; 0x58684C11; 0xC1611DAB; 0xB6662D3D;
  0x76DC4190; 0x01DB7106; 0x98D220BC; 0xEFD5102A; 0x71B18589; 0x06B6B51F; 0x9FBFE4A5; 0xE8B8D433;
  0x7807C9A2; 0x0F00F934; 0x9609A88E; 0xE10E9818; 0x7F6A0DBB; 0x086D3D2D; 0x91646C97; 0xE6635C01;
  0x6B6B51F4; 0x1C6C6162; 0x856530D8; 0xF262004E; 0x6C0695ED; 0x1B01A57B; 0x8208F4C1; 0xF50FC457;
  0x65B0D9C6; 0x12B7E950; 0x8BBEB8EA; 0xFCB9887C; 0x62DD1DDF; 0x15DA2D49; 0x8CD37CF3; 0xFBD44C65;
  0x4DB26158; 0x3AB551CE; 0xA3BC0074; 0xD4BB30E2; 0x4ADFA541; 0x3DD895D7; 0xA4D1C46D; 0xD3D6F4FB;
  0x4369E96A; 0x346ED9FC; 0xAD678846; 0xDA60B8D0; 0x44042D73; 0x33031DE5; 0xAA0A4C5F; 0xDD0D7CC9;
  0x5005713C; 0x270241AA; 0xBE0B1010; 0xC90C2086; 0x5768B525; 0x206F85B3; 0xB966D409; 0xCE61E49F;
  0x5EDEF90E; 0x29D9C998; 0xB0D09822; 0xC7D7A8B4; 0x59B33D17; 0x2EB40D81; 0xB7BD5C3B; 0xC0BA6CAD;
  0xEDB88320; 0x9ABFB3B6; 0x03B6E20C; 0x74B1D29A; 0xEAD54739; 0x9DD277AF; 0x04DB2615; 0x73DC1683;
  0xE3630B12; 0x94643B84; 0x0D6D6A3E; 0x7A6A5AA8; 0xE40ECF0B; 0x9309FF9D; 0x0A00AE27; 0x7D079EB1;
  0xF00F9344; 0x8708A3D2; 0x1E01F268; 0x6906C2FE; 0xF762575D; 0x806567CB; 0x196C3671; 0x6E6B06E7;
  0xFED41B76; 0x89D32BE0; 0x10DA7A5A; 0x67DD4ACC; 0xF9B9DF6F; 0x8EBEEFF9; 0x17B7BE43; 0x60B08ED5;
  0xD6D6A3E8; 0xA1D1937E; 0x38D8C2C4; 0x4FDFF252; 0xD1BB67F1; 0xA6BC5767; 0x3FB506DD; 0x48B2364B;
  0xD80D2BDA; 0xAF0A1B4C; 0x36034AF6; 0x41047A60; 0xDF60EFC3; 0xA867DF55; 0x316E8EEF; 0x4669BE79;
  0xCB61B38C; 0xBC66831A; 0x256FD2A0; 0x5268E236; 0xCC0C7795; 0xBB0B4703; 0x220216B9; 0x5505262F;
  0xC5BA3BBE; 0xB2BD0B28; 0x2BB45A92; 0x5CB36A04; 0xC2D7FFA7; 0xB5D0CF31; 0x2CD99E8B; 0x5BDEAE1D;
  0x9B64C2B0; 0xEC63F226; 0x756AA39C; 0x026D930A; 0x9C0906A9; 0xEB0E363F; 0x72076785; 0x05005713;
  0x95BF4A82; 0xE2B87A14; 0x7BB12BAE; 0x0CB61B38; 0x92D28E9B; 0xE5D5BE0D; 0x7CDCEFB7; 0x0BDBDF21;
  0x86D3D2D4; 0xF1D4E242; 0x68DDB3F8; 0x1FDA836E; 0x81BE16CD; 0xF6B9265B; 0x6FB077E1; 0x18B74777;
  0x88085AE6; 0xFF0F6A70; 0x66063BCA; 0x11010B5C; 0x8F659EFF; 0xF862AE69; 0x616BFFD3; 0x166CCF45;
  0xA00AE278; 0xD70DD2EE; 0x4E048354; 0x3903B3C2; 0xA7672661; 0xD06016F7; 0x4969474D; 0x3E6E77DB;
  0xAED16A4A; 0xD9D65ADC; 0x40DF0B66; 0x37D83BF0; 0xA9BCAE53; 0xDEBB9EC5; 0x47B2CF7F; 0x30B5FFE9;
  0xBDBDF21C; 0xCABAC28A; 0x53B39330; 0x24B4A3A6; 0xBAD03605; 0xCDD70693; 0x54DE5729; 0x23D967BF;
  0xB3667A2E; 0xC4614AB8; 0x5D681B02; 0x2A6F2B94; 0xB40BBE37; 0xC30C8EA1; 0x5A05DF1B; 0x2D02EF8D].

(** [for (i = 0; i < bufLen; i++)], [n] bytes are left *)
Fixpoint crc_bytes (m : mem) (p : Z) (n : nat) (crc32 : Z) : Z :=
  match n with
  | O => crc32
  | S n' =>
      crc_bytes m (p + 1) n'
        (Z.lxor (Z.shiftr crc32 8) (crcTable !!! Z.to_nat (Z.land (Z.lxor crc32 (rd8 m p)) 0xFF)))
  end.

Definition Crc32_ComputeBuf (m : mem) (inCrc32 buf : Z) (bufLen : nat) : Z :=
  Z.lxor (crc_bytes m buf bufLen (Z.lxor inCrc32 0xFFFFFFFF)) 0xFFFFFFFF.

(** ** The reference *)

Definition crc_poly : Z := 0xEDB88320.

(** One step of the division. *)
Definition crc_shift (c : Z) : Z :=
  if Z.testbit c 0 then Z.lxor (Z.shiftr c 1) crc_poly else Z.shiftr c 1.

(** One bit of the message. *)
Definition crc_bit (c : Z) (b : bool) : Z := crc_shift (Z.lxor c (Z.b2z b)).

(** The bits of a byte, in the order of transmission. *)
Definition byte_bits (x : Z) : list bool := Z.testbit x <$> seqZ 0 8.
Definition msg_bits (l : list Z) : list bool := l ≫= byte_bits.

(** The register after a message. *)
Definition crc_ref (c : Z) (bits : list bool) : Z := fold_left crc_bit bits c.

(** The check value of the standard: the text 123456789. *)
Example crc_check_value :
  Crc32_ComputeBuf (wrl ∅ 0x1000 [49; 50; 51; 52; 53; 54; 55; 56; 57]) 0 0x1000 9 = 0xCBF43926.
Proof. vm_compute. reflexivity. Qed.

(** ** The division is linear *)

Lemma lxor_swap a b c d : Z.lxor (Z.lxor a b) (Z.lxor c d) = Z.lxor (Z.lxor a c) (Z.lxor b d).
Proof. apply Z.bits_inj'. intros i Hi. rewrite !Z.lxor_spec. by do 4 destruct (Z.testbit _ i). Qed.

Lemma crc_shift_lxor a b : crc_shift (Z.lxor a b) = Z.lxor (crc_shift a) (crc_shift b).
Proof.
  unfold crc_shift. rewrite Z.lxor_spec, Z.shiftr_lxor.
  destruct (Z.testbit a 0), (Z.testbit b 0); cbn [xorb].
  - by rewrite lxor_swap, Z.lxor_nilpotent, Z.lxor_0_r.
  - by rewrite !Z.lxor_assoc, (Z.lxor_comm crc_poly).
  - by rewrite Z.lxor_assoc.
  - done.
Qed.

Lemma crc_shift_even v : crc_shift (2 * v) = v.
Proof.
  unfold crc_shift. rewrite Z.testbit_even_0, Z.shiftr_div_pow2 by done.
  change (2 ^ 1) with 2. rewrite Z.mul_comm. by apply Z.div_mul.
Qed.

Abbreviation crc_shifts n := (Nat.iter n crc_shift).

Lemma crc_shifts_lxor n a b : crc_shifts n (Z.lxor a b) = Z.lxor (crc_shifts n a) (crc_shifts n b).
Proof. induction n as [|n IH]; [done|]. by rewrite !Nat.iter_succ, IH, crc_shift_lxor. Qed.

Lemma crc_shifts_high n v : crc_shifts n (v * 2 ^ n) = v.
Proof.
  revert v. induction n as [|n IH]; intros v; [cbn; lia|].
  rewrite Nat.iter_succ. replace (v * 2 ^ S n) with ((2 * v) * 2 ^ n).
  - by rewrite IH, crc_shift_even.
  - rewrite Nat2Z.inj_succ, Z.pow_succ_r by lia. ring.
Qed.

(** The number a list of bits stands for, the first is the lowest. *)
Fixpoint bits_val (bits : list bool) : Z :=
  match bits with [] => 0 | b :: bits' => Z.b2z b + 2 * bits_val bits' end.

Lemma bit_plus_double b v : Z.b2z b + 2 * v = Z.lxor (2 * v) (Z.b2z b).
Proof.
  apply Z.bits_inj'. intros i Hi. rewrite Z.add_comm, Z.lxor_spec.
  destruct (decide (i = 0)) as [->|Hne].
  - rewrite Z.testbit_0_r, Z.testbit_even_0. by destruct b.
  - replace i with (Z.succ (i - 1)) by lia.
    rewrite Z.testbit_succ_r, Z.testbit_even_succ by lia.
    assert (Z.testbit (Z.b2z b) (Z.succ (i - 1)) = false) as ->; [|by rewrite xorb_false_r].
    destruct b; [apply Z.bits_above_log2; cbn; lia|apply Z.bits_0].
Qed.

Lemma bits_val_inj k l : length k = length l → bits_val k = bits_val l → k = l.
Proof.
  revert l. induction k as [|b k IH]; intros [|c l]; cbn [length bits_val]; try done.
  intros [= Hlen] H. assert (b = c ∧ bits_val k = bits_val l) as [-> Hv].
  { destruct b, c; cbn [Z.b2z] in H; split; done || lia. }
  by rewrite (IH l Hlen Hv).
Qed.

(** A message is added to the register as a whole. *)
Lemma crc_ref_shifts bits c : crc_ref c bits = crc_shifts (length bits) (Z.lxor c (bits_val bits)).
Proof.
  revert c. induction bits as [|b bits IH]; intros c; cbn [length bits_val].
  - by rewrite Z.lxor_0_r.
  - change (crc_ref c (b :: bits)) with (crc_ref (crc_bit c b) bits). rewrite IH, Nat.iter_succ_r.
    f_equal. unfold crc_bit. rewrite <- (crc_shift_even (bits_val bits)) at 1.
    rewrite <- crc_shift_lxor. f_equal. rewrite bit_plus_double, Z.lxor_assoc. f_equal. apply Z.lxor_comm.
Qed.

(** ** A byte at a time *)

Lemma all_bytes (P : Z → bool) : forallb P (seqZ 0 256) = true → ∀ x, 0 <= x < 256 → P x = true.
Proof.
  intros H x Hx. rewrite forallb_forall in H. apply H, list_elem_of_In, elem_of_seqZ. lia.
Qed.

Lemma byte_bits_val x : 0 <= x < 256 → bits_val (byte_bits x) = x.
Proof.
  intros Hx. apply Z.eqb_eq. revert x Hx.
  apply (all_bytes (λ x, bits_val (byte_bits x) =? x)). vm_compute. reflexivity.
Qed.

(** An entry of the table is the register after eight steps. *)
Lemma crcTable_entry x : 0 <= x < 256 → crcTable !!! Z.to_nat x = crc_shifts 8 x.
Proof.
  intros Hx. apply Z.eqb_eq. revert x Hx.
  apply (all_bytes (λ x, crcTable !!! Z.to_nat x =? crc_shifts 8 x)). vm_compute. reflexivity.
Qed.

Lemma crc_byte_step c x :
  0 <= x < 256 →
  Z.lxor (Z.shiftr c 8) (crcTable !!! Z.to_nat (Z.land (Z.lxor c x) 0xFF)) = crc_ref c (byte_bits x).
Proof.
  intros Hx. rewrite crc_ref_shifts, byte_bits_val by done. change (length (byte_bits x)) with 8%nat.
  set (y := Z.lxor c x). change 0xFF with (Z.ones 8). rewrite Z.land_ones by done.
  pose proof (Z.mod_pos_bound y (2 ^ 8) eq_refl) as Hb.
  rewrite crcTable_entry by exact Hb.
  assert (Z.shiftr c 8 = Z.shiftr y 8) as ->.
  { unfold y. rewrite Z.shiftr_lxor, (Z.shiftr_div_pow2 x), Z.div_small by (done || lia). by rewrite Z.lxor_0_r. }
  assert (y = Z.lxor (Z.shiftr y 8 * 2 ^ 8%nat) (y mod 2 ^ 8)) as Hy.
  { apply Z.bits_inj'. intros i Hi. change (Z.of_nat 8) with 8.
    rewrite Z.lxor_spec, <- Z.shiftl_mul_pow2, Z.shiftl_spec by lia.
    destruct (decide (i < 8)) as [Hlt|Hge].
    - rewrite (Z.testbit_neg_r _ (i - 8)), Z.mod_pow2_bits_low by lia. by rewrite xorb_false_l.
    - rewrite Z.shiftr_spec, Z.mod_pow2_bits_high, xorb_false_r by lia. f_equal. lia. }
  rewrite Hy at 3. by rewrite crc_shifts_lxor, crc_shifts_high.
Qed.

Lemma crc_ref_app c k l : crc_ref c (k ++ l) = crc_ref (crc_ref c k) l.
Proof. apply fold_left_app. Qed.

Lemma crc_bytes_ref m p n c : crc_bytes m p n c = crc_ref c (msg_bits (rdl m p n)).
Proof.
  revert p c. induction n as [|n IH]; intros p c; [done|]. cbn [crc_bytes rdl].
  unfold msg_bits. rewrite bind_cons, crc_ref_app, IH, crc_byte_step by apply rd8_range. done.
Qed.

(** C19: [Crc32_ComputeBuf] is the division of the message by the polynomial, one bit
    after the other: the table of 256 words and the steps of a byte change nothing. *)
Theorem Crc32_ComputeBuf_divides m inCrc32 buf bufLen :
  Crc32_ComputeBuf m inCrc32 buf bufLen =
    Z.lxor (crc_ref (Z.lxor inCrc32 0xFFFFFFFF) (msg_bits (rdl m buf bufLen))) 0xFFFFFFFF.
Proof. unfold Crc32_ComputeBuf. by rewrite crc_bytes_ref. Qed.

(** A buffer may be handed over in parts. *)
Lemma Crc32_ComputeBuf_app m c p n k :
  Crc32_ComputeBuf m (Crc32_ComputeBuf m c p n) (p + n) k = Crc32_ComputeBuf m c p (n + k).
Proof.
  unfold Crc32_ComputeBuf. rewrite !crc_bytes_ref, rdl_app. unfold msg_bits.
  rewrite bind_app, crc_ref_app. f_equal. f_equal. by rewrite Z.lxor_assoc, Z.lxor_nilpotent, Z.lxor_0_r.
Qed.

(** ** Detecting errors *)

(** The highest bit of the register tells which bit has been shifted out. *)
Lemma crc_shift_inj a b :
  0 <= a < 2 ^ 32 → 0 <= b < 2 ^ 32 → crc_shift a = crc_shift b → a = b.
Proof.
  intros Ha Hb H.
  assert (∀ x, 0 <= x < 2 ^ 32 → Z.testbit (crc_shift x) 31 = Z.testbit x 0) as Hbit.
  { intros x Hx. assert (Z.testbit (Z.shiftr x 1) 31 = false) as E.
    { rewrite Z.shiftr_spec by done. rewrite <- (wrap_small 32 x Hx). by rewrite testbit_wrap. }
    unfold crc_shift. destruct (Z.testbit x 0); [by rewrite Z.lxor_spec, E|done]. }
  assert (Z.testbit a 0 = Z.testbit b 0) as H0 by (rewrite <- !Hbit by done; by rewrite H).
  assert (Z.shiftr a 1 = Z.shiftr b 1) as H1.
  { unfold crc_shift in H. rewrite H0 in H. destruct (Z.testbit b 0); [|done].
    apply (f_equal (λ x, Z.lxor x crc_poly)) in H.
    by rewrite !Z.lxor_assoc, Z.lxor_nilpotent, !Z.lxor_0_r in H. }
  apply Z.bits_inj'. intros i Hi. destruct (decide (i = 0)) as [->|]; [done|].
  replace i with (i - 1 + 1) by lia. by rewrite <- !Z.shiftr_spec, H1 by lia.
Qed.

Lemma lxor_range w a b : 0 <= w → 0 <= a < 2 ^ w → 0 <= b < 2 ^ w → 0 <= Z.lxor a b < 2 ^ w.
Proof.
  intros Hw Ha Hb. rewrite <- (wrap_small w a), <- (wrap_small w b) by lia.
  assert (Z.lxor (wrap w a) (wrap w b) = wrap w (Z.lxor a b)) as -> by zbits.
  by apply wrap_range.
Qed.

Lemma crc_shift_range c : 0 <= c < 2 ^ 32 → 0 <= crc_shift c < 2 ^ 32.
Proof.
  intros Hc. assert (0 <= Z.shiftr c 1 < 2 ^ 32) as Hs.
  { rewrite Z.shiftr_div_pow2 by done. change (2 ^ 1) with 2. mlia. }
  unfold crc_shift. destruct (Z.testbit c 0); [by apply lxor_range|done].
Qed.

Lemma crc_shifts_range n c : 0 <= c < 2 ^ 32 → 0 <= crc_shifts n c < 2 ^ 32.
Proof. intros Hc. induction n as [|n IH]; [done|]. rewrite Nat.iter_succ. by apply crc_shift_range. Qed.

Lemma crc_shifts_inj n a b :
  0 <= a < 2 ^ 32 → 0 <= b < 2 ^ 32 → crc_shifts n a = crc_shifts n b → a = b.
Proof.
  intros Ha Hb. induction n as [|n IH]; [done|]. rewrite !Nat.iter_succ.
  intros H. apply IH, crc_shift_inj; by try apply crc_shifts_range.
Qed.

Lemma crc_bit_range c b : 0 <= c < 2 ^ 32 → 0 <= crc_bit c b < 2 ^ 32.
Proof. intros Hc. apply crc_shift_range, lxor_range; [done..|]. by destruct b. Qed.

Lemma crc_ref_range bits c : 0 <= c < 2 ^ 32 → 0 <= crc_ref c bits < 2 ^ 32.
Proof. revert c. induction bits as [|b l IH]; intros c Hc; [done|]. by apply IH, crc_bit_range. Qed.

(** The same bits lead from different registers to different registers. *)
Lemma lxor_cancel_r a b c : Z.lxor a c = Z.lxor b c → a = b.
Proof.
  intros H. apply (f_equal (λ x, Z.lxor x c)) in H.
  by rewrite !Z.lxor_assoc, Z.lxor_nilpotent, !Z.lxor_0_r in H.
Qed.

Lemma crc_ref_inj bits a b :
  0 <= a < 2 ^ 32 → 0 <= b < 2 ^ 32 → crc_ref a bits = crc_ref b bits → a = b.
Proof.
  revert a b. induction bits as [|x l IH]; intros a b Ha Hb H; [done|].
  apply (IH (crc_bit a x) (crc_bit b x)) in H; [|by apply crc_bit_range..].
  apply crc_shift_inj, lxor_cancel_r in H; [done|apply lxor_range..]; by try destruct x.
Qed.

Lemma bits_val_range bits : 0 <= bits_val bits < 2 ^ length bits.
Proof.
  induction bits as [|b l IH]; cbn [bits_val length]; [done|].
  rewrite Nat2Z.inj_succ, Z.pow_succ_r by lia. destruct b; cbn [Z.b2z]; lia.
Qed.

(** Different messages of at most 32 bits lead to different registers. *)
Lemma crc_ref_short k l c :
  length k = length l → (length k <= 32)%nat → 0 <= c < 2 ^ 32 → crc_ref c k = crc_ref c l → k = l.
Proof.
  intros Hlen H32 Hc. rewrite !crc_ref_shifts, <- Hlen. intros H.
  assert (∀ bits : list bool, length bits = length k → 0 <= bits_val bits < 2 ^ 32) as Hv.
  { intros bits E. pose proof (bits_val_range bits) as B. rewrite E in B.
    pose proof (Z.pow_le_mono_r 2 (length k) 32 ltac:(lia) ltac:(lia)). lia. }
  apply crc_shifts_inj in H; [|by apply lxor_range; [..|apply Hv]..].
  rewrite !(Z.lxor_comm c) in H. apply lxor_cancel_r in H. by apply bits_val_inj.
Qed.

(** Every burst of errors is detected: when two buffers of the same size differ
    within 32 consecutive bits only, their check values are different. *)
Theorem Crc32_detects_bursts m1 m2 inCrc32 buf1 buf2 bufLen pre e1 e2 post :
  0 <= inCrc32 < 2 ^ 32 →
  msg_bits (rdl m1 buf1 bufLen) = pre ++ e1 ++ post →
  msg_bits (rdl m2 buf2 bufLen) = pre ++ e2 ++ post →
  length e1 = length e2 → (length e1 <= 32)%nat → e1 ≠ e2 →
  Crc32_ComputeBuf m1 inCrc32 buf1 bufLen ≠ Crc32_ComputeBuf m2 inCrc32 buf2 bufLen.
Proof.
  intros Hc E1 E2 Hlen H32 Hne H. apply Hne. unfold Crc32_ComputeBuf in H.
  apply lxor_cancel_r in H. rewrite !crc_bytes_ref, E1, E2, !crc_ref_app in H.
  assert (0 <= Z.lxor inCrc32 0xFFFFFFFF < 2 ^ 32) as Hc' by (by apply lxor_range).
  apply crc_ref_inj in H; [|by do 2 apply crc_ref_range..].
  apply crc_ref_short in H; [done..|]. by apply crc_ref_range.
Qed.

(** ** Witness: the text 123456789 and a text with two bits of it changed, 19 bits
    apart, the first in the third byte *)

Definition ex_text (third sixth : Z) : mem := wrl ∅ 0x1000 [49; 50; third; 52; 53; sixth; 55; 56; 57].

Lemma Crc32_detects_bursts_witness :
  Crc32_ComputeBuf (ex_text 51 54) 0 0x1000 9 ≠ Crc32_ComputeBuf (ex_text 19 55) 0 0x1000 9.
Proof.
  pose (bits third sixth := msg_bits (rdl (ex_text third sixth) 0x1000 9)).
  apply (Crc32_detects_bursts (ex_text 51 54) (ex_text 19 55) 0 0x1000 0x1000 9
    (take 16 (bits 51 54)) (take 32 (drop 16 (bits 51 54))) (take 32 (drop 16 (bits 19 55)))
    (drop 48 (bits 51 54))).
  - done.
  - vm_compute. reflexivity.
  - vm_compute. reflexivity.
  - vm_compute. reflexivity.
  - vm_compute. lia.
  - vm_compute. discriminate.
Defined.
