(* ===== verification/Argv.v ===== *)
(** * Arguments and environment: lib/argv.c

    The words of the command line become the entries of [__argv], the lines (or
    the strings) of the initial RAM disk the entries of [__environ].  Both arrays,
    the copies of the words and the text of the environment are in the byte
    memory; what a function prints is left out.  The loops of the code have no
    bound but the end of the string; [fuel] is a bound that is above the length
    of the string in the theorems. *)

From S2P Require Import Prelude Memory CString.

Definition ch_hash : Z := 35.
Definition ch_underscore : Z := 95.

(** The macros of the file, of a [char]. *)
Definition isblank (c : Z) : bool := (c =? ch_space) || (c =? ch_tab).
Definition isalpha (c : Z) : bool :=
  ((65 <=? c) && (c <=? 90)) || ((97 <=? c) && (c <=? 122)) || (c =? ch_underscore).
Definition isalnum (c : Z) : bool := isalpha c || ((ch_0 <=? c) && (c <=? ch_9)).

(** [__argc] and [copy_ptr]; [__argv] and [args_copy] are in the memory. *)
Record args_state := Args { amem : mem; argc : Z; copy_ptr : Z }.

Section Argv.
(** The addresses of the arrays [__argv] and [__environ]. *)
Context (argv_base environ_base : Z) (fuel : nat).

Fixpoint skip_blanks (n : nat) (m : mem) (p : Z) : option Z :=
  match n with
  | O => None
  | S n' => if isblank (rdc m p) then skip_blanks n' m (p + 1) else Some p
  end.

(** [while ( *args != NUL && !isblank( *args)) *copy_ptr++ = *args++;] *)
Fixpoint copy_word (n : nat) (m : mem) (copy args : Z) : option (mem * Z * Z) :=
  match n with
  | O => None
  | S n' =>
      let c := rdc m args in
      if negb (c =? 0) && negb (isblank c) then copy_word n' (wr8 m copy c) (copy + 1) (args + 1)
      else Some (m, copy, args)
  end.

(** The loop over the words: the memory, [argv] and [copy_ptr] at its end. *)
Fixpoint setup_args_loop (n : nat) (m : mem) (args argv copy : Z) : option (mem * Z * Z) :=
  match n with
  | O => None
  | S n' =>
      args ← skip_blanks fuel m args;
      if rdc m args =? 0 then Some (m, argv, copy)
      else
        '(m, copy, args) ← copy_word fuel (st64 m argv copy) copy args;
        setup_args_loop n' (wr8 m copy 0) args (argv + 8) (copy + 1)
  end.

(** [__args] is the argument. *)
Definition __setup_args (args : Z) (s : args_state) : option args_state :=
  '(m, argv, copy) ← setup_args_loop fuel (amem s) args (argv_base + 8 * argc s) (copy_ptr s);
  Some (Args m (s32 ((argv - argv_base) / 8)) copy).

Definition setup_args (args : Z) (s : args_state) : option args_state :=
  if args =? NULL then Some s else __setup_args args s.

(** [progname] is [auxinfo.progname]. *)
Definition setup_args_progname (progname args : Z) (s : args_state) : option args_state :=
  let copy := copy_ptr s in
  let m := st64 (amem s) argv_base copy in
  '(m, _) ← strcpy fuel m (ld64 m argv_base) progname;
  n ← strlen fuel m progname;
  setup_args args (Args m (s32 (argc s + 1)) (copy + n + 1)).

Fixpoint env_eol (n : nat) (m : mem) (env : Z) : option Z :=
  match n with
  | O => None
  | S n' =>
      if negb (rdc m env =? 0) && negb (rdc m env =? ch_nl) then env_eol n' m (env + 1) else Some env
  end.

Definition env_invalid_eol (m : mem) (env : Z) : option (mem * Z) :=
  eol ← env_eol fuel m env;
  let eol_old := rdc m eol in
  let m := wr8 m eol 0 in
  Some (wr8 m eol eol_old, eol).

(** The loop over the name of a variable: where it ends, and [invalid]. *)
Fixpoint env_name (n : nat) (m : mem) (p : Z) (invalid : bool) : option (Z * bool) :=
  match n with
  | O => None
  | S n' =>
      let c := rdc m p in
      if negb (c =? 0) && negb (c =? ch_eq) && negb (c =? ch_nl)
      then env_name n' m (p + 1) (invalid || negb (isalnum c))
      else Some (p, invalid)
  end.

Fixpoint env_next (n : nat) (m : mem) (env : Z) : option (mem * Z) :=
  match n with
  | O => None
  | S n' =>
      if rdc m env =? 0 then Some (m, env)
      else if isalpha (rdc m env) then
        '(p, invalid) ← env_name fuel m (env + 1) false;
        let invalid := invalid || negb (rdc m p =? ch_eq) in
        if invalid then
          '(m, env) ← env_invalid_eol m env;
          if negb (rdc m env =? 0) then env_next n' m (env + 1) else Some (m, env)
        else Some (m, env)
      else
        p ← skip_blanks fuel m env;
        if rdc m p =? ch_nl then env_next n' m (p + 1)
        else
          '(m, env) ← (if rdc m p =? ch_hash then env ← env_eol fuel m env; Some (m, env)
                       else env_invalid_eol m env);
          if negb (rdc m env =? 0) then env_next n' m (env + 1) else Some (m, env)
  end.

(** [while (env < eof && *env && !(newline && *env == NEWLINE)) ++env;] *)
Fixpoint env_scan (n : nat) (m : mem) (env eof : Z) (newline : bool) : option Z :=
  match n with
  | O => None
  | S n' =>
      if (env <? eof) && negb (rdc m env =? 0) && negb (newline && (rdc m env =? ch_nl))
      then env_scan n' m (env + 1) eof newline else Some env
  end.

Fixpoint setup_env_loop (n : nat) (m : mem) (env eof : Z) (newline : bool) (i : Z) : option mem :=
  match n with
  | O => None
  | S n' =>
      if env <? eof then
        '(m, env) ← (if newline then env_next fuel m env else Some (m, env));
        if (rdc m env =? 0) || (eof <=? env) then Some m
        else
          let m := st64 m (environ_base + 8 * i) env in
          env ← env_scan fuel m env eof newline;
          setup_env_loop n' (wr8 m env 0) (env + 1) eof newline (s32 (i + 1))
      else Some m
  end.

Definition setup_env (m : mem) (env size : Z) : option mem :=
  let eof := env + size in
  p ← skip_to_nul fuel m env;
  setup_env_loop fuel m env eof (p =? eof) 0.
End Argv.

(** ** Splitting a list *)

Section Split.
Context (stop : Z → bool).

(** Up to the first element that stops, and from there on. *)
Fixpoint before (l : list Z) : list Z :=
  match l with [] => [] | b :: l' => if stop b then [] else b :: before l' end.
Fixpoint after (l : list Z) : list Z :=
  match l with [] => [] | b :: l' => if stop b then b :: l' else after l' end.

(** The parts between the elements that stop. *)
Fixpoint splits (l : list Z) : list (list Z) :=
  match l with
  | [] => [[]]
  | b :: l' =>
      if stop b then [] :: splits l'
      else match splits l' with w :: ws => (b :: w) :: ws | [] => [[b]] end
  end.

Lemma before_after l : before l ++ after l = l.
Proof using Type. induction l as [|b l IH]; cbn; [done|]. destruct (stop b); cbn; [done|by rewrite IH]. Qed.

Lemma before_go l : Forall (λ b, stop b = false) (before l).
Proof using Type. induction l as [|b l IH]; cbn; [done|]. destruct (stop b) eqn:E; [done|by constructor]. Qed.

Lemma after_stop l b r : after l = b :: r → stop b = true.
Proof using Type.
  induction l as [|a l IH]; cbn; [done|]. destruct (stop a) eqn:E; [|done]. by intros [= <- <-].
Qed.

Lemma after_length l : (length (after l) <= length l)%nat.
Proof using Type. induction l as [|b l IH]; cbn; [done|]. destruct (stop b); cbn; lia. Qed.

Lemma splits_step l :
  splits l = before l :: match after l with [] => [] | _ :: r => splits r end.
Proof using Type.
  induction l as [|b l IH]; cbn; [done|]. destruct (stop b); [done|]. by rewrite IH.
Qed.

Lemma before_app w l : Forall (λ b, stop b = false) w → before (w ++ l) = w ++ before l ∧ after (w ++ l) = after l.
Proof using Type. induction 1 as [|b w Hb _ [IH1 IH2]]; cbn; [done|]. by rewrite Hb, IH1. Qed.
End Split.

(** The words of a line. *)
Definition words (l : list Z) : list (list Z) := filter (λ w, w ≠ []) (splits isblank l).

(** The variables of a text: its lines of the form NAME=value, where NAME is a
    letter and letters and digits. *)
Definition is_nl (b : Z) : bool := b =? ch_nl.
Definition is_eq (b : Z) : bool := b =? ch_eq.
Definition key (l : list Z) : list Z := before is_eq l.
Definition value (l : list Z) : list Z := drop 1 (after is_eq l).
Definition valid_line (l : list Z) : bool :=
  match key l, after is_eq l with
  | c :: k, _ :: _ => isalpha c && forallb isalnum k
  | _, _ => false
  end.
Definition env_vars (l : list Z) : list (list Z) := filter (λ l, valid_line l = true) (splits is_nl l).

Example words_ex : words [32; 97; 98; 9; 32; 99; 32] = [[97; 98]; [99]].
Proof. reflexivity. Qed.

(** ** Characters and strings *)

(** Results that agree up to arithmetic. *)
Ltac some_eq :=
  lazymatch goal with
  | |- Some _ = Some _ => f_equal; some_eq
  | |- (_, _) = (_, _) => f_equal; some_eq
  | |- @eq Z _ _ => lia
  | |- _ => reflexivity
  end.

Lemma isblank_byte m p b : rd8 m p = b → isblank (rdc m p) = isblank b.
Proof. intros <-. unfold isblank. by rewrite !rdc_ascii by done. Qed.

Lemma rdc_signed m p : rdc m p = if rd8 m p <? 128 then rd8 m p else rd8 m p - 256.
Proof. pose proof (rd8_range m p). unfold rdc. rewrite swrap_cases by lia. done. Qed.

Lemma isalpha_byte m p b : rd8 m p = b → isalpha (rdc m p) = isalpha b.
Proof.
  intros <-. rewrite rdc_signed. pose proof (rd8_range m p).
  unfold isalpha, ch_underscore. destruct (Z.ltb_spec (rd8 m p) 128); [done|]. lia.
Qed.

Lemma isalnum_byte m p b : rd8 m p = b → isalnum (rdc m p) = isalnum b.
Proof.
  intros Hb. unfold isalnum. rewrite (isalpha_byte m p b Hb). subst b. rewrite rdc_signed.
  pose proof (rd8_range m p). unfold ch_0, ch_9. destruct (Z.ltb_spec (rd8 m p) 128); [done|].
  f_equal. lia.
Qed.

Lemma cstr_split m p k l : cstr m p (k ++ l) → cstr m (p + length k) l.
Proof. rewrite cstr_app. tauto. Qed.

Lemma cstr_cons_nz m p b l : cstr m p (b :: l) → (rdc m p =? 0) = false ∧ rd8 m p = b ∧ cstr m (p + 1) l.
Proof. intros (Hb & Hnz & Hl). split_and!; [|done..]. apply rdc_nz. congruence. Qed.

(** A scan over a string stops at the first character that stops it. *)
Lemma skip_blanks_cstr n m p l :
  cstr m p l → (length l < n)%nat →
  skip_blanks n m p = Some (p + length (before (λ b, negb (isblank b)) l)).
Proof.
  revert p l. induction n as [|n IH]; intros p [|b l] Hl Hn; cbn in Hn; try lia; cbn [skip_blanks before].
  - cbn in Hl. rewrite (isblank_byte m p 0 Hl). cbn. f_equal. lia.
  - destruct (cstr_cons_nz _ _ _ _ Hl) as (_ & Hb & Hl'). rewrite (isblank_byte m p b Hb).
    destruct (isblank b); cbn [negb length]; [|f_equal; lia].
    rewrite (IH _ l Hl') by lia. f_equal. lia.
Qed.

Lemma env_eol_cstr n m p l :
  cstr m p l → (length l < n)%nat → env_eol n m p = Some (p + length (before is_nl l)).
Proof.
  revert p l. induction n as [|n IH]; intros p [|b l] Hl Hn; cbn in Hn; try lia; cbn [env_eol before].
  - cbn in Hl. rewrite rdc_z by done. cbn. f_equal. lia.
  - destruct (cstr_cons_nz _ _ _ _ Hl) as (E & Hb & Hl'). rewrite E, rdc_ascii, Hb by done.
    unfold is_nl at 1. destruct (b =? ch_nl); cbn [negb andb length]; [f_equal; lia|].
    rewrite (IH _ l Hl') by lia. f_equal. lia.
Qed.

Definition name_end (b : Z) : bool := (b =? ch_eq) || (b =? ch_nl).

Lemma env_name_cstr n m p l inv :
  cstr m p l → (length l < n)%nat →
  env_name n m p inv =
    Some (p + length (before name_end l), inv || negb (forallb isalnum (before name_end l))).
Proof.
  revert p l inv. induction n as [|n IH]; intros p [|b l] inv Hl Hn; cbn in Hn; try lia; cbn [env_name before].
  - cbn in Hl. rewrite rdc_z by done. cbn. rewrite orb_false_r. f_equal. f_equal. lia.
  - destruct (cstr_cons_nz _ _ _ _ Hl) as (E & Hb & Hl'). rewrite E, !rdc_ascii, Hb by done.
    unfold name_end at 1 3. rewrite <- andb_assoc, <- negb_orb. cbn [negb andb].
    destruct ((b =? ch_eq) || (b =? ch_nl)); cbn [negb length forallb].
    + rewrite orb_false_r. f_equal. f_equal. lia.
    + rewrite (IH _ l _ Hl') by lia. rewrite (isalnum_byte m p b Hb), negb_andb, orb_assoc.
      f_equal. f_equal. lia.
Qed.

Lemma env_scan_cstr n m p l eof :
  cstr m p l → (length l < n)%nat → p + length l = eof →
  env_scan n m p eof true = Some (p + length (before is_nl l)).
Proof.
  revert p l. induction n as [|n IH]; intros p [|b l] Hl Hn He; cbn in Hn, He; try lia; cbn [env_scan before].
  - rewrite (proj2 (Z.ltb_ge p eof)) by lia. cbn. f_equal. lia.
  - destruct (cstr_cons_nz _ _ _ _ Hl) as (E & Hb & Hl'). rewrite E, rdc_ascii, Hb by done.
    rewrite (proj2 (Z.ltb_lt p eof)) by lia.
    unfold is_nl at 1. destruct (b =? ch_nl); cbn [negb andb length]; [f_equal; lia|].
    rewrite (IH _ l Hl') by lia. f_equal. lia.
Qed.

(** ** Arrays of strings *)

(** The array at [a] starts with the pointers [ps]. *)
Definition ptrs (m : mem) (a : Z) (ps : list Z) : Prop :=
  ∀ (k : nat) p, ps !! k = Some p → ld64 m (a + 8 * k) = p.

Lemma ptrs_nil m a : ptrs m a [].
Proof. by intros k p. Qed.

Lemma ptrs_cons m a p ps : ptrs m a (p :: ps) ↔ ld64 m a = p ∧ ptrs m (a + 8) ps.
Proof.
  unfold ptrs. split.
  - intros H. split; [rewrite <- (Z.add_0_r a); by apply (H 0%nat)|].
    intros k q Hq. replace (a + 8 + 8 * k) with (a + 8 * S k) by lia. by apply H.
  - intros [H1 H2] [|k] q Hq; cbn in Hq.
    + injection Hq as <-. by rewrite Z.add_0_r.
    + replace (a + 8 * S k) with (a + 8 + 8 * k) by lia. by apply H2.
Qed.

(** The bytes that strings take. *)
Definition total (ws : list (list Z)) : Z := Z.of_nat (length (concat ws) + length ws).

Lemma total_cons w ws : total (w :: ws) = length w + 1 + total ws.
Proof. unfold total. cbn. rewrite length_app. lia. Qed.

(** ** The command line *)

Lemma copy_word_spec n m copy args l w :
  w = before isblank l → cstr m args l → (length l < n)%nat → disjoint_regions args (length l + 1) copy (length w) →
  ∃ m', copy_word n m copy args = Some (m', copy + length w, args + length w) ∧
    rdl m' copy (length w) = w ∧ ∀ x, (x < copy ∨ copy + length w <= x) → rd8 m' x = rd8 m x.
Proof.
  revert m copy args l w. unfold disjoint_regions.
  induction n as [|n IH]; intros m copy args [|b l] w -> Hl Hn Hd; cbn in Hn; try lia; cbn [copy_word before] in *.
  - cbn in *. rewrite rdc_z by done. cbn. exists m. rewrite !Z.add_0_r. done.
  - destruct (cstr_cons_nz _ _ _ _ Hl) as (E & Hb & Hl'). rewrite E, (isblank_byte m args b Hb).
    destruct (isblank b); cbn [negb andb length] in *.
    { exists m. rewrite !Z.add_0_r. done. }
    destruct (IH (wr8 m copy (rdc m args)) (copy + 1) (args + 1) l _ eq_refl) as (m' & -> & Hr & Hf).
    + eapply cstr_ext; [|exact Hl']. intros i Hi. apply rd8_wr8_other. lia.
    + lia.
    + lia.
    + exists m'. split; [some_eq|]. split.
      * cbn. rewrite Hr, Hf, rd8_wr8_same, u8_rdc by lia. by rewrite Hb.
      * intros x Hx. rewrite Hf by lia. apply rd8_wr8_other. lia.
Qed.

Lemma words_blanks l : words l = words (after (λ b, negb (isblank b)) l).
Proof.
  induction l as [|b l IH]; cbn [after]; [done|]. destruct (isblank b) eqn:E; cbn [negb]; [|done].
  rewrite <- IH. unfold words. cbn [splits]. by rewrite E.
Qed.

Lemma words_word b l :
  isblank b = false → words (b :: l) = (b :: before isblank l) :: words (after isblank l).
Proof.
  intros E. unfold words. cbn [splits]. rewrite E, (splits_step isblank l).
  rewrite filter_cons_True by done. f_equal.
  destruct (after isblank l) as [|c r] eqn:Er; [done|].
  cbn [splits]. by rewrite (after_stop _ _ _ _ Er).
Qed.

Lemma words_next l :
  match after (λ b, negb (isblank b)) l with
  | [] => words l = []
  | b :: r => isblank b = false ∧ words l = (b :: before isblank r) :: words (after isblank r)
  end.
Proof.
  rewrite words_blanks. destruct (after _ l) as [|b r] eqn:E; [done|].
  apply after_stop in E. apply negb_true_iff in E. split; [done|]. by apply words_word.
Qed.

Lemma cstr_store (n : nat) m a v p l :
  disjoint_regions p (length l + 1) a n → cstr m p l → cstr (stn n m a v) p l.
Proof.
  unfold disjoint_regions. intros Hd. apply cstr_ext. intros i Hi. apply rd8_stn_other. lia.
Qed.

Lemma setup_args_loop_spec fuel n m args argv copy l ws :
  ws = words l → cstr m args l → (length l < fuel)%nat → (length l < n)%nat →
  disjoint_regions args (length l + 1) copy (total ws) →
  disjoint_regions args (length l + 1) argv (8 * length ws) →
  disjoint_regions copy (total ws) argv (8 * length ws) →
  0 <= copy → copy + total ws <= 2 ^ 64 →
  ∃ m' ps, setup_args_loop fuel n m args argv copy = Some (m', argv + 8 * length ws, copy + total ws) ∧
    length ps = length ws ∧ ptrs m' argv ps ∧ Forall2 (cstr m') ps ws ∧
    ∀ x, (x < copy ∨ copy + total ws <= x) → (x < argv ∨ argv + 8 * length ws <= x) → rd8 m' x = rd8 m x.
Proof.
  unfold disjoint_regions. revert m args argv copy l ws.
  induction n as [|n IH]; intros m args argv copy l ws -> Hl Hfu Hn H1 H2 H3 H0 H64; [lia|].
  cbn [setup_args_loop]. rewrite (skip_blanks_cstr _ _ _ l) by done. cbn [mbind option_bind].
  pose proof (before_after (λ b, negb (isblank b)) l) as El.
  set (bl := before (λ b, negb (isblank b)) l) in *. pose proof (words_next l) as Hw.
  rewrite <- El in Hl. apply cstr_split in Hl.
  apply (f_equal length) in El. rewrite length_app in El.
  destruct (after _ l) as [|b r] eqn:Er; cbn [length] in El.
  - cbn in Hl. rewrite rdc_z by done. cbn [Z.eqb]. exists m, []. rewrite Hw. change (total []) with 0. cbn.
    split_and!; [some_eq|done|apply ptrs_nil|done|done].
  - destruct Hw as [Hb Hw]. destruct (cstr_cons_nz _ _ _ _ Hl) as (E & _). rewrite E.
    rewrite Hw in *. clear Hw. set (w := b :: before isblank r) in *.
    rewrite total_cons in *. cbn [length] in *.
    assert (before isblank (b :: r) = w) as Ew by (cbn; by rewrite Hb).
    assert (after isblank (b :: r) = after isblank r) as Ea by (cbn; by rewrite Hb).
    pose proof (before_after isblank (b :: r)) as Ebr. rewrite Ew, Ea in Ebr.
    set (r' := after isblank r) in *. pose proof (f_equal length Ebr) as Elen.
    rewrite length_app in Elen. cbn [length] in Elen.
    assert (0 <= total (words r')) by (unfold total; lia).
    assert (1 <= length w)%nat by (unfold w; cbn; lia).
    set (p0 := args + length bl) in *.
    destruct (copy_word_spec fuel (st64 m argv copy) copy p0 (b :: r) w (eq_sym Ew)) as (m1 & Ec & Hr1 & Hf1).
    { apply cstr_store; [|exact Hl]. unfold disjoint_regions. cbn [length]. lia. }
    { cbn. lia. }
    { unfold disjoint_regions. cbn [length]. lia. }
    rewrite Ec. cbn [mbind option_bind].
    destruct (IH (wr8 m1 (copy + length w) 0) (p0 + length w) (argv + 8) (copy + length w + 1) r' _ eq_refl)
      as (m2 & ps & -> & Hlen & Hps & Hss & Hf2); try lia.
    { rewrite <- Ebr in Hl. apply cstr_split in Hl. eapply cstr_ext; [|exact Hl]. intros i Hi.
      rewrite rd8_wr8_other, Hf1, rd8_stn_other by lia. done. }
    assert (∀ i, copy <= i <= copy + length w → rd8 m2 i = rd8 (wr8 m1 (copy + length w) 0) i) as Hk
      by (intros i Hi; apply Hf2; lia).
    exists m2, (copy :: ps). split_and!.
    + some_eq.
    + cbn. by rewrite Hlen.
    + apply ptrs_cons. split; [|done].
      assert (ld64 m2 argv = ld64 (st64 m argv copy) argv) as ->.
      { apply ldn_ext. intros i Hi. rewrite Hf2, rd8_wr8_other, Hf1 by lia. done. }
      apply ld64_st64_same. lia.
    + constructor; [|done].
      apply cstr_intro.
      * rewrite <- Hr1 at 2. apply rdl_ext. intros i Hi. rewrite Hk by lia. apply rd8_wr8_other. lia.
      * rewrite <- Ew. rewrite <- (before_after isblank (b :: r)) in Hl. apply cstr_app in Hl. tauto.
      * rewrite Hk, rd8_wr8_same by lia. done.
    + intros x Hx Hx2. rewrite Hf2, rd8_wr8_other, Hf1, rd8_stn_other by lia. done.
Qed.

(** The arguments of [main]: the name of the program and the words of the command
    line, each a string of its own, are the entries of [__argv]; nothing but the two
    arrays is written.  There must be room: at most 100 words of 1000 bytes together. *)
Theorem setup_args_progname_argv argv_base fuel s progname pn args l :
  argc s = 0 → cstr (amem s) progname pn → (if args =? NULL then l = [] else cstr (amem s) args l) →
  (length pn < fuel)%nat → (length l < fuel)%nat →
  (length (pn :: words l) <= 100)%nat → total (pn :: words l) <= 1000 →
  0 < copy_ptr s → copy_ptr s + 1000 <= 2 ^ 64 → disjoint_regions (copy_ptr s) 1000 argv_base 800 →
  disjoint_regions progname (length pn + 1) (copy_ptr s) 1000 →
  disjoint_regions progname (length pn + 1) argv_base 800 →
  disjoint_regions args (length l + 1) (copy_ptr s) 1000 →
  disjoint_regions args (length l + 1) argv_base 800 →
  ∃ s' ps, setup_args_progname argv_base fuel progname args s = Some s' ∧
    argc s' = length (pn :: words l) ∧ length ps = length (pn :: words l) ∧
    ptrs (amem s') argv_base ps ∧ Forall2 (cstr (amem s')) ps (pn :: words l) ∧
    ∀ x, (x < copy_ptr s ∨ copy_ptr s + 1000 <= x) → (x < argv_base ∨ argv_base + 800 <= x) →
      rd8 (amem s') x = rd8 (amem s) x.
Proof.
  destruct s as [m c0 copy]. cbn [amem argc copy_ptr length]. unfold disjoint_regions.
  intros -> Hpn Hargs Hf1 Hf2 H100 H1000 Hc0 Hc64 Hd H1 H2 H3 H4. rewrite total_cons in H1000.
  assert (0 <= total (words l)) by (unfold total; lia).
  unfold setup_args_progname. cbn [amem argc copy_ptr].
  rewrite ld64_st64_same by lia.
  destruct (strcpy_spec fuel (st64 m argv_base copy) copy progname pn) as (m1 & -> & Hp1 & Hfr1);
    [apply cstr_store; [unfold disjoint_regions; lia|done]|done|unfold disjoint_regions; lia|].
  cbn [mbind option_bind]. set (q := copy + length pn + 1).
  assert (∀ x, (x < copy ∨ copy + length pn < x) → (x < argv_base ∨ argv_base + 8 <= x) → rd8 m1 x = rd8 m x) as Hfm.
  { intros x Hx1 Hx2. rewrite Hfr1, rd8_stn_other by lia. done. }
  rewrite (strlen_cstr _ _ _ pn); [|eapply cstr_ext; [|exact Hpn]; intros i Hi; apply Hfm; lia|done|lia].
  cbn [mbind option_bind]. unfold setup_args. change (s32 (0 + 1)) with 1. fold q.
  assert (ld64 m1 argv_base = copy) as Hq.
  { rewrite <- (ld64_st64_same m argv_base copy) by lia. apply ldn_ext. intros i Hi. apply Hfr1. lia. }
  assert (∃ m' ps, (if args =? NULL then Some (Args m1 1 q) else __setup_args argv_base fuel args (Args m1 1 q)) =
      Some (Args m' (1 + length (words l)) (q + total (words l))) ∧
    length ps = length (words l) ∧ ptrs m' (argv_base + 8) ps ∧ Forall2 (cstr m') ps (words l) ∧
    ∀ x, (x < q ∨ q + total (words l) <= x) → (x < argv_base + 8 ∨ argv_base + 8 + 8 * length (words l) <= x) →
      rd8 m' x = rd8 m1 x) as (m' & ps & -> & Hlen & Hps & Hss & Hf).
  { destruct (args =? NULL).
    - subst l. exists m1, []. change (total (words [])) with 0. rewrite !Z.add_0_r.
      by split_and!.
    - unfold __setup_args. cbn [amem argc copy_ptr]. rewrite Z.mul_1_r.
      destruct (setup_args_loop_spec fuel fuel m1 args (argv_base + 8) q l _ eq_refl) as (m' & ps & -> & Hr);
        unfold disjoint_regions; try lia.
      { eapply cstr_ext; [|exact Hargs]. intros i Hi. apply Hfm; lia. }
      exists m', ps. split; [|exact Hr]. cbn [mbind option_bind].
      replace (argv_base + 8 + 8 * length (words l) - argv_base) with ((1 + length (words l)) * 8) by lia.
      rewrite Z.div_mul, swrap_small by (cbn; lia). done. }
  exists (Args m' (1 + length (words l)) (q + total (words l))), (copy :: ps). cbn [amem argc].
  split_and!; [done|lia|cbn; lia| | |].
  - apply ptrs_cons. split; [|done]. rewrite <- Hq. apply ldn_ext. intros i Hi. apply Hf; lia.
  - constructor; [|done]. eapply cstr_ext; [|exact Hp1]. intros i Hi. apply Hf; lia.
  - intros x Hx1 Hx2. rewrite Hf, Hfm by lia. done.
Qed.

(** ** The environment *)

Lemma before_before p q l : before p (before q l) = before (λ b, p b || q b) l.
Proof.
  induction l as [|b l IH]; cbn; [done|]. destruct (q b); cbn; [by rewrite orb_true_r|].
  rewrite orb_false_r, IH. done.
Qed.

Lemma after_before p q l : after p (before q l) = before q (after (λ b, p b || q b) l).
Proof.
  induction l as [|b l IH]; cbn; [done|]. destruct (q b) eqn:E; cbn; rewrite ?orb_true_r, ?orb_false_r.
  - cbn. by rewrite E.
  - destruct (p b); [cbn; by rewrite E|done].
Qed.

Lemma env_vars_step l :
  env_vars l = (if valid_line (before is_nl l) then [before is_nl l] else []) ++
               match after is_nl l with [] => [] | _ :: r => env_vars r end.
Proof.
  unfold env_vars at 1. rewrite splits_step, filter_cons.
  destruct (valid_line (before is_nl l)) eqn:E;
    [rewrite decide_True by done|rewrite decide_False by done]; cbn [app]; [f_equal|];
    by destruct (after is_nl l).
Qed.

Lemma isalpha_not_special c : isalpha c = true → is_eq c = false ∧ is_nl c = false ∧ isblank c = false.
Proof.
  unfold isalpha, is_eq, is_nl, isblank, ch_underscore, ch_eq, ch_nl, ch_space, ch_tab.
  intros H. split_and!; lia.
Qed.

(** A line that starts with a letter is valid when its name is, and a = follows. *)
Lemma valid_line_alpha c l :
  isalpha c = true →
  valid_line (before is_nl (c :: l)) =
    forallb isalnum (before name_end l) && match after name_end l with b :: _ => is_eq b | [] => false end.
Proof.
  intros Hc. destruct (isalpha_not_special c Hc) as (He & Hn & _). cbn [before]. rewrite Hn.
  unfold valid_line, key. cbn [before after]. rewrite He, before_before, after_before. cbv zeta.
  change (λ b, is_eq b || is_nl b) with name_end. rewrite Hc. cbn [andb].
  destruct (after name_end l) as [|b r] eqn:E; cbn [before]; [by rewrite andb_false_r|].
  apply after_stop in E. unfold name_end in E. fold (is_eq b) (is_nl b) in E.
  destruct (is_nl b) eqn:En; [|rewrite orb_false_r in E; by rewrite E, andb_true_r].
  assert (is_eq b = false) as ->; [|by rewrite andb_false_r].
  unfold is_nl, is_eq, ch_nl, ch_eq in *. lia.
Qed.

Lemma valid_line_not_alpha c l : isalpha c = false → valid_line (before is_nl (c :: l)) = false.
Proof.
  intros Hc. unfold valid_line, key. cbn [before]. destruct (is_nl c); [done|]. cbn [before after].
  destruct (is_eq c); [done|]. destruct (after _ _); [done|]. by rewrite Hc.
Qed.

(** The rest of the text after an invalid line. *)
Definition next_line (l : list Z) : list Z := drop 1 (after is_nl l).

Lemma env_vars_skip l : valid_line (before is_nl l) = false → env_vars l = env_vars (next_line l).
Proof.
  intros H. rewrite env_vars_step, H. unfold next_line. by destruct (after is_nl l).
Qed.

Lemma env_invalid_eol_cstr fuel m p l :
  cstr m p l → (length l < fuel)%nat →
  ∃ m', env_invalid_eol fuel m p = Some (m', p + length (before is_nl l)) ∧ m' ≡ₘ m.
Proof.
  intros Hl Hf. unfold env_invalid_eol. rewrite (env_eol_cstr _ _ _ l) by done. cbn [mbind option_bind].
  eexists. split; [done|]. intros x. set (e := p + length (before is_nl l)).
  destruct (decide (x = e)) as [->|Hne]; [by rewrite rd8_wr8_same, u8_rdc|].
  by rewrite !rd8_wr8_other by done.
Qed.

Lemma meq_cstr m m' p l : m' ≡ₘ m → cstr m p l → cstr m' p l.
Proof. intros H. apply cstr_ext. intros i _. apply H. Qed.

(** [env_next] skips what is no variable. *)
Definition at_var (t : list Z) : Prop := t = [] ∨ valid_line (before is_nl t) = true.

Definition env_next_post (m : mem) (p : Z) (t : list Z) (r : option (mem * Z)) : Prop :=
  ∃ m' sk t', r = Some (m', p + length sk) ∧ m' ≡ₘ m ∧ t = sk ++ t' ∧ env_vars t = env_vars t' ∧ at_var t'.

(** After an invalid line, which ends at [e]: the memory is [m1]. *)
Lemma env_next_skip fuel n m m1 p t :
  (∀ m p t, cstr m p t → (length t < n)%nat → (length t < fuel)%nat → env_next_post m p t (env_next fuel n m p)) →
  cstr m p t → (length t <= n)%nat → (length t < fuel)%nat → m1 ≡ₘ m →
  valid_line (before is_nl t) = false →
  env_next_post m p t
    (if negb (rdc m1 (p + length (before is_nl t)) =? 0)
     then env_next fuel n m1 (p + length (before is_nl t) + 1)
     else Some (m1, p + length (before is_nl t))).
Proof.
  intros IH Hl Hn Hf Hm Hv. pose proof (env_vars_skip t Hv) as Ev. unfold next_line in Ev.
  pose proof (before_after is_nl t) as Et. set (w := before is_nl t) in *.
  apply (meq_cstr m m1) in Hl; [|done]. rewrite <- Et in Hl. apply cstr_split in Hl.
  apply (f_equal length) in Et as Elen. rewrite length_app in Elen.
  destruct (after is_nl t) as [|b r] eqn:Er; cbn [drop] in Ev.
  - cbn in Hl. rewrite rdc_z by done. cbn. exists m1, w, []. rewrite app_nil_r in Et.
    split_and!; [done..|by rewrite app_nil_r|done|by left].
  - destruct (cstr_cons_nz _ _ _ _ Hl) as (E & _ & Hr). rewrite E. cbn [negb]. cbn [length] in Elen.
    destruct (IH m1 _ r Hr) as (m2 & sk & t' & -> & Hm2 & -> & Ev2 & Hat); [lia..|].
    exists m2, (w ++ b :: sk), t'. split_and!.
    + rewrite length_app. cbn [length]. some_eq.
    + by transitivity m1.
    + by rewrite <- app_assoc.
    + by rewrite Ev.
    + done.
Qed.

Lemma env_next_spec fuel n m p t :
  cstr m p t → (length t < n)%nat → (length t < fuel)%nat → env_next_post m p t (env_next fuel n m p).
Proof.
  revert m p t. induction n as [|n IH]; intros m p t Hl Hn Hf; [lia|]. cbn [env_next].
  destruct t as [|c t].
  { cbn in Hl. rewrite rdc_z by done. cbn. exists m, [], []. rewrite Z.add_0_r. split_and!; try done. by left. }
  destruct (cstr_cons_nz _ _ _ _ Hl) as (E & Hb & Hl1). rewrite E, (isalpha_byte m p c Hb).
  cbn [length] in Hn, Hf. pose proof (before_after is_nl (c :: t)) as Ebr.
  destruct (env_invalid_eol_cstr fuel m p (c :: t) Hl Hf) as (mi & Hinv & Hmi).
  destruct (isalpha c) eqn:Ea.
  - rewrite (env_name_cstr fuel m (p + 1) t false Hl1) by lia. cbn [mbind option_bind orb].
    assert (valid_line (before is_nl (c :: t)) = negb (negb (forallb isalnum (before name_end t)) ||
      negb (rdc m (p + 1 + length (before name_end t)) =? ch_eq))) as Hv.
    { rewrite valid_line_alpha by done. rewrite negb_orb, !negb_involutive. f_equal.
      rewrite <- (before_after name_end t) in Hl1. apply cstr_split in Hl1.
      destruct (after name_end t) as [|b r]; [cbn in Hl1; by rewrite rdc_ascii, Hl1|].
      destruct (cstr_cons_nz _ _ _ _ Hl1) as (_ & Hb' & _). by rewrite rdc_ascii, Hb'. }
    destruct (_ || _); cbn [negb] in Hv.
    + rewrite Hinv. cbn [mbind option_bind]. apply env_next_skip; cbn; done || lia.
    + exists m, [], (c :: t). rewrite Z.add_0_r. split_and!; try done. by right.
  - pose proof (valid_line_not_alpha c t Ea) as Hv.
    rewrite (skip_blanks_cstr fuel m p (c :: t)) by (done || lia). cbn [mbind option_bind].
    set (bl := before (λ b, negb (isblank b)) (c :: t)).
    pose proof (before_after (λ b, negb (isblank b)) (c :: t)) as Ebl. fold bl in Ebl.
    destruct (Z.eqb_spec (rdc m (p + length bl)) ch_nl) as [Enl|_].
    + assert (before is_nl (c :: t) = bl) as Eline.
      { pose proof (before_go (λ b, negb (isblank b)) (c :: t)) as Hbl. fold bl in Hbl.
        assert (Forall (λ b, is_nl b = false) bl) as Hbn.
        { eapply Forall_impl; [exact Hbl|]. cbn. intros b H%negb_false_iff.
          unfold isblank, is_nl, ch_nl, ch_space, ch_tab in *. lia. }
        rewrite <- Ebl. rewrite (proj1 (before_app is_nl bl _ Hbn)).
        rewrite <- Ebl in Hl. apply cstr_split in Hl.
        destruct (after _ (c :: t)) as [|b r]; [by rewrite app_nil_r|].
        destruct (cstr_cons_nz _ _ _ _ Hl) as (_ & Hb' & _). apply Z.eqb_eq in Enl.
        rewrite rdc_ascii, Hb' in Enl by done. cbn [before]. unfold is_nl at 1. by rewrite Enl, app_nil_r. }
      pose proof (env_next_skip fuel n m m p (c :: t) IH Hl ltac:(cbn; lia) ltac:(cbn; lia) ltac:(done) Hv) as Hs.
      rewrite Eline, Enl in Hs. exact Hs.
    + destruct (_ =? ch_hash).
      * rewrite (env_eol_cstr fuel m p (c :: t)) by (done || cbn; lia). cbn [mbind option_bind].
        apply env_next_skip; cbn; done || lia.
      * rewrite Hinv. cbn [mbind option_bind]. apply env_next_skip; cbn; done || lia.
Qed.

Lemma env_vars_var t :
  t ≠ [] → at_var t →
  env_vars t = before is_nl t :: match after is_nl t with [] => [] | _ :: r => env_vars r end.
Proof. intros Hne [?|Hv]; [done|]. by rewrite env_vars_step, Hv. Qed.

(** One variable: the line [w] at [p] gets the entry at [a], its end becomes a NUL. *)
Lemma env_line_stored m a p w r (m' := wr8 (st64 m a p) (p + length w) 0) :
  cstr m p (w ++ r) → disjoint_regions p (length (w ++ r) + 1) a 8 → 0 <= p < 2 ^ 64 →
  cstr (st64 m a p) p (w ++ r) ∧ cstr m' p w ∧ ld64 m' a = p ∧
  (∀ b r', r = b :: r' → cstr m' (p + length w + 1) r') ∧
  ∀ x, (x < p ∨ p + length (w ++ r) < x) → (x < a ∨ a + 8 <= x) → rd8 m' x = rd8 m x.
Proof.
  unfold disjoint_regions. rewrite length_app. intros Hl Hd Hp.
  apply (cstr_store 8 m a p) in Hl; [|unfold disjoint_regions; rewrite length_app; lia].
  pose proof Hl as (Hw & Hnz & Hr)%cstr_app. unfold m'. split_and!.
  - done.
  - apply cstr_intro; [|done|by rewrite rd8_wr8_same].
    etransitivity; [|exact Hw]. apply rdl_ext. intros x Hx. apply rd8_wr8_other. lia.
  - etransitivity; [|apply (ld64_st64_same m a p); lia]. apply ldn_ext. intros x Hx. apply rd8_wr8_other. lia.
  - intros b r' ->. apply cstr_cons_nz in Hr as (_ & _ & Hr). eapply cstr_ext; [|exact Hr].
    intros x Hx. apply rd8_wr8_other. lia.
  - intros x H1 H2. rewrite rd8_wr8_other, rd8_stn_other by lia. done.
Qed.

Lemma setup_env_loop_spec environ fuel n m p t eof i vars :
  vars = env_vars t → cstr m p t → p + length t = eof →
  (length t + 1 < n)%nat → (length t < fuel)%nat → 0 < p → eof < 2 ^ 64 →
  0 <= i → i + length vars < 2 ^ 31 →
  disjoint_regions p (length t + 1) (environ + 8 * i) (8 * length vars) →
  ∃ m' ps, setup_env_loop environ fuel n m p eof true i = Some m' ∧
    length ps = length vars ∧ ptrs m' (environ + 8 * i) ps ∧ Forall2 (cstr m') ps vars ∧
    Forall2 (λ q v, p <= q ∧ q + length v <= eof) ps vars ∧
    ∀ x, (x < p ∨ eof < x) → (x < environ + 8 * i ∨ environ + 8 * i + 8 * length vars <= x) →
      rd8 m' x = rd8 m x.
Proof.
  unfold disjoint_regions. revert m p t i vars.
  induction n as [|n IH]; intros m p t i vars -> Hl He Hn Hf Hp0 He64 Hi Hi31 Hd; [lia|].
  cbn [setup_env_loop]. destruct (Z.ltb_spec p eof) as [Hlt|Hge].
  2:{ destruct t; [|cbn in He; lia]. exists m, []. by split_and!. }
  destruct (env_next_spec fuel fuel m p t Hl Hf Hf) as (m1 & sk & t' & -> & Hm1 & -> & Ev & Hat).
  cbn [mbind option_bind]. rewrite Ev, length_app in *.
  apply (meq_cstr m m1) in Hl; [|done]. apply cstr_split in Hl. set (p' := p + length sk) in *.
  destruct (decide (t' = [])) as [->|Hne].
  { cbn in Hl. rewrite rdc_z by done. cbn. exists m1, []. by split_and!. }
  assert ((rdc m1 p' =? 0) = false ∧ (0 < length t')%nat) as [-> Hpos].
  { destruct t'; [done|]. split; [by apply (cstr_cons_nz _ _ _ _ Hl)|cbn; lia]. }
  rewrite (proj2 (Z.leb_gt eof p')) by lia. cbn [orb].
  rewrite (env_vars_var t' Hne Hat) in *. clear Ev. cbn [length] in *.
  pose proof (before_after is_nl t') as Et. set (w := before is_nl t') in *.
  pose proof (f_equal length Et) as Elen. rewrite length_app in Elen. rewrite <- Et in Hl.
  apply (env_line_stored m1 (environ + 8 * i)) in Hl as (Hl2 & Hw3 & Hp3 & Hr3 & Hf3);
    [|unfold disjoint_regions; rewrite Et; lia|lia].
  rewrite Et in Hl2, Hf3. rewrite (env_scan_cstr fuel _ p' t' eof Hl2) by lia. cbn [mbind option_bind].
  fold w. rewrite swrap_small by (cbn; lia). set (m3 := wr8 _ _ 0) in *.
  destruct (after is_nl t') as [|b r] eqn:Er; cbn [length] in *.
  - destruct n as [|n]; [lia|]. cbn [setup_env_loop].
    rewrite (proj2 (Z.ltb_ge (p' + length w + 1) eof)) by lia. exists m3, [p'].
    split_and!; [done|done|apply ptrs_cons; by split; [|apply ptrs_nil]|by repeat constructor|repeat constructor; cbn; lia|].
    intros x H1 H2. rewrite Hf3 by lia. apply Hm1.
  - destruct (IH m3 (p' + length w + 1) r (i + 1) _ eq_refl (Hr3 b r eq_refl))
      as (m' & ps & -> & Hlen & Hps & Hss & Hge & Hfr); try lia.
    replace (environ + 8 * (i + 1)) with (environ + 8 * i + 8) in * by lia.
    exists m', (p' :: ps). split_and!; [done|cbn; by rewrite Hlen| | | |].
    + apply ptrs_cons. split; [|done]. rewrite <- Hp3. apply ldn_ext. intros x Hx. apply Hfr; lia.
    + constructor; [|done]. eapply cstr_ext; [|exact Hw3]. intros x Hx. apply Hfr; lia.
    + constructor; [lia|]. eapply Forall2_impl; [exact Hge|]. cbn. lia.
    + intros x H1 H2. rewrite Hfr, Hf3 by lia. apply Hm1.
Qed.

Lemma env_vars_after t : Forall (λ v, after is_eq v ≠ []) (env_vars t).
Proof.
  apply Forall_forall. intros v (Hv & _)%list_elem_of_filter. unfold valid_line in Hv.
  destruct (key v); [done|]. by destruct (after is_eq v).
Qed.

Lemma env_vars_short t : Forall (λ v, (length v <= length t)%nat) (env_vars t).
Proof.
  apply Forall_forall. intros v (_ & Hv)%list_elem_of_filter. revert v Hv. apply Forall_forall.
  induction t as [|b t IH]; cbn [splits]; [by repeat constructor|].
  destruct (is_nl b).
  - constructor; [cbn; lia|]. eapply Forall_impl; [exact IH|]. cbn. lia.
  - destruct (splits is_nl t) as [|w ws]; [constructor; [cbn; lia|constructor]|].
    apply Forall_cons in IH as [H1 H2]. constructor; [cbn; lia|].
    eapply Forall_impl; [exact H2|]. cbn. lia.
Qed.

(** *** getenv: lib/string.c *)

Lemma index_of_key v : after is_eq v ≠ [] → index_of ch_eq v = Some (length (key v)).
Proof.
  unfold key. induction v as [|b v IH]; [done|]. rewrite index_of_cons. cbn [after before].
  unfold is_eq at 1 3. destruct (Z.eqb_spec b ch_eq) as [->|Hne]; [by rewrite decide_True|].
  intros H. rewrite decide_False by congruence. by rewrite IH.
Qed.

Lemma key_cut v : after is_eq v ≠ [] → ∃ b, v = key v ++ b :: value v.
Proof.
  intros H. unfold key, value. pose proof (before_after is_eq v) as E.
  destruct (after is_eq v) as [|b r]; [done|]. exists b. by rewrite <- E at 1.
Qed.

Lemma take_eq_prefix (k v w : list Z) : k `prefix_of` v → take (length k) w = take (length k) v ↔ k `prefix_of` w.
Proof.
  intros [v' ->]. rewrite take_app_length. split.
  - intros <-. apply prefix_take.
  - intros [w' ->]. apply take_app_length.
Qed.

(** The first variable whose name the name asked for starts with. *)
Lemma getenv_cstr fuel m name nm a ps vars k :
  cstr m name nm → (length nm < fuel)%nat → ptrs m a ps → ld64 m (a + 8 * length ps) = 0 →
  Forall2 (cstr m) ps vars → Forall (λ v, after is_eq v ≠ []) vars →
  Forall (λ v, (length v < fuel)%nat) vars → Forall (λ p, 0 < p < 2 ^ 64) ps → (length ps < k)%nat →
  ∃ r, getenv (k + fuel) m name a = Some r ∧
    match filter (λ v, key v `prefix_of` nm) vars with
    | [] => r = NULL
    | v :: _ => r ≠ NULL ∧ cstr m r (value v)
    end.
Proof.
  intros Hname Hf. revert a vars k. induction ps as [|p ps IH]; intros a vars k Hps Hz Hss Hv Hlen Hp Hk;
    (destruct k as [|k]; [cbn in Hk; lia|]); cbn [Nat.add getenv].
  - cbn in Hz. rewrite Z.add_0_r in Hz. rewrite Hz. apply Forall2_nil_inv_l in Hss as ->. by exists NULL.
  - apply Forall2_cons_inv_l in Hss as (v & vars' & Hpv & Hss & ->).
    apply ptrs_cons in Hps as [-> Hps]. apply Forall_cons in Hv as [Hv Hv']. apply Forall_cons in Hlen as [Hl Hl'].
    apply Forall_cons in Hp as [Hp Hp']. rewrite (proj2 (Z.eqb_neq p 0)) by lia.
    rewrite (strchr_cstr _ _ _ _ v Hpv) by lia. change (u8 ch_eq) with ch_eq. rewrite index_of_key by done.
    cbn [mbind option_bind]. rewrite (proj2 (Z.eqb_neq (p + length (key v)) NULL)) by (unfold NULL; lia).
    replace (p + length (key v) - p) with (Z.of_nat (length (key v))) by lia.
    rewrite (strncmp_cstr _ _ _ _ nm v) by (done || lia). rewrite Nat2Z.id. cbn [mbind option_bind].
    destruct (key_cut v Hv) as [b Ev].
    assert (ncmp (length (key v)) nm v = 0 ↔ key v `prefix_of` nm) as Hcmp.
    { rewrite ncmp_zero by (by eapply cstr_bounds). apply take_eq_prefix. rewrite Ev at 2. by exists (b :: value v). }
    rewrite filter_cons. destruct (Z.eqb_spec (ncmp (length (key v)) nm v) 0) as [E|E]; rewrite Hcmp in E.
    + rewrite decide_True by done. eexists. split; [done|]. split; [unfold NULL; lia|].
      rewrite Ev in Hpv. by apply cstr_split, cstr_cons_nz in Hpv as (_ & _ & Hpv).
    + rewrite decide_False by done. apply IH; try done; cbn [length] in *; [|lia].
      by replace (a + 8 + 8 * length ps) with (a + 8 * S (length ps)) by lia.
Qed.

(** The array [environ] has the variables of the text, strings in [[low, high]]. *)
Definition has_env (m : mem) (environ low high : Z) (text : list Z) : Prop :=
  ∃ ps, length ps = length (env_vars text) ∧ ptrs m environ ps ∧ ld64 m (environ + 8 * length ps) = 0 ∧
    Forall2 (cstr m) ps (env_vars text) ∧
    Forall2 (λ q v, low <= q ∧ q + Z.of_nat (length v) <= high) ps (env_vars text).

(** [getenv] finds the first variable whose name the name asked for starts with. *)
Definition env_found (fuel : nat) (m : mem) (environ : Z) (text : list Z) : Prop :=
  ∀ name nm, cstr m name nm → (length nm < fuel)%nat →
    ∃ r, getenv (200 + fuel) m name environ = Some r ∧
      match filter (λ v, key v `prefix_of` nm) (env_vars text) with
      | [] => r = NULL
      | v :: _ => r ≠ NULL ∧ cstr m r (value v)
      end.

Lemma has_env_found fuel m environ low high text :
  0 < low → high < 2 ^ 64 → has_env m environ low high text → (length text < fuel)%nat → (length (env_vars text) < 200)%nat →
  env_found fuel m environ text.
Proof.
  intros Hlow Hhigh (ps & Hlen & Hps & Hz & Hss & Hge) Hf Hn name nm Hname Hnm.
  eapply getenv_cstr; try done.
  - apply env_vars_after.
  - eapply Forall_impl; [apply env_vars_short|]. cbn. lia.
  - eapply Forall2_Forall_l; [exact Hge|]. apply Forall_true. cbn. lia.
  - lia.
Qed.

(** Without variables the array is as it was. *)
Lemma has_env_nil m environ low high : (∀ x, environ <= x < environ + 8 → rd8 m x = 0) → has_env m environ low high [].
Proof.
  intros Hz. exists []. split; [done|]. split; [apply ptrs_nil|]. split; [|done].
  apply ldn_zero. intros x Hx. apply Hz. cbn in Hx. lia.
Qed.

Lemma ptrs_ext m m' a ps :
  (∀ x, a <= x < a + 8 * length ps → rd8 m' x = rd8 m x) → ptrs m a ps → ptrs m' a ps.
Proof.
  intros Hx Hps k p Hk. pose proof (lookup_lt_Some _ _ _ Hk). rewrite <- (Hps k p Hk). apply ldn_ext.
  intros x Hi. apply Hx. lia.
Qed.

Lemma has_env_ext m m' environ low high text :
  has_env m environ low high text → (length (env_vars text) < 200)%nat →
  (∀ x, low <= x <= high → rd8 m' x = rd8 m x) →
  (∀ x, environ <= x < environ + 1600 → rd8 m' x = rd8 m x) → has_env m' environ low high text.
Proof.
  intros (ps & Hlen & Hps & Hz & Hss & Hge) Hn H1 H2. exists ps. split; [done|]. split_and!; [| | |done].
  - eapply ptrs_ext; [|exact Hps]. intros x Hi. apply H2. lia.
  - rewrite <- Hz. apply ldn_ext. intros x Hi. apply H2. lia.
  - clear -Hss Hge H1. induction Hss as [|q v ps vs Hq _ IH]; [done|].
    apply Forall2_cons_1 in Hge as [Hqv Hge]. constructor; [|by apply IH].
    eapply cstr_ext; [|exact Hq]. intros x Hi. apply H1. lia.
Qed.

(** [setup_env] of a string, as [has_env]. *)
Lemma setup_env_has environ fuel m env text :
  cstr m env text → 0 < env → env + length text < 2 ^ 64 → (length text + 1 < fuel)%nat →
  (length (env_vars text) < 200)%nat → (∀ x, environ <= x < environ + 1600 → rd8 m x = 0) →
  disjoint_regions env (length text + 1) environ 1600 →
  ∃ m', setup_env environ fuel m env (length text) = Some m' ∧ has_env m' environ env (env + length text) text ∧
    ∀ x, (x < env ∨ env + length text < x) → (x < environ ∨ environ + 1600 <= x) → rd8 m' x = rd8 m x.
Proof.
  unfold disjoint_regions. intros Hl He He64 Hf Hn Hz Hd. unfold setup_env.
  rewrite (skip_to_nul_cstr m fuel env text) by (done || lia). cbn [mbind option_bind]. rewrite Z.eqb_refl.
  destruct (setup_env_loop_spec environ fuel fuel m env text (env + length text) 0 _ eq_refl Hl eq_refl)
    as (m' & ps & -> & Hlen & Hps & Hss & Hge & Hfr); unfold disjoint_regions; try lia.
  replace (environ + 8 * 0) with environ in * by lia.
  exists m'. split; [done|]. split; [|intros x H1 H2; apply Hfr; lia].
  exists ps. split_and!; [done|done| |done|done]. rewrite Hlen. apply ldn_zero. intros x Hx. rewrite Hfr by lia. apply Hz. lia.
Qed.

(** After [setup_env] of a text of lines, [getenv] returns the value of the first
    line NAME=value with a NAME that the name asked for starts with, and NULL when
    there is none: lines that are blank, comments or malformed do not count.  Nothing
    but the text and [__environ] is written. *)
Theorem setup_env_getenv environ fuel m env text :
  cstr m env text → 0 < env → env + length text < 2 ^ 64 → (length text + 1 < fuel)%nat →
  (length (env_vars text) < 200)%nat → (∀ x, environ <= x < environ + 1600 → rd8 m x = 0) →
  disjoint_regions env (length text + 1) environ 1600 →
  ∃ m', setup_env environ fuel m env (length text) = Some m' ∧
    (∀ x, (x < env ∨ env + length text < x) → (x < environ ∨ environ + 1600 <= x) → rd8 m' x = rd8 m x) ∧
    env_found fuel m' environ text.
Proof.
  intros Hl He He64 Hf Hn Hz Hd. destruct (setup_env_has environ fuel m env text) as (m' & E & Henv & Hfr); try done.
  exists m'. split; [exact E|]. split; [exact Hfr|]. eapply has_env_found; [exact He| |exact Henv|lia|lia]. lia.
Qed.

(** ** Witnesses *)

Definition bytes (s : string) : list Z := (λ a, Z.of_nat (Ascii.nat_of_ascii a)) <$> String.list_ascii_of_string s.

(** The program at 0x1000, its command line at 0x2000. *)
Definition ex_line : string := " -smp  2 ".
Definition ex_args : mem := wrl (wrl ∅ 0x1000 (bytes "apic")) 0x2000 (bytes ex_line).

Lemma setup_args_progname_argv_witness :
  ∃ s' ps, setup_args_progname 0x4000 20 0x1000 0x2000 (Args ex_args 0 0x5000) = Some s' ∧
    argc s' = 3%nat ∧ length ps = 3%nat ∧ ptrs (amem s') 0x4000 ps ∧
    Forall2 (cstr (amem s')) ps [bytes "apic"; bytes "-smp"; bytes "2"] ∧
    ∀ x, (x < 0x5000 ∨ 0x5000 + 1000 <= x) → (x < 0x4000 ∨ 0x4000 + 800 <= x) →
      rd8 (amem s') x = rd8 ex_args x.
Proof.
  apply (setup_args_progname_argv 0x4000 20 (Args ex_args 0 0x5000) 0x1000 (bytes "apic") 0x2000 (bytes ex_line)).
  - done.
  - vm_compute. by split_and!.
  - vm_compute. by split_and!.
  - vm_compute. lia.
  - vm_compute. lia.
  - vm_compute. lia.
  - vm_compute. done.
  - done.
  - done.
  - unfold disjoint_regions. cbn. lia.
  - unfold disjoint_regions. cbn. lia.
  - unfold disjoint_regions. cbn. lia.
  - unfold disjoint_regions. cbn. lia.
  - unfold disjoint_regions. cbn. lia.
Defined.

(** A text of two variables, a comment and a line that is no variable. *)
Definition newline : string := String (Ascii.ascii_of_nat 10) EmptyString.
Definition ex_text : string := "FOO=1" +:+ newline +:+ "# c" +:+ newline +:+ "A B=2" +:+ newline +:+ "BAR=x".
Definition ex_env : mem := wrl (wrl ∅ 0x1000 (bytes ex_text)) 0x500 (bytes "FOOD").

Lemma setup_env_getenv_witness :
  ∃ m', setup_env 0x4000 40 ex_env 0x1000 (length (bytes ex_text)) = Some m' ∧
    (∀ x, (x < 0x1000 ∨ 0x1000 + length (bytes ex_text) < x) → (x < 0x4000 ∨ 0x4000 + 1600 <= x) →
      rd8 m' x = rd8 ex_env x) ∧
    ∀ name nm, cstr m' name nm → (length nm < 40)%nat →
      ∃ r, getenv (200 + 40) m' name 0x4000 = Some r ∧
        match filter (λ v, key v `prefix_of` nm) [bytes "FOO=1"; bytes "BAR=x"] with
        | [] => r = NULL
        | v :: _ => r ≠ NULL ∧ cstr m' r (value v)
        end.
Proof.
  apply (setup_env_getenv 0x4000 40 ex_env 0x1000 (bytes ex_text)).
  - vm_compute. by split_and!.
  - done.
  - vm_compute. done.
  - vm_compute. lia.
  - vm_compute. lia.
  - intros x Hx. unfold ex_env. rewrite !rd8_wrl_other, rd8_empty; [done|..]; vm_compute length; lia.
  - unfold disjoint_regions. vm_compute length. lia.
Defined.

(** A name that only starts like a variable finds it. *)
Example getenv_longer_name :
  (m' ← setup_env 0x4000 40 ex_env 0x1000 (length (bytes ex_text)); getenv 240 m' 0x500 0x4000) = Some 0x1004.
Proof. vm_compute. reflexivity. Qed.

(** Strings that end in NULs instead of newlines. *)
Example setup_env_nuls :
  (λ m, (ld64 m 0x4000, ld64 m 0x4008, ld64 m 0x4010)) <$>
    setup_env 0x4000 40 (wrl ∅ 0x1000 (bytes "A=1" ++ [0] ++ bytes "B=2" ++ [0])) 0x1000 8 = Some (0x1000, 0x1004, 0).
Proof. vm_compute. reflexivity. Qed.
