(* ===== verification/PageCtl.v ===== *)
(** * Attributes of pages: lib/x86/misc.c, lib/x86/memory_type.c

    [set_page_control_bit] changes one bit of the entry that maps an address, in
    the tables cr3 points to; [set_memory_type_pt] gives a range of memory one of
    the eight types that the bits PWT, PCD and PAT select.  The 64-bit build;
    what is printed, and the instructions that only empty caches (invlpg,
    wbinvd), are left out. *)

From S2P Require Import Prelude Memory CString Bits AllocPage Paging Vm.

(** [enum page_level] and [enum page_control_bit] *)
Definition PAGE_PTE : Z := 1.
Definition PAGE_PDE : Z := 2.
Definition PAGE_PDPTE : Z := 3.
Definition PAGE_PML4 : Z := 4.
Definition PAGE_PS_FLAG : Z := 7.

Definition PT_PWT : Z := 3.
Definition PT_PCD : Z := 4.
Definition PT_PAT : Z := 7.
Definition PT_PAT_LARGE_PAGE : Z := 12.
Definition PT_PWT_MASK : Z := Z.shiftl 1 PT_PWT.
Definition PT_PCD_MASK : Z := Z.shiftl 1 PT_PCD.
Definition PT_PAT_MASK : Z := Z.shiftl 1 PT_PAT.

(** [PAGE_MASK], of [unsigned long] *)
Definition PAGE_MASK : Z := not64 (PAGE_SIZE - 1).

Section PageCtl.
Context {St : Type} {ops : PageAlloc St}.
(** The bound on the loop over the pages. *)
Context (fuel : nat).
#[local] Abbreviation cprog := (prog (mmu (St := St))).

Definition on_mem {A} (m : prog St A) : cprog A := zoom mm set_mm m.

(** The entry that is changed: the variables [pdpte], [pd] and [pt] of the code
    and the choice of the level. *)
Definition control_slot (gva level : Z) : cprog Z :=
  pml4 ← gets cr3;
  let pml4_at := pte_at pml4 (PGDIR_OFFSET gva PAGE_PML4) in
  let pd_offset := PGDIR_OFFSET gva PAGE_PDE in
  e ← on_mem (load64 pml4_at);
  let pdpte := Z.land e PAGE_MASK in
  let pdpte_at := pte_at pdpte (PGDIR_OFFSET gva PAGE_PDPTE) in
  e ← on_mem (load64 (pte_at pdpte pd_offset));
  if has e (Z.shiftl 1 PAGE_PS_FLAG) && ((level =? PAGE_PDE) || (level =? PAGE_PTE)) then mret pdpte_at
  else
    e ← on_mem (load64 pdpte_at);
    let pd := Z.land e PAGE_MASK in
    let pd_at := pte_at pd pd_offset in
    e ← on_mem (load64 pd_at);
    if has e (Z.shiftl 1 PAGE_PS_FLAG) && (level =? PAGE_PTE) then mret pd_at
    else
      let pt := Z.land e PAGE_MASK in
      mret (if level =? PAGE_PML4 then pml4_at
            else if level =? PAGE_PDPTE then pdpte_at
            else if level =? PAGE_PDE then pd_at
            else pte_at pt (PGDIR_OFFSET gva PAGE_PTE)).

Definition control_bit (e bit value : Z) : Z :=
  if value =? 1 then Z.lor e (Z.shiftl 1 bit) else Z.land e (not64 (Z.shiftl 1 bit)).

Definition set_page_control_bit (gva level bit value : Z) : cprog unit :=
  if gva =? NULL then mret ()
  else
    a ← control_slot gva level;
    e ← on_mem (load64 a);
    on_mem (store64 a (control_bit e bit value)).

(** The values of the three bits in the order of the calls, by the cases of the
    switch. *)
Definition type_bits (type : Z) : option (Z * Z * Z) :=
  if type =? 0 then Some (0, 0, 0)
  else if type =? PT_PWT_MASK then Some (1, 0, 0)
  else if type =? PT_PCD_MASK then Some (0, 1, 0)
  else if type =? Z.lor PT_PWT_MASK PT_PCD_MASK then Some (1, 1, 0)
  else if type =? PT_PAT_MASK then Some (0, 0, 1)
  else if type =? Z.lor PT_PAT_MASK PT_PWT_MASK then Some (1, 0, 1)
  else if type =? Z.lor PT_PAT_MASK PT_PCD_MASK then Some (0, 1, 1)
  else if type =? Z.lor (Z.lor PT_PAT_MASK PT_PCD_MASK) PT_PWT_MASK then Some (1, 1, 1)
  else None.

Definition lift_outcome {A} (o : outcome A) : cprog A := λ s,
  match o with Ret a => Ret (a, s) | Stop e => Stop e end.

(** One iteration: [i] is an [int], [pat] keeps its value to the next one. *)
Definition type_step (address type size : Z) '((i, pat) : Z * Z) : cprog (Z * Z + unit) :=
  if u64 i <? size then
    let next_addr := u64 (address + i) in
    c ← gets cr3;
    m ← gets (λ s, pg_mem (mm s));
    ptep ← lift_outcome (get_pte_level m c next_addr 1);
    let pat := if ptep =? NULL then PT_PAT_LARGE_PAGE else pat in
    match type_bits type with
    | Some (pwt, pcd, p) =>
        set_page_control_bit next_addr PAGE_PTE PT_PWT pwt;;
        set_page_control_bit next_addr PAGE_PTE PT_PCD pcd;;
        set_page_control_bit next_addr PAGE_PTE pat p
    | None => mret ()
    end;;
    mret (inl (s32 (i + PAGE_SIZE), pat))
  else mret (inr ()).

Definition set_memory_type_pt (address type size : Z) : cprog unit :=
  iter fuel (type_step address type size) (0, PT_PAT).

(** cr3 goes through a variable of 32 bits. *)
Definition flush_tlb : cprog unit :=
  c ← gets (λ s, u32 (cr3 s));
  modify (λ s, Mmu (mm s) (cr0 s) c).

Definition write_cr0_bybit (bit bitvalue : Z) : cprog unit :=
  c ← gets (λ s, u32 (cr0 s));
  modify (λ s, Mmu (mm s)
    (if negb (bitvalue =? 0) then Z.lor c (u32 (Z.shiftl 1 bit)) else Z.ldiff c (u32 (Z.shiftl 1 bit))) (cr3 s)).

Definition set_mem_cache_type_addr (address cache_type size : Z) : cprog unit :=
  set_memory_type_pt address cache_type size;; flush_tlb.
End PageCtl.

(** The two addresses are in the same page of level [k]. *)
Definition same_area (k : nat) (va va' : Z) : Prop := va' / span k = va / span k.
#[export] Instance same_area_dec k va va' : Decision (same_area k va va').
Proof. unfold same_area. apply _. Defined.

(** ** Tables the code can walk

    It takes the address of a table without clearing the bits 52 to 63, and it
    tests the page-size bit of the wrong entry of the page-directory-pointer
    table (the index is the one of the page directory): no entry has a high bit,
    and no entry of that table the page-size bit. *)
Definition plain (m : mem) (T : gmap Z (list Z)) : Prop :=
  ∀ t π i, T !! t = Some π → 0 <= i < 512 →
    entry m t i < 2 ^ 52 ∧ (length π = 1%nat → has (entry m t i) PT_PAGE_SIZE_MASK = false).

Lemma entry_range m t i : 0 <= entry m t i < 2 ^ 64.
Proof. apply ld64_range. Qed.

Lemma plain_addr e : 0 <= e < 2 ^ 52 → Z.land e PAGE_MASK = Z.land e PT_ADDR_MASK.
Proof.
  intros He. rewrite <- (wrap_small 52 e He). unfold wrap. rewrite <- Z.land_ones by lia.
  rewrite <- !Z.land_assoc. reflexivity.
Qed.

Section Walk.
Context (m : mem) (c : Z) (T : gmap Z (list Z)) (Hwf : wf m c T) (Hpl : plain m T).

(** The next table of a walk, as the code and as the processor find it. *)
Lemma plain_next t π va (level := (4 - length π)%nat) (e := entry m t (idx va level)) :
  T !! t = Some π → has e PT_PRESENT_MASK = true → is_leaf level e = false →
  Z.land e PAGE_MASK = Z.land e PT_ADDR_MASK ∧ T !! Z.land e PT_ADDR_MASK = Some (π ++ [idx va level]).
Proof using All.
  intros Ht Hp Hl. split; [|by apply (wf_child _ _ _ Hwf t π); [|apply idx_range|..]].
  apply plain_addr. unfold e. destruct (Hpl t π (idx va level) Ht (idx_range _ _)) as [H52 _].
  pose proof (entry_range m t (idx va level)). lia.
Qed.

Lemma walk_cons level t va k e :
  walk m (S level) t va = Some (k, e) →
  has (entry m t (idx va (S level))) PT_PRESENT_MASK = true ∧
  if is_leaf (S level) (entry m t (idx va (S level)))
  then k = S level ∧ e = entry m t (idx va (S level))
  else walk m level (Z.land (entry m t (idx va (S level))) PT_ADDR_MASK) va = Some (k, e).
Proof using Type.
  cbn [walk]. destruct (has _ _); [|done]. cbn [negb]. destruct (is_leaf _ _); [by intros [= <- <-]|done].
Qed.

(** The tables on the way to a leaf, which is a page of 4K or 2M. *)
Lemma leaf_tables va k e :
  leaf m c va = Some (k, e) →
  ∃ t3 t2, Z.land (entry m c (idx va 4)) PAGE_MASK = t3 ∧ T !! t3 = Some [idx va 4] ∧
    Z.land (entry m t3 (idx va 3)) PAGE_MASK = t2 ∧ T !! t2 = Some [idx va 4; idx va 3] ∧
    reach m 2 4 c va = Some t2 ∧
    ((k = 2%nat ∧ e = entry m t2 (idx va 2) ∧ has e PT_PAGE_SIZE_MASK = true) ∨
     (k = 1%nat ∧ has (entry m t2 (idx va 2)) PT_PAGE_SIZE_MASK = false ∧
      ∃ t1, Z.land (entry m t2 (idx va 2)) PAGE_MASK = t1 ∧ reach m 3 4 c va = Some t1 ∧
        e = entry m t1 (idx va 1))).
Proof using All.
  intros (P4 & W4)%walk_cons. assert (is_leaf 4 (entry m c (idx va 4)) = false) as L4 by done. rewrite L4 in W4.
  destruct (plain_next c [] va (wf_root _ _ _ Hwf) P4 L4) as [E3 Ht3]. cbn [length app Nat.sub] in E3, Ht3.
  rewrite E3. set (t3 := Z.land (entry m c (idx va 4)) PT_ADDR_MASK) in *.
  apply walk_cons in W4 as (P3 & W3).
  assert (is_leaf 3 (entry m t3 (idx va 3)) = false) as L3.
  { unfold is_leaf. cbn [Nat.eqb orb andb]. by apply (Hpl t3 _ _ Ht3 (idx_range _ _)). }
  rewrite L3 in W3. destruct (plain_next t3 _ va Ht3 P3 L3) as [E2 Ht2]. cbn [length app Nat.sub] in E2, Ht2.
  set (t2 := Z.land (entry m t3 (idx va 3)) PT_ADDR_MASK) in *.
  assert (reach m 2 4 c va = Some t2) as R2.
  { cbn [reach Nat.sub]. rewrite P4, L4. cbn [andb negb]. fold t3. by rewrite P3, L3. }
  exists t3, t2. rewrite E2. split_and!; try done.
  apply walk_cons in W3 as (P2 & W2).
  assert (is_leaf 2 (entry m t2 (idx va 2)) = has (entry m t2 (idx va 2)) PT_PAGE_SIZE_MASK) as L2 by done.
  rewrite L2 in W2. destruct (has (entry m t2 (idx va 2)) PT_PAGE_SIZE_MASK) eqn:Eps.
  - left. destruct W2 as [-> ->]. by rewrite Eps.
  - right. destruct (plain_next t2 _ va Ht2 P2 L2) as [E1 Ht1]. cbn [length app Nat.sub] in E1, Ht1.
    apply walk_cons in W2 as (P1 & W1). destruct W1 as [-> ->]. split_and!; [done..|].
    eexists. split; [exact E1|]. split; [|done].
    rewrite (reach_snoc _ _ _ _ _ t2 R2). cbn [Nat.sub]. cbv zeta. by rewrite P2, L2.
Qed.
End Walk.

Section Changes.
Context {St : Type} {ops : PageAlloc St} {laws : PageAllocLaws St}.
#[local] Abbreviation memory s := (pg_mem (mm s)).

Lemma wp_on_load a (s : mmu) (Q : Z → mmu → Prop) : Q (ld64 (memory s) a) s → wp (on_mem (load64 a)) Q s.
Proof. intros H. unfold on_mem. wstep. apply wp_load64. by destruct s. Qed.

Lemma wp_on_store a v (s : mmu) (Q : unit → mmu → Prop) :
  Q () (set_mm (pg_set_mem (st64 (memory s) a v) (mm s)) s) → wp (on_mem (store64 a v)) Q s.
Proof. done. Qed.

Lemma control_slot_wp (s : mmu) T va k e :
  wf (memory s) (cr3 s) T → plain (memory s) T → leaf (memory s) (cr3 s) va = Some (k, e) →
  wp (control_slot va PAGE_PTE) (λ a s', s' = s ∧ (k = 1 ∨ k = 2)%nat ∧
    ∃ t, reach (memory s) (4 - k) 4 (cr3 s) va = Some t ∧ a = pte_at t (idx va k) ∧
         e = entry (memory s) t (idx va k)) s.
Proof using All.
  intros Hwf Hpl Hl. set (m := memory s) in *.
  destruct (leaf_tables m _ T Hwf Hpl va k e Hl) as (t3 & t2 & E3 & Ht3 & E2 & Ht2 & R2 & Hk).
  unfold control_slot, PAGE_PML4, PAGE_PDPTE, PAGE_PDE, PAGE_PTE.
  rewrite (PGDIR_OFFSET_idx va 4 ltac:(lia) : PGDIR_OFFSET va 4 = _), (PGDIR_OFFSET_idx va 3 ltac:(lia) : PGDIR_OFFSET va 3 = _),
    (PGDIR_OFFSET_idx va 2 ltac:(lia) : PGDIR_OFFSET va 2 = _), (PGDIR_OFFSET_idx va 1 ltac:(lia) : PGDIR_OFFSET va 1 = _).
  wstep. wstep. cbv zeta. wstep. apply wp_on_load. fold m. fold (entry m (cr3 s) (idx va 4)). rewrite E3.
  wstep. apply wp_on_load. fold m. fold (entry m t3 (idx va 2)).
  change (Z.shiftl 1 PAGE_PS_FLAG) with PT_PAGE_SIZE_MASK.
  rewrite (proj2 (Hpl t3 _ (idx va 2) Ht3 (idx_range _ _)) eq_refl). cbn [andb].
  wstep. apply wp_on_load. fold m. fold (entry m t3 (idx va 3)). rewrite E2.
  wstep. apply wp_on_load. fold m. fold (entry m t2 (idx va 2)).
  destruct Hk as [(-> & -> & Hps)|(-> & Hps & t1 & E1 & R1 & ->)]; rewrite Hps; cbn [andb Z.eqb Pos.eqb]; apply wp_ret.
  - split; [done|]. split; [by right|]. by exists t2.
  - rewrite E1. split; [done|]. split; [by left|]. by exists t1.
Qed.
(** ** One bit *)

Lemma has_testbit e k : 0 <= k → has e (Z.shiftl 1 k) = Z.testbit e k.
Proof using Type.
  intros Hk. unfold has. rewrite Z.shiftl_1_l.
  destruct (Z.testbit e k) eqn:E.
  - apply negb_true_iff, Z.eqb_neq. intros H0. apply (f_equal (λ x, Z.testbit x k)) in H0.
    by rewrite Z.land_spec, E, Z.pow2_bits_true, Z.bits_0 in H0 by lia.
  - apply negb_false_iff, Z.eqb_eq. apply Z.bits_inj'. intros i Hi.
    rewrite Z.land_spec, Z.pow2_bits_eqb, Z.bits_0 by lia.
    destruct (Z.eqb_spec k i) as [<-|]; [by rewrite E|by rewrite andb_false_r].
Qed.

Lemma control_bit_testbit e bit value i :
  0 <= e < 2 ^ 64 → 0 <= bit < 64 → 0 <= i →
  Z.testbit (control_bit e bit value) i = if decide (i = bit) then value =? 1 else Z.testbit e i.
Proof using Type.
  intros He Hb Hi. unfold control_bit. rewrite Z.shiftl_1_l. destruct (value =? 1).
  - rewrite Z.lor_spec, Z.pow2_bits_eqb by lia. case_decide; [subst; by rewrite Z.eqb_refl, orb_true_r|].
    by rewrite (proj2 (Z.eqb_neq bit i)), orb_false_r by done.
  - assert (not64 (2 ^ bit) = Z.ldiff (Z.ones 64) (2 ^ bit)) as ->.
    { unfold not64. rewrite <- Z.sub_nocarry_ldiff; [rewrite Z.ones_equiv; lia|].
      apply Z.bits_inj'. intros j Hj. rewrite Z.ldiff_spec, Z.bits_0, Z.pow2_bits_eqb, Z.testbit_ones by lia.
      destruct (Z.eqb_spec bit j) as [<-|]; [|done].
      by rewrite (proj2 (Z.leb_le 0 bit)), (proj2 (Z.ltb_lt bit 64)) by lia. }
    rewrite Z.land_spec, Z.ldiff_spec, Z.pow2_bits_eqb, Z.testbit_ones by lia.
    case_decide as Hd; [subst; by rewrite Z.eqb_refl, !andb_false_r|].
    rewrite (proj2 (Z.eqb_neq bit i)), andb_true_r, (proj2 (Z.leb_le 0 i)) by (done || lia). cbn [andb].
    destruct (Z.ltb_spec i 64); [by rewrite andb_true_r|].
    rewrite <- (wrap_small 64 e He), testbit_wrap by lia. by rewrite (proj2 (Z.ltb_ge i 64)).
Qed.

Lemma control_bit_range e bit value :
  0 <= e < 2 ^ 52 → 0 <= bit < 52 → 0 <= control_bit e bit value < 2 ^ 52.
Proof using Type.
  intros He Hb. unfold control_bit. destruct (value =? 1).
  - apply lor_range; [done| |done]. rewrite Z.shiftl_1_l. split; [lia|]. apply Z.pow_lt_mono_r; lia.
  - apply land_range; [done| |done]. unfold not64. rewrite Z.shiftl_1_l.
    pose proof (Z.pow_lt_mono_r 2 bit 52). lia.
Qed.

(** The tables are in order, and the code can walk them. *)
Definition ctl_inv (s : mmu) (T : gmap Z (list Z)) (l : list Z) : Prop :=
  vm_inv (mm s) (cr3 s) T l ∧ plain (memory s) T.

Lemma set_page_control_bit_wp (s : mmu) T l va k e bit value :
  ctl_inv s T l → addr48 va → va ≠ 0 → leaf (memory s) (cr3 s) va = Some (k, e) →
  0 <= bit < 52 → (k = 2%nat → bit ≠ PAGE_PS_FLAG) →
  wp (set_page_control_bit va PAGE_PTE bit value) (λ _ s',
    ctl_inv s' T l ∧ cr3 s' = cr3 s ∧
    ∀ va', addr48 va' → leaf (memory s') (cr3 s) va' =
      if decide (same_area k va va') then
        if has (control_bit e bit value) PT_PRESENT_MASK then Some (k, control_bit e bit value) else None
      else leaf (memory s) (cr3 s) va') s.
Proof using All.
  intros [Hvm Hpl] Hva Hnz Hl Hbit Hps. pose proof Hvm as (Hwf & _ & Hfr).
  unfold set_page_control_bit. rewrite (proj2 (Z.eqb_neq va NULL)) by done. wstep.
  eapply wp_mono; [by apply (control_slot_wp s T va k e)|].
  intros a s0 (-> & Hk & t & Hr & -> & ->). wstep. apply wp_on_load. set (m := memory s) in *.
  fold (entry m t (idx va k)). apply wp_on_store. set (e := entry m t (idx va k)) in *.
  assert (T !! t = Some (vpath va 4 (4 - k))) as Ht
    by (by apply (reach_wf m (cr3 s) T Hwf (4 - k) 4 (cr3 s) [] va t (wf_root _ _ _ Hwf))).
  destruct (Hpl t _ (idx va k) Ht (idx_range _ _)) as [He52 _]. fold e in He52.
  pose proof (entry_range m t (idx va k)) as He64. fold e in He64.
  pose proof (control_bit_range e bit value ltac:(lia) Hbit) as Hv.
  assert (is_leaf k (control_bit e bit value) = true) as Hleaf.
  { destruct Hk as [->| ->]; [done|]. unfold is_leaf. cbn [Nat.eqb orb andb].
    change PT_PAGE_SIZE_MASK with (Z.shiftl 1 7). rewrite has_testbit, control_bit_testbit by lia.
    rewrite decide_False by (intros <-; by apply Hps). rewrite <- has_testbit by done.
    destruct (leaf_tables m _ T Hwf Hpl va 2 e Hl) as (? & ? & _ & _ & _ & _ & _ & [(_ & _ & H)|(H & _)]); done. }
  destruct (set_entry m (cr3 s) T (4 - k) va t (control_bit e bit value) Hwf ltac:(lia) Hr ltac:(lia)) as (Hwf' & _ & Hlf).
  { intros _. by replace (4 - (4 - k))%nat with k by lia. }
  replace (4 - (4 - k))%nat with k in * by lia.
  split; [|split; [done|]].
  - split; [split; [|split; [|done]]|].
    + cbn. by rewrite pg_mem_set.
    + apply avail_store with (cr3 := cr3 s) (T := T); [done|by eexists|apply idx_range].
    + cbn. rewrite pg_mem_set. intros t' π i Ht' Hi.
      destruct (decide ((t', i) = (t, idx va k))) as [E|E].
      * injection E as -> ->. rewrite entry_same by lia. split; [lia|].
        rewrite Ht in Ht'. injection Ht' as <-. rewrite vpath_length. lia.
      * rewrite entry_other; [by apply Hpl| | |apply idx_range|done|congruence]; by eapply wf_page.
  - intros va' Hva'. cbn [mm set_mm]. rewrite pg_mem_set, Hlf.
    assert (vpath va' 4 (S (4 - k)) = vpath va 4 (S (4 - k)) ↔ same_area k va va') as Hiff.
    { rewrite (vpath_eq va' va (4 - k)) by (done || lia). by replace (4 - (4 - k))%nat with k by lia. }
    case_decide as H1; case_decide as H2; tauto || done.
Qed.
End Changes.

(** ** Memory types

    A page of 4K has its PAT bit at bit 7, a larger one at bit 12. *)
Definition pat_bit (k : nat) : Z := if (k =? 1)%nat then PT_PAT else PT_PAT_LARGE_PAGE.
Definition memory_type (k : nat) (e : Z) : Z :=
  (if Z.testbit e PT_PWT then PT_PWT_MASK else 0) + (if Z.testbit e PT_PCD then PT_PCD_MASK else 0) +
  (if Z.testbit e (pat_bit k) then PT_PAT_MASK else 0).

(** [e'] is [e] with another type. *)
Definition retyped (k : nat) (type e e' : Z) : Prop :=
  memory_type k e' = type ∧
  ∀ i, 0 <= i → i ≠ PT_PWT → i ≠ PT_PCD → i ≠ pat_bit k → Z.testbit e' i = Z.testbit e i.

(** The three calls of one iteration. *)
Definition retype (k : nat) (pwt pcd p e : Z) : Z :=
  control_bit (control_bit (control_bit e PT_PWT pwt) PT_PCD pcd) (pat_bit k) p.

Lemma pat_bit_cases k : pat_bit k = 7 ∨ pat_bit k = 12.
Proof. unfold pat_bit. destruct (k =? 1)%nat; tauto. Qed.

Lemma retype_testbit k pwt pcd p e i :
  0 <= e < 2 ^ 52 → 0 <= i →
  Z.testbit (retype k pwt pcd p e) i =
    if decide (i = pat_bit k) then p =? 1 else if decide (i = PT_PCD) then pcd =? 1
    else if decide (i = PT_PWT) then pwt =? 1 else Z.testbit e i.
Proof.
  intros He Hi. unfold retype, PT_PWT, PT_PCD.
  pose proof (control_bit_range e 3 pwt He ltac:(lia)) as H1.
  pose proof (control_bit_range _ 4 pcd H1 ltac:(lia)) as H2.
  destruct (pat_bit_cases k) as [-> | ->]; by rewrite !control_bit_testbit by lia.
Qed.

Lemma retype_retyped k type pwt pcd p e :
  0 <= e < 2 ^ 52 → type_bits type = Some (pwt, pcd, p) → retyped k type e (retype k pwt pcd p e).
Proof.
  intros He Ht. split.
  - unfold memory_type. rewrite !retype_testbit by (done || destruct (pat_bit_cases k); lia).
    assert (∀ x, x ≠ pat_bit k → (if decide (x = pat_bit k) then p =? 1 else if decide (x = PT_PCD) then pcd =? 1
      else if decide (x = PT_PWT) then pwt =? 1 else Z.testbit e x) = if decide (x = PT_PCD) then pcd =? 1
      else if decide (x = PT_PWT) then pwt =? 1 else Z.testbit e x) as Hx by (intros; by rewrite decide_False).
    rewrite !Hx by (unfold PT_PWT, PT_PCD; destruct (pat_bit_cases k) as [-> | ->]; done).
    rewrite (decide_True (P := pat_bit k = pat_bit k)) by done. cbn [PT_PWT PT_PCD].
    rewrite (decide_False (P := PT_PWT = PT_PCD)), !decide_True by done.
    unfold type_bits in Ht.
    repeat (match type of Ht with context [if type =? ?v then _ else _] => destruct (Z.eqb_spec type v) as [->|_] end;
      [injection Ht as <- <- <-; reflexivity|]). done.
  - intros i Hi H3 H4 Hp. rewrite retype_testbit by done. by rewrite !decide_False.
Qed.

Lemma leaf_addr_bits (k : nat) e e' va :
  (1 <= k)%nat → (∀ i, 9 * (k - 1) + 12 <= i → Z.testbit e' i = Z.testbit e i) → leaf_addr k e' va = leaf_addr k e va.
Proof.
  intros Hk H. unfold leaf_addr. do 2 f_equal. unfold span.
  rewrite <- !Z.shiftr_div_pow2 by lia. apply Z.bits_inj'. intros i Hi.
  rewrite !Z.shiftr_spec, !Z.land_spec, H by lia. done.
Qed.

Lemma retyped_addr k type e e' va :
  (k = 1 ∨ k = 2)%nat → retyped k type e e' → leaf_addr k e' va = leaf_addr k e va.
Proof.
  intros Hk [_ H]. apply leaf_addr_bits; [lia|]. unfold PT_PWT, PT_PCD, pat_bit, PT_PAT, PT_PAT_LARGE_PAGE in H.
  intros i Hi. destruct Hk as [-> | ->]; cbn in H, Hi; apply H; lia.
Qed.

Lemma retyped_trans k type e e1 e2 : retyped k type e e1 → retyped k type e1 e2 → retyped k type e e2.
Proof. intros [_ H1] [H2 H3]. split; [done|]. intros i ????. by rewrite H3, H1. Qed.

(** *** One iteration *)

Section Types.
Context {St : Type} {ops : PageAlloc St} {laws : PageAllocLaws St}.
#[local] Abbreviation memory s := (pg_mem (mm s)).

Lemma leaf_present m c va k e : leaf m c va = Some (k, e) → has e PT_PRESENT_MASK = true.
Proof using Type.
  unfold leaf. generalize PAGE_LEVEL. intros n. revert c. induction n as [|n IH]; intros c; cbn [walk]; [done|].
  destruct (has (entry _ _ _) _) eqn:Ep; [|done]. cbn [negb].
  destruct (is_leaf _ _); [by intros [= <- <-]|apply IH].
Qed.

(** [get_pte_level] finds the entries of pages of 4K only. *)
Lemma get_pte_level_leaf m c T va k e :
  wf m c T → leaf m c va = Some (k, e) →
  ∃ p, get_pte_level m c va 1 = Ret p ∧ (p = NULL ↔ k ≠ 1%nat).
Proof using St ops.
  intros Hwf Hl. unfold get_pte_level, find_pte_level. change (_ && _)%nat with true. cbv iota.
  destruct (find_from_walk m PAGE_LEVEL c va ltac:(unfold PAGE_LEVEL; lia)) as (r & t & -> & Hr1 & Ep & Hr & _ & Hw).
  unfold leaf in Hl. rewrite Hl in Hw. destruct (has _ _); [|done]. injection Hw as -> _.
  eexists. split; [done|].
  pose proof (reach_wf _ c T Hwf _ 4 c [] va t (wf_root _ _ _ Hwf) eq_refl Hr) as Ht. cbn [app] in Ht.
  pose proof (wf_page _ _ _ _ _ Hwf Ht) as (Hpos & _). pose proof (idx_range va (ps_level r)).
  destruct (Nat.eqb_spec (ps_level r) 1) as [->|]; [|done]. unfold NULL. rewrite Ep. unfold pte_at. lia.
Qed.

Lemma leaf_entry_range (s : mmu) T l va k e :
  ctl_inv s T l → leaf (memory s) (cr3 s) va = Some (k, e) → 0 <= e < 2 ^ 52 ∧ (k = 1 ∨ k = 2)%nat.
Proof using St ops.
  intros [(Hwf & _) Hpl] Hl.
  destruct (leaf_tables _ _ T Hwf Hpl va k e Hl) as (t3 & t2 & _ & _ & _ & Ht2 & R2 & Hk).
  destruct Hk as [(-> & -> & _)|(-> & _ & t1 & _ & R1 & ->)]; (split; [|tauto]).
  - pose proof (Hpl t2 _ (idx va 2) Ht2 (idx_range _ _)). pose proof (entry_range (memory s) t2 (idx va 2)). lia.
  - pose proof (reach_wf _ _ T Hwf 3 4 _ [] va t1 (wf_root _ _ _ Hwf) eq_refl R1) as Ht1.
    pose proof (Hpl t1 _ (idx va 1) Ht1 (idx_range _ _)). pose proof (entry_range (memory s) t1 (idx va 1)). lia.
Qed.

(** [leaf] after a page of level [k] that contains [x] got the entry [v]. *)
Definition repaged (m m' : mem) (c : Z) (k : nat) (x v : Z) : Prop :=
  ∀ va, addr48 va → leaf m' c va = if decide (same_area k x va) then Some (k, v) else leaf m c va.

Lemma repaged_trans m1 m2 m3 c k x v w : repaged m1 m2 c k x v → repaged m2 m3 c k x w → repaged m1 m3 c k x w.
Proof using Type. intros H1 H2 va Hva. rewrite H2, H1 by done. by case_decide. Qed.

Lemma control_bit_repaged (s : mmu) T l x k e bit value :
  ctl_inv s T l → addr48 x → x ≠ 0 → leaf (memory s) (cr3 s) x = Some (k, e) →
  0 < bit < 52 → (k = 2%nat → bit ≠ PAGE_PS_FLAG) →
  wp (set_page_control_bit x PAGE_PTE bit value) (λ _ s', ctl_inv s' T l ∧ cr3 s' = cr3 s ∧
    repaged (memory s) (memory s') (cr3 s) k x (control_bit e bit value)) s.
Proof using All.
  intros Hinv Hx Hnz Hl Hbit Hps. destruct (leaf_entry_range s T l x k e Hinv Hl) as [He _].
  eapply wp_mono; [by eapply set_page_control_bit_wp; [..|lia|]|]. intros [] s' (Hinv' & Hc & Hlf).
  split; [done|]. split; [done|]. intros va Hva. rewrite Hlf by done.
  apply leaf_present in Hl. change PT_PRESENT_MASK with (Z.shiftl 1 0) in *.
  rewrite has_testbit, control_bit_testbit, (decide_False (P := 0 = bit)), <- has_testbit, Hl by (done || lia). done.
Qed.

Lemma repaged_leaf m m' c k x v : addr48 x → repaged m m' c k x v → leaf m' c x = Some (k, v).
Proof using Type. intros Hx H. rewrite H by done. by rewrite decide_True. Qed.

Lemma retype_wp (s : mmu) T l x k e pwt pcd p :
  ctl_inv s T l → addr48 x → x ≠ 0 → leaf (memory s) (cr3 s) x = Some (k, e) →
  wp (set_page_control_bit x PAGE_PTE PT_PWT pwt;; set_page_control_bit x PAGE_PTE PT_PCD pcd;;
      set_page_control_bit x PAGE_PTE (pat_bit k) p) (λ _ s', ctl_inv s' T l ∧ cr3 s' = cr3 s ∧
    repaged (memory s) (memory s') (cr3 s) k x (retype k pwt pcd p e)) s.
Proof using All.
  intros Hinv Hx Hnz Hl. unfold PT_PWT, PT_PCD. wstep.
  eapply wp_mono; [by apply (control_bit_repaged s T l x k e)|]. intros [] s1 (Hi1 & Hc1 & Hr1).
  pose proof (repaged_leaf _ _ _ _ _ _ Hx Hr1) as Hl1. rewrite <- Hc1 in Hl1. wstep.
  eapply wp_mono; [by apply (control_bit_repaged s1 T l x k (control_bit e 3 pwt) 4 pcd)|]. intros [] s2 (Hi2 & Hc2 & Hr2).
  pose proof (repaged_leaf _ _ _ _ _ _ Hx Hr2) as Hl2. rewrite <- Hc2 in Hl2.
  eapply wp_mono; [apply (control_bit_repaged s2 T l x k (control_bit (control_bit e 3 pwt) 4 pcd) (pat_bit k) p); try done|].
  - destruct (pat_bit_cases k); lia.
  - by intros ->.
  - intros [] s3 (Hi3 & Hc3 & Hr3). split; [done|]. split; [by rewrite Hc3, Hc2|].
    rewrite Hc2, Hc1 in Hr3. rewrite Hc1 in Hr2. eapply repaged_trans; [|exact Hr3]. by eapply repaged_trans.
Qed.
(** *** The loop *)

Lemma leaf_slot m c T va k e :
  wf m c T → plain m T → leaf m c va = Some (k, e) →
  ∃ t, reach m (4 - k) 4 c va = Some t ∧ e = entry m t (idx va k) ∧ is_leaf k e = true ∧ (k = 1 ∨ k = 2)%nat.
Proof using Type.
  intros Hwf Hpl Hl. destruct (leaf_tables m c T Hwf Hpl va k e Hl) as (t3 & t2 & _ & _ & _ & _ & R2 & Hk).
  destruct Hk as [(-> & -> & Hps)|(-> & _ & t1 & _ & R1 & ->)]; [exists t2|exists t1]; split_and!; tauto || done.
Qed.

(** A leaf is the one of all addresses of its page. *)
Lemma leaf_area m c T x va k e :
  wf m c T → plain m T → addr48 x → addr48 va → leaf m c x = Some (k, e) → same_area k x va →
  leaf m c va = Some (k, e).
Proof using Type.
  intros Hwf Hpl Hx Hva Hl Ha. pose proof (leaf_present _ _ _ _ _ Hl) as Hp.
  destruct (leaf_slot m c T x k e Hwf Hpl Hl) as (t & Hr & -> & Hleaf & Hk).
  assert (vpath va 4 (S (4 - k)) = vpath x 4 (S (4 - k))) as E.
  { apply vpath_eq; [lia|done..|]. by replace (4 - (4 - k))%nat with k by lia. }
  rewrite !vpath_snoc in E. apply app_inj_tail in E as [E1 E2].
  replace (4 - (4 - k))%nat with k in E2 by lia.
  unfold leaf, PAGE_LEVEL. rewrite (walk_reach m (4 - k) 4 c va t) by (rewrite <- Hr; by apply reach_same).
  replace (4 - (4 - k))%nat with k by lia. destruct k as [|k]; [lia|]. cbn [walk].
  by rewrite E2, Hp, Hleaf.
Qed.

(** The pages of level [k] that meet the steps of a range of [n] steps from [x]. *)
Definition touched (k : nat) (x : Z) (n : nat) (va : Z) : Prop :=
  n ≠ 0%nat ∧ x / span k <= va / span k <= (x + PAGE_SIZE * (n - 1)) / span k.
#[local] Instance touched_dec k x n va : Decision (touched k x n va).
Proof using Type. unfold touched. apply _. Defined.

Definition types_set (m m' : mem) (c : Z) (k : nat) (type x : Z) (n : nat) : Prop :=
  ∀ va, addr48 va → match leaf m c va with
  | Some (k', e) => ∃ e', leaf m' c va = Some (k', e') ∧
      if decide (touched k x n va) then k' = k ∧ retyped k type e e' else e' = e
  | None => leaf m' c va = None
  end.

Lemma span_page k : (1 <= k)%nat → PAGE_SIZE <= span k.
Proof using Type. intros Hk. unfold span. change PAGE_SIZE with (2 ^ 12). apply Z.pow_le_mono_r; lia. Qed.

Lemma touched_step k x n va :
  (1 <= k)%nat → ¬ same_area k x va → touched k x (S n) va ↔ touched k (x + PAGE_SIZE) n va.
Proof using Type.
  intros Hk Hne. unfold touched, same_area in *. pose proof (span_page k Hk) as Hs. pose proof (span_pos k).
  replace (x + PAGE_SIZE + PAGE_SIZE * (n - 1)) with (x + PAGE_SIZE * (S n - 1)) by lia.
  assert (x / span k <= (x + PAGE_SIZE) / span k <= x / span k + 1) as Hx.
  { split; [apply Z.div_le_mono; lia|]. rewrite <- (Z.div_add x 1 (span k)) by lia. apply Z.div_le_mono; lia. }
  split.
  - intros (_ & H1 & H2). split; [intros ->|lia]. change (S 0 - 1)%nat with 0%nat in H2.
    rewrite Nat2Z.inj_succ in H2. cbn in H2. rewrite Z.add_0_r in H2. lia.
  - intros (H0 & H1 & H2). split; [done|]. lia.
Qed.

Lemma types_set_step m m1 m' c T k type x n e v :
  wf m c T → plain m T → addr48 x → leaf m c x = Some (k, e) → retyped k type e v →
  repaged m m1 c k x v → types_set m1 m' c k type (x + PAGE_SIZE) n → types_set m m' c k type x (S n).
Proof using Type.
  intros Hwf Hpl Hx Hl Hv Hrep Hset va Hva.
  destruct (leaf_slot m c T x k e Hwf Hpl Hl) as (_ & _ & _ & _ & Hk).
  specialize (Hset va Hva). rewrite Hrep in Hset by done. destruct (decide (same_area k x va)) as [Ha|Ha].
  - rewrite (leaf_area m c T x va k e Hwf Hpl Hx Hva Hl Ha). destruct Hset as (e' & Hl' & He').
    exists e'. split; [done|]. rewrite decide_True.
    2:{ unfold touched, same_area in *. split; [done|]. rewrite Ha. split; [done|].
        apply Z.div_le_mono; [apply span_pos|lia]. }
    split; [done|]. case_decide; [eapply retyped_trans; [exact Hv|tauto]|by subst].
  - destruct (leaf m c va) as [[k' e0]|]; [|done]. destruct Hset as (e' & Hl' & He'). exists e'.
    split; [done|]. pose proof (touched_step k x n va ltac:(lia) Ha) as Ht.
    destruct (decide (touched k x (S n) va)), (decide (touched k (x + PAGE_SIZE) n va)); tauto.
Qed.

Lemma type_step_wp (s : mmu) T l k e address type size i pat pwt pcd p (x := address + i) :
  ctl_inv s T l → type_bits type = Some (pwt, pcd, p) → 0 <= i < size → i + PAGE_SIZE < 2 ^ 31 → size < 2 ^ 64 →
  0 < address → addr48 x → leaf (memory s) (cr3 s) x = Some (k, e) → (k = 1%nat → pat = PT_PAT) →
  wp (type_step address type size (i, pat)) (λ r s',
    r = inl (i + PAGE_SIZE, if (k =? 1)%nat then PT_PAT else PT_PAT_LARGE_PAGE) ∧ ctl_inv s' T l ∧ cr3 s' = cr3 s ∧
    repaged (memory s) (memory s') (cr3 s) k x (retype k pwt pcd p e)) s.
Proof using All.
  intros Hinv Hty Hi Hi31 Hs64 Ha Hx Hl Hpat. unfold type_step.
  assert (0 <= x < 2 ^ 48) as Hx' by exact Hx.
  rewrite !(wrap_small 64) by (unfold x in *; lia). rewrite (proj2 (Z.ltb_lt i size)) by lia. fold x.
  pose proof Hinv as [(Hwf & _) _].
  destruct (get_pte_level_leaf (memory s) (cr3 s) T x k e Hwf Hl) as (q & Hq & Hqk).
  wstep. wstep. wstep. wstep. wstep. unfold lift_outcome. rewrite Hq, Hty.
  apply (wp_ret (St := mmu) q).
  assert ((if q =? NULL then PT_PAT_LARGE_PAGE else pat) = pat_bit k) as ->.
  { unfold pat_bit. destruct (Z.eqb_spec q NULL) as [E|E], (Nat.eqb_spec k 1); tauto || done. }
  wstep. eapply wp_mono; [apply (retype_wp s T l x k e pwt pcd p); try done; unfold x in *; lia|].
  intros [] s' H. wstep. rewrite swrap_small by (cbn; lia). by split.
Qed.

Lemma type_loop_wp (s : mmu) T l k address type size bits (n f : nat) i pat :
  type_bits type = Some bits → ctl_inv s T l → 0 <= i → i + PAGE_SIZE * n < 2 ^ 31 →
  i + PAGE_SIZE * n < size + PAGE_SIZE → size <= i + PAGE_SIZE * n → size < 2 ^ 64 →
  0 < address → address + i + PAGE_SIZE * n <= 2 ^ 48 → (k = 1%nat → pat = PT_PAT) → (n < f)%nat →
  (∀ j : nat, (j < n)%nat → ∃ e, leaf (memory s) (cr3 s) (address + i + PAGE_SIZE * j) = Some (k, e)) →
  wp (iter f (type_step address type size) (i, pat)) (λ _ s', ctl_inv s' T l ∧ cr3 s' = cr3 s ∧
    types_set (memory s) (memory s') (cr3 s) k type (address + i) n) s.
Proof using All.
  intros Hty. destruct bits as [[pwt pcd] p]. revert f s i pat.
  induction n as [|n IH]; intros f s i pat Hinv Hi Hi31 Hlt Hle Hs64 Ha H48 Hpat Hf Hlv;
    (destruct f as [|f]; [lia|]); cbn [iter]; wstep.
  - unfold type_step at 1. rewrite !(wrap_small 64) by lia. rewrite (proj2 (Z.ltb_ge i size)) by lia.
    wstep. wstep. split; [done|]. split; [done|]. intros va Hva. destruct (leaf _ _ va) as [[k' e]|]; [|done].
    exists e. split; [done|]. by rewrite decide_False by (by intros [? _]).
  - destruct (Hlv 0%nat ltac:(lia)) as [e Hl]. rewrite Z.add_0_r in Hl.
    assert (addr48 (address + i)) as Hx by (unfold addr48; lia).
    eapply wp_mono; [apply (type_step_wp s T l k e address type size i pat pwt pcd p); done || lia|].
    intros r s1 (-> & Hinv1 & Hc1 & Hrep).
    pose proof Hinv as [(Hwf & _) Hpl]. destruct (leaf_entry_range s T l _ k e Hinv Hl) as [He Hk].
    eapply wp_mono; [apply (IH f s1 (i + PAGE_SIZE)); try done; try lia|].
    + by intros ->.
    + intros j Hj. rewrite Hc1, Hrep by (unfold addr48; lia). case_decide; [by eexists|].
      destruct (Hlv (S j) ltac:(lia)) as [ej Hej].
      replace (address + (i + PAGE_SIZE) + PAGE_SIZE * j) with (address + i + PAGE_SIZE * S j) by lia. by exists ej.
    + intros [] s' (Hinv' & Hc' & Hset). split; [done|]. split; [by rewrite Hc'|].
      rewrite Hc1, Z.add_assoc in Hset.
      eapply types_set_step; try done. by apply retype_retyped.
Qed.
End Types.

(** The memory type of an address: the value of the masks PWT, PCD and PAT. *)
Definition type_at (m : mem) (c va : Z) : option Z := '(k, e) ← leaf m c va; Some (memory_type k e).

Lemma types_set_at m m' c T k type x n va :
  wf m c T → plain m T → types_set m m' c k type x n → addr48 va →
  translate m' c va = translate m c va ∧
  type_at m' c va = (if decide (touched k x n va) then (λ _, type) <$> leaf m c va else type_at m c va) ∧
  ∀ k' e, leaf m c va = Some (k', e) → ∃ e', leaf m' c va = Some (k', e') ∧
    ∀ i, 0 <= i → i ≠ PT_PWT → i ≠ PT_PCD → i ≠ pat_bit k' → Z.testbit e' i = Z.testbit e i.
Proof.
  intros Hwf Hpl Hset Hva. specialize (Hset va Hva). unfold translate, type_at.
  destruct (leaf m c va) as [[k' e]|] eqn:El; [|rewrite Hset; split_and!; [done|by case_decide|done]].
  destruct (leaf_slot m c T va k' e Hwf Hpl El) as (_ & _ & _ & _ & Hk').
  destruct Hset as (e' & -> & He'). cbn [mbind option_bind fmap option_fmap option_map].
  destruct (decide (touched k x n va)) as [Ht|Ht].
  - destruct He' as [-> He']. split_and!; [f_equal; by eapply retyped_addr|f_equal; apply He'|].
    intros k'' e'' [= <- <-]. exists e'. split; [done|apply He'].
  - subst e'. split_and!; [done..|]. intros k'' e'' [= <- <-]. by exists e.
Qed.

(** The last step of an aligned range is in the page of its last byte. *)
Lemma last_step k x q r :
  (1 <= k)%nat → x mod PAGE_SIZE = 0 → 0 <= r < PAGE_SIZE →
  (x + PAGE_SIZE * q) / span k = (x + (PAGE_SIZE * q + r)) / span k.
Proof.
  intros Hk Hx Hr. apply Z.mod_divide in Hx as [a ->]; [|lia].
  assert (span k = PAGE_SIZE * 2 ^ (9 * (k - 1))) as ->.
  { unfold span. rewrite Z.pow_add_r by lia. change (2 ^ 12) with PAGE_SIZE. ring. }
  assert (0 < 2 ^ (9 * (k - 1))) by (apply Z.pow_pos_nonneg; lia). rewrite <- !Z.div_div by lia. f_equal.
  replace (a * PAGE_SIZE + PAGE_SIZE * q) with ((a + q) * PAGE_SIZE) by ring.
  replace (a * PAGE_SIZE + (PAGE_SIZE * q + r)) with ((a + q) * PAGE_SIZE + r) by ring.
  rewrite Z.div_mul, Z.div_add_l, (Z.div_small r) by lia. lia.
Qed.

(** A page that meets a range shares an address with it. *)
Lemma area_in_range k x y va :
  x <= y → x / span k <= va / span k <= y / span k → ∃ a, x <= a <= y ∧ same_area k a va.
Proof.
  intros Hxy Hv. pose proof (span_pos k) as Hs. exists (Z.max x (va / span k * span k)).
  pose proof (Z.div_mod y (span k) ltac:(lia)). pose proof (Z.mod_pos_bound y (span k) Hs).
  split; [nia|]. unfold same_area. destruct (Z.max_spec x (va / span k * span k)) as [[H1 ->]|[H1 ->]].
  - by rewrite Z.div_mul by lia.
  - apply Z.le_antisymm; [|lia]. apply Z.div_le_lower_bound; lia.
Qed.

(** C31: [set_mem_cache_type_addr] gives the pages of a range the memory type asked
    for: every address is translated as before, the pages that have a byte in the
    range get the type, all other pages keep theirs, and no other bit of an entry
    changes.  All pages of the range must be of 4K, or all of 2M. *)
Theorem set_mem_cache_type_addr_types {St} {ops : PageAlloc St} {laws : PageAllocLaws St}
    fuel (s : mmu) T l k address type size :
  ctl_inv s T l → cr3 s < 2 ^ 32 → is_Some (type_bits type) →
  0 < address → address mod PAGE_SIZE = 0 → 0 < size → address + size + PAGE_SIZE <= 2 ^ 48 →
  size + PAGE_SIZE < 2 ^ 31 → size / PAGE_SIZE + 1 < fuel →
  (∀ a, address <= a < address + size → ∃ e, leaf (pg_mem (mm s)) (cr3 s) a = Some (k, e)) →
  wp (set_mem_cache_type_addr (Z.to_nat fuel) address type size) (λ _ s', ctl_inv s' T l ∧ cr3 s' = cr3 s ∧
    ∀ va, addr48 va →
      translate (pg_mem (mm s')) (cr3 s) va = translate (pg_mem (mm s)) (cr3 s) va ∧
      type_at (pg_mem (mm s')) (cr3 s) va =
        (if decide (address / span k <= va / span k <= (address + size - 1) / span k) then Some type
         else type_at (pg_mem (mm s)) (cr3 s) va) ∧
      ∀ k' e, leaf (pg_mem (mm s)) (cr3 s) va = Some (k', e) →
        ∃ e', leaf (pg_mem (mm s')) (cr3 s) va = Some (k', e') ∧
          ∀ i, 0 <= i → i ≠ PT_PWT → i ≠ PT_PCD → i ≠ pat_bit k' → Z.testbit e' i = Z.testbit e i) s.
Proof.
  intros Hinv Hc [bits Hty] Ha Ham Hs H48 H31 Hf Hlv. pose proof Hinv as [(Hwf & _) Hpl].
  set (n := S (Z.to_nat ((size - 1) / PAGE_SIZE))).
  assert (PAGE_SIZE * (n - 1)%nat = PAGE_SIZE * ((size - 1) / PAGE_SIZE)) as En.
  { unfold n. cbn [Nat.sub]. rewrite Nat.sub_0_r, Z2Nat.id; [done|apply Z.div_pos; lia]. }
  assert (0 <= (size - 1) / PAGE_SIZE ∧ PAGE_SIZE * ((size - 1) / PAGE_SIZE) <= size - 1 ∧
    size - 1 < PAGE_SIZE * ((size - 1) / PAGE_SIZE) + PAGE_SIZE) as (Hd0 & Hd1 & Hd2) by mlia.
  assert (Z.of_nat n = (size - 1) / PAGE_SIZE + 1) as Hn by (unfold n; lia).
  unfold set_mem_cache_type_addr. wstep.
  eapply wp_mono; [apply (type_loop_wp s T l k address type size bits n); try done; try lia|].
  - assert ((size - 1) / PAGE_SIZE <= size / PAGE_SIZE) by (apply Z.div_le_mono; lia). lia.
  - intros j Hj. rewrite Z.add_0_r. apply Hlv. lia.
  - rewrite Z.add_0_r. intros [] s1 (Hinv1 & Hc1 & Hset). unfold flush_tlb. wstep. wstep. wstep.
    destruct (wf_page _ _ _ _ _ Hwf (wf_root _ _ _ Hwf)) as (Hc0 & _).
    rewrite Hc1, wrap_small by lia. rewrite <- Hc1.
    replace (Mmu (mm s1) (cr0 s1) (cr3 s1)) with s1 by (by destruct s1). split; [done|]. split; [done|].
    rewrite Hc1. intros va Hva.
    destruct (types_set_at _ _ _ T k type address n va Hwf Hpl Hset Hva) as (H1 & H2 & H3).
    split; [done|]. split; [|done]. rewrite H2.
    assert (∃ e, leaf (pg_mem (mm s)) (cr3 s) address = Some (k, e)) as [e0 Hl0] by (apply Hlv; lia).
    destruct (leaf_entry_range s T l _ k e0 Hinv Hl0) as [_ Hk].
    assert (touched k address n va ↔ address / span k <= va / span k <= (address + size - 1) / span k) as Hiff.
    { unfold touched. replace (PAGE_SIZE * (n - 1)) with (PAGE_SIZE * ((size - 1) / PAGE_SIZE)) by lia.
      rewrite (last_step k address _ ((size - 1) mod PAGE_SIZE)) by
        (done || lia || by apply Z.mod_pos_bound).
      rewrite <- Z.div_mod by lia. replace (address + (size - 1)) with (address + size - 1) by lia.
      split; [tauto|]. by split; [unfold n|]. }
    case_decide as Hd; case_decide as Hd'; try tauto.
    destruct (area_in_range k address (address + size - 1) va ltac:(lia) Hd') as (a & Har & Hsame).
    destruct (Hlv a ltac:(lia)) as [e He]. by rewrite (leaf_area _ _ T a va k e) by (done || unfold addr48; lia).
Qed.

(** ** Witness: the first 2M are mapped to the second, the range is in their middle *)

Definition ex_ctl : mmu (St := pages) := Mmu (Pages ex_large 0 false) 0x80010001 0x1000.

Lemma ex_ctl_inv : ctl_inv ex_ctl ex_tables [].
Proof.
  split; [split; [apply ex_large_wf|split; [by split_and!; [..|apply NoDup_nil_2]|by intros p ?%elem_of_nil]]|].
  intros t π i Ht Hi.
  assert (t ∈ [0x1000; 0x2000; 0x3000] ∧ (length π = 1%nat → t = 0x2000)) as [Hin H1].
  { unfold ex_tables in Ht. rewrite !elem_of_cons.
    apply lookup_insert_Some in Ht as [[<- <-]|[_ Ht]]; [split; [lia|done]|].
    apply lookup_insert_Some in Ht as [[<- <-]|[_ Ht]]; [split; [lia|done]|].
    apply lookup_singleton_Some in Ht as [<- <-]. split; [lia|done]. }
  destruct (decide (i = 0)) as [->|Hne].
  - split; [|intros ->%H1; by vm_compute].
    rewrite !elem_of_cons, elem_of_nil in Hin. destruct Hin as [->|[->|[->|[]]]]; by vm_compute.
  - change (pg_mem (mm ex_ctl)) with ex_large. rewrite ex_large_entry by (done || lia). by split.
Qed.

Lemma ex_ctl_leaf a : 0 <= a < 0x200000 → leaf ex_large 0x1000 a = Some (2%nat, 0x200087).
Proof.
  intros Ha. destruct ex_ctl_inv as [_ Hpl].
  apply (leaf_area ex_large 0x1000 ex_tables 0); [apply ex_large_wf|exact Hpl|done|unfold addr48; lia|by vm_compute|].
  unfold same_area. change (span 2) with 0x200000. by rewrite !Z.div_small by lia.
Qed.

Lemma set_mem_cache_type_addr_types_witness :
  wp (set_mem_cache_type_addr (Z.to_nat 5) 0x5000 PT_PAT_MASK 0x2000) (λ _ s', ctl_inv s' ex_tables [] ∧ cr3 s' = cr3 ex_ctl ∧
    ∀ va, addr48 va →
      translate (pg_mem (mm s')) (cr3 ex_ctl) va = translate (pg_mem (mm ex_ctl)) (cr3 ex_ctl) va ∧
      type_at (pg_mem (mm s')) (cr3 ex_ctl) va =
        (if decide (0x5000 / span 2 <= va / span 2 <= (0x5000 + 0x2000 - 1) / span 2) then Some PT_PAT_MASK
         else type_at (pg_mem (mm ex_ctl)) (cr3 ex_ctl) va) ∧
      ∀ k' e, leaf (pg_mem (mm ex_ctl)) (cr3 ex_ctl) va = Some (k', e) →
        ∃ e', leaf (pg_mem (mm s')) (cr3 ex_ctl) va = Some (k', e') ∧
          ∀ i, 0 <= i → i ≠ PT_PWT → i ≠ PT_PCD → i ≠ pat_bit k' → Z.testbit e' i = Z.testbit e i) ex_ctl.
Proof.
  apply (set_mem_cache_type_addr_types 5 ex_ctl ex_tables [] 2 0x5000 PT_PAT_MASK 0x2000).
  - apply ex_ctl_inv.
  - done.
  - by eexists.
  - done.
  - done.
  - done.
  - done.
  - done.
  - done.
  - intros a Ha. exists 0x200087. apply ex_ctl_leaf. lia.
Defined.

(** A range that starts in a large page: the PAT bit of large pages is kept for
    the page of 4K that follows, where it is a bit of the address. *)
Definition ex_mixed : mmu (St := pages) :=
  Mmu (Pages (st64 (st64 ex_large 0x3008 0x4007) 0x4000 0x300007) 0 false) 0x80010001 0x1000.

Example type_after_large :
  translate (pg_mem (mm ex_mixed)) 0x1000 0x200000 = Some 0x300000 ∧
  match set_memory_type_pt 5 0x1FF000 PT_PAT_MASK 0x2000 ex_mixed with
  | Ret (_, s') => translate (pg_mem (mm s')) 0x1000 0x200000 = Some 0x301000
  | Stop _ => False
  end.
Proof. by vm_compute. Qed.
