(* ===== verification/VmxCtl.v ===== *)
(** * VMX controls: x86/hsi_virtual_spec.c, hsi_vmx_general.c, hsi_vmx_exe_contrl0.c

    The processor's VMX instructions and the fields of the current VMCS are the
    interface [VmxCpu]; [VmxLaws] says what its operations do.  The file holds the
    bitmaps of the ports and of the model specific registers, the controls and
    the capabilities they are adjusted to, the initialisation of a VMCS and the
    extended page tables of the guest. *)

From S2P Require Import Prelude Memory CString Bits AllocPage Paging Vm Ept.

(** ** The bitmaps *)

Definition BIT_TYPE_CLEAR : Z := 0.
Definition BIT_TYPE_SET : Z := 1.
Definition MSR_READ : Z := 0.
Definition MSR_WRITE : Z := 1.
Definition MSR_READ_WRITE : Z := 2.
Definition HIGH_MSR_START_ADDR : Z := 0xc0000000.
Definition MSR_WRITE_BITMAP_OFFSET : Z := 2048.

(** [bitmap[a] |= bits] or [bitmap[a] &= ~bits] *)
Definition put_bits (m : mem) (a bits is_bit_set : Z) : mem :=
  if is_bit_set =? BIT_TYPE_SET then wr8 m a (Z.lor (rd8 m a) bits)
  else wr8 m a (Z.land (rd8 m a) (Z.lnot bits)).

Definition io_bitmap_size : list Z := [0x1; 0x3; 0xf].

(** [bytes] is an index of [io_bitmap_size]. *)
Definition set_io_bitmap (m : mem) (io_bitmap port_io is_bit_set : Z) (bytes : nat) : mem :=
  let io_index := port_io / 8 in
  let io_bit := port_io mod 8 in
  put_bits m (io_bitmap + io_index) (Z.shiftl (nth bytes io_bitmap_size 0) io_bit) is_bit_set.

Definition set_msr_bitmap (m : mem) (msr_bitmap msr is_bit_set is_rd_wt : Z) : mem :=
  let msr_offset := Z.land msr 0x1FFF in
  let test_msr_index := msr_offset / 8 in
  let test_msr_bit := msr_offset mod 8 in
  let test_msr_index :=
    if has HIGH_MSR_START_ADDR msr then test_msr_index + 1024 else test_msr_index in
  let m :=
    if (is_rd_wt =? MSR_READ) || (is_rd_wt =? MSR_READ_WRITE)
    then put_bits m (msr_bitmap + test_msr_index) (Z.shiftl 1 test_msr_bit) is_bit_set else m in
  if (is_rd_wt =? MSR_WRITE) || (is_rd_wt =? MSR_READ_WRITE) then
    let test_msr_index := test_msr_index + MSR_WRITE_BITMAP_OFFSET in
    put_bits m (msr_bitmap + test_msr_index) (Z.shiftl 1 test_msr_bit) is_bit_set
  else m.

Definition set_rdmsr_low_msr_bitmap (m : mem) (msr_bitmap msr is_bit_set : Z) : mem :=
  put_bits m (msr_bitmap + msr / 8) (Z.shiftl 1 (msr mod 8)) is_bit_set.

(** What the processor reads from the bitmaps: an access to a register outside of
    the two ranges always exits. *)
Definition io_exits (m : mem) (io_bitmap port : Z) : bool :=
  Z.testbit (rd8 m (io_bitmap + port / 8)) (port mod 8).

Definition low_msr (msr : Z) : Prop := 0 <= msr < 0x2000.
Definition high_msr (msr : Z) : Prop := 0xc0000000 <= msr < 0xc0002000.
#[export] Instance low_msr_dec msr : Decision (low_msr msr) := _.
#[export] Instance high_msr_dec msr : Decision (high_msr msr) := _.

Definition msr_exits (m : mem) (msr_bitmap : Z) (write : bool) (msr : Z) : bool :=
  let base := msr_bitmap + (if write then 2048 else 0) in
  if decide (low_msr msr) then Z.testbit (rd8 m (base + msr / 8)) (msr mod 8)
  else if decide (high_msr msr) then
    Z.testbit (rd8 m (base + 1024 + (msr - 0xc0000000) / 8)) ((msr - 0xc0000000) mod 8)
  else true.

(** The accesses a kind covers. *)
Definition covers (is_rd_wt : Z) (write : bool) : bool :=
  (is_rd_wt =? MSR_READ_WRITE) || (is_rd_wt =? (if write then MSR_WRITE else MSR_READ)).

Lemma put_bits_spec m a bits set x i :
  0 <= i < 8 → 0 <= bits →
  Z.testbit (rd8 (put_bits m a bits set) x) i =
    if decide (x = a ∧ Z.testbit bits i = true) then set =? BIT_TYPE_SET else Z.testbit (rd8 m x) i.
Proof.
  intros Hi Hb. unfold put_bits.
  assert (∀ v, Z.testbit (u8 v) i = Z.testbit v i) as Hu.
  { intros v. rewrite testbit_wrap by lia. by rewrite (proj2 (Z.ltb_lt i 8)) by lia. }
  destruct (Z.eqb_spec set BIT_TYPE_SET) as [->|]; rewrite rd8_wr8; destruct (decide (a = x)) as [<-|Hne].
  - rewrite Hu, Z.lor_spec. case_decide as H; [destruct H as [_ ->]; by rewrite orb_true_r|].
    destruct (Z.testbit bits i); [naive_solver|by rewrite orb_false_r].
  - by rewrite decide_False by naive_solver.
  - rewrite Hu, Z.land_spec, Z.lnot_spec by lia. case_decide as H; [destruct H as [_ ->]; by rewrite andb_false_r|].
    destruct (Z.testbit bits i); [naive_solver|by rewrite andb_true_r].
  - by rewrite decide_False by naive_solver.
Qed.

Lemma put_bits_other m a bits set x : x ≠ a → rd8 (put_bits m a bits set) x = rd8 m x.
Proof. intros H. unfold put_bits. by destruct (_ =? _); rewrite rd8_wr8_other by congruence. Qed.

(** One bit. *)
Lemma put_bit_spec m a k set x i :
  0 <= i < 8 → 0 <= k < 8 →
  Z.testbit (rd8 (put_bits m a (Z.shiftl 1 k) set) x) i =
    if decide (x = a ∧ i = k) then set =? BIT_TYPE_SET else Z.testbit (rd8 m x) i.
Proof.
  intros Hi Hk. rewrite put_bits_spec by (try apply Z.shiftl_nonneg; lia).
  rewrite Z.shiftl_1_l, testbit_pow2 by lia.
  destruct (decide (x = a ∧ i = k)) as [[-> ->]|H].
  - by rewrite decide_True by (by rewrite Z.eqb_refl).
  - rewrite decide_False; [done|]. intros [-> ->%Z.eqb_eq]. by apply H.
Qed.

Lemma io_size_bit bytes j :
  (bytes < 3)%nat → 0 <= j → Z.testbit (nth bytes io_bitmap_size 0) j = (j <? 2 ^ Z.of_nat bytes).
Proof.
  intros Hb Hj. assert (nth bytes io_bitmap_size 0 = Z.ones (2 ^ Z.of_nat bytes)) as ->.
  { destruct bytes as [|[|[|]]]; [done..|lia]. }
  rewrite testbit_ones by (apply Z.pow_nonneg; lia). by rewrite (proj2 (Z.leb_le 0 j)) by lia.
Qed.

(** [set_io_bitmap] sets (or clears) the bits of the ports of the access that are
    in the byte of the first port, and no other: the ports of an access that
    crosses into the next byte are left as they are. *)
Theorem set_io_bitmap_ports m io_bitmap port set bytes :
  0 <= port < 2 ^ 16 → (bytes < 3)%nat →
  ∀ q, 0 <= q < 2 ^ 16 → io_exits (set_io_bitmap m io_bitmap port set bytes) io_bitmap q =
    if decide (port <= q < port + 2 ^ Z.of_nat bytes ∧ q / 8 = port / 8) then set =? BIT_TYPE_SET
    else io_exits m io_bitmap q.
Proof.
  intros Hp Hb q Hq. unfold io_exits, set_io_bitmap.
  pose proof (Z.mod_pos_bound q 8 ltac:(lia)) as Hq8. pose proof (Z.mod_pos_bound port 8 ltac:(lia)) as Hp8.
  rewrite put_bits_spec.
  2: lia.
  2: { apply Z.shiftl_nonneg. destruct bytes as [|[|[|]]]; cbn; lia. }
  rewrite Z.shiftl_spec by lia.
  pose proof (Z.div_mod q 8 ltac:(lia)). pose proof (Z.div_mod port 8 ltac:(lia)).
  destruct (decide (port <= q < port + 2 ^ Z.of_nat bytes ∧ q / 8 = port / 8)) as [[H1 H2]|H1].
  - rewrite decide_True; [done|]. split; [lia|]. rewrite io_size_bit by (done || lia). apply Z.ltb_lt. lia.
  - rewrite decide_False; [done|]. intros [H2 H3]. apply H1.
    destruct (decide (q mod 8 < port mod 8)) as [Hlt|Hge].
    + rewrite Z.testbit_neg_r in H3 by lia. done.
    + rewrite io_size_bit in H3 by (done || lia). apply Z.ltb_lt in H3. lia.
Qed.

(** The byte and the bit of a register in the bitmap of reads. *)
Definition msr_slot (msr : Z) : Z * Z :=
  let o := Z.land msr 0x1FFF in (o / 8 + (if has HIGH_MSR_START_ADDR msr then 1024 else 0), o mod 8).

Lemma msr_slot_range msr : 0 <= (msr_slot msr).1 < 2048 ∧ 0 <= (msr_slot msr).2 < 8.
Proof.
  unfold msr_slot. cbn [fst snd]. change 0x1FFF with (2 ^ 13 - 1). rewrite mask_low by lia.
  pose proof (Z.mod_pos_bound msr (2 ^ 13) ltac:(lia)). destruct (has _ _); mlia.
Qed.

Lemma msr_slot_low msr : low_msr msr → msr_slot msr = (msr / 8, msr mod 8).
Proof.
  intros H. unfold low_msr in H. unfold msr_slot. change 0x1FFF with (2 ^ 13 - 1). rewrite mask_low by lia.
  rewrite Z.mod_small by lia. assert (has HIGH_MSR_START_ADDR msr = false) as ->.
  { unfold has. apply negb_false_iff, Z.eqb_eq. apply Z.bits_inj'. intros i Hi.
    rewrite Z.land_spec, Z.bits_0. destruct (decide (i < 30)).
    - apply andb_false_iff. left. change HIGH_MSR_START_ADDR with (3 * 2 ^ 30).
      apply Z.mul_pow2_bits_low; lia.
    - apply andb_false_iff. right. apply Z.bits_above_log2; [lia|].
      destruct (decide (msr = 0)) as [->|]; [cbn; lia|].
      apply Z.log2_lt_pow2; [lia|]. apply Z.lt_le_trans with (2 ^ 13); [lia|]. apply Z.pow_le_mono_r; lia. }
  by rewrite Z.add_0_r.
Qed.

Lemma msr_slot_high msr :
  high_msr msr → msr_slot msr = (1024 + (msr - 0xc0000000) / 8, (msr - 0xc0000000) mod 8).
Proof.
  intros H. unfold high_msr in H. unfold msr_slot. change 0x1FFF with (2 ^ 13 - 1). rewrite mask_low by lia.
  assert (msr mod 2 ^ 13 = msr - 0xc0000000) as -> by mlia.
  assert (has HIGH_MSR_START_ADDR msr = true) as ->.
  { unfold has. apply negb_true_iff, Z.eqb_neq. intros E.
    apply (f_equal (λ z, Z.testbit z 31)) in E. rewrite Z.land_spec, Z.bits_0 in E.
    change (Z.testbit HIGH_MSR_START_ADDR 31) with true in E. cbn [andb] in E.
    rewrite Z.testbit_eqb in E by lia. change (2 ^ 31) with 2147483648 in E.
    assert (msr / 2147483648 = 1) as E1 by mlia. by rewrite E1 in E. }
  f_equal. lia.
Qed.

(** The two updates of [set_msr_bitmap]. *)
Lemma set_msr_bitmap_bits m b msr set kind x i (slot := msr_slot msr) :
  0 <= i < 8 →
  Z.testbit (rd8 (set_msr_bitmap m b msr set kind) x) i =
    if decide (i = slot.2 ∧ ((x = b + slot.1 ∧ covers kind false = true) ∨
                             (x = b + (slot.1 + 2048) ∧ covers kind true = true)))
    then set =? BIT_TYPE_SET else Z.testbit (rd8 m x) i.
Proof.
  intros Hi. destruct (msr_slot_range msr) as [H1 H2]. fold slot in H1, H2.
  assert (set_msr_bitmap m b msr set kind =
    let m1 := if covers kind false then put_bits m (b + slot.1) (Z.shiftl 1 slot.2) set else m in
    if covers kind true then put_bits m1 (b + (slot.1 + 2048)) (Z.shiftl 1 slot.2) set else m1) as ->.
  { unfold set_msr_bitmap, covers, slot, msr_slot, MSR_WRITE_BITMAP_OFFSET. cbn [fst snd].
    rewrite (orb_comm (kind =? MSR_READ)), (orb_comm (kind =? MSR_WRITE)).
    destruct (has _ _); rewrite ?Z.add_0_r; reflexivity. }
  cbv zeta. destruct (covers kind true), (covers kind false); rewrite ?put_bit_spec by done;
    repeat case_decide; try done; naive_solver lia.
Qed.

(** [set_msr_bitmap] makes the accesses of the kind to the register exit (or
    not), and leaves the accesses of the other kind and all other registers as
    they are. *)
Theorem set_msr_bitmap_exits m msr_bitmap msr set is_rd_wt :
  low_msr msr ∨ high_msr msr →
  ∀ write q, msr_exits (set_msr_bitmap m msr_bitmap msr set is_rd_wt) msr_bitmap write q =
    if decide (q = msr) then
      if covers is_rd_wt write then set =? BIT_TYPE_SET else msr_exits m msr_bitmap write q
    else msr_exits m msr_bitmap write q.
Proof.
  intros Hm write q.
  assert (∀ y, low_msr y ∨ high_msr y → ∀ mm,
    msr_exits mm msr_bitmap write y =
    Z.testbit (rd8 mm (msr_bitmap + ((msr_slot y).1 + (if write then 2048 else 0)))) (msr_slot y).2) as Hx.
  { intros y Hy mm. unfold msr_exits. destruct (decide (low_msr y)) as [Hl|Hl].
    - rewrite msr_slot_low by done. cbn [fst snd]. do 2 f_equal. lia.
    - destruct Hy as [Hy|Hy]; [done|]. rewrite decide_True by done.
      rewrite msr_slot_high by done. cbn [fst snd]. do 2 f_equal. lia. }
  destruct (decide (low_msr q ∨ high_msr q)) as [Hq|Hq].
  - rewrite !Hx by done. destruct (msr_slot_range q) as [Q1 Q2], (msr_slot_range msr) as [M1 M2].
    rewrite set_msr_bitmap_bits by done.
    assert (q = msr ↔ msr_slot q = msr_slot msr) as Hinj.
    { split; [by intros ->|]. intros E. clear - Hm Hq E. unfold low_msr, high_msr in *.
      destruct Hm as [Hm|Hm], Hq as [Hq|Hq];
        rewrite ?(msr_slot_low msr), ?(msr_slot_high msr), ?(msr_slot_low q), ?(msr_slot_high q) in E by done;
        injection E as E1 E2; mlia. }
    destruct (msr_slot q) as [q1 q2], (msr_slot msr) as [m1 m2]. cbn [fst snd] in *.
    destruct (decide (q = msr)) as [E|E].
    + apply Hinj in E. injection E as -> ->.
      destruct write, (covers is_rd_wt true), (covers is_rd_wt false); case_decide; try done; naive_solver lia.
    + rewrite decide_False; [done|]. intros [-> H]. apply E, Hinj. f_equal. destruct write; naive_solver lia.
  - rewrite decide_False by (intros ->; by apply Hq). unfold msr_exits.
    by rewrite !decide_False by naive_solver.
Qed.

(** C35: whatever the index of the register, [set_msr_bitmap] writes inside of the
    page of the bitmap only. *)
Theorem set_msr_bitmap_bounds m msr_bitmap msr set is_rd_wt x :
  (x < msr_bitmap ∨ msr_bitmap + PAGE_SIZE <= x) →
  rd8 (set_msr_bitmap m msr_bitmap msr set is_rd_wt) x = rd8 m x.
Proof.
  intros Hx. destruct (msr_slot_range msr) as [M1 M2]. pose proof (rd8_range m x) as Hr.
  pose proof (rd8_range (set_msr_bitmap m msr_bitmap msr set is_rd_wt) x) as Hr'.
  apply Z.bits_inj'. intros i Hi. destruct (decide (i < 8)).
  - rewrite set_msr_bitmap_bits by lia. rewrite decide_False; [done|]. intros [_ [[-> _]|[-> _]]]; lia.
  - rewrite <- (wrap_small 8 (rd8 m x)), <- (wrap_small 8 (rd8 (set_msr_bitmap _ _ _ _ _) x)) by lia.
    rewrite !testbit_wrap by lia. by rewrite (proj2 (Z.ltb_ge i 8)) by lia.
Qed.

(** The routine for the reads of low registers is a case of it. *)
Lemma set_rdmsr_low_is_read m msr_bitmap msr set :
  low_msr msr → set_rdmsr_low_msr_bitmap m msr_bitmap msr set = set_msr_bitmap m msr_bitmap msr set MSR_READ.
Proof.
  intros Hm. pose proof (msr_slot_low msr Hm) as E. unfold msr_slot in E.
  unfold set_msr_bitmap, set_rdmsr_low_msr_bitmap. cbn [Z.eqb orb].
  injection E as E1 E2. rewrite <- E1 at 1. rewrite <- E2. by destruct (has _ _); rewrite ?Z.add_0_r.
Qed.

(** ** Fields of the VMCS and bits of the controls *)

Definition VPID : Z := 0x0000.
Definition GUEST_SEL_ES : Z := 0x0800.
Definition GUEST_SEL_CS : Z := 0x0802.
Definition GUEST_SEL_SS : Z := 0x0804.
Definition GUEST_SEL_DS : Z := 0x0806.
Definition GUEST_SEL_FS : Z := 0x0808.
Definition GUEST_SEL_GS : Z := 0x080a.
Definition GUEST_SEL_LDTR : Z := 0x080c.
Definition GUEST_SEL_TR : Z := 0x080e.
Definition HOST_SEL_ES : Z := 0x0c00.
Definition HOST_SEL_CS : Z := 0x0c02.
Definition HOST_SEL_SS : Z := 0x0c04.
Definition HOST_SEL_DS : Z := 0x0c06.
Definition HOST_SEL_FS : Z := 0x0c08.
Definition HOST_SEL_GS : Z := 0x0c0a.
Definition HOST_SEL_TR : Z := 0x0c0c.
Definition EPTP : Z := 0x201a.
Definition VMCS_LINK_PTR : Z := 0x2800.
Definition VMCS_LINK_PTR_HI : Z := 0x2801.
Definition GUEST_EFER : Z := 0x2806.
Definition HOST_EFER : Z := 0x2c02.
Definition PIN_CONTROLS : Z := 0x4000.
Definition CPU_EXEC_CTRL0 : Z := 0x4002.
Definition PF_ERROR_MASK : Z := 0x4006.
Definition PF_ERROR_MATCH : Z := 0x4008.
Definition CR3_TARGET_COUNT : Z := 0x400a.
Definition EXI_CONTROLS : Z := 0x400c.
Definition ENT_CONTROLS : Z := 0x4012.
Definition CPU_EXEC_CTRL1 : Z := 0x401e.
Definition EXI_REASON : Z := 0x4402.
Definition EXI_INST_LEN : Z := 0x440c.
Definition GUEST_LIMIT_ES : Z := 0x4800.
Definition GUEST_LIMIT_CS : Z := 0x4802.
Definition GUEST_LIMIT_SS : Z := 0x4804.
Definition GUEST_LIMIT_DS : Z := 0x4806.
Definition GUEST_LIMIT_FS : Z := 0x4808.
Definition GUEST_LIMIT_GS : Z := 0x480a.
Definition GUEST_LIMIT_LDTR : Z := 0x480c.
Definition GUEST_LIMIT_TR : Z := 0x480e.
Definition GUEST_LIMIT_GDTR : Z := 0x4810.
Definition GUEST_LIMIT_IDTR : Z := 0x4812.
Definition GUEST_AR_ES : Z := 0x4814.
Definition GUEST_AR_CS : Z := 0x4816.
Definition GUEST_AR_SS : Z := 0x4818.
Definition GUEST_AR_DS : Z := 0x481a.
Definition GUEST_AR_FS : Z := 0x481c.
Definition GUEST_AR_GS : Z := 0x481e.
Definition GUEST_AR_LDTR : Z := 0x4820.
Definition GUEST_AR_TR : Z := 0x4822.
Definition GUEST_INTR_STATE : Z := 0x4824.
Definition GUEST_ACTV_STATE : Z := 0x4826.
Definition GUEST_SYSENTER_CS : Z := 0x482a.
Definition HOST_SYSENTER_CS : Z := 0x4c00.
Definition EXI_QUALIFICATION : Z := 0x6400.
Definition GUEST_CR0 : Z := 0x6800.
Definition GUEST_CR3 : Z := 0x6802.
Definition GUEST_CR4 : Z := 0x6804.
Definition GUEST_BASE_ES : Z := 0x6806.
Definition GUEST_BASE_CS : Z := 0x6808.
Definition GUEST_BASE_SS : Z := 0x680a.
Definition GUEST_BASE_DS : Z := 0x680c.
Definition GUEST_BASE_FS : Z := 0x680e.
Definition GUEST_BASE_GS : Z := 0x6810.
Definition GUEST_BASE_LDTR : Z := 0x6812.
Definition GUEST_BASE_TR : Z := 0x6814.
Definition GUEST_BASE_GDTR : Z := 0x6816.
Definition GUEST_BASE_IDTR : Z := 0x6818.
Definition GUEST_DR7 : Z := 0x681a.
Definition GUEST_RSP : Z := 0x681c.
Definition GUEST_RIP : Z := 0x681e.
Definition GUEST_RFLAGS : Z := 0x6820.
Definition GUEST_SYSENTER_ESP : Z := 0x6824.
Definition GUEST_SYSENTER_EIP : Z := 0x6826.
Definition HOST_CR0 : Z := 0x6c00.
Definition HOST_CR3 : Z := 0x6c02.
Definition HOST_CR4 : Z := 0x6c04.
Definition HOST_BASE_FS : Z := 0x6c06.
Definition HOST_BASE_GS : Z := 0x6c08.
Definition HOST_BASE_TR : Z := 0x6c0a.
Definition HOST_BASE_GDTR : Z := 0x6c0c.
Definition HOST_BASE_IDTR : Z := 0x6c0e.
Definition HOST_SYSENTER_EIP : Z := 0x6c12.
Definition HOST_RSP : Z := 0x6c14.
Definition HOST_RIP : Z := 0x6c16.

Definition PIN_EXTINT : Z := Z.shiftl 1 0.
Definition PIN_NMI : Z := Z.shiftl 1 3.
Definition PIN_VIRT_NMI : Z := Z.shiftl 1 5.
Definition CPU_INVLPG : Z := Z.shiftl 1 9.
Definition CPU_MWAIT : Z := Z.shiftl 1 10.
Definition CPU_RDPMC : Z := Z.shiftl 1 11.
Definition CPU_CR3_LOAD : Z := Z.shiftl 1 15.
Definition CPU_CR3_STORE : Z := Z.shiftl 1 16.
Definition CPU_CR8_LOAD : Z := Z.shiftl 1 19.
Definition CPU_CR8_STORE : Z := Z.shiftl 1 20.
Definition CPU_IO : Z := Z.shiftl 1 24.
Definition CPU_IO_BITMAP : Z := Z.shiftl 1 25.
Definition CPU_MSR_BITMAP : Z := Z.shiftl 1 28.
Definition CPU_MONITOR : Z := Z.shiftl 1 29.
Definition CPU_SECONDARY : Z := Z.shiftl 1 31.
Definition CPU_EPT : Z := Z.shiftl 1 1.
Definition CPU_RDTSCP : Z := Z.shiftl 1 3.
Definition CPU_VPID : Z := Z.shiftl 1 5.
Definition CPU_WBINVD : Z := Z.shiftl 1 6.
Definition CPU_URG : Z := Z.shiftl 1 7.
Definition CPU_XSAVES_XRSTORS : Z := Z.shiftl 1 20.
Definition EXI_HOST_64 : Z := Z.shiftl 1 9.
Definition EXI_LOAD_EFER : Z := Z.shiftl 1 21.
Definition ENT_GUEST_64 : Z := Z.shiftl 1 9.
Definition ENT_LOAD_EFER : Z := Z.shiftl 1 15.

(** ** The processor *)

Class VmxCpu (C : Type) := {
  vmcs_read : Z → prog C Z;
  vmcs_write : Z → Z → prog C unit;
  rdmsr : Z → prog C Z;
  read_cr0 : prog C Z;
  read_cr3 : prog C Z;
  read_cr4 : prog C Z;
  write_cr0 : Z → prog C unit;
  write_cr4 : Z → prog C unit;
  (* true is a failure of the instruction *)
  vmcs_clear : Z → prog C bool;
  make_vmcs_current : Z → prog C bool;
}.

(** The capabilities: [set] is the low half of the register, [clr] the high half. *)
Definition rev_set (val : Z) : Z := u32 val.
Definition rev_clr (val : Z) : Z := u32 (Z.shiftr val 32).

Record caps := Caps { basic : Z; ctrl_pin_rev : Z; ctrl_cpu_rev0 : Z; ctrl_cpu_rev1 : Z;
  ctrl_exit_rev : Z; ctrl_enter_rev : Z; ept_vpid : Z }.

(** [basic.revision] and [basic.ctrl] *)
Definition basic_revision (val : Z) : Z := u32 val.
Definition basic_ctrl (val : Z) : bool := Z.testbit val 55.

Record ctrls := Ctrls { ctrl_pin : Z; ctrl_enter : Z; ctrl_exit : Z; ctrl_cpu0 : Z; ctrl_cpu1 : Z }.

(** [struct st_vcpu], what the tables need of it. *)
Record vcpu := Vcpu { pml4 : Z; eptp : Z; vpid : Z }.

(** The addresses and descriptor tables the linker and lib/x86/desc.c give. *)
Record image := Image { tss_base : Z; tss_limit : Z; gdt_base : Z; gdt_limit : Z; idt_base : Z;
  idt_limit : Z; entry_sysenter : Z; vmx_return : Z; guest_entry : Z }.

Definition MSR_EFER : Z := 0xc0000080.
Definition MSR_IA32_VMX_BASIC : Z := 0x480.
Definition MSR_IA32_VMX_PINBASED_CTLS : Z := 0x481.
Definition MSR_IA32_VMX_PROCBASED_CTLS : Z := 0x482.
Definition MSR_IA32_VMX_EXIT_CTLS : Z := 0x483.
Definition MSR_IA32_VMX_ENTRY_CTLS : Z := 0x484.
Definition MSR_IA32_VMX_CR0_FIXED0 : Z := 0x486.
Definition MSR_IA32_VMX_CR0_FIXED1 : Z := 0x487.
Definition MSR_IA32_VMX_CR4_FIXED0 : Z := 0x488.
Definition MSR_IA32_VMX_CR4_FIXED1 : Z := 0x489.
Definition MSR_IA32_VMX_PROCBASED_CTLS2 : Z := 0x48b.
Definition MSR_IA32_VMX_EPT_VPID_CAP : Z := 0x48c.
Definition MSR_IA32_VMX_TRUE_PIN : Z := 0x48d.
Definition MSR_IA32_VMX_TRUE_PROC : Z := 0x48e.
Definition MSR_IA32_VMX_TRUE_EXIT : Z := 0x48f.
Definition MSR_IA32_VMX_TRUE_ENTRY : Z := 0x490.
Definition X86_CR4_PAE : Z := 0x20.
Definition X86_CR4_VMXE : Z := 0x2000.
Definition X86_CR4_PCIDE : Z := 0x20000.
Definition KERNEL_CS : Z := 0x08.
Definition KERNEL_DS : Z := 0x10.
Definition TSS_MAIN : Z := 0x80.
Definition ACTV_ACTIVE : Z := 0.
Definition EPTP_PG_WALK_LEN_SHIFT : Z := 3.
Definition EPT_MAPING_SIZE_4G : Z := Z.shiftl 1 32.
Definition VMX_TEST_START : Z := 0.
Definition CPU_BP_ID : Z := 0.

(** ** The execution controls of a test: hsi_virtual_spec.c *)

Section Controls.
Context {C : Type} {hw : VmxCpu C}.

Definition check_vmx_ctrl (msr ctrl_req : Z) : prog C Z :=
  vmx_msr ← rdmsr msr;
  let vmx_msr_low := u32 vmx_msr in
  let vmx_msr_high := u32 (Z.shiftr vmx_msr 32) in
  mret (Z.lor (Z.land ctrl_req vmx_msr_high) vmx_msr_low).

Definition vm_exec_ctrl_init : prog C unit :=
  ctrl_pin ← vmcs_read PIN_CONTROLS;
  vmcs_write PIN_CONTROLS
    (Z.land (u32 ctrl_pin) (Z.lnot (Z.lor (Z.lor PIN_EXTINT PIN_NMI) PIN_VIRT_NMI)));;
  value32 ← check_vmx_ctrl MSR_IA32_VMX_PROCBASED_CTLS
    (Z.lor (Z.lor (Z.lor CPU_RDTSCP CPU_IO_BITMAP) CPU_MSR_BITMAP) CPU_SECONDARY);
  let value32 := Z.land value32 (Z.lnot (Z.lor CPU_CR3_LOAD CPU_CR3_STORE)) in
  let value32 := Z.land value32 (Z.lnot (Z.lor CPU_CR8_LOAD CPU_CR8_STORE)) in
  let value32 := Z.land value32 (Z.lnot CPU_INVLPG) in
  let value32 := Z.lor value32 CPU_RDPMC in
  let value32 := Z.lor value32 CPU_MWAIT in
  let value32 := Z.lor value32 CPU_MONITOR in
  vmcs_write CPU_EXEC_CTRL0 value32;;
  value32 ← vmcs_read CPU_EXEC_CTRL1;
  let value32 := Z.land (u32 value32) (Z.lnot CPU_XSAVES_XRSTORS) in
  let value32 := Z.lor value32
    (Z.lor (Z.lor (Z.lor (Z.lor CPU_WBINVD CPU_RDTSCP) CPU_EPT) CPU_VPID) CPU_URG) in
  vmcs_write CPU_EXEC_CTRL1 value32.

Definition exec_vmwrite32_bit (field bitmap is_bit_set : Z) : prog C unit :=
  vm_exec_ctrl_init;;
  value ← vmcs_read field;
  vmcs_write field
    (if is_bit_set =? BIT_TYPE_SET then Z.lor (u32 value) bitmap
     else Z.land (u32 value) (Z.lnot bitmap)).
End Controls.

(** ** The initialisation: hsi_virtual_spec.c *)

Section Init.
Context {M C : Type} {ops : PageAlloc M} {hw : VmxCpu C}.

Record vmx := Vmx { mm : M; cpu : C; vcaps : caps; vctrls : ctrls; vpid_cnt : Z; vmxon_region : Z;
  guest_stack : Z; guest_syscall_stack : Z; vcpu_bp : vcpu }.

Definition set_mm (m : M) (s : vmx) : vmx := Vmx m (cpu s) (vcaps s) (vctrls s) (vpid_cnt s)
  (vmxon_region s) (guest_stack s) (guest_syscall_stack s) (vcpu_bp s).
Definition set_cpu (c : C) (s : vmx) : vmx := Vmx (mm s) c (vcaps s) (vctrls s) (vpid_cnt s)
  (vmxon_region s) (guest_stack s) (guest_syscall_stack s) (vcpu_bp s).
Definition set_caps (k : caps) (s : vmx) : vmx := Vmx (mm s) (cpu s) k (vctrls s) (vpid_cnt s)
  (vmxon_region s) (guest_stack s) (guest_syscall_stack s) (vcpu_bp s).
Definition set_ctrls (k : ctrls) (s : vmx) : vmx := Vmx (mm s) (cpu s) (vcaps s) k (vpid_cnt s)
  (vmxon_region s) (guest_stack s) (guest_syscall_stack s) (vcpu_bp s).
Definition set_vpid_cnt (n : Z) (s : vmx) : vmx := Vmx (mm s) (cpu s) (vcaps s) (vctrls s) n
  (vmxon_region s) (guest_stack s) (guest_syscall_stack s) (vcpu_bp s).
Definition set_vmxon_region (p : Z) (s : vmx) : vmx := Vmx (mm s) (cpu s) (vcaps s) (vctrls s)
  (vpid_cnt s) p (guest_stack s) (guest_syscall_stack s) (vcpu_bp s).
Definition set_stacks (p q : Z) (s : vmx) : vmx := Vmx (mm s) (cpu s) (vcaps s) (vctrls s)
  (vpid_cnt s) (vmxon_region s) p q (vcpu_bp s).
Definition set_vcpu (v : vcpu) (s : vmx) : vmx := Vmx (mm s) (cpu s) (vcaps s) (vctrls s)
  (vpid_cnt s) (vmxon_region s) (guest_stack s) (guest_syscall_stack s) v.

Definition on_mem {A} (m : prog M A) : prog vmx A := zoom mm set_mm m.
Definition on_cpu {A} (m : prog C A) : prog vmx A := zoom cpu set_cpu m.
Definition vmw (f v : Z) : prog vmx unit := on_cpu (vmcs_write f v).

(** [p = alloc_page(); memset(p, 0, PAGE_SIZE);] *)
Definition new_page : prog vmx Z :=
  p ← on_mem pg_alloc_page;
  on_mem (zero_page p);;
  mret p.

Definition init_vmx : prog vmx unit :=
  p ← new_page;
  modify (set_vmxon_region p);;
  fix_cr0_set ← on_cpu (rdmsr MSR_IA32_VMX_CR0_FIXED0);
  fix_cr0_clr ← on_cpu (rdmsr MSR_IA32_VMX_CR0_FIXED1);
  fix_cr4_set ← on_cpu (rdmsr MSR_IA32_VMX_CR4_FIXED0);
  fix_cr4_clr ← on_cpu (rdmsr MSR_IA32_VMX_CR4_FIXED1);
  basic ← on_cpu (rdmsr MSR_IA32_VMX_BASIC);
  let true_ctls (t f : Z) := if basic_ctrl basic then t else f in
  pin ← on_cpu (rdmsr (true_ctls MSR_IA32_VMX_TRUE_PIN MSR_IA32_VMX_PINBASED_CTLS));
  exi ← on_cpu (rdmsr (true_ctls MSR_IA32_VMX_TRUE_EXIT MSR_IA32_VMX_EXIT_CTLS));
  ent ← on_cpu (rdmsr (true_ctls MSR_IA32_VMX_TRUE_ENTRY MSR_IA32_VMX_ENTRY_CTLS));
  cpu0 ← on_cpu (rdmsr (true_ctls MSR_IA32_VMX_TRUE_PROC MSR_IA32_VMX_PROCBASED_CTLS));
  cpu1 ← (if negb (Z.land (rev_clr cpu0) CPU_SECONDARY =? 0)
    then on_cpu (rdmsr MSR_IA32_VMX_PROCBASED_CTLS2) else mret 0);
  ev ← (if negb (Z.land (rev_clr cpu1) (Z.lor CPU_EPT CPU_VPID) =? 0)
    then on_cpu (rdmsr MSR_IA32_VMX_EPT_VPID_CAP) else mret 0);
  modify (set_caps (Caps basic pin cpu0 cpu1 exi ent ev));;
  c0 ← on_cpu read_cr0;
  on_cpu (write_cr0 (Z.lor (Z.land c0 fix_cr0_clr) fix_cr0_set));;
  c4 ← on_cpu read_cr4;
  on_cpu (write_cr4 (Z.lor (Z.lor (Z.land c4 fix_cr4_clr) fix_cr4_set) X86_CR4_VMXE));;
  on_mem (store64 p (basic_revision basic));;
  q ← new_page;
  r ← new_page;
  modify (set_stacks q r).

Context (img : image).

Definition init_vmcs_ctrl : prog vmx unit :=
  k ← gets vctrls;
  vmw PIN_CONTROLS (ctrl_pin k);;
  vmw CPU_EXEC_CTRL0 (ctrl_cpu0 k);;
  rev ← gets vcaps;
  (if negb (Z.land (rev_set (ctrl_cpu_rev0 rev)) CPU_SECONDARY =? 0) then
     let cpu1 := Z.land (Z.lor (ctrl_cpu1 k) (rev_set (ctrl_cpu_rev1 rev))) (rev_clr (ctrl_cpu_rev1 rev)) in
     modify (set_ctrls (Ctrls (ctrl_pin k) (ctrl_enter k) (ctrl_exit k) (ctrl_cpu0 k) cpu1));;
     vmw CPU_EXEC_CTRL1 cpu1
   else mret ());;
  vmw CR3_TARGET_COUNT 0;;
  modify (λ s, set_vpid_cnt (u32 (vpid_cnt s + 1)) s);;
  n ← gets vpid_cnt;
  vmw VPID n.

Definition init_vmcs_host : prog vmx unit :=
  efer ← on_cpu (rdmsr MSR_EFER);
  vmw HOST_EFER efer;;
  k ← gets vctrls;
  vmw ENT_CONTROLS (ctrl_enter k);;
  vmw EXI_CONTROLS (ctrl_exit k);;
  c0 ← on_cpu read_cr0;
  vmw HOST_CR0 c0;;
  c3 ← on_cpu read_cr3;
  vmw HOST_CR3 c3;;
  c4 ← on_cpu read_cr4;
  vmw HOST_CR4 c4;;
  vmw HOST_SYSENTER_EIP (entry_sysenter img);;
  vmw HOST_SYSENTER_CS KERNEL_CS;;
  vmw HOST_SEL_CS KERNEL_CS;;
  vmw HOST_SEL_SS KERNEL_DS;;
  vmw HOST_SEL_DS KERNEL_DS;;
  vmw HOST_SEL_ES KERNEL_DS;;
  vmw HOST_SEL_FS KERNEL_DS;;
  vmw HOST_SEL_GS KERNEL_DS;;
  vmw HOST_SEL_TR TSS_MAIN;;
  vmw HOST_BASE_TR (tss_base img);;
  vmw HOST_BASE_GDTR (gdt_base img);;
  vmw HOST_BASE_IDTR (idt_base img);;
  vmw HOST_BASE_FS 0;;
  vmw HOST_BASE_GS 0;;
  vmw PF_ERROR_MASK 0;;
  vmw PF_ERROR_MATCH 0;;
  vmw VMCS_LINK_PTR (2 ^ 64 - 1);;
  vmw VMCS_LINK_PTR_HI (2 ^ 64 - 1);;
  vmw HOST_RIP (vmx_return img).

(** The control registers the guest starts with. *)
Definition guest_crs (enter c0 c4 : Z) : Z * Z :=
  let guest64 := negb (Z.land enter ENT_GUEST_64 =? 0) in
  let guest_cr0 := if guest64 then Z.lor c0 X86_CR0_PG else c0 in
  let guest_cr4 := if guest64 then Z.lor c4 X86_CR4_PAE else c4 in
  let guest_cr4 := if negb guest64 then Z.land guest_cr4 (not64 X86_CR4_PCIDE) else guest_cr4 in
  let guest_cr0 :=
    if negb (Z.land guest_cr0 X86_CR0_PG =? 0) then Z.lor guest_cr0 X86_CR0_PE else guest_cr0 in
  (guest_cr0, guest_cr4).

Definition init_vmcs_guest : prog vmx unit :=
  c0 ← on_cpu read_cr0;
  c4 ← on_cpu read_cr4;
  guest_cr3 ← on_cpu read_cr3;
  k ← gets vctrls;
  let crs := guest_crs (ctrl_enter k) c0 c4 in
  vmw GUEST_CR0 crs.1;;
  vmw GUEST_CR3 guest_cr3;;
  vmw GUEST_CR4 crs.2;;
  vmw GUEST_SYSENTER_CS KERNEL_CS;;
  syscall_stack ← gets guest_syscall_stack;
  vmw GUEST_SYSENTER_ESP (u64 (syscall_stack + PAGE_SIZE - 1));;
  vmw GUEST_SYSENTER_EIP (entry_sysenter img);;
  vmw GUEST_DR7 0;;
  efer ← on_cpu (rdmsr MSR_EFER);
  vmw GUEST_EFER efer;;
  vmw GUEST_SEL_CS KERNEL_CS;;
  vmw GUEST_SEL_SS KERNEL_DS;;
  vmw GUEST_SEL_DS KERNEL_DS;;
  vmw GUEST_SEL_ES KERNEL_DS;;
  vmw GUEST_SEL_FS KERNEL_DS;;
  vmw GUEST_SEL_GS KERNEL_DS;;
  vmw GUEST_SEL_TR TSS_MAIN;;
  vmw GUEST_SEL_LDTR 0;;
  vmw GUEST_BASE_CS 0;;
  vmw GUEST_BASE_ES 0;;
  vmw GUEST_BASE_SS 0;;
  vmw GUEST_BASE_DS 0;;
  vmw GUEST_BASE_FS 0;;
  vmw GUEST_BASE_GS 0;;
  vmw GUEST_BASE_TR (tss_base img);;
  vmw GUEST_BASE_LDTR 0;;
  vmw GUEST_LIMIT_CS 0xFFFFFFFF;;
  vmw GUEST_LIMIT_DS 0xFFFFFFFF;;
  vmw GUEST_LIMIT_ES 0xFFFFFFFF;;
  vmw GUEST_LIMIT_SS 0xFFFFFFFF;;
  vmw GUEST_LIMIT_FS 0xFFFFFFFF;;
  vmw GUEST_LIMIT_GS 0xFFFFFFFF;;
  vmw GUEST_LIMIT_LDTR 0xffff;;
  vmw GUEST_LIMIT_TR (tss_limit img);;
  vmw GUEST_AR_CS 0xa09b;;
  vmw GUEST_AR_DS 0xc093;;
  vmw GUEST_AR_ES 0xc093;;
  vmw GUEST_AR_FS 0xc093;;
  vmw GUEST_AR_GS 0xc093;;
  vmw GUEST_AR_SS 0xc093;;
  vmw GUEST_AR_LDTR 0x82;;
  vmw GUEST_AR_TR 0x8b;;
  vmw GUEST_BASE_GDTR (gdt_base img);;
  vmw GUEST_BASE_IDTR (idt_base img);;
  vmw GUEST_LIMIT_GDTR (gdt_limit img);;
  vmw GUEST_LIMIT_IDTR (idt_limit img);;
  vmw GUEST_RIP (guest_entry img);;
  stack ← gets guest_stack;
  vmw GUEST_RSP (u64 (stack + PAGE_SIZE - 1));;
  vmw GUEST_RFLAGS 0x2;;
  vmw GUEST_ACTV_STATE ACTV_ACTIVE;;
  vmw GUEST_INTR_STATE 0.

(** [(ctrl | rev.set) & rev.clr] *)
Definition adjust (ctrl rev : Z) : Z := Z.land (Z.lor ctrl (rev_set rev)) (rev_clr rev).

(** The controls of [init_vmcs], from those of the last test. *)
Definition init_ctrls (rev : caps) (k : ctrls) : ctrls :=
  Ctrls (adjust (Z.lor (ctrl_pin k) (Z.lor (Z.lor PIN_EXTINT PIN_NMI) PIN_VIRT_NMI)) (ctrl_pin_rev rev))
    (adjust (Z.lor ENT_LOAD_EFER ENT_GUEST_64) (ctrl_enter_rev rev))
    (adjust (Z.lor EXI_LOAD_EFER EXI_HOST_64) (ctrl_exit_rev rev))
    (adjust (Z.land (ctrl_cpu0 k) (Z.lnot (Z.lor CPU_IO CPU_IO_BITMAP))) (ctrl_cpu_rev0 rev))
    0.

(** The VMCS and 0, or 1 when an instruction fails. *)
Definition init_vmcs : prog vmx (Z * Z) :=
  vmcs ← new_page;
  rev ← gets vcaps;
  m ← gets (λ s, pg_mem (mm s));
  on_mem (modify (λ m', pg_set_mem (st32 (pg_mem m') vmcs
    (Z.lor (Z.land (ld32 m vmcs) 0x80000000) (Z.land (basic_revision (basic rev)) 0x7fffffff))) m'));;
  failed ← on_cpu (vmcs_clear vmcs);
  if (failed : bool) then mret (vmcs, 1) else
  failed ← on_cpu (make_vmcs_current vmcs);
  if (failed : bool) then mret (vmcs, 1) else
  modify (λ s, set_ctrls (init_ctrls (vcaps s) (vctrls s)) s);;
  init_vmcs_ctrl;;
  init_vmcs_host;;
  init_vmcs_guest;;
  mret (vmcs, 0).

(** 0 *)
Definition setup_ept : prog vmx Z :=
  pml4 ← on_mem pg_alloc_page;
  modify (λ s, set_vcpu (Vcpu pml4 (eptp (vcpu_bp s)) (vpid (vcpu_bp s))) s);;
  on_mem (zero_page pml4);;
  let eptp := Z.lor pml4 EPT_MEM_TYPE_WB in
  c0 ← on_cpu (vmcs_read CPU_EXEC_CTRL0);
  c1 ← on_cpu (vmcs_read CPU_EXEC_CTRL1);
  rev ← gets vcaps;
  vmw CPU_EXEC_CTRL0 (Z.land (Z.lor (u32 c0) CPU_SECONDARY) (rev_clr (ctrl_cpu_rev0 rev)));;
  vmw CPU_EXEC_CTRL1 (Z.land (Z.lor (u32 c1) CPU_EPT) (rev_clr (ctrl_cpu_rev1 rev)));;
  let eptp := Z.lor eptp (Z.shiftl 3 EPTP_PG_WALK_LEN_SHIFT) in
  vmw EPTP eptp;;
  modify (λ s, set_vcpu (Vcpu pml4 eptp (vpid (vcpu_bp s))) s);;
  on_mem (setup_ept_range pml4 0 EPT_MAPING_SIZE_4G
    (Z.lor (Z.lor (Z.lor EPT_WA EPT_RA) EPT_EA) (Z.shiftl EPT_MEM_TYPE_WB 3)));;
  mret 0.

Definition vm_exec_init : prog vmx Z :=
  setup_ept;;
  on_cpu (exec_vmwrite32_bit CPU_EXEC_CTRL1 CPU_VPID BIT_TYPE_SET);;
  modify (λ s, set_vcpu (Vcpu (pml4 (vcpu_bp s)) (eptp (vcpu_bp s)) (CPU_BP_ID + 1)) s);;
  v ← gets vcpu_bp;
  vmw VPID (vpid v);;
  mret VMX_TEST_START.
End Init.
Arguments vmx : clear implicits.

(** ** What the instructions do *)

(** Bits 14:13 of an encoding give the width of the field. *)
Definition field_width (f : Z) : Z :=
  match Z.land (Z.shiftr f 13) 3 with 0 => 16 | 2 => 32 | _ => 64 end.

(** Writing a field; an odd encoding is the high half of the 64-bit field before it. *)
Definition vm_set (f v : Z) (m : Z → Z) (g : Z) : Z :=
  if Z.odd f then if g =? f - 1 then Z.lor (Z.shiftl (u32 v) 32) (u32 (m g)) else m g
  else if g =? f then wrap (field_width f) v else m g.

(** Bits 11:10 of an encoding: 1 is a field that is only read.  Only fields of 64
    bits have an odd encoding. *)
Definition vm_writable (f : Z) : bool :=
  negb (Z.land (Z.shiftr f 10) 3 =? 1) && (negb (Z.odd f) || (field_width f =? 64)).

(** A processor that has the fields the code uses: [vm_field] are the fields of the
    current VMCS, [vm_msr] and [vm_cr] the registers. *)
Class VmxLaws (C : Type) {hw : VmxCpu C} := {
  vm_current : C → Prop;
  vm_field : C → Z → Z;
  vm_msr : C → Z → Z;
  vm_cr : C → Z → Z;
  vmcs_read_wp c f :
    vm_current c → Z.even f = true →
    wp (vmcs_read f) (λ v c', c' = c ∧ v = vm_field c f ∧ 0 <= v < 2 ^ field_width f) c;
  vmcs_write_wp c f v :
    vm_current c → vm_writable f = true → 0 <= v < 2 ^ 64 →
    wp (vmcs_write f v) (λ _ c', vm_current c' ∧ (∀ g, vm_field c' g = vm_set f v (vm_field c) g) ∧
      vm_msr c' = vm_msr c ∧ vm_cr c' = vm_cr c) c;
  rdmsr_wp c n : wp (rdmsr n) (λ v c', c' = c ∧ v = vm_msr c n ∧ 0 <= v < 2 ^ 64) c;
  read_cr0_wp c : wp read_cr0 (λ v c', c' = c ∧ v = vm_cr c 0 ∧ 0 <= v < 2 ^ 64) c;
  read_cr3_wp c : wp read_cr3 (λ v c', c' = c ∧ v = vm_cr c 3 ∧ 0 <= v < 2 ^ 64) c;
  read_cr4_wp c : wp read_cr4 (λ v c', c' = c ∧ v = vm_cr c 4 ∧ 0 <= v < 2 ^ 64) c;
  write_cr0_wp c v : 0 <= v < 2 ^ 64 →
    wp (write_cr0 v) (λ _ c', (∀ n, vm_cr c' n = if n =? 0 then v else vm_cr c n) ∧ vm_msr c' = vm_msr c) c;
  write_cr4_wp c v : 0 <= v < 2 ^ 64 →
    wp (write_cr4 v) (λ _ c', (∀ n, vm_cr c' n = if n =? 4 then v else vm_cr c n) ∧ vm_msr c' = vm_msr c) c;
  vmcs_clear_wp c p : wp (vmcs_clear p) (λ _ c', vm_msr c' = vm_msr c ∧ vm_cr c' = vm_cr c) c;
  make_vmcs_current_wp c p :
    wp (make_vmcs_current p) (λ failed c', (failed = false → vm_current c') ∧
      vm_msr c' = vm_msr c ∧ vm_cr c' = vm_cr c) c;
}.

(** The fields after a list of writes, the last one first. *)
Definition vm_sets (l : list (Z * Z)) (m : Z → Z) (g : Z) : Z :=
  foldr (λ '(f, v) m, vm_set f v m) m l g.

Section Facts.
Context {C : Type} {hw : VmxCpu C} {vl : VmxLaws C}.

(** The writes [l] since [c0]. *)
Definition written (c0 : C) (l : list (Z * Z)) (c : C) : Prop :=
  vm_current c ∧ (∀ g, vm_field c g = vm_sets l (vm_field c0) g) ∧ vm_msr c = vm_msr c0 ∧ vm_cr c = vm_cr c0.

Lemma vm_set_ext f v m m' g : (∀ x, m x = m' x) → vm_set f v m g = vm_set f v m' g.
Proof. intros H. unfold vm_set. by repeat case_match; rewrite ?H. Qed.

Lemma vm_set_other f v m g : Z.odd f = false → g ≠ f → vm_set f v m g = m g.
Proof. intros Ho Hg. unfold vm_set. by rewrite Ho, (proj2 (Z.eqb_neq g f)). Qed.

Lemma write_step c0 l c f v (Q : unit → C → Prop) :
  written c0 l c → vm_writable f = true → 0 <= v < 2 ^ 64 →
  (∀ c', written c0 ((f, v) :: l) c' → Q () c') → wp (vmcs_write f v) Q c.
Proof.
  intros (Hc & Hf & Hm & Hr) Hw Hv HQ. eapply wp_mono; [by apply vmcs_write_wp|].
  intros [] c' (Hc' & Hf' & Hm' & Hr'). apply HQ. split; [done|]. split; [|by split; congruence].
  intros g. rewrite Hf'. cbn. by apply vm_set_ext.
Qed.

Lemma read_step c0 l c f (Q : Z → C → Prop) :
  written c0 l c → Z.even f = true →
  (0 <= vm_sets l (vm_field c0) f < 2 ^ field_width f → Q (vm_sets l (vm_field c0) f) c) →
  wp (vmcs_read f) Q c.
Proof.
  intros (Hc & Hf & _) Hw HQ. eapply wp_mono; [by apply vmcs_read_wp|].
  intros v c' (-> & -> & Hr). rewrite Hf in *. by apply HQ.
Qed.

Lemma written_start c : vm_current c → written c [] c.
Proof. intros H. by repeat split. Qed.
End Facts.

(** The controls [vm_exec_ctrl_init] gives. *)
Definition default_ctrl0 (msr : Z) : Z :=
  let req := Z.lor (Z.lor (Z.lor CPU_RDTSCP CPU_IO_BITMAP) CPU_MSR_BITMAP) CPU_SECONDARY in
  Z.lor (Z.land (Z.lor (Z.land req (u32 (Z.shiftr msr 32))) (u32 msr))
    (Z.lnot (Z.lor (Z.lor (Z.lor CPU_CR3_LOAD CPU_CR3_STORE) (Z.lor CPU_CR8_LOAD CPU_CR8_STORE)) CPU_INVLPG)))
    (Z.lor (Z.lor CPU_RDPMC CPU_MWAIT) CPU_MONITOR).

Definition default_ctrl1 (old : Z) : Z :=
  Z.lor (Z.land old (Z.lnot CPU_XSAVES_XRSTORS))
    (Z.lor (Z.lor (Z.lor (Z.lor CPU_WBINVD CPU_RDTSCP) CPU_EPT) CPU_VPID) CPU_URG).

Definition default_pin (old : Z) : Z :=
  Z.land old (Z.lnot (Z.lor (Z.lor PIN_EXTINT PIN_NMI) PIN_VIRT_NMI)).

Definition with_bit (old bitmap is_bit_set : Z) : Z :=
  if is_bit_set =? BIT_TYPE_SET then Z.lor old bitmap else Z.land old (Z.lnot bitmap).

Section ControlFacts.
Context {C : Type} {hw : VmxCpu C} {vl : VmxLaws C}.

Lemma u32_id x : 0 <= x < 2 ^ 32 → u32 x = x.
Proof. apply wrap_small. Qed.

Lemma land_lnot_range x y w : 0 <= w → 0 <= x < 2 ^ w → 0 <= y → 0 <= Z.land x (Z.lnot y) < 2 ^ w.
Proof.
  intros Hw Hx Hy. rewrite <- (wrap_small w x) by done.
  assert (Z.land (wrap w x) (Z.lnot y) = wrap w (Z.land x (Z.lnot y))) as ->.
  { apply Z.bits_inj'. intros i Hi. rewrite Z.land_spec, !testbit_wrap, Z.land_spec by lia. by rewrite andb_assoc. }
  apply wrap_range. lia.
Qed.

Lemma default_ctrl0_range msr : 0 <= default_ctrl0 msr < 2 ^ 32.
Proof.
  unfold default_ctrl0. cbv zeta. apply lor_range; [|by vm_compute|lia].
  apply land_lnot_range; [lia| |by vm_compute]. apply lor_range; [|by apply wrap_range|lia].
  apply land_range; [by vm_compute| |lia]. by apply wrap_range.
Qed.

Lemma default_ctrl1_range old : 0 <= old < 2 ^ 32 → 0 <= default_ctrl1 old < 2 ^ 32.
Proof.
  intros H. unfold default_ctrl1. apply lor_range; [|by vm_compute|lia]. by apply land_lnot_range.
Qed.

Lemma default_pin_range old : 0 <= old < 2 ^ 32 → 0 <= default_pin old < 2 ^ 32.
Proof. intros H. unfold default_pin. by apply land_lnot_range. Qed.

(** The three fields after the initialisation of the controls, the others as
    before. *)
Definition default_field (c : C) (g : Z) : Z :=
  if g =? PIN_CONTROLS then default_pin (vm_field c PIN_CONTROLS)
  else if g =? CPU_EXEC_CTRL0 then default_ctrl0 (vm_msr c MSR_IA32_VMX_PROCBASED_CTLS)
  else if g =? CPU_EXEC_CTRL1 then default_ctrl1 (vm_field c CPU_EXEC_CTRL1)
  else vm_field c g.

Lemma vm_exec_ctrl_init_wp c :
  vm_current c →
  wp vm_exec_ctrl_init (λ _ c', vm_current c' ∧ (∀ g, vm_field c' g = default_field c g) ∧
    vm_msr c' = vm_msr c ∧ vm_cr c' = vm_cr c) c.
Proof using vl.
  intros Hc. pose proof (written_start c Hc) as Hw. unfold vm_exec_ctrl_init, check_vmx_ctrl. wstep.
  eapply read_step; [exact Hw|done|]. intros Hpin. cbn [vm_sets foldr] in *.
  change (2 ^ field_width PIN_CONTROLS) with (2 ^ 32) in Hpin. wstep.
  rewrite (u32_id _ Hpin). fold (default_pin (vm_field c PIN_CONTROLS)).
  pose proof (default_pin_range _ Hpin).
  eapply write_step; [exact Hw|done|lia|]. clear Hw. intros c1 Hw. wstep. wstep.
  eapply wp_mono; [apply rdmsr_wp|]. intros v c2 (-> & -> & Hv). wstep.
  assert (vm_msr c1 = vm_msr c) as -> by apply Hw. cbv zeta.
  match goal with |- wp (vmcs_write _ ?x;; _) _ _ =>
    replace x with (default_ctrl0 (vm_msr c MSR_IA32_VMX_PROCBASED_CTLS)) end.
  2: { unfold default_ctrl0. cbv zeta. rewrite <- !Z.land_assoc, <- !Z.lor_assoc. reflexivity. }
  pose proof (default_ctrl0_range (vm_msr c MSR_IA32_VMX_PROCBASED_CTLS)). wstep.
  eapply write_step; [exact Hw|done|lia|]. clear Hw. intros c2 Hw. wstep.
  eapply read_step; [exact Hw|done|]. intros H1.
  change (vm_sets _ (vm_field c) CPU_EXEC_CTRL1) with (vm_field c CPU_EXEC_CTRL1) in *.
  change (2 ^ field_width CPU_EXEC_CTRL1) with (2 ^ 32) in H1. rewrite (u32_id _ H1).
  fold (default_ctrl1 (vm_field c CPU_EXEC_CTRL1)). pose proof (default_ctrl1_range _ H1).
  eapply write_step; [exact Hw|done|lia|]. clear Hw. intros c3 (Hc3 & Hf & Hm & Hr).
  split; [done|]. split; [|done]. intros g. rewrite Hf. unfold default_field. cbn [vm_sets foldr].
  unfold vm_set. change (Z.odd CPU_EXEC_CTRL1) with false. change (Z.odd CPU_EXEC_CTRL0) with false.
  change (Z.odd PIN_CONTROLS) with false. cbv iota.
  change (field_width CPU_EXEC_CTRL1) with 32. change (field_width CPU_EXEC_CTRL0) with 32.
  change (field_width PIN_CONTROLS) with 32. rewrite !wrap_small by done.
  destruct (Z.eqb_spec g CPU_EXEC_CTRL1) as [->|]; [done|].
  by destruct (Z.eqb_spec g CPU_EXEC_CTRL0) as [->|].
Qed.

Lemma with_bit_range old bitmap set :
  0 <= old < 2 ^ 32 → 0 <= bitmap < 2 ^ 32 → 0 <= with_bit old bitmap set < 2 ^ 32.
Proof.
  intros H Hb. unfold with_bit. destruct (_ =? _); [by apply lor_range|apply land_lnot_range; lia].
Qed.

Lemma exec_vmwrite32_bit_wp c f bitmap set :
  vm_current c → f ∈ [PIN_CONTROLS; CPU_EXEC_CTRL0; CPU_EXEC_CTRL1; EXI_CONTROLS; ENT_CONTROLS] →
  0 <= bitmap < 2 ^ 32 →
  wp (exec_vmwrite32_bit f bitmap set) (λ _ c', vm_current c' ∧ vm_msr c' = vm_msr c ∧ vm_cr c' = vm_cr c ∧
    ∀ g, vm_field c' g = if g =? f then with_bit (default_field c f) bitmap set else default_field c g) c.
Proof using vl.
  intros Hc Hf Hb. unfold exec_vmwrite32_bit. wstep.
  eapply wp_mono; [by apply vm_exec_ctrl_init_wp|]. intros [] c1 (Hc1 & Hf1 & Hm1 & Hr1). wstep.
  assert (Z.even f = true ∧ vm_writable f = true ∧ Z.odd f = false ∧ field_width f = 32) as (He & Hw & Ho & Hwd).
  { rewrite !elem_of_cons, elem_of_nil in Hf. by destruct_or! Hf; subst. }
  eapply wp_mono; [by apply vmcs_read_wp|]. intros v c2 (-> & -> & Hr). rewrite Hwd in Hr.
  rewrite (u32_id _ Hr). fold (with_bit (vm_field c1 f) bitmap set).
  pose proof (with_bit_range _ bitmap set Hr Hb).
  eapply wp_mono; [apply vmcs_write_wp; [done|done|lia]|]. intros [] c2 (Hc2 & Hf2 & Hm2 & Hr2).
  split; [done|]. split; [congruence|]. split; [congruence|]. intros g. rewrite Hf2. unfold vm_set.
  rewrite Ho, Hwd, wrap_small by done. rewrite <- !Hf1. by destruct (_ =? _).
Qed.

(** A control that one call has set is lost in the next call for another field. *)
Lemma exec_vmwrite32_bit_forgets c bitmap bitmap' set' :
  vm_current c → 0 <= bitmap < 2 ^ 32 → 0 <= bitmap' < 2 ^ 32 →
  wp (exec_vmwrite32_bit CPU_EXEC_CTRL0 bitmap BIT_TYPE_SET;;
      exec_vmwrite32_bit CPU_EXEC_CTRL1 bitmap' set')
    (λ _ c', vm_field c' CPU_EXEC_CTRL0 = default_ctrl0 (vm_msr c MSR_IA32_VMX_PROCBASED_CTLS)) c.
Proof using vl.
  intros Hc Hb Hb'. wstep. eapply wp_mono; [apply exec_vmwrite32_bit_wp; [done|set_solver|done]|].
  intros [] c1 (Hc1 & Hm1 & _). eapply wp_mono; [apply exec_vmwrite32_bit_wp; [done|set_solver|done]|].
  intros [] c2 (_ & _ & _ & Hf2). rewrite Hf2. unfold default_field. cbn. by rewrite Hm1.
Qed.
End ControlFacts.

(** ** A VMCS the processor accepts *)

(** Every bit that has to be 1 is, and no bit that has to be 0. *)
Definition allowed (rev v : Z) : Prop := Z.land v (rev_set rev) = rev_set rev ∧ Z.land v (rev_clr rev) = v.

(** A bit that has to be 1 may be 1. *)
Definition rev_ok (rev : Z) : Prop := Z.land (rev_set rev) (rev_clr rev) = rev_set rev.

Definition caps_ok (k : caps) : Prop :=
  rev_ok (ctrl_pin_rev k) ∧ rev_ok (ctrl_cpu_rev0 k) ∧ rev_ok (ctrl_cpu_rev1 k) ∧
  rev_ok (ctrl_exit_rev k) ∧ rev_ok (ctrl_enter_rev k).

Definition is_u64 (x : Z) : Prop := 0 <= x < 2 ^ 64.

Record image_ok (img : image) : Prop := {
  img_tss : is_u64 (tss_base img) ∧ is_u64 (tss_limit img);
  img_gdt : is_u64 (gdt_base img) ∧ is_u64 (gdt_limit img);
  img_idt : is_u64 (idt_base img) ∧ is_u64 (idt_limit img);
  img_code : is_u64 (entry_sysenter img) ∧ is_u64 (vmx_return img) ∧ is_u64 (guest_entry img);
}.

(** The checks of the controls, the host state and the guest state on the fields
    [F]; [msr] and [cr] are the registers of the host. *)
Record vmcs_ready (k : caps) (img : image) (stack n : Z) (msr cr F : Z → Z) : Prop := {
  rdy_pin : allowed (ctrl_pin_rev k) (F PIN_CONTROLS);
  rdy_cpu0 : allowed (ctrl_cpu_rev0 k) (F CPU_EXEC_CTRL0);
  rdy_cpu1 : has (rev_set (ctrl_cpu_rev0 k)) CPU_SECONDARY = true →
    allowed (ctrl_cpu_rev1 k) (F CPU_EXEC_CTRL1);
  rdy_exit : allowed (ctrl_exit_rev k) (F EXI_CONTROLS);
  rdy_entry : allowed (ctrl_enter_rev k) (F ENT_CONTROLS);
  rdy_misc : F CR3_TARGET_COUNT = 0 ∧ F VPID = u16 n ∧ F VMCS_LINK_PTR = 2 ^ 64 - 1;
  rdy_host : F HOST_CR0 = cr 0 ∧ F HOST_CR3 = cr 3 ∧ F HOST_CR4 = cr 4 ∧ F HOST_EFER = msr MSR_EFER ∧
    F HOST_RIP = vmx_return img ∧ F HOST_SEL_CS = KERNEL_CS ∧ F HOST_SEL_SS = KERNEL_DS ∧
    F HOST_SEL_TR = TSS_MAIN;
  rdy_guest64 : has (F ENT_CONTROLS) ENT_GUEST_64 = true →
    has (F GUEST_CR0) X86_CR0_PG = true ∧ has (F GUEST_CR4) X86_CR4_PAE = true;
  rdy_paging : has (F GUEST_CR0) X86_CR0_PG = true → has (F GUEST_CR0) X86_CR0_PE = true;
  rdy_guest : F GUEST_CR3 = cr 3 ∧ F GUEST_EFER = msr MSR_EFER ∧ F GUEST_RIP = guest_entry img ∧
    F GUEST_RSP = u64 (stack + PAGE_SIZE - 1) ∧ F GUEST_RFLAGS = 2 ∧
    F GUEST_ACTV_STATE = ACTV_ACTIVE ∧ F GUEST_INTR_STATE = 0;
  rdy_segments : F GUEST_SEL_CS = KERNEL_CS ∧ F GUEST_AR_CS = 0xa09b ∧ F GUEST_AR_SS = 0xc093 ∧
    F GUEST_SEL_TR = TSS_MAIN ∧ F GUEST_AR_TR = 0x8b ∧ F GUEST_AR_LDTR = 0x82 ∧
    F GUEST_BASE_TR = tss_base img ∧ F GUEST_BASE_GDTR = gdt_base img ∧ F GUEST_BASE_IDTR = idt_base img;
}.

Lemma adjust_allowed x rev : rev_ok rev → allowed rev (adjust x rev).
Proof.
  intros H. unfold allowed, adjust, rev_ok in *. split.
  - rewrite <- Z.land_assoc, (Z.land_comm (rev_clr rev)), H, Z.land_lor_distr_l, Z.land_diag.
    rewrite <- H at 3. apply Z.bits_inj'. intros i Hi. rewrite H, Z.lor_spec, Z.land_spec.
    by destruct (Z.testbit (rev_set rev) i), (Z.testbit x i).
  - by rewrite <- Z.land_assoc, Z.land_diag.
Qed.

Lemma adjust_range x rev : 0 <= x < 2 ^ 32 → 0 <= adjust x rev < 2 ^ 32.
Proof.
  intros H. unfold adjust. apply land_range; [|by apply wrap_range|lia].
  apply lor_range; [done|by apply wrap_range|lia].
Qed.

(** The controls a test leaves in the globals are 32 bits wide. *)
Definition ctrls_ok (k : ctrls) : Prop := 0 <= ctrl_pin k < 2 ^ 32 ∧ 0 <= ctrl_cpu0 k < 2 ^ 32.

Lemma init_ctrls_range rev k (k' := init_ctrls rev k) :
  ctrls_ok k → (0 <= ctrl_pin k' < 2 ^ 32 ∧ 0 <= ctrl_enter k' < 2 ^ 32) ∧
    0 <= ctrl_exit k' < 2 ^ 32 ∧ 0 <= ctrl_cpu0 k' < 2 ^ 32.
Proof.
  intros [H1 H2]. cbn. split_and!; try apply adjust_range.
  all: first [apply land_lnot_range; [lia|done|by vm_compute] | apply lor_range; [done|by vm_compute|lia] | by vm_compute].
Qed.

Lemma has_lor_self x m : m ≠ 0 → has (Z.lor x m) m = true.
Proof.
  intros Hm. unfold has. apply negb_true_iff, Z.eqb_neq. rewrite Z.land_lor_distr_l, Z.land_diag.
  intros [_ H]%Z.lor_eq_0_iff. done.
Qed.

Lemma has_lor_mono x y m : has x m = true → has (Z.lor x y) m = true.
Proof.
  unfold has. rewrite !negb_true_iff, !Z.eqb_neq, Z.land_lor_distr_l. by intros H [? _]%Z.lor_eq_0_iff.
Qed.

Lemma guest_crs_spec enter c0 c4 (r := guest_crs enter c0 c4) :
  is_u64 c0 → is_u64 c4 →
  is_u64 r.1 ∧ is_u64 r.2 ∧
  (has enter ENT_GUEST_64 = true → has r.1 X86_CR0_PG = true ∧ has r.2 X86_CR4_PAE = true) ∧
  (has r.1 X86_CR0_PG = true → has r.1 X86_CR0_PE = true).
Proof.
  intros H0 H4. subst r. unfold guest_crs. fold (has enter ENT_GUEST_64). cbv zeta. cbn [fst snd].
  assert (∀ x m, is_u64 x → 0 <= m < 2 ^ 64 → is_u64 (Z.lor x m)) as Hl by (intros; by apply lor_range).
  set (g0 := if has enter ENT_GUEST_64 then Z.lor c0 X86_CR0_PG else c0).
  assert (is_u64 g0) as Hg by (subst g0; destruct (has enter ENT_GUEST_64); [by apply Hl|done]).
  assert (has enter ENT_GUEST_64 = true → has g0 X86_CR0_PG = true) as Hpg.
  { subst g0. intros ->. by apply has_lor_self. }
  clearbody g0. fold (has g0 X86_CR0_PG). split; [|split; [|split]].
  - destruct (has g0 _); [by apply Hl|done].
  - destruct (has enter _); cbn [negb]; [by apply Hl|]. unfold is_u64. by apply land_range.
  - intros E. rewrite E in *. rewrite Hpg by done. cbn [negb].
    split; [by apply has_lor_mono, Hpg|by apply has_lor_self].
  - destruct (has g0 X86_CR0_PG) eqn:E; [|congruence]. intros _. by apply has_lor_self.
Qed.

Section InitFacts.
Context {M C : Type} {ops : PageAlloc M} {laws : PageAllocLaws M} {hw : VmxCpu C} {vl : VmxLaws C}.

Lemma vmw_step c0 l c (s : vmx M C) f v (Q : unit → vmx M C → Prop) :
  written c0 l c → vm_writable f = true → 0 <= v < 2 ^ 64 →
  (∀ c', written c0 ((f, v) :: l) c' → Q () (set_cpu c' s)) → wp (vmw f v) Q (set_cpu c s).
Proof using Type. intros Hw Hf Hv HQ. unfold vmw, on_cpu. wstep. by eapply write_step. Qed.

Lemma rdmsr_step c0 l c (s : vmx M C) n (Q : Z → vmx M C → Prop) :
  written c0 l c → (is_u64 (vm_msr c0 n) → Q (vm_msr c0 n) (set_cpu c s)) →
  wp (on_cpu (rdmsr n)) Q (set_cpu c s).
Proof using Type.
  intros (_ & _ & Hm & _) HQ. unfold on_cpu. wstep. eapply wp_mono; [apply rdmsr_wp|].
  intros v c' (-> & -> & Hr). cbn [cpu set_cpu] in *. rewrite Hm in *. by apply HQ.
Qed.

(** The three control registers. *)
Lemma read_cr_step c0 l c (s : vmx M C) (op : prog C Z) n (Q : Z → vmx M C → Prop) :
  (∀ c, wp op (λ v c', c' = c ∧ v = vm_cr c n ∧ 0 <= v < 2 ^ 64) c) →
  written c0 l c → (is_u64 (vm_cr c0 n) → Q (vm_cr c0 n) (set_cpu c s)) → wp (on_cpu op) Q (set_cpu c s).
Proof using Type.
  intros Hop (_ & _ & _ & Hr0) HQ. unfold on_cpu. wstep. eapply wp_mono; [apply Hop|].
  intros v c' (-> & -> & Hr). cbn [cpu set_cpu] in *. rewrite Hr0 in *. by apply HQ.
Qed.

Lemma new_page_wp (s : vmx M C) p l :
  pg_avail (mm s) (p :: l) →
  wp new_page (λ r s', r = p ∧ ∃ m, s' = set_mm m s ∧ pg_avail m l ∧
    (∀ x, p <= x < p + PAGE_SIZE → rd8 (pg_mem m) x = 0) ∧
    ∀ x, (x < p ∨ p + PAGE_SIZE <= x) → rd8 (pg_mem m) x = rd8 (pg_mem (mm s)) x) s.
Proof using Type.
  intros Hav. destruct (pg_avail_ok _ _ Hav) as [Hok Hnd]. apply Forall_cons in Hok as [Hp Hok].
  apply NoDup_cons in Hnd as [Hpl Hnd]. unfold new_page, on_mem. wstep. wstep.
  eapply wp_mono; [by apply pg_alloc_wp|]. cbn beta iota. intros r m (-> & Hav1 & Em). wstep. wstep.
  unfold zero_page. wstep. cbn [mm set_mm]. split; [done|]. eexists. split; [reflexivity|].
  rewrite pg_mem_set, Em. split; [|split].
  - apply pg_avail_write; [done|]. intros q x Hq Hx. rewrite Em. apply memset_out.
    rewrite Forall_forall in Hok. destruct (page_apart q p (Hok q Hq) Hp); [congruence|lia..].
  - intros x Hx. apply memset_in. lia.
  - intros x Hx. apply memset_out. lia.
Qed.
End InitFacts.

(** The value the last write of a list gives a field. *)
Fixpoint last_write (g : Z) (l : list (Z * Z)) : option Z :=
  match l with
  | [] => None
  | (f, v) :: l' =>
      if Z.odd f then
        if g =? f - 1 then
          match last_write g l' with
          | Some x => if field_width g =? 64 then Some (Z.lor (Z.shiftl (u32 v) 32) (u32 x)) else None
          | None => None
          end
        else last_write g l'
      else if g =? f then Some v else last_write g l'
  end.

Lemma last_write_spec g l v m : last_write g l = Some v → vm_sets l m g = wrap (field_width g) v.
Proof.
  revert v. induction l as [|[f x] l IH]; intros v H; [done|]. cbn [vm_sets foldr last_write] in *.
  fold (vm_sets l m). unfold vm_set. destruct (Z.odd f).
  - destruct (g =? f - 1); [|by apply IH]. destruct (last_write g l) as [y|]; [|done].
    destruct (Z.eqb_spec (field_width g) 64) as [E|]; [|done]. injection H as <-.
    change (foldr _ m l g) with (vm_sets l m g). rewrite (IH y eq_refl), E.
    assert (u32 (wrap 64 y) = u32 y) as ->.
    { apply Z.bits_inj'. intros i Hi. rewrite !testbit_wrap by lia. destruct (Z.ltb_spec i 32); [|done].
      by rewrite (proj2 (Z.ltb_lt i 64)) by lia. }
    rewrite (wrap_small 64 (Z.lor _ _)); [done|]. apply lor_range; [|pose proof (wrap_range 32 y); lia|lia].
    rewrite Z.shiftl_mul_pow2 by lia. pose proof (wrap_range 32 x). lia.
  - destruct (g =? f) eqn:E; [|by apply IH]. apply Z.eqb_eq in E as <-. by injection H as <-.
Qed.

Ltac vm_range := first [assumption | lia | split; [by vm_compute|by vm_compute]].

(** The value of a field after the writes. *)
Ltac vm_val :=
  erewrite last_write_spec by reflexivity;
  lazymatch goal with
  | |- wrap (field_width ?f) _ = _ =>
      let w := eval vm_compute in (field_width f) in change (field_width f) with w
  end;
  first [apply wrap_small; assumption | by vm_compute].

(** One write, or one read of a register, of the straight-line code. *)
Ltac vm_go :=
  lazymatch goal with
  | |- wp (_ ≫= _) _ _ => apply wp_bind; vm_go
  | Hw : written _ _ ?c |- wp (vmw _ _) _ (set_cpu ?c _) =>
      eapply vmw_step; [exact Hw|reflexivity|vm_range|]; clear Hw;
      let c' := fresh "c" in intros c' Hw; cbn beta
  | Hw : written _ _ ?c |- wp (on_cpu (rdmsr _)) _ (set_cpu ?c _) =>
      eapply rdmsr_step; [exact Hw|]; intros ?; cbn beta
  | Hw : written _ _ ?c |- wp (on_cpu read_cr0) _ (set_cpu ?c _) =>
      eapply (read_cr_step _ _ _ _ read_cr0 0 _ read_cr0_wp); [exact Hw|]; intros ?; cbn beta
  | Hw : written _ _ ?c |- wp (on_cpu read_cr3) _ (set_cpu ?c _) =>
      eapply (read_cr_step _ _ _ _ read_cr3 3 _ read_cr3_wp); [exact Hw|]; intros ?; cbn beta
  | Hw : written _ _ ?c |- wp (on_cpu read_cr4) _ (set_cpu ?c _) =>
      eapply (read_cr_step _ _ _ _ read_cr4 4 _ read_cr4_wp); [exact Hw|]; intros ?; cbn beta
  end.

Section CtrlFacts.
Context {M C : Type} {ops : PageAlloc M} {laws : PageAllocLaws M} {hw : VmxCpu C} {vl : VmxLaws C}.

(** The writes that reach the fields of [fs] only. *)
Definition only (fs : list Z) (c0 c : C) : Prop :=
  vm_current c ∧ vm_msr c = vm_msr c0 ∧ vm_cr c = vm_cr c0 ∧
  ∀ g, g ∉ fs → vm_field c g = vm_field c0 g.

Lemma vm_sets_only l fs c0 c :
  written c0 l c →
  forallb (λ w, existsb (Z.eqb (if Z.odd w.1 then w.1 - 1 else w.1)) fs) l = true → only fs c0 c.
Proof using Type.
  intros (Hc & Hf & Hm & Hr) Hl. do 3 (split; [done|]). intros g Hg. rewrite Hf. clear Hf Hm Hr Hc.
  induction l as [|[f v] l IH]; [done|]. cbn in *. apply andb_true_iff in Hl as [Hx Hl].
  apply existsb_exists in Hx as (y & Hy%list_elem_of_In & <-%Z.eqb_eq).
  etrans; [|by apply IH]. unfold vm_set at 1. destruct (Z.odd f).
  - by destruct (Z.eqb_spec g (f - 1)) as [->|].
  - by destruct (Z.eqb_spec g f) as [->|].
Qed.

Definition ctrl_fields : list Z := [PIN_CONTROLS; CPU_EXEC_CTRL0; CPU_EXEC_CTRL1; CR3_TARGET_COUNT; VPID].

Lemma init_vmcs_ctrl_wp c0 (s : vmx M C) (k := vctrls s) (n := u32 (vpid_cnt s + 1)) :
  vm_current c0 → 0 <= ctrl_pin k < 2 ^ 32 → 0 <= ctrl_cpu0 k < 2 ^ 32 → 0 <= ctrl_cpu1 k < 2 ^ 32 →
  rev_ok (ctrl_cpu_rev1 (vcaps s)) →
  wp init_vmcs_ctrl (λ _ s', ∃ c s1, s' = set_cpu c s1 ∧ vcaps s1 = vcaps s ∧
    ctrl_enter (vctrls s1) = ctrl_enter k ∧ ctrl_exit (vctrls s1) = ctrl_exit k ∧
    guest_stack s1 = guest_stack s ∧ guest_syscall_stack s1 = guest_syscall_stack s ∧ mm s1 = mm s ∧
    vpid_cnt s1 = n ∧
    only ctrl_fields c0 c ∧ vm_field c PIN_CONTROLS = ctrl_pin k ∧ vm_field c CPU_EXEC_CTRL0 = ctrl_cpu0 k ∧
    (has (rev_set (ctrl_cpu_rev0 (vcaps s))) CPU_SECONDARY = true →
     allowed (ctrl_cpu_rev1 (vcaps s)) (vm_field c CPU_EXEC_CTRL1)) ∧
    vm_field c CR3_TARGET_COUNT = 0 ∧ vm_field c VPID = u16 n) (set_cpu c0 s).
Proof using laws vl.
  intros Hc Hp H0 H1 Hrev. unfold init_vmcs_ctrl. pose proof (written_start c0 Hc) as Hw.
  wstep. wstep. cbn [vctrls set_cpu]. fold k. vm_go. vm_go. wstep. wstep. cbn [vcaps set_cpu].
  fold (has (rev_set (ctrl_cpu_rev0 (vcaps s))) CPU_SECONDARY). fold (adjust (ctrl_cpu1 k) (ctrl_cpu_rev1 (vcaps s))).
  pose proof (adjust_range (ctrl_cpu1 k) (ctrl_cpu_rev1 (vcaps s)) H1) as Ha.
  pose proof (adjust_allowed (ctrl_cpu1 k) _ Hrev) as Hal.
  assert (0 <= n < 2 ^ 32) as Hn by (by apply wrap_range).
  destruct (has _ CPU_SECONDARY); wstep.
  - wstep. wstep.
    change (set_ctrls ?x (set_cpu ?c s)) with (set_cpu c (set_ctrls x s)).
    vm_go. vm_go. wstep. wstep. cbn [vpid_cnt set_cpu set_ctrls]. fold n.
    change (set_vpid_cnt n (set_cpu ?c ?x)) with (set_cpu c (set_vpid_cnt n x)).
    wstep. wstep. cbn [vpid_cnt set_cpu set_vpid_cnt]. vm_go.
    eexists _, _. split; [reflexivity|]. cbn [vcaps vctrls set_vpid_cnt set_ctrls ctrl_enter ctrl_exit
      guest_stack guest_syscall_stack mm vpid_cnt]. do 7 (split; [done|]). split.
    { by apply (vm_sets_only _ _ _ _ Hw). }
    destruct Hw as (_ & Hf & _). rewrite !Hf. split; [vm_val|]. split; [vm_val|]. split.
    + intros _. erewrite last_write_spec by reflexivity. by rewrite wrap_small.
    + split; [vm_val|]. by erewrite last_write_spec by reflexivity.
  - wstep. vm_go. wstep. wstep. cbn [vpid_cnt set_cpu set_ctrls]. fold n.
    change (set_vpid_cnt n (set_cpu ?c ?x)) with (set_cpu c (set_vpid_cnt n x)).
    wstep. wstep. cbn [vpid_cnt set_cpu set_vpid_cnt]. vm_go.
    eexists _, _. split; [reflexivity|]. cbn [vcaps vctrls set_vpid_cnt set_ctrls ctrl_enter ctrl_exit
      guest_stack guest_syscall_stack mm vpid_cnt]. do 7 (split; [done|]). split.
    { by apply (vm_sets_only _ _ _ _ Hw). }
    destruct Hw as (_ & Hf & _). rewrite !Hf. split; [vm_val|]. split; [vm_val|]. split; [done|].
    split; [vm_val|]. by erewrite last_write_spec by reflexivity.
Qed.

End CtrlFacts.

Section InitVmcs.
Context {M C : Type} {ops : PageAlloc M} {laws : PageAllocLaws M} {hw : VmxCpu C} {vl : VmxLaws C}.
Context (img : image) (Himg : image_ok img).


(** What the writes of the host state give. *)
Definition host_fields : list Z := [HOST_EFER; ENT_CONTROLS; EXI_CONTROLS; HOST_CR0; HOST_CR3; HOST_CR4;
  HOST_SYSENTER_EIP; HOST_SYSENTER_CS; HOST_SEL_CS; HOST_SEL_SS; HOST_SEL_DS; HOST_SEL_ES; HOST_SEL_FS;
  HOST_SEL_GS; HOST_SEL_TR; HOST_BASE_TR; HOST_BASE_GDTR; HOST_BASE_IDTR; HOST_BASE_FS; HOST_BASE_GS;
  PF_ERROR_MASK; PF_ERROR_MATCH; VMCS_LINK_PTR; HOST_RIP].

Lemma init_vmcs_host_wp c0 (s : vmx M C) :
  vm_current c0 → 0 <= ctrl_enter (vctrls s) < 2 ^ 32 → 0 <= ctrl_exit (vctrls s) < 2 ^ 32 →
  wp (init_vmcs_host img) (λ _ s', ∃ c, s' = set_cpu c s ∧ only host_fields c0 c ∧
    vm_field c ENT_CONTROLS = ctrl_enter (vctrls s) ∧ vm_field c EXI_CONTROLS = ctrl_exit (vctrls s) ∧
    vm_field c VMCS_LINK_PTR = 2 ^ 64 - 1 ∧ vm_field c HOST_CR0 = vm_cr c0 0 ∧
    vm_field c HOST_CR3 = vm_cr c0 3 ∧ vm_field c HOST_CR4 = vm_cr c0 4 ∧
    vm_field c HOST_EFER = vm_msr c0 MSR_EFER ∧ vm_field c HOST_RIP = vmx_return img ∧
    vm_field c HOST_SEL_CS = KERNEL_CS ∧ vm_field c HOST_SEL_SS = KERNEL_DS ∧
    vm_field c HOST_SEL_TR = TSS_MAIN) (set_cpu c0 s).
Proof using All.
  intros Hc He Hx. destruct Himg as [[? ?] [? ?] [? ?] (? & ? & ?)]. unfold init_vmcs_host.
  pose proof (written_start c0 Hc) as Hw.
  vm_go. vm_go. wstep. wstep. cbn [vctrls set_cpu]. repeat vm_go.
  eexists. split; [reflexivity|]. split.
  { by apply (vm_sets_only _ _ _ _ Hw). }
  destruct Hw as (_ & Hf & _). rewrite !Hf. unfold is_u64 in *. split_and!; vm_val.
Qed.

Definition guest_fields : list Z := [GUEST_CR0; GUEST_CR3; GUEST_CR4; GUEST_SYSENTER_CS;
  GUEST_SYSENTER_ESP; GUEST_SYSENTER_EIP; GUEST_DR7; GUEST_EFER; GUEST_SEL_CS; GUEST_SEL_SS;
  GUEST_SEL_DS; GUEST_SEL_ES; GUEST_SEL_FS; GUEST_SEL_GS; GUEST_SEL_TR; GUEST_SEL_LDTR; GUEST_BASE_CS;
  GUEST_BASE_ES; GUEST_BASE_SS; GUEST_BASE_DS; GUEST_BASE_FS; GUEST_BASE_GS; GUEST_BASE_TR;
  GUEST_BASE_LDTR; GUEST_LIMIT_CS; GUEST_LIMIT_DS; GUEST_LIMIT_ES; GUEST_LIMIT_SS; GUEST_LIMIT_FS;
  GUEST_LIMIT_GS; GUEST_LIMIT_LDTR; GUEST_LIMIT_TR; GUEST_AR_CS; GUEST_AR_DS; GUEST_AR_ES; GUEST_AR_FS;
  GUEST_AR_GS; GUEST_AR_SS; GUEST_AR_LDTR; GUEST_AR_TR; GUEST_BASE_GDTR; GUEST_BASE_IDTR;
  GUEST_LIMIT_GDTR; GUEST_LIMIT_IDTR; GUEST_RIP; GUEST_RSP; GUEST_RFLAGS; GUEST_ACTV_STATE;
  GUEST_INTR_STATE].

Lemma init_vmcs_guest_wp c0 (s : vmx M C) :
  vm_current c0 →
  wp (init_vmcs_guest img) (λ _ s', ∃ c c0' c4', s' = set_cpu c s ∧ only guest_fields c0 c ∧
    is_u64 c0' ∧ is_u64 c4' ∧ (let crs := guest_crs (ctrl_enter (vctrls s)) c0' c4' in
      vm_field c GUEST_CR0 = crs.1 ∧ vm_field c GUEST_CR4 = crs.2) ∧
    vm_field c GUEST_CR3 = vm_cr c0 3 ∧ vm_field c GUEST_EFER = vm_msr c0 MSR_EFER ∧
    vm_field c GUEST_RIP = guest_entry img ∧
    vm_field c GUEST_RSP = u64 (guest_stack s + PAGE_SIZE - 1) ∧ vm_field c GUEST_RFLAGS = 2 ∧
    vm_field c GUEST_ACTV_STATE = ACTV_ACTIVE ∧ vm_field c GUEST_INTR_STATE = 0 ∧
    vm_field c GUEST_SEL_CS = KERNEL_CS ∧ vm_field c GUEST_AR_CS = 0xa09b ∧
    vm_field c GUEST_AR_SS = 0xc093 ∧ vm_field c GUEST_SEL_TR = TSS_MAIN ∧
    vm_field c GUEST_AR_TR = 0x8b ∧ vm_field c GUEST_AR_LDTR = 0x82 ∧
    vm_field c GUEST_BASE_TR = tss_base img ∧ vm_field c GUEST_BASE_GDTR = gdt_base img ∧
    vm_field c GUEST_BASE_IDTR = idt_base img) (set_cpu c0 s).
Proof using All.
  intros Hc. destruct Himg as [[? ?] [? ?] [? ?] (? & ? & ?)]. unfold init_vmcs_guest.
  pose proof (written_start c0 Hc) as Hw.
  vm_go. vm_go. vm_go. wstep. wstep. cbn [vctrls set_cpu]. cbv zeta.
  destruct (guest_crs_spec (ctrl_enter (vctrls s)) (vm_cr c0 0) (vm_cr c0 4)) as (Hg0 & Hg4 & _); [done..|].
  set (crs := guest_crs _ _ _) in *. unfold is_u64 in Hg0, Hg4.
  vm_go. vm_go. vm_go. vm_go. wstep. wstep. cbn [guest_syscall_stack set_cpu].
  assert (∀ x, 0 <= u64 x < 2 ^ 64) as Hu by (intros; by apply wrap_range).
  pose proof (Hu (guest_syscall_stack s + PAGE_SIZE - 1)) as Hu1.
  pose proof (Hu (guest_stack s + PAGE_SIZE - 1)) as Hu2. clear Hu.
  repeat vm_go.
  wstep. wstep. cbn [guest_stack set_cpu]. repeat vm_go.
  eexists _, (vm_cr c0 0), (vm_cr c0 4). split; [reflexivity|]. split.
  { by apply (vm_sets_only _ _ _ _ Hw). }
  do 2 (split; [done|]).
  destruct Hw as (_ & Hf & _). rewrite !Hf. unfold is_u64 in *. fold crs. clearbody crs. split_and!; vm_val.
Qed.

Lemma only_field fs c0 c g v : only fs c0 c → existsb (Z.eqb g) fs = false → vm_field c0 g = v → vm_field c g = v.
Proof using Type.
  intros (_ & _ & _ & H) Hg <-. apply H. intros Hin. apply not_true_iff_false in Hg. apply Hg.
  apply existsb_exists. exists g. split; [by apply list_elem_of_In|apply Z.eqb_refl].
Qed.

Lemma init_vmcs_wp (s : vmx M C) p l :
  pg_avail (mm s) (p :: l) → caps_ok (vcaps s) → ctrls_ok (vctrls s) →
  wp (init_vmcs img) (λ r s', r.1 = p ∧ (r.2 = 0 ∨ r.2 = 1) ∧ pg_avail (mm s') l ∧
    (r.2 = 0 → vm_current (cpu s') ∧
      vmcs_ready (vcaps s) img (guest_stack s) (u32 (vpid_cnt s + 1)) (vm_msr (cpu s)) (vm_cr (cpu s))
        (vm_field (cpu s')))) s.
Proof using All.
  intros Hav (Hpin & Hcpu0 & Hcpu1 & Hex & Hen) Hctl. unfold init_vmcs. wstep.
  eapply wp_mono; [by apply new_page_wp|]. intros r s1 (-> & m & -> & Hav1 & _). unfold on_mem, on_cpu. wsteps.
  cbn [vcaps set_mm mm]. set (m2 := pg_set_mem _ m). assert (pg_avail m2 l) as Hav2.
  { destruct (pg_avail_ok _ _ Hav) as [Hok Hnd]. apply Forall_cons in Hok as [Hp Hok].
    apply NoDup_cons in Hnd as [Hpl Hnd]. apply pg_avail_write; [done|].
    intros q x Hq Hx. apply rd8_stn_other. rewrite Forall_forall in Hok.
    destruct (page_apart q p (Hok q Hq) Hp); [congruence|lia..]. }
  clearbody m2. cbn [cpu set_mm]. eapply wp_mono; [apply vmcs_clear_wp|].
  intros failed c1 (Hm1 & Hr1). destruct failed; wsteps.
  { cbn. split; [done|]. split; [by right|]. done. }
  cbn [cpu set_cpu set_mm]. eapply wp_mono; [apply make_vmcs_current_wp|].
  intros failed c2 (Hc2 & Hm2 & Hr2). destruct failed; wsteps.
  { cbn. split; [done|]. split; [by right|]. done. }
  specialize (Hc2 eq_refl). cbn [vcaps vctrls set_cpu set_mm].
  set (s2 := set_ctrls (init_ctrls (vcaps s) (vctrls s)) (set_mm m2 s)).
  change (set_ctrls _ _) with (set_cpu c2 s2).
  pose proof (init_ctrls_range (vcaps s) (vctrls s) Hctl) as ([R1 R2] & R3 & R4).
  eapply wp_mono; [apply (init_vmcs_ctrl_wp c2 s2); try done|]. intros [] s3.
  intros (c3 & s3' & -> & Ek & Ee & Ex & Eg & _ & Em & _ & O3 & F1 & F2 & F3 & F4 & F5).
  change (vctrls s2) with (init_ctrls (vcaps s) (vctrls s)) in *. change (vcaps s2) with (vcaps s) in *.
  change (guest_stack s2) with (guest_stack s) in *. change (vpid_cnt s2) with (vpid_cnt s) in *.
  wstep. eapply wp_mono; [apply init_vmcs_host_wp; [apply O3|by rewrite Ee|by rewrite Ex]|].
  intros [] s4 (c4 & -> & O4 & G1 & G2 & G3 & G4 & G5 & G6 & G7 & G8 & G9 & G10 & G11). wstep.
  eapply wp_mono; [apply init_vmcs_guest_wp; apply O4|].
  intros [] s5 (c5 & c0' & c4' & -> & O5 & U0 & U4 & [H0 H4] & H1 & H2 & H3 & H5 & H6 & H7 & H8 & H9 & H10 & H11 & H12 & H13 & H14 & H15 & H16 & H17).
  wstep. cbn [fst snd mm cpu set_cpu]. split; [done|]. split; [by left|].
  split; [by rewrite Em|]. intros _. split; [apply O5|].
  assert (vm_msr c4 = vm_msr (cpu s) ∧ vm_cr c4 = vm_cr (cpu s) ∧ vm_msr c3 = vm_msr (cpu s) ∧ vm_cr c3 = vm_cr (cpu s))
    as (M1 & M2 & M3 & M4).
  { destruct O3 as (_ & A1 & A2 & _), O4 as (_ & B1 & B2 & _). split_and!; congruence. }
  pose proof (λ g v A B D, only_field _ _ _ g v O5 A (only_field _ _ _ g v O4 B D)) as Look.
  pose proof (λ g v A D, only_field _ _ _ g v O5 A D) as Look5.
  pose proof (guest_crs_spec (ctrl_enter (vctrls s3')) c0' c4' U0 U4) as (_ & _ & P1 & P2).
  rewrite <- H0 in P1, P2. rewrite <- H4 in P1.
  assert (vm_field c5 ENT_CONTROLS = ctrl_enter (vctrls s3')) as Eent by by apply Look5.
  rewrite M3, M4 in *. rewrite M1, M2 in *.
  split.
  - rewrite (Look PIN_CONTROLS _ eq_refl eq_refl F1). by apply adjust_allowed.
  - rewrite (Look CPU_EXEC_CTRL0 _ eq_refl eq_refl F2). by apply adjust_allowed.
  - intros Hs. rewrite (Look CPU_EXEC_CTRL1 _ eq_refl eq_refl eq_refl). by apply F3.
  - rewrite (Look5 EXI_CONTROLS _ eq_refl G2), Ex. by apply adjust_allowed.
  - rewrite Eent, Ee. by apply adjust_allowed.
  - split_and!; [by apply Look|by apply Look|by apply Look5].
  - split_and!; by apply Look5.
  - rewrite Eent. done.
  - done.
  - rewrite Eg in H5. by split_and!.
  - by split_and!.
Qed.
End InitVmcs.

Section SetupFacts.
Context {M C : Type} {ops : PageAlloc M} {laws : PageAllocLaws M} {hw : VmxCpu C} {vl : VmxLaws C}.

(** The extended page tables for guest addresses below 4G: the pointer of the
    tables, and what they translate. *)
Definition identity_4g (m : mem) (root : Z) : Prop :=
  ∀ gpa, addr48 gpa → ept_view m root gpa = if gpa <? 2 ^ 32 then Some (gpa, 0x37) else None.

Lemma eptp_bits p :
  table_ok p →
  let e := Z.lor (Z.lor p EPT_MEM_TYPE_WB) (Z.shiftl 3 EPTP_PG_WALK_LEN_SHIFT) in
  0 <= e < 2 ^ 64 ∧ Z.land e EPT_ADDR_MASK = p ∧ Z.land e 7 = EPT_MEM_TYPE_WB ∧
  Z.land (Z.shiftr e EPTP_PG_WALK_LEN_SHIFT) 7 = 3.
Proof using Type.
  intros ((Hp0 & Hm & _) & Hp) e. subst e. rewrite <- Z.lor_assoc.
  change (Z.lor EPT_MEM_TYPE_WB (Z.shiftl 3 EPTP_PG_WALK_LEN_SHIFT)) with 30.
  destruct (pte_flags p 30 Hm) as [Ha E]; [lia..|]. split; [rewrite E; lia|]. split; [done|].
  rewrite E. unfold EPTP_PG_WALK_LEN_SHIFT, EPT_MEM_TYPE_WB. rewrite Z.shiftr_div_pow2 by lia.
  change 7 with (2 ^ 3 - 1). rewrite !mask_low by lia. clear - Hm Hp0. split; mlia.
Qed.

Lemma setup_ept_wp (s : vmx M C) p l :
  pg_avail (mm s) (p :: l) → (∀ q, q ∈ p :: l → q + PAGE_SIZE <= 2 ^ 52) → vm_current (cpu s) →
  6144 <= Z.of_nat (length l) →
  wp setup_ept (λ r s', r = 0 ∧ vcaps s' = vcaps s ∧ pml4 (vcpu_bp s') = p ∧
    eptp (vcpu_bp s') = vm_field (cpu s') EPTP ∧ vm_current (cpu s') ∧
    Z.land (vm_field (cpu s') EPTP) EPT_ADDR_MASK = p ∧ Z.land (vm_field (cpu s') EPTP) 7 = EPT_MEM_TYPE_WB ∧
    Z.land (Z.shiftr (vm_field (cpu s') EPTP) EPTP_PG_WALK_LEN_SHIFT) 7 = 3 ∧
    (∃ T l', ept_inv (mm s') p T l') ∧ identity_4g (pg_mem (mm s')) p ∧
    ∀ f, f ∉ [CPU_EXEC_CTRL0; CPU_EXEC_CTRL1; EPTP] → vm_field (cpu s') f = vm_field (cpu s) f) s.
Proof using laws vl.
  intros Hav H52 Hc Hl. destruct (pg_avail_ok _ _ Hav) as [Hok Hnd].
  apply Forall_cons in Hok as [Hp Hok]. apply NoDup_cons in Hnd as [Hpl Hnd].
  assert (table_ok p) as Htp by (split; [done|]; apply H52; by left).
  unfold setup_ept, on_mem. wstep. wstep. eapply wp_mono; [by apply pg_alloc_wp|]. cbn beta iota.
  intros r m (-> & Hav1 & Em). wstep. wstep. wstep. wstep. unfold zero_page. wstep. cbn [mm set_mm set_vcpu].
  set (m1 := pg_set_mem _ m).
  assert (pg_avail m1 l ∧ (∀ x, p <= x < p + PAGE_SIZE → rd8 (pg_mem m1) x = 0)) as [Hav2 Hz].
  { unfold m1. rewrite pg_mem_set, Em. split; [|intros; apply memset_in; lia].
    apply pg_avail_write; [done|]. intros q x Hq Hx. rewrite Em. apply memset_out.
    rewrite Forall_forall in Hok. destruct (page_apart q p (Hok q Hq) Hp); [congruence|lia..]. }
  clearbody m1. destruct (wf_empty_root (pm := EPT_PRESENT) (pg_mem m1) p Htp) as [Hwf Hnone].
  { intros i Hi. apply ldn_zero. intros x Hx. apply Hz. unfold pte_at in Hx. lia. }
  assert (ept_inv m1 p {[p := []]} l) as Hinv.
  { split; [split; [done|split; [done|]]|].
    - intros q Hq. split; [|apply H52; by right]. by rewrite lookup_singleton_ne by congruence.
    - intros t π i [<- <-]%lookup_singleton_Some Hi Hpr. unfold entry in Hpr. rewrite ldn_zero in Hpr; [done|].
      intros x Hx. apply Hz. unfold pte_at in Hx. lia. }
  change (set_mm m1 _) with (set_cpu (cpu s) (set_mm m1 (set_vcpu (Vcpu p (eptp (vcpu_bp s)) (vpid (vcpu_bp s))) s))).
  set (s1 := set_mm m1 _). pose proof (written_start _ Hc) as Hw.
  cbv zeta. destruct (eptp_bits p Htp) as (He & He1 & He2 & He3). set (e := Z.lor _ _) in *. clearbody e.
  unfold on_cpu. wstep. wstep. cbn [cpu set_cpu]. eapply read_step; [exact Hw|done|]. intros _. wstep. wstep.
  cbn [cpu set_cpu]. eapply read_step; [exact Hw|done|]. intros _. cbn [vm_sets foldr]. wstep. wstep.
  cbn [vcaps set_cpu]. change (set_cpu ?a (set_cpu ?b s1)) with (set_cpu a s1).
  assert (∀ x y z, 0 <= y < 2 ^ 32 → 0 <= Z.land (Z.lor (u32 x) y) (rev_clr z) < 2 ^ 64) as Hr.
  { intros x y z Hy. enough (0 <= Z.land (Z.lor (u32 x) y) (rev_clr z) < 2 ^ 32) as [H1 H2] by (split; [exact H1|]; eapply Z.lt_trans; [exact H2|by vm_compute]).
    apply land_range; [|by apply wrap_range|lia]. apply lor_range; [by apply wrap_range|done|lia]. }
  pose proof (Hr (vm_field (cpu s) CPU_EXEC_CTRL0) CPU_SECONDARY (ctrl_cpu_rev0 (vcaps s1)) ltac:(by vm_compute)) as Hr0.
  pose proof (Hr (vm_field (cpu s) CPU_EXEC_CTRL1) CPU_EPT (ctrl_cpu_rev1 (vcaps s1)) ltac:(by vm_compute)) as Hr1. clear Hr.
  do 3 vm_go. wstep. wstep. wstep. wstep. cbn [mm set_mm set_cpu set_vcpu s1].
  destruct Hw as (Hc' & Hf & _).
  assert (vm_field c1 EPTP = e) as Ee by (rewrite Hf; vm_val).
  eapply wp_mono.
  { apply (setup_ept_range_wp m1 p {[p := []]} l 0 EPT_MAPING_SIZE_4G); [done|done|lia|by vm_compute|by vm_compute|by vm_compute|].
    intros _. right. change (rest 1 0 (0 + PAGE_SIZE * (EPT_MAPING_SIZE_4G / PAGE_SIZE))) with 6141. lia. }
  intros [] m2 (T & l' & Hinv2 & _ & _ & Hmap)%range_mapped. wstep.
  cbn [mm set_mm vcaps vcpu_bp set_vcpu set_cpu cpu pml4 eptp s1]. rewrite Ee.
  split_and!; try done; [by exists T, l'| |].
  2: { intros f Hfn. rewrite !not_elem_of_cons in Hfn. destruct Hfn as (N0 & N1 & N2 & _).
    rewrite Hf. cbn [vm_sets foldr]. by rewrite !vm_set_other by done. }
  intros gpa Hg. rewrite Hmap by done. change (0 + PAGE_SIZE * (EPT_MAPING_SIZE_4G / PAGE_SIZE)) with (2 ^ 32).
  unfold addr48 in Hg. destruct (Z.ltb_spec gpa (2 ^ 32)).
  - rewrite decide_True by lia. by replace (0 + (gpa - 0)) with gpa by lia.
  - rewrite decide_False by lia. unfold ept_view. by rewrite Hnone.
Qed.
(** The fields that the preparation of a test sets. *)
Definition init_fields : list Z := [PIN_CONTROLS; CPU_EXEC_CTRL0; CPU_EXEC_CTRL1; EPTP; VPID].

(** The pointer to the extended page tables at [p], a VPID and the controls that
    enable both. *)
Definition ept_enabled (F : Z → Z) (p : Z) : Prop :=
  Z.land (F EPTP) EPT_ADDR_MASK = p ∧ Z.land (F EPTP) 7 = EPT_MEM_TYPE_WB ∧
  Z.land (Z.shiftr (F EPTP) EPTP_PG_WALK_LEN_SHIFT) 7 = 3 ∧ F VPID = 1 ∧
  has (F CPU_EXEC_CTRL1) CPU_EPT = true ∧ has (F CPU_EXEC_CTRL1) CPU_VPID = true.

Lemma vm_exec_init_wp (s : vmx M C) p l :
  pg_avail (mm s) (p :: l) → (∀ q, q ∈ p :: l → q + PAGE_SIZE <= 2 ^ 52) → vm_current (cpu s) →
  6144 <= Z.of_nat (length l) →
  wp vm_exec_init (λ r s', r = VMX_TEST_START ∧ pml4 (vcpu_bp s') = p ∧ vm_current (cpu s') ∧
    ept_enabled (vm_field (cpu s')) p ∧ identity_4g (pg_mem (mm s')) p ∧
    (∃ T l', ept_inv (mm s') p T l') ∧
    ∀ f, f ∉ init_fields → vm_field (cpu s') f = vm_field (cpu s) f) s.
Proof using laws vl.
  intros Hav H52 Hc Hl. unfold vm_exec_init. wstep. eapply wp_mono; [by apply (setup_ept_wp s p l)|].
  intros r s1 (-> & _ & Hp & _ & Hc1 & E1 & E2 & E3 & Hinv & Hid & Ho). wstep. unfold on_cpu. wstep.
  eapply wp_mono; [apply exec_vmwrite32_bit_wp; [done|set_solver|by vm_compute]|].
  intros [] c2 (Hc2 & _ & _ & Hf2). wsteps. unfold vmw, on_cpu. wstep. cbn [cpu set_cpu set_vcpu vcpu_bp vpid].
  eapply wp_mono; [by apply vmcs_write_wp|]. intros [] c3 (Hc3 & Hf3 & _). wstep.
  cbn [cpu set_cpu set_vcpu vcpu_bp pml4 mm]. unfold ept_enabled. rewrite !Hf3.
  change (vm_set VPID (CPU_BP_ID + 1) (vm_field c2) EPTP) with (vm_field c2 EPTP).
  change (vm_set VPID (CPU_BP_ID + 1) (vm_field c2) VPID) with 1.
  change (vm_set VPID (CPU_BP_ID + 1) (vm_field c2) CPU_EXEC_CTRL1) with (vm_field c2 CPU_EXEC_CTRL1).
  rewrite !Hf2. change (EPTP =? CPU_EXEC_CTRL1) with false. change (CPU_EXEC_CTRL1 =? CPU_EXEC_CTRL1) with true.
  cbv iota. change (default_field (cpu s1) EPTP) with (vm_field (cpu s1) EPTP).
  split_and!; try done.
  - unfold with_bit. cbn [Z.eqb]. apply has_lor_mono.
    change (default_field (cpu s1) CPU_EXEC_CTRL1) with (default_ctrl1 (vm_field (cpu s1) CPU_EXEC_CTRL1)).
    unfold default_ctrl1. rewrite Z.lor_comm. by apply has_lor_mono.
  - by apply has_lor_self.
  - intros f Hf. unfold init_fields in Hf. rewrite !not_elem_of_cons in Hf.
    destruct Hf as (N1 & N2 & N3 & N4 & N5 & _). rewrite Hf3, vm_set_other, Hf2 by done.
    unfold default_field. rewrite !(proj2 (Z.eqb_neq _ _)) by done.
    apply Ho. rewrite !not_elem_of_cons. split_and!; try done. apply not_elem_of_nil.
Qed.
End SetupFacts.

(** ** Properties *)

Section Theorems.
Context {M C : Type} {ops : PageAlloc M} {laws : PageAllocLaws M} {hw : VmxCpu C} {vl : VmxLaws C}.

Lemma new_page_region (s : vmx M C) p l :
  pg_avail (mm s) (p :: l) →
  wp new_page (λ r s', r = p ∧ page_ok p ∧ p ∉ l ∧ ∃ m, s' = set_mm m s ∧ pg_avail m l ∧
    ∀ x, (x < p ∨ p + PAGE_SIZE <= x) → rd8 (pg_mem m) x = rd8 (pg_mem (mm s)) x) s.
Proof using laws.
  intros Hav. destruct (pg_avail_ok _ _ Hav) as [Hok Hnd]. apply Forall_cons in Hok as [Hp _].
  apply NoDup_cons in Hnd as [Hpl _]. eapply wp_mono; [by apply new_page_wp|].
  intros r s' (-> & m & -> & H1 & _ & H2). split; [done|]. split; [done|]. split; [done|]. by exists m.
Qed.

(** The fixed bits of a control register: those of [fix0] are set, those not in
    [fix1] clear. *)
Definition fixed (fix0 fix1 v : Z) : Prop := Z.land v fix0 = fix0 ∧ Z.land v fix1 = v.

Lemma fixed_adjust c fix0 fix1 x :
  Z.land fix0 fix1 = fix0 → Z.land x fix1 = x → fixed fix0 fix1 (Z.lor (Z.lor (Z.land c fix1) fix0) x).
Proof using Type.
  intros H Hx. split; apply Z.bits_inj'; intros i Hi;
    apply (f_equal (λ z, Z.testbit z i)) in H; apply (f_equal (λ z, Z.testbit z i)) in Hx;
    rewrite !Z.land_spec, ?Z.lor_spec, ?Z.land_spec in *;
    destruct (Z.testbit c i), (Z.testbit fix0 i), (Z.testbit fix1 i), (Z.testbit x i); done.
Qed.

Lemma on_cpu_same {A} (s : vmx M C) (op : prog C A) (P : A → Prop) :
  wp op (λ v c', c' = cpu s ∧ P v) (cpu s) → wp (on_cpu op) (λ v s', s' = s ∧ P v) s.
Proof using Type.
  intros H. unfold on_cpu. wstep. eapply wp_mono; [exact H|]. intros v c' [-> HP]. by destruct s.
Qed.

Lemma on_cpu_rdmsr (s : vmx M C) n :
  wp (on_cpu (rdmsr n)) (λ v s', s' = s ∧ v = vm_msr (cpu s) n ∧ is_u64 v) s.
Proof using laws. apply (on_cpu_same s (rdmsr n)), rdmsr_wp. Qed.

(** The capability registers [init_vmx] may read. *)
Definition caps_msrs : list Z := [MSR_IA32_VMX_TRUE_PIN; MSR_IA32_VMX_PINBASED_CTLS;
  MSR_IA32_VMX_TRUE_EXIT; MSR_IA32_VMX_EXIT_CTLS; MSR_IA32_VMX_TRUE_ENTRY; MSR_IA32_VMX_ENTRY_CTLS;
  MSR_IA32_VMX_TRUE_PROC; MSR_IA32_VMX_PROCBASED_CTLS; MSR_IA32_VMX_PROCBASED_CTLS2].

Lemma init_vmx_wp (s : vmx M C) p q r l (msr := vm_msr (cpu s)) :
  pg_avail (mm s) (p :: q :: r :: l) → (∀ n, n ∈ caps_msrs → rev_ok (msr n)) →
  Z.land (msr MSR_IA32_VMX_CR0_FIXED0) (msr MSR_IA32_VMX_CR0_FIXED1) = msr MSR_IA32_VMX_CR0_FIXED0 →
  Z.land (msr MSR_IA32_VMX_CR4_FIXED0) (msr MSR_IA32_VMX_CR4_FIXED1) = msr MSR_IA32_VMX_CR4_FIXED0 →
  Z.land X86_CR4_VMXE (msr MSR_IA32_VMX_CR4_FIXED1) = X86_CR4_VMXE →
  wp init_vmx (λ _ s', caps_ok (vcaps s') ∧ vm_msr (cpu s') = msr ∧
    fixed (msr MSR_IA32_VMX_CR0_FIXED0) (msr MSR_IA32_VMX_CR0_FIXED1) (vm_cr (cpu s') 0) ∧
    fixed (msr MSR_IA32_VMX_CR4_FIXED0) (msr MSR_IA32_VMX_CR4_FIXED1) (vm_cr (cpu s') 4) ∧
    has (vm_cr (cpu s') 4) X86_CR4_VMXE = true ∧
    vmxon_region s' = p ∧ ld64 (pg_mem (mm s')) p = basic_revision (msr MSR_IA32_VMX_BASIC) ∧
    guest_stack s' = q ∧ guest_syscall_stack s' = r ∧ vctrls s' = vctrls s ∧ pg_avail (mm s') l) s.
Proof using laws vl.
  intros Hav Hrev H0 H4 Hv. unfold init_vmx. wstep.
  eapply wp_mono; [by apply new_page_region|]. intros p' s1 (-> & Hp & Hpl & m & -> & Hav1 & _). wstep. wstep.
  set (s1 := set_vmxon_region p (set_mm m s)). change (vm_msr (cpu s)) with (vm_msr (cpu s1)) in msr.
  assert (∀ n, wp (on_cpu (rdmsr n)) (λ v s', s' = s1 ∧ v = msr n ∧ is_u64 v) s1) as Hrd by (intros; apply on_cpu_rdmsr).
  do 5 (wstep; eapply wp_mono; [apply Hrd|]; intros ? ? (-> & -> & ?)). cbv zeta.
  do 4 (wstep; eapply wp_mono; [apply Hrd|]; intros ? ? (-> & -> & ?)).
  set (bc := basic_ctrl (msr MSR_IA32_VMX_BASIC)).
  assert (∀ t f, t ∈ caps_msrs → f ∈ caps_msrs → rev_ok (msr (if bc then t else f))) as Hb
    by (intros t f Ht Hf; destruct bc; by apply Hrev).
  wstep. apply (wp_mono _ (λ v s', s' = s1 ∧ rev_ok v)).
  { destruct (negb _); [|by wstep]. eapply wp_mono; [apply Hrd|]. intros v s2 (-> & -> & _). split; [done|].
    apply Hrev. set_solver. }
  intros cpu1 s2 [-> Hr1]. wstep. apply (wp_mono _ (λ v s', s' = s1)).
  { destruct (negb _); [|by wstep]. eapply wp_mono; [apply Hrd|]. by intros v s2 (-> & _). }
  intros ev s2 ->. wstep. wstep. set (s2 := set_caps _ s1).
  assert (caps_ok (vcaps s2)) as Hcaps by (split_and!; cbn; try done; apply Hb; set_solver).
  wstep. eapply wp_mono; [apply (on_cpu_same s2 read_cr0), read_cr0_wp|]. intros c0 ? (-> & -> & Hc0).
  change (cpu s2) with (cpu s) in *.
  assert (is_u64 (Z.lor (Z.land (vm_cr (cpu s) 0) (msr MSR_IA32_VMX_CR0_FIXED1)) (msr MSR_IA32_VMX_CR0_FIXED0))) as U0.
  { apply lor_range; [|done|lia]. apply land_range; [done| |lia]. by unfold is_u64 in *; lia. }
  wstep. apply wp_zoom. eapply wp_mono; [by apply write_cr0_wp|]. intros [] c1 [Hcr1 Hm1].
  change (cpu s2) with (cpu s) in *.
  wstep. eapply wp_mono; [apply (on_cpu_same _ read_cr4), read_cr4_wp|]. intros c4 ? (-> & -> & Hc4).
  cbn [cpu set_cpu] in *. rewrite (Hcr1 4) in Hc4 |- *. change (4 =? 0) with false in *. cbv iota in *.
  assert (is_u64 (Z.lor (Z.lor (Z.land (vm_cr (cpu s) 4) (msr MSR_IA32_VMX_CR4_FIXED1))
    (msr MSR_IA32_VMX_CR4_FIXED0)) X86_CR4_VMXE)) as U4.
  { apply lor_range; [|by vm_compute|lia]. apply lor_range; [|done|lia].
    apply land_range; [done| |lia]. by unfold is_u64 in *; lia. }
  wstep. apply wp_zoom. cbn [cpu set_cpu]. eapply wp_mono; [by apply write_cr4_wp|].
  intros [] c2 [Hcr2 Hm2]. unfold on_mem, store64. wstep. wstep. wstep. cbn [mm set_mm set_cpu set_caps s2 s1 set_vmxon_region].
  set (m2 := pg_set_mem _ m).
  assert (0 <= basic_revision (msr MSR_IA32_VMX_BASIC) < 2 ^ 64) as Hbr
    by (pose proof (wrap_range 32 (msr MSR_IA32_VMX_BASIC)); unfold basic_revision; lia).
  assert (ld64 (pg_mem m2) p = basic_revision (msr MSR_IA32_VMX_BASIC)) as Hld
    by (unfold m2; rewrite pg_mem_set; by apply ld64_st64_same).
  assert (pg_avail m2 (q :: r :: l)) as Hav2.
  { apply pg_avail_write; [done|]. intros x y Hx Hy. apply rd8_stn_other.
    destruct (pg_avail_ok _ _ Hav1) as [Hok _]. rewrite Forall_forall in Hok.
    destruct (page_apart x p (Hok x Hx) Hp); [congruence|lia..]. }
  clearbody m2. wstep. eapply wp_mono; [by apply new_page_region|].
  intros q' s3 (-> & Hq & Hql & m3 & -> & Hav3 & Ho3). wstep. eapply wp_mono; [by apply new_page_region|].
  intros r' s4 (-> & Hr & Hrl & m4 & -> & Hav4 & Ho4). wstep.
  cbn [vcaps cpu vmxon_region mm guest_stack guest_syscall_stack vctrls set_stacks set_mm set_cpu set_caps set_vmxon_region] in *.
  split; [done|]. split; [by rewrite Hm2, Hm1|]. rewrite !Hcr2, !Hcr1. cbn [Z.eqb Pos.eqb].
  split; [|split; [by apply fixed_adjust|split; [by apply has_lor_self|]]].
  { pose proof (fixed_adjust (vm_cr (cpu s) 0) _ _ 0 H0 (Z.land_0_l _)) as Hfx. by rewrite Z.lor_0_r in Hfx. }
  split; [done|]. split; [|done]. rewrite <- Hld. apply ldn_ext. intros x Hx.
  rewrite Ho4, Ho3; [done| |];
    [destruct (page_apart p q Hp Hq); [intros ->; apply Hpl; by left|lia..]
    |destruct (page_apart p r Hp Hr); [intros ->; apply Hpl; by right; left|lia..]].
Qed.
End Theorems.

(** C32: a VMCS that [init_vmcs] has initialised without an error satisfies the
    processor's checks: the controls are those the processor allows, the host
    state is that of the host, and the guest starts in a consistent state
    (paging with protection, PAE for a 64-bit guest, its code at [guest_entry]). *)
Theorem init_vmcs_ready {M C : Type} {ops : PageAlloc M} {laws : PageAllocLaws M} {hw : VmxCpu C}
    {vl : VmxLaws C} (img : image) (s : vmx M C) p l :
  image_ok img → pg_avail (mm s) (p :: l) → caps_ok (vcaps s) → ctrls_ok (vctrls s) →
  wp (init_vmcs img) (λ r s', r.1 = p ∧ (r.2 = 0 ∨ r.2 = 1) ∧
    (r.2 = 0 → vm_current (cpu s') ∧
      vmcs_ready (vcaps s) img (guest_stack s) (u32 (vpid_cnt s + 1)) (vm_msr (cpu s)) (vm_cr (cpu s))
        (vm_field (cpu s')))) s.
Proof.
  intros Hi Hav Hk Hc. eapply wp_mono; [by apply (init_vmcs_wp img Hi s p l)|].
  intros r s' (H1 & H2 & _ & H3). done.
Qed.

(** after [init_vmx] VMXON can be executed: CR0 and CR4 have the bits the
    capability registers fix, VMXE among them, the region starts with the revision
    of the processor, and the capabilities recorded are consistent. *)
Theorem init_vmx_ready {M C : Type} {ops : PageAlloc M} {laws : PageAllocLaws M} {hw : VmxCpu C}
    {vl : VmxLaws C} (s : vmx M C) p q r l msr :
  msr = vm_msr (cpu s) →
  pg_avail (mm s) (p :: q :: r :: l) → (∀ n, n ∈ caps_msrs → rev_ok (msr n)) →
  Z.land (msr MSR_IA32_VMX_CR0_FIXED0) (msr MSR_IA32_VMX_CR0_FIXED1) = msr MSR_IA32_VMX_CR0_FIXED0 →
  Z.land (msr MSR_IA32_VMX_CR4_FIXED0) (msr MSR_IA32_VMX_CR4_FIXED1) = msr MSR_IA32_VMX_CR4_FIXED0 →
  Z.land X86_CR4_VMXE (msr MSR_IA32_VMX_CR4_FIXED1) = X86_CR4_VMXE →
  wp init_vmx (λ _ s', caps_ok (vcaps s') ∧
    fixed (msr MSR_IA32_VMX_CR0_FIXED0) (msr MSR_IA32_VMX_CR0_FIXED1) (vm_cr (cpu s') 0) ∧
    fixed (msr MSR_IA32_VMX_CR4_FIXED0) (msr MSR_IA32_VMX_CR4_FIXED1) (vm_cr (cpu s') 4) ∧
    has (vm_cr (cpu s') 4) X86_CR4_VMXE = true ∧
    vmxon_region s' = p ∧ ld64 (pg_mem (mm s')) p = basic_revision (msr MSR_IA32_VMX_BASIC) ∧
    guest_stack s' = q ∧ guest_syscall_stack s' = r ∧ pg_avail (mm s') l) s.
Proof.
  intros -> Hav Hrev H0 H4 Hv. eapply wp_mono; [by apply (init_vmx_wp s p q r l)|].
  intros [] s' (K1 & _ & K2 & K3 & K4 & K5 & K6 & K7 & K8 & _ & K9). by split_and!.
Qed.

(** [exec_vmwrite32_bit] sets or clears the bits of the field it is given, and
    puts the three control fields into their initial state before that: what an
    earlier call did to another field is lost. *)
Theorem exec_vmwrite32_bit_fields {C : Type} {hw : VmxCpu C} {vl : VmxLaws C} (c : C) f bitmap set :
  vm_current c → f ∈ [PIN_CONTROLS; CPU_EXEC_CTRL0; CPU_EXEC_CTRL1; EXI_CONTROLS; ENT_CONTROLS] →
  0 <= bitmap < 2 ^ 32 →
  wp (exec_vmwrite32_bit f bitmap set) (λ _ c', vm_current c' ∧ ∀ g, vm_field c' g =
    let d := if g =? PIN_CONTROLS then default_pin (vm_field c PIN_CONTROLS)
             else if g =? CPU_EXEC_CTRL0 then default_ctrl0 (vm_msr c MSR_IA32_VMX_PROCBASED_CTLS)
             else if g =? CPU_EXEC_CTRL1 then default_ctrl1 (vm_field c CPU_EXEC_CTRL1)
             else vm_field c g in
    if g =? f then with_bit d bitmap set else d) c.
Proof.
  intros Hc Hf Hb. eapply wp_mono; [by apply exec_vmwrite32_bit_wp|].
  intros [] c' (H1 & _ & _ & H2). split; [done|]. intros g. rewrite H2.
  destruct (Z.eqb_spec g f) as [->|]; done.
Qed.

(** C33: [vm_exec_init] gives the guest extended page tables that map every address
    below 4G to itself, readable, writable, executable and write-back, and no
    other address; the VMCS points to them with a walk of four levels, and has a
    VPID and the controls that enable both. *)
Theorem vm_exec_init_ept {M C : Type} {ops : PageAlloc M} {laws : PageAllocLaws M} {hw : VmxCpu C}
    {vl : VmxLaws C} (s : vmx M C) p l :
  pg_avail (mm s) (p :: l) → (∀ q, q ∈ p :: l → q + PAGE_SIZE <= 2 ^ 52) → vm_current (cpu s) →
  6144 <= Z.of_nat (length l) →
  wp vm_exec_init (λ r s', r = VMX_TEST_START ∧ pml4 (vcpu_bp s') = p ∧
    Z.land (vm_field (cpu s') EPTP) EPT_ADDR_MASK = p ∧ Z.land (vm_field (cpu s') EPTP) 7 = EPT_MEM_TYPE_WB ∧
    Z.land (Z.shiftr (vm_field (cpu s') EPTP) EPTP_PG_WALK_LEN_SHIFT) 7 = 3 ∧
    vm_field (cpu s') VPID = 1 ∧ has (vm_field (cpu s') CPU_EXEC_CTRL1) CPU_EPT = true ∧
    has (vm_field (cpu s') CPU_EXEC_CTRL1) CPU_VPID = true ∧
    ∀ gpa, addr48 gpa → ept_view (pg_mem (mm s')) p gpa = if gpa <? 2 ^ 32 then Some (gpa, 0x37) else None) s.
Proof.
  intros Hav H52 Hc Hl. eapply wp_mono; [by apply (vm_exec_init_wp s p l)|].
  intros r s' (-> & Hp & _ & (E1 & E2 & E3 & E4 & E5 & E6) & Hid & _). by split_and!.
Qed.

(** ** Witnesses *)

(** A processor whose VMCS is a function from encodings to values. *)
Record ex_proc := ExProc { xf : Z → Z; xmsr : Z → Z; xcr : Z → Z; xcur : bool }.

#[export] Instance ex_proc_cpu : VmxCpu ex_proc := {|
  vmcs_read f := gets (λ c, wrap (field_width f) (xf c f));
  vmcs_write f v := modify (λ c, if vm_writable f then ExProc (vm_set f v (xf c)) (xmsr c) (xcr c) (xcur c) else c);
  rdmsr n := gets (λ c, u64 (xmsr c n));
  read_cr0 := gets (λ c, u64 (xcr c 0));
  read_cr3 := gets (λ c, u64 (xcr c 3));
  read_cr4 := gets (λ c, u64 (xcr c 4));
  write_cr0 v := modify (λ c, ExProc (xf c) (xmsr c) (λ n, if n =? 0 then v else u64 (xcr c n)) (xcur c));
  write_cr4 v := modify (λ c, ExProc (xf c) (xmsr c) (λ n, if n =? 4 then v else u64 (xcr c n)) (xcur c));
  vmcs_clear p := modify (λ c, ExProc (λ _, 0) (xmsr c) (xcr c) false);; mret false;
  make_vmcs_current p := modify (λ c, ExProc (xf c) (xmsr c) (xcr c) true);; mret false;
|}.

Lemma field_width_pos f : field_width f = 16 ∨ field_width f = 32 ∨ field_width f = 64.
Proof. unfold field_width. repeat case_match; auto. Qed.

Lemma field_width_odd f : Z.odd f = true → field_width (f - 1) = field_width f.
Proof.
  intros [k ->]%Z.odd_spec. unfold field_width. rewrite !Z.shiftr_div_pow2 by lia.
  enough ((2 * k + 1 - 1) / 2 ^ 13 = (2 * k + 1) / 2 ^ 13) as -> by done.
  clear. change (2 ^ 13) with (2 * 4096). rewrite <- !Z.div_div by lia. f_equal. mlia.
Qed.

Lemma wrap_wrap_le a b x : 0 <= b <= a → wrap b (wrap a x) = wrap b x.
Proof.
  intros H. apply Z.bits_inj'. intros i Hi. rewrite !testbit_wrap by lia.
  destruct (Z.ltb_spec i b); [|done]. by rewrite (proj2 (Z.ltb_lt i a)) by lia.
Qed.

Lemma ex_field_write f v m g :
  vm_writable f = true →
  wrap (field_width g) (vm_set f v m g) = vm_set f v (λ x, wrap (field_width x) (m x)) g.
Proof.
  intros [_ Hw]%andb_true_iff. unfold vm_set. destruct (Z.odd f) eqn:Ho.
  - cbn [negb orb] in Hw. apply Z.eqb_eq in Hw. destruct (Z.eqb_spec g (f - 1)) as [->|]; [|done].
    rewrite field_width_odd, Hw, wrap_wrap_le by (done || lia). apply wrap_small.
    apply lor_range; [|pose proof (wrap_range 32 (m (f - 1))); lia|lia].
    rewrite Z.shiftl_mul_pow2 by lia. pose proof (wrap_range 32 v). lia.
  - destruct (Z.eqb_spec g f) as [->|]; [|done]. pose proof (field_width_pos f). apply wrap_wrap_le. lia.
Qed.

#[export, refine] Instance ex_proc_laws : VmxLaws ex_proc := {|
  vm_current c := xcur c = true;
  vm_field c f := wrap (field_width f) (xf c f);
  vm_msr c n := u64 (xmsr c n);
  vm_cr c n := u64 (xcr c n);
|}.
Proof.
  - intros c f Hc He. apply wp_gets. split; [done|]. split; [done|]. apply wrap_range.
    pose proof (field_width_pos f). lia.
  - intros c f v Hc Hw Hv. apply wp_modify. rewrite Hw. split; [done|]. split; [|done].
    intros g. by apply ex_field_write.
  - intros c n. apply wp_gets. split; [done|]. split; [done|]. by apply wrap_range.
  - intros c. apply wp_gets. split; [done|]. split; [done|]. by apply wrap_range.
  - intros c. apply wp_gets. split; [done|]. split; [done|]. by apply wrap_range.
  - intros c. apply wp_gets. split; [done|]. split; [done|]. by apply wrap_range.
  - intros c v Hv. apply wp_modify. split; [|done]. intros n. cbn. destruct (n =? 0); [by apply wrap_small|apply wrap_wrap].
  - intros c v Hv. apply wp_modify. split; [|done]. intros n. cbn. destruct (n =? 4); [by apply wrap_small|apply wrap_wrap].
  - intros c p. cbn. wsteps. done.
  - intros c p. cbn. wsteps. done.
Defined.

(** The capabilities of a processor: TRUE registers, some bits that have to be 1. *)
Definition ex_msr (n : Z) : Z :=
  if n =? MSR_IA32_VMX_BASIC then 0x80000000000012
  else if n =? MSR_IA32_VMX_CR0_FIXED0 then 0x80000021
  else if n =? MSR_IA32_VMX_CR0_FIXED1 then 0xffffffff
  else if n =? MSR_IA32_VMX_CR4_FIXED0 then 0x2000
  else if n =? MSR_IA32_VMX_CR4_FIXED1 then 0x3727ff
  else if n =? MSR_IA32_VMX_TRUE_PIN then 0x7f00000016
  else if n =? MSR_IA32_VMX_TRUE_PROC then 0xfff9fffe04006172
  else if n =? MSR_IA32_VMX_PROCBASED_CTLS then 0xfff9fffe0401e172
  else if n =? MSR_IA32_VMX_TRUE_EXIT then 0x1ffffff00036dfb
  else if n =? MSR_IA32_VMX_TRUE_ENTRY then 0x3ffff000011fb
  else if n =? MSR_IA32_VMX_PROCBASED_CTLS2 then 0x553cfe00000000
  else 0.

Definition ex_caps : caps := Caps 0x80000000000012 0x7f00000016 0xfff9fffe04006172 0x553cfe00000000
  0x1ffffff00036dfb 0x3ffff000011fb 0.
Definition ex_image : image := Image 0x11000 0x67 0x12000 0x8f 0x13000 0xfff 0x400100 0x400200 0x400300.
Definition ex_proc0 : ex_proc := ExProc (λ _, 0) ex_msr (λ n, if n =? 0 then 0x80010033 else 0x20) true.
Definition ex_vmx : vmx pages ex_proc :=
  Vmx ex_state ex_proc0 ex_caps (Ctrls 0 0 0 0 0) 0 0 0x14000 0x15000 (Vcpu 0 0 0).

Lemma ex_image_ok : image_ok ex_image.
Proof. by repeat split; vm_compute. Qed.

Lemma init_vmcs_ready_witness :
  wp (init_vmcs ex_image) (λ r s', r.1 = 0x100000 ∧ (r.2 = 0 ∨ r.2 = 1) ∧
    (r.2 = 0 → vm_current (cpu s') ∧
      vmcs_ready (vcaps ex_vmx) ex_image (guest_stack ex_vmx) (u32 (vpid_cnt ex_vmx + 1))
        (vm_msr (cpu ex_vmx)) (vm_cr (cpu ex_vmx)) (vm_field (cpu s')))) ex_vmx.
Proof.
  apply (init_vmcs_ready ex_image ex_vmx 0x100000 (page_seq 0x101000 15)).
  - apply ex_image_ok.
  - apply ex_avail.
  - by repeat split; vm_compute.
  - by repeat split; vm_compute.
Defined.

Lemma init_vmx_ready_witness :
  wp init_vmx (λ _ s', caps_ok (vcaps s') ∧
    fixed (u64 (ex_msr MSR_IA32_VMX_CR0_FIXED0)) (u64 (ex_msr MSR_IA32_VMX_CR0_FIXED1)) (vm_cr (cpu s') 0) ∧
    fixed (u64 (ex_msr MSR_IA32_VMX_CR4_FIXED0)) (u64 (ex_msr MSR_IA32_VMX_CR4_FIXED1)) (vm_cr (cpu s') 4) ∧
    has (vm_cr (cpu s') 4) X86_CR4_VMXE = true ∧
    vmxon_region s' = 0x100000 ∧
    ld64 (pg_mem (mm s')) 0x100000 = basic_revision (u64 (ex_msr MSR_IA32_VMX_BASIC)) ∧
    guest_stack s' = 0x101000 ∧ guest_syscall_stack s' = 0x102000 ∧
    pg_avail (mm s') (page_seq 0x103000 13)) ex_vmx.
Proof.
  apply (init_vmx_ready ex_vmx 0x100000 0x101000 0x102000 (page_seq 0x103000 13) (λ n, u64 (ex_msr n))).
  - done.
  - apply ex_avail.
  - intros n Hn. unfold caps_msrs in Hn. rewrite !elem_of_cons, elem_of_nil in Hn.
    destruct_or! Hn; try done; subst n; by vm_compute.
  - by vm_compute.
  - by vm_compute.
  - by vm_compute.
Defined.

Lemma exec_vmwrite32_bit_fields_witness :
  wp (exec_vmwrite32_bit CPU_EXEC_CTRL1 CPU_VPID BIT_TYPE_SET) (λ _ c', vm_current c' ∧
    ∀ g, vm_field c' g =
    let d := if g =? PIN_CONTROLS then default_pin (vm_field ex_proc0 PIN_CONTROLS)
             else if g =? CPU_EXEC_CTRL0 then default_ctrl0 (vm_msr ex_proc0 MSR_IA32_VMX_PROCBASED_CTLS)
             else if g =? CPU_EXEC_CTRL1 then default_ctrl1 (vm_field ex_proc0 CPU_EXEC_CTRL1)
             else vm_field ex_proc0 g in
    if g =? CPU_EXEC_CTRL1 then with_bit d CPU_VPID BIT_TYPE_SET else d) ex_proc0.
Proof.
  apply (exec_vmwrite32_bit_fields ex_proc0 CPU_EXEC_CTRL1 CPU_VPID BIT_TYPE_SET).
  - done.
  - set_solver.
  - by vm_compute.
Defined.

(** The pages of 32M. *)
Definition ex_big : vmx pages ex_proc :=
  Vmx (fresh_pages 0x100000 8191) ex_proc0 ex_caps (Ctrls 0 0 0 0 0) 0 0 0 0 (Vcpu 0 0 0).

Lemma vm_exec_init_ept_witness :
  wp vm_exec_init (λ r s', r = VMX_TEST_START ∧ pml4 (vcpu_bp s') = 0x100000 ∧
    Z.land (vm_field (cpu s') EPTP) EPT_ADDR_MASK = 0x100000 ∧
    Z.land (vm_field (cpu s') EPTP) 7 = EPT_MEM_TYPE_WB ∧
    Z.land (Z.shiftr (vm_field (cpu s') EPTP) EPTP_PG_WALK_LEN_SHIFT) 7 = 3 ∧
    vm_field (cpu s') VPID = 1 ∧ has (vm_field (cpu s') CPU_EXEC_CTRL1) CPU_EPT = true ∧
    has (vm_field (cpu s') CPU_EXEC_CTRL1) CPU_VPID = true ∧
    ∀ gpa, addr48 gpa → ept_view (pg_mem (mm s')) 0x100000 gpa =
      if gpa <? 2 ^ 32 then Some (gpa, 0x37) else None) ex_big.
Proof.
  apply (vm_exec_init_ept ex_big 0x100000 (page_seq 0x101000 8191)).
  - apply (fresh_pages_ok 0x100000 8191).
    + by repeat split.
    + by vm_compute.
  - intros q Hq. assert (q ∈ page_seq 0x100000 8192) as Hin by exact Hq.
    apply elem_of_page_seq in Hin as (i & Hi & ->).
    assert (i < 8192) as Hi8 by (apply (Z.lt_le_trans _ _ _ (proj2 Hi)); by vm_compute).
    clear - Hi8. change PAGE_SIZE with 4096. lia.
  - done.
  - rewrite length_page_seq. by vm_compute.
Defined.

Lemma set_io_bitmap_ports_witness :
  io_exits (set_io_bitmap ∅ 0x1000 0x71 BIT_TYPE_SET 2) 0x1000 0x74 =
    if decide (0x71 <= 0x74 < 0x71 + 2 ^ Z.of_nat 2 ∧ 0x74 / 8 = 0x71 / 8) then BIT_TYPE_SET =? BIT_TYPE_SET
    else io_exits ∅ 0x1000 0x74.
Proof. apply (set_io_bitmap_ports ∅ 0x1000 0x71 BIT_TYPE_SET 2); lia. Defined.

Lemma set_msr_bitmap_exits_witness :
  msr_exits (set_msr_bitmap ∅ 0x1000 0xc0000080 BIT_TYPE_SET MSR_WRITE) 0x1000 true 0xc0000080 = true ∧
  msr_exits (set_msr_bitmap ∅ 0x1000 0xc0000080 BIT_TYPE_SET MSR_WRITE) 0x1000 false 0xc0000080 =
    msr_exits ∅ 0x1000 false 0xc0000080.
Proof.
  assert (high_msr 0xc0000080) as H by (unfold high_msr; lia).
  split; by rewrite (set_msr_bitmap_exits ∅ 0x1000 0xc0000080 BIT_TYPE_SET MSR_WRITE) by (by right).
Defined.

Lemma set_msr_bitmap_bounds_witness :
  rd8 (set_msr_bitmap ∅ 0x1000 0xffffffff BIT_TYPE_SET MSR_READ_WRITE) 0x2000 = rd8 ∅ 0x2000.
Proof. apply (set_msr_bitmap_bounds ∅ 0x1000 0xffffffff BIT_TYPE_SET MSR_READ_WRITE). lia. Defined.
