(* ===== verification/VmxRun.v ===== *)
(** * VMX runs: x86/hsi_virtual_spec.c, hsi_vmx_general.c, hsi_vmx_32bit.c

    The loop that enters the guest and serves its exits, the handlers of the
    exits, the hypercalls, and the run of a test.  The VM entry is the interface
    [VmxGuest]; [VmxGuestLaws] says what it does, for a guest whose code is a
    tree of type [guest].  Messages are left out. *)

From stdpp Require Import functions.
From S2P Require Import Prelude Memory CString Bits AllocPage Paging Vm Ept VmxCtl.

(** ** The data *)

Definition VM_EXIT_REASON_DEFAULT_VALUE : Z := 0xffff.
Definition VMX_TEST_VMEXIT : Z := 1.
Definition VMX_TEST_EXIT : Z := 2.
Definition VMX_TEST_RESUME : Z := 3.
Definition VMX_TEST_VMABORT : Z := 4.
Definition VMX_TEST_VMSKIP : Z := 5.
Definition HYPERCALL_BIT : Z := Z.shiftl 1 12.
Definition HYPERCALL_MASK : Z := 0xFFF.
Definition HYPERCALL_VMEXIT : Z := 1.
Definition HYPERCALL_VMABORT : Z := 2.
Definition HYPERCALL_VMSKIP : Z := 3.
Definition VMX_ENTRY_FAILURE : Z := Z.shiftl 1 31.
Definition VMCALL_EXIT_SECOND : Z := Z.shiftl 1 16.
Definition CON_BUFF : Z := 82.
Definition CON_42243_REPORT_CASE : Z := VMCALL_EXIT_SECOND + 21.
Definition MAX_TEST_TEARDOWN_STEPS : Z := 10.
Definition VM_EXIT_OCCURS : Z := 1.
Definition EXTERNAL_INTER_VALID : Z := 1.

(** [enum Reason], the reasons the handlers know. *)
Definition VMX_EXC_NMI : Z := 0.
Definition VMX_EXTINT : Z := 1.
Definition VMX_INTR_WINDOW : Z := 7.
Definition VMX_NMI_WINDOW : Z := 8.
Definition VMX_HLT : Z := 12.
Definition VMX_INVLPG : Z := 14.
Definition VMX_RDPMC : Z := 15.
Definition VMX_RDTSC : Z := 16.
Definition VMX_VMCALL : Z := 18.
Definition VMX_VMREAD : Z := 23.
Definition VMX_CR : Z := 28.
Definition VMX_DR : Z := 29.
Definition VMX_IO : Z := 30.
Definition VMX_RDMSR : Z := 31.
Definition VMX_WRMSR : Z := 32.
Definition VMX_MWAIT : Z := 36.
Definition VMX_MTF : Z := 37.
Definition VMX_MONITOR : Z := 39.
Definition VMX_PAUSE : Z := 40.
Definition VMX_GDTR_IDTR : Z := 46.
Definition VMX_EPT_VIOLATION : Z := 48.
Definition VMX_EPT_MISCONFIG : Z := 49.
Definition VMX_PREEMPT : Z := 52.
Definition VMX_WBINVD : Z := 54.
Definition VMX_RDRAND : Z := 57.
Definition VMX_ENCLS : Z := 60.
Definition VMX_RDSEED : Z := 61.
Definition VMX_PML_FULL : Z := 62.
Definition VMX_XSAVES : Z := 63.
Definition VMX_XRSTORS : Z := 64.
Definition VMX_EXIT_REASON_NUM : Z := 65.

(** Elements of [is_vm_exit]. *)
Definition VM_EXIT_WRITE_CR0_CD : nat := 0.
Definition VM_EXIT_WRITE_CR0_MP : nat := 1.
Definition VM_EXIT_WRITE_CR4_SMEP : nat := 2.
Definition VM_EXIT_WRITE_CR4_PVI : nat := 3.
Definition VM_EXIT_EXTER_INTER_VALID : nat := 4.
Definition VM_EXIT_RDMSR_PAT : nat := 7.
Definition VM_EXIT_RDMSR_PLATFROM : nat := 8.
Definition VM_EXIT_RDMSR_APIC_ICR : nat := 9.

(** Values of [cr_qualification]. *)
Definition VM_EXIT_QUALIFICATION_OTHERS_CR : Z := 0.
Definition VM_EXIT_LOAD_CR3 : Z := 1.
Definition VM_EXIT_STORE_CR3 : Z := 2.
Definition VM_EXIT_LOAD_CR8 : Z := 3.
Definition VM_EXIT_STORE_CR8 : Z := 4.
Definition VM_EXIT_CR3_NUM : Z := 3.
Definition VM_EXIT_CR8_NUM : Z := 8.
Definition VM_EXIT_CR0_NUM : Z := 0.
Definition VM_EXIT_CR4_NUM : Z := 4.
Definition ACCESS_TYPE_MOV_TO_CR : Z := 0.
Definition ACCESS_TYPE_MOV_FROM_CR : Z := 1.
Definition CPU_REG_RCX : nat := 1.
Definition CPU_REG_BUFF : Z := 16.
Definition X86_CR0_CD : Z := Z.shiftl 1 30.
Definition X86_CR0_MP : Z := 2.
Definition X86_CR4_SMEP : Z := Z.shiftl 1 20.
Definition X86_CR4_PVI : Z := Z.shiftl 1 1.

Definition MSR_IA32_PAT : Z := 0x277.
Definition MSR_PLATFORM_INFO : Z := 0xce.
Definition MSR_IA32_EXT_APIC_ICR : Z := 0x830.
Definition MSR_IA32_EXT_APIC_EOI : Z := 0x80b.
Definition TEST_MSR_BITMAP_MSR : Z := MSR_IA32_PAT.
Definition IN_BYTE_TEST_PORT_ID : Z := 0x71.
Definition IO_BITMAP_TEST_PORT_NUM1 : Z := 0xCFC.
Definition IO_BITMAP_TEST_PORT_NUM2 : Z := 0xCF8.
Definition IO_ACCESS_SIZE_4BYTE : Z := 3.
Definition INS_TYPE_IN : Z := 1.
Definition VMX_EXIT_INT_INFO : Z := 0x4404.
Definition VMX_INT_INFO_VALID : Z := Z.shiftl 1 31.
Definition EXTEND_INTERRUPT_80 : Z := 0x80.
Definition DB_VECTOR : Z := 1.
Definition GP_VECTOR : Z := 13.
Definition CASE_ID_41113 : Z := 2.
Definition CASE_ID_43420 : Z := 3.
Definition CASE_ID_43421 : Z := 4.
Definition CASE_ID_43423 : Z := 5.
Definition HOST_PHY_ADDR_START : Z := Z.shiftl 3 30.
Definition GUEST_PHYSICAL_ADDRESS_START : Z := 384 * 1024 * 1024.
Definition GUEST_MEMORY_MAP_SIZE : Z := 4 * 1024 * 1024.
Definition INVEPT_TYPE_ALL_CONTEXTS : Z := 2.

(** [st_vm_exit_info], a value for each field (the fields no handler writes are left out). *)
Inductive info_field :=
| exit_reason | exit_qualification | cr_qualification
| is_io_ins_exit | is_io_num1_exit | is_io_num2_exit
| is_msr_ins_exit | is_wrmsr_apic_icr_exit | is_exception_db_exit | is_exception_gp_exit
| is_vm_exit (record : nat).
#[export] Instance info_field_eq : EqDecision info_field.
Proof. solve_decision. Defined.

(** [struct regs] *)
Inductive reg :=
| rax | rcx | rdx | rbx | cr2 | rbp | rsi | rdi
| r8 | r9 | r10 | r11 | r12 | r13 | r14 | r15 | rflags | rsp.
#[export] Instance reg_eq : EqDecision reg.
Proof. solve_decision. Defined.

Definition gp_reg : list reg :=
  [rax; rcx; rdx; rbx; rsp; rbp; rsi; rdi; r8; r9; r10; r11; r12; r13; r14; r15].

(** [SAVE_GPR], which is also [LOAD_GPR], exchanges these with the registers of the
    processor. *)
Definition in_gpr (r : reg) : bool :=
  match r with rsp | rflags | cr2 => false | _ => true end.

(** The variables that the guest uses too: [hypercall_field], [stage],
    [start_run_id] and [vm_exit_info]. *)
Record shared := Shared { hypercall_field : Z; stage : Z; start_run_id : Z; vm_exit_info : info_field → Z }.

(** What [struct vcpu_arch] keeps of an exit. *)
Record exit_arch := Arch { arch_reason : Z; guest_rip : Z; guest_ins_len : Z; arch_qualification : Z }.

(** What the handlers work on: [gpr] are the registers of the processor at a VM
    entry or exit, [regs] the variable of that name. *)
Record host (M C : Type) := Host { vx : vmx M C; gpr : reg → Z; regs : reg → Z; sh : shared; arch : exit_arch }.
Arguments Host {M C} _ _ _ _ _.
Arguments vx {M C} _.
Arguments gpr {M C} _.
Arguments regs {M C} _.
Arguments sh {M C} _.
Arguments arch {M C} _.

(** A VM entry comes back at the instruction that follows, with flags, or at the
    host's address after an exit. *)
Inductive entry := Exited | Failed (flags : Z).

Class VmxGuest (M C : Type) := {
  vm_enter : bool → prog (host M C) entry;
  wrmsr : Z → Z → prog C unit;
  invept : Z → Z → prog C bool;
  vmxon : Z → prog C bool;
  vmxoff : prog C bool;
}.

(** ** The handlers of the exits: hsi_vmx_general.c, hsi_virtual_spec.h *)

Definition hsi_vm_exit_qualification_bit_mask (exit_qual msb lsb : Z) : Z :=
  Z.land exit_qual (u64 (u64 (Z.shiftl 1 (msb + 1) - 1) - (Z.shiftl 1 lsb - 1))).
Definition hsi_vm_exit_cr_access_cr_num (exit_qual : Z) : Z :=
  hsi_vm_exit_qualification_bit_mask exit_qual 3 0.
Definition hsi_vm_exit_cr_access_reg_idx (exit_qual : Z) : Z :=
  Z.shiftr (hsi_vm_exit_qualification_bit_mask exit_qual 11 8) 8.
Definition hsi_vm_exit_cr_access_type (exit_qual : Z) : Z :=
  hsi_vm_exit_qualification_bit_mask exit_qual 5 4.
Definition hsi_vm_exit_io_access_port_num (exit_qual : Z) : Z :=
  Z.land (Z.shiftr (hsi_vm_exit_qualification_bit_mask exit_qual 31 16) 16) 0xffff.

Section Handlers.
Context {M C : Type} {ops : PageAlloc M} {hw : VmxCpu C} {en : VmxGuest M C}.
Notation host := (host M C).

Definition set_vx (v : vmx M C) (s : host) : host := Host v (gpr s) (regs s) (sh s) (arch s).
Definition set_gpr (g : reg → Z) (s : host) : host := Host (vx s) g (regs s) (sh s) (arch s).
Definition set_regs (g : reg → Z) (s : host) : host := Host (vx s) (gpr s) g (sh s) (arch s).
Definition set_sh (h : shared) (s : host) : host := Host (vx s) (gpr s) (regs s) h (arch s).
Definition set_arch (a : exit_arch) (s : host) : host := Host (vx s) (gpr s) (regs s) (sh s) a.
Definition on_vx {A} (m : prog (vmx M C) A) : prog host A := zoom vx set_vx m.
Definition on_hcpu {A} (m : prog C A) : prog host A := on_vx (on_cpu m).

Definition put_info (f : info_field) (v : Z) : prog host unit :=
  modify (λ s, set_sh (Shared (hypercall_field (sh s)) (stage (sh s)) (start_run_id (sh s))
    (<[f := v]> (vm_exit_info (sh s)))) s).
Definition set_exit_reason (reason : Z) : prog host unit := put_info exit_reason reason.
Definition get_exit_reason : prog host Z := gets (λ s, u32 (vm_exit_info (sh s) exit_reason)).
Definition vmx_get_test_condition : prog host Z := gets (λ s, stage (sh s)).

Definition vcpu_get_gpreg (idx : nat) : prog host Z :=
  match gp_reg !! idx with Some r => gets (λ s, regs s r) | None => stop_with Undef end.

Definition vcpu_retain_rip : prog host unit :=
  modify (λ s, set_arch (Arch (arch_reason (arch s)) (guest_rip (arch s)) 0 (arch_qualification (arch s))) s).

Definition handler_exit_common : prog host unit :=
  reason ← gets (λ s, arch_reason (arch s)); set_exit_reason reason.

Definition resume_ept_env : prog host unit :=
  v ← gets (λ s, vcpu_bp (vx s));
  on_vx (on_mem (ept_gpa2hpa_map (pml4 v) HOST_PHY_ADDR_START GUEST_PHYSICAL_ADDRESS_START
    GUEST_MEMORY_MAP_SIZE (Z.lor (Z.lor EPT_RA EPT_WA) EPT_EA) false));;
  on_hcpu (invept INVEPT_TYPE_ALL_CONTEXTS (eptp v));;
  mret ().

Definition handler_exit_ept_violation : prog host unit :=
  handler_exit_common;;
  id ← gets (λ s, start_run_id (sh s));
  if (id =? CASE_ID_41113) || (id =? CASE_ID_43423) then resume_ept_env;; vcpu_retain_rip
  else if id =? CASE_ID_43421 then resume_ept_env
  else mret ().

Definition handler_exit_ept_misconfig : prog host unit :=
  handler_exit_common;;
  id ← gets (λ s, start_run_id (sh s));
  if id =? CASE_ID_43420 then resume_ept_env else mret ().

Definition handler_exit_cr_access : prog host unit :=
  handler_exit_common;;
  q ← gets (λ s, arch_qualification (arch s));
  put_info exit_qualification q;;
  let cr_num_and_access := Z.lor (hsi_vm_exit_cr_access_cr_num q) (hsi_vm_exit_cr_access_type q) in
  let idx := u32 (hsi_vm_exit_cr_access_reg_idx q) in
  if CPU_REG_BUFF <=? idx then mret () else
  reg ← vcpu_get_gpreg (Z.to_nat (u8 idx));
  let on n t := cr_num_and_access =? Z.lor n (Z.shiftl t 4) in
  if on VM_EXIT_CR3_NUM ACCESS_TYPE_MOV_FROM_CR then put_info cr_qualification VM_EXIT_STORE_CR3
  else if on VM_EXIT_CR3_NUM ACCESS_TYPE_MOV_TO_CR then put_info cr_qualification VM_EXIT_LOAD_CR3
  else if on VM_EXIT_CR8_NUM ACCESS_TYPE_MOV_FROM_CR then put_info cr_qualification VM_EXIT_STORE_CR8
  else if on VM_EXIT_CR8_NUM ACCESS_TYPE_MOV_TO_CR then put_info cr_qualification VM_EXIT_LOAD_CR8
  else if on VM_EXIT_CR0_NUM ACCESS_TYPE_MOV_TO_CR then
    if has reg X86_CR0_CD then put_info (is_vm_exit VM_EXIT_WRITE_CR0_CD) VM_EXIT_OCCURS
    else if has reg X86_CR0_MP then put_info (is_vm_exit VM_EXIT_WRITE_CR0_MP) VM_EXIT_OCCURS
    else mret ()
  else if on VM_EXIT_CR4_NUM ACCESS_TYPE_MOV_TO_CR then
    if has reg X86_CR4_SMEP then put_info (is_vm_exit VM_EXIT_WRITE_CR4_SMEP) VM_EXIT_OCCURS
    else if has reg X86_CR4_PVI then put_info (is_vm_exit VM_EXIT_WRITE_CR4_PVI) VM_EXIT_OCCURS
    else mret ()
  else put_info cr_qualification VM_EXIT_QUALIFICATION_OTHERS_CR.

Definition handler_exit_read_msr : prog host unit :=
  handler_exit_common;;
  v ← vcpu_get_gpreg CPU_REG_RCX;
  let msr := u32 v in
  (if msr =? TEST_MSR_BITMAP_MSR then put_info is_msr_ins_exit VM_EXIT_OCCURS else mret ());;
  if msr =? MSR_IA32_PAT then put_info (is_vm_exit VM_EXIT_RDMSR_PAT) VM_EXIT_OCCURS
  else if msr =? MSR_PLATFORM_INFO then put_info (is_vm_exit VM_EXIT_RDMSR_PLATFROM) VM_EXIT_OCCURS
  else if msr =? MSR_IA32_EXT_APIC_ICR then put_info (is_vm_exit VM_EXIT_RDMSR_APIC_ICR) VM_EXIT_OCCURS
  else mret ().

Definition handler_exit_write_msr : prog host unit :=
  handler_exit_common;;
  v ← vcpu_get_gpreg CPU_REG_RCX;
  let msr := u32 v in
  if msr =? TEST_MSR_BITMAP_MSR then put_info is_msr_ins_exit VM_EXIT_OCCURS
  else if msr =? MSR_IA32_EXT_APIC_ICR then put_info is_wrmsr_apic_icr_exit VM_EXIT_OCCURS
  else mret ().

Definition handler_exit_pio_instruction : prog host unit :=
  handler_exit_common;;
  q ← gets (λ s, arch_qualification (arch s));
  put_info exit_qualification q;;
  handler_exit_common;;
  let access_port_num := hsi_vm_exit_io_access_port_num q in
  let access_size := Z.land q 0x7 in
  let access_type := Z.land (Z.shiftr q 3) 0x1 in
  if (access_size =? IO_ACCESS_SIZE_4BYTE) && (access_type =? INS_TYPE_IN) then
    if access_port_num =? IN_BYTE_TEST_PORT_ID then put_info is_io_ins_exit VM_EXIT_OCCURS
    else if access_port_num =? IO_BITMAP_TEST_PORT_NUM1 then put_info is_io_num1_exit VM_EXIT_OCCURS
    else if access_port_num =? IO_BITMAP_TEST_PORT_NUM2 then put_info is_io_num2_exit VM_EXIT_OCCURS
    else mret ()
  else mret ().

Definition handler_exit_exnter_inter : prog host unit :=
  handler_exit_common;;
  v ← on_hcpu (vmcs_read VMX_EXIT_INT_INFO);
  let intr_info := u32 v in
  if has intr_info VMX_INT_INFO_VALID && (Z.land intr_info 0xFF =? EXTEND_INTERRUPT_80) then
    put_info (is_vm_exit VM_EXIT_EXTER_INTER_VALID) EXTERNAL_INTER_VALID;;
    on_hcpu (wrmsr MSR_IA32_EXT_APIC_EOI 0);;
    vcpu_retain_rip
  else mret ().

Definition handler_exit_inter_and_exception : prog host unit :=
  handler_exit_common;;
  v ← on_hcpu (vmcs_read VMX_EXIT_INT_INFO);
  let exception_vector := Z.land (u32 v) 0xFF in
  if exception_vector =? DB_VECTOR then put_info is_exception_db_exit VM_EXIT_OCCURS
  else if exception_vector =? GP_VECTOR then put_info is_exception_gp_exit VM_EXIT_OCCURS
  else mret ().

(** The table [vm_exit]. *)
Definition common_reasons : list Z :=
  [VMX_INTR_WINDOW; VMX_HLT; VMX_PAUSE; VMX_INVLPG; VMX_MWAIT; VMX_RDTSC; VMX_RDPMC; VMX_DR; VMX_MONITOR;
   VMX_NMI_WINDOW; VMX_PREEMPT; VMX_MTF; VMX_RDRAND; VMX_GDTR_IDTR; VMX_XSAVES; VMX_XRSTORS; VMX_RDSEED;
   VMX_ENCLS; VMX_VMREAD; VMX_WBINVD; VMX_PML_FULL].

Definition vm_exit (reason : Z) : option (prog host unit) :=
  if reason =? VMX_EXC_NMI then Some handler_exit_inter_and_exception
  else if reason =? VMX_EXTINT then Some handler_exit_exnter_inter
  else if reason =? VMX_EPT_VIOLATION then Some handler_exit_ept_violation
  else if reason =? VMX_EPT_MISCONFIG then Some handler_exit_ept_misconfig
  else if reason =? VMX_CR then Some handler_exit_cr_access
  else if reason =? VMX_RDMSR then Some handler_exit_read_msr
  else if reason =? VMX_WRMSR then Some handler_exit_write_msr
  else if reason =? VMX_IO then Some handler_exit_pio_instruction
  else if bool_decide (reason ∈ common_reasons) then Some handler_exit_common
  else None.
End Handlers.

(** ** The conditions: BUILD_CONDITION_FUNC *)

Definition CPU_INTR_WINDOW : Z := Z.shiftl 1 2.
Definition CPU_HLT : Z := Z.shiftl 1 7.
Definition CPU_RDTSC : Z := Z.shiftl 1 12.
Definition CPU_NMI_WINDOW : Z := Z.shiftl 1 22.
Definition CPU_MOV_DR : Z := Z.shiftl 1 23.
Definition CPU_MONITOR_TRAP_FLAG : Z := Z.shiftl 1 27.
Definition CPU_PAUSE : Z := Z.shiftl 1 30.
Definition CPU_DESC_TABLE : Z := Z.shiftl 1 2.
Definition CPU_APIC_REG_VIRT : Z := Z.shiftl 1 8.
Definition CPU_RDRAND : Z := Z.shiftl 1 11.
Definition CPU_INVPCID : Z := Z.shiftl 1 12.
Definition CPU_VMFUNC : Z := Z.shiftl 1 13.
Definition CPU_SHADOW_VMCS : Z := Z.shiftl 1 14.
Definition CPU_RDSEED : Z := Z.shiftl 1 16.
Definition VMX_ENTRY_CTLS_ENTRY_TO_SMM : Z := Z.shiftl 1 10.

(** The entries of [vmcall_exit] that the macro builds: the condition, the field,
    the bit, and whether it is set or cleared. *)
Definition built_conditions : list (Z * (Z * Z * Z)) := [
  (1, (PIN_CONTROLS, PIN_NMI, BIT_TYPE_CLEAR));
  (3, (PIN_CONTROLS, PIN_VIRT_NMI, BIT_TYPE_CLEAR));
  (4, (CPU_EXEC_CTRL0, CPU_INTR_WINDOW, BIT_TYPE_CLEAR));
  (6, (CPU_EXEC_CTRL0, CPU_HLT, BIT_TYPE_CLEAR));
  (7, (CPU_EXEC_CTRL0, CPU_INVLPG, BIT_TYPE_CLEAR));
  (9, (CPU_EXEC_CTRL0, CPU_MWAIT, BIT_TYPE_SET));
  (10, (CPU_EXEC_CTRL0, CPU_RDPMC, BIT_TYPE_SET));
  (11, (CPU_EXEC_CTRL0, CPU_RDTSC, BIT_TYPE_CLEAR));
  (12, (CPU_EXEC_CTRL0, CPU_CR3_LOAD, BIT_TYPE_CLEAR));
  (13, (CPU_EXEC_CTRL0, CPU_CR3_STORE, BIT_TYPE_CLEAR));
  (14, (CPU_EXEC_CTRL0, CPU_CR8_LOAD, BIT_TYPE_CLEAR));
  (15, (CPU_EXEC_CTRL0, CPU_CR8_STORE, BIT_TYPE_CLEAR));
  (16, (CPU_EXEC_CTRL0, CPU_NMI_WINDOW, BIT_TYPE_CLEAR));
  (17, (CPU_EXEC_CTRL0, CPU_MOV_DR, BIT_TYPE_CLEAR));
  (20, (CPU_EXEC_CTRL0, CPU_MONITOR_TRAP_FLAG, BIT_TYPE_CLEAR));
  (23, (CPU_EXEC_CTRL0, CPU_MONITOR, BIT_TYPE_SET));
  (24, (CPU_EXEC_CTRL0, CPU_PAUSE, BIT_TYPE_CLEAR));
  (30, (CPU_EXEC_CTRL1, CPU_VMFUNC, BIT_TYPE_CLEAR));
  (34, (CPU_EXEC_CTRL1, CPU_DESC_TABLE, BIT_TYPE_CLEAR));
  (35, (CPU_EXEC_CTRL1, CPU_RDTSCP, BIT_TYPE_SET));
  (37, (CPU_EXEC_CTRL1, CPU_WBINVD, BIT_TYPE_SET));
  (39, (CPU_EXEC_CTRL1, CPU_APIC_REG_VIRT, BIT_TYPE_CLEAR));
  (41, (CPU_EXEC_CTRL1, CPU_RDRAND, BIT_TYPE_CLEAR));
  (42, (CPU_EXEC_CTRL1, CPU_SHADOW_VMCS, BIT_TYPE_CLEAR));
  (43, (CPU_EXEC_CTRL1, CPU_RDSEED, BIT_TYPE_CLEAR));
  (45, (CPU_EXEC_CTRL1, CPU_XSAVES_XRSTORS, BIT_TYPE_CLEAR));
  (47, (CPU_EXEC_CTRL1, CPU_INVPCID, BIT_TYPE_CLEAR));
  (57, (ENT_CONTROLS, VMX_ENTRY_CTLS_ENTRY_TO_SMM, BIT_TYPE_CLEAR))].

(** ** The exits of a run: hsi_virtual_spec.c, hsi_vmx_general.c, hsi_vmx_32bit.c *)

Section Runs.
Context {M C : Type} {ops : PageAlloc M} {hw : VmxCpu C} {en : VmxGuest M C}.
Notation host := (host M C).

Definition condition_func (c : Z * Z * Z) : prog host unit :=
  let '(field, bit, is_set) := c in on_hcpu (exec_vmwrite32_bit field bit is_set).

(** [vmcall_exit] and [vmcall_exit_second], by index. *)
Record vmcall_tables := Tables {
  vmcall_exit : Z → option (prog host unit);
  vmcall_exit_second : Z → option (prog host unit);
}.

(** The exit information [vcpu->arch] is given before the handlers run. *)
Definition read_exit : prog host (Z * Z * Z) :=
  guest_rip ← on_hcpu (vmcs_read GUEST_RIP);
  r ← on_hcpu (vmcs_read EXI_REASON);
  let reason := Z.land r 0xff in
  insn_len ← on_hcpu (vmcs_read EXI_INST_LEN);
  exit_qual ← on_hcpu (vmcs_read EXI_QUALIFICATION);
  modify (set_arch (Arch reason guest_rip (u32 insn_len) (u32 exit_qual)));;
  mret (guest_rip, reason, u32 insn_len).

Definition vm_exec_con_host_exit_handler (t : vmcall_tables) : prog host Z :=
  '(rip, reason, insn_len) ← read_exit;
  if reason =? VMX_VMCALL then
    condition ← vmx_get_test_condition;
    match (if condition <? CON_BUFF then vmcall_exit t condition else None) with
    | Some exit_func =>
      exit_func;;
      on_hcpu (vmcs_write GUEST_RIP (u64 (rip + insn_len)));;
      mret VMX_TEST_RESUME
    | None =>
      let index := Z.land condition (not64 VMCALL_EXIT_SECOND) in
      match (if has condition VMCALL_EXIT_SECOND then vmcall_exit_second t index else None) with
      | Some exit_func =>
        exit_func;;
        on_hcpu (vmcs_write GUEST_RIP (u64 (rip + insn_len)));;
        mret VMX_TEST_RESUME
      | None => mret VMX_TEST_VMEXIT
      end
    end
  else
    match (if reason <? VMX_EXIT_REASON_NUM then vm_exit reason else None) with
    | Some exit_func =>
      exit_func;;
      a ← gets arch;
      on_hcpu (vmcs_write GUEST_RIP (u64 (guest_rip a + guest_ins_len a)));;
      mret VMX_TEST_RESUME
    | None => mret VMX_TEST_VMEXIT
    end.

(** [unrestricted_guest_001] only reports. *)
Definition vm_unrestricted_guest_exit_handler : prog host Z :=
  '(_, reason, _) ← read_exit;
  condition ← vmx_get_test_condition;
  mret VMX_TEST_VMEXIT.

(** *** Hypercalls *)

Definition is_hypercall : prog host bool :=
  r ← on_hcpu (vmcs_read EXI_REASON);
  let reason := Z.land r 0xff in
  hyper_bit ← gets (λ s, Z.land (hypercall_field (sh s)) HYPERCALL_BIT);
  mret ((reason =? VMX_VMCALL) && negb (hyper_bit =? 0)).

Definition set_hypercall_field (v : Z) (h : shared) : shared :=
  Shared v (stage h) (start_run_id h) (vm_exit_info h).

Definition handle_hypercall : prog host Z :=
  hypercall_no ← gets (λ s, Z.land (hypercall_field (sh s)) HYPERCALL_MASK);
  modify (λ s, set_sh (set_hypercall_field 0 (sh s)) s);;
  mret (if hypercall_no =? HYPERCALL_VMEXIT then VMX_TEST_VMEXIT
    else if hypercall_no =? HYPERCALL_VMABORT then VMX_TEST_VMABORT
    else if hypercall_no =? HYPERCALL_VMSKIP then VMX_TEST_VMSKIP
    else VMX_TEST_EXIT).

(** *** Entering the guest *)

(** The variables of a run that the handlers leave alone. *)
Record run := Run { hs : host; launched : bool; guest_finished : bool; in_guest : bool; exits : Z;
  teardown : list (Z * Z) }.

Definition set_hs (h : host) (s : run) : run :=
  Run h (launched s) (guest_finished s) (in_guest s) (exits s) (teardown s).
Definition set_launched (b : bool) (s : run) : run :=
  Run (hs s) b (guest_finished s) (in_guest s) (exits s) (teardown s).
Definition set_guest_finished (b : bool) (s : run) : run :=
  Run (hs s) (launched s) b (in_guest s) (exits s) (teardown s).
Definition set_in_guest (b : bool) (s : run) : run :=
  Run (hs s) (launched s) (guest_finished s) b (exits s) (teardown s).
Definition set_exits (n : Z) (s : run) : run :=
  Run (hs s) (launched s) (guest_finished s) (in_guest s) n (teardown s).
Definition set_teardown (l : list (Z * Z)) (s : run) : run :=
  Run (hs s) (launched s) (guest_finished s) (in_guest s) (exits s) l.
Definition on_host {A} (m : prog host A) : prog run A := zoom hs set_hs m.
Definition on_rcpu {A} (m : prog C A) : prog run A := on_host (on_hcpu m).

Record vmentry_failure := Failure { f_vmlaunch : bool; f_early : bool; f_flags : option Z }.

(** [SAVE_GPR_C], and [LOAD_GPR_C] *)
Definition xchg_gpr (s : host) : host :=
  set_regs (λ r, if in_gpr r then gpr s r else regs s r)
    (set_gpr (λ r, if in_gpr r then regs s r else gpr s r) s).

(** The stack pointer of the host is [rsp] of the registers.  The flags are stored
    twice in [failure->flags]: the second store, of 1 to its low half, is the one
    that would report an early failure; [flags] has no value after an exit. *)
Definition vmx_enter_guest : prog run (bool * vmentry_failure) :=
  modify (set_in_guest true);;
  l ← gets launched;
  o ← on_host (
    modify (λ s, set_gpr (<[rdi := HOST_RSP]> (gpr s)) s);;
    sp ← gets (λ s, gpr s rsp);
    on_hcpu (vmcs_write HOST_RSP sp);;
    modify xchg_gpr;;
    o ← vm_enter l;
    modify xchg_gpr;;
    mret o);
  let early := false in
  let flags := match o with
    | Exited => None
    | Failed f => Some (Z.lor (Z.shiftl (Z.shiftr f 32) 32) 1)
    end in
  modify (set_in_guest false);;
  reason ← on_rcpu (vmcs_read EXI_REASON);
  mret (negb early && negb (has reason VMX_ENTRY_FAILURE), Failure (negb l) early flags).

Definition exit_handler (h : prog host Z) : prog run Z :=
  modify (λ s, set_exits (s32 (exits s + 1)) s);;
  v ← on_rcpu (vmcs_read GUEST_RFLAGS);
  on_host (modify (λ s, set_regs (<[rflags := v]> (regs s)) s));;
  b ← on_host is_hypercall;
  ret ← (if (b : bool) then on_host handle_hypercall else on_host h);
  f ← on_host (gets (λ s, regs s rflags));
  on_rcpu (vmcs_write GUEST_RFLAGS f);;
  mret ret.

(** [vmx_run]; no test has an [entry_failure_handler]. *)
Definition entry_failure_handler (failure : vmentry_failure) : prog run Z := mret VMX_TEST_EXIT.

Definition vmx_run_turn (h : prog host Z) : prog run (unit + Z) :=
  '(entered, failure) ← vmx_enter_guest;
  ret ← (if (entered : bool) then modify (set_launched true);; exit_handler h
         else entry_failure_handler failure);
  let ret := u32 ret in
  if ret =? VMX_TEST_RESUME then mret (inl ())
  else if ret =? VMX_TEST_VMEXIT then modify (set_guest_finished true);; mret (inr 0)
  else stop_with Halt.

Definition vmx_run (fuel : nat) (h : prog host Z) : prog run Z := iter fuel (λ _, vmx_run_turn h) ().

(** *** The run of a test *)

(** [struct vmx_test]: the functions of a test. *)
Record vmx_test := VmxTest { t_init : option (prog host Z); t_exit_handler : prog host Z;
  t_guest_regs : reg → Z }.

(** The functions of [teardown_steps], called with their data. *)
Class Teardown := { run_teardown_step : Z → Z → prog run unit }.

(** [None]: the assertion has failed, and [longjmp] goes to the end of the test. *)
Definition test_add_teardown (func data : Z) : prog run (option unit) :=
  l ← gets teardown;
  if Z.of_nat (length l) <? MAX_TEST_TEARDOWN_STEPS
  then modify (set_teardown ((func, data) :: l));; mret (Some ()) else mret None.

(** [while (teardown_count > 0) run_teardown_step(&teardown_steps[--teardown_count]);]
    with the last step first in the list. *)
Definition run_teardown {td : Teardown} (fuel : nat) : prog run unit :=
  iter fuel (λ _,
    l ← gets teardown;
    match l with
    | [] => mret (inr ())
    | (func, data) :: l' => modify (set_teardown l');; run_teardown_step func data;; mret (inl ())
    end) ().

(** [vmx_on] and [vmx_off] return whether the instruction failed. *)
Definition test_run {td : Teardown} (fuel : nat) (img : image) (t : vmx_test) : prog run Z :=
  p ← on_host (on_vx (gets vmxon_region));
  failed ← on_rcpu (vmxon p);
  if (failed : bool) then mret 1 else
  on_host (on_vx (init_vmcs img));;
  r ← (match t_init t with Some init => on_host init | None => mret VMX_TEST_START end);
  (if r =? VMX_TEST_START then
    modify (set_teardown []);;
    modify (set_exits 0);;
    on_host (modify (set_regs (t_guest_regs t)));;
    on_rcpu (vmcs_write GUEST_RFLAGS (Z.lor (t_guest_regs t rflags) 0x2));;
    modify (set_launched false);;
    modify (set_guest_finished false);;
    vmx_run fuel (t_exit_handler t);;
    run_teardown fuel
  else mret ());;
  failed ← on_rcpu vmxoff;
  mret (if (failed : bool) then 1 else 0).
End Runs.
Arguments run : clear implicits.
Arguments vmcall_tables : clear implicits.
Arguments vmx_test : clear implicits.

(** ** The guest *)

(** What the processor saves about an exit. *)
Record vmexit := VmExit { e_reason : Z; e_qual : Z; e_len : Z; e_info : Z }.

(** An exit that an instruction of length [e_len] causes. *)
Definition exit_ok (e : vmexit) : Prop :=
  0 <= e_reason e < 2 ^ 31 ∧ 0 <= e_qual e < 2 ^ 64 ∧ 0 < e_len e <= 15 ∧ 0 <= e_info e < 2 ^ 32.

Section Guest.
Context {M : Type}.

(** The memory a guest works on: all of it is mapped to itself. *)
Definition gmem : Type := M * shared.

(** The code of a guest: an instruction that exits, a piece of code that does not,
    or no code at all. *)
Inductive guest :=
| GExit (e : vmexit) (k : guest)
| GDo (f : gmem → gmem) (k : gmem → guest)
| GStop.

(** The next exit: what the processor saves, the code behind the instruction and
    the memory. *)
Fixpoint gnext (g : guest) (m : gmem) : option (vmexit * guest * gmem) :=
  match g with
  | GExit e k => Some (e, k, m)
  | GDo f k => gnext (k (f m)) (f m)
  | GStop => None
  end.

Definition on_shared (f : shared → shared) (m : gmem) : gmem := (m.1, f m.2).

(** *** The code of the guest: hsi_virtual_spec.c *)

Definition VMCALL_LEN : Z := 3.
Definition vmcall (k : guest) : guest := GExit (VmExit VMX_VMCALL 0 VMCALL_LEN 0) k.

Definition hypercall (hypercall_no : Z) (k : guest) : guest :=
  GDo (on_shared (set_hypercall_field (Z.lor (Z.land hypercall_no HYPERCALL_MASK) HYPERCALL_BIT)))
    (λ _, vmcall k).

(** [set_exit_reason(VM_EXIT_REASON_DEFAULT_VALUE); vmx_set_test_condition(condition);] *)
Definition set_condition (condition : Z) (h : shared) : shared :=
  Shared (hypercall_field h) condition (start_run_id h)
    (<[exit_reason := VM_EXIT_REASON_DEFAULT_VALUE]> (vm_exit_info h)).

Definition set_vmcs (condition : Z) (k : guest) : guest :=
  GDo (on_shared (set_condition condition))
    (λ _, if condition =? CON_BUFF then k else vmcall k).

(** BUILD_GUEST_MAIN_FUNC: a case is its condition and its function. *)
Fixpoint guest_main (case_suit : list (Z * (guest → guest))) (k : guest) : guest :=
  match case_suit with
  | [] => k
  | (condition, func) :: case_suit' => set_vmcs condition (func (guest_main case_suit' k))
  end.

(** [guest_entry] *)
Definition guest_entry_code (case_suit : list (Z * (guest → guest))) : guest :=
  guest_main case_suit (hypercall HYPERCALL_VMEXIT GStop).
End Guest.
Arguments guest : clear implicits.
Arguments gmem : clear implicits.

(** ** What the VM entry does *)

Definition VM_INST_ERROR : Z := 0x4400.
Definition ENT_INTR_INFO : Z := 0x4016.

(** Controls and host state, less the two controls that an exit changes and the
    stack pointer. *)
Definition vm_kept (f : Z) : bool :=
  let type := Z.land (Z.shiftr f 10) 3 in
  ((type =? 0) || (type =? 3)) && negb (f =? ENT_CONTROLS) && negb (f =? ENT_INTR_INFO)
  && negb (f =? HOST_RSP).

(** Bit 1 is set, the reserved bits and VM are not. *)
Definition rflags_ok (v : Z) : bool := Z.land v 0xffffffffffc2802a =? 2.

Section EntryLaws.
Context {M C : Type} {hw : VmxCpu C} {vl : VmxLaws C} {en : VmxGuest M C}.
Notation host := (host M C).

Definition hcpu (s : host) : C := cpu (vx s).
Definition hmem (s : host) : gmem M := (mm (vx s), sh s).

(** What an exit leaves alone: everything but the processor, its registers and the
    memory of the guest. *)
Definition exited (s : host) (m : gmem M) (s' : host) : Prop :=
  vx s' = set_cpu (hcpu s') (set_mm m.1 (vx s)) ∧ sh s' = m.2 ∧ regs s' = regs s ∧ arch s' = arch s.
End EntryLaws.

(** [vm_launched] is the launch state of the current VMCS, [vm_valid] says that it
    passes the checks of a VM entry, [vm_at c a g] that the guest's code at the
    address [a] is [g]. *)
Class VmxGuestLaws (M C : Type) {hw : VmxCpu C} {vl : VmxLaws C} {en : VmxGuest M C} := {
  vm_launched : C → bool;
  vm_valid : C → Prop;
  vm_at : C → Z → guest M → Prop;
  vm_write_keeps c f v :
    vm_current c → vm_writable f = true → 0 <= v < 2 ^ 64 →
    wp (vmcs_write f v) (λ _ c', vm_launched c' = vm_launched c ∧ (∀ a g, vm_at c a g → vm_at c' a g) ∧
      (vm_valid c →
       f = HOST_RSP ∨ f = GUEST_RFLAGS ∧ rflags_ok v = true ∨ f = GUEST_RIP ∧ (∃ g, vm_at c v g) →
       vm_valid c')) c;
  vm_enter_wp (s : host M C) g e k m c (F := vm_field c) :
    c = hcpu s → vm_current c → vm_valid c → vm_at c (F GUEST_RIP) g →
    gnext g (hmem s) = Some (e, k, m) → exit_ok e →
    wp (vm_enter (vm_launched c)) (λ r s', let c' := hcpu s' in let F' := vm_field c' in
      r = Exited ∧ exited s m s' ∧ gpr s' rsp = F HOST_RSP ∧
      vm_current c' ∧ vm_valid c' ∧ vm_launched c' = true ∧
      (∀ f, vm_kept f = true → F' f = F f) ∧
      F' EXI_REASON = e_reason e ∧ F' EXI_QUALIFICATION = e_qual e ∧
      F' EXI_INST_LEN = e_len e ∧ F' VMX_EXIT_INT_INFO = e_info e ∧
      rflags_ok (F' GUEST_RFLAGS) = true ∧
      vm_at c' (F' GUEST_RIP) (GExit e k) ∧ vm_at c' (u64 (F' GUEST_RIP + e_len e)) k) s;
  vm_enter_early (s : host M C) l c (F := vm_field c) :
    c = hcpu s → vm_current c → vm_launched c ≠ l →
    wp (vm_enter l) (λ r s', let c' := hcpu s' in let F' := vm_field c' in
      (∃ f, r = Failed f) ∧ exited s (hmem s) s' ∧ gpr s' = gpr s ∧ vm_current c' ∧
      vm_launched c' = vm_launched c ∧ (∀ f, f ≠ VM_INST_ERROR → F' f = F f)) s;
  (* VMCLEAR and VMPTRLD make a VMCS current that is not launched *)
  vm_clear : C → Z → Prop;
  vmcs_clear_launch c p : wp (vmcs_clear p) (λ failed c', failed = false → vm_clear c' p) c;
  make_current_launch c p :
    wp (make_vmcs_current p) (λ failed c', failed = false → vm_clear c p → vm_launched c' = false) c;
  vmcs_read_launch c f : wp (vmcs_read f) (λ _ c', vm_launched c' = vm_launched c) c;
  vmcs_write_launch c f v : wp (vmcs_write f v) (λ _ c', vm_launched c' = vm_launched c) c;
  vmxon_wp c p : wp (vmxon p) (λ _ c', vm_msr c' = vm_msr c ∧ vm_cr c' = vm_cr c) c;
  vmxoff_wp c : wp vmxoff (λ _ _, True) c;
}.

(** ** The loop *)

Lemma wp_bind_inv {St A B} (m : prog St A) (k : A → prog St B) Q s :
  wp (m ≫= k) Q s → wp m (λ a s', wp (k a) Q s') s.
Proof. unfold wp, mbind, prog_bind. by destruct (m s) as [[a s']|]. Qed.

Section Loop.
Context {M C : Type} {ops : PageAlloc M} {hw : VmxCpu C} {vl : VmxLaws C} {en : VmxGuest M C}
  {gl : VmxGuestLaws M C}.
Notation host := (host M C).
Notation run := (run M C).
Notation F s := (vm_field (hcpu s)).

(** What entries, exits and the loop itself do to the state of the host. *)
Definition moved (s s' : host) : Prop :=
  vx s' = set_cpu (hcpu s') (vx s) ∧ sh s' = sh s ∧ vm_current (hcpu s') ∧ vm_valid (hcpu s') ∧
  ∀ f, vm_kept f = true → F s' f = F s f.

Lemma moved_trans s1 s2 s3 : moved s1 s2 → moved s2 s3 → moved s1 s3.
Proof.
  intros (H1 & H2 & _ & _ & H3) (K1 & K2 & K3 & K4 & K5). split; [|split; [congruence|]].
  - rewrite K1, H1. by destruct (vx s1).
  - split; [done|]. split; [done|]. intros f Hf. by rewrite K5, H3.
Qed.

Lemma moved_mem s s' : moved s s' → hmem s' = hmem s.
Proof. intros (H1 & H2 & _). unfold hmem. rewrite H2, H1. by destruct (vx s). Qed.

(** The handlers run with the information of the exit. *)
Definition arrived (e : vmexit) (s : host) : Prop :=
  arch s = Arch (Z.land (e_reason e) 0xff) (F s GUEST_RIP) (e_len e) (u32 (e_qual e)) ∧
  F s VMX_EXIT_INT_INFO = e_info e.

(** What a handler has to leave alone. *)
Definition untouched (s s' : host) : Prop :=
  vm_current (hcpu s') ∧ vm_valid (hcpu s') ∧ vm_launched (hcpu s') = vm_launched (hcpu s) ∧
  (∀ a g, vm_at (hcpu s) a g → vm_at (hcpu s') a g) ∧
  F s' GUEST_RIP = F s GUEST_RIP ∧ arch s' = arch s ∧ regs s' rflags = regs s rflags ∧
  gpr s' rsp = gpr s rsp.

Definition vmcall_func (t : vmcall_tables M C) (condition : Z) : option (prog host unit) :=
  match (if condition <? CON_BUFF then vmcall_exit t condition else None) with
  | Some f => Some f
  | None => if has condition VMCALL_EXIT_SECOND
      then vmcall_exit_second t (Z.land condition (not64 VMCALL_EXIT_SECOND)) else None
  end.

(** The function that serves an exit. *)
Definition exit_func (t : vmcall_tables M C) (reason condition : Z) : option (prog host unit) :=
  if reason =? VMX_VMCALL then vmcall_func t condition
  else if reason <? VMX_EXIT_REASON_NUM then vm_exit reason else None.

Definition hypercalled (e : vmexit) (h : shared) : bool :=
  (Z.land (e_reason e) 0xff =? VMX_VMCALL) && negb (Z.land (hypercall_field h) HYPERCALL_BIT =? 0).

Definition with_mem (m : gmem M) (s : host) : host := set_sh m.2 (set_vx (set_mm m.1 (vx s)) s).

(** The guest as a sequential program that calls the functions of the host: it
    runs until its last hypercall, and then [Q] holds. *)
Fixpoint gwp (t : vmcall_tables M C) (g : guest M) (Q : host → Prop) (s : host) : Prop :=
  match g with
  | GStop => False
  | GDo f k => gwp t (k (f (hmem s))) Q (with_mem (f (hmem s)) s)
  | GExit e k => exit_ok e ∧ ∀ s1, moved s s1 →
      if hypercalled e (sh s1) then
        Z.land (hypercall_field (sh s1)) HYPERCALL_MASK = HYPERCALL_VMEXIT ∧
        Q (set_sh (set_hypercall_field 0 (sh s1)) s1)
      else arrived e s1 → ∃ f, exit_func t (arch_reason (arch s1)) (stage (sh s1)) = Some f ∧
        wp f (λ _ s2, untouched s1 s2 ∧ gwp t k Q s2) s1
  end.

Lemma gwp_moved t g (Q : host → Prop) :
  (∀ s s', moved s s' → Q s → Q s') → ∀ s s', moved s s' → gwp t g Q s → gwp t g Q s'.
Proof using Type.
  intros HQ. induction g as [e k IH|f k IH|]; intros s s' Hm; cbn [gwp]; [| |done].
  - intros [He H]. split; [done|]. intros s1 Hm1. apply H. by eapply moved_trans.
  - rewrite (moved_mem _ _ Hm). apply IH. destruct Hm as (H1 & H2 & H3). split; [|done].
    cbn. unfold hcpu. cbn. rewrite H1. by destruct (vx s).
Qed.

(** What a write of one of the three fields that belong to the loop does. *)
Definition loop_field (f : Z) : Prop := f ∈ [HOST_RSP; GUEST_RFLAGS; GUEST_RIP].

Definition rewritten (f v : Z) (s s' : host) : Prop :=
  moved s s' ∧ vm_launched (hcpu s') = vm_launched (hcpu s) ∧
  (∀ a g, vm_at (hcpu s) a g → vm_at (hcpu s') a g) ∧
  F s' f = v ∧ (∀ x, x ≠ f → F s' x = F s x) ∧ gpr s' = gpr s ∧ regs s' = regs s ∧ arch s' = arch s.

Lemma loop_write f v s :
  loop_field f → vm_current (hcpu s) → vm_valid (hcpu s) → 0 <= v < 2 ^ 64 →
  (f = GUEST_RFLAGS → rflags_ok v = true) → (f = GUEST_RIP → ∃ g, vm_at (hcpu s) v g) →
  wp (on_hcpu (vmcs_write f v)) (λ _ s', rewritten f v s s') s.
Proof using Type.
  intros Hf Hc Hv Hr H1 H2.
  assert (vm_writable f = true ∧ Z.odd f = false ∧ field_width f = 64 ∧ vm_kept f = false) as (Hw & Ho & Hwd & Hk).
  { unfold loop_field in Hf. rewrite !elem_of_cons, elem_of_nil in Hf. by destruct Hf as [->|[->|[->|[]]]]. }
  apply wp_zoom, wp_zoom. eapply wp_mono; [apply wp_and; [by apply vmcs_write_wp|by apply vm_write_keeps]|].
  intros [] c' [(Hc' & Hf' & _) (Hl & Ha & Hv')].
  assert (∀ x, vm_field c' x = if x =? f then v else F s x) as Hx.
  { intros x. rewrite Hf'. unfold vm_set. rewrite Ho, Hwd, wrap_small by done. done. }
  unfold rewritten, moved. cbn. split_and!; try done.
  - apply Hv'; [done|]. unfold loop_field in Hf. rewrite !elem_of_cons, elem_of_nil in Hf.
    destruct Hf as [->|[->|[->|[]]]]; auto.
  - intros x Kx. rewrite Hx. destruct (Z.eqb_spec x f) as [->|]; [congruence|done].
  - cbn. by rewrite Hx, Z.eqb_refl.
  - intros x Kx. cbn. rewrite Hx. by rewrite (proj2 (Z.eqb_neq x f)).
Qed.

Lemma loop_read f s (Q : Z → host → Prop) :
  Z.even f = true → vm_current (hcpu s) → (0 <= F s f < 2 ^ field_width f → Q (F s f) s) →
  wp (on_hcpu (vmcs_read f)) Q s.
Proof using Type.
  intros He Hc HQ. apply wp_zoom, wp_zoom. eapply wp_mono; [by apply vmcs_read_wp|].
  intros v c' (-> & -> & Hr). cbn.
  replace (set_vx (set_cpu (cpu (vx s)) (vx s)) s) with s; [by apply HQ|]. by destruct s as [[] ? ? ? ?].
Qed.

(** The processor is about to run [g]. *)
Definition ready (g : guest M) (s : run) : Prop :=
  vm_current (hcpu (hs s)) ∧ vm_valid (hcpu (hs s)) ∧ vm_launched (hcpu (hs s)) = launched s ∧
  vm_at (hcpu (hs s)) (F (hs s) GUEST_RIP) g ∧ 0 <= gpr (hs s) rsp < 2 ^ 64.

(** The guest has stopped at an exit. *)
Definition stopped (e : vmexit) (k : guest M) (m : gmem M) (s s' : host) : Prop :=
  moved (with_mem m s) s' ∧ vm_launched (hcpu s') = true ∧
  F s' EXI_REASON = e_reason e ∧ F s' EXI_QUALIFICATION = e_qual e ∧
  F s' EXI_INST_LEN = e_len e ∧ F s' VMX_EXIT_INT_INFO = e_info e ∧
  rflags_ok (F s' GUEST_RFLAGS) = true ∧ vm_at (hcpu s') (F s' GUEST_RIP) (GExit e k) ∧
  vm_at (hcpu s') (u64 (F s' GUEST_RIP + e_len e)) k ∧ 0 <= gpr s' rsp < 2 ^ 64.

Lemma no_entry_failure r : 0 <= r < 2 ^ 31 → has r VMX_ENTRY_FAILURE = false.
Proof using Type.
  intros H. unfold has. apply negb_false_iff, Z.eqb_eq. unfold VMX_ENTRY_FAILURE.
  rewrite <- (wrap_small 31 r) by done. apply Z.bits_inj'. intros i Hi.
  rewrite Z.land_spec, testbit_wrap, Z.shiftl_spec, Z.bits_0 by lia.
  destruct (Z.ltb_spec i 31); [|done]. rewrite (Z.testbit_neg_r 1) by lia. by rewrite !andb_false_r.
Qed.

Lemma vmx_enter_guest_wp s g e k m :
  ready g s → gnext g (hmem (hs s)) = Some (e, k, m) → exit_ok e →
  wp vmx_enter_guest (λ r s', r.1 = true ∧ r.2 = Failure (negb (launched s)) false None ∧
    s' = set_in_guest false (set_hs (hs s') s) ∧ stopped e k m (hs s) (hs s')) s.
Proof using Type.
  intros (Hc & Hv & Hl & Ha & Hsp) Hg He. unfold vmx_enter_guest. wstep. wstep. wstep. wstep. wstep.
  apply wp_zoom. wstep. wstep. wstep. wstep. wstep.
  eapply wp_mono; [apply loop_write; [by left|done|done|by cbn|done|done]|].
  intros [] h1 (Hm1 & Hl1 & Ha1 & Hf1 & Hx1 & Hg1 & Hr1 & Har1). wstep. wstep. wstep. cbn [launched set_in_guest].
  assert (launched s = vm_launched (hcpu h1)) as Hls by (rewrite Hl1; by rewrite <- Hl).
  rewrite Hls. set (h2 := xchg_gpr h1).
  assert (gnext g (hmem h2) = Some (e, k, m)) as Hg2 by (rewrite <- Hg; f_equal; by apply (moved_mem (hs s))).
  assert (moved (hs s) h2) as Hm2 by done.
  destruct Hm1 as (Hvx & Hsh & Hcu & Hva & Hk).
  eapply wp_mono.
  { apply (vm_enter_wp h2 g e k m (hcpu h1)); [done|done|done| |done|done].
    rewrite Hx1 by done. by apply Ha1. }
  intros r h3. cbn zeta. intros (-> & (Hvx3 & Hsh3 & Hr3 & Har3) & Hrsp3 & Hc3 & Hv3 & Hl3 & Hk3 & E1 & E2 & E3 & E4 & Hfl & Ha3 & Ha3').
  wstep. wstep. wstep. cbn [set_hs]. wstep. wstep. wstep. apply wp_zoom. cbn [hs set_in_guest set_hs].
  apply loop_read; [done|done|]. intros _. wstep. change (hcpu (xchg_gpr h3)) with (hcpu h3). rewrite E1.
  rewrite no_entry_failure by apply He. split; [done|]. split; [by rewrite ?Hls|]. split; [done|]. cbn.
  split; [|change (hcpu (xchg_gpr h3)) with (hcpu h3); split_and!; try done].
  - split; [|split; [done|split; [done|split; [done|]]]].
    + cbn. change (hcpu (xchg_gpr h3)) with (hcpu h3). rewrite Hvx3. cbn. by rewrite Hvx.
    + intros f Hf. change (F (xchg_gpr h3) f) with (F h3 f). rewrite Hk3 by done. by apply Hk.
  - cbn. rewrite Hrsp3, Hf1. exact (proj1 Hsp).
  - cbn. rewrite Hrsp3, Hf1. exact (proj2 Hsp).
Qed.

(** The handler serves an exit and moves the guest behind the instruction. *)
Lemma host_handler_wp t e k m s0 s (Q : host → Prop) :
  (∀ s s', moved s s' → Q s → Q s') → exit_ok e → stopped e k m s0 s → rflags_ok (regs s rflags) = true →
  hypercalled e (sh s) = false → gwp t (GExit e k) Q (with_mem m s0) →
  wp (vm_exec_con_host_exit_handler t) (λ r s', r = VMX_TEST_RESUME ∧ vm_current (hcpu s') ∧
    vm_valid (hcpu s') ∧ vm_launched (hcpu s') = true ∧ vm_at (hcpu s') (F s' GUEST_RIP) k ∧
    regs s' rflags = regs s rflags ∧ gpr s' rsp = gpr s rsp ∧ gwp t k Q s') s.
Proof using Type.
  intros HQ He (Hm & Hl & E1 & E2 & E3 & E4 & Hfl & Ha & Ha' & Hsp) Hrf Hhc [_ Hg].
  assert (vm_current (hcpu s)) as Hc by apply Hm.
  unfold vm_exec_con_host_exit_handler, read_exit. wstep. wstep.
  apply loop_read; [done|done|]. intros Hrip. wstep. apply loop_read; [done|done|]. intros _. wstep.
  apply loop_read; [done|done|]. intros _. wstep. apply loop_read; [done|done|]. intros _. wstep. wstep. wstep.
  cbn beta iota. rewrite E1, E2, E3.
  assert (u32 (e_len e) = e_len e) as Hlen by (apply wrap_small; destruct He as (_ & _ & ? & _); lia).
  rewrite Hlen.
  set (s1 := set_arch _ s).
  assert (moved (with_mem m s0) s1) as Hm1 by done.
  specialize (Hg s1 Hm1). change (sh s1) with (sh s) in Hg. rewrite Hhc in Hg.
  destruct Hg as (f & Hf & Hw); [done|].
  change (arch_reason (arch s1)) with (Z.land (e_reason e) 255) in Hf. unfold exit_func in Hf.
  assert (∀ s2, untouched s1 s2 ∧ gwp t k Q s2 →
    wp (on_hcpu (vmcs_write GUEST_RIP (u64 (F s GUEST_RIP + e_len e)));; mret VMX_TEST_RESUME)
    (λ r s', r = VMX_TEST_RESUME ∧ vm_current (hcpu s') ∧
    vm_valid (hcpu s') ∧ vm_launched (hcpu s') = true ∧ vm_at (hcpu s') (F s' GUEST_RIP) k ∧
    regs s' rflags = regs s rflags ∧ gpr s' rsp = gpr s rsp ∧ gwp t k Q s') s2) as Hgo.
  { intros s2 [(K1 & K2 & K3 & K4 & K5 & K6 & K7 & K8) Hk]. wstep.
    eapply wp_mono; [apply loop_write; [by right; right; left|done|done|by apply wrap_range|done|by eauto]|].
    intros [] s3 (Hm3 & Hl3 & Ha3 & Hf3 & _ & Hg3 & Hr3 & _). wstep.
    split_and!; try (congruence || apply Hm3).
    - rewrite Hl3, K3. done.
    - rewrite Hf3. by apply Ha3, K4.
    - rewrite Hr3. done.
    - rewrite Hg3. done.
    - by eapply gwp_moved. }
  destruct (_ =? VMX_VMCALL).
  - unfold vmx_get_test_condition. wstep. wstep. unfold vmcall_func in Hf.
    change (stage (sh (set_arch _ s))) with (stage (sh s)).
    change (stage (sh s1)) with (stage (sh s)) in *.
    destruct (if stage (sh s) <? CON_BUFF then vmcall_exit t (stage (sh s)) else None) as [f'|].
    + injection Hf as ->. wstep. eapply wp_mono; [exact Hw|]. intros [] s2 H2. by apply Hgo.
    + destruct (has (stage (sh s)) VMCALL_EXIT_SECOND); [|done]. rewrite Hf. wstep.
      eapply wp_mono; [exact Hw|]. intros [] s2 H2. by apply Hgo.
  - rewrite Hf. wstep. eapply wp_mono; [exact Hw|]. intros [] s2 H2. wstep. wstep.
    assert (arch s2 = arch s1) as -> by apply H2. by apply Hgo.
Qed.

Lemma exit_handler_wp t e k m s0 (s : run) (Q : host → Prop) :
  (∀ s s', moved s s' → Q s → Q s') → exit_ok e → stopped e k m s0 (hs s) → launched s = true →
  gwp t (GExit e k) Q (with_mem m s0) →
  wp (exit_handler (vm_exec_con_host_exit_handler t)) (λ ret s',
    launched s' = true ∧ teardown s' = teardown s ∧
    (ret = VMX_TEST_VMEXIT ∧ Q (hs s') ∨
     ret = VMX_TEST_RESUME ∧ ready k s' ∧ gwp t k Q (hs s'))) s.
Proof using Type.
  intros HQ He Hst Hla Hg. pose proof Hst as (Hm & Hl & E1 & E2 & E3 & E4 & Hfl & Ha & Ha' & Hsp).
  assert (vm_current (hcpu (hs s)) ∧ vm_valid (hcpu (hs s))) as [Hc Hv] by (split; apply Hm).
  unfold exit_handler. wstep. wstep. wstep. apply wp_zoom. cbn [hs set_exits].
  apply loop_read; [done|done|]. intros Hrf. wstep. apply wp_zoom. wstep. wstep. apply wp_zoom. cbn [hs set_hs].
  set (s1 := set_regs _ (hs s)).
  assert (stopped e k m s0 s1) as Hst1 by done.
  unfold is_hypercall. wstep. apply loop_read; [done|done|]. intros _. wstep. wstep.
  rewrite (E1 : F s1 EXI_REASON = e_reason e). fold (hypercalled e (sh s1)).
  assert (∀ ret s2, vm_current (hcpu s2) → vm_valid (hcpu s2) → regs s2 rflags = F (hs s) GUEST_RFLAGS →
    vm_launched (hcpu s2) = true → gpr s2 rsp = gpr (hs s) rsp →
    (ret = VMX_TEST_VMEXIT ∧ Q s2 ∨
     ret = VMX_TEST_RESUME ∧ vm_at (hcpu s2) (F s2 GUEST_RIP) k ∧ gwp t k Q s2) →
    wp (f ← on_host (gets (λ s, regs s rflags)); on_rcpu (vmcs_write GUEST_RFLAGS f);; mret ret)
      (λ ret s', launched s' = true ∧ teardown s' = teardown s ∧
       (ret = VMX_TEST_VMEXIT ∧ Q (hs s') ∨ ret = VMX_TEST_RESUME ∧ ready k s' ∧ gwp t k Q (hs s')))
      (set_hs s2 (set_exits (s32 (exits s + 1)) s))) as Hend.
  { intros ret s2 K1 K2 K3 K4 K5 K6. wstep. apply wp_zoom. wstep. wstep. apply wp_zoom. cbn [hs set_hs]. rewrite K3.
    eapply wp_mono; [apply loop_write; [by right; left|done|done| |done|done]|].
    { by change (2 ^ 64) with (2 ^ field_width GUEST_RFLAGS). }
    intros [] s3 (Hm3 & Hl3 & Ha3 & _ & Hx3 & Hg3 & _). wstep. split; [done|]. split; [done|]. cbn [hs set_hs].
    destruct K6 as [[-> HQ2]|(-> & Hat & Hk)]; [left|right].
    - split; [done|]. by eapply HQ.
    - split; [done|]. split; [|by eapply gwp_moved]. split; [apply Hm3|]. split; [apply Hm3|].
      cbn. rewrite Hl3, Hx3, Hg3, K5 by done. split; [by rewrite K4, Hla|]. split; [by apply Ha3|]. done. }
  destruct (hypercalled e (sh s1)) eqn:Hhc.
  - destruct Hg as [_ Hg]. specialize (Hg s1). rewrite Hhc in Hg. destruct Hg as [Hno HQ1]; [by apply Hst1|].
    wstep. wstep. apply wp_zoom. unfold handle_hypercall. wstep. wstep. wstep. wstep. wstep.
    cbn [hs set_hs]. change (sh (hs (set_hs s1 _))) with (sh s1). rewrite Hno. apply Hend; try done. by left.
  - wstep. wstep. apply wp_zoom. cbn [hs set_hs].
    eapply wp_mono; [by eapply (host_handler_wp t e k m s0 s1 Q)|].
    intros r s2 (-> & K1 & K2 & K3 & K4 & K5 & K6 & K7). apply Hend; try done. by right.
Qed.

Lemma with_mem_twice m m' (s : host) : with_mem m (with_mem m' s) = with_mem m s.
Proof using Type. by destruct s as [[]]. Qed.

Lemma with_own_mem (s : host) : with_mem (hmem s) s = s.
Proof using Type. by destruct s as [[]]. Qed.

Lemma hmem_with_mem m (s : host) : hmem (with_mem m s) = m.
Proof using Type. by destruct m. Qed.

(** One turn of the loop. *)
Lemma vmx_run_turn_wp t (Q : host → Prop) (s : run) g e k m :
  (∀ s s', moved s s' → Q s → Q s') → ready g s → gnext g (hmem (hs s)) = Some (e, k, m) →
  gwp t (GExit e k) Q (with_mem m (hs s)) →
  wp (vmx_run_turn (vm_exec_con_host_exit_handler t)) (λ r s', launched s' = true ∧ teardown s' = teardown s ∧
    match r with
    | inl _ => ready k s' ∧ gwp t k Q (hs s')
    | inr a => a = 0 ∧ guest_finished s' = true ∧ Q (hs s')
    end) s.
Proof using Type.
  intros HQ Hr Hn Hg. assert (exit_ok e) as He by apply Hg. unfold vmx_run_turn. wstep.
  eapply wp_mono; [by eapply vmx_enter_guest_wp|]. intros [en' fl] s1. cbn [fst snd]. intros (-> & -> & Es1 & Hst).
  cbn beta iota. wstep. wstep. wstep.
  eapply wp_mono; [eapply (exit_handler_wp t e k m (hs s) _ Q); [done|done|exact Hst|done|exact Hg]|].
  intros ret s2 (Hl2 & Ht2 & Hret). rewrite Es1 in Ht2.
  destruct Hret as [[-> HQ2]|(-> & Hr2 & Hg2)].
  - change (u32 VMX_TEST_VMEXIT =? VMX_TEST_RESUME) with false.
    change (u32 VMX_TEST_VMEXIT =? VMX_TEST_VMEXIT) with true. cbv iota. wstep. wstep. by wstep.
  - change (u32 VMX_TEST_RESUME =? VMX_TEST_RESUME) with true. cbv iota. by wstep.
Qed.

(** The loop runs the guest to its end. *)
Lemma vmx_run_wp t (Q : host → Prop) g :
  (∀ s s', moved s s' → Q s → Q s') →
  ∀ (s : run) m g0, ready g0 s → gnext g0 (hmem (hs s)) = gnext g m → gwp t g Q (with_mem m (hs s)) →
  ∃ n, ∀ fuel, (n < fuel)%nat →
  wp (vmx_run fuel (vm_exec_con_host_exit_handler t)) (λ r s', r = 0 ∧ launched s' = true ∧
    guest_finished s' = true ∧ teardown s' = teardown s ∧ Q (hs s')) s.
Proof using Type.
  intros HQ. induction g as [e k IH|f k IH|]; intros s m g0 Hr Hn Hg; [| |done].
  - pose proof (vmx_run_turn_wp t Q s g0 e k m HQ Hr Hn Hg) as Hturn.
    apply wp_run in Hturn as ([[]|a] & s1 & Eq & Hl & Ht & Hk).
    + destruct Hk as [Hr1 Hg1]. destruct (IH s1 (hmem (hs s1)) k) as [n Hn1]; [done|done|by rewrite with_own_mem|].
      exists (S n). intros [|fuel] Hfu; [lia|]. unfold vmx_run. cbn [iter]. wstep. eapply wp_exact; [exact Eq|].
      rewrite <- Ht. apply Hn1. lia.
    + exists 0%nat. intros [|fuel] Hfu; [lia|]. unfold vmx_run. cbn [iter]. wstep. eapply wp_exact; [exact Eq|].
      apply wp_ret. by destruct Hk as (-> & Hf & HQ1).
  - apply (IH (f m) s (f m) g0); [done|done|]. cbn [gwp] in Hg.
    by rewrite hmem_with_mem, with_mem_twice in Hg.
Qed.

(** *** Suites of cases *)

(** [vmx_set_test_condition] and the VMCALL, from the guest's side: the function of
    the condition takes [P] to [R]. *)
Definition cond_spec t (condition : Z) (P R : host → Prop) : Prop := ∀ s, P s →
  let s0 := with_mem (on_shared (set_condition condition) (hmem s)) s in
  if condition =? CON_BUFF then R s0
  else Z.land (hypercall_field (sh s)) HYPERCALL_BIT = 0 ∧
    ∃ f, vmcall_func t condition = Some f ∧
    ∀ s1, moved s0 s1 → arch s1 = Arch VMX_VMCALL (F s1 GUEST_RIP) VMCALL_LEN 0 →
      wp f (λ _ s2, untouched s1 s2 ∧ R s2) s1.

Definition func_spec t (func : guest M → guest M) (P R : host → Prop) : Prop := ∀ k Q,
  (∀ s, R s → gwp t k Q s) → ∀ s, P s → gwp t (func k) Q s.

(** Condition, case, condition, case, in the order of the suite. *)
Inductive suite_ok t : list (Z * (guest M → guest M)) → (host → Prop) → (host → Prop) → Prop :=
| suite_nil P : suite_ok t [] P P
| suite_cons condition func suite P J P' R :
    cond_spec t condition P J → func_spec t func J P' → suite_ok t suite P' R →
    suite_ok t ((condition, func) :: suite) P R.

Lemma vmcall_ok : exit_ok (VmExit VMX_VMCALL 0 VMCALL_LEN 0).
Proof using Type. by repeat split. Qed.

Lemma guest_main_spec t suite P R : suite_ok t suite P R → func_spec t (guest_main suite) P R.
Proof using Type.
  induction 1 as [P|condition func suite P J P' R Hc Hf Hs IH]; intros k Q Hk s HP; cbn [guest_main]; [by apply Hk|].
  specialize (Hc s HP). cbn zeta in Hc. unfold set_vmcs. cbn [gwp].
  destruct (condition =? CON_BUFF).
  - apply (Hf _ _ (IH _ _ Hk)), Hc.
  - destruct Hc as (Hb & f & Hfn & Hw). split; [apply vmcall_ok|]. intros s1 Hm.
    assert (sh s1 = set_condition condition (sh s)) as Hsh by apply Hm.
    unfold hypercalled. rewrite Hsh. cbn [hypercall_field set_condition]. rewrite Hb.
    change (negb (0 =? 0)) with false. rewrite andb_false_r. intros [Ha _].
    exists f. rewrite Ha. split; [done|]. eapply wp_mono; [by apply Hw|].
    intros [] s2 [Hu HJ]. split; [done|]. by apply (Hf _ _ (IH _ _ Hk)).
Qed.

Lemma guest_entry_wp t suite (P R : host → Prop) s :
  suite_ok t suite P R → (∀ s s', moved s s' → R s → R s') → (∀ s, R s → hypercall_field (sh s) = 0) →
  P s → gwp t (guest_entry_code suite) R s.
Proof using Type.
  intros Hs HR H0 HP. apply (guest_main_spec _ _ _ _ Hs); [|done]. clear s HP. intros s HP.
  split; [apply vmcall_ok|]. intros s1 Hm. cbn zeta in *.
  assert (sh s1 = set_hypercall_field (Z.lor (Z.land HYPERCALL_VMEXIT HYPERCALL_MASK) HYPERCALL_BIT) (sh s)) as Hsh
    by apply Hm.
  rewrite Hsh. split; [done|]. apply (HR s); [|done].
  destruct Hm as (Hv & _ & H3). split; [|split; [|done]].
  - etransitivity; [exact Hv|]. cbn. by destruct (vx s).
  - cbn. specialize (H0 s HP). destruct (sh s). cbn in *. by subst.
Qed.
End Loop.

(** ** The launch state of a new VMCS *)

Section Launch.
Context {M C : Type} {ops : PageAlloc M} {hw : VmxCpu C} {vl : VmxLaws C} {en : VmxGuest M C}
  {gl : VmxGuestLaws M C}.
Notation vmx := (vmx M C).

(** If it returns, the launch state is what it was. *)
Definition keeps_launch {A} (m : prog vmx A) : Prop := ∀ s,
  wpe m (λ _ s', vm_launched (cpu s') = vm_launched (cpu s)) (λ _, True) s.

Lemma keeps_bind {A B} (m : prog vmx A) (k : A → prog vmx B) :
  keeps_launch m → (∀ a, keeps_launch (k a)) → keeps_launch (m ≫= k).
Proof using Type.
  intros Hm Hk s. apply wpe_bind. eapply wpe_mono; [apply Hm| |done]. cbn beta. intros a s' E.
  eapply wpe_mono; [apply Hk| |done]. cbn beta. congruence.
Qed.

Lemma keeps_ret {A} (a : A) : keeps_launch (mret a).
Proof using Type. done. Qed.

Lemma keeps_gets {A} (f : vmx → A) : keeps_launch (gets f).
Proof using Type. done. Qed.

Lemma keeps_modify (f : vmx → vmx) : (∀ s, cpu (f s) = cpu s) → keeps_launch (modify f).
Proof using Type. intros H s. unfold wpe. cbn. by rewrite H. Qed.

Lemma keeps_on_mem {A} (m : prog M A) : keeps_launch (on_mem m).
Proof using Type. intros s. unfold wpe, on_mem, zoom. by destruct (m (mm s)) as [[]|]. Qed.

Lemma keeps_on_cpu {A} (m : prog C A) :
  (∀ c, wpe m (λ _ c', vm_launched c' = vm_launched c) (λ _, True) c) → keeps_launch (on_cpu m).
Proof using Type.
  intros H s. specialize (H (cpu s)). unfold wpe, on_cpu, zoom in *. by destruct (m (cpu s)) as [[]|].
Qed.

Lemma wpe_launch {A} (m : prog C A) c :
  wp m (λ _ c', vm_launched c' = vm_launched c) c →
  wpe m (λ _ c', vm_launched c' = vm_launched c) (λ _, True) c.
Proof using Type. intros H. by eapply wpe_mono; [apply wp_of_wpe, H| |]. Qed.

Lemma keeps_read f c : wpe (vmcs_read f) (λ _ c', vm_launched c' = vm_launched c) (λ _, True) c.
Proof using Type. apply wpe_launch, vmcs_read_launch. Qed.

Lemma keeps_write f v c : wpe (vmcs_write f v) (λ _ c', vm_launched c' = vm_launched c) (λ _, True) c.
Proof using Type. apply wpe_launch, vmcs_write_launch. Qed.

Lemma keeps_same (m : prog C Z) c (P : Z → Prop) :
  wp m (λ v c', c' = c ∧ P v) c → wpe m (λ _ c', vm_launched c' = vm_launched c) (λ _, True) c.
Proof using Type. intros H. apply wpe_launch. eapply wp_mono; [exact H|]. by intros v c' [-> _]. Qed.

Lemma keeps_rdmsr n c : wpe (rdmsr n) (λ _ c', vm_launched c' = vm_launched c) (λ _, True) c.
Proof using Type. eapply keeps_same, rdmsr_wp. Qed.

Lemma keeps_cr0 c : wpe read_cr0 (λ _ c', vm_launched c' = vm_launched c) (λ _, True) c.
Proof using Type. eapply keeps_same, read_cr0_wp. Qed.

Lemma keeps_cr3 c : wpe read_cr3 (λ _ c', vm_launched c' = vm_launched c) (λ _, True) c.
Proof using Type. eapply keeps_same, read_cr3_wp. Qed.

Lemma keeps_cr4 c : wpe read_cr4 (λ _ c', vm_launched c' = vm_launched c) (λ _, True) c.
Proof using Type. eapply keeps_same, read_cr4_wp. Qed.

Lemma keeps_cbind {A B} (m : prog C A) (k : A → prog C B) c :
  (∀ c, wpe m (λ _ c', vm_launched c' = vm_launched c) (λ _, True) c) →
  (∀ a c, wpe (k a) (λ _ c', vm_launched c' = vm_launched c) (λ _, True) c) →
  wpe (m ≫= k) (λ _ c', vm_launched c' = vm_launched c) (λ _, True) c.
Proof using Type.
  intros Hm Hk. apply wpe_bind. eapply wpe_mono; [apply Hm| |done]. cbn beta. intros a s' E.
  eapply wpe_mono; [apply Hk| |done]. cbn beta. congruence.
Qed.
End Launch.

#[export] Hint Resolve keeps_read keeps_write keeps_rdmsr keeps_cr0 keeps_cr3 keeps_cr4 : launch.

(** Goes through a program. *)
Ltac keeps_go := intros; repeat first
  [ progress intros
  | progress cbv zeta
  | apply keeps_bind
  | apply keeps_ret
  | apply keeps_gets
  | apply keeps_on_mem
  | apply keeps_modify; done
  | apply keeps_on_cpu
  | apply keeps_cbind
  | apply wpe_ret; reflexivity
  | solve [eauto with launch]
  | case_match ].

Section LaunchState.
Context {M C : Type} {ops : PageAlloc M} {hw : VmxCpu C} {vl : VmxLaws C} {en : VmxGuest M C}
  {gl : VmxGuestLaws M C}.

Lemma keeps_init_ctrl : keeps_launch (M := M) (C := C) init_vmcs_ctrl.
Proof using gl. unfold init_vmcs_ctrl, vmw. keeps_go. Qed.

Lemma keeps_init_host img : keeps_launch (M := M) (C := C) (init_vmcs_host img).
Proof using gl. unfold init_vmcs_host, vmw. keeps_go. Qed.

Lemma keeps_init_guest img : keeps_launch (M := M) (C := C) (init_vmcs_guest img).
Proof using gl. unfold init_vmcs_guest, vmw. keeps_go. Qed.

Lemma keeps_vm_exec_init : keeps_launch (M := M) (C := C) vm_exec_init.
Proof using gl.
  unfold vm_exec_init, setup_ept, exec_vmwrite32_bit, vm_exec_ctrl_init, check_vmx_ctrl, vmw. keeps_go.
Qed.

Lemma wpe_any {A} (m : prog (vmx M C) A) s : wpe m (λ _ _, True) (λ _, True) s.
Proof using Type. unfold wpe. by destruct (m s) as [[]|]. Qed.

(** VMCLEAR and VMPTRLD succeed on a region of the right revision. *)
Definition regions_ok : Prop := ∀ c p,
  wp (vmcs_clear p) (λ failed _, failed = false) c ∧ wp (make_vmcs_current p) (λ failed _, failed = false) c.

Lemma init_vmcs_launch img s :
  regions_ok → wpe (init_vmcs img) (λ r s', r.2 = 0 ∧ vm_launched (cpu s') = false) (λ _, True)
    (s : vmx M C).
Proof using gl.
  intros Hok. unfold init_vmcs. do 4 (apply wpe_bind; eapply wpe_mono; [apply wpe_any| |done]; intros ? ? _).
  apply wpe_wp, wp_zoom. eapply wp_mono; [apply wp_and; [apply Hok|apply vmcs_clear_launch]|].
  intros failed c1 [-> Hc1]. cbn beta iota. apply wpe_wp, wp_zoom. cbn [cpu set_cpu].
  eapply wp_mono; [apply wp_and; [apply Hok|apply make_current_launch]|].
  intros failed c2 [-> Hc2]. cbn beta iota. apply wpe_wp, wp_modify. specialize (Hc2 eq_refl (Hc1 eq_refl)).
  apply wpe_bind. eapply wpe_mono; [apply keeps_init_ctrl| |done]. intros [] s3 E3.
  apply wpe_bind. eapply wpe_mono; [apply keeps_init_host| |done]. intros [] s4 E4.
  apply wpe_bind. eapply wpe_mono; [apply keeps_init_guest| |done]. intros [] s5 E5.
  apply wpe_ret. split; [done|]. cbn beta in *. rewrite E5, E4, E3. exact Hc2.
Qed.

Lemma wpe_wp_and {St A} (m : prog St A) (P Q : A → St → Prop) s :
  wp m P s → wpe m Q (λ _, True) s → wp m (λ a s', P a s' ∧ Q a s') s.
Proof using Type. unfold wp, wpe. by destruct (m s) as [[a s']|]. Qed.
End LaunchState.

(** ** The run of a test *)

Section TestRun.
Context {M C : Type} {ops : PageAlloc M} {laws : PageAllocLaws M} {hw : VmxCpu C} {vl : VmxLaws C}
  {en : VmxGuest M C} {gl : VmxGuestLaws M C} {td : Teardown (M := M) (C := C)}.
Notation run := (run M C).
Notation host := (host M C).

Context (img : image) (suite : list (Z * (guest M → guest M))).

(** What [test_run] needs of the processor, the allocator and the image: VMXON,
    VMCLEAR and VMPTRLD succeed, the VMCS that has been prepared passes the checks,
    the guest's code is that of the suite. *)
Record runnable (s : run) (p q : Z) (l : list Z) : Prop := {
  rn_image : image_ok img;
  rn_pages : pg_avail (mm (vx (hs s))) (p :: q :: l) ∧ (∀ x, x ∈ p :: q :: l → x + PAGE_SIZE <= 2 ^ 52) ∧
    6144 <= Z.of_nat (length l);
  rn_ctrls : caps_ok (vcaps (vx (hs s))) ∧ ctrls_ok (vctrls (vx (hs s)));
  rn_stack : 0 <= gpr (hs s) rsp < 2 ^ 64;
  rn_regions : regions_ok (C := C) ∧ ∀ c x, wp (vmxon x) (λ failed (_ : C), failed = false) c;
  rn_code c : vm_launched c = false → vm_at (M := M) c (guest_entry img) (guest_entry_code suite);
  rn_valid c F0 : vm_current c →
    vmcs_ready (vcaps (vx (hs s))) img (guest_stack (vx (hs s))) (u32 (vpid_cnt (vx (hs s)) + 1))
      (vm_msr (hcpu (hs s))) (vm_cr (hcpu (hs s))) F0 →
    (∀ f, f ∉ init_fields → vm_field c f = F0 f) → ept_enabled (vm_field c) q → vm_valid (M := M) c;
}.

(** The state in which the guest starts. *)
Definition prepared (s0 s : host) (q : Z) : Prop :=
  sh s = sh s0 ∧ pml4 (vcpu_bp (vx s)) = q ∧ identity_4g (pg_mem (mm (vx s))) q ∧
  ept_enabled (vm_field (hcpu s)) q.

Lemma run_teardown_none fuel (Q : unit → run → Prop) s :
  teardown s = [] → Q () s → wp (run_teardown (S fuel)) Q s.
Proof using Type. intros H HQ. unfold run_teardown. cbn [iter]. wstep. wstep. wstep. rewrite H. by wsteps. Qed.

Lemma init_test_wp (s : vmx M C) p q l :
  image_ok img → pg_avail (mm s) (p :: q :: l) → (∀ x, x ∈ p :: q :: l → x + PAGE_SIZE <= 2 ^ 52) →
  6144 <= Z.of_nat (length l) → caps_ok (vcaps s) → ctrls_ok (vctrls s) → regions_ok (C := C) →
  wp (init_vmcs img;; vm_exec_init) (λ r s', r = VMX_TEST_START ∧ pml4 (vcpu_bp s') = q ∧
    vm_current (cpu s') ∧ vm_launched (cpu s') = false ∧ ept_enabled (vm_field (cpu s')) q ∧
    identity_4g (pg_mem (mm s')) q ∧ ∃ F0,
      vmcs_ready (vcaps s) img (guest_stack s) (u32 (vpid_cnt s + 1)) (vm_msr (cpu s)) (vm_cr (cpu s)) F0 ∧
      ∀ f, f ∉ init_fields → vm_field (cpu s') f = F0 f) s.
Proof using laws gl.
  intros Hi Hav H52 Hl Hk Hc Hr. wstep.
  eapply wp_mono; [apply wpe_wp_and; [by apply (init_vmcs_wp img Hi s p (q :: l))|by apply init_vmcs_launch]|].
  intros r s1 [(_ & _ & Hav1 & Hok) [Hr0 Hl1]]. destruct (Hok Hr0) as [Hc1 Hrdy].
  eapply wp_mono; [apply wpe_wp_and; [apply (vm_exec_init_wp s1 q l); try done|apply keeps_vm_exec_init]|].
  { intros x Hx. apply H52. by right. }
  intros r2 s2 [(-> & Hq & Hc2 & He & Hid & _ & Ho) Hl2]. rewrite Hl1 in Hl2. split_and!; try done.
  by exists (vm_field (cpu s1)).
Qed.

Definition suite_test (t : vmcall_tables M C) (guest_regs : reg → Z) : vmx_test M C :=
  VmxTest (Some (on_vx vm_exec_init)) (vm_exec_con_host_exit_handler t) guest_regs.

(** Up to the loop. *)
Lemma test_run_starts t (regs0 : reg → Z) (s : run) p q l :
  runnable s p q l → rflags_ok (Z.lor (regs0 rflags) 2) = true → 0 <= regs0 rflags < 2 ^ 64 →
  ∃ s1, ready (guest_entry_code suite) s1 ∧ prepared (hs s) (hs s1) q ∧ teardown s1 = [] ∧
    ∀ fuel Q, wp (vmx_run fuel (t_exit_handler (suite_test t regs0));; run_teardown fuel;;
      failed ← on_rcpu vmxoff; mret (if (failed : bool) then 1 else 0)) Q s1 →
      wp (test_run fuel img (suite_test t regs0)) Q s.
Proof using laws.
  intros Hrn Hrf Hr0. destruct (rn_pages _ _ _ _ Hrn) as (Hav & H52 & Hl).
  destruct (rn_ctrls _ _ _ _ Hrn) as [Hk Hc]. destruct (rn_regions _ _ _ _ Hrn) as [Hreg Hon].
  pose proof (wp_and _ _ _ _ (Hon (hcpu (hs s)) (vmxon_region (vx (hs s)))) (vmxon_wp (M := M) _ _)) as Hon1.
  apply wp_run in Hon1 as (? & c1 & Eon & -> & Hm1 & Hr1).
  set (v1 := set_cpu c1 (vx (hs s))).
  assert (wp (init_vmcs img;; vm_exec_init) _ v1) as Hin
    by (apply (init_test_wp v1 p q l); try done; apply (rn_image _ _ _ _ Hrn)).
  apply wp_run in Hin as (r2 & v2 & Ein & -> & Hq & Hc2 & Hl2 & He & Hid & F0 & Hrdy & Ho).
  change (cpu v1) with c1 in Hrdy. rewrite Hm1, Hr1 in Hrdy.
  pose proof (rn_valid _ _ _ _ Hrn (cpu v2) F0 Hc2 Hrdy Ho He) as Hv2.
  set (h2 := set_regs regs0 (set_vx v2 (hs s))).
  assert (0 <= Z.lor (regs0 rflags) 2 < 2 ^ 64) as Hr2 by (by apply lor_range).
  pose proof (loop_write GUEST_RFLAGS (Z.lor (regs0 rflags) 2) h2 ltac:(by right; left) Hc2 Hv2 Hr2
    ltac:(done) ltac:(done)) as Hw.
  apply wp_run in Hw as ([] & h3 & Ew & Hm3 & Hl3 & Ha3 & _ & Hx3 & Hg3 & _).
  exists (Run h3 false false (in_guest s) 0 []).
  assert (vx h3 = set_cpu (hcpu h3) v2 ∧ sh h3 = sh (hs s)) as [Hvx Hsh] by (split; apply Hm3).
  assert (F0 GUEST_RIP = guest_entry img) as Hrip by apply Hrdy.
  split; [|split; [|split; [done|]]].
  - split; [apply Hm3|]. split; [apply Hm3|]. cbn. rewrite Hl3. change (hcpu h2) with (cpu v2). rewrite Hl2.
    split; [done|]. split; [|by rewrite Hg3; apply Hrn].
    rewrite Hx3 by done. change (hcpu h2) with (cpu v2). rewrite Ho, Hrip by (unfold init_fields; by rewrite !not_elem_of_cons; split_and!; try done; apply not_elem_of_nil).
    apply Ha3, Hrn. done.
  - split; [done|]. cbn. rewrite Hvx. cbn. split; [done|]. split; [done|].
    destruct He as (E1 & E2 & E3 & E4 & E5 & E6). unfold ept_enabled. rewrite !Hx3 by done. by split_and!.
  - intros fuel Q HQ. unfold test_run. wstep. apply wp_zoom, wp_zoom. wstep. wstep. apply wp_zoom, wp_zoom, wp_zoom.
    eapply wp_exact; [exact Eon|]. cbn beta iota.
    unfold mbind, prog_bind in Ein. destruct (init_vmcs img v1) as [[r1 v1']|] eqn:E1; [|done].
    wstep. apply wp_zoom, wp_zoom. eapply wp_exact; [exact E1|]. cbn [t_init suite_test].
    wstep. apply wp_zoom, wp_zoom. eapply wp_exact; [exact Ein|].
    change (VMX_TEST_START =? VMX_TEST_START) with true. cbv iota.
    wstep. wstep. wstep. wstep. wstep. wstep. apply wp_zoom. wstep. wstep. apply wp_zoom. cbn [hs set_hs set_exits set_teardown].
    eapply wp_exact; [exact Ew|]. wstep. wstep. wstep. wstep. wstep.
    eapply wp_mono; [exact (wp_bind_inv _ _ _ _ HQ)|]. cbn beta. intros _ s3 H3. by apply wp_bind_inv in H3.
Qed.
End TestRun.

(** ** Properties *)


(** an entry that fails early is not noticed: [failure->early] stays 0 because
    the store that would set it goes to [failure->flags], so that the entry counts
    as one that has succeeded unless the exit before it was an entry failure. *)
Theorem vmx_enter_guest_early {M C : Type} {hw : VmxCpu C} {vl : VmxLaws C} {en : VmxGuest M C}
    {gl : VmxGuestLaws M C} (s : run M C) :
  vm_current (hcpu (hs s)) → vm_valid (M := M) (hcpu (hs s)) → 0 <= gpr (hs s) rsp < 2 ^ 64 →
  vm_launched (M := M) (hcpu (hs s)) ≠ launched s →
  wp vmx_enter_guest (λ r s',
    r.1 = negb (has (vm_field (hcpu (hs s)) EXI_REASON) VMX_ENTRY_FAILURE) ∧
    f_early r.2 = false ∧ f_vmlaunch r.2 = negb (launched s) ∧
    (∃ hi, f_flags r.2 = Some (Z.lor (Z.shiftl hi 32) 1)) ∧
    hmem (hs s') = hmem (hs s) ∧ (∀ x, regs (hs s') x = regs (hs s) x) ∧
    vm_field (hcpu (hs s')) GUEST_RIP = vm_field (hcpu (hs s)) GUEST_RIP) s.
Proof.
  intros Hc Hv Hsp Hl. unfold vmx_enter_guest. wstep. wstep. wstep. wstep. wstep.
  apply wp_zoom. wstep. wstep. wstep. wstep. wstep.
  eapply wp_mono; [apply loop_write; [by left|done|done|by cbn|done|done]|].
  intros [] h1 (Hm1 & Hl1 & Ha1 & Hf1 & Hx1 & Hg1 & Hr1 & Har1). wstep. wstep. wstep. cbn [launched set_in_guest].
  eapply wp_mono.
  { apply (vm_enter_early (xchg_gpr h1) (launched s) (hcpu h1)); [done|apply Hm1|]. by rewrite Hl1. }
  intros r h3. cbn zeta. intros ([f ->] & (Hvx3 & Hsh3 & Hr3 & Har3) & Hg3 & Hc3 & Hl3 & Hf3).
  wstep. wstep. wstep. wstep. wstep. wstep. apply wp_zoom. cbn [hs set_in_guest set_hs].
  apply loop_read; [done|done|]. intros _. wstep. change (hcpu (xchg_gpr h3)) with (hcpu h3).
  cbn [fst snd f_early f_vmlaunch f_flags andb negb hs set_hs].
  rewrite !Hf3, !Hx1 by done. split; [done|]. split; [done|]. split; [done|].
  split; [by eexists|]. split; [|split; [|done]].
  - change (hmem (xchg_gpr h3)) with (hmem h3). unfold hmem. rewrite Hvx3, Hsh3. cbn.
    exact (moved_mem _ _ Hm1).
  - intros x. cbn. rewrite Hg3, Hr3. cbn. rewrite Hr1. by destruct (in_gpr x).
Qed.

(** ** The qualifications *)

(** The bits from [lsb] to [msb]. *)
Definition qual_bits (q lsb n : Z) : Z := (q / 2 ^ lsb) mod 2 ^ n.

Lemma qualification_bit_mask q msb lsb :
  0 <= lsb <= msb → msb < 63 →
  hsi_vm_exit_qualification_bit_mask q msb lsb = Z.shiftl (qual_bits q lsb (msb + 1 - lsb)) lsb.
Proof.
  intros H Hm. unfold hsi_vm_exit_qualification_bit_mask, qual_bits.
  set (n := msb + 1 - lsb). rewrite !Z.shiftl_1_l.
  assert (2 ^ (msb + 1) = 2 ^ n * 2 ^ lsb) as E by (rewrite <- Z.pow_add_r by lia; f_equal; lia).
  assert (0 < 2 ^ lsb) by (apply Z.pow_pos_nonneg; lia). assert (1 <= 2 ^ n) by (apply (Z.pow_le_mono_r 2 0); lia).
  assert (2 ^ (msb + 1) <= 2 ^ 63) by (apply Z.pow_le_mono_r; lia).
  rewrite (wrap_small 64 (2 ^ (msb + 1) - 1)) by lia.
  replace (2 ^ (msb + 1) - 1 - (2 ^ lsb - 1)) with (Z.shiftl (Z.ones n) lsb)
    by (rewrite Z.shiftl_mul_pow2, Z.ones_equiv by lia; nia).
  rewrite wrap_small by (rewrite Z.shiftl_mul_pow2, Z.ones_equiv by lia; nia).
  rewrite <- Z.land_ones, <- Z.shiftr_div_pow2 by lia. apply Z.bits_inj'. intros i Hi.
  rewrite Z.land_spec, !Z.shiftl_spec by lia. destruct (Z.ltb_spec i lsb).
  - rewrite !(Z.testbit_neg_r _ (i - lsb)) by lia. apply andb_false_r.
  - rewrite Z.land_spec, Z.shiftr_spec by lia. by replace (i - lsb + lsb) with i by lia.
Qed.

Lemma qual_bits_range q lsb n : 0 <= n → 0 <= qual_bits q lsb n < 2 ^ n.
Proof. intros H. apply Z.mod_pos_bound. by apply Z.pow_pos_nonneg. Qed.

Lemma cr_access_eq cr ty n t :
  0 <= cr < 16 → 0 <= n < 16 →
  (Z.lor cr (Z.shiftl ty 4) =? Z.lor n (Z.shiftl t 4)) = (cr =? n) && (ty =? t).
Proof.
  intros H1 H2. rewrite !Z.shiftl_mul_pow2, !(Z.lor_comm _ (_ * _)), !lor_add by lia.
  destruct (Z.eqb_spec cr n), (Z.eqb_spec ty t); cbn [andb]; lia.
Qed.

(** What is recorded about an access to the control register [cr] of type [ty] with
    the value [v]. *)
Definition cr_event (cr ty v : Z) : list (info_field * Z) :=
  match cr, ty with
  | 3, 1 => [(cr_qualification, VM_EXIT_STORE_CR3)]
  | 3, 0 => [(cr_qualification, VM_EXIT_LOAD_CR3)]
  | 8, 1 => [(cr_qualification, VM_EXIT_STORE_CR8)]
  | 8, 0 => [(cr_qualification, VM_EXIT_LOAD_CR8)]
  | 0, 0 => if has v X86_CR0_CD then [(is_vm_exit VM_EXIT_WRITE_CR0_CD, VM_EXIT_OCCURS)]
      else if has v X86_CR0_MP then [(is_vm_exit VM_EXIT_WRITE_CR0_MP, VM_EXIT_OCCURS)] else []
  | 4, 0 => if has v X86_CR4_SMEP then [(is_vm_exit VM_EXIT_WRITE_CR4_SMEP, VM_EXIT_OCCURS)]
      else if has v X86_CR4_PVI then [(is_vm_exit VM_EXIT_WRITE_CR4_PVI, VM_EXIT_OCCURS)] else []
  | _, _ => [(cr_qualification, VM_EXIT_QUALIFICATION_OTHERS_CR)]
  end.

Definition info_puts (l : list (info_field * Z)) (h : shared) : shared :=
  Shared (hypercall_field h) (stage h) (start_run_id h)
    (foldr (λ '(f, v) i, <[f := v]> i) (vm_exit_info h) l).

Lemma info_puts_app l l' h : info_puts (l ++ l') h = info_puts l (info_puts l' h).
Proof. unfold info_puts. cbn. by rewrite foldr_app. Qed.

Section InfoFacts.
Context {M C : Type}.

Definition informed (l : list (info_field * Z)) (s : host M C) : host M C := set_sh (info_puts l (sh s)) s.

Lemma informed_app l l' s : informed (l ++ l') s = informed l (informed l' s).
Proof using Type. unfold informed. by rewrite info_puts_app. Qed.

Lemma put_info_wp f v (Q : unit → host M C → Prop) s : Q () (informed [(f, v)] s) → wp (put_info f v) Q s.
Proof using Type. done. Qed.

Lemma ret_info_wp (Q : unit → host M C → Prop) s : Q () (informed [] s) → wp (mret ()) Q s.
Proof using Type. by destruct s as [? ? ? [] ?]. Qed.

Lemma handler_exit_common_wp (Q : unit → host M C → Prop) s :
  Q () (informed [(exit_reason, arch_reason (arch s))] s) → wp handler_exit_common Q s.
Proof using Type. done. Qed.

Lemma vcpu_get_gpreg_wp n (Q : Z → host M C → Prop) s :
  (n < 16)%nat → Q (regs s (nth n gp_reg rax)) s → wp (vcpu_get_gpreg n) Q s.
Proof using Type.
  intros Hn HQ. unfold vcpu_get_gpreg. destruct (gp_reg !! n) as [r|] eqn:Er.
  - rewrite (nth_lookup_Some _ _ _ _ Er) in HQ. exact HQ.
  - apply lookup_ge_None in Er. cbn in Er. lia.
Qed.
End InfoFacts.

(** [handler_exit_cr_access] decodes the exit qualification (register, type of
    access, general register) and records the access and nothing else; the value
    written is that of the general register, except that [regs.rsp], which
    no exit saves, stands for the stack pointer. *)
Theorem handler_exit_cr_access_records {M C : Type} (s : host M C) :
  let q := arch_qualification (arch s) in
  let v := regs s (nth (Z.to_nat (qual_bits q 8 4)) gp_reg rax) in
  0 <= q →
  wp handler_exit_cr_access (λ _ s', s' = informed (cr_event (qual_bits q 0 4) (qual_bits q 4 2) v ++
    [(exit_qualification, q); (exit_reason, arch_reason (arch s))]) s) s.
Proof.
  intros q v Hq. rewrite informed_app. unfold handler_exit_cr_access.
  wstep. apply handler_exit_common_wp. wstep. wstep. wstep. apply put_info_wp.
  change (arch_qualification _) with q. change (informed [(exit_qualification, q)] _) with
    (informed [(exit_qualification, q); (exit_reason, arch_reason (arch s))] s). set (s1 := informed _ s). cbv zeta.
  unfold hsi_vm_exit_cr_access_cr_num, hsi_vm_exit_cr_access_reg_idx, hsi_vm_exit_cr_access_type.
  rewrite !qualification_bit_mask by lia. rewrite Z.shiftl_0_r, Z.shiftr_shiftl_l, Z.shiftl_0_r by lia.
  change (3 + 1 - 0) with 4. change (11 + 1 - 8) with 4. change (5 + 1 - 4) with 2.
  pose proof (qual_bits_range q 0 4 ltac:(lia)) as Hcr. pose proof (qual_bits_range q 4 2 ltac:(lia)) as Hty.
  pose proof (qual_bits_range q 8 4 ltac:(lia)) as Hi. change (2 ^ 4) with 16 in *. change (2 ^ 2) with 4 in *.
  rewrite (wrap_small 32) by lia. rewrite (wrap_small 8) by lia.
  rewrite (proj2 (Z.leb_gt CPU_REG_BUFF _)) by (unfold CPU_REG_BUFF; lia).
  wstep. apply vcpu_get_gpreg_wp; [lia|]. change (regs s1 _) with v.
  rewrite !cr_access_eq by (done || unfold VM_EXIT_CR3_NUM, VM_EXIT_CR8_NUM, VM_EXIT_CR0_NUM, VM_EXIT_CR4_NUM; lia).
  clearbody s1 v. set (cr := qual_bits q 0 4) in *. set (ty := qual_bits q 4 2) in *. clearbody cr ty.
  assert (ty = 0 ∨ ty = 1 ∨ ty = 2 ∨ ty = 3) as Ht by lia.
  assert (cr = 0 ∨ cr = 1 ∨ cr = 2 ∨ cr = 3 ∨ cr = 4 ∨ cr = 5 ∨ cr = 6 ∨ cr = 7 ∨ cr = 8 ∨ cr = 9 ∨ cr = 10 ∨
    cr = 11 ∨ cr = 12 ∨ cr = 13 ∨ cr = 14 ∨ cr = 15) as Hc by lia.
  clear - Ht Hc. destruct_or! Hc; subst cr; destruct_or! Ht; subst ty; cbn [cr_event Z.eqb Pos.eqb andb
    VM_EXIT_CR3_NUM VM_EXIT_CR8_NUM VM_EXIT_CR0_NUM VM_EXIT_CR4_NUM ACCESS_TYPE_MOV_TO_CR ACCESS_TYPE_MOV_FROM_CR];
    repeat case_match; first [by apply put_info_wp|by apply ret_info_wp].
Qed.

(** ** The conditions and the hypercalls *)

Section ExitFacts.
Context {M C : Type} {ops : PageAlloc M} {hw : VmxCpu C} {vl : VmxLaws C} {en : VmxGuest M C}.
Notation host := (host M C).

Lemma host_read f (s : host) (Q : Z → host → Prop) :
  Z.even f = true → vm_current (hcpu s) →
  (0 <= vm_field (hcpu s) f < 2 ^ field_width f → Q (vm_field (hcpu s) f) s) →
  wp (on_hcpu (vmcs_read f)) Q s.
Proof using Type.
  intros He Hc HQ. apply wp_zoom, wp_zoom. eapply wp_mono; [by apply vmcs_read_wp|].
  intros v c' (-> & -> & Hr). cbn.
  replace (set_vx (set_cpu (cpu (vx s)) (vx s)) s) with s; [by apply HQ|]. by destruct s as [[] ? ? ? ?].
Qed.

Lemma host_write_rip v (s : host) (Q : unit → host → Prop) :
  vm_current (hcpu s) → 0 <= v < 2 ^ 64 →
  (∀ c', vm_current c' → vm_field c' GUEST_RIP = v →
    (∀ g, g ≠ GUEST_RIP → vm_field c' g = vm_field (hcpu s) g) → Q () (set_vx (set_cpu c' (vx s)) s)) →
  wp (on_hcpu (vmcs_write GUEST_RIP v)) Q s.
Proof using Type.
  intros Hc Hv HQ. apply wp_zoom, wp_zoom. eapply wp_mono; [by apply vmcs_write_wp|].
  intros [] c' (Hc' & Hf & _). apply HQ; [done| |].
  - rewrite Hf. unfold vm_set. change (Z.odd GUEST_RIP) with false. cbv iota. rewrite Z.eqb_refl. by apply wrap_small.
  - intros g Hg. rewrite Hf. by apply vm_set_other.
Qed.

(** The information of an exit is read into [vcpu->arch]. *)
Lemma read_exit_wp (s : host) (Q : Z * Z * Z → host → Prop) (F := vm_field (hcpu s)) :
  vm_current (hcpu s) →
  (0 <= F GUEST_RIP < 2 ^ 64 → 0 <= F EXI_INST_LEN < 2 ^ 32 →
   let reason := Z.land (F EXI_REASON) 0xff in
   Q (F GUEST_RIP, reason, F EXI_INST_LEN)
    (set_arch (Arch reason (F GUEST_RIP) (F EXI_INST_LEN) (u32 (F EXI_QUALIFICATION))) s)) →
  wp read_exit Q s.
Proof using Type.
  intros Hc HQ. unfold read_exit. wstep. apply host_read; [done|done|]. intros Hrip. wstep.
  apply host_read; [done|done|]. intros _. wstep. apply host_read; [done|done|]. intros Hlen. wstep.
  apply host_read; [done|done|]. intros _. wstep. wstep. wstep.
  change (2 ^ field_width EXI_INST_LEN) with (2 ^ 32) in Hlen. rewrite (wrap_small 32 (vm_field _ EXI_INST_LEN)) by done.
  by apply HQ.
Qed.

Lemma has_with_bit old bit set : bit ≠ 0 → has (with_bit old bit set) bit = (set =? BIT_TYPE_SET).
Proof using Type.
  intros Hb. unfold with_bit. destruct (set =? BIT_TYPE_SET); [by apply has_lor_self|].
  unfold has. apply negb_false_iff, Z.eqb_eq. apply Z.bits_inj'. intros i Hi.
  rewrite !Z.land_spec, Z.lnot_spec, Z.bits_0 by done. destruct (Z.testbit bit i); [|by rewrite andb_false_r].
  by rewrite andb_false_r.
Qed.

Lemma built_conditions_ok condition f bit set :
  (condition, (f, bit, set)) ∈ built_conditions →
  f ∈ [PIN_CONTROLS; CPU_EXEC_CTRL0; CPU_EXEC_CTRL1; EXI_CONTROLS; ENT_CONTROLS] ∧ 0 < bit < 2 ^ 32 ∧
  condition < CON_BUFF.
Proof using Type.
  intros H. assert (Forall (λ '(c, (f, b, _)),
    bool_decide (f ∈ [PIN_CONTROLS; CPU_EXEC_CTRL0; CPU_EXEC_CTRL1; EXI_CONTROLS; ENT_CONTROLS] ∧
      0 < b < 2 ^ 32 ∧ c < CON_BUFF) = true) built_conditions) as Hall by (repeat constructor).
  rewrite Forall_forall in Hall. specialize (Hall _ H). by apply bool_decide_eq_true in Hall.
Qed.
End ExitFacts.

(** A VMCALL for a condition that BUILD_CONDITION_FUNC defines sets or clears
    its bit in its field and moves the guest behind the VMCALL; besides the three
    fields that are initialised each time, nothing else changes. *)
Theorem vmcall_sets_condition {M C : Type} {ops : PageAlloc M} {hw : VmxCpu C} {vl : VmxLaws C}
    {en : VmxGuest M C} (t : vmcall_tables M C) (s : host M C) f bit set :
  (stage (sh s), (f, bit, set)) ∈ built_conditions →
  vmcall_exit t (stage (sh s)) = Some (condition_func (f, bit, set)) →
  vm_current (hcpu s) → Z.land (vm_field (hcpu s) EXI_REASON) 0xff = VMX_VMCALL →
  wp (vm_exec_con_host_exit_handler t) (λ r s', r = VMX_TEST_RESUME ∧
    has (vm_field (hcpu s') f) bit = (set =? BIT_TYPE_SET) ∧
    vm_field (hcpu s') GUEST_RIP =
      u64 (vm_field (hcpu s) GUEST_RIP + vm_field (hcpu s) EXI_INST_LEN) ∧
    (∀ g, g ∉ [GUEST_RIP; f; PIN_CONTROLS; CPU_EXEC_CTRL0; CPU_EXEC_CTRL1] →
      vm_field (hcpu s') g = vm_field (hcpu s) g) ∧
    hmem s' = hmem s ∧ regs s' = regs s) s.
Proof.
  intros Hin Ht Hc Hr. destruct (built_conditions_ok _ _ _ _ Hin) as (Hf & Hb & Hlt).
  unfold vm_exec_con_host_exit_handler. wstep. apply read_exit_wp; [done|]. intros Hrip Hlen. cbv zeta.
  cbn beta iota. rewrite Hr. change (VMX_VMCALL =? VMX_VMCALL) with true. cbv iota.
  unfold vmx_get_test_condition. wstep. wstep. change (stage (sh (set_arch _ s))) with (stage (sh s)).
  rewrite (proj2 (Z.ltb_lt _ _) Hlt), Ht. wstep. unfold condition_func. apply wp_zoom, wp_zoom.
  eapply wp_mono; [apply exec_vmwrite32_bit_wp; [done|done|lia]|]. intros [] c2 (Hc2 & _ & _ & Hf2). wstep.
  apply host_write_rip; [done|by apply wrap_range|]. intros c3 Hc3 Hrip3 Ho3. wstep.
  unfold hcpu in *. cbn [vx cpu set_vx set_cpu set_arch] in *.
  split; [done|]. split; [|split; [done|split; [|split; [done|done]]]].
  - rewrite Ho3, Hf2, Z.eqb_refl; [apply has_with_bit; lia|].
    rewrite !elem_of_cons, elem_of_nil in Hf. destruct_or! Hf; by subst.
  - intros g Hg. rewrite !not_elem_of_cons in Hg. destruct Hg as (N1 & N2 & N3 & N4 & N5 & _).
    rewrite Ho3, Hf2, (proj2 (Z.eqb_neq g f)) by done. unfold default_field.
    by rewrite !(proj2 (Z.eqb_neq _ _)).
Qed.

(** What the host makes of a hypercall. *)
Definition hypercall_result (hypercall_no : Z) : Z :=
  match Z.land hypercall_no HYPERCALL_MASK with
  | 1 => VMX_TEST_VMEXIT | 2 => VMX_TEST_VMABORT | 3 => VMX_TEST_VMSKIP | _ => VMX_TEST_EXIT
  end.

(** the number of a hypercall survives the way through [hypercall_field], which
    is empty afterwards, so that the next VMCALL is no hypercall. *)
Theorem hypercall_roundtrip {M C : Type} {ops : PageAlloc M} {hw : VmxCpu C} {vl : VmxLaws C}
    {en : VmxGuest M C} (hypercall_no : Z) (k : guest M) (m : gmem M) (s : host M C) e m' :
  gnext (hypercall hypercall_no k) m = Some (e, k, m') → hmem s = m' →
  vm_current (hcpu s) → vm_field (hcpu s) EXI_REASON = e_reason e →
  wp (b ← is_hypercall; r ← handle_hypercall; b' ← is_hypercall; mret (b, r, b')) (λ x s',
    x = (true, hypercall_result hypercall_no, false) ∧
    s' = set_sh (set_hypercall_field 0 (sh s)) s) s.
Proof.
  cbn. intros [= <- <-] Hm Hc He. unfold is_hypercall.
  assert (hypercall_field (sh s) = Z.lor (Z.land hypercall_no HYPERCALL_MASK) HYPERCALL_BIT) as Hh
    by (by injection Hm as _ ->).
  assert (Z.land (hypercall_field (sh s)) HYPERCALL_BIT = HYPERCALL_BIT ∧
    Z.land (hypercall_field (sh s)) HYPERCALL_MASK = Z.land hypercall_no HYPERCALL_MASK) as [H1 H2].
  { rewrite Hh, !Z.land_lor_distr_l, <- !Z.land_assoc. change (Z.land HYPERCALL_MASK HYPERCALL_BIT) with 0.
    change (Z.land HYPERCALL_BIT HYPERCALL_MASK) with 0. rewrite !Z.land_diag, Z.land_0_r, Z.lor_0_r. done. }
  wstep. wstep. apply host_read; [done|done|]. intros _. wstep. wstep. wstep. rewrite He, H1.
  unfold handle_hypercall. wstep. wstep. wstep. wstep. wstep. wstep. wstep. wstep. apply host_read; [done|done|]. intros _.
  wstep. wstep. wstep. wstep. split; [|done]. rewrite H2. unfold hypercall_result.
  change (hypercall_field (sh (set_sh _ s))) with 0. change (negb (Z.land 0 HYPERCALL_BIT =? 0)) with false.
  rewrite andb_false_r. f_equal. f_equal.
  set (n := Z.land _ _). clearbody n. unfold HYPERCALL_VMEXIT, HYPERCALL_VMABORT, HYPERCALL_VMSKIP.
  destruct n as [|[[]|[]|]|]; done.
Qed.

(** ** Witnesses *)

(** A processor with the code of a guest: [xcode] while the VMCS is launched, the
    text of the program before. *)
Record ex_gproc := ExGProc { xp : ex_proc; xl : bool; xcode : Z → guest pages }.
Definition set_xp (p : ex_proc) (c : ex_gproc) : ex_gproc := ExGProc p (xl c) (xcode c).

#[export] Instance ex_gproc_cpu : VmxCpu ex_gproc := {|
  vmcs_read f := zoom xp set_xp (vmcs_read f);
  vmcs_write f v := zoom xp set_xp (vmcs_write f v);
  rdmsr n := zoom xp set_xp (rdmsr n);
  read_cr0 := zoom xp set_xp read_cr0;
  read_cr3 := zoom xp set_xp read_cr3;
  read_cr4 := zoom xp set_xp read_cr4;
  write_cr0 v := zoom xp set_xp (write_cr0 v);
  write_cr4 v := zoom xp set_xp (write_cr4 v);
  vmcs_clear p := zoom xp set_xp (vmcs_clear p);
  make_vmcs_current p := modify (λ c, ExGProc (xp c) false (xcode c));; zoom xp set_xp (make_vmcs_current p);
|}.

Lemma set_xp_same c : set_xp (xp c) c = c.
Proof. by destruct c. Qed.

#[export, refine] Instance ex_gproc_laws : VmxLaws ex_gproc := {|
  vm_current c := vm_current (xp c);
  vm_field c := vm_field (xp c);
  vm_msr c := vm_msr (xp c);
  vm_cr c := vm_cr (xp c);
|}.
Proof.
  - intros c f Hc He. apply wp_zoom. eapply wp_mono; [by apply vmcs_read_wp|].
    intros v c' (-> & H). by rewrite set_xp_same.
  - intros c f v Hc Hw Hv. apply wp_zoom. by apply vmcs_write_wp.
  - intros c n. apply wp_zoom. eapply wp_mono; [apply rdmsr_wp|]. intros v c' (-> & H). by rewrite set_xp_same.
  - intros c. apply wp_zoom. eapply wp_mono; [apply read_cr0_wp|]. intros v c' (-> & H). by rewrite set_xp_same.
  - intros c. apply wp_zoom. eapply wp_mono; [apply read_cr3_wp|]. intros v c' (-> & H). by rewrite set_xp_same.
  - intros c. apply wp_zoom. eapply wp_mono; [apply read_cr4_wp|]. intros v c' (-> & H). by rewrite set_xp_same.
  - intros c v Hv. apply wp_zoom. by apply write_cr0_wp.
  - intros c v Hv. apply wp_zoom. by apply write_cr4_wp.
  - intros c p. apply wp_zoom. apply vmcs_clear_wp.
  - intros c p. apply wp_bind, wp_modify, wp_zoom. exact (make_vmcs_current_wp (xp c) p).
Defined.

(** Three cases: HLT does not exit, a case without a condition, and RDTSCP is
    enabled, where the case executes RDPMC, which exits. *)
Definition ex_suite : list (Z * (guest pages → guest pages)) :=
  [(6, λ k, k); (CON_BUFF, λ k, GDo (λ m, m) (λ _, k)); (35, λ k, GExit (VmExit VMX_RDPMC 0 2 0) k)].

Definition ex_code_at (c : ex_gproc) (a : Z) : guest pages :=
  if xl c then xcode c a
  else if a =? guest_entry ex_image then guest_entry_code ex_suite else GStop.

(** The processor after an exit of the instruction at [a]. *)
Definition ex_exit (e : vmexit) (k : guest pages) (a : Z) (c : ex_gproc) : ex_gproc :=
  let p := xp c in
  ExGProc (ExProc (λ f, if f =? EXI_REASON then e_reason e else if f =? EXI_QUALIFICATION then e_qual e
    else if f =? EXI_INST_LEN then e_len e else if f =? VMX_EXIT_INT_INFO then e_info e
    else if f =? GUEST_RFLAGS then 2 else xf p f) (xmsr p) (xcr p) (xcur p)) true
    (λ b, if b =? a then GExit e k else if b =? u64 (a + e_len e) then k else ex_code_at c b).

#[export] Instance ex_guest : VmxGuest pages ex_gproc := {|
  vm_enter l s :=
    let c := hcpu s in let a := vm_field c GUEST_RIP in
    if eqb (xl c) l then
      match gnext (ex_code_at c a) (hmem s) with
      | Some (e, k, m) => Ret (Exited, Host (set_cpu (ex_exit e k a c) (set_mm m.1 (vx s)))
          (<[rsp := vm_field c HOST_RSP]> (gpr s)) (regs s) m.2 (arch s))
      | None => Stop Spin
      end
    else Ret (Failed 0x46, s);
  wrmsr n v := mret ();
  invept n p := mret false;
  vmxon p := mret false;
  vmxoff := mret false;
|}.

#[export, refine] Instance ex_guest_laws : VmxGuestLaws pages ex_gproc := {|
  vm_launched := xl;
  vm_valid _ := True;
  vm_at c a g := ex_code_at c a = g;
  vm_clear _ _ := True;
|}.
Proof.
  - intros c f v Hc Hw Hv. apply wp_zoom. by apply wp_modify.
  - intros s g e k m c F -> Hc _ Ha Hg (He1 & He2 & He3 & He4). unfold wp. cbn. rewrite eqb_reflx.
    change (ex_code_at (hcpu s) (F GUEST_RIP) = g) in Ha. subst F. cbn in Ha. rewrite Ha, Hg.
    assert (0 <= wrap 64 (xf (xp (hcpu s)) GUEST_RIP) < 2 ^ 64) as Hr by by apply wrap_range.
    unfold hcpu at 1. cbn. set (a := wrap _ _) in *.
    split; [done|]. split; [done|]. split; [done|]. split; [done|]. split; [done|]. split; [done|].
    split; [|split; [|split; [|split; [|split; [|split; [done|split]]]]]].
    + intros f Hf. cbn. repeat match goal with |- context [f =? ?x] => destruct (Z.eqb_spec f x) as [->|]; [by vm_compute in Hf|] end. done.
    + apply (wrap_small 32). lia.
    + by apply (wrap_small 64).
    + apply (wrap_small 32). lia.
    + by apply (wrap_small 32).
    + cbn. unfold ex_code_at. cbn. fold a. by rewrite Z.eqb_refl.
    + cbn. unfold ex_code_at. cbn. fold a. rewrite Z.eqb_refl.
      destruct (Z.eqb_spec (u64 (a + e_len e)) a) as [E|]; [|done]. exfalso. revert E Hr He3. clear. mlia.
  - intros s l c F -> Hc Hl. unfold wp. cbn. rewrite (proj2 (eqb_false_iff _ _)) by done.
    split; [by eexists|]. split; [|done]. split; [|done]. by destruct s as [[]].
  - intros c p. cbn. by wsteps.
  - intros c p. cbn. by wsteps.
  - intros c f. cbn. by wsteps.
  - intros c f v. cbn. by wsteps.
  - intros c p. cbn. by wsteps.
  - intros c. cbn. by wsteps.
Defined.

#[export] Instance ex_teardown : Teardown (M := pages) (C := ex_gproc) := {| run_teardown_step _ _ := mret () |}.

Lemma ex_keeps_code f b set (c : ex_gproc) :
  wp (exec_vmwrite32_bit f b set) (λ _ c', xl c' = xl c ∧ xcode c' = xcode c) c.
Proof.
  unfold exec_vmwrite32_bit, vm_exec_ctrl_init, check_vmx_ctrl. cbn. repeat first [wstep | apply wp_zoom].
  by cbn.
Qed.

Lemma ex_condition f b set (s : host pages ex_gproc) :
  f ∈ [PIN_CONTROLS; CPU_EXEC_CTRL0; CPU_EXEC_CTRL1; EXI_CONTROLS; ENT_CONTROLS] → 0 < b < 2 ^ 32 →
  vm_current (hcpu s) →
  wp (condition_func (f, b, set)) (λ _ s2, untouched s s2 ∧ sh s2 = sh s ∧
    has (vm_field (hcpu s2) f) b = (set =? BIT_TYPE_SET)) s.
Proof.
  intros Hf Hb Hc. unfold condition_func. apply wp_zoom, wp_zoom.
  eapply wp_mono; [apply wp_and; [apply exec_vmwrite32_bit_wp; [done|done|lia]|apply ex_keeps_code]|].
  intros [] c2 [(Hc2 & _ & _ & Hf2) [Hl Hx]].
  assert (∀ g, g ≠ PIN_CONTROLS → g ≠ CPU_EXEC_CTRL0 → g ≠ CPU_EXEC_CTRL1 → g ≠ f →
    vm_field c2 g = vm_field (hcpu s) g) as Ho.
  { intros g N1 N2 N3 N4. rewrite Hf2, (proj2 (Z.eqb_neq g f)) by done. unfold default_field.
    by rewrite !(proj2 (Z.eqb_neq _ _)). }
  assert (f ≠ GUEST_RIP ∧ f ≠ GUEST_RFLAGS) as [N1 N2].
  { rewrite !elem_of_cons, elem_of_nil in Hf. destruct_or! Hf; by subst. }
  split; [|split; [done|]].
  - split; [done|]. split; [done|]. split; [done|]. split.
    + intros a g Ha. cbn in *. unfold ex_code_at in *. unfold hcpu in *. cbn. by rewrite Hl, Hx.
    + split; [by apply Ho|]. by split.
  - unfold hcpu. cbn [vx cpu set_vx set_cpu]. rewrite Hf2, Z.eqb_refl. apply has_with_bit. lia.
Qed.

Definition ex_tables : vmcall_tables pages ex_gproc := Tables
  (λ c, condition_func ∘ snd <$> find (λ p, p.1 =? c) built_conditions) (λ _, None).

Definition ex_quiet (h : host pages ex_gproc) : Prop := hypercall_field (sh h) = 0.
Definition ex_rdtscp (h : host pages ex_gproc) : Prop :=
  ex_quiet h ∧ has (vm_field (hcpu h) CPU_EXEC_CTRL1) CPU_RDTSCP = true.
Definition ex_done (h : host pages ex_gproc) : Prop :=
  ex_rdtscp h ∧ vm_exit_info (sh h) exit_reason = VMX_RDPMC.

Lemma ex_rdtscp_moved h h' : moved h h' → ex_rdtscp h → ex_rdtscp h'.
Proof.
  intros (_ & Hs & _ & _ & Hf) [H1 H2]. split; [by unfold ex_quiet; rewrite Hs|]. by rewrite Hf.
Qed.

Lemma ex_suite_ok : suite_ok ex_tables ex_suite ex_quiet ex_done.
Proof.
  apply suite_cons with (J := ex_quiet) (P' := ex_quiet).
  - intros s HP. cbn zeta. change (6 =? CON_BUFF) with false. cbv iota. split; [by rewrite HP|].
    eexists. split; [reflexivity|]. intros s1 Hm _.
    eapply wp_mono; [apply (ex_condition CPU_EXEC_CTRL0 CPU_HLT BIT_TYPE_CLEAR); [set_solver|done|apply Hm]|].
    intros [] s2 (Hu & Hs & _). split; [done|]. unfold ex_quiet. rewrite Hs. destruct Hm as (_ & -> & _). done.
  - intros k Q Hk s HP. by apply Hk.
  - apply suite_cons with (J := ex_quiet) (P' := ex_quiet).
    + intros s HP. cbn zeta. change (CON_BUFF =? CON_BUFF) with true. done.
    + intros k Q Hk s HP. cbn [gwp]. rewrite with_own_mem. by apply Hk.
    + apply suite_cons with (J := ex_rdtscp) (P' := ex_done); [| |apply suite_nil].
      * intros s HP. cbn zeta. change (35 =? CON_BUFF) with false. cbv iota. split; [by rewrite HP|].
        eexists. split; [reflexivity|]. intros s1 Hm _.
        eapply wp_mono; [apply (ex_condition CPU_EXEC_CTRL1 CPU_RDTSCP BIT_TYPE_SET); [set_solver|done|apply Hm]|].
        intros [] s2 (Hu & Hs & Hh). split; [done|]. split; [|done].
        unfold ex_quiet. rewrite Hs. destruct Hm as (_ & -> & _). done.
      * intros k Q Hk s HJ. cbn [gwp]. split; [by repeat split|]. intros s1 Hm.
        change (hypercalled _ _) with false. cbv iota. intros [Ha _]. exists handler_exit_common.
        rewrite Ha. split; [reflexivity|]. apply handler_exit_common_wp.
        assert (ex_rdtscp s1) as HJ1 by by eapply ex_rdtscp_moved.
        split; [by split_and!; try apply Hm|]. apply Hk. split; [done|].
        cbn. by rewrite Ha.
Qed.

(** The pages of 32M, and a machine that has not run a test. *)
Definition ex_gvmx : vmx pages ex_gproc :=
  Vmx (fresh_pages 0x100000 8191) (ExGProc ex_proc0 false (λ _, GStop)) ex_caps (Ctrls 0 0 0 0 0) 0 0 0 0 (Vcpu 0 0 0).
Definition ex_host : host pages ex_gproc :=
  Host ex_gvmx (λ _, 0x9000) (λ _, 0) (Shared 0 0 0 (λ _, 0)) (Arch 0 0 0 0).
Definition ex_run : run pages ex_gproc := Run ex_host false false false 0 [].

Lemma ex_runnable : runnable ex_image ex_suite ex_run 0x100000 0x101000 (page_seq 0x102000 8190).
Proof.
  split.
  - apply ex_image_ok.
  - split; [|split].
    + apply (fresh_pages_ok 0x100000 8191); [by repeat split|by vm_compute].
    + intros q Hq. assert (q ∈ page_seq 0x100000 8192) as Hin by exact Hq.
      apply elem_of_page_seq in Hin as (i & Hi & ->).
      assert (i < 8192) as Hi8 by (apply (Z.lt_le_trans _ _ _ (proj2 Hi)); by vm_compute).
      clear - Hi8. change PAGE_SIZE with 4096. lia.
    + rewrite length_page_seq. by vm_compute.
  - by repeat split; vm_compute.
  - by vm_compute.
  - split; [|done]. intros c x. split; cbn; by wsteps.
  - intros c Hc. cbn in *. unfold ex_code_at. by rewrite Hc.
  - done.
Qed.


(** The first entry of a run whose VMCS is not clear. *)
Definition ex_stale : run pages ex_gproc :=
  Run (Host (set_cpu (ExGProc ex_proc0 true (λ _, GStop)) ex_gvmx) (λ _, 0x9000) (λ _, 0) (Shared 0 0 0 (λ _, 0))
    (Arch 0 0 0 0)) false false false 0 [].

Lemma vmx_enter_guest_early_witness :
  wp vmx_enter_guest (λ r s',
    r.1 = negb (has (vm_field (hcpu (hs ex_stale)) EXI_REASON) VMX_ENTRY_FAILURE) ∧
    f_early r.2 = false ∧ f_vmlaunch r.2 = negb (launched ex_stale) ∧
    (∃ hi, f_flags r.2 = Some (Z.lor (Z.shiftl hi 32) 1)) ∧
    hmem (hs s') = hmem (hs ex_stale) ∧ (∀ x, regs (hs s') x = regs (hs ex_stale) x) ∧
    vm_field (hcpu (hs s')) GUEST_RIP = vm_field (hcpu (hs ex_stale)) GUEST_RIP) ex_stale.
Proof. apply (vmx_enter_guest_early ex_stale); [done|done|by vm_compute|done]. Defined.

(** [mov %rdx, %cr0] with CD set. *)
Definition ex_cr : host pages ex_gproc :=
  Host ex_gvmx (λ _, 0) (<[rdx := X86_CR0_CD]> (λ _, 0)) (Shared 0 0 0 (λ _, 0)) (Arch VMX_CR 0x400300 3 0x200).

Lemma handler_exit_cr_access_records_witness :
  wp handler_exit_cr_access (λ _ s', s' = informed (cr_event (qual_bits 0x200 0 4) (qual_bits 0x200 4 2)
      (regs ex_cr (nth (Z.to_nat (qual_bits 0x200 8 4)) gp_reg rax)) ++
    [(exit_qualification, 0x200); (exit_reason, VMX_CR)]) ex_cr) ex_cr.
Proof. apply (handler_exit_cr_access_records ex_cr). by vm_compute. Defined.

(** A VMCALL for the condition of HLT. *)
Definition ex_vmcall : host pages ex_gproc :=
  Host (set_cpu (ExGProc (ExProc (λ f, if f =? EXI_REASON then VMX_VMCALL else if f =? EXI_INST_LEN then 3 else 0)
      ex_msr (λ _, 0) true) true (λ _, GStop)) ex_gvmx) (λ _, 0) (λ _, 0)
    (Shared (Z.lor HYPERCALL_BIT HYPERCALL_VMEXIT) 6 0 (λ _, 0)) (Arch 0 0 0 0).

Lemma vmcall_sets_condition_witness :
  wp (vm_exec_con_host_exit_handler ex_tables) (λ r s', r = VMX_TEST_RESUME ∧
    has (vm_field (hcpu s') CPU_EXEC_CTRL0) CPU_HLT = (BIT_TYPE_CLEAR =? BIT_TYPE_SET) ∧
    vm_field (hcpu s') GUEST_RIP =
      u64 (vm_field (hcpu ex_vmcall) GUEST_RIP + vm_field (hcpu ex_vmcall) EXI_INST_LEN) ∧
    (∀ g, g ∉ [GUEST_RIP; CPU_EXEC_CTRL0; PIN_CONTROLS; CPU_EXEC_CTRL0; CPU_EXEC_CTRL1] →
      vm_field (hcpu s') g = vm_field (hcpu ex_vmcall) g) ∧
    hmem s' = hmem ex_vmcall ∧ regs s' = regs ex_vmcall) ex_vmcall.
Proof.
  apply (vmcall_sets_condition ex_tables ex_vmcall CPU_EXEC_CTRL0 CPU_HLT BIT_TYPE_CLEAR).
  - by apply (list_elem_of_lookup_2 _ 3).
  - reflexivity.
  - done.
  - done.
Defined.

Lemma hypercall_roundtrip_witness :
  wp (b ← is_hypercall; r ← handle_hypercall; b' ← is_hypercall; mret (b, r, b')) (λ x s',
    x = (true, hypercall_result HYPERCALL_VMEXIT, false) ∧
    s' = set_sh (set_hypercall_field 0 (sh ex_vmcall)) ex_vmcall) ex_vmcall.
Proof.
  apply (hypercall_roundtrip HYPERCALL_VMEXIT GStop (mm ex_gvmx, Shared 0 6 0 (λ _, 0)) ex_vmcall
    (VmExit VMX_VMCALL 0 VMCALL_LEN 0) (mm ex_gvmx, Shared (Z.lor HYPERCALL_BIT HYPERCALL_VMEXIT) 6 0 (λ _, 0))).
  - reflexivity.
  - reflexivity.
  - done.
  - done.
Defined.
