(* ===== verification/ConfRegs.v ===== *)
(** * The configuration space as a file of registers

    [RegLaws] refines the configuration mechanism of PciConf: every function has
    64 registers of 32 bits, an access touches the bytes of one register, and a
    bit of a register is read-only, read-write or cleared by writing one, as
    two masks say.  Base address registers are accessed as a whole only.  The
    same registers answer at the memory-mapped address of lib/pci_util.c.
    [Regs] gives the accesses of PciUtil as operations on a store of registers,
    which is what the theorems about the tests of x86/pci.c are stated with. *)

From S2P Require Import Prelude Bits PciConf Pci PciUtil.

#[local] Ltac dlia := Z.div_mod_to_equations; lia.

(** ** Lanes of a register *)

(** The [n] bytes of a register from byte [o]. *)
Definition lane (x o : Z) (n : nat) : Z := wrap (8 * n) (Z.shiftr x (8 * o)).

(** A register with the read-write bits [rw] and the bits [w1] that a one
    clears, after the write of [v] to all its bytes. *)
Definition upd (rw w1 x v : Z) : Z := Z.lor (Z.ldiff x (Z.lor rw (Z.land w1 v))) (Z.land rw v).

(** The write of [v] to the [n] bytes from byte [o]. *)
Definition put_lane (rw w1 x o : Z) (n : nat) (v : Z) : Z :=
  let l := Z.shiftl (Z.ones (8 * n)) (8 * o) in
  upd (Z.land l rw) (Z.land l w1) x (Z.land l (Z.shiftl v (8 * o))).

Lemma lane_range x o n : 0 <= lane x o n < 2 ^ (8 * n).
Proof. apply wrap_range. lia. Qed.

Lemma lane_full x : 0 <= x < 2 ^ 32 → lane x 0 4 = x.
Proof. intros H. unfold lane. rewrite Z.shiftr_0_r. by apply wrap_small. Qed.

Lemma testbit_lane x o n i :
  0 <= o → 0 <= i → Z.testbit (lane x o n) i = (i <? 8 * n) && Z.testbit x (i + 8 * o).
Proof. intros. unfold lane. rewrite testbit_wrap, Z.shiftr_spec by lia. done. Qed.

(** What is written can be read: the lane that was written, through its masks. *)
Lemma lane_put rw w1 x (o : Z) (n : nat) v :
  0 <= o → lane (put_lane rw w1 x o n v) o n = upd (lane rw o n) (lane w1 o n) (lane x o n) (wrap (8 * n) v).
Proof.
  intros Ho. zbits_intro i. rewrite testbit_lane by lia. unfold put_lane, upd.
  autorewrite with zbits. rewrite !testbit_lane by lia.
  replace (i + 8 * o - 8 * o) with i by lia.
  zcases; cbn; rewrite ?andb_false_r; try done; lia.
Qed.

(** A write to bytes [o] to [o + n] leaves the other bytes alone. *)
Lemma lane_put_other rw w1 x (o : Z) (n : nat) v (o' : Z) (n' : nat) :
  0 <= o → 0 <= o' → (o' + n' <= o ∨ o + n <= o') →
  lane (put_lane rw w1 x o n v) o' n' = lane x o' n'.
Proof.
  intros Ho Ho' Hd. zbits_intro i. rewrite !testbit_lane by lia. unfold put_lane, upd.
  autorewrite with zbits.
  zcases; cbn; rewrite ?andb_true_r, ?orb_false_r; try done; lia.
Qed.

Lemma upd_range w rw w1 x v :
  0 <= w → 0 <= x < 2 ^ w → 0 <= v < 2 ^ w → 0 <= upd rw w1 x v < 2 ^ w.
Proof.
  intros Hw Hx Hv. rewrite <- (wrap_small w x), <- (wrap_small w v) by lia.
  assert (upd rw w1 (wrap w x) (wrap w v) = wrap w (upd rw w1 x v)) as ->.
  { unfold upd. zbits_intro i. zcases; cbn; rewrite ?andb_false_r; done. }
  by apply wrap_range.
Qed.

Lemma put_lane_range rw w1 x (o : Z) (n : nat) v :
  0 <= o → o + n <= 4 → 0 <= x < 2 ^ 32 → 0 <= put_lane rw w1 x o n v < 2 ^ 32.
Proof.
  intros Ho Hn Hx. rewrite <- (wrap_small 32 x) by lia.
  assert (put_lane rw w1 (u32 x) o n v = u32 (put_lane rw w1 x o n v)) as ->.
  { unfold put_lane, upd. zbits_intro i.
    zcases; cbn; rewrite ?andb_false_r; done || lia. }
  by apply wrap_range.
Qed.

(** The bits of [m] keep their value, whatever is written. *)
Lemma put_lane_keep rw w1 x (o : Z) (n : nat) v m :
  0 <= o → Z.land m rw = 0 → Z.land (Z.land m w1) x = 0 →
  Z.land (put_lane rw w1 x o n v) m = Z.land x m.
Proof.
  intros Ho H1 H2. unfold put_lane, upd. zbits_intro i.
  assert (Z.testbit m i && Z.testbit rw i = false) as E1 by (by rewrite <- Z.land_spec, H1, Z.bits_0).
  assert (Z.testbit m i && Z.testbit w1 i && Z.testbit x i = false) as E2
    by (by rewrite <- !Z.land_spec, H2, Z.bits_0).
  revert E1 E2.
  destruct (Z.testbit m i), (Z.testbit rw i), (Z.testbit w1 i), (Z.testbit x i); cbn; try done;
    intros _ _; rewrite ?andb_false_r; cbn; rewrite ?andb_false_r, ?orb_false_r; done.
Qed.

(** ** Tests of the kind of a bit *)

(** A test that inverts the bits [m] of a register accepts exactly the bits that
    are not read-write: it cannot tell a bit that is cleared by a one from a
    read-only bit. *)
Lemma toggle_unchanged rw w1 x m :
  Z.land (upd rw w1 x (Z.lxor x m)) m = Z.land x m ↔ Z.land rw m = 0.
Proof.
  split; intros H; zbits_intro i.
  - apply (f_equal (λ z, Z.testbit z i)) in H. unfold upd in H. revert H. autorewrite with zbits.
    destruct (Z.testbit rw i), (Z.testbit w1 i), (Z.testbit x i), (Z.testbit m i); done.
  - apply (f_equal (λ z, Z.testbit z i)) in H. revert H. unfold upd. autorewrite with zbits.
    destruct (Z.testbit rw i), (Z.testbit w1 i), (Z.testbit x i), (Z.testbit m i); done.
Qed.

(** A test that writes [v] and expects it back in the bits [m]. *)
Lemma write_read_back rw w1 x v m :
  Z.land (upd rw w1 x v) m = Z.land v m ↔
  Z.land (Z.ldiff (Z.lxor x v) rw) m = 0 ∧ Z.land (Z.ldiff (Z.land w1 v) rw) m = 0.
Proof.
  split.
  - intros H. split; zbits_intro i; apply (f_equal (λ z, Z.testbit z i)) in H; unfold upd in H; revert H;
      autorewrite with zbits;
      destruct (Z.testbit rw i), (Z.testbit w1 i), (Z.testbit x i), (Z.testbit v i), (Z.testbit m i); done.
  - intros [H1 H2]. zbits_intro i.
    apply (f_equal (λ z, Z.testbit z i)) in H1, H2. revert H1 H2. unfold upd. autorewrite with zbits.
    destruct (Z.testbit rw i), (Z.testbit w1 i), (Z.testbit x i), (Z.testbit v i), (Z.testbit m i); done.
Qed.

(** ** The registers of the machine *)

(** The bytes [o] to [o + n] of the register at [off]; a base address register is
    accessed as a whole. *)
Definition whole (off : Z) (n : nat) : Prop := n = 4%nat ∨ ¬ (4 <= off / 4 < 10).

Definition access_ok (d off o : Z) (n : nat) : Prop :=
  0 <= d < 2 ^ 16 ∧ 0 <= off < 256 ∧ 0 <= o ∧ o + n <= 4 ∧ whole off n.

(** The contents of the registers: function, register. *)
Abbreviation store := (Z → Z → Z).

Class RegLaws (St : Type) {io : PortIO St} {laws : Conf1Laws St} := {
  reg : St → store;
  rw_mask : store;
  w1c_mask : store;
  (** the base of the memory-mapped accesses *)
  ecam : Z;
  reg_range s d r : 0 <= reg s d r < 2 ^ 32;
  reg_latch v s d r : reg (cf_latch v s) d r = reg s d r;
  reg_cf_val s d off o n :
    access_ok d off o n → cf_val s (PCI_CONF1_ADDRESS d off) o n = lane (reg s d (off / 4)) o n;
  reg_cf_put s d off o n v d' r' :
    access_ok d off o n → 0 <= d' < 2 ^ 16 → 0 <= r' < 64 →
    reg (cf_put s (PCI_CONF1_ADDRESS d off) o n v) d' r' =
    if (d' =? d) && (r' =? off / 4)
    then put_lane (rw_mask d' r') (w1c_mask d' r') (reg s d' r') o n v else reg s d' r';
  ecam_nonzero : ecam ≠ 0;
  ecam_write : St → Z → Z → nat → Z → St;
  reg_mm_read s d off n :
    access_ok d off (off mod 4) n →
    mm_read n (mmcfg_off_to_address ecam d off) s = Ret (lane (reg s d (off / 4)) (off mod 4) n, s);
  reg_mm_write s d off n v :
    access_ok d off (off mod 4) n →
    mm_write n v (mmcfg_off_to_address ecam d off) s = Ret ((), ecam_write s d off n v);
  reg_ecam_write s d off n v d' r' :
    access_ok d off (off mod 4) n → 0 <= d' < 2 ^ 16 → 0 <= r' < 64 →
    reg (ecam_write s d off n v) d' r' =
    if (d' =? d) && (r' =? off / 4)
    then put_lane (rw_mask d' r') (w1c_mask d' r') (reg s d' r') (off mod 4) n v else reg s d' r';
}.

Section Store.
Context {St : Type} {io : PortIO St} {laws : Conf1Laws St} {rl : RegLaws St}.

(** The registers of [s] are those of the store. *)
Definition holds (f : store) (h : St) : Prop :=
  ∀ d r, 0 <= d < 2 ^ 16 → 0 <= r < 64 → reg h d r = f d r.

(** Reading and writing the store. *)
Definition rd (f : store) (d off : Z) (n : nat) : Z := lane (f d (off / 4)) (off mod 4) n.
Definition wr (f : store) (d off : Z) (n : nat) (v : Z) : store := λ d' r',
  if (d' =? d) && (r' =? off / 4)
  then put_lane (rw_mask d' r') (w1c_mask d' r') (f d' r') (off mod 4) n v else f d' r'.

(** The masks of a field. *)
Definition rw (d off : Z) (n : nat) : Z := lane (rw_mask d (off / 4)) (off mod 4) n.
Definition w1c (d off : Z) (n : nat) : Z := lane (w1c_mask d (off / 4)) (off mod 4) n.

Definition field_ok (d off : Z) (n : nat) : Prop :=
  access_ok d off (off mod 4) n ∧
  (n = 1%nat ∨ (n = 2%nat ∧ off mod 2 = 0) ∨ (n = 4%nat ∧ off mod 4 = 0)).

(** The same, decided, for a constant register. *)
Definition field_okb (off : Z) (n : nat) : bool :=
  (0 <=? off) && (off <? 256) && (off mod 4 + n <=? 4) &&
  ((n =? 1)%nat || ((n =? 2)%nat && (off mod 2 =? 0)) || ((n =? 4)%nat && (off mod 4 =? 0))) &&
  ((n =? 4)%nat || (off / 4 <? 4) || (10 <=? off / 4)).

Lemma field_const d off n : 0 <= d < 2 ^ 16 → field_okb off n = true → field_ok d off n.
Proof using Type.
  intros Hd H. unfold field_okb in H. rewrite !andb_true_iff, !orb_true_iff, !andb_true_iff in H.
  rewrite !Nat.eqb_eq, !Z.leb_le, !Z.ltb_lt, !Z.eqb_eq in H. destruct H as ((((H1 & H2) & H3) & H4) & H5).
  split; [|tauto]. split; [done|]. split; [lia|]. split; [dlia|]. split; [done|].
  unfold whole. destruct H5 as [[H5|H5]|H5]; [by left| |]; right; lia.
Qed.

Lemma rd_range f d off n : 0 <= rd f d off n < 2 ^ (8 * n).
Proof using Type. apply lane_range. Qed.

Lemma rd_wr f d off n v :
  rd (wr f d off n v) d off n = upd (rw d off n) (w1c d off n) (rd f d off n) (wrap (8 * n) v).
Proof using Type.
  unfold rd, wr, rw, w1c. rewrite !Z.eqb_refl. cbn [andb]. apply lane_put. apply Z.mod_pos_bound. lia.
Qed.

(** Another field: of another register, or other bytes of the register. *)
Lemma rd_wr_other f d off (n : nat) v d' off' (n' : nat) :
  d' ≠ d ∨ off' / 4 ≠ off / 4 ∨ off' mod 4 + n' <= off mod 4 ∨ off mod 4 + n <= off' mod 4 →
  rd (wr f d off n v) d' off' n' = rd f d' off' n'.
Proof using Type.
  intros H. unfold rd, wr. pose proof (Z.mod_pos_bound off 4). pose proof (Z.mod_pos_bound off' 4).
  destruct (Z.eqb_spec d' d), (Z.eqb_spec (off' / 4) (off / 4)); cbn [andb]; try done.
  apply lane_put_other; lia.
Qed.

Lemma data_off_field d off n : field_ok d off n → data_off off n = off mod 4.
Proof using Type.
  intros [(_ & Ho & _) [->|[[-> H]|[-> H]]]]; cbn [data_off].
  - change 3 with (Z.ones 2). by rewrite Z.land_ones by lia.
  - assert (off = Z.shiftl (off / 2) 1) as E by (rewrite Z.shiftl_mul_pow2 by lia; change (2 ^ 1) with 2; dlia).
    assert (Z.land off 2 = Z.land off (Z.ones 2)) as ->.
    { rewrite E. zbits_intro i. change 2 with (2 ^ 1). rewrite testbit_pow2 by lia.
      zcases; cbn; rewrite ?andb_false_r; try done; try lia.
      replace i with 0 by lia. done. }
    by rewrite Z.land_ones by lia.
  - done.
Qed.

Lemma field_size d off n : field_ok d off n → size_ok off n.
Proof using Type. intros [(_ & Ho & _) H]. split; [done|tauto]. Qed.

(** ** The accesses of PciUtil on the store *)

(** The memory-mapped accesses are off, or they are at the right address. *)
Definition mode_ok (m : Z) : Prop := m = 0 ∨ m = ecam.

(** The rest of the machine, which accesses leave alone. *)
Context {X : Type} (rest : St → X).
Class KeepsRest := {
  rest_latch v s : rest (cf_latch v s) = rest s;
  rest_put s a o n v : rest (cf_put s a o n v) = rest s;
  rest_ecam s d off n v : rest (ecam_write s d off n v) = rest s;
}.
Context {kr : KeepsRest}.

Definition At (m : Z) (f : store) (x : X) (u : util_state St) : Prop :=
  mode_ok m ∧ mmcfg_addr u = m ∧ holds f (hw u) ∧ rest (hw u) = x.

Lemma holds_latch f v h : holds f h → holds f (cf_latch v h).
Proof using Type. intros H d r Hd Hr. rewrite reg_latch. by apply H. Qed.

Lemma holds_put f d off n v h :
  access_ok d off (off mod 4) n → holds f h →
  holds (wr f d off n v) (cf_put (cf_latch (PCI_CONF1_ADDRESS d off) h) (PCI_CONF1_ADDRESS d off) (off mod 4) n v).
Proof using Type.
  intros Hok H d' r' Hd Hr. rewrite reg_cf_put by done. unfold wr.
  by rewrite reg_latch, (H d' r').
Qed.

Lemma read_cfg_at d off n m f x u Q :
  field_ok d off n → At m f x u → (∀ u', At m f x u' → Q (rd f d off n) u') →
  wp (pci_pdev_read_cfg d off n) Q u.
Proof using Type*.
  intros Hf (Hm & Eu & Hh & Hx) HQ. pose proof (field_size _ _ _ Hf) as Hs.
  pose proof Hf as [Hok _]. pose proof Hok as (Hd & Ho & _).
  assert (0 <= off / 4 < 64) by dlia.
  assert (0 <= off mod 4 < 4) as Hmod by dlia.
  destruct (decide (m = 0)) as [->|Hn].
  - unfold pci_pdev_read_cfg. wstep. wstep. rewrite Eu. cbn [negb Z.eqb]. unfold on_hw. wstep.
    unfold pci_pdev_read_cfg_pio. rewrite (acc_size_ok _ _ Hs), calc_conf1, (data_off_field d off n) by done.
    unfold wp, mbind, prog_bind, PCI_CONFIG_ADDR, PCI_CONFIG_DATA. rewrite cf_out_addr, cf_in_data by lia.
    rewrite cf_addr_latch, cf_val_latch, (wrap_small 8 off) by lia. rewrite reg_cf_val by done.
    rewrite (Hh d (off / 4)) by done. apply HQ. split; [done|]. split; [exact Eu|].
    split; [by apply holds_latch|]. cbn [hw]. by rewrite rest_latch.
  - destruct Hm as [?| ->]; [done|].
    unfold pci_pdev_read_cfg. wstep. wstep. rewrite Eu.
    destruct (Z.eqb_spec ecam 0) as [E|_]; [by apply ecam_nonzero in E|]. cbn [negb].
    unfold pci_pdev_read_cfg_mmio, on_hw. wstep. wstep. wstep. rewrite Eu, (acc_size_ok _ _ Hs).
    unfold wp. rewrite reg_mm_read by done. rewrite (Hh d (off / 4)) by done. apply HQ.
    split; [by right|]. done.
Qed.

Lemma write_cfg_at d off n v m f x u Q :
  field_ok d off n → At m f x u → (∀ u', At m (wr f d off n v) x u' → Q () u') →
  wp (pci_pdev_write_cfg d off n v) Q u.
Proof using Type*.
  intros Hf (Hm & Eu & Hh & Hx) HQ. pose proof (field_size _ _ _ Hf) as Hs.
  pose proof Hf as [Hok _]. pose proof Hok as (Hd & Ho & _).
  assert (0 <= off mod 4 < 4) as Hmod by dlia.
  assert (∀ g, holds (wr f d off n (wrap (8 * n) v)) g → holds (wr f d off n v) g) as Hw.
  { intros g Hg d' r' Hd' Hr'. rewrite (Hg d' r') by done. unfold wr. destruct (_ && _); [|done].
    unfold put_lane. f_equal. zbits_intro i. zcases; cbn; rewrite ?andb_false_r; done || lia. }
  destruct (decide (m = 0)) as [->|Hn].
  - unfold pci_pdev_write_cfg. wstep. wstep. rewrite Eu. cbn [negb Z.eqb]. unfold on_hw. wstep.
    unfold pci_pdev_write_cfg_pio. rewrite (acc_size_ok _ _ Hs), calc_conf1, (data_off_field d off n) by done.
    unfold wp, mbind, prog_bind, PCI_CONFIG_ADDR, PCI_CONFIG_DATA. rewrite cf_out_addr, cf_out_data by lia.
    rewrite cf_addr_latch, (wrap_small 8 off) by lia. apply HQ. split; [done|]. split; [exact Eu|].
    split; [apply Hw; by apply holds_put|]. cbn [hw]. by rewrite rest_put, rest_latch.
  - destruct Hm as [?| ->]; [done|].
    unfold pci_pdev_write_cfg. wstep. wstep. rewrite Eu.
    destruct (Z.eqb_spec ecam 0) as [E|_]; [by apply ecam_nonzero in E|]. cbn [negb].
    unfold pci_pdev_write_cfg_mmio, on_hw. wstep. wstep. wstep. rewrite Eu, (acc_size_ok _ _ Hs).
    unfold wp. rewrite reg_mm_write by done. apply HQ.
    split; [by right|]. split; [done|]. cbn [hw]. rewrite rest_ecam. split; [|done].
    apply Hw. intros d' r' Hd' Hr'. rewrite reg_ecam_write by done. unfold wr.
    by rewrite (Hh d' r').
Qed.
End Store.

(** ** A machine to test with

    The registers are a table, all ones where there is no function; the masks
    are those of the parameters. *)

Record bus := Bus { b_latch : Z; b_regs : gmap Z Z; b_log : list (string * bool) }.

Section Bus.
Context (rwm w1m : store).

Definition bus_key (d r : Z) : Z := d * 64 + r.
Definition bus_reg (s : bus) (d r : Z) : Z := u32 (default 0xffffffff (b_regs s !! bus_key d r)).
Definition bus_set (s : bus) (d off o : Z) (n : nat) (v : Z) : bus :=
  let r := off / 4 in
  Bus (b_latch s)
    (<[bus_key d r := put_lane (rwm d r) (w1m d r) (bus_reg s d r) o n v]> (b_regs s)) (b_log s).
Definition bus_latch (v : Z) (s : bus) : bus := Bus v (b_regs s) (b_log s).

(** The function and the register that an address selects. *)
Definition addr_dev (a : Z) : Z := wrap 16 (Z.shiftr a 8).
Definition addr_on (a : Z) : bool := Z.testbit a 31.

Definition bus_val (s : bus) (a o : Z) (n : nat) : Z :=
  if addr_on a then lane (bus_reg s (addr_dev a) (u8 a / 4)) o n else Z.ones (8 * n).
Definition bus_put (s : bus) (a o : Z) (n : nat) (v : Z) : bus :=
  if addr_on a then bus_set s (addr_dev a) (u8 a) o n v else s.

Definition bus_out (n : nat) (v port : Z) : prog bus unit :=
  if port =? 0xCF8 then (if n =? 4 then modify (bus_latch v) else mret ())
  else modify (λ s, bus_put s (b_latch s) (port - 0xCFC) n v).
Definition bus_in (n : nat) (port : Z) : prog bus Z :=
  if port =? 0xCF8 then (if n =? 4 then gets (λ s, Z.ldiff (b_latch s) 3) else mret (Z.ones (8 * n)))
  else gets (λ s, bus_val s (b_latch s) (port - 0xCFC) n).

Definition bus_ecam : Z := 0xE0000000.
Definition bus_mm_read (n : nat) (a : Z) : prog bus Z := gets (λ s,
  lane (bus_reg s (Z.shiftr (a - bus_ecam) 12) (u8 a / 4)) (u8 a mod 4) n).
Definition bus_mm_write (n : nat) (v a : Z) : prog bus unit := modify (λ s,
  bus_set s (Z.shiftr (a - bus_ecam) 12) (u8 a) (u8 a mod 4) n v).

#[local] Instance bus_io : PortIO bus :=
  {| io_out := bus_out; io_in := bus_in; mm_read := bus_mm_read; mm_write n v a := bus_mm_write n v a |}.

Lemma bus_val_range s a o n : 0 <= bus_val s a o n < 2 ^ (8 * n).
Proof.
  unfold bus_val. destruct (addr_on a); [apply lane_range|]. rewrite Z.ones_equiv.
  assert (0 < 2 ^ (8 * n)) by (apply Z.pow_pos_nonneg; lia). lia.
Qed.

Lemma bus_out_data n v o s : 0 <= o < 4 → bus_out n v (0xCFC + o) s = Ret ((), bus_put s (b_latch s) o n v).
Proof.
  intros Ho. unfold bus_out. destruct (Z.eqb_spec (0xCFC + o) 0xCF8); [lia|].
  unfold modify. by replace (0xCFC + o - 0xCFC) with o by lia.
Qed.

Lemma bus_in_data n o s : 0 <= o < 4 → bus_in n (0xCFC + o) s = Ret (bus_val s (b_latch s) o n, s).
Proof.
  intros Ho. unfold bus_in. destruct (Z.eqb_spec (0xCFC + o) 0xCF8); [lia|].
  unfold gets. by replace (0xCFC + o - 0xCFC) with o by lia.
Qed.

#[local] Instance bus_conf1 : Conf1Laws bus :=
  {| cf_addr := b_latch; cf_latch := bus_latch; cf_val := bus_val; cf_put := bus_put;
     cf_out_addr v s := eq_refl; cf_in_data := bus_in_data; cf_out_data := bus_out_data;
     cf_addr_latch v s := eq_refl; cf_val_latch v s a o n := eq_refl; cf_val_range := bus_val_range |}.

Lemma conf1_address d off :
  0 <= d < 2 ^ 16 → 0 <= off < 256 → PCI_CONF1_ADDRESS d off = 2 ^ 31 + d * 256 + off.
Proof.
  intros Hd Ho. unfold PCI_CONF1_ADDRESS. rewrite !Z.shiftl_mul_pow2 by lia.
  rewrite lor_add by lia. replace (1 * 2 ^ 31 + d * 2 ^ 8) with ((2 ^ 23 + d) * 2 ^ 8) by lia.
  rewrite lor_add by lia. rewrite wrap_small; lia.
Qed.

Lemma bus_decode d off :
  0 <= d < 2 ^ 16 → 0 <= off < 256 →
  addr_on (PCI_CONF1_ADDRESS d off) = true ∧ addr_dev (PCI_CONF1_ADDRESS d off) = d ∧
  u8 (PCI_CONF1_ADDRESS d off) = off.
Proof.
  intros Hd Ho. rewrite conf1_address by done. split; [|split].
  - unfold addr_on. rewrite Z.testbit_true by lia. change (2 ^ 31) with 2147483648.
    replace ((2147483648 + d * 256 + off) / 2147483648) with 1 by (Z.div_mod_to_equations; lia). done.
  - unfold addr_dev, wrap. rewrite Z.shiftr_div_pow2 by lia. dlia.
  - unfold wrap. dlia.
Qed.

Lemma bus_ecam_decode d off :
  0 <= d < 2 ^ 16 → 0 <= off < 256 →
  Z.shiftr (mmcfg_off_to_address bus_ecam d off - bus_ecam) 12 = d ∧
  u8 (mmcfg_off_to_address bus_ecam d off) = off.
Proof.
  intros Hd Ho. unfold mmcfg_off_to_address. rewrite Z.shiftl_mul_pow2 by lia.
  rewrite (wrap_small 32 (d * 2 ^ 12)) by lia. rewrite lor_add by lia.
  rewrite wrap_small by (unfold bus_ecam; lia). split.
  - rewrite Z.shiftr_div_pow2 by lia. unfold bus_ecam. dlia.
  - unfold wrap, bus_ecam. dlia.
Qed.

Lemma bus_set_reg s d off o (n : nat) v d' r' :
  0 <= d < 2 ^ 16 → 0 <= off < 256 → 0 <= o → o + n <= 4 → 0 <= d' < 2 ^ 16 → 0 <= r' < 64 →
  bus_reg (bus_set s d off o n v) d' r' =
  if (d' =? d) && (r' =? off / 4)
  then put_lane (rwm d' r') (w1m d' r') (bus_reg s d' r') o n v else bus_reg s d' r'.
Proof.
  intros Hd Ho Ho1 Hn Hd' Hr'. unfold bus_reg at 1, bus_set. cbn [b_regs].
  destruct (Z.eqb_spec d' d) as [->|]; [destruct (Z.eqb_spec r' (off / 4)) as [->|]|]; cbn [andb].
  - rewrite lookup_insert_eq. cbn [from_option id]. apply wrap_small. apply put_lane_range; try done.
    by apply wrap_range.
  - by rewrite lookup_insert_ne by (unfold bus_key; dlia).
  - by rewrite lookup_insert_ne by (unfold bus_key; dlia).
Qed.

#[local] Program Instance bus_laws : RegLaws bus :=
  {| reg := bus_reg; rw_mask := rwm; w1c_mask := w1m; ecam := bus_ecam;
     ecam_write s d off n v := bus_set s d off (off mod 4) n v |}.
Next Obligation. intros. apply wrap_range. lia. Qed.
Next Obligation. done. Qed.
Next Obligation.
  intros s d off o n (Hd & Ho & H1 & H2 & _). unfold cf_val, bus_conf1, bus_val.
  by destruct (bus_decode d off Hd Ho) as (-> & -> & ->).
Qed.
Next Obligation.
  intros s d off o n v d' r' (Hd & Ho & H1 & H2 & _) Hd' Hr'. unfold cf_put, bus_conf1, bus_put.
  destruct (bus_decode d off Hd Ho) as (-> & -> & ->). by apply bus_set_reg.
Qed.
Next Obligation. done. Qed.
Next Obligation.
  intros s d off n (Hd & Ho & _). unfold mm_read, bus_io, bus_mm_read, gets.
  by destruct (bus_ecam_decode d off Hd Ho) as [-> ->].
Qed.
Next Obligation.
  intros s d off n v (Hd & Ho & _). unfold mm_write, bus_io, bus_mm_write, modify.
  by destruct (bus_ecam_decode d off Hd Ho) as [-> ->].
Qed.
Next Obligation.
  intros s d off n v d' r' (Hd & Ho & H1 & H2 & _) Hd' Hr'. by apply bus_set_reg.
Qed.

#[local] Program Instance bus_keeps : KeepsRest (rl := bus_laws) b_log.
Next Obligation. done. Qed.
Next Obligation. intros s a o n v. unfold cf_put, bus_conf1, bus_put. by destruct (addr_on a). Qed.
Next Obligation. done. Qed.
End Bus.
