(* ===== verification/PciTest.v ===== *)
(** * The PCI tests: x86/pci.c, the helpers and the test cases

    The tests access the configuration space of the device that is assigned to
    the virtual machine (the network controller of the safety VM, the USB
    controller of the non-safety VM) and report whether the hypervisor gives it
    the behaviour that is required.  A test case is a program of type [tprog];
    [build] is the macro the program is compiled with.  The cases after the
    [return 0] of [main] are left out; they are never run.  The theorems give
    exactly the registers each kind of test accepts. *)

From S2P Require Import Prelude Bits PciConf Pci PciUtil ConfRegs.

#[local] Ltac dlia := Z.div_mod_to_equations; lia.

(** ** Constants: lib/pci_regs.h, x86/pci_check.h *)

Definition PCI_STATUS : Z := 0x06.
Definition PCI_REVISION_ID : Z := 0x08.
Definition PCI_CLASS_PROG : Z := 0x09.
Definition PCI_CLASS_DEVICE : Z := 0x0a.
Definition PCI_HEADER_TYPE : Z := 0x0e.
Definition PCI_BASE_ADDRESS_1 : Z := 0x14.
Definition PCI_CONFIG_SPACE_SIZE : Z := 0x100.
Definition PCI_CONFIG_RESERVE : Z := 0x36.
Definition PCI_NET_STATUS_VAL_NATIVE : Z := 0x0010.
Definition PCI_USB_STATUS_VAL_NATIVE : Z := 0x0290.
Definition PCI_NET_REVISION_ID : Z := 0x31.
Definition PCI_USB_REVISION_ID : Z := 0x31.
Definition PCI_USB_VENDOR_ID : Z := 0x8086.
Definition PCI_NET_VENDOR_ID : Z := 0x8086.
Definition PCI_USB_HEADER_TYPE : Z := 0x80.
Definition PCI_NET_HEADER_TYPE : Z := 0x00.
Definition PCI_NET_DEVICE_ID : Z := 0x15b7.
Definition PCI_USB_DEVICE_ID : Z := 0xa12f.
Definition HOSTBRIDGE_CLASS_CODE : Z := 0x060000.
Definition HOSTBRIDGE_DEVICE_ID : Z := 0x191F.
Definition HOSTBRIDGE_VENDOR_ID : Z := 0x8086.
Definition NATIVE_USB_INTERRUPT_LINE : Z := 0xff.
Definition NATIVE_Ethernet_INTERRUPT_LINE : Z := 0xff.
Definition USB_MSI_REG_OFFSET : Z := 0x80.
Definition ETH_MSI_REG_OFFSET : Z := 0xd0.
Definition MSI_CAPABILITY_ID : Z := 0x05.
Definition MAX_PCI_DEV_NUM : Z := 256.
Definition NET_DEV_VENDOR : Z := DEV_VEN PCI_NET_DEVICE_ID PCI_NET_VENDOR_ID.
Definition USB_DEV_VENDOR : Z := DEV_VEN PCI_USB_DEVICE_ID PCI_USB_VENDOR_ID.
Definition HOSTBRIDGE_DEV_VENDOR : Z := DEV_VEN HOSTBRIDGE_DEVICE_ID HOSTBRIDGE_VENDOR_ID.

Definition OK : Z := 0.
Definition ERROR : Z := -1.

(** The macro that selects the virtual machine. *)
Inductive build := IN_SAFETY_VM | IN_NON_SAFETY_VM.

Definition DEV_VENDOR (b : build) : Z :=
  match b with IN_SAFETY_VM => NET_DEV_VENDOR | IN_NON_SAFETY_VM => USB_DEV_VENDOR end.

(** ** State *)

(** [pci_cfg_reg_t] *)
Record pci_cfg_reg := CfgReg { reg_name : string; reg_addr : Z; reg_width : nat; cfg_val : Z; is_shadow : Z }.

Definition hostbridge_pci_cfg : list pci_cfg_reg := [
  CfgReg "DeviceVendor ID" 0x00 4 0x5af08086 0;
  CfgReg "Command" 0x04 2 0x0000 0; CfgReg "Status" 0x06 2 0x0000 0;
  CfgReg "Revision ID" 0x08 1 0x0b 0; CfgReg "interface" 0x09 1 0x00 0;
  CfgReg "Sub Class Code" 0x0a 1 0x00 0; CfgReg "Base Class Code" 0x0b 1 0x06 0;
  CfgReg "Cache Line Size" 0x0c 1 0x00 1; CfgReg "Latency Tim" 0x0d 1 0x00 1;
  CfgReg "Header Type" 0x0e 1 0x00 0; CfgReg "BIST" 0x0f 1 0x00 1;
  CfgReg "BAR0" 0x10 4 0x00000000 0; CfgReg "BAR1" 0x14 4 0x00000000 0;
  CfgReg "BAR2" 0x18 4 0x00000000 1; CfgReg "BAR3" 0x1c 4 0x00000000 1;
  CfgReg "BAR4" 0x20 4 0x00000000 1; CfgReg "BAR5" 0x24 4 0x00000000 1;
  CfgReg "Cardbus CIS Pointer" 0x28 4 0x00000000 1;
  CfgReg "Subsystem Vendor ID" 0x2c 2 0x00000 0; CfgReg "Subsystem ID" 0x2e 2 0x0000 0;
  CfgReg "Expansion ROM Base Address" 0x30 4 0x00000000 1;
  CfgReg "Cap Pointer" 0x34 1 0xe0 0; CfgReg "res35" 0x35 1 0x00 1;
  CfgReg "res36" 0x36 1 0x00 1; CfgReg "res37" 0x37 1 0x00 1;
  CfgReg "Reserved" 0x38 4 0x00000000 1;
  CfgReg "Int Line" 0x3c 1 0xE0 0; CfgReg "Int Pin" 0x3d 1 0x00 0;
  CfgReg "Min_Gnt" 0x3e 1 0x00 1; CfgReg "Max_Lat" 0x3f 1 0x00 1;
  CfgReg "CAP reg" 0x60 4 0xE0000001 1; CfgReg "CAP reg" 0x64 4 0x00000000 1
].

(** The static variables [pci_devs], [nr_pci_devs] and [mmcfg_addr] of the
    program, and the library with the machine. *)
Record test_state (St : Type) :=
  TState { pci_devs : list util_dev; nr_pci_devs : Z; xbar : Z; t_util : util_state St }.
Arguments TState {St} _ _ _ _.
Arguments pci_devs {St} _.
Arguments nr_pci_devs {St} _.
Arguments xbar {St} _.
Arguments t_util {St} _.

(** What the tests use besides the configuration space: [report] with the name
    of the test and its result, the identifier of the local APIC, and the
    register EAX as an [asm] statement finds it. *)
Class TestOps (St : Type) := {
  op_report : string → bool → prog St unit;
  op_apic_id : prog St Z;
  op_eax : prog St Z;
}.

(** [a |= f()] and the like need the value of a function of PciUtil. *)
Definition lift {S A} (o : outcome A) : prog S A := λ s,
  match o with Ret a => Ret (a, s) | Stop e => Stop e end.

Section PciTest.
Context {St : Type} {io : PortIO St} {ops : TestOps St}.
#[local] Abbreviation tprog := (prog (test_state St)).

Definition on_util {A} (m : prog (util_state St) A) : tprog A :=
  zoom t_util (λ u s, TState (pci_devs s) (nr_pci_devs s) (xbar s) u) m.
Definition on_mach {A} (m : prog St A) : tprog A := on_util (on_hw m).

Definition read_cfg (bdf off : Z) (n : nat) : tprog Z := on_util (pci_pdev_read_cfg bdf off n).
Definition write_cfg (bdf off : Z) (n : nat) (v : Z) : tprog unit := on_util (pci_pdev_write_cfg bdf off n v).
Definition pio_read32 (port : Z) : tprog Z := on_mach (pio_read port 4).
Definition pio_write32 (v port : Z) : tprog unit := on_mach (pio_write v port 4).

(** [SHIFT_MASK(msb, lsb)], [SHIFT_UMASK(msb, lsb)], and their uses with the
    result converted to [uint32_t]. *)
Definition SHIFT_MASK (msb lsb : Z) : tprog Z := lift (shift_mask (u8 msb) (u8 lsb)).
Definition SHIFT_UMASK (msb lsb : Z) : tprog Z := lift (shift_umask (u8 msb) (u8 lsb)).
Definition and_mask (v msb lsb : Z) : tprog Z := m ← SHIFT_MASK msb lsb; mret (u32 (Z.land v m)).
Definition and_umask (v msb lsb : Z) : tprog Z := m ← SHIFT_UMASK msb lsb; mret (u32 (Z.land v m)).
Definition xor_mask (v msb lsb : Z) : tprog Z := m ← SHIFT_MASK msb lsb; mret (u32 (Z.lxor v m)).

(** [is_pass = get_pci_bdf_by_dev_vendor(pci_devs, nr_pci_devs, dev_ven, &bdf);
    if (is_pass) { ... }]: the test fails without the device. *)
Definition with_dev (dev_ven : Z) (body : Z → tprog bool) : tprog bool :=
  s ← get;
  r ← lift (get_pci_bdf_by_dev_vendor (pci_devs s) (nr_pci_devs s) dev_ven);
  match r with Some bdf => body bdf | None => mret false end.

(** [is_pass = is_dev_exist_by_bdf(pci_devs, nr_pci_devs, bdf)] *)
Definition dev_exists (bdf : Z) : tprog bool :=
  s ← get;
  r ← lift (is_dev_exist_by_bdf (pci_devs s) (nr_pci_devs s) bdf);
  mret (match r with Some _ => true | None => false end).

(** The bus, the offset and the size are for the message only. *)
Definition pci_data_check (val1 val2 : Z) (sw_flag : bool) : Z :=
  let ret := if u32 val1 =? u32 val2 then OK else ERROR in
  let ret := if sw_flag then (if ret =? OK then ERROR else OK) else ret in
  if OK =? ret then OK else ERROR.

(** The search of the capability list; [None] is [ERROR].  The addresses are
    bytes, so that no sum of an address and an offset below wraps. *)
Fixpoint msi_probe_loop (n : nat) (bdf reg_addr reg_val : Z) : tprog (option Z) :=
  match n with
  | O => mret None
  | S n' =>
      id ← and_mask reg_val 7 0;
      if PCI_CAP_ID_MSI =? id then mret (Some reg_addr)
      else
        p ← and_mask reg_val 15 8;
        let reg_addr := Z.shiftr p 8 in
        reg_val ← read_cfg bdf reg_addr 4;
        msi_probe_loop n' bdf reg_addr reg_val
  end.

Definition pci_probe_msi_capability (bdf : Z) : tprog (option Z) :=
  reg_addr ← read_cfg bdf PCI_CAPABILITY_LIST 1;
  reg_val ← read_cfg bdf reg_addr 4;
  msi_probe_loop (Z.to_nat (PCI_CONFIG_SPACE_SIZE / 4)) bdf reg_addr reg_val.

(** [ret = pci_probe_msi_capability(bdf, &reg_addr); if (ret == OK) { ... }]:
    the test fails without the capability. *)
Definition with_msi (bdf : Z) (body : Z → tprog bool) : tprog bool :=
  r ← pci_probe_msi_capability bdf;
  match r with Some reg_addr => body reg_addr | None => mret false end.

(** [report("%s", is_pass, __FUNCTION__)] *)
Definition report_case (name : string) (body : tprog bool) : tprog unit :=
  is_pass ← body; on_mach (op_report name is_pass).

(** ** Tests that several cases share *)

Definition header_regs : list (Z * nat) :=
  [(0x00, 2%nat); (0x02, 2%nat); (0x08, 4%nat); (0x0C, 4%nat); (0x28, 4%nat); (0x2C, 4%nat);
   (0x30, 4%nat); (0x34, 1%nat); (0x3D, 1%nat); (0x3E, 2%nat)].

Fixpoint count_read_only (bdf : Z) (regs : list (Z * nat)) (count : Z) : tprog Z :=
  match regs with
  | [] => mret count
  | (off, width) :: regs' =>
      reg_val ← read_cfg bdf off width;
      write_cfg bdf off width 0xFFFFFFFF;;
      value ← read_cfg bdf off width;
      count_read_only bdf regs' (if value =? reg_val then count + 1 else count)
  end.

Definition test_host_PCI_configuration_header_register_read_only (dev_ven : Z) : tprog bool :=
  with_dev dev_ven (λ bdf,
    count ← count_read_only bdf header_regs 0;
    mret (count =? length header_regs)).

Definition test_host_MSI_Next_PTR (dev_ven : Z) : tprog bool :=
  with_dev dev_ven (λ bdf, with_msi bdf (λ reg_addr,
    reg_val ← read_cfg bdf (reg_addr + 1) 1;
    let ret := Z.lor OK (pci_data_check 0x00 reg_val false) in
    mret (ret =? OK))).

Definition test_host_MSI_message_control_write (dev_ven : Z) : tprog bool :=
  with_dev dev_ven (λ bdf, with_msi bdf (λ reg_addr,
    let reg_addr1 := reg_addr + PCI_MSI_FLAGS in
    reg_val_ori ← read_cfg bdf reg_addr1 2;
    reg_val ← xor_mask reg_val_ori 15 1;
    write_cfg bdf reg_addr1 2 reg_val;;
    reg_val_new ← read_cfg bdf reg_addr1 2;
    n1 ← and_mask reg_val_new 15 7; o1 ← and_mask reg_val_ori 15 7;
    let ret := Z.lor OK (pci_data_check n1 o1 false) in
    n2 ← and_mask reg_val_new 3 1; o2 ← and_mask reg_val_ori 3 1;
    let ret := Z.lor ret (pci_data_check n2 o2 false) in
    write_cfg bdf reg_addr1 2 reg_val_ori;;
    mret (ret =? OK))).

Definition test_host_MSI_message_control_read (dev_ven : Z) : tprog bool :=
  with_dev dev_ven (λ bdf, with_msi bdf (λ reg_addr,
    reg_val ← read_cfg bdf (reg_addr + PCI_MSI_FLAGS) 2;
    let reg_val := Z.land reg_val 0xFFFE in
    let ret := Z.lor OK (pci_data_check (Z.shiftl 0x40 1) reg_val false) in
    mret (ret =? OK))).

Definition test_host_MSI_message_address_redirection_hint_write (dev_ven : Z) : tprog bool :=
  with_dev dev_ven (λ bdf, with_msi bdf (λ reg_addr,
    let reg_addr1 := reg_addr + PCI_MSI_ADDRESS_LO in
    reg_val_ori ← read_cfg bdf reg_addr1 4;
    reg_val ← xor_mask reg_val_ori 1 0;
    write_cfg bdf reg_addr1 4 reg_val;;
    reg_val ← read_cfg bdf reg_addr1 4;
    o ← and_mask reg_val_ori 1 0; v ← and_mask reg_val 1 0;
    let ret := Z.lor OK (pci_data_check o v false) in
    write_cfg bdf reg_addr1 4 reg_val_ori;;
    mret (ret =? OK))).

Definition test_host_MSI_message_address_redirection_hint_read (dev_ven : Z) : tprog bool :=
  with_dev dev_ven (λ bdf, with_msi bdf (λ reg_addr,
    reg_val ← read_cfg bdf (reg_addr + PCI_MSI_ADDRESS_LO) 4;
    let reg_val := Z.land reg_val 0xF in
    let ret := Z.lor OK (pci_data_check 0 reg_val false) in
    mret (ret =? OK))).

Definition test_host_MSI_message_address_int_msg_addr_write (dev_ven : Z) : tprog bool :=
  with_dev dev_ven (λ bdf, with_msi bdf (λ reg_addr,
    let reg_addr_lo := reg_addr + PCI_MSI_ADDRESS_LO in
    let reg_addr_hi := reg_addr + PCI_MSI_ADDRESS_HI in
    reg_val_ori_lo ← read_cfg bdf reg_addr_lo 4;
    reg_val_ori_hi ← read_cfg bdf reg_addr_hi 4;
    reg_val_new_lo ← xor_mask reg_val_ori_lo 31 20;
    reg_val_new_hi ← xor_mask reg_val_ori_hi 31 0;
    write_cfg bdf reg_addr_lo 4 reg_val_new_lo;;
    write_cfg bdf reg_addr_hi 4 reg_val_new_hi;;
    reg_val_new_lo ← read_cfg bdf reg_addr_lo 4;
    reg_val_new_hi ← read_cfg bdf reg_addr_hi 4;
    n ← and_mask reg_val_new_lo 31 20; o ← and_mask reg_val_ori_lo 31 20;
    let ret := Z.lor OK (pci_data_check n o false) in
    let ret := Z.lor ret (pci_data_check reg_val_new_hi reg_val_ori_hi false) in
    write_cfg bdf reg_addr_lo 4 reg_val_ori_lo;;
    write_cfg bdf reg_addr_hi 4 reg_val_ori_hi;;
    mret (ret =? OK))).

Definition test_host_MSI_message_address_interrupt_message_address_read (dev_ven : Z) : tprog bool :=
  with_dev dev_ven (λ bdf, with_msi bdf (λ reg_addr,
    reg_val ← read_cfg bdf (reg_addr + PCI_MSI_ADDRESS_LO) 4;
    v ← and_mask reg_val 31 20;
    let ret := Z.lor OK (pci_data_check 0xFEE00000 v false) in
    reg_val ← read_cfg bdf (reg_addr + PCI_MSI_ADDRESS_HI) 4;
    let ret := Z.lor ret (pci_data_check 0x00000000 reg_val false) in
    mret (ret =? OK))).

Definition test_host_MSI_message_data_delivery_mode_read (dev_ven : Z) : tprog bool :=
  with_dev dev_ven (λ bdf, with_msi bdf (λ reg_addr,
    reg_val ← read_cfg bdf (reg_addr + PCI_MSI_DATA_64) 2;
    v ← and_mask reg_val 10 8;
    let ret := Z.lor OK (pci_data_check 0 v false) in
    mret (ret =? OK))).

(** One value of the delivery mode or of the trigger mode: written, and read
    back in the bits [msb] to [lsb]. *)
Definition try_mode (bdf reg_addr msb lsb ret v : Z) : tprog Z :=
  write_cfg bdf reg_addr 2 v;;
  reg_val ← read_cfg bdf reg_addr 2;
  r ← and_mask reg_val msb lsb;
  mret (Z.lor ret (pci_data_check v r false)).

Definition test_host_MSI_message_data_delivery_mode_write (dev_ven : Z) : tprog bool :=
  with_dev dev_ven (λ bdf, with_msi bdf (λ reg_addr,
    let reg_addr := reg_addr + PCI_MSI_DATA_64 in
    reg_val_ori ← read_cfg bdf reg_addr 2;
    ret ← try_mode bdf reg_addr 10 8 OK 0;
    ret ← try_mode bdf reg_addr 10 8 ret (Z.shiftl 1 8);
    ret ← try_mode bdf reg_addr 10 8 ret (Z.shiftl 2 8);
    ret ← try_mode bdf reg_addr 10 8 ret (Z.shiftl 4 8);
    ret ← try_mode bdf reg_addr 10 8 ret (Z.shiftl 5 8);
    ret ← try_mode bdf reg_addr 10 8 ret (Z.shiftl 7 8);
    write_cfg bdf reg_addr 2 reg_val_ori;;
    mret (ret =? OK))).

Definition test_host_MSI_message_data_trigger_mode_read (dev_ven : Z) : tprog bool :=
  with_dev dev_ven (λ bdf, with_msi bdf (λ reg_addr,
    reg_val ← read_cfg bdf (reg_addr + PCI_MSI_DATA_64) 2;
    z ← and_mask 0 15 14;
    v ← and_mask reg_val 15 14;
    let ret := Z.lor OK (pci_data_check z v false) in
    mret (ret =? OK))).

Definition test_host_MSI_message_data_trigger_mode_write (dev_ven : Z) : tprog bool :=
  with_dev dev_ven (λ bdf, with_msi bdf (λ reg_addr,
    let reg_addr := reg_addr + PCI_MSI_DATA_64 in
    reg_val_ori ← read_cfg bdf reg_addr 2;
    ret ← try_mode bdf reg_addr 15 14 OK 0;
    ret ← try_mode bdf reg_addr 15 14 ret (Z.shiftl 1 14);
    ret ← try_mode bdf reg_addr 15 14 ret (Z.shiftl 2 14);
    ret ← try_mode bdf reg_addr 15 14 ret (Z.shiftl 3 14);
    write_cfg bdf reg_addr 2 reg_val_ori;;
    mret (ret =? OK))).

Definition test_MSI_message_address_destination_field_rw (dev_ven : Z) : tprog bool :=
  with_dev dev_ven (λ bdf, with_msi bdf (λ reg_addr,
    let reg_addr := reg_addr + PCI_MSI_ADDRESS_LO in
    reg_val_ori ← read_cfg bdf reg_addr 4;
    apic_id1 ← on_mach op_apic_id;
    let apic_id1 := Z.land apic_id1 0xFF in
    reg_val ← and_umask reg_val_ori 19 12;
    let reg_val := Z.lor reg_val (u32 (Z.shiftl apic_id1 12)) in
    write_cfg bdf reg_addr 4 reg_val;;
    reg_val ← read_cfg bdf reg_addr 4;
    reg_val ← and_mask reg_val 19 12;
    let reg_val := Z.shiftr reg_val 12 in
    reg_val ← and_mask reg_val 12 0;
    let ret := Z.lor OK (pci_data_check reg_val apic_id1 false) in
    write_cfg bdf reg_addr 4 reg_val_ori;;
    mret (ret =? OK))).

(** Accesses with the enable bit of the address set or clear, and the data port
    given by the caller. *)
Definition test_address (bdf offset : Z) (is_en : bool) : Z :=
  let addr := pci_pdev_calc_address bdf offset in
  if is_en then addr else Z.land addr (u32 (Z.lnot PCI_CONFIG_ENABLE)).

Definition pci_pdev_read_cfg_test (bdf offset : Z) (bytes : nat) (port : Z) (is_en : bool) : tprog Z :=
  pio_write32 (test_address bdf offset is_en) PCI_CONFIG_ADDR;;
  on_mach (pio_read port bytes).

Definition pci_pdev_write_cfg_test (bdf offset : Z) (bytes : nat) (val port : Z) (is_en : bool) : tprog unit :=
  pio_write32 (test_address bdf offset is_en) PCI_CONFIG_ADDR;;
  on_mach (pio_write val port bytes).

(** The [switch] on the offset: the size of the register. *)
Definition msi_reg_size (msi_offset : Z) : nat :=
  if msi_offset =? PCI_MSI_FLAGS then 2
  else if msi_offset =? PCI_MSI_ADDRESS_LO then 4
  else if msi_offset =? PCI_MSI_DATA_64 then 2 else 0.

Definition test_Write_with_Disabled_Config_Address (b : build) (msi_offset : Z) (bytes : nat) (port : Z) : tprog bool :=
  let msb := bytes * 8 - 1 in
  with_dev (DEV_VENDOR b) (λ bdf, with_msi bdf (λ msi_addr,
    let msi_addr := msi_addr + msi_offset in
    reg_val_ori ← read_cfg bdf msi_addr (msi_reg_size msi_offset);
    reg_val_new ← xor_mask reg_val_ori msb 0;
    pci_pdev_write_cfg_test bdf msi_addr bytes reg_val_new port false;;
    reg_val_new ← read_cfg bdf msi_addr (msi_reg_size msi_offset);
    reg_val_ori ← and_mask reg_val_ori msb 0;
    reg_val_new ← and_mask reg_val_new msb 0;
    mret (reg_val_ori =? reg_val_new))).

Definition test_Write_with_enabled_Config_Address (b : build) (msi_offset : Z) (bytes : nat) (port : Z) : tprog bool :=
  let msb := bytes * 8 - 1 in
  with_dev (DEV_VENDOR b) (λ bdf, with_msi bdf (λ msi_addr,
    let msi_addr := msi_addr + msi_offset in
    reg_val_ori ← read_cfg bdf msi_addr bytes;
    reg_val_new ← xor_mask reg_val_ori msb 0;
    pci_pdev_write_cfg_test bdf msi_addr bytes reg_val_new port true;;
    reg_val ← read_cfg bdf msi_addr bytes;
    reg_val ← and_mask reg_val msb 0;
    reg_val_new ← and_mask reg_val_new msb 0;
    write_cfg bdf msi_addr bytes reg_val_ori;;
    mret (reg_val_new =? reg_val))).

Definition test_Read_with_Enabled_Config_Address (b : build) (msi_offset : Z) (bytes : nat) (port : Z) : tprog bool :=
  let msb := bytes * 8 - 1 in
  with_dev (DEV_VENDOR b) (λ bdf, with_msi bdf (λ msi_addr,
    let msi_addr := msi_addr + msi_offset in
    reg_val_ori ← read_cfg bdf msi_addr bytes;
    reg_val_new ← xor_mask reg_val_ori msb 0;
    pci_pdev_write_cfg_test bdf msi_addr bytes reg_val_new port true;;
    reg_val ← pci_pdev_read_cfg_test bdf msi_addr bytes port true;
    reg_val ← and_mask reg_val msb 0;
    reg_val_new ← and_mask reg_val_new msb 0;
    write_cfg bdf msi_addr bytes reg_val_ori;;
    mret (reg_val =? reg_val_new))).

(** ** Test cases: the host bridge *)

Definition pci_rqmid_PCIe_config_space_and_host_Hostbridge_XBAR : tprog unit :=
  report_case "pci_rqmid_PCIe_config_space_and_host_Hostbridge_XBAR" (
    is_pass ← dev_exists 0;
    if (is_pass : bool) then
      mmcfg_addr ← read_cfg 0 0x60 4;
      modify (λ s, TState (pci_devs s) (nr_pci_devs s) (Z.land mmcfg_addr 0xFFFFFFFE) (t_util s));;
      mret (mmcfg_addr =? 0xe0000001)
    else mret false).

Fixpoint bridge_loop (bdf : Z) (regs : list pci_cfg_reg) (ret : Z) : tprog Z :=
  match regs with
  | [] => mret ret
  | r :: regs' =>
      reg_val_ori ← read_cfg bdf (reg_addr r) (reg_width r);
      reg_val_new ← xor_mask reg_val_ori 31 0;
      write_cfg bdf (reg_addr r) (reg_width r) reg_val_new;;
      reg_val_new ← read_cfg bdf (reg_addr r) (reg_width r);
      bridge_loop bdf regs' (Z.lor ret (pci_data_check reg_val_ori reg_val_new false))
  end.

(** The loop leaves out the last entry of the table, and the result of
    [is_dev_exist_by_bdf] is overwritten. *)
Definition pci_rqmid_27486_PCIe_config_space_and_host_Hostbridge_readonly_001 : tprog unit :=
  report_case "pci_rqmid_27486_PCIe_config_space_and_host_Hostbridge_readonly_001" (
    is_pass ← dev_exists 0;
    ret ← (if (is_pass : bool)
           then bridge_loop 0 (take (length hostbridge_pci_cfg - 1) hostbridge_pci_cfg) OK
           else mret OK);
    mret (ret =? OK)).

Definition pci_rqmid_27474_PCIe_config_space_and_host_Hostbridge_Header_Type_001 : tprog unit :=
  report_case "pci_rqmid_27474_PCIe_config_space_and_host_Hostbridge_Header_Type_001" (
    is_pass ← dev_exists 0;
    if (is_pass : bool) then reg_val ← read_cfg 0 PCI_HEADER_TYPE 1; mret (reg_val =? 0) else mret false).

Definition pci_rqmid_27475_PCIe_config_space_and_host_Hostbridge_Class_Code_001 : tprog unit :=
  report_case "pci_rqmid_27475_PCIe_config_space_and_host_Hostbridge_Class_Code_001" (
    is_pass ← dev_exists 0;
    if (is_pass : bool) then
      reg_val ← read_cfg 0 PCI_CLASS_PROG 1;
      reg_val1 ← read_cfg 0 PCI_CLASS_DEVICE 2;
      mret (Z.lor (u32 (Z.shiftl reg_val1 8)) reg_val =? HOSTBRIDGE_CLASS_CODE)
    else mret false).

(** ** Test cases: the configuration ports *)

Definition pci_rqmid_25292_PCIe_config_space_and_host_Config_Address_Port_001 (b : build) : tprog unit :=
  report_case "pci_rqmid_25292_PCIe_config_space_and_host_Config_Address_Port_001" (
    with_dev (DEV_VENDOR b) (λ bdf,
      count ← for_up 4 0 (λ i count,
        let reg_val := pci_pdev_calc_address bdf (PCI_BASE_ADDRESS_0 + i) in
        pio_write32 reg_val PCI_CONFIG_ADDR;;
        reg_val1 ← pio_read32 PCI_CONFIG_ADDR;
        m ← SHIFT_UMASK 1 0;
        mret (if Z.land reg_val m =? reg_val1 then count + 1 else count)) 0;
      mret (count =? 4))).

Definition pci_rqmid_25099_PCIe_config_space_and_host_Config_Data_Port_001 (b : build) : tprog unit :=
  report_case "pci_rqmid_25099_PCIe_config_space_and_host_Config_Data_Port_001" (
    with_dev (DEV_VENDOR b) (λ bdf,
      reg_val ← read_cfg bdf PCI_DEVICE_ID 2;
      let c1 := reg_val =? match b with IN_SAFETY_VM => PCI_NET_DEVICE_ID | IN_NON_SAFETY_VM => PCI_USB_DEVICE_ID end in
      reg_val ← read_cfg bdf PCI_REVISION_ID 1;
      let c2 := reg_val =? match b with IN_SAFETY_VM => PCI_NET_REVISION_ID | IN_NON_SAFETY_VM => PCI_USB_REVISION_ID end in
      reg_val_ori ← read_cfg bdf PCI_BASE_ADDRESS_0 4;
      let reg_val_new := 0x80000000 in
      write_cfg bdf PCI_BASE_ADDRESS_0 4 reg_val_new;;
      reg_val ← read_cfg bdf PCI_BASE_ADDRESS_0 4;
      let c3 := Z.land reg_val 0xFFFFFFF0 =? reg_val_new in
      write_cfg bdf PCI_BASE_ADDRESS_0 4 reg_val_ori;;
      mret (Z.b2z c1 + Z.b2z c2 + Z.b2z c3 =? 3))).

Definition pci_rqmid_27735_PCIe_config_space_and_host_2_Byte_CFEH_Write_with_Disabled_Config_Address_001 (b : build) : tprog unit :=
  report_case "pci_rqmid_27735_PCIe_config_space_and_host_2_Byte_CFEH_Write_with_Disabled_Config_Address_001" (test_Write_with_Disabled_Config_Address b PCI_MSI_FLAGS 2 0xCFE).
Definition pci_rqmid_27747_PCIe_config_space_and_host_1_Byte_Config_Data_Port_Write_with_Disabled_Config_Address_001 (b : build) : tprog unit :=
  report_case "pci_rqmid_27747_PCIe_config_space_and_host_1_Byte_Config_Data_Port_Write_with_Disabled_Config_Address_001" (test_Write_with_Disabled_Config_Address b PCI_MSI_DATA_64 1 0xCFC).
Definition pci_rqmid_27742_PCIe_config_space_and_host_1_Byte_CFEH_Write_with_Disabled_Config_Address_001 (b : build) : tprog unit :=
  report_case "pci_rqmid_27742_PCIe_config_space_and_host_1_Byte_CFEH_Write_with_Disabled_Config_Address_001" (test_Write_with_Disabled_Config_Address b PCI_MSI_FLAGS 1 0xCFE).
Definition pci_rqmid_27744_PCIe_config_space_and_host_1_Byte_CFDH_Write_with_Disabled_Config_Address_001 (b : build) : tprog unit :=
  report_case "pci_rqmid_27744_PCIe_config_space_and_host_1_Byte_CFDH_Write_with_Disabled_Config_Address_001" (test_Write_with_Disabled_Config_Address b PCI_MSI_ADDRESS_LO 1 0xCFD).
Definition pci_rqmid_27739_PCIe_config_space_and_host_2_Byte_Config_Data_Port_Write_with_Disabled_Config_Address_001 (b : build) : tprog unit :=
  report_case "pci_rqmid_27739_PCIe_config_space_and_host_2_Byte_Config_Data_Port_Write_with_Disabled_Config_Address_001" (test_Write_with_Disabled_Config_Address b PCI_MSI_DATA_64 2 0xCFC).

Definition pci_rqmid_27741_PCIe_config_space_and_host_1_Byte_CFFH_Write_with_Disabled_Config_Address_001 (b : build) : tprog unit :=
  report_case "pci_rqmid_27741_PCIe_config_space_and_host_1_Byte_CFFH_Write_with_Disabled_Config_Address_001" (
    with_dev (DEV_VENDOR b) (λ bdf,
      reg_val_ori ← read_cfg bdf PCI_STATUS 2;
      let reg_val_new := Z.shiftr reg_val_ori 8 in
      reg_val_new ← xor_mask reg_val_new 7 0;
      pci_pdev_write_cfg_test bdf (PCI_STATUS + 1) 1 reg_val_new 0xCFF false;;
      reg_val_new ← read_cfg bdf PCI_STATUS 2;
      reg_val_ori ← and_mask reg_val_ori 15 8;
      reg_val_new ← and_mask reg_val_new 15 8;
      mret (reg_val_ori =? reg_val_new))).

Definition pci_rqmid_27759_PCIe_config_space_and_host_Normal_Write_with_Disabled_Config_Address_001 (b : build) : tprog unit :=
  report_case "pci_rqmid_27759_PCIe_config_space_and_host_Normal_Write_with_Disabled_Config_Address_001" (
    with_dev (DEV_VENDOR b) (λ bdf,
      reg_val_ori ← read_cfg bdf PCI_BASE_ADDRESS_1 4;
      reg_val_new ← xor_mask reg_val_ori 31 0;
      pci_pdev_write_cfg_test bdf PCI_BASE_ADDRESS_1 4 reg_val_new 0xCFC false;;
      reg_val_new ← read_cfg bdf PCI_BASE_ADDRESS_1 4;
      write_cfg bdf PCI_BASE_ADDRESS_1 4 reg_val_ori;;
      mret (reg_val_ori =? reg_val_new))).

Definition pci_rqmid_27774_PCIe_config_space_and_host_2_Byte_Config_Data_Port_Read_with_Disabled_Config_Address_001 (b : build) : tprog unit :=
  report_case "pci_rqmid_27774_PCIe_config_space_and_host_2_Byte_Config_Data_Port_Read_with_Disabled_Config_Address_001" (
    with_dev (DEV_VENDOR b) (λ bdf, with_msi bdf (λ _,
      reg_val ← pci_pdev_read_cfg_test bdf PCI_MSI_DATA_64 2 0xCFC false;
      mret (0xFFFF =? reg_val)))).

Definition pci_rqmid_27780_PCIe_config_space_and_host_Normal_Config_Data_Port_Read_with_Disabled_Config_Address_001 (b : build) : tprog unit :=
  report_case "pci_rqmid_27780_PCIe_config_space_and_host_Normal_Config_Data_Port_Read_with_Disabled_Config_Address_001" (
    with_dev (DEV_VENDOR b) (λ bdf,
      reg_val ← pci_pdev_read_cfg_test bdf PCI_BASE_ADDRESS_0 4 0xCFC false;
      mret (reg_val =? 0xFFFFFFFF))).

Definition pci_rqmid_27775_PCIe_config_space_and_host_1_Byte_CFFH_Read_with_Disabled_Config_Address_001 (b : build) : tprog unit :=
  report_case "pci_rqmid_27775_PCIe_config_space_and_host_1_Byte_CFFH_Read_with_Disabled_Config_Address_001" (
    with_dev (DEV_VENDOR b) (λ bdf,
      reg_val ← pci_pdev_read_cfg_test bdf (PCI_STATUS + 1) 1 0xCFF false;
      mret (reg_val =? 0xFF))).

Definition pci_rqmid_27778_PCIe_config_space_and_host_1_Byte_CFDH_Read_with_Disabled_Config_Address_001 (b : build) : tprog unit :=
  report_case "pci_rqmid_27778_PCIe_config_space_and_host_1_Byte_CFDH_Read_with_Disabled_Config_Address_001" (
    with_dev (DEV_VENDOR b) (λ bdf, with_msi bdf (λ msi_addr,
      let msi_addr := msi_addr + PCI_MSI_ADDRESS_LO in
      reg_val ← pci_pdev_read_cfg_test bdf (msi_addr + 1) 1 0xCFD false;
      mret (reg_val =? 0xFF)))).

Definition pci_rqmid_27773_PCIe_config_space_and_host_2_Byte_CFEH_Read_with_Disabled_Config_Address_001 (b : build) : tprog unit :=
  report_case "pci_rqmid_27773_PCIe_config_space_and_host_2_Byte_CFEH_Read_with_Disabled_Config_Address_001" (
    with_dev (DEV_VENDOR b) (λ bdf, with_msi bdf (λ msi_addr,
      reg_val ← pci_pdev_read_cfg_test bdf (msi_addr + PCI_MSI_FLAGS) 2 0xCFE false;
      mret (reg_val =? 0xFFFF)))).

Definition pci_rqmid_27779_PCIe_config_space_and_host_1_Byte_Config_Data_Port_Read_with_Disabled_Config_Address_001 (b : build) : tprog unit :=
  report_case "pci_rqmid_27779_PCIe_config_space_and_host_1_Byte_Config_Data_Port_Read_with_Disabled_Config_Address_001" (
    with_dev (DEV_VENDOR b) (λ bdf, with_msi bdf (λ msi_addr,
      reg_val ← pci_pdev_read_cfg_test bdf (msi_addr + PCI_MSI_DATA_64) 1 0xCFC false;
      mret (reg_val =? 0xFF)))).

Definition pci_rqmid_27776_PCIe_config_space_and_host_1_Byte_CFEH_Read_with_Disabled_Config_Address_001 (b : build) : tprog unit :=
  report_case "pci_rqmid_27776_PCIe_config_space_and_host_1_Byte_CFEH_Read_with_Disabled_Config_Address_001" (
    with_dev (DEV_VENDOR b) (λ bdf, with_msi bdf (λ msi_addr,
      reg_val ← pci_pdev_read_cfg_test bdf (msi_addr + PCI_MSI_FLAGS) 1 0xCFE false;
      mret (reg_val =? 0xFF)))).

Definition pci_rqmid_27769_PCIe_config_space_and_host_1_Byte_CFDH_Write_with_Enabled_Config_Address_001 (b : build) : tprog unit :=
  report_case "pci_rqmid_27769_PCIe_config_space_and_host_1_Byte_CFDH_Write_with_Enabled_Config_Address_001" (
    with_dev (DEV_VENDOR b) (λ bdf, with_msi bdf (λ msi_addr,
      let msi_addr := msi_addr + PCI_MSI_ADDRESS_LO in
      reg_val_ori ← read_cfg bdf msi_addr 4;
      reg_val_new ← and_mask (Z.shiftr reg_val_ori 8) 7 0;
      let reg_val_new := Z.lxor reg_val_new 0xF0 in
      pci_pdev_write_cfg_test bdf (msi_addr + 1) 1 reg_val_new 0xCFD true;;
      reg_val_new_new ← read_cfg bdf msi_addr 4;
      reg_val_new_new ← and_mask (Z.shiftr reg_val_new_new 8) 7 0;
      write_cfg bdf msi_addr 4 reg_val_ori;;
      mret (reg_val_new_new =? reg_val_new)))).

Definition pci_rqmid_27767_PCIe_config_space_and_host_1_Byte_CFFH_Write_with_Enabled_Config_Address_001 (b : build) : tprog unit :=
  report_case "pci_rqmid_27767_PCIe_config_space_and_host_1_Byte_CFFH_Write_with_Enabled_Config_Address_001" (
    with_dev (DEV_VENDOR b) (λ bdf,
      read_cfg bdf PCI_STATUS 2;;
      pci_pdev_write_cfg_test bdf (PCI_STATUS + 1) 1 0xFF 0xCFF true;;
      reg_val ← read_cfg bdf PCI_STATUS 2;
      let reg_val := Z.shiftr reg_val 8 in
      mret (Z.land reg_val 0xF0 =? 0x00))).

(** The three tests of the data ports that compare part of the bits: the value
    is written through [write], read back through [read], and compared in the
    bits that [cut] leaves. *)
Definition port_write_read (b : build) (msi_offset : Z) (bytes : nat)
    (write : Z → Z → Z → tprog unit) (read : Z → Z → tprog Z) (cut : Z → tprog Z) : tprog bool :=
  let msb := bytes * 8 - 1 in
  with_dev (DEV_VENDOR b) (λ bdf, with_msi bdf (λ msi_addr,
    let msi_addr := msi_addr + msi_offset in
    reg_val_ori ← read_cfg bdf msi_addr bytes;
    reg_val_new ← xor_mask reg_val_ori msb 0;
    write bdf msi_addr reg_val_new;;
    reg_val ← read bdf msi_addr;
    reg_val ← and_mask reg_val msb 0;
    reg_val ← cut reg_val;
    reg_val_new ← and_mask reg_val_new msb 0;
    reg_val_new ← cut reg_val_new;
    write_cfg bdf msi_addr bytes reg_val_ori;;
    mret (reg_val_new =? reg_val))).

Definition write_port (bytes : nat) (port bdf off v : Z) : tprog unit :=
  pci_pdev_write_cfg_test bdf off bytes v port true.
Definition read_port (bytes : nat) (port bdf off : Z) : tprog Z :=
  pci_pdev_read_cfg_test bdf off bytes port true.
Definition write_plain (bytes : nat) (bdf off v : Z) : tprog unit := write_cfg bdf off bytes v.
Definition read_plain (bytes : nat) (bdf off : Z) : tprog Z := read_cfg bdf off bytes.

Definition pci_rqmid_27766_PCIe_config_space_and_host_2_Byte_Config_Data_Port_Write_with_Enabled_Config_Address_001 (b : build) : tprog unit :=
  report_case "pci_rqmid_27766_PCIe_config_space_and_host_2_Byte_Config_Data_Port_Write_with_Enabled_Config_Address_001" (
    port_write_read b PCI_MSI_DATA_64 2 (write_port 2 0xCFC) (read_plain 2) (λ v, and_mask v 7 0)).
Definition pci_rqmid_27765_PCIe_config_space_and_host_2_Byte_CFEH_Write_with_Enabled_Config_Address_001 (b : build) : tprog unit :=
  report_case "pci_rqmid_27765_PCIe_config_space_and_host_2_Byte_CFEH_Write_with_Enabled_Config_Address_001" (
    port_write_read b PCI_MSI_FLAGS 2 (write_port 2 0xCFE) (read_plain 2) (λ v, and_umask v 15 1)).
Definition pci_rqmid_27768_PCIe_config_space_and_host_1_Byte_CFEH_Write_with_Enabled_Config_Address_001 (b : build) : tprog unit :=
  report_case "pci_rqmid_27768_PCIe_config_space_and_host_1_Byte_CFEH_Write_with_Enabled_Config_Address_001" (
    port_write_read b PCI_MSI_FLAGS 1 (write_port 1 0xCFE) (read_plain 1) (λ v, and_umask v 7 1)).
Definition pci_rqmid_27786_PCIe_config_space_and_host_1_Byte_CFEH_Read_with_Enabled_Config_Address_001 (b : build) : tprog unit :=
  report_case "pci_rqmid_27786_PCIe_config_space_and_host_1_Byte_CFEH_Read_with_Enabled_Config_Address_001" (
    port_write_read b PCI_MSI_FLAGS 1 (write_plain 1) (read_port 1 0xCFE) (λ v, and_umask v 7 1)).
Definition pci_rqmid_27783_PCIe_config_space_and_host_2_Byte_CFEH_Read_with_Enabled_Config_Address_001 (b : build) : tprog unit :=
  report_case "pci_rqmid_27783_PCIe_config_space_and_host_2_Byte_CFEH_Read_with_Enabled_Config_Address_001" (
    port_write_read b PCI_MSI_FLAGS 2 (write_plain 2) (read_port 2 0xCFE) (λ v, and_umask v 15 1)).
Definition pci_rqmid_27784_PCIe_config_space_and_host_2_Byte_Config_Data_Port_Read_with_Enabled_Config_Address_001 (b : build) : tprog unit :=
  report_case "pci_rqmid_27784_PCIe_config_space_and_host_2_Byte_Config_Data_Port_Read_with_Enabled_Config_Address_001" (
    port_write_read b PCI_MSI_DATA_64 2 (write_plain 2) (read_port 2 0xCFC) (λ v, and_mask v 7 0)).
(** The byte is compared in the bits 12 to 15. *)
Definition pci_rqmid_27787_PCIe_config_space_and_host_1_Byte_CFDH_Read_with_Enabled_Config_Address_001 (b : build) : tprog unit :=
  report_case "pci_rqmid_27787_PCIe_config_space_and_host_1_Byte_CFDH_Read_with_Enabled_Config_Address_001" (
    port_write_read b (PCI_MSI_ADDRESS_LO + 1) 1 (write_port 1 0xCFD) (read_port 1 0xCFD) (λ v, and_mask v 15 12)).

Definition pci_rqmid_27770_PCIe_config_space_and_host_1_Byte_Config_Data_Port_Write_with_Enabled_Config_Address_001 (b : build) : tprog unit :=
  report_case "pci_rqmid_27770_PCIe_config_space_and_host_1_Byte_Config_Data_Port_Write_with_Enabled_Config_Address_001" (test_Write_with_enabled_Config_Address b PCI_MSI_DATA_64 1 0xCFC).
Definition pci_rqmid_27788_PCIe_config_space_and_host_1_Byte_Config_Data_Port_Read_with_Enabled_Config_Address_001 (b : build) : tprog unit :=
  report_case "pci_rqmid_27788_PCIe_config_space_and_host_1_Byte_Config_Data_Port_Read_with_Enabled_Config_Address_001" (test_Read_with_Enabled_Config_Address b PCI_MSI_DATA_64 1 0xCFC).

Definition pci_rqmid_27771_PCIe_config_space_and_host_Normal_Write_with_Enabled_Config_Address_001 (b : build) : tprog unit :=
  report_case "pci_rqmid_27771_PCIe_config_space_and_host_Normal_Write_with_Enabled_Config_Address_001" (
    with_dev (DEV_VENDOR b) (λ bdf,
      reg_val_ori ← read_cfg bdf PCI_BASE_ADDRESS_0 4;
      let reg_val_new := 0x80000000 in
      write_cfg bdf PCI_BASE_ADDRESS_0 4 reg_val_new;;
      reg_val ← read_cfg bdf PCI_BASE_ADDRESS_0 4;
      let reg_val := Z.land reg_val 0xFFFFFFF0 in
      write_cfg bdf PCI_BASE_ADDRESS_0 4 reg_val_ori;;
      mret (reg_val =? reg_val_new))).

Definition pci_rqmid_27785_PCIe_config_space_and_host_1_Byte_CFFH_Read_with_Enabled_Config_Address_001 (b : build) : tprog unit :=
  report_case "pci_rqmid_27785_PCIe_config_space_and_host_1_Byte_CFFH_Read_with_Enabled_Config_Address_001" (
    with_dev (DEV_VENDOR b) (λ bdf,
      pci_pdev_write_cfg_test bdf (PCI_STATUS + 1) 1 0xFF 0xCFF true;;
      reg_val ← pci_pdev_read_cfg_test bdf (PCI_STATUS + 1) 1 0xCFF true;
      mret (Z.land reg_val 0xF0 =? 0x00))).

Definition pci_rqmid_27789_PCIe_config_space_and_host_Normal_Config_Data_Port_Read_with_Enabled_Config_Address_001 (b : build) : tprog unit :=
  report_case "pci_rqmid_27789_PCIe_config_space_and_host_Normal_Config_Data_Port_Read_with_Enabled_Config_Address_001" (
    with_dev (DEV_VENDOR b) (λ bdf,
      reg_val_ori ← read_cfg bdf PCI_BASE_ADDRESS_0 4;
      let reg_val_new := 0x80000000 in
      pci_pdev_write_cfg_test bdf PCI_BASE_ADDRESS_0 4 reg_val_new 0xCFC true;;
      reg_val ← pci_pdev_read_cfg_test bdf PCI_BASE_ADDRESS_0 4 0xCFC true;
      let reg_val := Z.land reg_val 0xFFFFFFF0 in
      write_cfg bdf PCI_BASE_ADDRESS_0 4 reg_val_ori;;
      mret (reg_val =? reg_val_new))).

(** [is_pass] is true already when the value is compared. *)
Definition address_port_write (dev_ven off : Z) : tprog bool :=
  with_dev dev_ven (λ bdf,
    write_cfg bdf off 2 (Z.shiftl 0x1 6);;
    reg_val ← read_cfg bdf off 2;
    let is_pass := true in
    mret (if reg_val =? Z.shiftl 0x1 6 then true else is_pass)).

Definition pci_rqmid_30962_PCIe_config_space_and_host_Normal_Config_Address_Port_Write_002 : tprog unit :=
  report_case "pci_rqmid_30962_PCIe_config_space_and_host_Normal_Config_Address_Port_Write_002" (address_port_write NET_DEV_VENDOR 0xDC).
Definition pci_rqmid_30960_PCIe_config_space_and_host_Normal_Config_Address_Port_Write_001 : tprog unit :=
  report_case "pci_rqmid_30960_PCIe_config_space_and_host_Normal_Config_Address_Port_Write_001" (address_port_write USB_DEV_VENDOR 0x8C).

Definition pci_rqmid_27790_PCIe_config_space_and_host_2_Byte_Config_Address_Port_Write_001 : tprog unit :=
  report_case "pci_rqmid_27790_PCIe_config_space_and_host_2_Byte_Config_Address_Port_Write_001" (
    addr0 ← pio_read32 PCI_CONFIG_ADDR;
    m ← SHIFT_MASK 15 0;
    let value := u16 (Z.lxor addr0 m) in
    on_mach (pio_write value PCI_CONFIG_ADDR 2);;
    addr1 ← pio_read32 PCI_CONFIG_ADDR;
    mret (addr0 =? addr1)).

Definition pci_rqmid_27791_PCIe_config_space_and_host_1_Byte_Config_Address_Port_Write_001 : tprog unit :=
  report_case "pci_rqmid_27791_PCIe_config_space_and_host_1_Byte_Config_Address_Port_Write_001" (
    addr0 ← pio_read32 PCI_CONFIG_ADDR;
    m ← SHIFT_MASK 7 0;
    let value := u8 (Z.lxor addr0 m) in
    on_mach (pio_write value PCI_CONFIG_ADDR 1);;
    addr1 ← pio_read32 PCI_CONFIG_ADDR;
    mret (addr0 =? addr1)).

Definition pci_rqmid_31161_PCIe_config_space_and_host_Normal_Config_Address_Port_Read_001 (b : build) : tprog unit :=
  report_case "pci_rqmid_31161_PCIe_config_space_and_host_Normal_Config_Address_Port_Read_001" (
    with_dev (DEV_VENDOR b) (λ bdf,
      let addr := pci_pdev_calc_address bdf PCI_BASE_ADDRESS_0 in
      pio_write32 addr PCI_CONFIG_ADDR;;
      addr1 ← on_mach op_eax;
      pio_read32 PCI_CONFIG_DATA;;
      mret (addr =? addr1))).

Definition pci_rqmid_27792_PCIe_config_space_and_host_2_Byte_Config_Address_Port_Read_001 : tprog unit :=
  report_case "pci_rqmid_27792_PCIe_config_space_and_host_2_Byte_Config_Address_Port_Read_001" (
    addr ← on_mach (pio_read PCI_CONFIG_ADDR 2); mret (addr =? 0xFFFF)).
Definition pci_rqmid_27793_PCIe_config_space_and_host_1_Byte_Config_Address_Port_Read_001 : tprog unit :=
  report_case "pci_rqmid_27793_PCIe_config_space_and_host_1_Byte_Config_Address_Port_Read_001" (
    addr ← on_mach (pio_read PCI_CONFIG_ADDR 1); mret (addr =? 0xFF)).

(** ** Test cases: reserved and read-only registers *)

Definition pci_rqmid_26040_PCIe_config_space_and_host_Read_Reserved_register_001 : tprog unit :=
  report_case "pci_rqmid_26040_PCIe_config_space_and_host_Read_Reserved_register_001" (
    with_dev USB_DEV_VENDOR (λ bdf, reg_val ← read_cfg bdf PCI_CONFIG_RESERVE 2; mret (reg_val =? 0))).
Definition pci_rqmid_28793_PCIe_config_space_and_host_Read_Reserved_register_002 : tprog unit :=
  report_case "pci_rqmid_28793_PCIe_config_space_and_host_Read_Reserved_register_002" (
    with_dev NET_DEV_VENDOR (λ bdf, reg_val ← read_cfg bdf PCI_CONFIG_RESERVE 2; mret (reg_val =? 0))).

Definition pci_rqmid_25295_PCIe_config_space_and_host_Write_Reserved_register_001 : tprog unit :=
  report_case "pci_rqmid_25295_PCIe_config_space_and_host_Write_Reserved_register_001" (
    with_dev USB_DEV_VENDOR (λ bdf,
      reg_val_ori ← read_cfg bdf PCI_CONFIG_RESERVE 2;
      let c1 := reg_val_ori =? 0 in
      reg_val_new ← xor_mask reg_val_ori 15 0;
      write_cfg bdf PCI_CONFIG_RESERVE 2 reg_val_new;;
      reg_val_new ← read_cfg bdf PCI_CONFIG_RESERVE 2;
      let c2 := reg_val_ori =? reg_val_new in
      mret (Z.b2z c1 + Z.b2z c2 =? 2))).

(** The reserved bits of the command register: the test that three cases
    make. *)
Definition command_reserved (dev_ven : Z) : tprog bool :=
  with_dev dev_ven (λ bdf,
    reg_val_ori ← read_cfg bdf PCI_COMMAND 2;
    reg_val_new ← xor_mask reg_val_ori 15 11;
    write_cfg bdf PCI_COMMAND 2 reg_val_new;;
    reg_val_new ← read_cfg bdf PCI_COMMAND 2;
    o ← and_mask reg_val_ori 15 11; n ← and_mask reg_val_new 15 11;
    let ret := Z.lor OK (pci_data_check o n false) in
    mret (ret =? OK)).

Definition pci_rqmid_25298_PCIe_config_space_and_host_Write_Reserved_register_002 : tprog unit :=
  report_case "pci_rqmid_25298_PCIe_config_space_and_host_Write_Reserved_register_002" (command_reserved USB_DEV_VENDOR).
Definition pci_rqmid_28791_PCIe_config_space_and_host_Write_Reserved_register_003 : tprog unit :=
  report_case "pci_rqmid_28791_PCIe_config_space_and_host_Write_Reserved_register_003" (command_reserved NET_DEV_VENDOR).

Definition pci_rqmid_38095_PCIe_config_space_and_host_PCI_configuration_header_register_USB_001 : tprog unit :=
  report_case "pci_rqmid_38095_PCIe_config_space_and_host_PCI_configuration_header_register_USB_001" (test_host_PCI_configuration_header_register_read_only USB_DEV_VENDOR).
Definition pci_rqmid_38096_PCIe_config_space_and_host_PCI_configuration_header_register_Ethernet_001 : tprog unit :=
  report_case "pci_rqmid_38096_PCIe_config_space_and_host_PCI_configuration_header_register_Ethernet_001" (test_host_PCI_configuration_header_register_read_only NET_DEV_VENDOR).

(** ** Test cases: the registers of the header *)

(** One register with the value [v]. *)
Definition check_register (dev_ven off v : Z) : tprog bool :=
  with_dev dev_ven (λ bdf,
    reg_val ← read_cfg bdf off 1;
    let ret := Z.lor OK (pci_data_check v reg_val false) in
    mret (ret =? OK)).

Definition pci_rqmid_26245_PCIe_config_space_and_host_Device_Identification_Type_Registers_004 : tprog unit :=
  report_case "pci_rqmid_26245_PCIe_config_space_and_host_Device_Identification_Type_Registers_004" (check_register USB_DEV_VENDOR PCI_HEADER_TYPE PCI_USB_HEADER_TYPE).
Definition pci_rqmid_28814_PCIe_config_space_and_host_Device_Identification_Type_Registers_007 : tprog unit :=
  report_case "pci_rqmid_28814_PCIe_config_space_and_host_Device_Identification_Type_Registers_007" (check_register NET_DEV_VENDOR PCI_HEADER_TYPE PCI_NET_HEADER_TYPE).
Definition pci_rqmid_26817_PCIe_config_space_and_host_Interrupt_Line_Register_001 : tprog unit :=
  report_case "pci_rqmid_26817_PCIe_config_space_and_host_Interrupt_Line_Register_001" (check_register USB_DEV_VENDOR PCI_INTERRUPT_LINE NATIVE_USB_INTERRUPT_LINE).
Definition pci_rqmid_28818_PCIe_config_space_and_host_Interrupt_Line_Register_002 : tprog unit :=
  report_case "pci_rqmid_28818_PCIe_config_space_and_host_Interrupt_Line_Register_002" (check_register NET_DEV_VENDOR PCI_INTERRUPT_LINE NATIVE_Ethernet_INTERRUPT_LINE).

(** The bits [msb] to [lsb] of a register of two bytes are inverted (in the
    value [reg_val_ori]), read back and compared. *)
Definition toggle_check (bdf off reg_val_ori msb lsb : Z) : tprog Z :=
  reg_val_new ← xor_mask reg_val_ori msb lsb;
  write_cfg bdf off 2 reg_val_new;;
  reg_val_new ← read_cfg bdf off 2;
  o ← and_mask reg_val_ori msb lsb; n ← and_mask reg_val_new msb lsb;
  mret (pci_data_check o n false).

Definition pci_rqmid_26793_PCIe_config_space_and_host_Status_Register_001 : tprog unit :=
  report_case "pci_rqmid_26793_PCIe_config_space_and_host_Status_Register_001" (
    with_dev USB_DEV_VENDOR (λ bdf,
      reg_val_ori ← read_cfg bdf PCI_STATUS 2;
      let c1 := PCI_USB_STATUS_VAL_NATIVE =? reg_val_ori in
      ret ← toggle_check bdf PCI_STATUS reg_val_ori 7 0;
      let c2 := ret =? OK in
      ret ← toggle_check bdf PCI_STATUS reg_val_ori 10 9;
      let c3 := ret =? OK in
      write_cfg bdf PCI_STATUS 2 reg_val_ori;;
      mret (Z.b2z c1 + Z.b2z c2 + Z.b2z c3 =? 3))).

(** [SHIFT_LEFT(0x1, 10) | ... ] *)
Definition COMMAND_PATTERN : Z :=
  Z.lor (Z.lor (Z.lor (Z.shiftl 0x1 10) (Z.shiftl 0x1 8)) (Z.shiftl 0x1 6)) (Z.shiftl 0x1 2).

Definition pci_rqmid_26794_PCIe_config_space_and_host_Command_Register_001 : tprog unit :=
  report_case "pci_rqmid_26794_PCIe_config_space_and_host_Command_Register_001" (
    with_dev USB_DEV_VENDOR (λ bdf,
      reg_val_ori ← read_cfg bdf PCI_COMMAND 2;
      write_cfg bdf PCI_COMMAND 2 COMMAND_PATTERN;;
      reg_val1 ← read_cfg bdf PCI_COMMAND 2;
      let ret := Z.lor OK (pci_data_check reg_val1 COMMAND_PATTERN false) in
      c ← toggle_check bdf PCI_COMMAND reg_val_ori 5 3;
      let ret := Z.lor ret c in
      c ← toggle_check bdf PCI_COMMAND reg_val_ori 7 7;
      let ret := Z.lor ret c in
      c ← toggle_check bdf PCI_COMMAND reg_val_ori 9 9;
      let ret := Z.lor ret c in
      mret (ret =? OK))).

Definition pci_rqmid_28830_PCIe_config_space_and_host_Command_Register_002 : tprog unit :=
  report_case "pci_rqmid_28830_PCIe_config_space_and_host_Command_Register_002" (
    with_dev NET_DEV_VENDOR (λ bdf,
      reg_val_ori ← read_cfg bdf PCI_COMMAND 2;
      write_cfg bdf PCI_COMMAND 2 COMMAND_PATTERN;;
      reg_val1 ← read_cfg bdf PCI_COMMAND 2;
      let ret := Z.lor OK (pci_data_check reg_val1 COMMAND_PATTERN false) in
      write_cfg bdf PCI_COMMAND 2 reg_val_ori;;
      mret (ret =? OK))).

(** The enumeration into an array on the stack, whose contents are [_pci_devs]. *)
Definition enumerate_and_find (_pci_devs : list util_dev) (ids : list Z) : tprog Z :=
  '(devs, nr) ← on_util (pci_pdev_enumerate_dev _pci_devs MAX_PCI_DEV_NUM);
  lift ((fix count (ids : list Z) (n : Z) : outcome Z :=
    match ids with
    | [] => Ret n
    | id :: ids' =>
        match is_dev_exist_by_dev_vendor devs nr id with
        | Ret r => count ids' (if r then n + 1 else n)
        | Stop e => Stop e
        end
    end) ids 0).

Definition pci_rqmid_38288_PCIe_config_space_and_host_PCI_Configuration_Space_Header_001 (b : build) (_pci_devs : list util_dev) : tprog unit :=
  report_case "pci_rqmid_38288_PCIe_config_space_and_host_PCI_Configuration_Space_Header_001" (
    count ← enumerate_and_find _pci_devs [HOSTBRIDGE_DEV_VENDOR; DEV_VENDOR b];
    mret (count =? 2)).
Definition pci_rqmid_38297_PCIe_config_space_and_host_Assumption_of_PCI_devices_assigned_001 (_pci_devs : list util_dev) : tprog unit :=
  report_case "pci_rqmid_38297_PCIe_config_space_and_host_Assumption_of_PCI_devices_assigned_001" (
    count ← enumerate_and_find _pci_devs [HOSTBRIDGE_DEV_VENDOR];
    mret (count =? 1)).

(** ** Test cases: the MSI capability *)

(** The whole capability: the control register keeps its bits, the fixed bits of
    the message address and data have their values. *)
Definition pci_rqmid_26821_PCIe_config_space_and_host_MSI_capability_structure_001 : tprog unit :=
  report_case "pci_rqmid_26821_PCIe_config_space_and_host_MSI_capability_structure_001" (
    with_dev USB_DEV_VENDOR (λ bdf, with_msi bdf (λ reg_addr,
      msi_ctrl ← read_cfg bdf (reg_addr + 2) 2;
      let reg_val_ori := msi_ctrl in
      reg_val_new ← xor_mask reg_val_ori 3 1;
      write_cfg bdf (reg_addr + 2) 2 reg_val_new;;
      reg_val_new ← read_cfg bdf (reg_addr + 2) 2;
      let ret := Z.lor OK (pci_data_check reg_val_ori reg_val_new false) in
      reg_val_new ← xor_mask reg_val_ori 15 11;
      write_cfg bdf (reg_addr + 2) 2 reg_val_new;;
      reg_val_new ← read_cfg bdf (reg_addr + 2) 2;
      let ret := Z.lor ret (pci_data_check reg_val_ori reg_val_new false) in
      reg_val ← read_cfg bdf reg_addr 4;
      let ret := Z.lor ret (pci_data_check (Z.lor (Z.shiftl (Z.shiftl 0x40 1) 16) 0x05) reg_val false) in
      let reg_addr := reg_addr + 4 in
      reg_val ← read_cfg bdf reg_addr 4;
      reg_val ← and_mask reg_val 31 20;
      let ret := Z.lor ret (pci_data_check 0xFEE00000 reg_val false) in
      '(reg_addr, ret) ←
        (if bit_set msi_ctrl (Z.shiftl 1 7) then
           let reg_addr := reg_addr + 4 in
           reg_val ← read_cfg bdf reg_addr 4;
           mret (reg_addr, Z.lor ret (pci_data_check 0x00000000 reg_val false))
         else mret (reg_addr, ret));
      let reg_addr := reg_addr + 4 in
      reg_val ← read_cfg bdf reg_addr 2;
      m1 ← SHIFT_MASK 15 14; m2 ← SHIFT_MASK 10 8;
      let reg_val := u32 (Z.land reg_val (Z.lor m1 m2)) in
      let ret := Z.lor ret (pci_data_check 0x0000 reg_val false) in
      mret (ret =? OK)))).

(** The bits [msb] to [lsb] of a register of [n] bytes are inverted and must read
    back inverted. *)
Definition invert_check (bdf off : Z) (n : nat) (reg_val_ori msb lsb : Z) : tprog Z :=
  reg_val_new ← xor_mask reg_val_ori msb lsb;
  write_cfg bdf off n reg_val_new;;
  reg_val_new ← read_cfg bdf off n;
  e ← xor_mask reg_val_ori msb lsb;
  mret (pci_data_check e reg_val_new false).

Definition pci_rqmid_26823_PCIe_config_space_and_host_MSI_capability_structure_002 : tprog unit :=
  report_case "pci_rqmid_26823_PCIe_config_space_and_host_MSI_capability_structure_002" (
    with_dev USB_DEV_VENDOR (λ bdf, with_msi bdf (λ reg_addr,
      msi_ctrl ← read_cfg bdf (reg_addr + 2) 2;
      let reg_addr := reg_addr + 4 in
      reg_val_ori ← read_cfg bdf reg_addr 4;
      c ← invert_check bdf reg_addr 4 reg_val_ori 19 12;
      let ret := Z.lor OK c in
      let reg_addr := if bit_set msi_ctrl (Z.shiftl 1 7) then reg_addr + 0x8 else reg_addr + 0x4 in
      reg_val_ori ← read_cfg bdf reg_addr 2;
      c ← invert_check bdf reg_addr 2 reg_val_ori 7 0;
      let ret := Z.lor ret c in
      write_cfg bdf reg_addr 2 reg_val_ori;;
      c ← invert_check bdf reg_addr 2 reg_val_ori 10 8;
      let ret := Z.lor ret c in
      write_cfg bdf reg_addr 2 reg_val_ori;;
      c ← invert_check bdf reg_addr 2 reg_val_ori 13 11;
      let ret := Z.lor ret c in
      c ← invert_check bdf reg_addr 2 reg_val_ori 15 14;
      let ret := Z.lor ret c in
      write_cfg bdf reg_addr 2 reg_val_ori;;
      mret (ret =? OK)))).

Definition pci_rqmid_28836_PCIe_config_space_and_host_MSI_capability_structure_003 : tprog unit :=
  report_case "pci_rqmid_28836_PCIe_config_space_and_host_MSI_capability_structure_003" (
    with_dev NET_DEV_VENDOR (λ bdf, with_msi bdf (λ reg_addr,
      msi_ctrl ← read_cfg bdf (reg_addr + 2) 2;
      reg_val ← read_cfg bdf reg_addr 4;
      let ret := Z.lor OK (pci_data_check (Z.lor (Z.shiftl (Z.shiftl 0x40 1) 16) 0x05) reg_val false) in
      let reg_addr := reg_addr + 4 in
      reg_val ← read_cfg bdf reg_addr 4;
      m1 ← SHIFT_MASK 31 20; m2 ← SHIFT_MASK 3 0;
      let reg_val := u32 (Z.land reg_val (Z.lor m1 m2)) in
      let ret := Z.lor ret (pci_data_check 0xFEE00000 reg_val false) in
      '(reg_addr, ret) ←
        (if bit_set msi_ctrl (Z.shiftl 1 7) then
           let reg_addr := reg_addr + 4 in
           reg_val ← read_cfg bdf reg_addr 4;
           mret (reg_addr, Z.lor ret (pci_data_check 0x00000000 reg_val false))
         else mret (reg_addr, ret));
      let reg_addr := reg_addr + 4 in
      reg_val ← read_cfg bdf reg_addr 2;
      m1 ← SHIFT_MASK 15 14; m2 ← SHIFT_MASK 10 8;
      let reg_val := u32 (Z.land reg_val (Z.lor m1 m2)) in
      let ret := Z.lor ret (pci_data_check 0x4000 reg_val false) in
      mret (ret =? OK)))).

Definition pci_rqmid_28835_PCIe_config_space_and_host_MSI_capability_structure_004 : tprog unit :=
  report_case "pci_rqmid_28835_PCIe_config_space_and_host_MSI_capability_structure_004" (
    with_dev NET_DEV_VENDOR (λ bdf, with_msi bdf (λ reg_addr,
      msi_ctrl ← read_cfg bdf (reg_addr + 2) 2;
      let reg_addr := reg_addr + 4 in
      reg_val_ori ← read_cfg bdf reg_addr 4;
      c ← invert_check bdf reg_addr 4 reg_val_ori 19 12;
      let ret := Z.lor OK c in
      let reg_addr := if bit_set msi_ctrl (Z.shiftl 1 7) then reg_addr + 0x8 else reg_addr + 0x4 in
      reg_val_ori ← read_cfg bdf reg_addr 2;
      c ← invert_check bdf reg_addr 2 reg_val_ori 7 0;
      let ret := Z.lor ret c in
      mret (ret =? OK)))).

Definition pci_rqmid_28886_PCIe_config_space_and_host_MSI_message_data_vector_read_write_002 : tprog unit :=
  report_case "pci_rqmid_28886_PCIe_config_space_and_host_MSI_message_data_vector_read_write_002" (
    with_dev NET_DEV_VENDOR (λ bdf, with_msi bdf (λ reg_addr,
      let reg_addr := reg_addr + PCI_MSI_DATA_64 in
      reg_val_ori ← read_cfg bdf reg_addr 2;
      c ← invert_check bdf reg_addr 2 reg_val_ori 7 0;
      let ret := Z.lor OK c in
      write_cfg bdf reg_addr 2 reg_val_ori;;
      mret (ret =? OK)))).

Definition pci_rqmid_38091_PCIe_config_space_and_host_capability_ID_register_of_the_PCI_MSI_capability_USB_001 : tprog unit :=
  report_case "pci_rqmid_38091_PCIe_config_space_and_host_capability_ID_register_of_the_PCI_MSI_capability_USB_001" (
    with_dev USB_DEV_VENDOR (λ bdf, v ← read_cfg bdf USB_MSI_REG_OFFSET 1; mret (v =? MSI_CAPABILITY_ID))).
Definition pci_rqmid_38094_PCIe_config_space_and_host_capability_ID_register_of_the_PCI_MSI_capability_Ethernet_001 : tprog unit :=
  report_case "pci_rqmid_38094_PCIe_config_space_and_host_capability_ID_register_of_the_PCI_MSI_capability_Ethernet_001" (
    with_dev NET_DEV_VENDOR (λ bdf, v ← read_cfg bdf ETH_MSI_REG_OFFSET 1; mret (v =? MSI_CAPABILITY_ID))).

Definition pci_rqmid_28884_PCIe_config_space_and_host_MSI_message_address_destination_ID_read_write_002 : tprog unit :=
  report_case "pci_rqmid_28884_PCIe_config_space_and_host_MSI_message_address_destination_ID_read_write_002" (test_MSI_message_address_destination_field_rw USB_DEV_VENDOR).
Definition pci_rqmid_28882_PCIe_config_space_and_host_MSI_message_address_destination_ID_read_write_001 : tprog unit :=
  report_case "pci_rqmid_28882_PCIe_config_space_and_host_MSI_message_address_destination_ID_read_write_001" (test_MSI_message_address_destination_field_rw NET_DEV_VENDOR).
Definition pci_rqmid_28908_PCIe_config_space_and_host_MSI_message_data_trigger_mode_read_001 : tprog unit :=
  report_case "pci_rqmid_28908_PCIe_config_space_and_host_MSI_message_data_trigger_mode_read_001" (test_host_MSI_message_data_trigger_mode_read USB_DEV_VENDOR).
Definition pci_rqmid_28909_PCIe_config_space_and_host_MSI_message_data_trigger_mode_read_002 : tprog unit :=
  report_case "pci_rqmid_28909_PCIe_config_space_and_host_MSI_message_data_trigger_mode_read_002" (test_host_MSI_message_data_trigger_mode_read NET_DEV_VENDOR).
Definition pci_rqmid_28888_PCIe_config_space_and_host_MSI_message_data_trigger_mode_write_001 : tprog unit :=
  report_case "pci_rqmid_28888_PCIe_config_space_and_host_MSI_message_data_trigger_mode_write_001" (test_host_MSI_message_data_trigger_mode_write USB_DEV_VENDOR).
Definition pci_rqmid_28889_PCIe_config_space_and_host_MSI_message_data_trigger_mode_write_002 : tprog unit :=
  report_case "pci_rqmid_28889_PCIe_config_space_and_host_MSI_message_data_trigger_mode_write_002" (test_host_MSI_message_data_trigger_mode_write NET_DEV_VENDOR).
Definition pci_rqmid_28911_PCIe_config_space_and_host_MSI_message_data_delivery_mode_read_001 : tprog unit :=
  report_case "pci_rqmid_28911_PCIe_config_space_and_host_MSI_message_data_delivery_mode_read_001" (test_host_MSI_message_data_delivery_mode_read USB_DEV_VENDOR).
Definition pci_rqmid_28910_PCIe_config_space_and_host_MSI_message_data_delivery_mode_read_002 : tprog unit :=
  report_case "pci_rqmid_28910_PCIe_config_space_and_host_MSI_message_data_delivery_mode_read_002" (test_host_MSI_message_data_delivery_mode_read NET_DEV_VENDOR).
Definition pci_rqmid_28892_PCIe_config_space_and_host_MSI_message_data_delivery_mode_write_001 : tprog unit :=
  report_case "pci_rqmid_28892_PCIe_config_space_and_host_MSI_message_data_delivery_mode_write_001" (test_host_MSI_message_data_delivery_mode_write USB_DEV_VENDOR).
Definition pci_rqmid_28891_PCIe_config_space_and_host_MSI_message_data_delivery_mode_write_002 : tprog unit :=
  report_case "pci_rqmid_28891_PCIe_config_space_and_host_MSI_message_data_delivery_mode_write_002" (test_host_MSI_message_data_delivery_mode_write NET_DEV_VENDOR).
Definition pci_rqmid_28914_PCIe_config_space_and_host_MSI_message_address_interrupt_message_address_read_001 : tprog unit :=
  report_case "pci_rqmid_28914_PCIe_config_space_and_host_MSI_message_address_interrupt_message_address_read_001" (test_host_MSI_message_address_interrupt_message_address_read USB_DEV_VENDOR).
Definition pci_rqmid_28915_PCIe_config_space_and_host_MSI_message_address_interrupt_message_address_read_002 : tprog unit :=
  report_case "pci_rqmid_28915_PCIe_config_space_and_host_MSI_message_address_interrupt_message_address_read_002" (test_host_MSI_message_address_interrupt_message_address_read NET_DEV_VENDOR).
Definition pci_rqmid_28894_PCIe_config_space_and_host_MSI_message_address_interrupt_message_address_write_001 : tprog unit :=
  report_case "pci_rqmid_28894_PCIe_config_space_and_host_MSI_message_address_interrupt_message_address_write_001" (test_host_MSI_message_address_int_msg_addr_write USB_DEV_VENDOR).
Definition pci_rqmid_28917_PCIe_config_space_and_host_MSI_message_address_redirection_hint_read_001 : tprog unit :=
  report_case "pci_rqmid_28917_PCIe_config_space_and_host_MSI_message_address_redirection_hint_read_001" (test_host_MSI_message_address_redirection_hint_read USB_DEV_VENDOR).
Definition pci_rqmid_28916_PCIe_config_space_and_host_MSI_message_address_redirection_hint_read_002 : tprog unit :=
  report_case "pci_rqmid_28916_PCIe_config_space_and_host_MSI_message_address_redirection_hint_read_002" (test_host_MSI_message_address_redirection_hint_read NET_DEV_VENDOR).
Definition pci_rqmid_28896_PCIe_config_space_and_host_MSI_message_address_redirection_hint_write_001 : tprog unit :=
  report_case "pci_rqmid_28896_PCIe_config_space_and_host_MSI_message_address_redirection_hint_write_001" (test_host_MSI_message_address_redirection_hint_write USB_DEV_VENDOR).
Definition pci_rqmid_28895_PCIe_config_space_and_host_MSI_message_address_redirection_hint_write_002 : tprog unit :=
  report_case "pci_rqmid_28895_PCIe_config_space_and_host_MSI_message_address_redirection_hint_write_002" (test_host_MSI_message_address_redirection_hint_write NET_DEV_VENDOR).
Definition pci_rqmid_28918_PCIe_config_space_and_host_MSI_message_control_read_001 : tprog unit :=
  report_case "pci_rqmid_28918_PCIe_config_space_and_host_MSI_message_control_read_001" (test_host_MSI_message_control_read USB_DEV_VENDOR).
Definition pci_rqmid_28920_PCIe_config_space_and_host_MSI_message_control_read_002 : tprog unit :=
  report_case "pci_rqmid_28920_PCIe_config_space_and_host_MSI_message_control_read_002" (test_host_MSI_message_control_read NET_DEV_VENDOR).
Definition pci_rqmid_28899_PCIe_config_space_and_host_MSI_message_control_write_001 : tprog unit :=
  report_case "pci_rqmid_28899_PCIe_config_space_and_host_MSI_message_control_write_001" (test_host_MSI_message_control_write USB_DEV_VENDOR).
Definition pci_rqmid_28897_PCIe_config_space_and_host_MSI_message_control_write_002 : tprog unit :=
  report_case "pci_rqmid_28897_PCIe_config_space_and_host_MSI_message_control_write_002" (test_host_MSI_message_control_write NET_DEV_VENDOR).
Definition pci_rqmid_28923_PCIe_config_space_and_host_MSI_Next_PTR_001 : tprog unit :=
  report_case "pci_rqmid_28923_PCIe_config_space_and_host_MSI_Next_PTR_001" (test_host_MSI_Next_PTR USB_DEV_VENDOR).
Definition pci_rqmid_28921_PCIe_config_space_and_host_MSI_Next_PTR_002 : tprog unit :=
  report_case "pci_rqmid_28921_PCIe_config_space_and_host_MSI_Next_PTR_002" (test_host_MSI_Next_PTR NET_DEV_VENDOR).
End PciTest.

(** ** Reasoning about tests

    [tw m Q e f]: run on a machine whose registers are [f], the test ends with a
    result and registers that satisfy [Q]; the rest of the machine, [e], stays
    as it is. *)

Class TestLaws (St : Type) {io : PortIO St} {ops : TestOps St} {laws : Conf1Laws St} {rl : RegLaws St} := {
  (** the results reported so far *)
  verdicts : St → list (string * bool);
  #[global] tl_keeps :: KeepsRest verdicts;
  lapic_id : Z;
  tl_apic_id s : op_apic_id s = Ret (lapic_id, s);
  reported : string → bool → St → St;
  tl_report name b s : op_report name b s = Ret ((), reported name b s);
  tl_verdicts name b s : verdicts (reported name b s) = verdicts s ++ [(name, b)];
  tl_reg name b s d r : reg (reported name b s) d r = reg s d r;
}.

(** What a test does not change: the accesses used, the results, the static
    variables. *)
Record env := Env {
  e_mode : Z; e_log : list (string * bool); e_devs : list util_dev; e_nr : Z; e_xbar : Z }.

Section Logic.
Context {St : Type} {io : PortIO St} {ops : TestOps St} {laws : Conf1Laws St} {rl : RegLaws St}
  {tl : TestLaws St}.
#[local] Abbreviation tprog := (prog (test_state St)).

Definition TAt (e : env) (f : store) (s : test_state St) : Prop :=
  At verdicts (e_mode e) f (e_log e) (t_util s) ∧
  pci_devs s = e_devs e ∧ nr_pci_devs s = e_nr e ∧ xbar s = e_xbar e.

Definition tw {A} (m : tprog A) (Q : A → store → Prop) (e : env) (f : store) : Prop :=
  ∀ s, TAt e f s → wp m (λ a s', ∃ f', TAt e f' s' ∧ Q a f') s.

Lemma tw_ret {A} (a : A) (Q : A → store → Prop) e f : Q a f → tw (mret a) Q e f.
Proof using Type. intros H s Hs. wstep. eauto. Qed.

Lemma tw_bind {A B} (m : tprog A) (k : A → tprog B) Q e f :
  tw m (λ a f', tw (k a) Q e f') e f → tw (m ≫= k) Q e f.
Proof using Type.
  intros H s Hs. wstep. eapply wp_mono; [by apply H|]. intros a s' (f' & Hs' & Hk). by apply Hk.
Qed.

Lemma tw_mono {A} (m : tprog A) (Q Q' : A → store → Prop) e f :
  tw m Q e f → (∀ a f', Q a f' → Q' a f') → tw m Q' e f.
Proof using Type.
  intros H HQ s Hs. eapply wp_mono; [by apply H|]. intros a s' (f' & Hs' & Ha). eauto.
Qed.

Lemma tw_lift {A} (o : outcome A) a (Q : A → store → Prop) e f : o = Ret a → Q a f → tw (lift o) Q e f.
Proof using Type. intros -> H s Hs. unfold wp, lift. eauto. Qed.

Lemma tw_read d off n (Q : Z → store → Prop) e f :
  field_ok d off n → Q (rd f d off n) f → tw (read_cfg d off n) Q e f.
Proof using Type.
  intros Hf HQ s [Hu Hr]. unfold read_cfg, on_util. wstep.
  eapply (read_cfg_at verdicts); [exact Hf|exact Hu|]. intros u' Hu'. exists f. split; [|exact HQ]. split; [exact Hu'|exact Hr].
Qed.

Lemma tw_write d off n v (Q : unit → store → Prop) e f :
  field_ok d off n → Q () (wr f d off n v) → tw (write_cfg d off n v) Q e f.
Proof using Type.
  intros Hf HQ s [Hu Hr]. unfold write_cfg, on_util. wstep.
  eapply (write_cfg_at verdicts); [exact Hf|exact Hu|]. intros u' Hu'. eexists. split; [|exact HQ]. split; [exact Hu'|exact Hr].
Qed.

Lemma tw_apic_id (Q : Z → store → Prop) e f : Q lapic_id f → tw (on_mach op_apic_id) Q e f.
Proof using Type.
  intros HQ s [(Hm & Hu) Hr]. unfold on_mach, on_util, on_hw. wstep. wstep. unfold wp.
  rewrite tl_apic_id. exists f. split; [|exact HQ]. split; [|exact Hr]. split; [done|exact Hu].
Qed.

(** The masks, with constants for the bits. *)
Lemma tw_mask msb lsb mask (Q : Z → store → Prop) e f :
  shift_mask (u8 msb) (u8 lsb) = Ret mask → Q mask f → tw (SHIFT_MASK msb lsb) Q e f.
Proof using Type. intros H. by apply tw_lift. Qed.

Lemma tw_umask msb lsb mask (Q : Z → store → Prop) e f :
  shift_umask (u8 msb) (u8 lsb) = Ret mask → Q mask f → tw (SHIFT_UMASK msb lsb) Q e f.
Proof using Type. intros H. by apply tw_lift. Qed.

(** The result of an operation with a mask, given the mask as 32 bits. *)
Lemma u32_land v m : u32 (Z.land v m) = Z.land v (u32 m).
Proof using Type. zbits. Qed.
Lemma u32_lxor v m : 0 <= v < 2 ^ 32 → u32 (Z.lxor v m) = Z.lxor v (u32 m).
Proof using Type.
  intros H. rewrite <- (wrap_small 32 v) at 2 by lia. zbits_intro i. zcases; cbn; done.
Qed.

Lemma tw_and_mask v msb lsb mask c (Q : Z → store → Prop) e f :
  shift_mask (u8 msb) (u8 lsb) = Ret mask → u32 mask = c → Q (Z.land v c) f → tw (and_mask v msb lsb) Q e f.
Proof using Type.
  intros H <- HQ. apply tw_bind. eapply tw_mask; [done|]. apply tw_ret. by rewrite u32_land.
Qed.

Lemma tw_and_umask v msb lsb mask c (Q : Z → store → Prop) e f :
  shift_umask (u8 msb) (u8 lsb) = Ret mask → u32 mask = c → Q (Z.land v c) f → tw (and_umask v msb lsb) Q e f.
Proof using Type.
  intros H <- HQ. apply tw_bind. eapply tw_umask; [done|]. apply tw_ret. by rewrite u32_land.
Qed.

Lemma tw_xor_mask v msb lsb mask c (Q : Z → store → Prop) e f :
  0 <= v < 2 ^ 32 → shift_mask (u8 msb) (u8 lsb) = Ret mask → u32 mask = c →
  Q (Z.lxor v c) f → tw (xor_mask v msb lsb) Q e f.
Proof using Type.
  intros Hv H <- HQ. apply tw_bind. eapply tw_mask; [done|]. apply tw_ret. by rewrite u32_lxor.
Qed.

(** The device is at [bdf]. *)
Definition finds (e : env) (dev_ven bdf : Z) : Prop :=
  get_pci_bdf_by_dev_vendor (e_devs e) (e_nr e) dev_ven = Ret (Some bdf).

Lemma tw_with_dev dev_ven bdf body (Q : bool → store → Prop) e f :
  finds e dev_ven bdf → tw (body bdf) Q e f → tw (with_dev dev_ven body) Q e f.
Proof using Type.
  intros Hd Hb s Hs. pose proof Hs as (_ & E1 & E2 & _). unfold with_dev. wstep. wstep. wstep.
  unfold wp, lift. rewrite E1, E2, Hd. by apply Hb.
Qed.

(** Without the device the test fails. *)
Lemma tw_no_dev dev_ven body (Q : bool → store → Prop) e f :
  get_pci_bdf_by_dev_vendor (e_devs e) (e_nr e) dev_ven = Ret None → Q false f →
  tw (with_dev dev_ven body) Q e f.
Proof using Type.
  intros Hd HQ s Hs. pose proof Hs as (_ & E1 & E2 & _). unfold with_dev. wstep. wstep. wstep.
  unfold wp, lift. rewrite E1, E2, Hd. exists f. done.
Qed.

Lemma tw_dev_exists bdf r (Q : bool → store → Prop) e f :
  is_dev_exist_by_bdf (e_devs e) (e_nr e) bdf = Ret r →
  Q (match r with Some _ => true | None => false end) f → tw (dev_exists bdf) Q e f.
Proof using Type.
  intros Hd HQ s Hs. pose proof Hs as (_ & E1 & E2 & _). unfold dev_exists. wstep. wstep. wstep.
  unfold wp at 1, lift. rewrite E1, E2, Hd. wstep. exists f. done.
Qed.

(** The capability list from the register [a] leads to the MSI capability at
    [m], within [n] entries. *)
Fixpoint msi_at (n : nat) (f : store) (bdf a m : Z) : Prop :=
  match n with
  | O => False
  | S n' => 0 <= a < 256 ∧ a mod 4 = 0 ∧
      let v := rd f bdf a 4 in
      if Z.land v 0xFF =? PCI_CAP_ID_MSI then m = a
      else msi_at n' f bdf (Z.shiftr (Z.land v 0xFF00) 8) m
  end.

Lemma dword_ok d off : 0 <= d < 2 ^ 16 → 0 <= off < 256 → off mod 4 = 0 → field_ok d off 4.
Proof using Type.
  intros Hd Ho Hm. split; [|tauto]. repeat split; try lia. by left.
Qed.

Lemma msi_probe_loop_tw n d a m (Q : option Z → store → Prop) e f :
  0 <= d < 2 ^ 16 → msi_at n f d a m → Q (Some m) f → tw (msi_probe_loop n d a (rd f d a 4)) Q e f.
Proof using Type.
  intros Hd Hm HQ. revert a Hm. induction n as [|n IH]; intros a; cbn [msi_at msi_probe_loop]; [done|].
  intros (Ha & Ha4 & Hm). apply tw_bind. eapply tw_and_mask; [by vm_compute|by vm_compute|].
  rewrite (Z.eqb_sym PCI_CAP_ID_MSI). destruct (_ =? PCI_CAP_ID_MSI).
  - subst. by apply tw_ret.
  - apply tw_bind. eapply tw_and_mask; [by vm_compute|by vm_compute|]. cbn beta zeta.
    assert (n ≠ O) as Hn by (by destruct n). destruct n as [|n]; [done|].
    pose proof Hm as (Ha' & Ha4' & _).
    apply tw_bind. apply tw_read; [by apply dword_ok|]. by apply IH.
Qed.

Lemma tw_with_msi d m body (Q : bool → store → Prop) e f :
  0 <= d < 2 ^ 16 → msi_at 64 f d (rd f d PCI_CAPABILITY_LIST 1) m → tw (body m) Q e f →
  tw (with_msi d body) Q e f.
Proof using Type.
  intros Hd Hm Hb. unfold with_msi, pci_probe_msi_capability. apply tw_bind, tw_bind.
  apply tw_read; [by apply field_const|].
  pose proof Hm as (Ha & Ha4 & _). apply tw_bind. apply tw_read; [by apply dword_ok|].
  eapply msi_probe_loop_tw; [done|exact Hm|]. done.
Qed.

Lemma report_wp name b e f s :
  TAt e f s →
  wp (on_mach (op_report name b))
    (λ _, TAt (Env (e_mode e) (e_log e ++ [(name, b)]) (e_devs e) (e_nr e) (e_xbar e)) f) s.
Proof using Type.
  intros [(Hm & Eu & Hh & Hl) Hr]. unfold on_mach, on_util, on_hw. wstep. wstep.
  unfold wp. rewrite tl_report. split; [|done]. split; [done|]. split; [exact Eu|]. split.
  - intros d r Hd Hr'. cbn [hw t_util]. rewrite tl_reg. by apply Hh.
  - cbn [hw t_util]. rewrite tl_verdicts. by rewrite Hl.
Qed.

(** A case reports the result of its test. *)
Lemma report_case_wp name (body : tprog bool) (Q : bool → store → Prop) e f s :
  tw body Q e f → TAt e f s →
  wp (report_case name body) (λ _ s', ∃ b f', Q b f' ∧
    TAt (Env (e_mode e) (e_log e ++ [(name, b)]) (e_devs e) (e_nr e) (e_xbar e)) f' s') s.
Proof using Type.
  intros Hb Hs. unfold report_case. wstep. eapply wp_mono; [by apply Hb|].
  intros b s' (f' & Hs' & HQ). eapply wp_mono; [by apply report_wp|]. eauto.
Qed.
End Logic.

#[global] Arguments tw : simpl never.

(** ** The accesses through the ports *)

(** With the enable bit clear nothing answers: reads give ones and writes are
    ignored. *)
Class PortsOff (St : Type) {io : PortIO St} {laws : Conf1Laws St} {rl : RegLaws St} := {
  off_val s a o n : Z.testbit a 31 = false → cf_val s a o n = Z.ones (8 * n);
  off_put s a o n v d r : Z.testbit a 31 = false → reg (cf_put s a o n v) d r = reg s d r;
}.

(** The address port: read as a whole it gives the address of the register,
    narrower reads give ones and narrower writes are ignored. *)
Class AddressPort (St : Type) {io : PortIO St} {laws : Conf1Laws St} := {
  ap_read s : io_in 4 0xCF8 s = Ret (Z.ldiff (cf_addr s) 3, s);
  ap_narrow_read s n : (n = 1 ∨ n = 2)%nat → io_in n 0xCF8 s = Ret (Z.ones (8 * n), s);
  ap_narrow_write s n v : (n = 1 ∨ n = 2)%nat → io_out n v 0xCF8 s = Ret ((), s);
}.

Section Ports.
Context {St : Type} {io : PortIO St} {ops : TestOps St} {laws : Conf1Laws St} {rl : RegLaws St}
  {tl : TestLaws St}.
#[local] Abbreviation tprog := (prog (test_state St)).

Lemma calc_address d off : 0 <= off < 256 → pci_pdev_calc_address d off = PCI_CONF1_ADDRESS d off.
Proof using Type. intros H. rewrite calc_conf1 by done. by rewrite (wrap_small 8 off) by lia. Qed.

(** Writing the address port changes the latch only. *)
Lemma latch_wp a e f s :
  TAt e f s →
  wp (pio_write32 a PCI_CONFIG_ADDR) (λ _ s', TAt e f s' ∧ cf_addr (hw (t_util s')) = a) s.
Proof using Type.
  intros [(Hm & Eu & Hh & Hl) Hr]. unfold pio_write32, on_mach, on_util, on_hw. wstep. wstep.
  unfold wp, pio_write, PCI_CONFIG_ADDR. rewrite cf_out_addr. split; [|apply cf_addr_latch].
  split; [|exact Hr]. split; [done|]. split; [exact Eu|]. split; [by apply holds_latch|].
  cbn [hw t_util]. by rewrite (rest_latch verdicts).
Qed.

Lemma tw_read_port d off n port (Q : Z → store → Prop) e f :
  field_ok d off n → port = 0xCFC + off mod 4 → Q (rd f d off n) f →
  tw (pci_pdev_read_cfg_test d off n port true) Q e f.
Proof using Type.
  intros Hf -> HQ s Hs. unfold pci_pdev_read_cfg_test, test_address. wstep.
  pose proof Hf as [Hok Hn]. pose proof Hok as (Hd & Ho & H1 & H2 & _).
  eapply wp_mono; [by apply latch_wp|]. intros [] s' [Hs' Ea].
  pose proof Hs' as [(Hm & Eu & Hh & Hl) Hr]. unfold on_mach, on_util, on_hw. wstep. wstep. unfold wp.
  assert (∀ p, pio_read p n = io_in (St := St) n p) as -> by (by destruct Hn as [->|[[-> _]|[-> _]]]).
  rewrite cf_in_data by lia. rewrite Ea, calc_address, reg_cf_val by done.
  rewrite (Hh d (off / 4)) by (done || (Z.div_mod_to_equations; lia)). exists f. split; [|exact HQ].
  split; [|exact Hr]. split; [done|]. split; [exact Eu|]. by split.
Qed.

Lemma tw_write_port d off n v port (Q : unit → store → Prop) e f :
  field_ok d off n → port = 0xCFC + off mod 4 → 0 <= v < 2 ^ 32 →
  Q () (wr f d off n (wrap (8 * n) v)) → tw (pci_pdev_write_cfg_test d off n v port true) Q e f.
Proof using Type.
  intros Hf -> Hv HQ s Hs. unfold pci_pdev_write_cfg_test, test_address. wstep.
  pose proof Hf as [Hok Hn]. pose proof Hok as (Hd & Ho & H1 & H2 & _).
  eapply wp_mono; [by apply latch_wp|]. intros [] s' [Hs' Ea].
  pose proof Hs' as [(Hm & Eu & Hh & Hl) Hr]. unfold on_mach, on_util, on_hw. wstep. wstep. unfold wp.
  assert (∀ p, pio_write v p n = io_out (St := St) n (wrap (8 * n) v) p) as ->.
  { destruct Hn as [->|[[-> _]|[-> _]]]; try done. intros p. unfold pio_write. by rewrite wrap_small. }
  rewrite cf_out_data by lia. rewrite Ea, calc_address by done. eexists. split; [|exact HQ].
  split; [|exact Hr]. split; [done|]. split; [exact Eu|]. cbn [hw t_util]. split; [|by rewrite (rest_put verdicts)].
  intros d' r' Hd' Hr'. rewrite reg_cf_put by done. unfold wr. by rewrite (Hh d' r').
Qed.

Section Off.
Context {po : PortsOff St}.

Lemma test_address_off d off :
  0 <= off < 256 → Z.testbit (test_address d off false) 31 = false.
Proof using Type.
  intros Ho. unfold test_address. rewrite Z.land_spec, testbit_wrap, Z.lnot_spec by lia.
  change PCI_CONFIG_ENABLE with (2 ^ 31). rewrite testbit_pow2 by lia. cbn. apply andb_false_r.
Qed.

Lemma tw_read_off d off n port o (Q : Z → store → Prop) e f :
  0 <= off < 256 → port = 0xCFC + o → 0 <= o < 4 → (n = 1 ∨ n = 2 ∨ n = 4)%nat →
  Q (Z.ones (8 * n)) f → tw (pci_pdev_read_cfg_test d off n port false) Q e f.
Proof using Type*.
  intros Ho -> Ho4 Hn HQ s Hs. unfold pci_pdev_read_cfg_test. wstep.
  eapply wp_mono; [by apply latch_wp|]. intros [] s' [Hs' Ea].
  pose proof Hs' as [(Hm & Eu & Hh & Hl) Hr]. unfold on_mach, on_util, on_hw. wstep. wstep. unfold wp.
  assert (∀ p, pio_read p n = io_in (St := St) n p) as -> by (by destruct Hn as [->|[->| ->]]).
  rewrite cf_in_data, Ea, off_val by (done || by apply test_address_off).
  exists f. split; [|exact HQ]. split; [|exact Hr]. split; [done|]. split; [exact Eu|]. by split.
Qed.

Lemma tw_write_off d off n v port o (Q : unit → store → Prop) e f :
  0 <= off < 256 → port = 0xCFC + o → 0 <= o < 4 → (n = 1 ∨ n = 2 ∨ n = 4)%nat →
  Q () f → tw (pci_pdev_write_cfg_test d off n v port false) Q e f.
Proof using Type*.
  intros Ho -> Ho4 Hn HQ s Hs. unfold pci_pdev_write_cfg_test. wstep.
  eapply wp_mono; [by apply latch_wp|]. intros [] s' [Hs' Ea].
  pose proof Hs' as [(Hm & Eu & Hh & Hl) Hr]. unfold on_mach, on_util, on_hw. wstep. wstep. unfold wp.
  assert (∃ w, ∀ p, pio_write v p n = io_out (St := St) n w p) as [w ->].
  { destruct Hn as [->|[->| ->]]; eexists; intros p; reflexivity. }
  rewrite cf_out_data by done. exists f. split; [|exact HQ]. split; [|exact Hr].
  split; [done|]. split; [exact Eu|]. cbn [hw t_util]. split; [|by rewrite (rest_put verdicts)].
  intros d' r' Hd' Hr'. rewrite Ea, off_put by (by apply test_address_off). by apply Hh.
Qed.
End Off.
End Ports.

(** ** What the tests accept *)

Lemma data_check_eq a b :
  0 <= a < 2 ^ 32 → 0 <= b < 2 ^ 32 → pci_data_check a b false = if a =? b then OK else ERROR.
Proof.
  intros Ha Hb. unfold pci_data_check. rewrite !wrap_small by done. by destruct (a =? b).
Qed.

(** A chain of [ret |= ...] is [OK] when every check is. *)
Lemma lor_ok a b : (Z.lor a b =? OK) = (a =? OK) && (b =? OK).
Proof.
  apply eq_true_iff_eq. rewrite andb_true_iff, !Z.eqb_eq. unfold OK. apply Z.lor_eq_0_iff.
Qed.

Lemma check_ok (b : bool) : ((if b then OK else ERROR) =? OK) = b.
Proof. by destruct b. Qed.

Lemma land_u32 a b : 0 <= a < 2 ^ 32 → 0 <= b → 0 <= Z.land a b < 2 ^ 32.
Proof. intros. by apply land_range. Qed.

Lemma lxor_u32 a b : 0 <= a < 2 ^ 32 → 0 <= b < 2 ^ 32 → 0 <= Z.lxor a b < 2 ^ 32.
Proof.
  intros Ha Hb. rewrite <- (wrap_small 32 a), <- (wrap_small 32 b) by lia.
  assert (Z.lxor (u32 a) (u32 b) = u32 (Z.lxor a b)) as ->.
  { zbits_intro i. zcases; cbn; done. }
  by apply wrap_range.
Qed.

Section Exact.
Context {St : Type} {io : PortIO St} {ops : TestOps St} {laws : Conf1Laws St} {rl : RegLaws St}
  {tl : TestLaws St}.

Lemma rd_u32 f d off n : (n <= 4)%nat → 0 <= rd f d off n < 2 ^ 32.
Proof using Type.
  intros Hn. pose proof (rd_range f d off n). assert (2 ^ (8 * n) <= 2 ^ 32) by (apply Z.pow_le_mono_r; lia).
  lia.
Qed.
End Exact.

(** The ranges of the values that tests compute. *)
Ltac u32_range :=
  match goal with
  | H : 0 <= ?a < 2 ^ 32 |- 0 <= ?a < 2 ^ 32 => exact H
  | |- 0 <= rd _ _ _ _ < 2 ^ 32 => apply rd_u32; lia
  | |- 0 <= Z.land _ _ < 2 ^ 32 => apply land_u32; [u32_range|lia]
  | |- 0 <= Z.lxor _ _ < 2 ^ 32 => apply lxor_u32; u32_range
  | |- _ => lia
  end.

(** [tstep] runs a test by one operation. *)
Ltac field_side := first [assumption | by apply field_const | by apply dword_ok].
Ltac tstep :=
  lazymatch goal with
  | |- tw (_ ≫= _) _ _ _ => apply tw_bind
  | |- tw (mret _) _ _ _ => apply tw_ret
  | |- tw (read_cfg _ _ _) _ _ _ => apply tw_read; [field_side|]
  | |- tw (write_cfg _ _ _ _) _ _ _ => apply tw_write; [field_side|]
  | |- tw (and_mask _ _ _) _ _ _ => eapply tw_and_mask; [by vm_compute|by vm_compute|]
  | |- tw (and_umask _ _ _) _ _ _ => eapply tw_and_umask; [by vm_compute|by vm_compute|]
  | |- tw (xor_mask _ _ _) _ _ _ => eapply tw_xor_mask; [u32_range|by vm_compute|by vm_compute|]
  | |- tw (SHIFT_MASK _ _) _ _ _ => eapply tw_mask; [by vm_compute|]
  | |- tw (SHIFT_UMASK _ _) _ _ _ => eapply tw_umask; [by vm_compute|]
  | |- tw (with_dev _ _) _ _ _ => eapply tw_with_dev; [eassumption|]
  | |- tw (with_msi _ _) _ _ _ => eapply tw_with_msi; [eassumption|eassumption|]
  | |- tw (on_mach op_apic_id) _ _ _ => apply tw_apic_id
  end; cbn beta zeta.
Ltac tsteps := repeat tstep.

Section Header.
Context {St : Type} {io : PortIO St} {ops : TestOps St} {laws : Conf1Laws St} {rl : RegLaws St}
  {tl : TestLaws St}.

(** A write of ones to the field leaves its value. *)
Definition ones_kept (f : store) (d off : Z) (n : nat) : Prop :=
  Z.ldiff (rw d off n) (rd f d off n) = 0 ∧
  Z.land (Z.ldiff (w1c d off n) (rw d off n)) (rd f d off n) = 0.

Lemma ones_kept_upd f d off n :
  upd (rw d off n) (w1c d off n) (rd f d off n) (Z.ones (8 * n)) = rd f d off n ↔ ones_kept f d off n.
Proof using Type.
  unfold ones_kept, upd. set (x := rd f d off n). set (r := rw d off n). set (w := w1c d off n).
  assert (∀ i, 0 <= i → Z.testbit r i = true → i < 8 * n) as Hr.
  { intros i Hi. unfold r, rw, lane. rewrite testbit_wrap by lia. destruct (Z.ltb_spec i (8 * n)); [lia|done]. }
  assert (∀ i, 0 <= i → Z.testbit w i = true → i < 8 * n) as Hw.
  { intros i Hi. unfold w, w1c, lane. rewrite testbit_wrap by lia. destruct (Z.ltb_spec i (8 * n)); [lia|done]. }
  split.
  - intros H. split; zbits_intro i; apply (f_equal (λ z, Z.testbit z i)) in H; revert H; autorewrite with zbits;
      specialize (Hr i ltac:(lia)); specialize (Hw i ltac:(lia));
      destruct (Z.testbit r i), (Z.testbit w i), (Z.testbit x i); cbn; try done; zcases; cbn; try done; lia.
  - intros [H1 H2]. zbits_intro i. apply (f_equal (λ z, Z.testbit z i)) in H1, H2. revert H1 H2.
    autorewrite with zbits. specialize (Hr i ltac:(lia)). specialize (Hw i ltac:(lia)).
    destruct (Z.testbit r i), (Z.testbit w i), (Z.testbit x i); cbn; try done; zcases; cbn; try done; lia.
Qed.

Definition kept (f : store) (d : Z) (x : Z * nat) : bool :=
  upd (rw d x.1 x.2) (w1c d x.1 x.2) (rd f d x.1 x.2) (Z.ones (8 * x.2)) =? rd f d x.1 x.2.

(** The fields of the list have no byte in common. *)
Definition apart (x y : Z * nat) : Prop :=
  x.1 / 4 ≠ y.1 / 4 ∨ x.1 mod 4 + x.2 <= y.1 mod 4 ∨ y.1 mod 4 + y.2 <= x.1 mod 4.

(** [P] is what the writes to the registers of the list keep. *)
Lemma count_read_only_tw (P : store → Prop) d regs c e f g :
  0 <= d < 2 ^ 16 → Forall (λ x, field_okb x.1 x.2 = true ∧ (x.2 <= 4)%nat) regs → ForallOrdPairs apart regs →
  (∀ x v g, x ∈ regs → P g → P (wr g d x.1 x.2 v)) →
  (∀ x, x ∈ regs → rd g d x.1 x.2 = rd f d x.1 x.2) → P g →
  tw (count_read_only d regs c) (λ r f', r = c + length (List.filter (kept f d) regs) ∧ P f') e g.
Proof using Type.
  intros Hd. revert c g. induction regs as [|[off n] regs IH]; intros c g Hok Hap HP Hg Hg0; cbn [count_read_only].
  - apply tw_ret. split; [cbn; lia|done].
  - apply Forall_cons in Hok as [[Hf Hn] Hok]. inversion Hap as [|? ? Hx Hap']; subst. cbn [fst snd] in *.
    tstep. tstep. tstep. tstep. tstep. tstep.
    rewrite rd_wr. pose proof (Hg _ (list_elem_of_here _ _)) as E. cbn [fst snd] in E. rewrite E.
    assert (wrap (8 * n) 0xFFFFFFFF = Z.ones (8 * n)) as ->.
    { change 0xFFFFFFFF with (Z.ones 32). zbits_intro i. zcases; cbn; done || lia. }
    eapply tw_mono.
    + apply IH; [done|done| | |].
      * intros y v g' Hy. apply HP. by right.
      * intros y Hy. rewrite rd_wr_other.
        -- apply Hg. by right.
        -- rewrite Forall_forall in Hx. destruct (Hx y Hy) as [H|[H|H]]; cbn [fst snd] in H; [right; left|..]; try lia; auto.
      * by apply (HP (off, n)); [left|].
    + intros r g' [-> HPg]. split; [|done]. cbn [List.filter]. unfold kept at 2. cbn [fst snd].
      destruct (_ =? _); cbn [length]; lia.
Qed.

Lemma filter_all {A} (p : A → bool) l : length (List.filter p l) = length l ↔ ∀ x, x ∈ l → p x = true.
Proof using Type.
  induction l as [|a l IH]; cbn; [split; [by intros _ x ?%elem_of_nil|done]|].
  pose proof (List.filter_length_le p l) as Hle. destruct (p a) eqn:E; cbn.
  - split.
    + intros H2 x [->|Hx]%elem_of_cons; [done|]. injection H2 as H2. exact (proj1 IH H2 x Hx).
    + intros H1. f_equal. apply IH. intros x Hx. apply H1. by right.
  - split; [lia|]. intros H1. rewrite (H1 a) in E by (by left). done.
Qed.

Lemma header_regs_ok : Forall (λ x, field_okb x.1 x.2 = true ∧ (x.2 <= 4)%nat) header_regs.
Proof using Type. repeat constructor; by vm_compute || (cbn; lia). Qed.

Lemma header_regs_apart : ForallOrdPairs apart header_regs.
Proof using Type.
  repeat first [apply FOP_nil | apply FOP_cons | apply Forall_nil; done | apply Forall_cons; split];
    unfold apart; cbn [fst snd];
    first [left; vm_compute; congruence | right; left; vm_compute; congruence | right; right; vm_compute; congruence].
Qed.

(** C36: the read-only test of the header passes exactly when no register of its
    table has a read-write bit that is zero, nor a bit that is one and cleared
    by writing a one: a read-write bit whose value is one escapes it. *)
Theorem header_read_only_exact dev_ven d e f :
  finds e dev_ven d → 0 <= d < 2 ^ 16 →
  tw (test_host_PCI_configuration_header_register_read_only dev_ven)
    (λ b _, b = true ↔ ∀ off n, (off, n) ∈ header_regs → ones_kept f d off n) e f.
Proof using Type.
  intros Hf Hd. unfold test_host_PCI_configuration_header_register_read_only. tstep. tstep.
  eapply tw_mono.
  - by apply (count_read_only_tw (λ _, True) d header_regs 0 e f f Hd header_regs_ok header_regs_apart).
  - intros r f1 [-> _]. apply tw_ret. rewrite Z.eqb_eq, Z.add_0_l, Nat2Z.inj_iff, filter_all. split.
    + intros H off n Hx. apply ones_kept_upd. apply Z.eqb_eq. exact (H _ Hx).
    + intros H [off n] Hx. apply Z.eqb_eq, ones_kept_upd. by apply H.
Qed.
End Header.

(** *** The toggling tests *)

(** Inverting the bits [M] and comparing the bits [m] of them. *)
Lemma toggle_part rw w1 x M m :
  Z.ldiff m M = 0 → Z.land (upd rw w1 x (Z.lxor x M)) m = Z.land x m ↔ Z.land rw m = 0.
Proof.
  intros Hm. rewrite <- (toggle_unchanged rw w1 x m).
  assert (Z.land (upd rw w1 x (Z.lxor x M)) m = Z.land (upd rw w1 x (Z.lxor x m)) m) as ->; [|done].
  unfold upd. zbits_intro i. apply (f_equal (λ z, Z.testbit z i)) in Hm. revert Hm. autorewrite with zbits.
  destruct (Z.testbit rw i), (Z.testbit w1 i), (Z.testbit x i), (Z.testbit m i), (Z.testbit M i); done.
Qed.

Section Control.
Context {St : Type} {io : PortIO St} {ops : TestOps St} {laws : Conf1Laws St} {rl : RegLaws St}
  {tl : TestLaws St}.

(** A field above the header. *)
Lemma field_above d m (n : nat) :
  0 <= d < 2 ^ 16 → 0x40 <= m → m + n <= 256 →
  (n = 1%nat ∨ (n = 2%nat ∧ m mod 2 = 0) ∨ (n = 4%nat ∧ m mod 4 = 0)) → field_ok d m n.
Proof using Type.
  intros Hd Hm Hn Hs. split; [|done]. split; [done|]. split; [lia|].
  assert (m / 4 >= 16) by dlia.
  split; [dlia|]. split; [|right; lia].
  destruct Hs as [->|[[-> ?]|[-> ?]]]; dlia.
Qed.

Lemma msi_at_dword n f d a m : msi_at n f d a m → 0 <= m < 256 ∧ m mod 4 = 0.
Proof using Type.
  revert a. induction n as [|n IH]; intros a; cbn [msi_at]; [done|].
  intros (Ha & Ha4 & H). destruct (_ =? _); [by subst|]. by apply (IH _ H).
Qed.

Lemma wrap_rd_lxor f d off (n : nat) M :
  0 <= M < 2 ^ (8 * n) → wrap (8 * n) (Z.lxor (rd f d off n) M) = Z.lxor (rd f d off n) M.
Proof using Type.
  intros HM. pose proof (rd_range f d off n) as Hx.
  rewrite <- (wrap_small (8 * n) (rd f d off n)), <- (wrap_small (8 * n) M) by lia. zbits.
Qed.

(** What is left of a value that is written back over what a test wrote: the bits
    that a one clears are gone. *)
Lemma upd_restore rw w1 x v :
  upd rw w1 (upd rw w1 x v) x = Z.ldiff x (Z.ldiff w1 rw).
Proof using Type.
  unfold upd. zbits_intro i.
  destruct (Z.testbit rw i), (Z.testbit w1 i), (Z.testbit x i), (Z.testbit v i); done.
Qed.

(** the test of the MSI control register passes exactly when none of the
    bits 1 to 3 and 7 to 15 is read-write (the enable bit and the message
    enable field are free), and it leaves the register as it was except for
    the bits that are cleared by writing a one, which it does not detect. *)
Theorem control_write_exact dev_ven d m e f :
  finds e dev_ven d → 0 <= d < 2 ^ 16 → msi_at 64 f d (rd f d PCI_CAPABILITY_LIST 1) m → 0x40 <= m →
  tw (test_host_MSI_message_control_write dev_ven)
    (λ b f', (b = true ↔ Z.land (rw d (m + 2) 2) 0xFF8E = 0) ∧
      rd f' d (m + 2) 2 = Z.ldiff (rd f d (m + 2) 2) (Z.ldiff (w1c d (m + 2) 2) (rw d (m + 2) 2))) e f.
Proof using Type.
  intros Hf Hd Hm Hlo. destruct (msi_at_dword _ _ _ _ _ Hm) as [Hm1 Hm2].
  assert (field_ok d (m + 2) 2) as Hfield by (apply field_above; try done; [lia|dlia|right; left; split; [done|dlia]]).
  unfold test_host_MSI_message_control_write, PCI_MSI_FLAGS. tsteps.
  rewrite !rd_wr, wrap_rd_lxor by (cbn; lia).
  rewrite wrap_small by apply rd_range. rewrite upd_restore. split; [|done].
  set (x := rd f d (m + 2) 2). set (r := rw d (m + 2) 2). set (w := w1c d (m + 2) 2).
  pose proof (rd_range f d (m + 2) 2) as Hx. fold x in Hx.
  rewrite Z.eqb_eq, !Z.lor_eq_0_iff.
  assert (0 <= upd r w x (Z.lxor x 0xFFFE) < 2 ^ 32) as Hn.
  { apply upd_range; [lia|lia|]. apply lxor_u32; lia. }
  rewrite !data_check_eq by (apply land_u32; lia).
  assert (∀ a b, (if a =? b then OK else ERROR) = 0 ↔ a = b) as Hc.
  { intros a b. destruct (Z.eqb_spec a b); split; done. }
  rewrite !Hc, !toggle_part by done.
  change 0xFF8E with (Z.lor 0xFF80 0xE). rewrite Z.land_lor_distr_r, Z.lor_eq_0_iff. unfold OK. tauto.
Qed.
End Control.

(** ** Tests that cannot fail *)

Section CannotFail.
Context {St : Type} {io : PortIO St} {ops : TestOps St} {laws : Conf1Laws St} {rl : RegLaws St}
  {tl : TestLaws St}.

(** The case [name] reports success. *)
Definition passes (name : string) (case : prog (test_state St) unit) (e : env) (s : test_state St) : Prop :=
  wp case (λ _ s', ∃ f', TAt (Env (e_mode e) (e_log e ++ [(name, true)]) (e_devs e) (e_nr e) (e_xbar e)) f' s') s.

Lemma passes_intro name (body : prog (test_state St) bool) e f s :
  tw body (λ b _, b = true) e f → TAt e f s → passes name (report_case name body) e s.
Proof using Type.
  intros Hb Hs. eapply wp_mono; [by eapply report_case_wp|]. cbn. intros _ s' (b & f' & -> & Hs'). eauto.
Qed.

Lemma address_port_write_tw dev_ven d off e f :
  finds e dev_ven d → 0 <= d < 2 ^ 16 → field_okb off 2 = true →
  tw (address_port_write dev_ven off) (λ b _, b = true) e f.
Proof using Type.
  intros Hf Hd Ho. unfold address_port_write. tsteps. by destruct (_ =? _).
Qed.

Lemma high_bits_of_byte v : 0 <= v < 2 ^ 8 → Z.land v 0xF000 = 0.
Proof using Type.
  intros H. rewrite <- (wrap_small 8 v) by lia. change 0xF000 with (Z.ldiff (Z.ones 16) (Z.ones 12)).
  zbits_intro i. zcases; cbn; rewrite ?andb_false_r; done || lia.
Qed.

Lemma land_ff v : 0 <= Z.land v 0xFF < 2 ^ 8.
Proof using Type. change 0xFF with (Z.ones 8). rewrite Z.land_ones by lia. apply Z.mod_pos_bound. lia. Qed.

(** C37: once the device is there, three cases report success whatever its
    registers do: 30960 and 30962 have set the result before they compare, and
    27787 compares the bits 12 to 15 of a byte.  Case 27486 reports success
    without the host bridge. *)
Theorem cases_cannot_fail b d m e f s :
  finds e (DEV_VENDOR b) d → 0 <= d < 2 ^ 16 →
  msi_at 64 f d (rd f d PCI_CAPABILITY_LIST 1) m → 0x40 <= m <= 0xF0 → TAt e f s →
  passes "pci_rqmid_27787_PCIe_config_space_and_host_1_Byte_CFDH_Read_with_Enabled_Config_Address_001" (pci_rqmid_27787_PCIe_config_space_and_host_1_Byte_CFDH_Read_with_Enabled_Config_Address_001 b) e s ∧
  match b with
  | IN_SAFETY_VM => passes "pci_rqmid_30962_PCIe_config_space_and_host_Normal_Config_Address_Port_Write_002" pci_rqmid_30962_PCIe_config_space_and_host_Normal_Config_Address_Port_Write_002 e s
  | IN_NON_SAFETY_VM => passes "pci_rqmid_30960_PCIe_config_space_and_host_Normal_Config_Address_Port_Write_001" pci_rqmid_30960_PCIe_config_space_and_host_Normal_Config_Address_Port_Write_001 e s
  end ∧
  (is_dev_exist_by_bdf (e_devs e) (e_nr e) 0 = Ret None → passes "pci_rqmid_27486_PCIe_config_space_and_host_Hostbridge_readonly_001" pci_rqmid_27486_PCIe_config_space_and_host_Hostbridge_readonly_001 e s).
Proof using Type.
  intros Hf Hd Hm Hlo Hs. destruct (msi_at_dword _ _ _ _ _ Hm) as [Hm1 Hm2]. split; [|split].
  - eapply passes_intro; [|exact Hs]. unfold port_write_read, PCI_MSI_ADDRESS_LO, write_port, read_port.
    assert (field_ok d (m + (4 + 1)) 1) as Hfield by (apply field_above; try done; [lia|dlia|by left]).
    assert ((m + (4 + 1)) mod 4 = 1) as Ho by dlia.
    tsteps.
    apply tw_write_port; [done|lia|u32_range|]. cbn beta.
    tstep. apply tw_read_port; [done|lia|]. tsteps.
    rewrite !high_bits_of_byte by apply land_ff. done.
  - destruct b; (eapply passes_intro; [|exact Hs]); by eapply address_port_write_tw.
  - intros Hno. eapply passes_intro; [|exact Hs]. tstep. eapply tw_dev_exists; [exact Hno|]. cbn.
    tsteps. done.
Qed.
End CannotFail.

(** ** A machine to test with *)

#[local] Instance bus_ops : TestOps bus :=
  {| op_report name b := modify (λ s, Bus (b_latch s) (b_regs s) (b_log s ++ [(name, b)]));
     op_apic_id := mret 0; op_eax := gets b_latch |}.

Section BusTests.
Context (rwm w1m : store).

#[local] Program Instance bus_tests : @TestLaws bus (bus_io rwm w1m) bus_ops (bus_conf1 rwm w1m) (bus_laws rwm w1m) :=
  {| verdicts := b_log; tl_keeps := bus_keeps rwm w1m; lapic_id := 0;
     reported name b s := Bus (b_latch s) (b_regs s) (b_log s ++ [(name, b)]) |}.
Next Obligation. done. Qed.
Next Obligation. done. Qed.
Next Obligation. done. Qed.
Next Obligation. done. Qed.

#[local] Program Instance bus_off : @PortsOff bus (bus_io rwm w1m) (bus_conf1 rwm w1m) (bus_laws rwm w1m).
Next Obligation. intros s a o n H. unfold cf_val, bus_conf1, bus_val, addr_on. by rewrite H. Qed.
Next Obligation. intros s a o n v d r H. unfold cf_put, bus_conf1, bus_put, addr_on. by rewrite H. Qed.

#[local] Program Instance bus_address : @AddressPort bus (bus_io rwm w1m) (bus_conf1 rwm w1m).
Next Obligation. done. Qed.
Next Obligation. by intros s n [-> | ->]. Qed.
Next Obligation. by intros s n v [-> | ->]. Qed.
End BusTests.

(** A controller at 0x20 with an MSI capability at 0x80, its identifiers, header
    and control register read-only but for the enable bits. *)
Definition demo_rw : store := λ d r,
  match r with 0 | 2 | 3 | 10 | 11 | 12 | 13 | 15 => 0 | 32 => 0x710000 | _ => 0xFFFFFFFF end.
Definition demo_w1c : store := λ d r, 0.
Definition demo_store : store := λ d r,
  match r with 0 => 0xa12f8086 | 13 => 0x80 | 32 => 0x00800005 | _ => 0 end.
Definition demo_env : env := Env 0 [] [UDev 0x20 0x8086 0xa12f] 1 0.

#[local] Instance demo_io : PortIO bus := bus_io demo_rw demo_w1c.
#[local] Instance demo_conf1 : Conf1Laws bus := bus_conf1 demo_rw demo_w1c.
#[local] Instance demo_laws : RegLaws bus := bus_laws demo_rw demo_w1c.
#[local] Instance demo_tests : TestLaws bus := bus_tests demo_rw demo_w1c.

Lemma header_read_only_exact_witness :
  finds demo_env USB_DEV_VENDOR 0x20 ∧
  tw
    (test_host_PCI_configuration_header_register_read_only USB_DEV_VENDOR) (λ b _, b = true) demo_env demo_store.
Proof.
  split; [by vm_compute|]. eapply tw_mono.
  - apply (header_read_only_exact USB_DEV_VENDOR 0x20); [by vm_compute|done].
  - intros b f' H. apply H. intros off n Hx.
    assert (Forall (λ x, ones_kept demo_store 0x20 x.1 x.2) header_regs) as Hall.
    { repeat (apply Forall_cons; split; [split; by vm_compute|]). by apply Forall_nil. }
    rewrite Forall_forall in Hall. exact (Hall _ Hx).
Defined.

Lemma control_write_exact_witness :
  finds demo_env USB_DEV_VENDOR 0x20 ∧
  tw
    (test_host_MSI_message_control_write USB_DEV_VENDOR)
    (λ b f', b = true ∧ rd f' 0x20 0x82 2 = 0x80) demo_env demo_store.
Proof.
  split; [by vm_compute|]. eapply tw_mono.
  - apply (control_write_exact USB_DEV_VENDOR 0x20 0x80);
      [by vm_compute|done| |done].
    vm_compute. by repeat split.
  - intros b f' [H1 H2]. split; [by apply H1; vm_compute|exact H2].
Defined.

Definition demo_bus : bus :=
  Bus 0 (list_to_map [(bus_key 0x20 0, 0xa12f8086); (bus_key 0x20 13, 0x80); (bus_key 0x20 32, 0x00800005)]) [].
Definition demo_state : test_state bus := TState [UDev 0x20 0x8086 0xa12f] 1 0 (UState 0 demo_bus).

Lemma cases_cannot_fail_witness :
  passes "pci_rqmid_27787_PCIe_config_space_and_host_1_Byte_CFDH_Read_with_Enabled_Config_Address_001" (pci_rqmid_27787_PCIe_config_space_and_host_1_Byte_CFDH_Read_with_Enabled_Config_Address_001 IN_NON_SAFETY_VM) demo_env demo_state ∧
  passes "pci_rqmid_30960_PCIe_config_space_and_host_Normal_Config_Address_Port_Write_001" pci_rqmid_30960_PCIe_config_space_and_host_Normal_Config_Address_Port_Write_001 demo_env demo_state ∧
  passes "pci_rqmid_27486_PCIe_config_space_and_host_Hostbridge_readonly_001" pci_rqmid_27486_PCIe_config_space_and_host_Hostbridge_readonly_001 demo_env demo_state.
Proof.
  destruct (cases_cannot_fail IN_NON_SAFETY_VM 0x20 0x80 demo_env (reg demo_bus) demo_state) as (H1 & H2 & H3).
  - by vm_compute.
  - done.
  - vm_compute. by repeat split.
  - done.
  - repeat split. by left.
  - split; [exact H1|]. split; [exact H2|]. apply H3. by vm_compute.
Defined.
