(* ===== verification/PciSuite.v ===== *)
(** * The PCI test program: [main] of x86/pci.c

    In the build for the non-safety virtual machine [main] enumerates the
    functions, runs the cases of the two parts of the program that it reaches,
    and repeats two of them with memory-mapped accesses.  [usb_spec] and
    [host_spec] say what the cases require of the registers of the USB controller
    and of the host bridge; the theorem is that on a machine that meets them,
    every case reports success and the machine meets them afterwards. *)

From S2P Require Import Prelude Bits PciConf Pci PciUtil ConfRegs PciTest.

#[local] Ltac dlia := Z.div_mod_to_equations; lia.

Section Main.
Context {St : Type} {io : PortIO St} {ops : TestOps St}.
#[local] Abbreviation tprog := (prog (test_state St)).
#[local] Abbreviation b := IN_NON_SAFETY_VM.

Fixpoint run_cases (cases : list (string * tprog unit)) : tprog unit :=
  match cases with [] => mret () | (_, c) :: cases' => c;; run_cases cases' end.

Definition bridge_cases : list (string * tprog unit) :=
  [("pci_rqmid_PCIe_config_space_and_host_Hostbridge_XBAR", pci_rqmid_PCIe_config_space_and_host_Hostbridge_XBAR);
   ("pci_rqmid_27486_PCIe_config_space_and_host_Hostbridge_readonly_001", pci_rqmid_27486_PCIe_config_space_and_host_Hostbridge_readonly_001);
   ("pci_rqmid_27474_PCIe_config_space_and_host_Hostbridge_Header_Type_001", pci_rqmid_27474_PCIe_config_space_and_host_Hostbridge_Header_Type_001);
   ("pci_rqmid_27475_PCIe_config_space_and_host_Hostbridge_Class_Code_001", pci_rqmid_27475_PCIe_config_space_and_host_Hostbridge_Class_Code_001)].

Definition port_cases : list (string * tprog unit) :=
  [("pci_rqmid_25292_PCIe_config_space_and_host_Config_Address_Port_001", pci_rqmid_25292_PCIe_config_space_and_host_Config_Address_Port_001 b);
   ("pci_rqmid_25099_PCIe_config_space_and_host_Config_Data_Port_001", pci_rqmid_25099_PCIe_config_space_and_host_Config_Data_Port_001 b);
   ("pci_rqmid_27747_PCIe_config_space_and_host_1_Byte_Config_Data_Port_Write_with_Disabled_Config_Address_001", pci_rqmid_27747_PCIe_config_space_and_host_1_Byte_Config_Data_Port_Write_with_Disabled_Config_Address_001 b);
   ("pci_rqmid_27739_PCIe_config_space_and_host_2_Byte_Config_Data_Port_Write_with_Disabled_Config_Address_001", pci_rqmid_27739_PCIe_config_space_and_host_2_Byte_Config_Data_Port_Write_with_Disabled_Config_Address_001 b);
   ("pci_rqmid_27744_PCIe_config_space_and_host_1_Byte_CFDH_Write_with_Disabled_Config_Address_001", pci_rqmid_27744_PCIe_config_space_and_host_1_Byte_CFDH_Write_with_Disabled_Config_Address_001 b);
   ("pci_rqmid_27742_PCIe_config_space_and_host_1_Byte_CFEH_Write_with_Disabled_Config_Address_001", pci_rqmid_27742_PCIe_config_space_and_host_1_Byte_CFEH_Write_with_Disabled_Config_Address_001 b);
   ("pci_rqmid_27735_PCIe_config_space_and_host_2_Byte_CFEH_Write_with_Disabled_Config_Address_001", pci_rqmid_27735_PCIe_config_space_and_host_2_Byte_CFEH_Write_with_Disabled_Config_Address_001 b);
   ("pci_rqmid_27741_PCIe_config_space_and_host_1_Byte_CFFH_Write_with_Disabled_Config_Address_001", pci_rqmid_27741_PCIe_config_space_and_host_1_Byte_CFFH_Write_with_Disabled_Config_Address_001 b);
   ("pci_rqmid_27759_PCIe_config_space_and_host_Normal_Write_with_Disabled_Config_Address_001", pci_rqmid_27759_PCIe_config_space_and_host_Normal_Write_with_Disabled_Config_Address_001 b);
   ("pci_rqmid_27778_PCIe_config_space_and_host_1_Byte_CFDH_Read_with_Disabled_Config_Address_001", pci_rqmid_27778_PCIe_config_space_and_host_1_Byte_CFDH_Read_with_Disabled_Config_Address_001 b);
   ("pci_rqmid_27776_PCIe_config_space_and_host_1_Byte_CFEH_Read_with_Disabled_Config_Address_001", pci_rqmid_27776_PCIe_config_space_and_host_1_Byte_CFEH_Read_with_Disabled_Config_Address_001 b);
   ("pci_rqmid_27773_PCIe_config_space_and_host_2_Byte_CFEH_Read_with_Disabled_Config_Address_001", pci_rqmid_27773_PCIe_config_space_and_host_2_Byte_CFEH_Read_with_Disabled_Config_Address_001 b);
   ("pci_rqmid_27775_PCIe_config_space_and_host_1_Byte_CFFH_Read_with_Disabled_Config_Address_001", pci_rqmid_27775_PCIe_config_space_and_host_1_Byte_CFFH_Read_with_Disabled_Config_Address_001 b);
   ("pci_rqmid_27779_PCIe_config_space_and_host_1_Byte_Config_Data_Port_Read_with_Disabled_Config_Address_001", pci_rqmid_27779_PCIe_config_space_and_host_1_Byte_Config_Data_Port_Read_with_Disabled_Config_Address_001 b);
   ("pci_rqmid_27774_PCIe_config_space_and_host_2_Byte_Config_Data_Port_Read_with_Disabled_Config_Address_001", pci_rqmid_27774_PCIe_config_space_and_host_2_Byte_Config_Data_Port_Read_with_Disabled_Config_Address_001 b);
   ("pci_rqmid_27780_PCIe_config_space_and_host_Normal_Config_Data_Port_Read_with_Disabled_Config_Address_001", pci_rqmid_27780_PCIe_config_space_and_host_Normal_Config_Data_Port_Read_with_Disabled_Config_Address_001 b);
   ("pci_rqmid_27769_PCIe_config_space_and_host_1_Byte_CFDH_Write_with_Enabled_Config_Address_001", pci_rqmid_27769_PCIe_config_space_and_host_1_Byte_CFDH_Write_with_Enabled_Config_Address_001 b);
   ("pci_rqmid_27768_PCIe_config_space_and_host_1_Byte_CFEH_Write_with_Enabled_Config_Address_001", pci_rqmid_27768_PCIe_config_space_and_host_1_Byte_CFEH_Write_with_Enabled_Config_Address_001 b);
   ("pci_rqmid_27767_PCIe_config_space_and_host_1_Byte_CFFH_Write_with_Enabled_Config_Address_001", pci_rqmid_27767_PCIe_config_space_and_host_1_Byte_CFFH_Write_with_Enabled_Config_Address_001 b);
   ("pci_rqmid_27770_PCIe_config_space_and_host_1_Byte_Config_Data_Port_Write_with_Enabled_Config_Address_001", pci_rqmid_27770_PCIe_config_space_and_host_1_Byte_Config_Data_Port_Write_with_Enabled_Config_Address_001 b);
   ("pci_rqmid_27765_PCIe_config_space_and_host_2_Byte_CFEH_Write_with_Enabled_Config_Address_001", pci_rqmid_27765_PCIe_config_space_and_host_2_Byte_CFEH_Write_with_Enabled_Config_Address_001 b);
   ("pci_rqmid_27766_PCIe_config_space_and_host_2_Byte_Config_Data_Port_Write_with_Enabled_Config_Address_001", pci_rqmid_27766_PCIe_config_space_and_host_2_Byte_Config_Data_Port_Write_with_Enabled_Config_Address_001 b);
   ("pci_rqmid_27771_PCIe_config_space_and_host_Normal_Write_with_Enabled_Config_Address_001", pci_rqmid_27771_PCIe_config_space_and_host_Normal_Write_with_Enabled_Config_Address_001 b);
   ("pci_rqmid_27787_PCIe_config_space_and_host_1_Byte_CFDH_Read_with_Enabled_Config_Address_001", pci_rqmid_27787_PCIe_config_space_and_host_1_Byte_CFDH_Read_with_Enabled_Config_Address_001 b);
   ("pci_rqmid_27786_PCIe_config_space_and_host_1_Byte_CFEH_Read_with_Enabled_Config_Address_001", pci_rqmid_27786_PCIe_config_space_and_host_1_Byte_CFEH_Read_with_Enabled_Config_Address_001 b);
   ("pci_rqmid_27785_PCIe_config_space_and_host_1_Byte_CFFH_Read_with_Enabled_Config_Address_001", pci_rqmid_27785_PCIe_config_space_and_host_1_Byte_CFFH_Read_with_Enabled_Config_Address_001 b);
   ("pci_rqmid_27788_PCIe_config_space_and_host_1_Byte_Config_Data_Port_Read_with_Enabled_Config_Address_001", pci_rqmid_27788_PCIe_config_space_and_host_1_Byte_Config_Data_Port_Read_with_Enabled_Config_Address_001 b);
   ("pci_rqmid_27783_PCIe_config_space_and_host_2_Byte_CFEH_Read_with_Enabled_Config_Address_001", pci_rqmid_27783_PCIe_config_space_and_host_2_Byte_CFEH_Read_with_Enabled_Config_Address_001 b);
   ("pci_rqmid_27784_PCIe_config_space_and_host_2_Byte_Config_Data_Port_Read_with_Enabled_Config_Address_001", pci_rqmid_27784_PCIe_config_space_and_host_2_Byte_Config_Data_Port_Read_with_Enabled_Config_Address_001 b);
   ("pci_rqmid_27789_PCIe_config_space_and_host_Normal_Config_Data_Port_Read_with_Enabled_Config_Address_001", pci_rqmid_27789_PCIe_config_space_and_host_Normal_Config_Data_Port_Read_with_Enabled_Config_Address_001 b);
   ("pci_rqmid_27791_PCIe_config_space_and_host_1_Byte_Config_Address_Port_Write_001", pci_rqmid_27791_PCIe_config_space_and_host_1_Byte_Config_Address_Port_Write_001);
   ("pci_rqmid_27790_PCIe_config_space_and_host_2_Byte_Config_Address_Port_Write_001", pci_rqmid_27790_PCIe_config_space_and_host_2_Byte_Config_Address_Port_Write_001);
   ("pci_rqmid_30960_PCIe_config_space_and_host_Normal_Config_Address_Port_Write_001", pci_rqmid_30960_PCIe_config_space_and_host_Normal_Config_Address_Port_Write_001);
   ("pci_rqmid_27793_PCIe_config_space_and_host_1_Byte_Config_Address_Port_Read_001", pci_rqmid_27793_PCIe_config_space_and_host_1_Byte_Config_Address_Port_Read_001);
   ("pci_rqmid_27792_PCIe_config_space_and_host_2_Byte_Config_Address_Port_Read_001", pci_rqmid_27792_PCIe_config_space_and_host_2_Byte_Config_Address_Port_Read_001);
   ("pci_rqmid_31161_PCIe_config_space_and_host_Normal_Config_Address_Port_Read_001", pci_rqmid_31161_PCIe_config_space_and_host_Normal_Config_Address_Port_Read_001 b)].

(** [stack1] and [stack2] are what the local arrays of two cases contain. *)
Definition register_cases (stack1 stack2 : list util_dev) : list (string * tprog unit) :=
  [("pci_rqmid_26040_PCIe_config_space_and_host_Read_Reserved_register_001", pci_rqmid_26040_PCIe_config_space_and_host_Read_Reserved_register_001);
   ("pci_rqmid_25295_PCIe_config_space_and_host_Write_Reserved_register_001", pci_rqmid_25295_PCIe_config_space_and_host_Write_Reserved_register_001);
   ("pci_rqmid_25298_PCIe_config_space_and_host_Write_Reserved_register_002", pci_rqmid_25298_PCIe_config_space_and_host_Write_Reserved_register_002);
   ("pci_rqmid_38095_PCIe_config_space_and_host_PCI_configuration_header_register_USB_001", pci_rqmid_38095_PCIe_config_space_and_host_PCI_configuration_header_register_USB_001);
   ("pci_rqmid_26245_PCIe_config_space_and_host_Device_Identification_Type_Registers_004", pci_rqmid_26245_PCIe_config_space_and_host_Device_Identification_Type_Registers_004);
   ("pci_rqmid_26793_PCIe_config_space_and_host_Status_Register_001", pci_rqmid_26793_PCIe_config_space_and_host_Status_Register_001);
   ("pci_rqmid_26794_PCIe_config_space_and_host_Command_Register_001", pci_rqmid_26794_PCIe_config_space_and_host_Command_Register_001);
   ("pci_rqmid_26817_PCIe_config_space_and_host_Interrupt_Line_Register_001", pci_rqmid_26817_PCIe_config_space_and_host_Interrupt_Line_Register_001);
   ("pci_rqmid_38288_PCIe_config_space_and_host_PCI_Configuration_Space_Header_001", pci_rqmid_38288_PCIe_config_space_and_host_PCI_Configuration_Space_Header_001 b stack1);
   ("pci_rqmid_38297_PCIe_config_space_and_host_Assumption_of_PCI_devices_assigned_001", pci_rqmid_38297_PCIe_config_space_and_host_Assumption_of_PCI_devices_assigned_001 stack2)].

Definition msi_cases : list (string * tprog unit) :=
  [("pci_rqmid_26821_PCIe_config_space_and_host_MSI_capability_structure_001", pci_rqmid_26821_PCIe_config_space_and_host_MSI_capability_structure_001);
   ("pci_rqmid_26823_PCIe_config_space_and_host_MSI_capability_structure_002", pci_rqmid_26823_PCIe_config_space_and_host_MSI_capability_structure_002);
   ("pci_rqmid_28884_PCIe_config_space_and_host_MSI_message_address_destination_ID_read_write_002", pci_rqmid_28884_PCIe_config_space_and_host_MSI_message_address_destination_ID_read_write_002);
   ("pci_rqmid_28908_PCIe_config_space_and_host_MSI_message_data_trigger_mode_read_001", pci_rqmid_28908_PCIe_config_space_and_host_MSI_message_data_trigger_mode_read_001);
   ("pci_rqmid_28888_PCIe_config_space_and_host_MSI_message_data_trigger_mode_write_001", pci_rqmid_28888_PCIe_config_space_and_host_MSI_message_data_trigger_mode_write_001);
   ("pci_rqmid_28911_PCIe_config_space_and_host_MSI_message_data_delivery_mode_read_001", pci_rqmid_28911_PCIe_config_space_and_host_MSI_message_data_delivery_mode_read_001);
   ("pci_rqmid_28892_PCIe_config_space_and_host_MSI_message_data_delivery_mode_write_001", pci_rqmid_28892_PCIe_config_space_and_host_MSI_message_data_delivery_mode_write_001);
   ("pci_rqmid_28914_PCIe_config_space_and_host_MSI_message_address_interrupt_message_address_read_001", pci_rqmid_28914_PCIe_config_space_and_host_MSI_message_address_interrupt_message_address_read_001);
   ("pci_rqmid_28894_PCIe_config_space_and_host_MSI_message_address_interrupt_message_address_write_001", pci_rqmid_28894_PCIe_config_space_and_host_MSI_message_address_interrupt_message_address_write_001);
   ("pci_rqmid_28917_PCIe_config_space_and_host_MSI_message_address_redirection_hint_read_001", pci_rqmid_28917_PCIe_config_space_and_host_MSI_message_address_redirection_hint_read_001);
   ("pci_rqmid_28896_PCIe_config_space_and_host_MSI_message_address_redirection_hint_write_001", pci_rqmid_28896_PCIe_config_space_and_host_MSI_message_address_redirection_hint_write_001);
   ("pci_rqmid_28918_PCIe_config_space_and_host_MSI_message_control_read_001", pci_rqmid_28918_PCIe_config_space_and_host_MSI_message_control_read_001);
   ("pci_rqmid_28899_PCIe_config_space_and_host_MSI_message_control_write_001", pci_rqmid_28899_PCIe_config_space_and_host_MSI_message_control_write_001);
   ("pci_rqmid_28923_PCIe_config_space_and_host_MSI_Next_PTR_001", pci_rqmid_28923_PCIe_config_space_and_host_MSI_Next_PTR_001);
   ("pci_rqmid_38091_PCIe_config_space_and_host_capability_ID_register_of_the_PCI_MSI_capability_USB_001", pci_rqmid_38091_PCIe_config_space_and_host_capability_ID_register_of_the_PCI_MSI_capability_USB_001)].

Definition mmio_cases : list (string * tprog unit) :=
  [("pci_rqmid_26821_PCIe_config_space_and_host_MSI_capability_structure_001", pci_rqmid_26821_PCIe_config_space_and_host_MSI_capability_structure_001);
   ("pci_rqmid_26823_PCIe_config_space_and_host_MSI_capability_structure_002", pci_rqmid_26823_PCIe_config_space_and_host_MSI_capability_structure_002)].

Definition main (stack1 stack2 : list util_dev) : tprog Z :=
  s ← get;
  '(devs, nr) ← on_util (pci_pdev_enumerate_dev (pci_devs s) (nr_pci_devs s));
  modify (λ s, TState devs nr (xbar s) (t_util s));;
  if nr =? 0 then mret 0
  else
    run_cases bridge_cases;;
    run_cases port_cases;;
    run_cases (register_cases stack1 stack2);;
    run_cases msi_cases;;
    s ← get;
    on_util (pci_set_mmcfg_addr (xbar s));;
    run_cases mmio_cases;;
    on_util (pci_set_mmcfg_addr 0);;
    mret 0.
End Main.

(** ** What the cases require *)

(** The bits of a register that always have the bits of [r_value], those that
    keep their value whatever is written, and those that can be written. *)
Record reg_spec := RSpec { r_known : Z; r_value : Z; r_fixed : Z; r_write : Z }.

(** The USB controller: identifiers, command and status, revision, header type,
    the first base address register, the pointer to the capability at 0x80, the
    interrupt line, and the MSI capability: its control, address and data. *)
Definition usb_spec (r : Z) : reg_spec :=
  match r with
  | 0 => RSpec 0xFFFFFFFF 0xa12f8086 0 0
  | 1 => RSpec 0xFFFFFAB8 0x02900000 0 0x547
  | 2 => RSpec 0xFF 0x31 0xFFFFFFFF 0
  | 3 => RSpec 0xFF0000 0x800000 0xFFFFFFFF 0
  | 4 => RSpec 0xFFF0 0 0 0xFFFF0000
  | 10 | 11 | 12 => RSpec 0 0 0xFFFFFFFF 0
  | 13 => RSpec 0xFFFF00FF 0x80 0xFF 0
  | 15 => RSpec 0xFF 0xFF 0xFFFFFF00 0
  | 32 => RSpec 0xFFFEFFFF 0x00800005 0 0x10000
  | 33 => RSpec 0xFFF00FFF 0xFEE00000 0 0xFF000
  | 34 => RSpec 0xFFFFFFFF 0 0 0
  | 35 => RSpec 0 0 0 0xFFFF
  | _ => RSpec 0 0 0 0
  end.

(** The host bridge: its identifiers, class and header type, the address of the
    memory-mapped accesses, and no register of the table that can be written. *)
Definition host_spec (r : Z) : reg_spec :=
  match r with
  | 0 => RSpec 0xFFFFFFFF 0x191F8086 0xFFFFFFFF 0
  | 2 => RSpec 0xFFFFFF00 0x06000000 0xFFFFFFFF 0
  | 3 => RSpec 0xFF0000 0 0xFFFFFFFF 0
  | 1 | 4 | 5 | 6 | 7 | 8 | 9 | 10 | 11 | 12 | 13 | 14 | 15 => RSpec 0 0 0xFFFFFFFF 0
  | 24 => RSpec 0xFFFFFFFF 0xe0000001 0xFFFFFFFF 0
  | _ => RSpec 0 0 0 0
  end.

Lemma two_masks w a b m1 m2 :
  0 <= w → 0 <= a < 2 ^ w → 0 <= b < 2 ^ w → Z.lor m1 m2 = Z.ones w →
  Z.land a m1 = Z.land b m1 → Z.land a m2 = Z.land b m2 → a = b.
Proof.
  intros Hw Ha Hb Hm H1 H2.
  assert (∀ x, 0 <= x < 2 ^ w → Z.lor (Z.land x m1) (Z.land x m2) = x) as E.
  { intros x Hx. rewrite <- Z.land_lor_distr_r, Hm, Z.land_ones by lia. by apply Z.mod_small. }
  rewrite <- (E a), <- (E b) by done. by rewrite H1, H2.
Qed.

Section Spec.
Context {St : Type} {io : PortIO St} {laws : Conf1Laws St} {rl : RegLaws St}.

(** The masks of the function [d] are those of the specification. *)
Record meets (spec : Z → reg_spec) (d : Z) : Prop := {
  mt_write r : Z.land (r_write (spec r)) (rw_mask d r) = r_write (spec r);
  mt_known r : Z.land (r_known (spec r)) (rw_mask d r) = 0;
  mt_w1c r : Z.land (Z.land (r_known (spec r)) (w1c_mask d r)) (r_value (spec r)) = 0;
  mt_fixed r : Z.land (r_fixed (spec r)) (Z.lor (rw_mask d r) (w1c_mask d r)) = 0;
}.

(** The registers have the values of the specification. *)
Definition shows (spec : Z → reg_spec) (d : Z) (f : store) : Prop :=
  ∀ r, Z.land (f d r) (r_known (spec r)) = r_value (spec r).

(** The same for a field. *)
Definition fld (g : reg_spec → Z) (spec : Z → reg_spec) (off : Z) (n : nat) : Z :=
  lane (g (spec (off / 4))) (off mod 4) n.

Lemma lane_land a b (o : Z) n : lane (Z.land a b) o n = Z.land (lane a o n) (lane b o n).
Proof using Type. unfold lane. rewrite Z.shiftr_land. zbits. Qed.

Lemma shows_wr spec d f d' off n v :
  meets spec d → shows spec d f → shows spec d (wr f d' off n v).
Proof using Type.
  intros Hm Hs r. rewrite <- (Hs r). unfold wr. destruct ((d =? d') && (r =? off / 4)) eqn:E; [|done].
  pose proof (Z.mod_pos_bound off 4). apply put_lane_keep; [lia|by apply mt_known|].
  pose proof (mt_w1c _ _ Hm r) as H1. rewrite <- (Hs r) in H1. rewrite <- H1. zbits_intro i.
  destruct (Z.testbit (r_known (spec r)) i), (Z.testbit (w1c_mask d r) i), (Z.testbit (f d r) i); done.
Qed.

(** The known bits of a field. *)
Lemma known_rd spec d f off n c :
  shows spec d f → Z.land c (fld r_known spec off n) = c →
  Z.land (rd f d off n) c = Z.land (fld r_value spec off n) c.
Proof using Type.
  intros Hs Hc. unfold fld. rewrite <- (Hs (off / 4)), lane_land. fold (fld r_known spec off n).
  unfold rd. rewrite <- Hc at 1. rewrite (Z.land_comm c), <- !Z.land_assoc. done.
Qed.

(** The bits of a field within another that is written. *)
Lemma written_sub spec d g off (n : nat) v off' (n' : nat) c :
  meets spec d → off' / 4 = off / 4 → off <= off' → off' + n' <= off + n →
  Z.land c (fld r_write spec off' n') = c →
  Z.land (rd (wr g d off n v) d off' n') c = Z.land (Z.shiftr v (8 * (off' - off))) c.
Proof using Type.
  intros Hm E1 Hlo Hhi Hc.
  assert (off' mod 4 = off mod 4 + (off' - off)) as E2 by dlia.
  assert (Z.land c (lane (rw_mask d (off / 4)) (off' mod 4) n') = c) as Hc'.
  { rewrite <- Hc at 2. rewrite <- Hc at 1. unfold fld. rewrite E1.
    rewrite <- (mt_write _ _ Hm (off / 4)) at 2. rewrite lane_land, Z.land_assoc. done. }
  pose proof (Z.mod_pos_bound off 4). pose proof (Z.mod_pos_bound off' 4).
  unfold rd, wr. rewrite E1, !Z.eqb_refl. cbn [andb]. rewrite <- Hc'. zbits_intro i.
  rewrite !testbit_lane by lia. unfold put_lane, upd. autorewrite with zbits.
  replace (i + 8 * (off' mod 4) - 8 * (off mod 4)) with (i + 8 * (off' - off)) by lia.
  destruct (Z.testbit (rw_mask d (off / 4)) (i + 8 * (off' mod 4)));
    destruct (Z.testbit c i); zcases; cbn; rewrite ?andb_true_r, ?andb_false_r, ?orb_false_r; try done; lia.
Qed.

Lemma written_rd spec d g off (n : nat) v c :
  meets spec d → Z.land c (fld r_write spec off n) = c →
  Z.land (rd (wr g d off n v) d off n) c = Z.land v c.
Proof using Type.
  intros Hm Hc. rewrite (written_sub spec) by (done || lia). by rewrite Z.sub_diag, Z.shiftr_0_r.
Qed.

(** A field within another. *)
Lemma rd_sub f d off (n : nat) off' (n' : nat) c :
  off' / 4 = off / 4 → off <= off' → off' + n' <= off + n → Z.land c (Z.ones (8 * n')) = c →
  Z.land (Z.shiftr (rd f d off n) (8 * (off' - off))) c = Z.land (rd f d off' n') c.
Proof using Type.
  intros E1 Hlo Hhi Hc. assert (off' mod 4 = off mod 4 + (off' - off)) as E2 by dlia.
  pose proof (Z.mod_pos_bound off 4). unfold rd. rewrite E1, E2, <- Hc. zbits_intro i.
  rewrite !testbit_lane by lia.
  replace (i + 8 * (off' - off) + 8 * (off mod 4)) with (i + 8 * (off mod 4 + (off' - off))) by lia.
  zcases; cbn; rewrite ?andb_true_r, ?andb_false_r; done || lia.
Qed.

(** The bits that are fixed. *)
Lemma fixed_rd spec d f off n v c :
  meets spec d → Z.land c (fld r_fixed spec off n) = c →
  Z.land (rd (wr f d off n v) d off n) c = Z.land (rd f d off n) c.
Proof using Type.
  intros Hm Hc.
  assert (Z.land c (Z.lor (rw d off n) (w1c d off n)) = 0) as Hz.
  { rewrite <- Hc, <- Z.land_assoc. unfold fld, rw, w1c.
    assert (Z.lor (lane (rw_mask d (off / 4)) (off mod 4) n) (lane (w1c_mask d (off / 4)) (off mod 4) n) =
      lane (Z.lor (rw_mask d (off / 4)) (w1c_mask d (off / 4))) (off mod 4) n) as ->.
    { unfold lane. rewrite Z.shiftr_lor. zbits. }
    rewrite <- lane_land, (mt_fixed _ _ Hm). unfold lane. rewrite Z.shiftr_0_l. unfold wrap.
    by rewrite Z.mod_0_l, Z.land_0_r by (apply Z.pow_nonzero; lia). }
  rewrite rd_wr. unfold upd. zbits_intro i. apply (f_equal (λ z, Z.testbit z i)) in Hz. revert Hz.
  autorewrite with zbits.
  destruct (Z.testbit (rw d off n) i), (Z.testbit (w1c d off n) i), (Z.testbit (rd f d off n) i), (Z.testbit c i);
    cbn; rewrite ?andb_false_r, ?andb_true_r, ?orb_false_r; done.
Qed.

Lemma rd_ones f d off n : Z.land (rd f d off n) (Z.ones (8 * n)) = rd f d off n.
Proof using Type. rewrite Z.land_ones by lia. apply Z.mod_small. apply rd_range. Qed.

Lemma fixed_all spec d f off n v :
  meets spec d → fld r_fixed spec off n = Z.ones (8 * n) → rd (wr f d off n v) d off n = rd f d off n.
Proof using Type.
  intros Hm Hk. rewrite <- (rd_ones f), <- (rd_ones (wr f d off n v)).
  apply (fixed_rd spec); [done|]. by rewrite Hk, Z.land_diag.
Qed.

Lemma known_all spec d f off n :
  shows spec d f → fld r_known spec off n = Z.ones (8 * n) → rd f d off n = fld r_value spec off n.
Proof using Type.
  intros Hs Hk.
  assert (∀ x, 0 <= x < 2 ^ (8 * n) → Z.land x (Z.ones (8 * n)) = x) as E.
  { intros x Hx. rewrite Z.land_ones by lia. by apply Z.mod_small. }
  rewrite <- (E (rd f d off n)) by apply rd_range. rewrite <- (E (fld r_value spec off n)) by apply lane_range.
  apply (known_rd spec); [done|]. rewrite Hk. by rewrite Z.land_diag.
Qed.

(** A field whose bits are known or can be written has, after a write that has the
    known bits right, the value written. *)
Lemma written_whole spec d g off (n : nat) v :
  meets spec d → shows spec d g →
  Z.lor (fld r_known spec off n) (fld r_write spec off n) = Z.ones (8 * n) →
  0 <= v < 2 ^ (8 * n) →
  Z.land v (fld r_known spec off n) = Z.land (fld r_value spec off n) (fld r_known spec off n) →
  rd (wr g d off n v) d off n = v.
Proof using Type.
  intros Hm Hs Hf Hv Hk. apply (two_masks (8 * n) _ _ _ _ ltac:(lia) (rd_range _ _ _ _) Hv Hf).
  - rewrite (known_rd spec); [done| |by rewrite Z.land_diag]. by apply shows_wr.
  - apply (written_rd spec); [done|by rewrite Z.land_diag].
Qed.
Lemma second_byte g d off (n : nat) :
  off mod 4 = 0 → (2 <= n)%nat → Z.land (Z.shiftr (rd g d off n) 8) 0xFF = rd g d (off + 1) 1.
Proof using Type.
  intros Ho Hn. change 8 with (8 * 1). replace 1 with (off + 1 - off) at 1 by lia.
  rewrite (rd_sub g d off n (off + 1) 1 0xFF) by (dlia || done). change 0xFF with (Z.ones 8).
  rewrite Z.land_ones by lia. apply Z.mod_small. apply rd_range.
Qed.

End Spec.

Lemma dest_field x i :
  Z.land (Z.shiftr (Z.land (Z.lor (Z.land x 0xFFF00FFF) (u32 (Z.shiftl (Z.land i 0xFF) 12))) 0xFF000) 12) 0x1FFF =
  Z.land i 0xFF.
Proof.
  change 0xFFF00FFF with (Z.ldiff (Z.ones 32) (Z.shiftl (Z.ones 8) 12)). change 0xFF000 with (Z.shiftl (Z.ones 8) 12).
  change 0xFF with (Z.ones 8). change 0x1FFF with (Z.ones 13). zbits_intro n.
  replace (n + 12 - 12) with n by lia. zcases; cbn; rewrite ?andb_true_r, ?andb_false_r; done || lia.
Qed.


(** ** The cases on a machine that meets the requirements *)

(** After a write to the address port by [asm] statements, EAX has the address. *)
Class EaxLaw (St : Type) {io : PortIO St} {ops : TestOps St} {laws : Conf1Laws St} := {
  eax_latch v s : op_eax (cf_latch v s) = Ret (v, cf_latch v s);
}.

Lemma ok_or a b : (a =? OK) = true → (b =? OK) = true → (Z.lor a b =? OK) = true.
Proof. rewrite !Z.eqb_eq. by intros -> ->. Qed.

Lemma check_same a b : a = b → (pci_data_check a b false =? OK) = true.
Proof. intros ->. unfold pci_data_check. by rewrite Z.eqb_refl. Qed.

Lemma eqb_same a b : a = b → (a =? b) = true.
Proof. intros ->. apply Z.eqb_refl. Qed.

Lemma two_true x y : x = true → y = true → (Z.b2z x + Z.b2z y =? 2) = true.
Proof. by intros -> ->. Qed.
Lemma three_true x y z : x = true → y = true → z = true → (Z.b2z x + Z.b2z y + Z.b2z z =? 3) = true.
Proof. by intros -> -> ->. Qed.

(** Masked bits: a mask within a mask, bits that were not inverted, the bits of a
    known or zero part. *)
Lemma land_lxor_out x m c : Z.land m c = 0 → Z.land (Z.lxor x m) c = Z.land x c.
Proof.
  intros H. zbits_intro i. apply (f_equal (λ z, Z.testbit z i)) in H. revert H. autorewrite with zbits.
  destruct (Z.testbit m i), (Z.testbit x i), (Z.testbit c i); done.
Qed.
Lemma land_wrap w v c : 0 <= w → Z.land (Z.ones w) c = c → Z.land (wrap w v) c = Z.land v c.
Proof. intros Hw <-. zbits_intro i. zcases; cbn; rewrite ?andb_true_r, ?andb_false_r; done. Qed.
Lemma land_part x m c : Z.land x m = 0 → Z.land m c = c → Z.land x c = 0.
Proof. intros H <-. by rewrite Z.land_assoc, H. Qed.
Lemma land_shift_0 x k c : 0 <= k → Z.land (Z.shiftr x k) c = 0 → Z.land x (Z.shiftl c k) = 0.
Proof.
  intros Hk H. apply Z.bits_inj_iff'. intros i Hi. rewrite Z.bits_0, Z.land_spec, Z.shiftl_spec by done.
  destruct (Z.ltb_spec i k).
  - rewrite (Z.testbit_neg_r c) by lia. by rewrite andb_false_r.
  - apply (f_equal (λ z, Z.testbit z (i - k))) in H. revert H.
    rewrite Z.land_spec, Z.shiftr_spec, Z.bits_0 by lia. by replace (i - k + k) with i by lia.
Qed.
Lemma land_split x c1 c2 c : Z.lor c1 c2 = c → Z.land x c = Z.lor (Z.land x c1) (Z.land x c2).
Proof. intros <-. apply Z.land_lor_distr_r. Qed.
Lemma land_land x a b c : Z.land a b = c → Z.land (Z.land x a) b = Z.land x c.
Proof. intros <-. by rewrite Z.land_assoc. Qed.

(** The registers that machines are required to have at [d]: those of the
    controller, and an MSI capability whose enable bit is clear and whose data
    has the delivery and trigger modes zero. *)
Record conf {St} {io : PortIO St} {laws : Conf1Laws St} {rl : RegLaws St} (f0 : store) (d : Z) (f : store) : Prop := {
  cf_usb : shows usb_spec d f;
  cf_host : shows host_spec 0 f;
  cf_enable : Z.land (rd f d 0x82 1) 1 = 0;
  cf_modes : Z.land (rd f d 0x8D 1) 0xC7 = 0;
  cf_others d' r : d' ≠ d → d' ≠ 0 → f d' r = f0 d' r;
}.

Section Cases.
Context {St : Type} {io : PortIO St} {ops : TestOps St} {laws : Conf1Laws St} {rl : RegLaws St}
  {tl : TestLaws St} {po : PortsOff St} {ap : AddressPort St} {ex : EaxLaw St}.
Context (f0 : store) (d mode : Z).
Context (Hd : 0 < d < 2 ^ 16) (Husb : meets usb_spec d) (Hhost : meets host_spec 0).
#[local] Abbreviation tprog := (prog (test_state St)).

(** The functions are found. *)
Definition env_ok (e : env) : Prop :=
  finds e USB_DEV_VENDOR d ∧ is_dev_exist_by_bdf (e_devs e) (e_nr e) 0 = Ret (Some ()).

Definition ok (body : tprog bool) : Prop :=
  ∀ e f, env_ok e → e_mode e = mode → conf f0 d f → tw body (λ b f', b = true ∧ conf f0 d f') e f.

Lemma conf_msi f : conf f0 d f → msi_at 64 f d (rd f d PCI_CAPABILITY_LIST 1) 0x80.
Proof using Type.
  intros [Hu _ _ _ _]. rewrite (known_all usb_spec) by (done || by vm_compute).
  change (fld r_value usb_spec PCI_CAPABILITY_LIST 1) with 0x80. cbn [msi_at].
  rewrite (known_rd usb_spec) by (done || by vm_compute).
  change (Z.land (fld r_value usb_spec 0x80 4) 0xFF =? PCI_CAP_ID_MSI) with true. done.
Qed.

Lemma conf_enable f : conf f0 d f → Z.land (rd f d 0x82 2) 1 = 0.
Proof using Type.
  intros Hc. rewrite <- (cf_enable _ _ _ Hc), <- (rd_sub f d 0x82 2 0x82 1) by (lia || by vm_compute).
  by rewrite Z.shiftr_0_r.
Qed.

Lemma conf_modes f : conf f0 d f → Z.land (rd f d 0x8C 2) 0xC700 = 0.
Proof using Type.
  intros Hc. pose proof (cf_modes _ _ _ Hc) as H.
  rewrite <- (rd_sub f d 0x8C 2 0x8D 1) in H by (lia || by vm_compute).
  by apply (land_shift_0 _ 8 0xC7).
Qed.
End Cases.

Ltac shows_side := repeat (apply shows_wr; [assumption|]); solve [assumption | eapply cf_usb; eassumption].

(** The offsets of registers as numbers. *)
Ltac is_number x := lazymatch x with Z0 => idtac | Zpos _ => idtac | Zneg _ => idtac end.
Ltac offsets :=
  repeat match goal with
  | |- context [Z.add ?x ?y] =>
      first [is_number x | is_const x]; first [is_number y | is_const y];
      let v := eval vm_compute in (x + y) in is_number v; change (x + y) with v
  | |- context [msi_reg_size ?x] =>
      let v := eval vm_compute in (msi_reg_size x) in change (msi_reg_size x) with v
  end.

(** [holdsb e] succeeds if the closed boolean [e] is true. *)
Ltac holdsb e := let v := eval vm_compute in e in lazymatch v with true => idtac end.
Ltac value_step :=
  match goal with
  | |- context [8 * (?a - ?b)] => let v := eval vm_compute in (8 * (a - b)) in change (8 * (a - b)) with v
  | |- context [Z.lor ?x ?y] => is_number x; is_number y; let v := eval vm_compute in (Z.lor x y) in change (Z.lor x y) with v
  | |- context [Z.shiftr ?x 0] => rewrite (Z.shiftr_0_r x)
  | |- context [Z.land (Z.land ?x ?a) ?b] =>
      let v := eval vm_compute in (Z.land a b) in is_number v; rewrite (land_land x a b v) by reflexivity
  | |- context [Z.land (Z.lxor ?x ?m) ?c] => holdsb (Z.land m c =? 0); rewrite (land_lxor_out x m c) by reflexivity
  | |- context [Z.land (wrap ?w ?x) ?c] =>
      holdsb (Z.land (Z.ones w) c =? c); rewrite (land_wrap w x c) by (done || by vm_compute)
  | |- context [Z.land (Z.shiftr (rd ?g ?dd ?off ?n) 8) ?c] =>
      holdsb (Z.land c 0xFF =? c);
      let o := eval vm_compute in (off + 1) in
      change (Z.shiftr (rd g dd off n) 8) with (Z.shiftr (rd g dd off n) (8 * (o - off)));
      rewrite (rd_sub g dd off n o 1 c) by (lia || by vm_compute)
  end.

(** [reads] evaluates the bits of registers: known ones, and those that were
    written before. *)
Ltac read_step :=
  match goal with
  | |- context [rd ?g ?dd ?off ?n] =>
      holdsb (fld r_known usb_spec off n =? Z.ones (8 * n));
      rewrite (known_all usb_spec dd g off n) by (shows_side || by vm_compute)
  | |- context [Z.land (rd ?g ?dd ?off ?n) ?c] =>
      holdsb (Z.land c (fld r_known usb_spec off n) =? c);
      rewrite (known_rd usb_spec dd g off n c) by (shows_side || by vm_compute)
  | H : Z.land (rd ?g ?dd ?off ?n) ?m = 0 |- context [Z.land (rd ?g ?dd ?off ?n) ?c] =>
      holdsb (Z.land m c =? c); rewrite (land_part (rd g dd off n) m c H) by reflexivity
  | |- context [Z.land (rd (wr ?g ?dd ?off1 ?n1 ?v) ?dd ?off ?n) ?c] =>
      first
        [ holdsb (negb (off / 4 =? off1 / 4) || (off mod 4 + n <=? off1 mod 4) || (off1 mod 4 + n1 <=? off mod 4));
          rewrite (rd_wr_other g dd off1 n1 v dd off n)
            by first [right; left; by vm_compute | right; right; left; by vm_compute | right; right; right; by vm_compute]
        | holdsb ((off =? off1) && (n =? n1)%nat && (Z.land c (fld r_write usb_spec off n) =? c));
          rewrite (written_rd usb_spec dd g off n v c) by (assumption || by vm_compute)
        | holdsb ((off1 <=? off) && (off + n <=? off1 + n1) && (Z.land c (fld r_write usb_spec off n) =? c));
          rewrite (written_sub usb_spec dd g off1 n1 v off n c) by (assumption || lia || by vm_compute)
        | let c1 := eval vm_compute in (Z.land c (fld r_known usb_spec off n)) in
          let c2 := eval vm_compute in (Z.land c (fld r_write usb_spec off n)) in
          holdsb (negb (c1 =? 0) && negb (c2 =? 0) && (Z.lor c1 c2 =? c));
          rewrite (land_split (rd (wr g dd off1 n1 v) dd off n) c1 c2 c) by reflexivity ]
  end.
Ltac reads := repeat first [value_step | read_step].
(** Equal terms, an equation that is known, or numbers. *)
Ltac finish :=
  lazymatch goal with
  | |- context [rd] =>
      lazymatch goal with |- ?a = ?b => first [constr_eq a b; exact (eq_refl a) | match goal with H : ?P |- ?Q => constr_eq P Q; exact H end] end
  | |- _ => by vm_compute
  end.
Lemma shiftr_u32 a k : 0 <= a < 2 ^ 32 → 0 <= k → 0 <= Z.shiftr a k < 2 ^ 32.
Proof.
  intros Ha Hk. rewrite Z.shiftr_div_pow2 by lia. assert (1 <= 2 ^ k) by (apply (Z.pow_le_mono_r 2 0); lia).
  split; [apply Z.div_pos; lia|]. apply Z.le_lt_trans with a; [|lia]. apply Z.div_le_upper_bound; nia.
Qed.
Ltac u32_range ::=
  match goal with
  | H : 0 <= ?a < 2 ^ 32 |- 0 <= ?a < 2 ^ 32 => exact H
  | |- 0 <= rd _ _ _ _ < 2 ^ 32 => apply rd_u32; lia
  | |- 0 <= Z.land _ _ < 2 ^ 32 => apply land_u32; [u32_range|lia]
  | |- 0 <= Z.lxor _ _ < 2 ^ 32 => apply lxor_u32; u32_range
  | |- 0 <= Z.shiftr _ _ < 2 ^ 32 => apply shiftr_u32; [u32_range|lia]
  | |- _ => lia
  end.
(** The accesses through the data ports. *)
Ltac size_side := first [by left | by right; left | by right; right].
Ltac const_range := first [lia | split; by vm_compute].
Ltac port_step :=
  lazymatch goal with
  | |- tw (pci_pdev_write_cfg_test _ _ _ _ _ true) _ _ _ =>
      apply tw_write_port; [field_side|reflexivity|u32_range|]
  | |- tw (pci_pdev_read_cfg_test _ _ _ _ true) _ _ _ => apply tw_read_port; [field_side|reflexivity|]
  | |- tw (pci_pdev_write_cfg_test _ _ _ _ ?p false) _ _ _ =>
      let o := eval vm_compute in (p - 0xCFC) in
      eapply (tw_write_off _ _ _ _ _ o); [const_range|reflexivity|lia|size_side|]
  | |- tw (pci_pdev_read_cfg_test _ _ _ ?p false) _ _ _ =>
      let o := eval vm_compute in (p - 0xCFC) in
      eapply (tw_read_off _ _ _ _ o); [const_range|reflexivity|lia|size_side|]
  end; cbn beta zeta.
Ltac steps := repeat (offsets; first [tstep | port_step]).
Ltac keeps_conf :=
  first [match goal with H : ?P |- ?Q => constr_eq P Q; exact H end |
  constructor;
  [ shows_side
  | repeat (apply shows_wr; [assumption|]); eapply cf_host; eassumption
  | offsets; reads; first [finish | simple eapply cf_enable; eassumption]
  | offsets; reads; first [finish | simple eapply cf_modes; eassumption]
  | intros d1 r1 Hd1 Hr1; apply Z.eqb_neq in Hd1 as Hd2; apply Z.eqb_neq in Hr1 as Hr2; unfold wr; rewrite ?Hd2, ?Hr2;
    eapply cf_others; eassumption ] ].

Ltac verdict :=
  lazymatch goal with
  | |- (Z.b2z _ + Z.b2z _ + Z.b2z _ =? 3) = true => apply three_true; verdict
  | |- (Z.b2z _ + Z.b2z _ =? 2) = true => apply two_true; verdict
  | |- (Z.lor _ _ =? OK) = true => apply ok_or; verdict
  | |- (OK =? OK) = true => reflexivity
  | |- (pci_data_check _ _ false =? OK) = true => apply check_same
  | |- (_ =? _) = true => apply eqb_same
  end.
Ltac case_start :=
  intros e f [Hf Hx] _ Hc; pose proof (cf_usb _ _ _ Hc) as Hu; pose proof (conf_msi _ _ _ Hc) as Hm;
  match goal with H : 0 < ?d < 2 ^ 16 |- _ => assert (0 <= d < 2 ^ 16) by lia end;
  pose proof (conf_enable _ _ _ Hc) as He; pose proof (conf_modes _ _ _ Hc) as Hmod.

Ltac case_run :=
  eexists; split; [reflexivity|]; case_start; cbv delta [
  test_Write_with_Disabled_Config_Address test_Write_with_enabled_Config_Address
  test_Read_with_Enabled_Config_Address port_write_read write_port read_port write_plain read_plain DEV_VENDOR
  address_port_write command_reserved check_register toggle_check invert_check try_mode
  test_host_PCI_configuration_header_register_read_only
  test_host_MSI_Next_PTR test_host_MSI_message_control_read test_host_MSI_message_control_write
  test_host_MSI_message_address_redirection_hint_write test_host_MSI_message_address_redirection_hint_read
  test_host_MSI_message_address_int_msg_addr_write test_host_MSI_message_address_interrupt_message_address_read
  test_host_MSI_message_data_delivery_mode_read test_host_MSI_message_data_delivery_mode_write
  test_host_MSI_message_data_trigger_mode_read test_host_MSI_message_data_trigger_mode_write
  test_MSI_message_address_destination_field_rw]; cbn beta iota zeta; steps.
Ltac case_ok := case_run; (split; [verdict; reads; finish|keeps_conf]).

Section Batch.
Context {St : Type} {io : PortIO St} {ops : TestOps St} {laws : Conf1Laws St} {rl : RegLaws St}
  {tl : TestLaws St} {po : PortsOff St} {ap : AddressPort St} {ex : EaxLaw St}.
Context (f0 : store) (d mode : Z).
Context (Hd : 0 < d < 2 ^ 16) (Husb : meets usb_spec d) (Hhost : meets host_spec 0).

#[local] Abbreviation tprog := (prog (test_state St)).

(** [c] reports the result of a test that succeeds. *)
Definition good (x : string * prog (test_state St) unit) : Prop :=
  ∃ body, x.2 = report_case x.1 body ∧ ok f0 d mode body.

(** *** The cases that need an argument of their own *)

Lemma control_value f : conf f0 d f → rd f d 0x82 2 = 0x80.
Proof using Type.
  intros Hc. pose proof (conf_enable _ _ _ Hc) as He. pose proof (cf_usb _ _ _ Hc) as Hu.
  apply (two_masks 16 _ _ 0xFFFE 1); [done|apply rd_range|done|done| |exact He].
  by rewrite (known_rd usb_spec) by (done || by vm_compute).
Qed.

Lemma field_xor f off n M c :
  shows usb_spec d f → Z.land (fld r_known usb_spec off n) M = 0 → c = fld r_known usb_spec off n →
  Z.land (Z.lxor (rd f d off n) M) c = Z.land (fld r_value usb_spec off n) c.
Proof using Type.
  intros Hu HM ->. rewrite land_lxor_out by (by rewrite Z.land_comm). apply (known_rd usb_spec); [done|].
  by rewrite Z.land_diag.
Qed.

Lemma id_value g v : shows usb_spec d g → Z.land v 1 = 0 → rd (wr g d 130 2 v) d 128 4 = 0x00800005.
Proof using Type*.
  intros Hg Hv. assert (shows usb_spec d (wr g d 130 2 v)) by shows_side.
  apply (two_masks 32 _ _ 0xFFFEFFFF 0x10000); [done|apply rd_range|done|done| |].
  - by rewrite (known_rd usb_spec) by (done || by vm_compute).
  - apply (land_shift_0 _ 16 1); [done|]. change 16 with (8 * (130 - 128)).
    rewrite (rd_sub _ d 128 4 130 2) by (lia || by vm_compute). by rewrite (written_rd usb_spec) by (done || by vm_compute).
Qed.

Lemma control_written g v : shows usb_spec d g → Z.land v 1 = 0 → rd (wr g d 130 2 v) d 130 2 = 0x80.
Proof using Type*.
  intros Hg Hv. assert (shows usb_spec d (wr g d 130 2 v)) by shows_side.
  apply (two_masks 16 _ _ 0xFFFE 1); [done|apply rd_range|done|done| |].
  - by rewrite (known_rd usb_spec) by (done || by vm_compute).
  - by rewrite (written_rd usb_spec) by (done || by vm_compute).
Qed.

Lemma good_26821 : good ("pci_rqmid_26821_PCIe_config_space_and_host_MSI_capability_structure_001", pci_rqmid_26821_PCIe_config_space_and_host_MSI_capability_structure_001).
Proof using Type*.
  case_run. rewrite (control_value f) by done. change (bit_set 128 (Z.shiftl 1 7)) with true.
  steps. cbn beta iota. steps. split.
  - rewrite !control_written by (done || shows_side). rewrite id_value by (done || shows_side).
    verdict; reads; finish.
  - keeps_conf.
Qed.
(** Inverted bits that can be written read back inverted. *)
Lemma inverted_back g f off (n : nat) M :
  shows usb_spec d f → shows usb_spec d g →
  Z.lor (fld r_known usb_spec off n) (fld r_write usb_spec off n) = Z.ones (8 * n) → 0 <= M < 2 ^ (8 * n) →
  Z.land (fld r_known usb_spec off n) M = 0 →
  Z.lxor (rd f d off n) M = rd (wr g d off n (Z.lxor (rd f d off n) M)) d off n.
Proof using Type*.
  intros Hf Hg Hfull HM Hk. symmetry. apply (written_whole usb_spec); try done.
  - rewrite <- wrap_rd_lxor by done. apply wrap_range. lia.
  - by apply field_xor.
Qed.

Lemma good_26794 : good ("pci_rqmid_26794_PCIe_config_space_and_host_Command_Register_001", pci_rqmid_26794_PCIe_config_space_and_host_Command_Register_001).
Proof using Type*.
  case_run. split; [|keeps_conf]. verdict.
  1: by apply (written_whole usb_spec).
  all: reads; finish.
Qed.

Lemma good_26823 : good ("pci_rqmid_26823_PCIe_config_space_and_host_MSI_capability_structure_002", pci_rqmid_26823_PCIe_config_space_and_host_MSI_capability_structure_002).
Proof using Type*.
  case_run. rewrite (control_value f) by done. change (bit_set 128 (Z.shiftl 1 7)) with true. cbn beta iota.
  steps. split; [|keeps_conf]. verdict; (apply inverted_back; [| |by vm_compute|lia|by vm_compute]); shows_side.
Qed.

Lemma good_30960 : good ("pci_rqmid_30960_PCIe_config_space_and_host_Normal_Config_Address_Port_Write_001", pci_rqmid_30960_PCIe_config_space_and_host_Normal_Config_Address_Port_Write_001).
Proof using Type*. case_run. split; [by destruct (_ =? _)|keeps_conf]. Qed.

Lemma good_28884 : good ("pci_rqmid_28884_PCIe_config_space_and_host_MSI_message_address_destination_ID_read_write_002", pci_rqmid_28884_PCIe_config_space_and_host_MSI_message_address_destination_ID_read_write_002).
Proof using Type*.
  case_run. split; [|keeps_conf]. verdict. rewrite (written_rd usb_spec) by (done || by vm_compute). apply dest_field.
Qed.

Lemma good_27769 : good ("pci_rqmid_27769_PCIe_config_space_and_host_1_Byte_CFDH_Write_with_Enabled_Config_Address_001", pci_rqmid_27769_PCIe_config_space_and_host_1_Byte_CFDH_Write_with_Enabled_Config_Address_001 IN_NON_SAFETY_VM).
Proof using Type*.
  case_run. split; [|keeps_conf]. verdict. rewrite !second_byte by (done || lia). change (132 + 1) with 133.
  rewrite wrap_rd_lxor by lia. symmetry. apply inverted_back; [| |by vm_compute|lia|by vm_compute]; shows_side.
Qed.
(** *** The address port *)

(** The machine as the tests see it, with the address that is latched. *)
Lemma latched a e f s :
  TAt e f s →
  ∃ s', pio_write32 a PCI_CONFIG_ADDR s = Ret ((), s') ∧ TAt e f s' ∧ ∃ h, hw (t_util s') = cf_latch a h.
Proof using Type.
  intros Hs. pose proof (latch_wp a e f s Hs) as Hw. unfold wp in Hw.
  destruct (pio_write32 a PCI_CONFIG_ADDR s) as [[[] s']|] eqn:E; [|done]. exists s'. split; [done|].
  split; [apply Hw|]. exists (hw (t_util s)). revert E.
  unfold pio_write32, on_mach, on_util, on_hw, pio_write, zoom, PCI_CONFIG_ADDR. cbn. rewrite cf_out_addr.
  intros [= <-]. done.
Qed.

Lemma address_read (s : test_state St) :
  pio_read32 PCI_CONFIG_ADDR s = Ret (Z.ldiff (cf_addr (hw (t_util s))) 3, s).
Proof using Type*.
  destruct s as [? ? ? [? h]]. unfold pio_read32, on_mach, on_util, on_hw, pio_read, zoom, PCI_CONFIG_ADDR. cbn.
  by rewrite ap_read.
Qed.

Lemma narrow_read (n : nat) (s : test_state St) :
  (n = 1 ∨ n = 2)%nat → on_mach (pio_read PCI_CONFIG_ADDR n) s = Ret (Z.ones (8 * n), s).
Proof using Type*.
  intros Hn. destruct s as [? ? ? [? h]]. unfold on_mach, on_util, on_hw, zoom, PCI_CONFIG_ADDR. cbn.
  replace (pio_read 3320 n h) with (io_in n 3320 h) by (by destruct Hn as [-> | ->]). by rewrite ap_narrow_read.
Qed.

Lemma narrow_write v (n : nat) (s : test_state St) :
  (n = 1 ∨ n = 2)%nat → on_mach (pio_write v PCI_CONFIG_ADDR n) s = Ret ((), s).
Proof using Type*.
  intros Hn. destruct s as [? ? ? [? h]]. unfold on_mach, on_util, on_hw, zoom, PCI_CONFIG_ADDR. cbn.
  destruct Hn as [-> | ->]; cbn [pio_write]; rewrite ap_narrow_write; auto.
Qed.

(** A step that leaves the machine as it is. *)
Lemma tw_same {A} (m : tprog A) a (Q : A → store → Prop) e f :
  (∀ s, m s = Ret (a s, s)) → (∀ s, TAt e f s → Q (a s) f) → tw m Q e f.
Proof using Type. intros Hm HQ s Hs. eapply wp_exact; [apply Hm|]. eauto. Qed.

Lemma tw_address_back {A} a (k : Z → tprog A) (Q : A → store → Prop) e f :
  tw (k (Z.ldiff a 3)) Q e f → tw (pio_write32 a PCI_CONFIG_ADDR;; pio_read32 PCI_CONFIG_ADDR ≫= k) Q e f.
Proof using Type*.
  intros Hk s Hs. destruct (latched a e f s Hs) as (s' & E & Hs' & h & Eh).
  wstep. eapply wp_exact; [exact E|]. wstep. eapply wp_exact; [apply address_read|].
  rewrite Eh, cf_addr_latch. by apply Hk.
Qed.

(** The register EAX after the address has been written; what is read from the
    data port then is lost. *)
Lemma tw_eax a (k : Z → tprog bool) (Q : bool → store → Prop) e f :
  tw (k a) Q e f →
  tw (pio_write32 a PCI_CONFIG_ADDR;; r ← on_mach op_eax; pio_read32 PCI_CONFIG_DATA;; k r) Q e f.
Proof using Type*.
  intros Hk s Hs. destruct (latched a e f s Hs) as (s' & E & Hs' & h & Eh).
  wstep. eapply wp_exact; [exact E|]. wstep.
  assert (on_mach op_eax s' = Ret (a, s')) as E2.
  { destruct s' as [? ? ? [? h']]. cbn in Eh. subst h'. unfold on_mach, on_util, on_hw, zoom. cbn. by rewrite eax_latch. }
  eapply wp_exact; [exact E2|]. wstep.
  assert (∃ v, pio_read32 PCI_CONFIG_DATA s' = Ret (v, s')) as [v E3].
  { destruct s' as [? ? ? [? h']]. eexists. unfold pio_read32, on_mach, on_util, on_hw, pio_read, zoom. cbn.
    change PCI_CONFIG_DATA with (0xCFC + 0). by rewrite cf_in_data by lia. }
  eapply wp_exact; [exact E3|]. by apply Hk.
Qed.

Lemma address_kept (n : nat) msb (c : Z → Z) :
  (n = 1 ∨ n = 2)%nat → (∃ mask, shift_mask (u8 msb) (u8 0) = Ret mask) →
  ok f0 d mode (addr0 ← pio_read32 PCI_CONFIG_ADDR; m ← SHIFT_MASK msb 0;
    on_mach (pio_write (c (Z.lxor addr0 m)) PCI_CONFIG_ADDR n);;
    addr1 ← pio_read32 PCI_CONFIG_ADDR; mret (addr0 =? addr1)).
Proof using Type*.
  intros Hn [mask Hmask] e f He _ Hc s Hs. wstep. eapply wp_exact; [apply address_read|]. wstep.
  eapply wp_exact; [by unfold SHIFT_MASK, lift; rewrite Hmask|]. wstep. eapply wp_exact; [by apply narrow_write|].
  wstep. eapply wp_exact; [apply address_read|]. wstep. exists f. rewrite Z.eqb_refl. done.
Qed.

Lemma good_27790 : good ("pci_rqmid_27790_PCIe_config_space_and_host_2_Byte_Config_Address_Port_Write_001", pci_rqmid_27790_PCIe_config_space_and_host_2_Byte_Config_Address_Port_Write_001).
Proof using Type*. eexists. split; [reflexivity|]. apply (address_kept 2 15 u16); [auto|]. by eexists; vm_compute. Qed.
Lemma good_27791 : good ("pci_rqmid_27791_PCIe_config_space_and_host_1_Byte_Config_Address_Port_Write_001", pci_rqmid_27791_PCIe_config_space_and_host_1_Byte_Config_Address_Port_Write_001).
Proof using Type*. eexists. split; [reflexivity|]. apply (address_kept 1 7 u8); [auto|]. by eexists; vm_compute. Qed.
Lemma good_27792 : good ("pci_rqmid_27792_PCIe_config_space_and_host_2_Byte_Config_Address_Port_Read_001", pci_rqmid_27792_PCIe_config_space_and_host_2_Byte_Config_Address_Port_Read_001).
Proof using Type*.
  eexists. split; [reflexivity|]. intros e f He Hmo Hc. tstep. eapply tw_same; [intros s; apply narrow_read; auto|].
  intros s _. by apply tw_ret.
Qed.
Lemma good_27793 : good ("pci_rqmid_27793_PCIe_config_space_and_host_1_Byte_Config_Address_Port_Read_001", pci_rqmid_27793_PCIe_config_space_and_host_1_Byte_Config_Address_Port_Read_001).
Proof using Type*.
  eexists. split; [reflexivity|]. intros e f He Hmo Hc. tstep. eapply tw_same; [intros s; apply narrow_read; auto|].
  intros s _. by apply tw_ret.
Qed.

Lemma good_31161 : good ("pci_rqmid_31161_PCIe_config_space_and_host_Normal_Config_Address_Port_Read_001", pci_rqmid_31161_PCIe_config_space_and_host_Normal_Config_Address_Port_Read_001 IN_NON_SAFETY_VM).
Proof using Type*.
  eexists; split; [reflexivity|]; case_start. unfold DEV_VENDOR. tstep. apply tw_eax. tstep.
  split; [apply Z.eqb_refl|exact Hc].
Qed.
Lemma address_read_back off c e f :
  0 <= off < 256 →
  tw (let reg_val := pci_pdev_calc_address d off in
      pio_write32 reg_val PCI_CONFIG_ADDR;;
      reg_val1 ← pio_read32 PCI_CONFIG_ADDR;
      m ← SHIFT_UMASK 1 0;
      mret (if Z.land reg_val m =? reg_val1 then c + 1 else c)) (λ r f', r = c + 1 ∧ f' = f) e f.
Proof using Type*.
  intros Ho. cbn zeta. apply tw_address_back. tstep. eapply tw_umask; [by vm_compute|]. tstep.
  rewrite calc_address, conf1_address by lia. set (x := 2 ^ 31 + d * 256 + off).
  assert (Z.land x 18446744073709551612 = Z.ldiff x 3) as ->; [|by rewrite Z.eqb_refl].
  rewrite <- (wrap_small 64 x) by lia. change 18446744073709551612 with (Z.ldiff (Z.ones 64) (Z.ones 2)).
  change 3 with (Z.ones 2). zbits_intro i. zcases; cbn; rewrite ?andb_true_r, ?andb_false_r; done || lia.
Qed.

Lemma good_25292 : good ("pci_rqmid_25292_PCIe_config_space_and_host_Config_Address_Port_001", pci_rqmid_25292_PCIe_config_space_and_host_Config_Address_Port_001 IN_NON_SAFETY_VM).
Proof using Type*.
  eexists; split; [reflexivity|]; case_start. unfold DEV_VENDOR. tstep. tstep. cbn [for_up].
  do 4 (apply tw_bind; eapply tw_mono; [apply address_read_back; unfold PCI_BASE_ADDRESS_0; lia|]; intros ? ? [-> ->]).
  steps. done.
Qed.
Lemma kept_eq f off n :
  rd (wr f d off n (Z.ones (8 * n))) d off n = rd f d off n → kept f d (off, n) = true.
Proof using Type.
  rewrite rd_wr. intros H. unfold kept. cbn [fst snd]. apply Z.eqb_eq. rewrite <- H at 2. do 2 f_equal.
  unfold wrap. rewrite Z.mod_small; [done|]. rewrite Z.ones_equiv. assert (0 < 2 ^ (8 * n)) by (apply Z.pow_pos_nonneg; lia). lia.
Qed.

Lemma good_38095 : good ("pci_rqmid_38095_PCIe_config_space_and_host_PCI_configuration_header_register_USB_001", pci_rqmid_38095_PCIe_config_space_and_host_PCI_configuration_header_register_USB_001).
Proof using Type*.
  case_run. eapply tw_mono.
  - apply (count_read_only_tw (conf f0 d) d header_regs 0 e f f); [done|apply header_regs_ok|apply header_regs_apart| |done|done].
    intros x v g Hin Hg. unfold header_regs in Hin. pose proof (cf_usb _ _ _ Hg).
    repeat (apply elem_of_cons in Hin as [->|Hin]; [cbn [fst snd]; keeps_conf|]). by apply elem_of_nil in Hin.
  - intros r f' [-> Hf']. apply tw_ret. split; [|done]. apply Z.eqb_eq. rewrite Z.add_0_l. f_equal.
    apply filter_all. intros x Hin. unfold header_regs in Hin.
    repeat (apply elem_of_cons in Hin as [->|Hin];
      [apply kept_eq; first [by apply (fixed_all usb_spec) | reads; finish]|]). by apply elem_of_nil in Hin.
Qed.
(** *** The host bridge *)

Lemma conf_wr_host f off n v : conf f0 d f → conf f0 d (wr f 0 off n v).
Proof using Type*.
  intros Hc. assert (d ≠ 0) as Hne by lia. constructor.
  - apply shows_wr; [done|]. by eapply cf_usb.
  - apply shows_wr; [done|]. by eapply cf_host.
  - rewrite rd_wr_other by (by left). by eapply cf_enable.
  - rewrite rd_wr_other by (by left). by eapply cf_modes.
  - intros d' r H1 H2. unfold wr. rewrite (proj2 (Z.eqb_neq d' 0) H2). by eapply cf_others.
Qed.

Definition bridge_reg_ok (r : pci_cfg_reg) : bool :=
  field_okb (reg_addr r) (reg_width r) && (reg_width r <=? 4)%nat &&
  (fld r_fixed host_spec (reg_addr r) (reg_width r) =? Z.ones (8 * reg_width r)).

Lemma bridge_loop_tw regs e f :
  forallb bridge_reg_ok regs = true → conf f0 d f →
  tw (bridge_loop 0 regs OK) (λ ret f', ret = OK ∧ conf f0 d f') e f.
Proof using Type*.
  revert f. induction regs as [|r regs IH]; intros f Hok Hc; cbn [bridge_loop]; [by apply tw_ret|].
  cbn [forallb] in Hok. apply andb_true_iff in Hok as [Hr Hok]. unfold bridge_reg_ok in Hr.
  rewrite !andb_true_iff, Nat.leb_le, Z.eqb_eq in Hr. destruct Hr as [[Hf Hn] Hfix].
  assert (field_ok 0 (reg_addr r) (reg_width r)) by (by apply field_const).
  do 8 tstep. rewrite (fixed_all host_spec) by done.
  assert (pci_data_check (rd f 0 (reg_addr r) (reg_width r)) (rd f 0 (reg_addr r) (reg_width r)) false = OK) as ->
    by (apply Z.eqb_eq, check_same; done).
  apply IH; [done|]. by apply conf_wr_host.
Qed.

Lemma host_exists e (Q : bool → store → Prop) f : env_ok d e → Q true f → tw (dev_exists 0) Q e f.
Proof using Type. intros [_ Hx] HQ. by eapply tw_dev_exists. Qed.

Lemma good_27486 : good ("pci_rqmid_27486_PCIe_config_space_and_host_Hostbridge_readonly_001", pci_rqmid_27486_PCIe_config_space_and_host_Hostbridge_readonly_001).
Proof using Type*.
  eexists; split; [reflexivity|]. intros e f He _ Hc. tstep. apply host_exists; [done|]. tstep.
  eapply tw_mono; [apply bridge_loop_tw; [by vm_compute|done]|]. intros r f' [-> Hf']. by apply tw_ret.
Qed.

Lemma good_27474 : good ("pci_rqmid_27474_PCIe_config_space_and_host_Hostbridge_Header_Type_001", pci_rqmid_27474_PCIe_config_space_and_host_Hostbridge_Header_Type_001).
Proof using Type*.
  eexists; split; [reflexivity|]. intros e f He _ Hc. tstep. apply host_exists; [done|]. tsteps. split; [|done].
  rewrite (known_all host_spec) by first [by eapply cf_host | by vm_compute]. by vm_compute.
Qed.

Lemma good_27475 : good ("pci_rqmid_27475_PCIe_config_space_and_host_Hostbridge_Class_Code_001", pci_rqmid_27475_PCIe_config_space_and_host_Hostbridge_Class_Code_001).
Proof using Type*.
  eexists; split; [reflexivity|]. intros e f He _ Hc. tstep. apply host_exists; [done|]. tsteps. split; [|done].
  rewrite !(known_all host_spec) by first [by eapply cf_host | by vm_compute]. by vm_compute.
Qed.
(** *** Runs of cases *)

Lemma port_cases_good : Forall good port_cases.
Proof using Type*.
  unfold port_cases. repeat (apply Forall_cons; split); [..|done].
  all: first [apply good_25292 | apply good_27769 | apply good_27791 | apply good_27790 | apply good_30960
             | apply good_27793 | apply good_27792 | apply good_31161 | case_ok].
Qed.

Lemma msi_cases_good : Forall good msi_cases.
Proof using Type*.
  unfold msi_cases. repeat (apply Forall_cons; split); [..|done].
  all: first [apply good_26821 | apply good_26823 | apply good_28884 | case_ok].
Qed.

Lemma register_cases_good stack1 stack2 : Forall good (take 8 (register_cases stack1 stack2)).
Proof using Type*.
  unfold register_cases. cbn [take]. repeat (apply Forall_cons; split); [..|done].
  all: first [apply good_38095 | apply good_26794 | case_ok].
Qed.

Lemma mmio_cases_good : Forall good mmio_cases.
Proof using Type*.
  unfold mmio_cases. repeat (apply Forall_cons; split); [apply good_26821|apply good_26823|done].
Qed.
End Batch.

(** ** The enumeration, on the registers *)

Section Functions.
Context {St : Type} {io : PortIO St} {ops : TestOps St} {laws : Conf1Laws St} {rl : RegLaws St}.

Definition answers (f : store) (b : Z) : bool :=
  negb (rd f b PCI_VENDOR_ID 2 =? 0xFFFF) && negb (rd f b PCI_DEVICE_ID 2 =? 0xFFFF).
Definition function_entry (f : store) (b : Z) : util_dev :=
  UDev b (rd f b PCI_VENDOR_ID 2) (rd f b PCI_DEVICE_ID 2).
Definition functions_of (f : store) (l : list Z) : list util_dev :=
  function_entry f <$> filter (λ b, answers f b = true) l.

(** The functions that answer, in order. *)
Definition functions (f : store) : list util_dev := functions_of f (seqZ 0 65536).

Lemma functions_of_ext f g l :
  (∀ b, b ∈ l → rd f b PCI_VENDOR_ID 2 = rd g b PCI_VENDOR_ID 2 ∧ rd f b PCI_DEVICE_ID 2 = rd g b PCI_DEVICE_ID 2) →
  functions_of f l = functions_of g l.
Proof using Type.
  unfold functions_of. induction l as [|b l IH]; intros H; [done|].
  destruct (H b) as [E1 E2]; [by left|]. specialize (IH (λ c Hc, H c (list_elem_of_further _ _ _ Hc))).
  assert (answers f b = answers g b) as E by (unfold answers; by rewrite E1, E2).
  rewrite !filter_cons. destruct (decide (answers f b = true)), (decide (answers g b = true)); try congruence.
  cbn [fmap list_fmap]. rewrite IH. f_equal. unfold function_entry. by rewrite E1, E2.
Qed.

Lemma holds_get f h b off (n : nat) :
  holds f h → field_ok b off n → cfg_get h b off n = rd f b off n.
Proof using Type.
  intros Hh Hf. pose proof Hf as [Hok _]. pose proof Hok as (Hb & Ho & _).
  unfold cfg_get. rewrite (data_off_field b off n Hf), (wrap_small 8 off) by lia. rewrite reg_cf_val by done.
  by rewrite (Hh b (off / 4)) by (done || dlia).
Qed.

Lemma entries_holds f h l :
  holds f h → (∀ b, b ∈ l → 0 <= b < 2 ^ 16) →
  dev_entry h <$> filter (λ b, present h b = true) l = functions_of f l.
Proof using Type.
  intros Hh. unfold functions_of. induction l as [|b l IH]; intros H; [done|].
  assert (0 <= b < 2 ^ 16) as Hb by (apply H; by left).
  specialize (IH (λ c Hc, H c (list_elem_of_further _ _ _ Hc))).
  assert (cfg_get h b PCI_VENDOR_ID 2 = rd f b PCI_VENDOR_ID 2) as E1 by (apply holds_get; [done|by apply field_const]).
  assert (cfg_get h b PCI_DEVICE_ID 2 = rd f b PCI_DEVICE_ID 2) as E2 by (apply holds_get; [done|by apply field_const]).
  assert (present h b = answers f b) as E by (unfold present, answers; by rewrite E1, E2).
  rewrite !filter_cons. destruct (decide (present h b = true)), (decide (answers f b = true)); try congruence.
  cbn [fmap list_fmap]. rewrite IH. f_equal. unfold dev_entry, function_entry. by rewrite E1, E2.
Qed.

Lemma elem_of_functions f x :
  x ∈ functions f ↔ ∃ b, x = function_entry f b ∧ 0 <= b < 2 ^ 16 ∧ answers f b = true.
Proof using Type.
  unfold functions, functions_of. rewrite list_elem_of_fmap. setoid_rewrite list_elem_of_filter.
  setoid_rewrite elem_of_seqZ. split; intros (b & -> & H); exists b; split; try done; [split; [lia|tauto]|].
  split; [tauto|lia].
Qed.

(** The whole machine is as it was, and the array has the functions that answer. *)
Context {X : Type} (rest : St → X) {kr : KeepsRest rest}.

Lemma enumerate_func_at nr n0 bus dev func x f z u :
  nr <= Z.of_nat n0 → 0 <= bus < 256 → 0 <= dev < 32 → 0 <= func < 8 → length x.1 = n0 → At rest 0 f z u →
  wp (enumerate_func nr bus dev func x) (λ x' u', length x'.1 = n0 ∧ At rest 0 f z u') u.
Proof using Type*.
  intros Hnr Hb Hd Hf Hl Hu. destruct x as [l i]. cbn [fst] in Hl.
  assert (0 <= pci_bdf bus dev func < 2 ^ 16) as Hbdf.
  { unfold pci_bdf. rewrite !wrap_small, !Z.shiftl_mul_pow2 by lia. rewrite lor_add by lia.
    replace (bus * 2 ^ 8 + dev * 2 ^ 3) with ((bus * 32 + dev) * 2 ^ 3) by lia. rewrite lor_add by lia. lia. }
  unfold enumerate_func. wstep. eapply (read_cfg_at rest); [by apply field_const|exact Hu|]. intros u1 H1.
  wstep. eapply (read_cfg_at rest); [by apply field_const|exact H1|]. intros u2 H2.
  destruct (_ && _) eqn:E; [|by wstep]. apply andb_true_iff in E as [_ E%Z.ltb_lt].
  destruct (Z.leb_spec (Z.of_nat (length l)) i); [lia|]. wstep. cbn [fst]. by rewrite length_insert.
Qed.

Lemma enumerate_keeps nr devs f z u :
  nr <= Z.of_nat (length devs) → At rest 0 f z u →
  wp (pci_pdev_enumerate_dev devs nr) (λ _ u', At rest 0 f z u') u.
Proof using Type*.
  intros Hnr Hu. unfold pci_pdev_enumerate_dev.
  set (I := λ (_ : Z) (x : list util_dev * Z) u', length x.1 = length devs ∧ At rest 0 f z u').
  apply (wp_for_up I); [|done|by intros x u' [_ ?]].
  intros bus x1 u1 Hb H1. apply (wp_for_up I); [|done|done].
  intros dev x2 u2 Hdev H2. apply (wp_for_up I); [|done|done].
  intros func x3 u3 Hfunc [H3 H4]. unfold BUS_NUM, DEV_NUM, FUNC_NUM in *. apply enumerate_func_at; done || lia.
Qed.

Lemma enumerate_at nr devs f z u :
  0 <= nr < 2 ^ 32 → nr <= Z.of_nat (length devs) → Z.of_nat (length (functions f)) <= nr → At rest 0 f z u →
  wp (pci_pdev_enumerate_dev devs nr)
    (λ x u', x = (functions f ++ drop (length (functions f)) devs, Z.of_nat (length (functions f))) ∧
       At rest 0 f z u') u.
Proof using Type*.
  intros Hnr Hlen Hfit Hu. pose proof Hu as (_ & Em & Hh & _).
  eapply wp_mono; [apply wp_and; [by apply enumerate_wp|by apply enumerate_keeps]|].
  intros [l i] u' [[_ [H2 H1]] Hu']. split; [|done].
  assert (entries (hw u) 65536 = functions f) as E.
  { unfold entries, functions. apply entries_holds; [done|]. intros b Hb%elem_of_seqZ. lia. }
  rewrite E in H1, H2. rewrite take_ge in H1, H2 by lia. cbn [fst snd] in *. by rewrite H1, H2.
Qed.
End Functions.

(** ** The whole program *)

Section Suite.
Context {St : Type} {io : PortIO St} {ops : TestOps St} {laws : Conf1Laws St} {rl : RegLaws St}
  {tl : TestLaws St} {po : PortsOff St} {ap : AddressPort St} {ex : EaxLaw St}.
Context (f0 : store) (d : Z).
Context (Hd : 0 < d < 2 ^ 16) (Husb : meets usb_spec d) (Hhost : meets host_spec 0) (Hconf : conf f0 d f0).
Context (Hfit : Z.of_nat (length (functions f0)) <= MAX_PCI_DEV_NUM).
Context (Hone : ∀ x, x ∈ functions f0 → DEV_VEN_of x = USB_DEV_VENDOR → u_bdf x = d).
#[local] Abbreviation tprog := (prog (test_state St)).
#[local] Abbreviation nr := (Z.of_nat (length (functions f0))).

Lemma conf_functions f : conf f0 d f → functions f = functions f0.
Proof using Hconf.
  intros Hc. unfold functions. apply functions_of_ext. intros b _.
  assert (∀ off, off = PCI_VENDOR_ID ∨ off = PCI_DEVICE_ID → rd f b off 2 = rd f0 b off 2) as E; [|auto].
  intros off Hoff. destruct (decide (b = d)) as [->|Hbd]; [|destruct (decide (b = 0)) as [->|Hb0]].
  - destruct Hoff as [-> | ->]; rewrite !(known_all usb_spec) by first [by eapply cf_usb | by vm_compute]; done.
  - destruct Hoff as [-> | ->]; rewrite !(known_all host_spec) by first [by eapply cf_host | by vm_compute]; done.
  - unfold rd. by rewrite (cf_others _ _ _ Hc).
Qed.

#[local] Opaque functions.

(** The two functions are among those that answer. *)
Lemma usb_function : function_entry f0 d ∈ functions f0 ∧ DEV_VEN_of (function_entry f0 d) = USB_DEV_VENDOR.
Proof using Hd Hconf.
  pose proof (cf_usb _ _ _ Hconf). unfold function_entry, DEV_VEN_of. cbn [vender_id device_id]. split.
  - apply elem_of_functions. exists d. split; [done|]. split; [lia|]. unfold answers.
    by rewrite !(known_all usb_spec) by first [done | by vm_compute].
  - by rewrite !(known_all usb_spec) by first [done | by vm_compute].
Qed.

Lemma host_function : function_entry f0 0 ∈ functions f0 ∧ DEV_VEN_of (function_entry f0 0) = HOSTBRIDGE_DEV_VENDOR.
Proof using Hconf.
  pose proof (cf_host _ _ _ Hconf). unfold function_entry, DEV_VEN_of. cbn [vender_id device_id]. split.
  - apply elem_of_functions. exists 0. split; [done|]. split; [lia|]. unfold answers.
    by rewrite !(known_all host_spec) by first [done | by vm_compute].
  - by rewrite !(known_all host_spec) by first [done | by vm_compute].
Qed.

(** What the program has after the enumeration. *)
Definition suite_env (m : Z) (log : list (string * bool)) (tail : list util_dev) (xb : Z) : env :=
  Env m log (functions f0 ++ tail) nr xb.

Lemma suite_finds m log tail xb : env_ok d (suite_env m log tail xb).
Proof using Hd Hconf Hone.
  unfold env_ok, finds, suite_env, get_pci_bdf_by_dev_vendor, is_dev_exist_by_bdf. cbn [e_devs e_nr].
  rewrite Nat2Z.id. split.
  - rewrite (find_dev_spec _ (λ x, DEV_VEN_of x = USB_DEV_VENDOR)), take_app_length
      by (rewrite ?length_app; lia || (intros; apply Z.eqb_eq)).
    destruct usb_function as [H1 H2]. destruct (filter _ (functions f0)) as [|x l] eqn:E.
    + assert (function_entry f0 d ∈ filter (λ x, DEV_VEN_of x = USB_DEV_VENDOR) (functions f0)) as Hin
        by (by apply list_elem_of_filter).
      rewrite E in Hin. by apply elem_of_nil in Hin.
    + assert (x ∈ filter (λ x, DEV_VEN_of x = USB_DEV_VENDOR) (functions f0)) as Hin by (rewrite E; by left).
      apply list_elem_of_filter in Hin as [Hx1 Hx2]. cbn. by rewrite (Hone x).
  - rewrite (find_dev_spec _ (λ x, u_bdf x = 0)), take_app_length
      by (rewrite ?length_app; lia || (intros; apply Z.eqb_eq)).
    apply found_head. exists (function_entry f0 0). split; [apply host_function|done].
Qed.

(** *** The cases that enumerate again *)

Lemma exists_function tail id :
  (∃ x, x ∈ functions f0 ∧ DEV_VEN_of x = id) → is_dev_exist_by_dev_vendor (functions f0 ++ tail) nr id = Ret (Some ()).
Proof using Type.
  intros H. unfold is_dev_exist_by_dev_vendor. rewrite Nat2Z.id.
  rewrite (find_dev_spec _ (λ x, DEV_VEN_of x = id)), take_app_length
    by (rewrite ?length_app; lia || (intros; apply Z.eqb_eq)).
  by apply found_head.
Qed.

Lemma enumerate_and_find_tw stack ids e f (Q : Z → store → Prop) :
  length stack = Z.to_nat MAX_PCI_DEV_NUM → e_mode e = 0 → conf f0 d f →
  (∀ id, id ∈ ids → ∃ x, x ∈ functions f0 ∧ DEV_VEN_of x = id) → Q (length ids) f →
  tw (enumerate_and_find stack ids) Q e f.
Proof using Hconf Hfit.
  intros Hs Hmode Hc Hids HQ s [Hu Hr]. rewrite Hmode in Hu. unfold enumerate_and_find, on_util. wstep. wstep.
  pose proof (conf_functions f Hc) as E.
  eapply wp_mono; [apply (enumerate_at verdicts);
    [by unfold MAX_PCI_DEV_NUM|by rewrite Hs|by rewrite E|exact Hu]|].
  intros x u' [-> Hu']. cbn beta iota. rewrite E. match goal with |- context [lift (?g ids 0)] => set (count := g) end.
  assert (∀ n, count ids n = Ret (n + length ids)) as Hcount.
  { clear HQ. induction ids as [|id ids IH]; intros n; cbn [length]; [unfold count; f_equal; lia|].
    change (count (id :: ids) n) with
      (match is_dev_exist_by_dev_vendor (functions f0 ++ drop (length (functions f0)) stack) nr id with
       | Ret r => count ids (if r then n + 1 else n) | Stop e => Stop e end).
    rewrite exists_function by (apply Hids; by left). rewrite IH; [f_equal; lia|].
    intros id' Hid'. apply Hids. by right. }
  unfold wp, lift. rewrite Hcount, Z.add_0_l. exists f. split; [|done]. split; [|done]. by rewrite Hmode.
Qed.

Lemma good_38288 stack :
  length stack = Z.to_nat MAX_PCI_DEV_NUM → good f0 d 0 ("pci_rqmid_38288_PCIe_config_space_and_host_PCI_Configuration_Space_Header_001", pci_rqmid_38288_PCIe_config_space_and_host_PCI_Configuration_Space_Header_001 IN_NON_SAFETY_VM stack).
Proof using Hd Hconf Hfit.
  intros Hs. eexists. split; [reflexivity|]. intros e f _ Hm Hc. tstep.
  apply enumerate_and_find_tw; [done|done|done| |by tstep].
  intros id [->|[->|[]%elem_of_nil]%elem_of_cons]%elem_of_cons;
    eexists; [exact host_function|exact usb_function].
Qed.

Lemma good_38297 stack :
  length stack = Z.to_nat MAX_PCI_DEV_NUM → good f0 d 0 ("pci_rqmid_38297_PCIe_config_space_and_host_Assumption_of_PCI_devices_assigned_001", pci_rqmid_38297_PCIe_config_space_and_host_Assumption_of_PCI_devices_assigned_001 stack).
Proof using Hd Hconf Hfit.
  intros Hs. eexists. split; [reflexivity|]. intros e f _ Hm Hc. tstep.
  apply enumerate_and_find_tw; [done|done|done| |by tstep].
  intros id [->|[]%elem_of_nil]%elem_of_cons; eexists; exact host_function.
Qed.
Lemma all_register_cases_good stack1 stack2 :
  length stack1 = Z.to_nat MAX_PCI_DEV_NUM → length stack2 = Z.to_nat MAX_PCI_DEV_NUM →
  Forall (good f0 d 0) (register_cases stack1 stack2).
Proof using Type*.
  intros H1 H2. rewrite <- (take_drop 8 (register_cases stack1 stack2)). apply Forall_app. split.
  - by apply register_cases_good.
  - repeat (apply Forall_cons; split); [by apply good_38288|by apply good_38297|done].
Qed.

(** *** Runs of cases *)

Definition verdicts_of (cases : list (string * tprog unit)) : list (string * bool) := (λ x, (x.1, true)) <$> cases.

Lemma run_cases_wp m cases log tail xb f s :
  Forall (good f0 d m) cases → conf f0 d f → TAt (suite_env m log tail xb) f s →
  wp (run_cases cases)
    (λ _ s', ∃ f', conf f0 d f' ∧ TAt (suite_env m (log ++ verdicts_of cases) tail xb) f' s') s.
Proof using Hd Hconf Hone.
  intros Hall. revert log f s. induction Hall as [|[name c] cases (body & Hc & Hok) _ IH]; intros log f s Hf Hs.
  - unfold run_cases. wstep. exists f. unfold verdicts_of. cbn [fmap list_fmap]. by rewrite app_nil_r.
  - cbn [run_cases fst snd] in *. rewrite Hc. wstep.
    eapply wp_mono; [eapply report_case_wp; [|exact Hs]; apply Hok; [apply suite_finds|done|done]|].
    cbn beta. intros _ s' (b & f' & [-> Hf'] & Hs').
    eapply wp_mono; [eapply (IH _ f'); [done|exact Hs']|]. cbn beta. intros _ s2 (f2 & Hf2 & Hs2).
    exists f2. split; [done|]. unfold verdicts_of in *. cbn [fmap list_fmap fst]. by rewrite <- app_assoc in Hs2.
Qed.

Lemma XBAR_wp log tail xb f s :
  conf f0 d f → TAt (suite_env 0 log tail xb) f s →
  wp pci_rqmid_PCIe_config_space_and_host_Hostbridge_XBAR (λ _, TAt (suite_env 0 (log ++ [("pci_rqmid_PCIe_config_space_and_host_Hostbridge_XBAR", true)]) tail 0xE0000000) f) s.
Proof using Hd Hconf Hone.
  intros Hc Hs. unfold pci_rqmid_PCIe_config_space_and_host_Hostbridge_XBAR, report_case. wstep. wstep.
  eapply wp_mono; [eapply (tw_dev_exists 0 _ (λ b g, b = true ∧ g = f)); [apply suite_finds|done|exact Hs]|].
  intros b s1 (g & Hs1 & -> & ->). wstep.
  eapply wp_mono; [eapply (tw_read 0 0x60 4 (λ v g, v = rd f 0 0x60 4 ∧ g = f)); [by apply field_const|done|exact Hs1]|].
  intros v s2 (g & Hs2 & -> & ->). rewrite (known_all host_spec) by first [by eapply cf_host | by vm_compute].
  change (fld r_value host_spec 0x60 4) with 0xe0000001. wstep. wstep. wstep.
  change (Z.land 0xe0000001 0xFFFFFFFE) with 0xe0000000. change (0xe0000001 =? 0xe0000001) with true.
  apply (report_wp _ true (suite_env 0 log tail 0xe0000000)).
  destruct Hs2 as (Hu & E1 & E2 & E3). split; [exact Hu|]. split; [exact E1|]. split; [exact E2|done].
Qed.

Lemma set_mmcfg_wp m m' log tail xb f s :
  mode_ok m' → TAt (suite_env m log tail xb) f s →
  wp (on_util (pci_set_mmcfg_addr m')) (λ _, TAt (suite_env m' log tail xb) f) s.
Proof using Type.
  intros Hm' [(Hm & Eu & Hh & Hl) Hr]. unfold on_util, pci_set_mmcfg_addr. wstep. wstep.
  split; [|exact Hr]. split; [exact Hm'|]. split; [done|]. split; [exact Hh|exact Hl].
Qed.

Lemma bridge_cases_wp log tail xb f s :
  conf f0 d f → TAt (suite_env 0 log tail xb) f s →
  wp (run_cases bridge_cases)
    (λ _ s', ∃ f', conf f0 d f' ∧ TAt (suite_env 0 (log ++ verdicts_of bridge_cases) tail 0xE0000000) f' s') s.
Proof using Type*.
  intros Hf Hs. unfold bridge_cases. cbn [run_cases]. wstep. eapply wp_mono; [by eapply XBAR_wp|].
  cbn beta. intros _ s1 Hs1.
  eapply wp_mono; [eapply (run_cases_wp 0 [("pci_rqmid_27486_PCIe_config_space_and_host_Hostbridge_readonly_001", pci_rqmid_27486_PCIe_config_space_and_host_Hostbridge_readonly_001); ("pci_rqmid_27474_PCIe_config_space_and_host_Hostbridge_Header_Type_001", pci_rqmid_27474_PCIe_config_space_and_host_Hostbridge_Header_Type_001); ("pci_rqmid_27475_PCIe_config_space_and_host_Hostbridge_Class_Code_001", pci_rqmid_27475_PCIe_config_space_and_host_Hostbridge_Class_Code_001)] _ _ _ f); [|done|exact Hs1]|].
  - repeat (apply Forall_cons; split); [by apply good_27486|by apply good_27474|by apply good_27475|done].
  - cbn beta. intros _ s2 (f2 & Hf2 & Hs2). exists f2. split; [done|]. by rewrite <- app_assoc in Hs2.
Qed.

(** C12: on a machine whose USB controller and host bridge have the registers that
    the cases require, and where no other function has the identifiers of the
    controller, the program finds all functions, every case it runs reports
    success, in the order of the program, the last two by memory-mapped
    accesses, and [main] returns 0; the two functions meet the requirements
    afterwards and the registers of the others are as before. *)
Theorem main_conforming stack1 stack2 devs xb s :
  length stack1 = Z.to_nat MAX_PCI_DEV_NUM → length stack2 = Z.to_nat MAX_PCI_DEV_NUM →
  length devs = Z.to_nat MAX_PCI_DEV_NUM → ecam = 0xE0000000 →
  TAt (Env 0 [] devs MAX_PCI_DEV_NUM xb) f0 s →
  wp (main stack1 stack2)
    (λ r s', r = 0 ∧ ∃ f', conf f0 d f' ∧
       TAt (Env 0 (verdicts_of (bridge_cases ++ port_cases ++ register_cases stack1 stack2 ++ msi_cases ++ mmio_cases))
                (functions f0 ++ drop (length (functions f0)) devs) nr 0xE0000000) f' s') s.
Proof using Type*.
  intros H1 H2 H3 Hecam [Hu (E1 & E2 & E3)]. cbn [e_mode e_log e_devs e_nr e_xbar] in *. unfold main. wstep. wstep. rewrite E1, E2. wstep. unfold on_util at 1.
  wstep. eapply wp_mono; [apply (enumerate_at verdicts); [done|by rewrite H3|done|exact Hu]|].
  intros x u' [-> Hu']. cbn beta iota. wstep. wstep.
  assert (nr ≠ 0) as Hnr.
  { destruct usb_function as [Hin _]. destruct (functions f0); [by apply elem_of_nil in Hin|done]. }
  destruct (Z.eqb_spec nr 0) as [?|_]; [done|]. set (tail := drop _ devs).
  assert (TAt (suite_env 0 [] tail xb) f0 (TState (functions f0 ++ tail) nr xb u')) as Hs0.
  { split; [exact Hu'|done]. }
  cbn [xbar t_util] in *. rewrite E3.
  wstep. eapply wp_mono; [by apply (bridge_cases_wp [] tail xb f0)|]. cbn beta. intros _ s1 (f1 & Hf1 & Hs1).
  wstep. eapply wp_mono; [eapply (run_cases_wp 0 port_cases _ _ _ f1); [by apply port_cases_good|done|exact Hs1]|].
  cbn beta. intros _ s2 (f2 & Hf2 & Hs2).
  wstep. eapply wp_mono;
    [eapply (run_cases_wp 0 (register_cases stack1 stack2) _ _ _ f2); [by apply all_register_cases_good|done|exact Hs2]|].
  cbn beta. intros _ s3 (f3 & Hf3 & Hs3).
  wstep. eapply wp_mono; [eapply (run_cases_wp 0 msi_cases _ _ _ f3); [by apply msi_cases_good|done|exact Hs3]|].
  cbn beta. intros _ s4 (f4 & Hf4 & Hs4). wstep. wstep.
  assert (xbar s4 = ecam) as -> by (destruct Hs4 as (_ & _ & _ & ->); done).
  wstep. eapply wp_mono; [eapply set_mmcfg_wp; [by right|exact Hs4]|]. cbn beta. intros _ s5 Hs5.
  wstep. eapply wp_mono; [eapply (run_cases_wp ecam mmio_cases _ _ _ f4); [by apply mmio_cases_good|done|exact Hs5]|].
  cbn beta. intros _ s6 (f6 & Hf6 & Hs6).
  wstep. eapply wp_mono; [eapply set_mmcfg_wp; [by left|exact Hs6]|]. cbn beta. intros _ s7 Hs7.
  wstep. split; [done|]. exists f6. split; [done|].
  unfold verdicts_of in *. rewrite !fmap_app. rewrite <- !app_assoc in Hs7. exact Hs7.
Qed.
End Suite.

(** ** A machine that meets the requirements *)

(** A host bridge and a USB controller at 0x20. *)
Definition suite_rw : store := λ d r, if d =? 0x20 then r_write (usb_spec r) else 0.
Definition suite_w1c : store := λ _ _, 0.

#[local] Instance suite_io : PortIO bus := bus_io suite_rw suite_w1c.
#[local] Instance suite_ops : TestOps bus := bus_ops.
#[local] Instance suite_conf1 : Conf1Laws bus := bus_conf1 suite_rw suite_w1c.
#[local] Instance suite_laws : RegLaws bus := bus_laws suite_rw suite_w1c.
#[local] Instance suite_tests : TestLaws bus := bus_tests suite_rw suite_w1c.
#[local] Instance suite_off : PortsOff bus := bus_off suite_rw suite_w1c.
#[local] Instance suite_address : AddressPort bus := bus_address suite_rw suite_w1c.
#[local] Instance suite_eax : EaxLaw bus := {| eax_latch v s := eq_refl |}.

Definition suite_regs : list (Z * Z) :=
  [(bus_key 0 0, 0x191F8086); (bus_key 0 2, 0x06000000); (bus_key 0 3, 0); (bus_key 0 24, 0xe0000001);
   (bus_key 0x20 0, 0xa12f8086); (bus_key 0x20 1, 0x02900000); (bus_key 0x20 2, 0x0C033031);
   (bus_key 0x20 3, 0x800000); (bus_key 0x20 4, 0xDF000004); (bus_key 0x20 13, 0x80); (bus_key 0x20 15, 0xFF);
   (bus_key 0x20 32, 0x00800005); (bus_key 0x20 33, 0xFEE00000); (bus_key 0x20 34, 0); (bus_key 0x20 35, 0)].
Definition suite_bus : bus := Bus 0 (list_to_map suite_regs) [].
Definition suite_stack : list util_dev := replicate (Z.to_nat MAX_PCI_DEV_NUM) (UDev 0 0 0).
Definition suite_state : test_state bus := TState suite_stack MAX_PCI_DEV_NUM 0 (UState 0 suite_bus).

Lemma suite_meets_usb : meets usb_spec 0x20.
Proof.
  constructor; intros r; unfold rw_mask, w1c_mask, suite_laws, bus_laws, suite_rw, suite_w1c;
    change (0x20 =? 0x20) with true; cbn iota; rewrite ?Z.land_0_r, ?Z.land_0_l, ?Z.lor_0_r, ?Z.land_diag; [done| |done|];
    unfold usb_spec; repeat case_match; done.
Qed.

Lemma suite_meets_host : meets host_spec 0.
Proof.
  constructor; intros r; unfold rw_mask, w1c_mask, suite_laws, bus_laws, suite_rw, suite_w1c;
    change (0 =? 0x20) with false; cbn iota; rewrite ?Z.land_0_r, ?Z.land_0_l; try done;
    unfold host_spec; repeat case_match; done.
Qed.

Lemma suite_conf : conf (reg suite_bus) 0x20 (reg suite_bus).
Proof.
  constructor; [intros r|intros r| | |done].
  - unfold usb_spec. repeat case_match; subst; first [apply Z.land_0_r | by vm_compute].
  - unfold host_spec. repeat case_match; subst; first [apply Z.land_0_r | by vm_compute].
  - by vm_compute.
  - by vm_compute.
Qed.

(** There is no other function. *)
Lemma suite_silent b : 0 <= b < 2 ^ 16 → b ≠ 0 → b ≠ 0x20 → answers (reg suite_bus) b = false.
Proof.
  intros Hb H0 H1. assert (reg suite_bus b 0 = 0xFFFFFFFF) as E.
  { unfold reg, suite_laws, bus_laws, bus_reg, suite_bus, suite_regs, bus_key. cbn [b_regs list_to_map foldr uncurry].
    cbn [fst snd]. repeat rewrite lookup_insert_ne by lia. by rewrite lookup_empty. }
  unfold answers, rd. change (PCI_VENDOR_ID / 4) with 0. rewrite E. by vm_compute.
Qed.

Lemma no_functions f l : (∀ b, b ∈ l → answers f b = false) → functions_of f l = [].
Proof.
  intros H. unfold functions_of. induction l as [|b l IH]; [done|]. rewrite filter_cons_False.
  - apply IH. intros c Hc. apply H. by right.
  - rewrite H by (by left). done.
Qed.

Lemma functions_of_app f l l' : functions_of f (l ++ l') = functions_of f l ++ functions_of f l'.
Proof. unfold functions_of. by rewrite filter_app, fmap_app. Qed.

Lemma suite_functions : functions (reg suite_bus) = [UDev 0 0x8086 0x191F; UDev 0x20 0x8086 0xa12f].
Proof.
  unfold functions. change 65536 with (1 + (31 + (1 + 65503))). rewrite !seqZ_app by lia.
  rewrite !functions_of_app. rewrite (no_functions _ (seqZ (0 + 1) 31)), (no_functions _ (seqZ _ 65503)).
  - by vm_compute.
  - intros b Hb%elem_of_seqZ. apply suite_silent; lia.
  - intros b Hb%elem_of_seqZ. apply suite_silent; lia.
Qed.

Lemma suite_one x : x ∈ functions (reg suite_bus) → DEV_VEN_of x = USB_DEV_VENDOR → u_bdf x = 0x20.
Proof. rewrite suite_functions. intros [->|[->|[]%elem_of_nil]%elem_of_cons]%elem_of_cons; by vm_compute. Qed.

Lemma suite_state_at : TAt (Env 0 [] suite_stack MAX_PCI_DEV_NUM 0) (reg suite_bus) suite_state.
Proof. split; [|done]. split; [by left|]. split; [done|]. split; [intros d r _ _; exact eq_refl|done]. Qed.

Lemma main_conforming_witness :
  length (functions (reg suite_bus)) = 2%nat ∧
  wp (main suite_stack suite_stack)
    (λ r s', r = 0 ∧ length (b_log (hw (t_util s'))) = 67%nat ∧ forallb snd (b_log (hw (t_util s'))) = true)
    suite_state.
Proof.
  split; [by rewrite suite_functions|]. eapply wp_mono.
  - refine (main_conforming (reg suite_bus) 0x20 _ suite_meets_usb suite_meets_host suite_conf _ suite_one
      suite_stack suite_stack suite_stack 0 suite_state _ _ _ _ suite_state_at);
      [lia|by rewrite suite_functions|..]; exact eq_refl.
  - intros r s' (-> & f' & _ & [(_ & _ & _ & E) _]). split; [done|]. cbn [e_log] in E.
    change (b_log (hw (t_util s'))) with (verdicts (hw (t_util s'))). rewrite E. by vm_compute.
Defined.
