(* ===== verification/Boot.v ===== *)
(** * The start of a test program: lib/x86/setup.c, lib/x86/acpi.c, lib/x86/fwcfg.c, lib/x86/stack.c

    [start64] is what x86/cstart64.S does between the switch to 64-bit mode and
    [main], for the parts that are in memory: the static variables are cleared,
    the start code of the other processors is copied to its three places, the
    memory is given to the early allocator, the module of the boot loader becomes
    the environment and the command line the arguments.  Then: the search of an
    ACPI table, the reads of the firmware configuration, the walk of the frames of
    a stack, and the name of a test case ([get_case_id] of lib/x86/misc.c).  The
    structures are in the byte memory, at the offsets of their fields. *)

From S2P Require Import Prelude Memory CString AllocPhys Argv PciConf.

Definition ENV_SIZE : Z := 16384.

(** Where the linker puts the static variables without an initial value, in
    [[bss_start, edata)]: [env], [__environ], [__argv] and [args_copy]; and the code
    with which the other processors start. *)
Record layout := Layout {
  bss_start : Z; edata : Z; l_env : Z; l_environ : Z; l_argv : Z; l_args_copy : Z;
  sipi_entry : Z; sipi_len : nat }.

(** The state of the boot code; the static variables of other files that it sets
    are [phys] (alloc_phys.c) and [argc], [copy_ptr] (argv.c). *)
Record boot_state := Boot {
  b_mem : mem;
  b_phys : phys;
  b_argc : Z;
  b_copy_ptr : Z;
  smp_stacktop : Z;
  initrd : Z;
  initrd_size : Z;
  g_bootinfo : Z;
}.

Definition set_b_mem (m : mem) (s : boot_state) : boot_state :=
  Boot m (b_phys s) (b_argc s) (b_copy_ptr s) (smp_stacktop s) (initrd s) (initrd_size s) (g_bootinfo s).

(** The fields of [struct mbi_bootinfo] and [struct mbi_module] at [a]. *)
Definition mem_lower (m : mem) (a : Z) : Z := ld32 m (a + 4).
Definition mem_upper (m : mem) (a : Z) : Z := ld32 m (a + 8).
Definition cmdline (m : mem) (a : Z) : Z := ld32 m (a + 16).
Definition mods_count (m : mem) (a : Z) : Z := ld32 m (a + 20).
Definition mods_addr (m : mem) (a : Z) : Z := ld32 m (a + 24).
Definition mod_start (m : mem) (a : Z) : Z := ld32 m a.
Definition mod_end (m : mem) (a : Z) : Z := ld32 m (a + 4).

Section Setup.
Context (l : layout) (fuel : nat).
#[local] Abbreviation bprog := (prog boot_state).

(** The fields that are static variables are cleared with the others, but for
    those with an initial value, [copy_ptr], [smp_stacktop] and [align_min]. *)
Definition bss_init : bprog unit :=
  modify (λ s, Boot (memset (b_mem s) (bss_start l) 0 (Z.to_nat (edata l - bss_start l)))
                 (Phys (replicate 256 (Region 0 0)) 0 false 0 0 false (align_min (b_phys s)))
                 0 (b_copy_ptr s) (smp_stacktop s) 0 0 0).

Definition setup_smp_stacktop (bootinfo : Z) : bprog unit :=
  modify (λ s, Boot (b_mem s) (b_phys s) (b_argc s) (b_copy_ptr s) (u32 (mem_lower (b_mem s) bootinfo * 1024))
                 (initrd s) (initrd_size s) bootinfo).

(** The three [rep movsb] of [smp_init], from [sipi_entry] to 0, 4096 and 8192. *)
Definition copy_sipi (m : mem) : mem :=
  memcpy (memcpy (memcpy m 0 (sipi_entry l) (sipi_len l)) 4096 (sipi_entry l) (sipi_len l)) 8192 (sipi_entry l) (sipi_len l).

(** [safety] is the build for the safety virtual machine. *)
Definition setup_multiboot (safety : bool) (bootinfo : Z) : bprog unit :=
  modify (λ s, Boot (b_mem s) (b_phys s) (b_argc s) (b_copy_ptr s) (smp_stacktop s) (initrd s) (initrd_size s) bootinfo);;
  s ← get;
  let end_of_memory := u64 (mem_upper (b_mem s) bootinfo * 1024) in
  let end_of_memory := if safety then 0x20000000 else end_of_memory in
  zoom b_phys (λ p s, Boot (b_mem s) p (b_argc s) (b_copy_ptr s) (smp_stacktop s) (initrd s) (initrd_size s) (g_bootinfo s))
    (phys_alloc_init (edata l) (u64 (end_of_memory - edata l)));;
  if negb (mods_count (b_mem s) bootinfo =? 1) then mret ()
  else
    let mods := mods_addr (b_mem s) bootinfo in
    modify (λ s, Boot (b_mem s) (b_phys s) (b_argc s) (b_copy_ptr s) (smp_stacktop s)
                   (mod_start (b_mem s) mods) (u32 (mod_end (b_mem s) mods - mod_start (b_mem s) mods)) (g_bootinfo s)).

Definition setup_libcflat : bprog unit :=
  s ← get;
  if negb (initrd s =? 0) then
    let size := Z.min (initrd_size s) ENV_SIZE in
    let m := memcpy (b_mem s) (l_env l) (initrd s) (Z.to_nat size) in
    match setup_env (l_environ l) fuel m (l_env l) size with
    | Some m => modify (set_b_mem m)
    | None => stop_with NoFuel
    end
  else mret ().

(** The calls of start64.  Of [smp_init] this has the copies, and Cpus the rest;
    [enable_apic], [load_tss] and [mask_pic_interrupts] set registers of the
    machine.  The command line is passed without a test of the flags. *)
Definition start64 (safety : bool) (bootinfo : Z) : bprog unit :=
  bss_init;;
  setup_smp_stacktop bootinfo;;
  modify (λ s, set_b_mem (copy_sipi (b_mem s)) s);;
  setup_multiboot safety bootinfo;;
  setup_libcflat;;
  if safety then mret ()
  else
    s ← get;
    match __setup_args (l_argv l) fuel (cmdline (b_mem s) bootinfo) (Args (b_mem s) (b_argc s) (b_copy_ptr s)) with
    | Some a => modify (λ s, Boot (amem a) (b_phys s) (argc a) (copy_ptr a) (smp_stacktop s) (initrd s) (initrd_size s)
                               (g_bootinfo s))
    | None => stop_with NoFuel
    end.
End Setup.

(** ** ACPI tables *)

(** [ACPI_SIGNATURE(c1, c2, c3, c4)] *)
Definition ACPI_SIGNATURE (c1 c2 c3 c4 : Z) : Z :=
  Z.lor (Z.lor (Z.lor c1 (Z.shiftl c2 8)) (Z.shiftl c3 16)) (Z.shiftl c4 24).
Definition RSDP_SIGNATURE : Z := ACPI_SIGNATURE 82 83 68 80.
Definition RSDT_SIGNATURE : Z := ACPI_SIGNATURE 82 83 68 84.
Definition FACP_SIGNATURE : Z := ACPI_SIGNATURE 70 65 67 80.
Definition FACS_SIGNATURE : Z := ACPI_SIGNATURE 70 65 67 83.

(** The characters RSD PTR and a blank. *)
Definition RSD_PTR : Z := 0x2052545020445352.

(** The fields of the structures of lib/x86/acpi.h. *)
Definition rsdt_physical_address (m : mem) (rsdp : Z) : Z := ld32 m (rsdp + 16).
Definition signature (m : mem) (t : Z) : Z := ld32 m t.
Definition tbl_length (m : mem) (t : Z) : Z := ld32 m (t + 4).
Definition table_offset_entry : Z := 36.
Definition firmware_ctrl (m : mem) (fadt : Z) : Z := ld32 m (fadt + 36).

(** [for (addr = 0xf0000; addr < 0x100000; addr += 16)], of 4096 steps *)
Fixpoint find_rsdp (n : nat) (m : mem) (addr : Z) : Z :=
  match n with
  | O => addr
  | S n' => if ld64 m addr =? RSD_PTR then addr else find_rsdp n' m (addr + 16)
  end.

(** The loop over the entries of the RSDT, from the one at [p]. *)
Fixpoint find_entry (fuel : nat) (m : mem) (sig p fin : Z) : outcome Z :=
  match fuel with
  | O => Stop NoFuel
  | S fuel' =>
      if p <? fin then
        let t := ld32 m p in
        if negb (t =? 0) && (signature m t =? sig) then Ret t else find_entry fuel' m sig (p + 4) fin
      else Ret 0
  end.

Definition find_table (fuel : nat) (m : mem) (sig : Z) : outcome Z :=
  let addr := find_rsdp 4096 m 0xf0000 in
  if addr =? 0x100000 then Ret 0
  else if sig =? RSDP_SIGNATURE then Ret addr
  else
    let rsdt := rsdt_physical_address m addr in
    if (rsdt =? 0) || negb (signature m rsdt =? RSDT_SIGNATURE) then Ret 0
    else if sig =? RSDT_SIGNATURE then Ret rsdt
    else find_entry fuel m sig (rsdt + table_offset_entry) (rsdt + tbl_length m rsdt).

Definition find_acpi_table_addr (fuel : nat) (m : mem) (sig : Z) : outcome Z :=
  if sig =? FACS_SIGNATURE then
    match find_table fuel m FACP_SIGNATURE with
    | Ret fadt => Ret (if fadt =? 0 then 0 else firmware_ctrl m fadt)
    | Stop e => Stop e
    end
  else find_table fuel m sig.

(** ** The firmware configuration *)

Definition BIOS_CFG_IOPORT : Z := 0x510.

(** The lock of fwcfg.c and the machine. *)
Record fw_state (St : Type) := Fw { fw_lock : bool; fw_hw : St }.
Arguments Fw {St} _ _.
Arguments fw_lock {St} _.
Arguments fw_hw {St} _.

Section Fwcfg.
Context {St : Type} {io : PortIO St}.
#[local] Abbreviation fprog := (prog (fw_state St)).

Definition on_port {A} (m : prog St A) : fprog A := zoom fw_hw (λ h s, Fw (fw_lock s) h) m.

Definition fwcfg_get_u (index : Z) (bytes : nat) : fprog Z :=
  spin_lock fw_lock (λ b s, Fw b (fw_hw s));;
  on_port (io_out 2 (u16 index) BIOS_CFG_IOPORT);;
  r ← for_up bytes 0 (λ i r,
    b ← on_port (io_in 1 (BIOS_CFG_IOPORT + 1));
    mret (Z.lor r (u64 (Z.shiftl b (i * 8))))) 0;
  spin_unlock (λ b s, Fw b (fw_hw s));;
  mret r.

Definition fwcfg_get_u8 (index : Z) : fprog Z := r ← fwcfg_get_u index 1; mret (u8 r).
Definition fwcfg_get_u16 (index : Z) : fprog Z := r ← fwcfg_get_u index 2; mret (u16 r).
Definition fwcfg_get_u32 (index : Z) : fprog Z := r ← fwcfg_get_u index 4; mret (u32 r).
Definition fwcfg_get_u64 (index : Z) : fprog Z := fwcfg_get_u index 8.
End Fwcfg.

(** ** The frames of a stack *)

(** The loop of [backtrace_frame]: the memory and [depth]. *)
Fixpoint frame_loop (n : nat) (m : mem) (bp return_addrs depth : Z) : mem * Z :=
  match n with
  | O => (m, depth)
  | S n' =>
      if bp =? 0 then (m, depth)
      else
        let m := st64 m (return_addrs + 8 * depth) (ld64 m (bp + 8)) in
        if ld64 m (return_addrs + 8 * depth) =? 0 then (m, depth)
        else frame_loop n' m (ld64 m bp) return_addrs (depth + 1)
  end.

(** [walking] is the static variable. *)
Definition backtrace_frame (walking : bool) (m : mem) (frame return_addrs max_depth : Z) : mem * Z :=
  if walking then (m, 0) else frame_loop (Z.to_nat max_depth) m frame return_addrs 0.

(** ** The name of a test case: lib/x86/misc.c *)

Definition MAX_CASE_ID_LEN : Z := 201.

(** [av] is an array of strings, [case_id] a buffer of [MAX_CASE_ID_LEN] bytes. *)
Definition get_case_id (fuel : nat) (m : mem) (ac av case_id : Z) : outcome mem :=
  if (case_id =? 0) || (av =? 0) then Stop Halt
  else if ac =? 1 then
    match strlen fuel m (ld64 m av) with
    | Some n =>
        let m := if MAX_CASE_ID_LEN - 1 <? n then wr8 m case_id 0 else m in
        match strcpy fuel m case_id (ld64 m av) with Some (m, _) => Ret m | None => Stop NoFuel end
    | None => Stop NoFuel
    end
  else Ret (wr8 m case_id 0).

(** ** The boot *)

Record layout_ok (l : layout) : Prop := {
  lo_low : 12288 <= bss_start l;
  lo_sipi : 12288 <= sipi_entry l ∧ sipi_entry l + sipi_len l <= bss_start l ∧ sipi_len l <= 4096;
  lo_high : edata l < 2 ^ 63;
  lo_env : bss_start l <= l_env l ∧ l_env l + ENV_SIZE <= edata l;
  lo_environ : bss_start l <= l_environ l ∧ l_environ l + 1600 <= edata l;
  lo_argv : bss_start l <= l_argv l ∧ l_argv l + 800 <= edata l;
  lo_copy : bss_start l <= l_args_copy l ∧ l_args_copy l + 1000 <= edata l;
  lo_env_environ : disjoint_regions (l_env l) ENV_SIZE (l_environ l) 1600;
  lo_env_argv : disjoint_regions (l_env l) ENV_SIZE (l_argv l) 800;
  lo_env_copy : disjoint_regions (l_env l) ENV_SIZE (l_args_copy l) 1000;
  lo_environ_argv : disjoint_regions (l_environ l) 1600 (l_argv l) 800;
  lo_environ_copy : disjoint_regions (l_environ l) 1600 (l_args_copy l) 1000;
  lo_argv_copy : disjoint_regions (l_argv l) 800 (l_args_copy l) 1000;
}.

(** Outside the static variables and the copies of the start code. *)
Definition outside (l : layout) (a n : Z) : Prop :=
  12288 <= a ∧ disjoint_regions a n (bss_start l) (edata l - bss_start l).

(** The module of the boot loader has the text. *)
Definition module_text (l : layout) (m : mem) (bootinfo : Z) (text : list Z) : Prop :=
  if mods_count m bootinfo =? 1 then
    let a := mods_addr m bootinfo in
    outside l a 16 ∧ outside l (mod_start m a) (length text) ∧ 0 < mod_start m a ∧
    mod_end m a = mod_start m a + length text ∧ length text < ENV_SIZE ∧
    rdl m (mod_start m a) (length text) = text ∧ Forall (λ b, b ≠ 0) text
  else text = [].

(** What the boot loader leaves in memory. *)
Record loaded (l : layout) (m : mem) (bootinfo : Z) (text line : list Z) : Prop := {
  ld_info : outside l bootinfo 88;
  ld_memory : edata l <= mem_upper m bootinfo * 1024;
  ld_text : module_text l m bootinfo text;
  ld_line : cstr m (cmdline m bootinfo) line;
  ld_line_out : outside l (cmdline m bootinfo) (length line + 1);
}.

Lemma bytes_of m a n i : (i < n)%nat → rdl m a n !! i = Some (rd8 m (a + i)).
Proof.
  revert a i. induction n as [|n IH]; intros a [|i] Hi; cbn; try lia.
  - by rewrite Z.add_0_r.
  - rewrite IH by lia. do 2 f_equal. lia.
Qed.

(** Bytes copied to where a zero follows are a string. *)
Lemma copied_cstr m d s text :
  disjoint_regions s (length text) d (length text + 1) → rdl m s (length text) = text → Forall (λ b, b ≠ 0) text →
  rd8 m (d + length text) = 0 → cstr (memcpy m d s (length text)) d text.
Proof.
  intros Hd Ht Hnz Hz. destruct (move_up_spec m d s (length text)) as [H1 H2]; [unfold disjoint_regions in Hd; lia|].
  assert (∀ x, rd8 (memcpy m d s (length text)) x = rd8 (move_up m d s (length text)) x) as E by apply memcpy_move_up.
  apply cstr_intro; [|done|].
  - rewrite <- Ht at 3. rewrite <- (Z.add_0_r d) at 2. apply list_eq. intros i.
    destruct (decide (i < length text)%nat).
    + rewrite !bytes_of by done. rewrite E, Z.add_0_r, H1 by lia. done.
    + rewrite !lookup_ge_None_2 by (rewrite rdl_length; lia). done.
  - rewrite E, H2 by lia. done.
Qed.

Lemma memcpy_at m d s (n i : nat) :
  disjoint_regions s n d n → (i < n)%nat → rd8 (memcpy m d s n) (d + i) = rd8 m (s + i).
Proof.
  intros Hd Hi. rewrite (memcpy_move_up m d s n (d + i)).
  destruct (move_up_spec m d s n) as [H _]; [unfold disjoint_regions in Hd; lia|]. apply H. lia.
Qed.

Lemma memcpy_other m d s (n : nat) x :
  disjoint_regions s n d n → (x < d ∨ d + n <= x) → rd8 (memcpy m d s n) x = rd8 m x.
Proof.
  intros Hd Hx. rewrite (memcpy_move_up m d s n x). apply move_up_spec; [unfold disjoint_regions in Hd; lia|done].
Qed.


Section Start.
Context (l : layout) (fuel : nat) (bootinfo : Z) (text line : list Z) (s : boot_state).
Context (Hl : layout_ok l) (Hload : loaded l (b_mem s) bootinfo text line).

(** The memory with the static variables cleared, then with the start code. *)
Definition erased : mem := memset (b_mem s) (bss_start l) 0 (Z.to_nat (edata l - bss_start l)).
Definition cleared : mem := copy_sipi l erased.

Lemma bss_size : Z.of_nat (Z.to_nat (edata l - bss_start l)) = edata l - bss_start l.
Proof using Hl. destruct Hl. unfold ENV_SIZE in *. lia. Qed.

Lemma copy_sipi_other m x : 12288 <= x → rd8 (copy_sipi l m) x = rd8 m x.
Proof using Hl.
  intros Hx. destruct Hl. unfold copy_sipi. by rewrite !memcpy_other by (unfold disjoint_regions; lia).
Qed.

(** The code is at the three places. *)
Lemma copy_sipi_code m k :
  0 <= k <= 2 → rdl (copy_sipi l m) (4096 * k) (sipi_len l) = rdl m (sipi_entry l) (sipi_len l).
Proof using Hl.
  intros Hk. destruct Hl. apply list_eq. intros i. destruct (decide (i < sipi_len l)%nat).
  - rewrite !bytes_of by done. f_equal. unfold copy_sipi.
    assert (k = 0 ∨ k = 1 ∨ k = 2) as [->|[->| ->]] by lia; cbn [Z.mul Pos.mul];
      repeat (first [rewrite memcpy_at by (unfold disjoint_regions; lia)|rewrite memcpy_other by (unfold disjoint_regions; lia)]);
      done.
  - rewrite !lookup_ge_None_2 by (rewrite rdl_length; lia). done.
Qed.

Lemma erased_out x : x < bss_start l ∨ edata l <= x → rd8 erased x = rd8 (b_mem s) x.
Proof using Hl. intros Hx. unfold erased. apply memset_out. rewrite bss_size. lia. Qed.

Lemma cleared_in x : bss_start l <= x < edata l → rd8 cleared x = 0.
Proof using Hl.
  intros Hx. pose proof Hl as []. unfold cleared. rewrite copy_sipi_other by lia.
  unfold erased. by rewrite memset_in by (rewrite bss_size; lia).
Qed.

Lemma cleared_out x : 12288 <= x → x < bss_start l ∨ edata l <= x → rd8 cleared x = rd8 (b_mem s) x.
Proof using Hl. intros H1 Hx. unfold cleared. rewrite copy_sipi_other by lia. by apply erased_out. Qed.

Lemma ld_out (n : nat) m a :
  (∀ x, 12288 <= x → x < bss_start l ∨ edata l <= x → rd8 m x = rd8 (b_mem s) x) → outside l a n → ldn n m a = ldn n (b_mem s) a.
Proof using Hl.
  intros Hm Ho. apply ldn_ext. intros x Hx. unfold outside, disjoint_regions in Ho. apply Hm; lia.
Qed.

(** [setup_libcflat] after [setup_multiboot]. *)
Lemma setup_libcflat_wp t :
  b_mem t = cleared → (length text + 1 < fuel)%nat → (length (env_vars text) < 200)%nat →
  (if mods_count (b_mem s) bootinfo =? 1
   then initrd t = mod_start (b_mem s) (mods_addr (b_mem s) bootinfo) ∧ initrd_size t = length text
   else initrd t = 0) →
  wp (setup_libcflat l fuel) (λ _ t', ∃ m, t' = set_b_mem m t ∧
    has_env m (l_environ l) (l_env l) (l_env l + length text) text ∧
    ∀ x, (x < l_env l ∨ l_env l + ENV_SIZE <= x) → (x < l_environ l ∨ l_environ l + 1600 <= x) →
      rd8 m x = rd8 cleared x) t.
Proof using Hl Hload.
  intros Em Hf Hn Hini. destruct Hl, Hload as [_ _ Ht _ _]. unfold disjoint_regions, ENV_SIZE in *.
  unfold setup_libcflat. wstep. wstep. unfold module_text in Ht. destruct (_ =? 1).
  - destruct Ht as (Ho1 & Ho2 & Hpos & Hend & Hlen & Hbytes & Hnz). destruct Hini as [-> ->].
    set (start := mod_start _ _) in *. unfold outside, disjoint_regions, ENV_SIZE in *.
    rewrite (proj2 (Z.eqb_neq start 0)) by lia. cbn [negb]. rewrite Z.min_l, Nat2Z.id by lia. rewrite Em.
    assert (cstr (memcpy cleared (l_env l) start (length text)) (l_env l) text) as Hcstr.
    { apply copied_cstr; [unfold disjoint_regions; lia| |done|apply cleared_in; lia].
      etransitivity; [|exact Hbytes]. apply rdl_ext. intros x Hx. apply cleared_out; lia. }
    destruct (setup_env_has (l_environ l) fuel (memcpy cleared (l_env l) start (length text)) (l_env l) text)
      as (m & -> & Henv & Hfr); try done; unfold disjoint_regions; try lia.
    { intros x Hx. rewrite memcpy_other by (unfold disjoint_regions; lia). apply cleared_in. lia. }
    wstep. exists m. split; [done|]. split; [done|]. intros x H1 H2. rewrite Hfr by lia.
    apply memcpy_other; unfold disjoint_regions; lia.
  - rewrite Hini. cbn. subst text. exists (b_mem t). split; [by destruct t|]. rewrite Em. split; [|done].
    apply has_env_nil. intros x Hx. apply cleared_in. lia.
Qed.

(** After [setup_multiboot]. *)
Definition memory_ready (t : boot_state) : Prop :=
  b_mem t = cleared ∧
  (log_ok (b_phys t) ∧ base (b_phys t) = edata l ∧ top (b_phys t) = mem_upper (b_mem s) bootinfo * 1024 ∧
   logged (b_phys t) = []) ∧
  smp_stacktop t = u32 (mem_lower (b_mem s) bootinfo * 1024) ∧ g_bootinfo t = bootinfo ∧
  b_argc t = 0 ∧ b_copy_ptr t = b_copy_ptr s ∧
  (if mods_count (b_mem s) bootinfo =? 1
   then initrd t = mod_start (b_mem s) (mods_addr (b_mem s) bootinfo) ∧ initrd_size t = length text
   else initrd t = 0).

Lemma boot_memory_wp (rest : prog boot_state unit) Q :
  (∀ t, memory_ready t → wp rest Q t) →
  wp (bss_init l;; setup_smp_stacktop bootinfo;; modify (λ s, set_b_mem (copy_sipi l (b_mem s)) s);; setup_multiboot l false bootinfo;; rest) Q s.
Proof using Hl Hload.
  intros Hrest. pose proof Hl as Hl'. destruct Hl'.
  pose proof Hload as [Hinfo Hmem Ht Hline Hlo].
  assert (∀ a (n : nat), bootinfo <= a → a + n <= bootinfo + 88 → ldn n cleared a = ldn n (b_mem s) a) as Efield.
  { intros a n H1 H2. apply ld_out; [apply cleared_out|]. unfold outside, disjoint_regions in *. lia. }
  assert (mem_upper cleared bootinfo = mem_upper (b_mem s) bootinfo) as E1 by (apply Efield; lia).
  assert (mem_lower erased bootinfo = mem_lower (b_mem s) bootinfo) as E2.
  { apply ld_out; [intros x _; apply erased_out|]. unfold outside, disjoint_regions in *. lia. }
  assert (mods_count cleared bootinfo = mods_count (b_mem s) bootinfo) as E3 by (apply Efield; lia).
  assert (mods_addr cleared bootinfo = mods_addr (b_mem s) bootinfo) as E4 by (apply Efield; lia).
  pose proof (ldn_range 4 (b_mem s) (bootinfo + 8)) as Hup. fold (mem_upper (b_mem s) bootinfo) in Hup.
  unfold bss_init, setup_smp_stacktop. wstep. wstep. wstep. wstep. wstep. wstep.
  wstep. eapply (wp_mono _ (λ _, memory_ready)); [|by intros []].
  unfold setup_multiboot. wstep. wstep. wstep. wstep. wstep. wstep.
  cbn [b_mem b_phys set_b_mem smp_stacktop initrd initrd_size g_bootinfo b_argc b_copy_ptr]. fold erased. fold cleared.
  rewrite E1, E2, E3, E4. rewrite (wrap_small 64 (mem_upper (b_mem s) bootinfo * 1024)) by lia.
  rewrite wrap_small by (unfold ENV_SIZE in *; lia).
  eapply wp_mono; [apply phys_init_ok; try done; unfold ENV_SIZE in *; lia|].
  intros [] p (Hp1 & Hp2 & Hp3 & Hp4). rewrite Zplus_minus in Hp3.
  unfold module_text in Ht. unfold memory_ready. destruct (_ =? 1); cbn [negb]; wstep; split_and!; try done.
  - destruct Ht as (Ho1 & Ho2 & _ & _ & _). cbn [initrd b_mem]. unfold mod_start.
    apply ld_out; [apply cleared_out|]. unfold outside, disjoint_regions in *. lia.
  - destruct Ht as (Ho1 & Ho2 & _ & Hend & Hlen & _). cbn [initrd_size b_mem]. unfold mod_start, mod_end in *.
    assert (∀ k, 0 <= k <= 12 → ld32 cleared (mods_addr (b_mem s) bootinfo + k) = ld32 (b_mem s) (mods_addr (b_mem s) bootinfo + k)) as E.
    { intros k Hk. apply ld_out; [apply cleared_out|]. unfold outside, disjoint_regions in *. lia. }
    pose proof (E 0 ltac:(lia)) as E5. rewrite !Z.add_0_r in E5. rewrite E, E5, Hend by lia.
    replace (ld32 _ _ + length text - _) with (Z.of_nat (length text)) by lia. apply wrap_small.
    unfold ENV_SIZE in *. lia.
Qed.

(** The machine when [main] is entered. *)
Definition started (s' : boot_state) : Prop :=
  log_ok (b_phys s') ∧ base (b_phys s') = edata l ∧ top (b_phys s') = mem_upper (b_mem s) bootinfo * 1024 ∧
  logged (b_phys s') = [] ∧
  smp_stacktop s' = u32 (mem_lower (b_mem s) bootinfo * 1024) ∧ g_bootinfo s' = bootinfo ∧
  b_argc s' = length (words line) ∧
  (∃ ps, length ps = length (words line) ∧ ptrs (b_mem s') (l_argv l) ps ∧ Forall2 (cstr (b_mem s')) ps (words line)) ∧
  env_found fuel (b_mem s') (l_environ l) text ∧
  (∀ k, 0 <= k <= 2 → rdl (b_mem s') (4096 * k) (sipi_len l) = rdl (b_mem s) (sipi_entry l) (sipi_len l)) ∧
  ∀ x, 12288 <= x → x < bss_start l ∨ edata l <= x → rd8 (b_mem s') x = rd8 (b_mem s) x.

(** C3: the boot of a program, in the builds other than the one for the safety
    virtual machine.  From any contents of the static variables, with what the
    boot loader leaves in memory, it returns, and when [main] is entered the
    allocator has the memory from the end of the program to the end of memory and
    no allocation, [__argc] and [__argv] are the words of the command line,
    [getenv] finds the variables of the module, the start code is in the first
    three pages, and these calls have changed no other byte outside of the static
    variables. *)
Theorem start64_ready :
  (length text + 1 < fuel)%nat → (length line < fuel)%nat → (length (env_vars text) < 200)%nat →
  (length (words line) <= 100)%nat → total (words line) <= 1000 →
  b_copy_ptr s = l_args_copy l →
  wp (start64 l fuel false bootinfo) (λ _, started) s.
Proof using Hl Hload.
  intros Hf1 Hf2 Hn Hw1 Hw2 Hcopy. pose proof Hl as Hl'. destruct Hl'.
  pose proof Hload as [Hinfo Hmem Ht Hline Hlo]. unfold start64.
  apply boot_memory_wp. intros t (Em & Hp & Hsmp & Hb & Ha & Hc & Hin).
  wstep. eapply wp_mono; [by apply setup_libcflat_wp|]. intros [] t1 (m & -> & Henv & Hfr).
  wstep. wstep. cbn [b_mem set_b_mem b_argc b_copy_ptr]. rewrite Ha, Hc, Hcopy.
  assert (∀ x, 12288 <= x → x < bss_start l ∨ edata l <= x → rd8 m x = rd8 (b_mem s) x) as Hout.
  { intros x H1 Hx. rewrite Hfr by (unfold ENV_SIZE in *; lia). by apply cleared_out. }
  assert (cmdline m bootinfo = cmdline (b_mem s) bootinfo) as ->.
  { apply ld_out; [exact Hout|]. unfold outside, disjoint_regions in *. lia. }
  unfold __setup_args. cbn [amem argc copy_ptr]. rewrite Z.mul_0_r, Z.add_0_r.
  assert (0 <= total (words line)) by (unfold total; lia).
  destruct (setup_args_loop_spec fuel fuel m (cmdline (b_mem s) bootinfo) (l_argv l) (l_args_copy l) line _ eq_refl)
    as (m' & ps & -> & Hlen & Hps & Hss & Hfr'); try done; unfold outside, disjoint_regions, ENV_SIZE in *; try lia.
  { eapply cstr_ext; [|exact Hline]. intros x Hx. apply Hout; lia. }
  cbn [mbind option_bind]. wstep.
  replace (l_argv l + 8 * length (words line) - l_argv l) with (length (words line) * 8) by lia.
  rewrite Z.div_mul, swrap_small by (cbn; lia).
  unfold started. cbn [b_mem b_phys set_b_mem b_argc smp_stacktop g_bootinfo amem argc copy_ptr].
  destruct Hp as (Hp1 & Hp2 & Hp3 & Hp4). split_and!; try done.
  - by exists ps.
  - assert (length text + l_env l < 2 ^ 64).
    { unfold module_text, ENV_SIZE in Ht. destruct (_ =? 1); [lia|subst text; cbn; lia]. }
    eapply has_env_found; [| |eapply has_env_ext; [exact Henv|lia|..]| |]; try lia.
    + intros x Hx. apply Hfr'; unfold module_text, ENV_SIZE in Ht.
      * destruct (_ =? 1); [lia|subst text; cbn in *; lia].
      * destruct (_ =? 1); [lia|subst text; cbn in *; lia].
    + intros x Hx. apply Hfr'; lia.
  - intros k Hk. etransitivity; [|etransitivity; [by apply (copy_sipi_code erased k)|]].
    + apply rdl_ext. intros x Hx. rewrite Hfr', Hfr by (unfold ENV_SIZE in *; lia). done.
    + apply rdl_ext. intros x Hx. apply erased_out. lia.
  - intros x H1 Hx. rewrite Hfr' by lia. by apply Hout.
Qed.
End Start.

(** ** The tables that are found *)

(** The [n] 32-bit values from [p]. *)
Fixpoint u32s (m : mem) (p : Z) (n : nat) : list Z :=
  match n with O => [] | S n' => ld32 m p :: u32s m (p + 4) n' end.

(** The addresses in the RSDT; a part of an entry at its end counts. *)
Definition tables (m : mem) (rsdt : Z) : list Z :=
  u32s m (rsdt + table_offset_entry) (Z.to_nat ((tbl_length m rsdt - table_offset_entry + 3) / 4)).

Definition first_table (m : mem) (rsdt sig : Z) : option Z :=
  head (filter (λ t, t ≠ 0 ∧ signature m t = sig) (tables m rsdt)).

(** The root pointer is the first on a 16-byte boundary between 0xf0000 and
    0x100000, and leads to the RSDT. *)
Record acpi_ok (m : mem) (rsdp rsdt : Z) : Prop := {
  ao_place : ∃ k : nat, (k < 4096)%nat ∧ rsdp = 0xf0000 + 16 * k ∧
    ∀ j : nat, (j < k)%nat → ld64 m (0xf0000 + 16 * j) ≠ RSD_PTR;
  ao_signature : ld64 m rsdp = RSD_PTR;
  ao_rsdt : rsdt_physical_address m rsdp = rsdt;
  ao_rsdt_nz : rsdt ≠ 0;
  ao_rsdt_sig : signature m rsdt = RSDT_SIGNATURE;
}.

Lemma find_rsdp_first n m addr k :
  (k < n)%nat → ld64 m (addr + 16 * Z.of_nat k) = RSD_PTR →
  (∀ j : nat, (j < k)%nat → ld64 m (addr + 16 * j) ≠ RSD_PTR) → find_rsdp n m addr = addr + 16 * Z.of_nat k.
Proof.
  revert addr k. induction n as [|n IH]; intros addr k Hk Hs Hno; [lia|]. cbn [find_rsdp].
  destruct k as [|k].
  - rewrite Z.add_0_r in Hs. rewrite Hs, Z.eqb_refl. lia.
  - pose proof (Hno 0%nat ltac:(lia)) as H0. rewrite Z.add_0_r in H0. apply Z.eqb_neq in H0. rewrite H0.
    rewrite (IH (addr + 16) k); [lia|lia| |].
    + by replace (addr + 16 + 16 * k) with (addr + 16 * S k) by lia.
    + intros j Hj. replace (addr + 16 + 16 * j) with (addr + 16 * S j) by lia. apply Hno. lia.
Qed.

Lemma find_rsdp_none n m addr :
  (∀ j : nat, (j < n)%nat → ld64 m (addr + 16 * j) ≠ RSD_PTR) → find_rsdp n m addr = addr + 16 * Z.of_nat n.
Proof.
  revert addr. induction n as [|n IH]; intros addr Hno; cbn [find_rsdp]; [lia|].
  pose proof (Hno 0%nat ltac:(lia)) as H0. rewrite Z.add_0_r in H0. apply Z.eqb_neq in H0. rewrite H0.
  rewrite IH; [lia|]. intros j Hj. replace (addr + 16 + 16 * j) with (addr + 16 * S j) by lia. apply Hno. lia.
Qed.

Lemma find_entry_first fuel m sig p fin :
  (Z.to_nat ((fin - p + 3) / 4) < fuel)%nat →
  find_entry fuel m sig p fin =
    Ret (default 0 (head (filter (λ t, t ≠ 0 ∧ signature m t = sig) (u32s m p (Z.to_nat ((fin - p + 3) / 4)))))).
Proof.
  revert p. induction fuel as [|fuel IH]; intros p Hf; [lia|]. cbn [find_entry].
  destruct (Z.ltb_spec p fin) as [Hp|Hp].
  - assert (Z.to_nat ((fin - p + 3) / 4) = S (Z.to_nat ((fin - (p + 4) + 3) / 4))) as E
      by (Z.div_mod_to_equations; lia).
    rewrite E in *. cbn [u32s]. rewrite filter_cons. set (t := ld32 m p).
    destruct (Z.eqb_spec t 0), (Z.eqb_spec (signature m t) sig); cbn [negb andb];
      destruct (decide _) as [[H1 H2]|Hn]; try done; try (exfalso; by apply Hn); apply IH; lia.
  - replace (Z.to_nat ((fin - p + 3) / 4)) with 0%nat by (Z.div_mod_to_equations; lia). done.
Qed.

Lemma find_table_first (fuel : nat) m rsdp rsdt sig :
  acpi_ok m rsdp rsdt → tbl_length m rsdt < 4 * fuel →
  find_table fuel m sig = Ret
    (if sig =? RSDP_SIGNATURE then rsdp else if sig =? RSDT_SIGNATURE then rsdt
     else default 0 (first_table m rsdt sig)).
Proof.
  intros [(k & Hk & E & Hno) Hs Er Hnz Hsig] Hf. unfold find_table.
  rewrite (find_rsdp_first 4096 m 0xf0000 k) by (done || by rewrite <- E). rewrite <- E, Er, Hsig.
  rewrite (proj2 (Z.eqb_neq rsdp 0x100000)) by lia. rewrite (proj2 (Z.eqb_neq rsdt 0)) by done.
  rewrite Z.eqb_refl. cbn [negb orb]. destruct (sig =? RSDP_SIGNATURE), (sig =? RSDT_SIGNATURE); try done.
  unfold first_table, tables, table_offset_entry in *. rewrite find_entry_first.
  - by replace (rsdt + tbl_length m rsdt - (rsdt + 36) + 3) with (tbl_length m rsdt - 36 + 3) by lia.
  - pose proof (ldn_range 4 m (rsdt + 4)). unfold tbl_length in *. Z.div_mod_to_equations; lia.
Qed.

(** C38: with a root pointer in the BIOS area and an RSDT, [find_acpi_table_addr]
    returns the root pointer or the RSDT when asked for them, for the FACS the
    address that the first FADT of the RSDT has for it, and for any other
    signature the first table of the RSDT that has it; NULL when there is none. *)
Theorem find_acpi_table_first (fuel : nat) m rsdp rsdt sig :
  acpi_ok m rsdp rsdt → tbl_length m rsdt < 4 * fuel →
  find_acpi_table_addr fuel m sig = Ret
    (if sig =? FACS_SIGNATURE then
       match first_table m rsdt FACP_SIGNATURE with Some fadt => firmware_ctrl m fadt | None => 0 end
     else if sig =? RSDP_SIGNATURE then rsdp else if sig =? RSDT_SIGNATURE then rsdt
     else default 0 (first_table m rsdt sig)).
Proof.
  intros Hok Hf. unfold find_acpi_table_addr.
  destruct (sig =? FACS_SIGNATURE); rewrite (find_table_first fuel m rsdp rsdt) by done; [|done].
  change (FACP_SIGNATURE =? RSDP_SIGNATURE) with false. change (FACP_SIGNATURE =? RSDT_SIGNATURE) with false.
  unfold first_table. destruct (filter _ (tables m rsdt)) as [|t ts] eqn:E; cbn [head default]; [done|].
  assert (t ∈ filter (λ t, t ≠ 0 ∧ signature m t = FACP_SIGNATURE) (tables m rsdt)) as Hin by (rewrite E; by left).
  apply list_elem_of_filter in Hin as [[Ht _] _]. cbn. by rewrite (proj2 (Z.eqb_neq t 0)).
Qed.

(** Without a root pointer there is no table. *)
Lemma find_acpi_table_none fuel m sig :
  (∀ j : nat, (j < 4096)%nat → ld64 m (0xf0000 + 16 * j) ≠ RSD_PTR) → find_acpi_table_addr fuel m sig = Ret 0.
Proof.
  intros Hno. unfold find_acpi_table_addr, find_table. rewrite find_rsdp_none by done.
  change (0xf0000 + 16 * 4096%nat =? 0x100000) with true. cbn iota. by destruct (sig =? FACS_SIGNATURE).
Qed.

(** ** The firmware configuration *)

(** The device: a write of the port selects an item, and reads of the next port
    give its bytes. *)
Class FwLaws (St : Type) {io : PortIO St} := {
  fw_item : Z → Z → Z;
  fw_pos : St → Z * Z;
  fw_select : Z → St → St;
  fw_next : St → St;
  fl_select i s : io_out 2 i 0x510 s = Ret ((), fw_select i s);
  fl_select_pos i s : fw_pos (fw_select i s) = (i, 0);
  fl_read s : io_in 1 0x511 s = Ret (fw_item (fw_pos s).1 (fw_pos s).2, fw_next s);
  fl_next_pos s : fw_pos (fw_next s) = ((fw_pos s).1, (fw_pos s).2 + 1);
  fl_item_range i o : 0 <= fw_item i o < 2 ^ 8;
}.

(** The little-endian value of [n] bytes from the [k]th. *)
Fixpoint le_val (f : Z → Z) (k : Z) (n : nat) : Z :=
  match n with O => 0 | S n' => f k + 2 ^ 8 * le_val f (k + 1) n' end.

Section FwProofs.
Context {St : Type} {io : PortIO St} {fl : FwLaws St}.

Lemma le_val_snoc f k n : le_val f k (S n) = le_val f k n + 2 ^ (8 * n) * f (k + n).
Proof using Type.
  revert k. induction n as [|n IH]; intros k; [cbn [le_val]; change (2 ^ (8 * 0%nat)) with 1; change (Z.of_nat 0) with 0; rewrite (Z.add_0_r k); lia|].
  cbn [le_val] in *. rewrite (IH (k + 1)). replace (k + 1 + n) with (k + S n) by lia.
  replace (8 * S n) with (8 + 8 * n) by lia. rewrite Z.pow_add_r by lia. lia.
Qed.

Lemma le_val_range f k n : (∀ j, 0 <= f j < 2 ^ 8) → 0 <= le_val f k n < 2 ^ (8 * n).
Proof using Type.
  intros Hf. revert k. induction n as [|n IH]; intros k; cbn [le_val]; [lia|].
  pose proof (Hf k). pose proof (IH (k + 1)). replace (8 * S n) with (8 + 8 * n) by lia.
  rewrite Z.pow_add_r by lia. lia.
Qed.

Lemma put_byte v b i :
  0 <= i < 8 → 0 <= b < 2 ^ 8 → 0 <= v < 2 ^ (8 * i) →
  Z.lor v (u64 (Z.shiftl b (8 * i))) = v + 2 ^ (8 * i) * b.
Proof using Type.
  intros Hi Hb Hv. rewrite Z.shiftl_mul_pow2 by lia.
  assert (2 ^ 8 * 2 ^ (8 * i) <= 2 ^ 64) as H64.
  { rewrite <- Z.pow_add_r by lia. apply Z.pow_le_mono_r; lia. }
  rewrite wrap_small by nia. rewrite Z.lor_comm, lor_add by lia. lia.
Qed.

(** The value read is the little-endian value of the first bytes of the item. *)
Lemma fwcfg_get_u_value index (bytes : nat) s :
  fw_lock s = false → (bytes <= 8)%nat →
  wp (fwcfg_get_u index bytes)
    (λ r s', r = le_val (fw_item (u16 index)) 0 bytes ∧ fw_lock s' = false) s.
Proof using Type.
  intros Hlock Hb. unfold fwcfg_get_u. wstep. wstep; [done|]. wstep. unfold on_port. wstep.
  unfold wp at 1. unfold BIOS_CFG_IOPORT. rewrite fl_select. wstep.
  apply (wp_for_up (λ i r s', fw_lock s' = true ∧ r = le_val (fw_item (u16 index)) 0 (Z.to_nat i) ∧
    fw_pos (fw_hw s') = (u16 index, i))).
  - intros i r s1 Hi (H1 & -> & H3). wstep. wstep. unfold wp at 1.
    change (1296 + 1) with 0x511. rewrite fl_read, H3. cbn [fst snd]. wstep.
    split; [exact H1|]. split; [|cbn [fw_hw]; by rewrite fl_next_pos, H3].
    replace (Z.to_nat (i + 1)) with (S (Z.to_nat i)) by lia. rewrite le_val_snoc, Z.add_0_l.
    pose proof (le_val_range (fw_item (u16 index)) 0 (Z.to_nat i) (fl_item_range _)) as Hv.
    rewrite Z2Nat.id in * by lia. rewrite (Z.mul_comm i 8). by apply put_byte; [lia|apply fl_item_range|].
  - split; [done|]. split; [done|]. cbn [fw_hw]. apply fl_select_pos.
  - intros r s1 (H1 & -> & H3). wstep. wstep. wstep. rewrite Z.add_0_l, Nat2Z.id. done.
Qed.
End FwProofs.

(** ** The frames *)

(** The frames from [bp], with their addresses and return addresses; the last has
    a null frame pointer, or the one after it a null return address. *)
Fixpoint frames (m : mem) (bp : Z) (l : list (Z * Z)) : Prop :=
  match l with
  | [] => bp = 0 ∨ ld64 m (bp + 8) = 0
  | (a, r) :: l' => bp = a ∧ a ≠ 0 ∧ ld64 m (a + 8) = r ∧ r ≠ 0 ∧ frames m (ld64 m a) l'
  end.

(** Memory that is not part of a frame, nor of what follows the last. *)
Fixpoint off_frames (m : mem) (bp : Z) (l : list (Z * Z)) (ra n : Z) : Prop :=
  disjoint_regions ra n bp 16 ∧
  match l with [] => True | (a, _) :: l' => off_frames m (ld64 m a) l' ra n end.

Lemma frames_store m bp l ra n p v :
  ra <= p → p + 8 <= ra + n → off_frames m bp l ra n → frames m bp l →
  frames (st64 m p v) bp l ∧ off_frames (st64 m p v) bp l ra n.
Proof.
  intros H1 H2. revert bp. induction l as [|[a r] l IH]; intros bp [Ho Hol] Hf; cbn [frames off_frames] in *.
  - split; [|done]. destruct Hf as [Hf|Hf]; [by left|]. right. rewrite <- Hf. apply ldn_ext. intros x Hx.
    apply rd8_stn_other. unfold disjoint_regions in Ho. lia.
  - destruct Hf as (-> & Ha & Hr & Hnz & Hf). unfold disjoint_regions in Ho.
    assert (∀ k, 0 <= k <= 8 → ld64 (st64 m p v) (a + k) = ld64 m (a + k)) as E.
    { intros k Hk. apply ldn_ext. intros x Hx. apply rd8_stn_other. lia. }
    pose proof (E 0 ltac:(lia)) as E0. rewrite !Z.add_0_r in E0. rewrite E0, E by lia.
    destruct (IH _ Hol Hf) as [I1 I2]. by split_and!.
Qed.

Lemma frame_loop_spec n m bp ra depth l :
  0 <= depth → off_frames m bp l ra (8 * (depth + Z.of_nat n)) → frames m bp l →
  ∃ m', frame_loop n m bp ra depth = (m', depth + Z.of_nat (min (length l) n)) ∧
    ptrs m' (ra + 8 * depth) (take n l.*2) ∧
    ∀ x, x < ra + 8 * depth ∨ ra + 8 * (depth + Z.of_nat n) <= x → rd8 m' x = rd8 m x.
Proof.
  revert m bp depth l. induction n as [|n IH]; intros m bp depth l Hd Ho Hf; cbn [frame_loop].
  { exists m. rewrite Nat.min_0_r, Z.add_0_r. split; [done|]. split; [apply ptrs_nil|done]. }
  pose proof (ldn_range 8 m (bp + 8)) as Hr. change (2 ^ (8 * 8%nat)) with (2 ^ 64) in Hr.
  destruct l as [|[a r] l]; cbn [length Nat.min fmap list_fmap take snd].
  - destruct (Z.eqb_spec bp 0) as [?|Hnz].
    { exists m. rewrite Z.add_0_r. split; [done|]. split; [apply ptrs_nil|done]. }
    destruct Hf as [?|Hf]; [done|]. rewrite Hf, ld64_st64_same by lia. cbn [Z.eqb].
    eexists. rewrite Z.add_0_r. split; [done|]. split; [apply ptrs_nil|]. intros x Hx. apply rd8_stn_other. lia.
  - cbn [frames] in Hf. pose proof Hf as (-> & Hnz & Er & Hrz & _). rewrite (proj2 (Z.eqb_neq a 0)) by done.
    rewrite Er in Hr |- *. rewrite ld64_st64_same by lia. rewrite (proj2 (Z.eqb_neq r 0)) by done.
    destruct (frames_store m a ((a, r) :: l) ra (8 * (depth + Z.of_nat (S n))) (ra + 8 * depth) r)
      as [(_ & _ & _ & _ & Hf2) [_ Ho2]]; [lia|lia|done|done|].
    set (m1 := st64 m (ra + 8 * depth) r) in *.
    destruct (IH m1 (ld64 m1 a) (depth + 1) l) as (m' & -> & Hps & Hx); [lia| |done|].
    { by replace (depth + 1 + n) with (depth + S n) by lia. }
    exists m'. split; [f_equal; lia|]. split.
    + apply ptrs_cons. split.
      * rewrite <- (ld64_st64_same m (ra + 8 * depth) r) by lia. apply ldn_ext. intros x Hi. apply Hx. lia.
      * by replace (ra + 8 * depth + 8) with (ra + 8 * (depth + 1)) by lia.
    + intros x Hi. rewrite Hx by lia. apply rd8_stn_other. lia.
Qed.

(** The walk stores the return addresses of the frames, as many as are asked
    for, and returns their number. *)
Lemma backtrace_frame_spec m frame ra max_depth l :
  0 <= max_depth → off_frames m frame l ra (8 * max_depth) → frames m frame l →
  ∃ m', backtrace_frame false m frame ra max_depth = (m', Z.min (length l) max_depth) ∧
    ptrs m' ra (take (Z.to_nat max_depth) l.*2) ∧
    ∀ x, x < ra ∨ ra + 8 * max_depth <= x → rd8 m' x = rd8 m x.
Proof.
  intros Hm Ho Hf. unfold backtrace_frame.
  destruct (frame_loop_spec (Z.to_nat max_depth) m frame ra 0 l) as (m' & -> & Hps & Hx); [lia| |done|].
  { by rewrite Z.add_0_l, Z2Nat.id by lia. }
  rewrite Z.add_0_r in Hps. exists m'. split; [f_equal; lia|]. split; [done|].
  intros x Hi. apply Hx. rewrite Z.add_0_l, Z2Nat.id by lia. lia.
Qed.

(** Three frames, of which two are asked for. *)
Example backtrace_ex :
  let m := st64 (st64 (st64 (st64 (st64 (st64 ∅ 0x1000 0x1100) 0x1008 0x401000) 0x1100 0x1200) 0x1108 0x402000)
             0x1200 0) 0x1208 0x403000 in
  let '(m', n) := backtrace_frame false m 0x1000 0x8000 2 in
  (n, ld64 m' 0x8000, ld64 m' 0x8008, ld64 m' 0x8010) = (2, 0x401000, 0x402000, 0).
Proof. vm_compute. reflexivity. Qed.

(** ** The name of a test case *)

(** The only argument is copied, whatever its length: one of more than 200
    characters is written past the end of the buffer after the complaint. *)
Lemma get_case_id_copies fuel m av case_id p l :
  av ≠ 0 → case_id ≠ 0 → ld64 m av = p → cstr m p l → (length l < fuel)%nat → length l < 2 ^ 63 →
  disjoint_regions p (length l + 1) case_id (length l + 1) → disjoint_regions av 8 case_id (length l + 1) →
  ∃ m', get_case_id fuel m 1 av case_id = Ret m' ∧ cstr m' case_id l ∧
    ∀ x, x < case_id ∨ case_id + length l < x → rd8 m' x = rd8 m x.
Proof.
  unfold disjoint_regions. intros Hav Hc Hp Hl Hf H63 Hd1 Hd2. unfold get_case_id.
  rewrite (proj2 (Z.eqb_neq case_id 0)), (proj2 (Z.eqb_neq av 0)) by done. cbn [orb].
  change (1 =? 1) with true. cbn iota. rewrite Hp, (strlen_cstr _ _ _ l) by (done || lia). cbn zeta.
  set (m1 := if MAX_CASE_ID_LEN - 1 <? length l then wr8 m case_id 0 else m).
  assert (∀ x, x ≠ case_id → rd8 m1 x = rd8 m x) as Hm1.
  { intros x Hx. unfold m1. destruct (_ <? _); [|done]. by apply rd8_wr8_other. }
  assert (ld64 m1 av = p) as Hav1 by (rewrite <- Hp; apply ldn_ext; intros x Hx; apply Hm1; lia).
  rewrite Hav1. destruct (strcpy_spec fuel m1 case_id p l) as (m' & E & Hl' & Hfr).
  - eapply cstr_ext; [|exact Hl]. intros x Hx. apply Hm1. lia.
  - done.
  - unfold disjoint_regions. lia.
  - rewrite E. exists m'. split; [done|]. split; [done|]. intros x Hx. rewrite Hfr by lia. apply Hm1. lia.
Qed.

(** ** Witnesses *)

Definition ex_layout : layout := Layout 0x10000 0x20000 0x10000 0x14000 0x15000 0x16000 0x9000 64.

(** The boot information at 0x7000: 640 KiB and 512 MiB of memory, a command line
    at 0x7200 and one module, at 0x30000, which is described at 0x7100. *)
Definition ex_boot_mem : mem :=
  let m := wrl (wrl ∅ 0x7200 (bytes ex_line)) 0x30000 (bytes ex_text) in
  let m := st32 (st32 m 0x7100 0x30000) 0x7104 (0x30000 + length (bytes ex_text)) in
  let m := st32 (st32 m 0x7004 640) 0x7008 0x80000 in
  st32 (st32 (st32 m 0x7010 0x7200) 0x7014 1) 0x7018 0x7100.
Definition ex_boot : boot_state :=
  Boot ex_boot_mem (Phys [] 7 true 1 1 true 32) 3 0x16000 0xa0000 1 1 1.

Lemma ex_layout_ok : layout_ok ex_layout.
Proof. constructor; unfold disjoint_regions, ENV_SIZE; cbn; lia. Qed.

Lemma ex_loaded : loaded ex_layout ex_boot_mem 0x7000 (bytes ex_text) (bytes ex_line).
Proof.
  constructor.
  - unfold outside, disjoint_regions. cbn. lia.
  - vm_compute. done.
  - unfold module_text. change (mods_count ex_boot_mem 0x7000 =? 1) with true. cbn iota.
    change (mods_addr ex_boot_mem 0x7000) with 0x7100. change (mod_start ex_boot_mem 0x7100) with 0x30000.
    unfold outside, disjoint_regions. do 2 (split; [split; cbn; lia|]). split_and!; [lia|by vm_compute|vm_compute; done|by vm_compute|].
    vm_compute. repeat constructor; done.
  - change (cmdline ex_boot_mem 0x7000) with 0x7200. vm_compute. by split_and!.
  - change (cmdline ex_boot_mem 0x7000) with 0x7200. unfold outside, disjoint_regions. cbn. lia.
Qed.

Lemma start64_ready_witness :
  words (bytes ex_line) = [bytes "-smp"; bytes "2"] ∧ env_vars (bytes ex_text) = [bytes "FOO=1"; bytes "BAR=x"] ∧
  wp (start64 ex_layout 40 false 0x7000)
    (λ _, started ex_layout 40 0x7000 (bytes ex_text) (bytes ex_line) ex_boot) ex_boot.
Proof.
  split; [by vm_compute|]. split; [by vm_compute|].
  apply (start64_ready ex_layout 40 0x7000 (bytes ex_text) (bytes ex_line) ex_boot ex_layout_ok ex_loaded);
    vm_compute; done || lia.
Defined.

(** A root pointer at 0xf0010, and an RSDT of three entries, of which one is zero;
    the second FADT is not looked at. *)
Definition ex_acpi : mem :=
  let m := st64 (st32 ∅ (0xf0010 + 16) 0x1000) 0xf0010 RSD_PTR in
  let m := st32 (st32 m 0x1000 RSDT_SIGNATURE) 0x1004 48 in
  let m := st32 (st32 (st32 m 0x1024 0) 0x1028 0x2000) 0x102c 0x3000 in
  st32 (st32 (st32 m 0x2000 FACP_SIGNATURE) 0x2024 0x4000) 0x3000 FACP_SIGNATURE.

Lemma find_acpi_table_first_witness :
  find_acpi_table_addr 16 ex_acpi FACS_SIGNATURE = Ret 0x4000 ∧
  find_acpi_table_addr 16 ex_acpi FACP_SIGNATURE = Ret 0x2000 ∧
  find_acpi_table_addr 16 ex_acpi (ACPI_SIGNATURE 65 80 73 67) = Ret 0.
Proof.
  assert (acpi_ok ex_acpi 0xf0010 0x1000) as Hok.
  { constructor; [|by vm_compute..]. exists 1%nat. split; [lia|]. split; [done|]. intros j Hj.
    assert (j = 0%nat) as -> by lia. by vm_compute. }
  split; [|split]; (rewrite (find_acpi_table_first 16 ex_acpi 0xf0010 0x1000) by (done || by vm_compute)); by vm_compute.
Defined.
