(* ===== verification/Cpus.v ===== *)
(** * The processors: lib/x86/misc.c and the start code of x86/cstart64.S

    The boot processor stores its identifier in the map, sends the start-up
    interrupts and waits until all processors are counted; each of the others
    enters its identifier in the map and counts itself.  [step] is one step of
    any of them: the processors run in any order, the code under the lock is one
    step.  A processor can be reset and started again ([send_sipi]). *)

From S2P Require Import Prelude PciConf Apic.

Definition INVALID_ID : Z := 255.

(** The static variables of misc.c and of the start code. *)
Record cpus := Cpus {
  lapicid_map : list Z;
  recorded : Z;
  map_lock : bool;
  cpu_online_count : Z;
  is_all_cpu_init : bool;
}.

Definition set_map_lock (b : bool) (s : cpus) : cpus :=
  Cpus (lapicid_map s) (recorded s) b (cpu_online_count s) (is_all_cpu_init s).
Definition set_online (n : Z) (s : cpus) : cpus :=
  Cpus (lapicid_map s) (recorded s) (map_lock s) n (is_all_cpu_init s).
Definition set_all_init (s : cpus) : cpus :=
  Cpus (lapicid_map s) (recorded s) (map_lock s) (cpu_online_count s) true.

(** [movl %ebx, lapicid_map]: four bytes, into an array that may be shorter. *)
Definition record_bsp (ebx : Z) : prog cpus unit :=
  s ← get;
  if (length (lapicid_map s) <? 4)%nat then stop_with Undef
  else
    modify (λ s, Cpus ([u8 ebx; u8 (Z.shiftr ebx 8); u8 (Z.shiftr ebx 16); u8 (Z.shiftr ebx 24)] ++
                         drop 4 (lapicid_map s))
                   (recorded s) (map_lock s) (cpu_online_count s) (is_all_cpu_init s)).

(** [id] is what [get_lapic_id] returns on the processor. *)
Definition ap_record_lapicid (id : Z) : prog cpus unit :=
  spin_lock map_lock set_map_lock;;
  s ← get;
  (if recorded s <? length (lapicid_map s) then
     modify (λ s, Cpus (<[Z.to_nat (recorded s) := u8 id]> (lapicid_map s)) (u8 (recorded s + 1)) (map_lock s)
                    (cpu_online_count s) (is_all_cpu_init s))
   else mret ());;
  spin_unlock set_map_lock.

(** [lock incw cpu_online_count] *)
Definition count_online : prog cpus unit := modify (λ s, set_online (s16 (cpu_online_count s + 1)) s).

(** The end of [send_sipi]. *)
Definition restore_count : prog cpus unit :=
  spin_lock map_lock set_map_lock;;
  modify (λ s, set_online (s16 (cpu_online_count s - 1)) s);;
  spin_unlock set_map_lock.

Fixpoint find_id (l : list Z) (id i : Z) : Z :=
  match l with [] => -1 | x :: l' => if x =? id then i else find_id l' id (i + 1) end.

Definition get_cpu_id (lapic_id : Z) (s : cpus) : Z := find_id (lapicid_map s) lapic_id 0.

Definition get_lapicid_map (cpu : Z) (s : cpus) : Z :=
  if cpu <? length (lapicid_map s) then default 0 (lapicid_map s !! Z.to_nat cpu) else INVALID_ID.

(** [dest] of [send_sipi] *)
Definition last_cpu (nr_cpus : Z) (s : cpus) : Z := default 0 (lapicid_map s !! Z.to_nat (u8 (nr_cpus - 1))).

(** ** The interrupts *)

Definition APIC_DEST_ALLBUT : Z := 0xC0000.
Definition APIC_DEST_PHYSICAL : Z := 0x00000.
Definition APIC_DM_INIT : Z := 0x00500.
Definition APIC_DM_STARTUP : Z := 0x00600.
Definition APIC_INT_ASSERT : Z := 0x04000.

Section Ipis.
Context {St : Type} {io : PortIO St} {cpu : Cpu St} (fuel : nat).

(** [bringup_ap] and [send_sipi] up to their loops. *)
Definition bringup_ipis : prog (apic_state St) unit :=
  apic_icr_write fuel (Z.lor (Z.lor (Z.lor APIC_DEST_ALLBUT APIC_DEST_PHYSICAL) APIC_DM_INIT) APIC_INT_ASSERT) 0;;
  apic_icr_write fuel (Z.lor (Z.lor APIC_DEST_ALLBUT APIC_DEST_PHYSICAL) APIC_DM_STARTUP) 0.

Definition sipi_ipis (dest : Z) : prog (apic_state St) unit :=
  apic_icr_write fuel (Z.lor (Z.lor APIC_DEST_PHYSICAL APIC_DM_INIT) APIC_INT_ASSERT) dest;;
  apic_icr_write fuel (Z.lor APIC_DEST_PHYSICAL APIC_DM_STARTUP) dest.
End Ipis.

(** ** The processors together *)

(** The processors that are starting, with their identifiers, those that have
    only to count themselves, and what the boot processor does: it waits in
    [bringup_ap], runs, or waits in [send_sipi] for the count given. *)
Inductive bsp := BringUp | Running | Sipi (cpus_cnt : Z).
Record board := Board { vars : cpus; starting : list Z; counting : nat; boot : bsp }.

Definition set_vars (v : cpus) (b : board) : board := Board v (starting b) (counting b) (boot b).

(** [nr_cpus] is [fwcfg_get_nb_cpus()]. *)
Inductive step (nr_cpus : Z) : board → board → Prop :=
  | step_record v v' l1 id l2 n p :
      is_all_cpu_init v = false → ap_record_lapicid id v = Ret ((), v') →
      step nr_cpus (Board v (l1 ++ id :: l2) n p) (Board v' (l1 ++ l2) (S n) p)
  | step_restarted v l1 id l2 n p :
      is_all_cpu_init v = true →
      step nr_cpus (Board v (l1 ++ id :: l2) n p) (Board v (l1 ++ l2) (S n) p)
  | step_count v v' l n p :
      count_online v = Ret ((), v') → step nr_cpus (Board v l (S n) p) (Board v' l n p)
  (** the loop of [bringup_ap] ends, [smp_init] returns *)
  | step_all_up v l n :
      ¬ cpu_online_count v < nr_cpus → step nr_cpus (Board v l n BringUp) (Board (set_all_init v) l n Running)
  (** [send_sipi]: the processor starts again; the loop; the count *)
  | step_send v l n :
      step nr_cpus (Board v l n Running) (Board v (last_cpu nr_cpus v :: l) n (Sipi (u8 (cpu_online_count v))))
  | step_sipi_done v v' l n c :
      ¬ c + 1 > cpu_online_count v → restore_count v = Ret ((), v') →
      step nr_cpus (Board v l n (Sipi c)) (Board v' l n Running).

(** ** The interrupts that are sent *)

Section IpiProofs.
Context {St : Type} {io : PortIO St} {cpu : Cpu St} {laws : LapicLaws St} (fuel : nat).
(** An interrupt that has been sent is accepted within [fuel] polls. *)
Context (Haccept : ∀ v d h, (lp_pending (lp_send v d h) < fuel)%nat).

Lemma two_ipis v1 v2 dest s :
  consistent s → icr_ok v1 → icr_ok v2 → 0 <= dest < 2 ^ 8 → (lp_pending (hw s) < fuel)%nat →
  wp (apic_icr_write fuel v1 dest;; apic_icr_write fuel v2 dest)
    (λ _ s', lp_ipis (hw s') = lp_ipis (hw s) ++ [(v1, dest); (v2, dest)]) s.
Proof using Type*.
  intros Hc H1 H2 Hd Hf. wstep. eapply wp_mono; [apply apic_icr_write_wp; done || lia|].
  intros [] s1 (E1 & Eo & Eb & v & d & h & Eh). unfold consistent in *.
  eapply wp_mono; [apply apic_icr_write_wp; [by unfold consistent; rewrite Eo, Eb|done|lia|rewrite Eh; apply Haccept]|].
  intros [] s2 (E2 & _). rewrite E2, E1, Eo, <- app_assoc. cbn [app]. rewrite (Z.mod_small dest) by lia. by destruct (decide (ops s = xapic_ops)).
Qed.

(** INIT and the start-up interrupt, to all other processors. *)
Lemma bringup_ipis_sends s :
  consistent s → (lp_pending (hw s) < fuel)%nat →
  wp (bringup_ipis fuel) (λ _ s', lp_ipis (hw s') = lp_ipis (hw s) ++ [(0xC4500, 0); (0xC0600, 0)]) s.
Proof using Type*. intros Hc Hf. by apply (two_ipis 0xC4500 0xC0600). Qed.

(** The same, to one of them. *)
Lemma sipi_ipis_sends dest s :
  consistent s → 0 <= dest < 2 ^ 8 → (lp_pending (hw s) < fuel)%nat →
  wp (sipi_ipis fuel dest) (λ _ s', lp_ipis (hw s') = lp_ipis (hw s) ++ [(0x4500, dest); (0x600, dest)]) s.
Proof using Type*. intros Hc Hd Hf. by apply (two_ipis 0x4500 0x600). Qed.
End IpiProofs.

(** ** The start *)

Lemma find_id_lookup l id i k :
  l !! k = Some id → NoDup l → find_id l id i = i + Z.of_nat k.
Proof.
  revert i k. induction l as [|x l IH]; intros i k Hk Hn; [done|]. apply NoDup_cons in Hn as [Hx Hn]. cbn [find_id].
  destruct k as [|k]; cbn in Hk.
  - injection Hk as ->. rewrite Z.eqb_refl. lia.
  - rewrite (proj2 (Z.eqb_neq x id)).
    + rewrite (IH (i + 1) k Hk Hn). lia.
    + intros ->. apply Hx. by eapply list_elem_of_lookup_2.
Qed.

Section Start.
Context (nr_cpus : nat) (bsp_id : Z) (ids : list Z).
Context (Hnr : (2 <= nr_cpus <= 255)%nat) (Hids : length ids = (nr_cpus - 1)%nat)
  (Hrange : Forall (λ id, 0 <= id < 2 ^ 8) (bsp_id :: ids)).

(** The map when the first [up] processors are in it. *)
Definition map_of (up : list Z) : list Z := (bsp_id :: up) ++ replicate (nr_cpus - 1 - length up) 0.

Definition vars_of (up : list Z) (online : Z) (init : bool) : cpus :=
  Cpus (map_of up) (1 + length up) false online init.

(** When [bringup_ap] has sent the interrupts. *)
Definition start : board := Board (vars_of [] 1 false) ids 0 BringUp.

(** The states that can be reached: the identifiers in the map and those of the
    processors that are starting are all; nobody is missing from the count. *)
Inductive ok : board → Prop :=
  | ok_bringup up l n :
      up ++ l ≡ₚ ids → (n <= length up)%nat →
      ok (Board (vars_of up (1 + length up - n) false) l n BringUp)
  | ok_running up : up ≡ₚ ids → ok (Board (vars_of up nr_cpus true) [] 0 Running)
  | ok_sipi up l n :
      up ≡ₚ ids → (length l + n <= 1)%nat →
      ok (Board (vars_of up (nr_cpus + 1 - (length l + n)%nat) true) l n (Sipi nr_cpus)).

Lemma map_of_length up : (length up <= nr_cpus - 1)%nat → length (map_of up) = nr_cpus.
Proof using Type*. intros H. unfold map_of. rewrite length_app, length_replicate. cbn [length]. lia. Qed.

Lemma record_next up id online :
  (length up < nr_cpus - 1)%nat → 0 <= id < 2 ^ 8 →
  ap_record_lapicid id (vars_of up online false) = Ret ((), vars_of (up ++ [id]) online false).
Proof using Type*.
  intros Hd Hid. unfold ap_record_lapicid, vars_of.
  cbv [spin_lock spin_unlock mbind prog_bind gets get modify mret prog_ret set_map_lock lapicid_map recorded map_lock
       cpu_online_count is_all_cpu_init].
  rewrite map_of_length by lia. rewrite (proj2 (Z.ltb_lt (1 + length up) nr_cpus)) by lia.
  do 3 f_equal.
  - unfold map_of. replace (Z.to_nat (1 + length up)) with (length (bsp_id :: up) + 0)%nat by (cbn; lia).
    rewrite insert_app_r, length_app. cbn [length].
    replace (nr_cpus - 1 - length up)%nat with (S (nr_cpus - 1 - (length up + 1)))%nat by lia.
    rewrite wrap_small by lia. change (bsp_id :: up ++ [id]) with ((bsp_id :: up) ++ [id]). by rewrite <- app_assoc.
  - rewrite length_app. cbn [length]. rewrite wrap_small by lia. lia.
Qed.

Lemma count_next up online init :
  -1 <= online < 2 ^ 15 - 1 → count_online (vars_of up online init) = Ret ((), vars_of up (online + 1) init).
Proof using Type*. intros Ho. unfold count_online, modify, set_online, vars_of. cbn. by rewrite swrap_small by lia. Qed.

Lemma restore_next up online init :
  0 <= online < 2 ^ 15 → restore_count (vars_of up online init) = Ret ((), vars_of up (online - 1) init).
Proof using Type*.
  intros Ho. unfold restore_count, spin_lock, spin_unlock, mbind, prog_bind, gets, modify, set_online, set_map_lock, vars_of.
  cbn. by rewrite swrap_small by lia.
Qed.

Lemma perm_length (up l : list Z) : up ++ l ≡ₚ ids → (length up + length l = nr_cpus - 1)%nat.
Proof using Type*. intros H. apply Permutation_length in H. rewrite length_app in H. lia. Qed.

Lemma ok_start : ok start.
Proof using Type*.
  unfold start. replace (vars_of [] 1 false) with (vars_of [] (1 + length (@nil Z) - 0%nat) false) by done.
  by apply ok_bringup.
Qed.

(** A step of a state that is ok; it is one step nearer to the end unless the boot
    processor decides to reset a processor. *)
Definition measure (b : board) : nat :=
  2 * length (starting b) + counting b + match boot b with Running => 0 | _ => 1 end.

Lemma ok_step b b' : ok b → step nr_cpus b b' → ok b' ∧ (boot b = Running ∨ (measure b' < measure b)%nat).
Proof using Hnr Hids Hrange.
  intros Hok Hs. destruct Hok as [up l n Hp Hn|up Hp|up l n Hp Hn].
  - pose proof (perm_length _ _ Hp) as Hlen. inversion Hs as [v v' l1 id l2 n' p Hi E|v l1 id l2 n' p Hi|v v' l' n' p E|v l' n' Hc| |]; subst.
    + assert (id ∈ ids) as Hin by (rewrite <- Hp; apply elem_of_app; right; apply elem_of_app; right; by left).
      rewrite length_app in Hlen. cbn [length] in Hlen.
      assert (0 <= id < 2 ^ 8).
      { apply Forall_cons in Hrange as [_ Hr]. rewrite Forall_forall in Hr. by apply Hr. }
      rewrite record_next in E by (done || lia). injection E as <-. split.
      * replace (1 + length up - n) with (1 + length (up ++ [id]) - S n) by (rewrite length_app; cbn; lia).
        apply ok_bringup; [|rewrite length_app; cbn; lia]. rewrite <- Hp, <- app_assoc. cbn. by rewrite Permutation_middle.
      * right. unfold measure. cbn. rewrite !length_app. cbn. lia.
    + done.
    + rewrite count_next in E by lia. injection E as <-. split; [|right; unfold measure; cbn; lia].
      replace (1 + length up - S n' + 1) with (1 + length up - n') by lia. apply ok_bringup; [done|lia].
    + cbn in Hc. assert (length l = 0%nat ∧ n = 0%nat) as [Hl ->] by lia. apply nil_length_inv in Hl as ->.
      rewrite app_nil_r in Hp. split; [|right; unfold measure; cbn; lia].
      change (set_all_init (vars_of up (1 + length up - 0%nat) false))
        with (vars_of up (1 + length up - 0%nat) true).
      assert (1 + length up - 0%nat = nr_cpus) as -> by (cbn in Hlen; lia). by apply (ok_running up).
  - inversion Hs as [v v' l1 id l2 n' p Hi E|v l1 id l2 n' p Hi| | |v l' n'|]; subst; try by destruct l1.
    split; [|by left]. cbn [cpu_online_count vars_of]. rewrite (wrap_small 8 nr_cpus) by lia.
    replace (vars_of up nr_cpus true) with (vars_of up (nr_cpus + 1 - (length [last_cpu nr_cpus (vars_of up nr_cpus true)] + 0)%nat) true) at 1
      by (f_equal; cbn; lia).
    apply ok_sipi; [done|cbn; lia].
  - inversion Hs as [v v' l1 id l2 n' p Hi E|v l1 id l2 n' p Hi|v v' l' n' p E| | |v v' l' n' c Hc E]; subst.
    + done.
    + split; [|right; unfold measure; cbn; rewrite !length_app; cbn; lia].
      replace (length (l1 ++ id :: l2) + n)%nat with (length (l1 ++ l2) + S n)%nat by (rewrite !length_app; cbn; lia).
      apply ok_sipi; [done|]. rewrite !length_app in *. cbn in Hn. lia.
    + rewrite count_next in E by lia. injection E as <-. split; [|right; unfold measure; cbn; lia].
      replace (nr_cpus + 1 - (length l + S n')%nat + 1) with (nr_cpus + 1 - (length l + n')%nat) by lia.
      apply ok_sipi; [done|lia].
    + cbn [cpu_online_count vars_of] in Hc. assert (length l = 0%nat ∧ n = 0%nat) as [Hl ->] by lia.
      apply nil_length_inv in Hl as ->. rewrite restore_next in E by (cbn; lia). injection E as <-.
      split; [|right; unfold measure; cbn; lia].
      assert (nr_cpus + 1 - 0%nat - 1 = nr_cpus) as -> by lia. by apply ok_running.
Qed.

Lemma ok_reachable b : rtc (step nr_cpus) start b → ok b.
Proof using Type*.
  revert b. apply rtc_ind_r; [apply ok_start|]. intros b1 b2 _ Hs IH. by eapply ok_step.
Qed.

(** Nobody waits for ever. *)
Lemma ok_progress b : ok b → boot b ≠ Running → ∃ b', step nr_cpus b b'.
Proof using Type*.
  intros Hok Hb. destruct Hok as [up l n Hp Hn|up Hp|up l n Hp Hn]; [|done|].
  - pose proof (perm_length _ _ Hp) as Hlen. destruct l as [|id l].
    + cbn in Hlen. destruct n as [|n].
      * eexists. apply step_all_up. cbn. lia.
      * eexists. eapply step_count. apply count_next. lia.
    + cbn [length] in Hlen. eexists. eapply (step_record nr_cpus _ _ [] id l); [done|]. apply record_next; [lia|].
      apply Forall_cons in Hrange as [_ Hr]. rewrite Forall_forall in Hr. apply Hr. rewrite <- Hp.
      apply elem_of_app. right. by left.
  - destruct l as [|id l].
    + destruct n as [|n].
      * eexists. eapply step_sipi_done; [cbn; lia|]. apply restore_next. cbn. lia.
      * eexists. eapply step_count. apply count_next. cbn in *. lia.
    + eexists. by apply (step_restarted nr_cpus _ [] id l).
Qed.

(** C6: the start of the processors, run in any order.  Until the boot processor
    has left [bringup_ap], and while [send_sipi] waits, some processor can take a
    step, and every step brings the end nearer; when it runs, all processors are
    counted, the map has the identifier of each once, the one of the boot
    processor first, and [get_cpu_id] and [get_lapicid_map] are inverse on them. *)
Theorem cpus_started b :
  NoDup (bsp_id :: ids) → rtc (step nr_cpus) start b →
  (boot b ≠ Running → ∃ b', step nr_cpus b b') ∧
  (∀ b', step nr_cpus b b' → boot b = Running ∨ (measure b' < measure b)%nat) ∧
  (boot b = Running →
     cpu_online_count (vars b) = nr_cpus ∧ starting b = [] ∧ counting b = 0%nat ∧
     (∃ others, lapicid_map (vars b) = bsp_id :: others ∧ others ≡ₚ ids) ∧
     ∀ id, id ∈ bsp_id :: ids →
       let c := get_cpu_id id (vars b) in 0 <= c < nr_cpus ∧ get_lapicid_map c (vars b) = id).
Proof using Type*.
  intros Hnd Hr. pose proof (ok_reachable b Hr) as Hok.
  split; [by apply ok_progress|]. split; [intros b' Hs; by eapply ok_step|]. intros Hrun.
  destruct Hok as [up l n Hp Hn|up Hp|up l n Hp Hn]; try done.
  assert (length up = (nr_cpus - 1)%nat) as Hlen by (rewrite <- Hids; by apply Permutation_length).
  assert (lapicid_map (vars (Board (vars_of up nr_cpus true) [] 0 Running)) = bsp_id :: up) as Hmap.
  { cbn. unfold map_of. rewrite Hlen, Nat.sub_diag. cbn. by rewrite app_nil_r. }
  split; [done|]. split; [done|]. split; [done|]. split; [by exists up|]. intros id Hid.
  unfold get_cpu_id, get_lapicid_map. rewrite Hmap.
  assert (id ∈ bsp_id :: up) as Hin by (by rewrite Hp).
  apply list_elem_of_lookup in Hin as [k Hk]. pose proof (lookup_lt_Some _ _ _ Hk) as Hkl.
  rewrite (find_id_lookup _ _ 0 k Hk) by (by rewrite Hp). cbn [length] in *. cbn zeta.
  split; [lia|]. rewrite (proj2 (Z.ltb_lt (0 + k) (S (length up)))) by lia.
  replace (Z.to_nat (0 + k)) with k by lia. by rewrite Hk.
Qed.
End Start.

(** What [record_bsp] leaves is the map that the theorem starts with. *)
Lemma record_bsp_map nr_cpus id ids :
  (4 <= nr_cpus)%nat → 0 <= id < 2 ^ 8 → length ids = (nr_cpus - 1)%nat →
  record_bsp id (Cpus (replicate nr_cpus 0) 1 false 1 false) = Ret ((), vars (start nr_cpus id ids)).
Proof.
  intros Hnr Hid _. unfold record_bsp, start, vars_of, map_of.
  cbv [mbind prog_bind get modify lapicid_map recorded map_lock cpu_online_count is_all_cpu_init vars].
  rewrite length_replicate, (proj2 (Nat.ltb_ge nr_cpus 4)) by lia. do 3 f_equal.
  rewrite !Z.shiftr_div_pow2 by lia. rewrite !Z.div_small by lia. rewrite (wrap_small 8 id) by lia.
  change (u8 0) with 0. cbn [app length]. replace nr_cpus with (4 + (nr_cpus - 4))%nat at 1 by lia.
  rewrite replicate_add. cbn [replicate app drop]. replace (nr_cpus - 1 - 0)%nat with (3 + (nr_cpus - 4))%nat by lia.
  by rewrite replicate_add.
Qed.

(** In the build for the safety virtual machine the map has two entries, and the
    store of four bytes runs over its end. *)
Lemma record_bsp_overrun id : record_bsp id (Cpus (replicate 2 0) 1 false 1 false) = Stop Undef.
Proof. reflexivity. Qed.

(** Four processors; the second is reset once. *)
Definition ex_board : board := Board (Cpus [0; 4; 2; 6] 4 false 4 true) [] 0 Running.

Lemma ex_run : rtc (step 4) (start 4 0 [2; 4; 6]) ex_board.
Proof.
  eapply rtc_l; [by eapply (step_record 4 _ _ [2] 4 [6])|]. eapply rtc_l; [by eapply step_count|].
  eapply rtc_l; [by eapply (step_record 4 _ _ [] 2 [6])|]. eapply rtc_l; [by eapply (step_record 4 _ _ [] 6 [])|].
  eapply rtc_l; [by eapply step_count|]. eapply rtc_l; [by eapply step_count|].
  eapply rtc_l; [apply step_all_up; by vm_compute|]. eapply rtc_l; [apply step_send|].
  eapply rtc_l; [by eapply (step_restarted 4 _ [] _ [])|]. eapply rtc_l; [by eapply step_count|].
  eapply rtc_l; [eapply step_sipi_done; [by vm_compute|reflexivity]|]. apply rtc_refl.
Qed.

Lemma cpus_started_witness :
  rtc (step 4) (start 4 0 [2; 4; 6]) ex_board ∧
  get_cpu_id 6 (vars ex_board) = 3 ∧ 0 <= get_cpu_id 2 (vars ex_board) < 4%nat.
Proof.
  split; [exact ex_run|]. split; [reflexivity|].
  assert (NoDup [0; 2; 4; 6]) as Hnd by (by apply (bool_decide_unpack _); vm_compute).
  assert (Forall (λ id, 0 <= id < 2 ^ 8) [0; 2; 4; 6]) as Hr by (repeat constructor; lia).
  destruct (cpus_started 4 0 [2; 4; 6] ltac:(lia) eq_refl Hr ex_board Hnd ex_run) as (_ & _ & H).
  destruct (H eq_refl) as (_ & _ & _ & _ & Hid). apply (Hid 2). right. by left.
Defined.
