(* ===== verification/E1000e.v ===== *)
(** * The network controller: lib/e1000e.c

    The driver that the interrupt tests use as a source of message signalled
    interrupts.  It has the functions that the program connects in a table of
    four, programs the device through its first memory region and its
    configuration space (PciUtil, PciMsi), and brings the local APIC of the boot
    processor into x2APIC mode through its registers.  The statics of the file are
    [driver]; the functions that are connected are opaque and work on the machine
    only.  Debug messages are left out. *)

From S2P Require Import Prelude Bits PciConf Apic Pci PciUtil PciMsi.

(** The time stamp counter, and EAX of a CPUID leaf. *)
Class Clock (St : Type) := {
  rdtsc : prog St Z;
  cpuid_eax : Z → prog St Z;
}.

(** [setup_idt] of desc.c, the call of a connected function, the identifier of the
    local APIC. *)
Class E1000Env (St : Type) := {
  setup_idt : prog St unit;
  call_int : Z → Z → prog St unit;      (* function, argument *)
  apic_id : prog St Z;
}.

Definition NET_BAR_DEFAULT : Z := 0xDF200000.
Definition PCI_PCIR_BAR (x : Z) : Z := 0x10 + x * 4.
Definition PCI_COMMAND_INTX_DISABLE : Z := 0x400.
Definition PCI_INTERRUPT_PIN : Z := 0x3d.
Definition ETH_ALEN : nat := 6.
Definition ERROR : Z := -1.

(** lib/e1000_regs.h and lib/e1000_def.h *)
Definition E1000_CTRL : Z := 0x0.
Definition E1000_STATUS : Z := 0x8.
Definition E1000_ICR : Z := 0xC0.
Definition E1000_ICS : Z := 0xC8.
Definition E1000_IMS : Z := 0xD0.
Definition E1000_IMC : Z := 0xD8.
Definition E1000_RCTL : Z := 0x100.
Definition E1000_TCTL : Z := 0x400.
Definition E1000_MANC : Z := 0x5820.
Definition E1000_RAL (i : Z) : Z := if i <=? 15 then 0x5400 + i * 8 else 0x54E0 + (i - 16) * 8.
Definition E1000_RAH (i : Z) : Z := if i <=? 15 then 0x5404 + i * 8 else 0x54E4 + (i - 16) * 8.
Definition E1000_CTRL_RST : Z := 0x4000000.
Definition E1000_MANC_ARP_EN : Z := 0x2000.
Definition E1000_TCTL_PSP : Z := 0x8.

Definition MSR_IA32_EXT_APIC_SIVR : Z := 0x80F.
Definition MSR_IA32_EXT_APIC_ISR0 : Z := 0x810.
Definition MSR_IA32_EXT_APIC_ISR7 : Z := 0x817.
Definition MSR_IA32_APIC_BASE : Z := 0x1B.
Definition MSR_IA32_EXT_APIC_EOI : Z := 0x80B.
Definition LAPIC_LVT_MASK : Z := 0x10000.
Definition LAPIC_SVR_VECTOR : Z := 0xFF.
Definition LAPIC_SVR_APIC_ENABLE_MASK : Z := 0x100.
(** CMCI, timer, thermal, performance counters, LINT0, LINT1, error *)
Definition LVT_MSRS : list Z := [0x82F; 0x832; 0x833; 0x834; 0x835; 0x836; 0x837].

(** An entry of the table: NULL, the function [msi_int_end], or a connected one. *)
Inductive int_func := fn_null | msi_int_end | fn (f : Z).

Record driver := Driver {
  init_flag : bool;
  bdf : Z;
  msi_set : bool;                       (* [pci_obj.msi] is not NULL *)
  bar0 : Z; bar0_end : Z; nr_bars : Z;
  mac_addr : list Z; perm_addr : list Z;
  int_func_t : list (int_func * Z);
  int_cnt : Z;
  icr_crt : Z;
  cpu_base_freq_khz : Z;
}.

(** The statics before the first call. *)
Definition driver0 : driver :=
  Driver false 0xFE false 0 0 0 (replicate ETH_ALEN 0) (replicate ETH_ALEN 0)
    (replicate 4 (fn_null, 0) ++ [(msi_int_end, 0)]) 0 0 2100000.

Definition set_init (b : bool) (d : driver) : driver :=
  Driver b (bdf d) (msi_set d) (bar0 d) (bar0_end d) (nr_bars d) (mac_addr d) (perm_addr d) (int_func_t d) (int_cnt d) (icr_crt d) (cpu_base_freq_khz d).
Definition set_bdf (b : Z) (d : driver) : driver :=
  Driver (init_flag d) b (msi_set d) (bar0 d) (bar0_end d) (nr_bars d) (mac_addr d) (perm_addr d) (int_func_t d) (int_cnt d) (icr_crt d) (cpu_base_freq_khz d).
Definition set_msi (b : bool) (d : driver) : driver :=
  Driver (init_flag d) (bdf d) b (bar0 d) (bar0_end d) (nr_bars d) (mac_addr d) (perm_addr d) (int_func_t d) (int_cnt d) (icr_crt d) (cpu_base_freq_khz d).
Definition set_bars (a e n : Z) (d : driver) : driver :=
  Driver (init_flag d) (bdf d) (msi_set d) a e n (mac_addr d) (perm_addr d) (int_func_t d) (int_cnt d) (icr_crt d) (cpu_base_freq_khz d).
Definition set_mac (m p : list Z) (d : driver) : driver :=
  Driver (init_flag d) (bdf d) (msi_set d) (bar0 d) (bar0_end d) (nr_bars d) m p (int_func_t d) (int_cnt d) (icr_crt d) (cpu_base_freq_khz d).
Definition set_table (l : list (int_func * Z)) (d : driver) : driver :=
  Driver (init_flag d) (bdf d) (msi_set d) (bar0 d) (bar0_end d) (nr_bars d) (mac_addr d) (perm_addr d) l (int_cnt d) (icr_crt d) (cpu_base_freq_khz d).
Definition set_counts (n v : Z) (d : driver) : driver :=
  Driver (init_flag d) (bdf d) (msi_set d) (bar0 d) (bar0_end d) (nr_bars d) (mac_addr d) (perm_addr d) (int_func_t d) n v (cpu_base_freq_khz d).
Definition set_freq (f : Z) (d : driver) : driver :=
  Driver (init_flag d) (bdf d) (msi_set d) (bar0 d) (bar0_end d) (nr_bars d) (mac_addr d) (perm_addr d) (int_func_t d) (int_cnt d) (icr_crt d) f.

Record e1000_state (St : Type) := EState { drv : driver; msis : msi_state St }.
Arguments EState {St} _ _.
Arguments drv {St} _.
Arguments msis {St} _.

Section E1000e.
Context {St : Type} {io : PortIO St} {cpu : Cpu St} {irq : IrqOps St} {clk : Clock St} {env : E1000Env St}.
(** The bound on the readings of the clock, and the address of [msi_irq]. *)
Context (fuel : nat) (msi_irq_addr : Z).
#[local] Abbreviation eprog := (prog (e1000_state St)).

Definition on_msi {A} (m : prog (msi_state St) A) : eprog A := zoom msis (λ u s, EState (drv s) u) m.
Definition on_machine {A} (m : prog St A) : eprog A := on_msi (PciMsi.on_util (PciUtil.on_hw m)).
Definition set_drv (f : driver → driver) : eprog unit := modify (λ s, EState (f (drv s)) (msis s)).
Definition pdev (d : driver) : option msi_dev := Some (MsiDev (bdf d) (msi_set d)).

Definition read_cfg (off : Z) (n : nat) : eprog Z := d ← gets drv; on_msi (PciMsi.read_cfg (bdf d) off n).
Definition write_cfg (off : Z) (n : nat) (v : Z) : eprog unit :=
  d ← gets drv; on_msi (PciMsi.write_cfg (bdf d) off n v).

Definition er32 (reg : Z) : eprog Z := d ← gets drv; on_machine (mm_read 4 (u32 (bar0 d + reg))).
Definition ew32 (reg val : Z) : eprog unit := d ← gets drv; on_machine (mm_write 4 val (u32 (bar0 d + reg))).

(** [e1e_flush] *)
Definition flush : eprog unit := _ ← er32 E1000_STATUS; mret ().

(** ** The clock *)

Definition cpu_base_freq_init : eprog unit :=
  a ← on_machine (cpuid_eax 0x16); set_drv (set_freq (u64 (a * 1000))).

Definition delay_poll (tsc : Z) (_ : unit) : prog St (unit + unit) :=
  t ← rdtsc; mret (if t <? tsc then inl () else inr ()).

Definition delay_loop_ms (ms : Z) : eprog Z :=
  d ← gets drv;
  t ← on_machine rdtsc;
  on_machine (iter fuel (delay_poll (u64 (t + u64 (ms * cpu_base_freq_khz d)))) ());;
  mret 0.

(** ** The table of functions *)

(** The loop of [msi_int_connect]: [None] is the result -1. *)
Fixpoint connect_in (l : list (int_func * Z)) (int_ck : int_func) (p_arg : Z) : outcome (option (list (int_func * Z))) :=
  match l with
  | [] => Stop Undef
  | (c, a) :: l' =>
      match c with
      | msi_int_end => Ret None
      | fn_null => Ret (Some ((int_ck, p_arg) :: l'))
      | fn _ => match connect_in l' int_ck p_arg with
                | Ret (Some l'') => Ret (Some ((c, a) :: l''))
                | r => r
                end
      end
  end.

Definition msi_int_connect (int_ck : int_func) (p_arg : Z) : eprog Z :=
  d ← gets drv;
  match connect_in (int_func_t d) int_ck p_arg with
  | Ret (Some l) => set_drv (set_table l);; mret 0
  | Ret None => mret (-1)
  | Stop e => stop_with e
  end.

(** The loop of [msi_irq]. *)
Fixpoint call_all (l : list (int_func * Z)) : prog St unit :=
  match l with
  | [] => stop_with Undef
  | (fn f, a) :: l' => call_int f a;; call_all l'
  | _ :: _ => mret ()
  end.

Definition msi_irq : eprog unit :=
  set_drv (λ d, set_counts (u64 (int_cnt d + 1)) (icr_crt d) d);;
  reg_val ← er32 E1000_ICR;
  set_drv (λ d, set_counts (int_cnt d) reg_val d);;
  d ← gets drv;
  on_machine (call_all (int_func_t d));;
  on_machine (wrmsr MSR_IA32_EXT_APIC_EOI 0).

Definition msi_int_cnt_get : eprog Z := gets (λ s, int_cnt (drv s)).

(** ** The local APIC *)

Definition clear_isr_step (isr_reg : Z) (i : Z) : prog St (Z + unit) :=
  if i <? 32 then
    v ← rdmsr isr_reg;
    if negb (v =? 0) then wrmsr MSR_IA32_EXT_APIC_EOI 0;; mret (inl (i + 1)) else mret (inr ())
  else mret (inr ()).

(** The inner loop has at most 33 steps, the outer one runs from ISR7 to ISR0. *)
Definition clear_lapic_isr : eprog unit :=
  for_up 8 0 (λ k _, on_machine (iter 33 (clear_isr_step (MSR_IA32_EXT_APIC_ISR7 - k)) 0)) ().

Definition early_init_lapic : eprog unit :=
  base ← on_machine (rdmsr MSR_IA32_APIC_BASE);
  _ ← on_machine (rdmsr MSR_IA32_EXT_APIC_SIVR);
  base ← (if negb (Z.shiftl 1 11 =? Z.land (Z.shiftl 1 11) base) then
            on_machine (wrmsr MSR_IA32_APIC_BASE (Z.lor base (2 ^ 11)));; mret (Z.lor base (2 ^ 11))
          else mret base);
  if negb (Z.shiftl 1 10 =? Z.land (Z.shiftl 1 10) base) then
    on_machine (wrmsr MSR_IA32_APIC_BASE (Z.lor base (2 ^ 10)))
  else mret ().

Definition mask_lvt (r : Z) : eprog unit := on_machine (wrmsr r LAPIC_LVT_MASK).

Fixpoint mask_lvts (l : list Z) : eprog unit :=
  match l with [] => mret () | r :: l' => mask_lvt r;; mask_lvts l' end.

Definition init_lapic : eprog unit :=
  mask_lvts LVT_MSRS;;
  on_machine (wrmsr MSR_IA32_EXT_APIC_SIVR (Z.lor LAPIC_SVR_APIC_ENABLE_MASK LAPIC_SVR_VECTOR));;
  clear_lapic_isr.

(** ** The device *)

Definition pci_card_detect : eprog Z :=
  reg_val ← read_cfg PCI_VENDOR_ID 4;
  if (reg_val =? 0xFFFFFFFF) || (reg_val =? 0) || (reg_val =? 0xFFFF0000) || (reg_val =? 0xFFFF) then mret (-1)
  else _ ← er32 E1000_STATUS; mret 0.

Definition e1000e_probe : eprog Z :=
  _ ← pci_card_detect;
  _ ← read_cfg 0xD4 4;
  write_cfg 0xD4 4 0xFEE00000;;
  _ ← read_cfg 0xD4 4;
  mret 0.

(** The bytes of a word, from the lowest. *)
Definition bytes_of_word (n : nat) (w : Z) : list Z := (λ i : nat, u8 (Z.shiftr w (i * 8))) <$> seq 0 n.

Definition e1000e_read_mac_addr : eprog unit :=
  rar_high ← er32 (E1000_RAH 0);
  rar_low ← er32 (E1000_RAL 0);
  let addr := bytes_of_word 4 rar_low ++ bytes_of_word 2 rar_high in
  set_drv (set_mac addr addr).

Definition e1000e_hw_reset : eprog unit :=
  ew32 E1000_IMC 0xffffffff;;
  ew32 E1000_RCTL 0;;
  ew32 E1000_TCTL E1000_TCTL_PSP;;
  flush;;
  _ ← delay_loop_ms 100;
  ctrl ← er32 E1000_CTRL;
  ew32 E1000_CTRL (Z.lor ctrl E1000_CTRL_RST);;
  _ ← delay_loop_ms 50;
  manc ← er32 E1000_MANC;
  ew32 E1000_MANC (Z.ldiff manc E1000_MANC_ARP_EN);;
  ew32 E1000_IMC 0xffffffff;;
  _ ← er32 E1000_ICR;
  mret ().

Definition pci_resource_start (bar : Z) : eprog Z :=
  reg_val ← read_cfg (PCI_PCIR_BAR bar) 4;
  if reg_val =? 0 then
    write_cfg (PCI_PCIR_BAR bar) 4 NET_BAR_DEFAULT;;
    read_cfg (PCI_PCIR_BAR bar) 4
  else mret reg_val.

Definition e1000e_int_enabe : eprog unit :=
  ew32 E1000_IMS (Z.lor (Z.shiftl 1 24) (Z.shiftl 1 0));;
  _ ← er32 E1000_IMS; mret ().

Definition pci_enable_dev : eprog Z :=
  reg_val ← read_cfg PCI_COMMAND 2;
  write_cfg PCI_COMMAND 2
    (Z.lor reg_val (Z.lor (Z.lor (Z.lor PCI_COMMAND_IO PCI_COMMAND_MEMORY) PCI_COMMAND_MASTER) PCI_COMMAND_INTX_DISABLE));;
  _ ← delay_loop_ms 10;
  pin ← read_cfg PCI_INTERRUPT_PIN 1;
  (if negb (pin =? 0) then
     v ← read_cfg PCI_COMMAND 2;
     if bit_set v PCI_COMMAND_INTX_DISABLE then write_cfg PCI_COMMAND 2 (Z.ldiff v PCI_COMMAND_INTX_DISABLE)
     else mret ()
   else mret ());;
  _ ← read_cfg 0xCC 2;
  mret 0.

(** ** Message signalled interrupts *)

Definition e1000e_msi_probe : eprog Z := d ← gets drv; on_msi (pci_msi_probe (pdev d)).
Definition msi_enable_dev (flag : bool) : eprog unit :=
  d ← gets drv; _ ← on_msi (pci_msi_enable (pdev d) flag); mret ().
Definition msi_config_dev (addr data : Z) : eprog unit :=
  d ← gets drv; _ ← on_msi (pci_msi_config (pdev d) addr (u16 data)); mret ().

Definition e1000e_msi_enable : eprog unit := msi_enable_dev true.
Definition e1000e_msi_disable : eprog unit := msi_enable_dev false.
Definition e1000e_msi_config (addr data : Z) : eprog unit := msi_config_dev addr data.
Definition e1000e_msi_reset : eprog unit := msi_enable_dev false;; msi_config_dev 0 0xFF.

Definition e1000e_msi_config_enable (addr data : Z) : eprog Z :=
  msi_enable_dev false;; msi_config_dev addr data;; msi_enable_dev true;; mret 0.

Definition e1000e_msi_handler_connect : eprog Z :=
  d ← gets drv; on_msi (pci_msi_irq_start (pdev d) msi_irq_addr);; mret 0.

Definition msi_int_simulate : eprog unit :=
  _ ← e1000e_msi_handler_connect;
  e1000e_int_enabe;;
  ew32 E1000_ICS (Z.lor (Z.shiftl 1 24) (Z.shiftl 1 0));;
  flush.

(** ** The whole driver *)

Definition e1000e_init_flag_reset : eprog unit := set_drv (set_init false).

Definition e1000e_init (b : Z) : eprog Z :=
  cpu_base_freq_init;;
  set_drv (set_bdf b);;
  ret ← pci_card_detect;
  if ret =? -1 then mret (-1)
  else
    d ← gets drv;
    if init_flag d then mret 0
    else
      set_drv (λ d, set_init (negb (init_flag d)) d);;
      on_machine setup_idt;;
      d ← gets drv;
      _ ← on_msi (pci_msi_init (pdev d));
      set_drv (set_msi true);;
      early_init_lapic;;
      init_lapic;;
      clear_lapic_isr;;
      ret ← e1000e_probe;
      if ret =? ERROR then mret (-1)
      else
        _ ← delay_loop_ms 1;
        start ← pci_resource_start 0;
        set_drv (λ d, set_bars start (bar0_end d) (nr_bars d) d);;
        d ← gets drv;
        size ← on_msi (PciMsi.on_util (pci_pdev_get_bar_size (bdf d) 0));
        set_drv (λ d, set_bars (bar0 d) (u32 (bar0 d + size)) 1 d);;
        e1000e_hw_reset;;
        e1000e_read_mac_addr;;
        _ ← pci_enable_dev;
        _ ← e1000e_msi_probe;
        mret 0.

Definition e1000e_reset : eprog unit :=
  e1000e_hw_reset;;
  e1000e_read_mac_addr;;
  _ ← pci_enable_dev;
  e1000e_msi_reset.

Definition MAKE_NET_MSI_MESSAGE_ADDR (base apic_id : Z) : Z := Z.lor base (u32 (Z.shiftl apic_id 12)).
Definition MAKE_NET_MSI_MESSAGE_DATA (vector : Z) : Z := Z.lor (Z.shiftl 0 8) vector.

(** The loop [while (num)]. *)
Fixpoint simulate (num : nat) : eprog unit :=
  match num with
  | O => mret ()
  | S num' => msi_int_simulate;; _ ← delay_loop_ms 1000; simulate num'
  end.

(** [handler] is the address of [msi_int_handler_demo]; [devs] is the array of 32
    entries. *)
Definition msi_int_demo (handler : Z) (devs : list util_dev) (msi_trigger_num : nat) : eprog Z :=
  _ ← msi_int_connect (fn handler) 1;
  _ ← msi_int_connect (fn handler) 2;
  _ ← msi_int_connect (fn handler) 3;
  _ ← msi_int_connect (fn handler) 4;
  '(devs, nr) ← on_msi (PciMsi.on_util (pci_pdev_enumerate_dev devs 32));
  match get_pci_bdf_by_dev_vendor devs nr (DEV_VEN 0x156f 0x8086) with
  | Stop e => stop_with e
  | Ret None => mret 0
  | Ret (Some b) =>
      _ ← e1000e_init b;
      lapic_id ← on_machine apic_id;
      _ ← e1000e_msi_config_enable (MAKE_NET_MSI_MESSAGE_ADDR 0xFFE00000 lapic_id) (MAKE_NET_MSI_MESSAGE_DATA 0x40);
      simulate msi_trigger_num;;
      mret 0
  end.
End E1000e.

(** ** The local APIC in x2APIC mode *)

(** The registers that the driver touches: the in-service register as one number,
    of which an end of interrupt clears the highest bit; the local vector table and
    the spurious vector.  Outside of x2APIC mode the registers do not exist. *)
Class X2Laws (St : Type) {cpu : Cpu St} := {
  x2_base : St → Z;
  x2_isr : St → Z;
  x2_msr : St → Z → Z;
  x2_eoi : St → St;
  x2_put : Z → Z → St → St;
  x2_rd_base s : rdmsr MSR_IA32_APIC_BASE s = Ret (x2_base s, s);
  x2_rd_sivr s : mode_of (x2_base s) = Some x2apic_ops →
    rdmsr MSR_IA32_EXT_APIC_SIVR s = Ret (x2_msr s MSR_IA32_EXT_APIC_SIVR, s);
  x2_rd_isr s k : mode_of (x2_base s) = Some x2apic_ops → 0 <= k < 8 →
    rdmsr (MSR_IA32_EXT_APIC_ISR0 + k) s = Ret (x2_isr s / 2 ^ (32 * k) mod 2 ^ 32, s);
  x2_wr_eoi s : mode_of (x2_base s) = Some x2apic_ops → wrmsr MSR_IA32_EXT_APIC_EOI 0 s = Ret ((), x2_eoi s);
  x2_wr_lvt s r : mode_of (x2_base s) = Some x2apic_ops → r ∈ LVT_MSRS →
    wrmsr r LAPIC_LVT_MASK s = Ret ((), x2_put r LAPIC_LVT_MASK s);
  x2_wr_sivr s v : mode_of (x2_base s) = Some x2apic_ops → 0 <= v < 2 ^ 10 →
    wrmsr MSR_IA32_EXT_APIC_SIVR v s = Ret ((), x2_put MSR_IA32_EXT_APIC_SIVR v s);
  x2_gp s r : mode_of (x2_base s) ≠ Some x2apic_ops → 0x800 <= r < 0x900 → rdmsr r s = Stop Halt;
  x2_isr_range s : 0 <= x2_isr s < 2 ^ 256;
  x2_isr_eoi s : x2_isr s ≠ 0 → x2_isr (x2_eoi s) = x2_isr s - 2 ^ Z.log2 (x2_isr s);
  x2_isr_put r v s : x2_isr (x2_put r v s) = x2_isr s;
  x2_msr_eoi s r : x2_msr (x2_eoi s) r = x2_msr s r;
  x2_msr_put r v s r' : x2_msr (x2_put r v s) r' = if r' =? r then v else x2_msr s r';
  x2_base_eoi s : x2_base (x2_eoi s) = x2_base s;
  x2_base_put r v s : x2_base (x2_put r v s) = x2_base s;
}.

(** [m] of the machine inside the state of the driver. *)
Definition machine {St} (s : e1000_state St) : St := PciUtil.hw (util (msis s)).
Definition with_machine {St} (h : St) (s : e1000_state St) : e1000_state St :=
  EState (drv s) (MState (cur_msi (msis s)) (UState (mmcfg_addr (util (msis s))) h)).

Lemma with_machine_id {St} (s : e1000_state St) : with_machine (machine s) s = s.
Proof. by destruct s as [d [m [a h]]]. Qed.

Lemma wp_machine {St A} (m : prog St A) (Q : A → e1000_state St → Prop) s :
  wp m (λ a h, Q a (with_machine h s)) (machine s) → wp (on_machine m) Q s.
Proof. intros H. unfold on_machine, on_msi, PciMsi.on_util, PciUtil.on_hw. wstep. wstep. wstep. exact H. Qed.

Section Lapic.
Context {St : Type} {cpu : Cpu St} {laws : X2Laws St}.

(** The same but for the in-service register. *)
Definition same_lapic (h h' : St) : Prop := x2_base h' = x2_base h ∧ ∀ r, x2_msr h' r = x2_msr h r.

(** The highest bit of a number below [2 ^ n] goes. *)
Lemma clear_highest x n : 0 < x < 2 ^ n → 0 <= x - 2 ^ Z.log2 x < 2 ^ (n - 1).
Proof using Type.
  intros Hx. assert (0 <= n) by (destruct (decide (0 <= n)); [done|rewrite Z.pow_neg_r in Hx; lia]).
  pose proof (Z.log2_spec x ltac:(lia)) as [H1 H2]. pose proof (Z.log2_nonneg x).
  assert (Z.log2 x < n) by (apply Z.log2_lt_pow2; lia).
  pose proof (Z.pow_le_mono_r 2 (Z.log2 x) (n - 1) ltac:(lia) ltac:(lia)).
  rewrite Z.pow_succ_r in H2 by lia. lia.
Qed.

(** One register: the bits of the registers above are clear. *)
Lemma clear_isr_register k h0 h :
  0 <= k < 8 → mode_of (x2_base h0) = Some x2apic_ops → same_lapic h0 h → x2_isr h < 2 ^ (32 * (k + 1)) →
  wp (iter 33 (clear_isr_step (MSR_IA32_EXT_APIC_ISR0 + k)) 0)
    (λ _ h', same_lapic h0 h' ∧ x2_isr h' < 2 ^ (32 * k)) h.
Proof using Type.
  intros Hk Hm Hs Hi.
  apply (wp_iter (λ n i h, 0 <= i <= 32 ∧ Z.of_nat n = 32 - i ∧ same_lapic h0 h ∧ x2_isr h < 2 ^ (32 * (k + 1) - i)) _ _)
    with (n := 32%nat); [|split_and!; [lia..|done|by rewrite Z.sub_0_r]|lia].
  clear h Hs Hi. intros n i h (Hr & Hn & [Hb Hs] & Hi). unfold clear_isr_step.
  destruct (Z.ltb_spec i 32).
  - wstep. eapply wp_exact; [apply x2_rd_isr; [by rewrite Hb|done]|].
    pose proof (x2_isr_range h) as Hir. pose proof (Z.pow_pos_nonneg 2 (32 * k) ltac:(lia) ltac:(lia)) as Hp.
    assert (x2_isr h < 2 ^ (32 * k) * 2 ^ 32) as Hi'.
    { rewrite <- Z.pow_add_r by lia. eapply Z.lt_le_trans; [exact Hi|]. apply Z.pow_le_mono_r; lia. }
    assert (0 <= x2_isr h / 2 ^ (32 * k) < 2 ^ 32) as Hq
      by (split; [apply Z.div_pos; lia|apply Z.div_lt_upper_bound; lia]).
    rewrite (Z.mod_small (x2_isr h / 2 ^ (32 * k)) (2 ^ 32) Hq).
    destruct (Z.eqb_spec (x2_isr h / 2 ^ (32 * k)) 0) as [E|E]; cbn [negb]; wstep.
    + split; [done|]. apply Z.div_small_iff in E; lia.
    + assert (0 < x2_isr h) as Hpos.
      { destruct (decide (x2_isr h = 0)) as [E0|]; [|lia]. by rewrite E0 in E. }
      eapply wp_exact; [apply x2_wr_eoi; by rewrite Hb|]. wstep. exists (Z.to_nat (32 - (i + 1))).
      pose proof (clear_highest (x2_isr h) (32 * (k + 1) - i) (conj Hpos Hi)) as Hc.
      split; [lia|]. split; [lia|]. split; [lia|]. split; [split|].
      * by rewrite x2_base_eoi.
      * intros r. by rewrite x2_msr_eoi.
      * rewrite x2_isr_eoi by (intros E0; by rewrite E0 in Hpos).
        replace (32 * (k + 1) - (i + 1)) with (32 * (k + 1) - i - 1) by lia. apply Hc.
  - wstep. split; [done|]. assert (i = 32) as -> by lia. by replace (32 * k) with (32 * (k + 1) - 32) by lia.
Qed.

Definition lapic_at (h0 : St) (s0 s : e1000_state St) : Prop := s = with_machine (machine s) s0 ∧ same_lapic h0 (machine s).

Lemma clear_lapic_isr_wp s :
  mode_of (x2_base (machine s)) = Some x2apic_ops →
  wp clear_lapic_isr (λ _ s', lapic_at (machine s) s s' ∧ x2_isr (machine s') = 0) s.
Proof using Type.
  intros Hm. unfold clear_lapic_isr.
  apply (wp_for_up (λ j _ s', lapic_at (machine s) s s' ∧ x2_isr (machine s') < 2 ^ (32 * (8 - j)))).
  - intros j [] s1 Hj [[E Hs] Hi]. apply wp_machine.
    replace (MSR_IA32_EXT_APIC_ISR7 - j) with (MSR_IA32_EXT_APIC_ISR0 + (7 - j))
      by (unfold MSR_IA32_EXT_APIC_ISR7, MSR_IA32_EXT_APIC_ISR0; lia).
    eapply wp_mono; [apply (clear_isr_register (7 - j) (machine s)); [lia|done|done|]|].
    { by replace (7 - j + 1) with (8 - j) by lia. }
    intros [] h (H1 & H2). split; [split; [by rewrite E|done]|].
    by replace (8 - (j + 1)) with (7 - j) by lia.
  - split; [split; [by rewrite with_machine_id|done]|]. apply x2_isr_range.
  - intros [] s1 [H1 H2]. split; [done|]. pose proof (x2_isr_range (machine s1)).
    change (2 ^ (32 * (8 - (0 + 8%nat)))) with 1 in H2. lia.
Qed.

(** The local vector table masked. *)
Lemma mask_lvts_wp l s :
  mode_of (x2_base (machine s)) = Some x2apic_ops → (∀ r, r ∈ l → r ∈ LVT_MSRS) →
  wp (mask_lvts l)
    (λ _ s', s' = with_machine (machine s') s ∧ x2_base (machine s') = x2_base (machine s) ∧
       ∀ r, x2_msr (machine s') r = if decide (r ∈ l) then LAPIC_LVT_MASK else x2_msr (machine s) r) s.
Proof using Type.
  revert s. induction l as [|r l IH]; intros s Hm Hl; cbn [mask_lvts].
  - wstep. rewrite with_machine_id. split; [done|]. split; [done|]. intros r.
    rewrite decide_False; [done|apply not_elem_of_nil].
  - wstep. unfold mask_lvt. apply wp_machine. eapply wp_exact; [apply x2_wr_lvt; [done|apply Hl; by left]|].
    eapply wp_mono; [apply IH; cbn; [by rewrite x2_base_put|intros ? ?; apply Hl; by right]|].
    intros [] s' (E & Eb & Er). cbn in Eb, Er. rewrite x2_base_put in Eb. split; [by rewrite E|]. split; [done|].
    intros r'. rewrite Er. destruct (decide (r' ∈ l)) as [Hin|Hin].
    + rewrite decide_True by (by right). done.
    + rewrite x2_msr_put. destruct (Z.eqb_spec r' r) as [->|Hne].
      * rewrite decide_True by (by left). done.
      * rewrite decide_False; [done|]. intros [?|?]%elem_of_cons; done.
Qed.
End Lapic.

Section Init.
Context {St : Type} {io : PortIO St} {cpu : Cpu St} {irq : IrqOps St} {clk : Clock St} {env : E1000Env St}.
Context {laws : X2Laws St} (fuel : nat) (msi_irq_addr : Z).

(** In x2APIC mode nothing has to be changed; in any other mode the first thing
    [early_init_lapic] does after it has read the base is a #GP. *)
Lemma early_init_x2 s :
  mode_of (x2_base (machine s)) = Some x2apic_ops → early_init_lapic s = Ret ((), s).
Proof using laws.
  intros Hm.
  assert (wp early_init_lapic (λ _ s', s' = s) s) as H; [|by apply wp_run in H as ([] & s' & E & ->)].
  unfold early_init_lapic. wstep. apply wp_machine. eapply wp_exact; [apply x2_rd_base|]. rewrite with_machine_id.
  wstep. apply wp_machine. eapply wp_exact; [by apply x2_rd_sivr|]. rewrite with_machine_id.
  assert (∀ i, 0 <= i → Z.testbit (x2_base (machine s)) i = true →
    Z.shiftl 1 i =? Z.land (Z.shiftl 1 i) (x2_base (machine s)) = true) as Hb.
  { intros i Hi Hti. apply Z.eqb_eq, Z.bits_inj'. intros j Hj.
    rewrite Z.land_spec, Z.shiftl_mul_pow2, Z.mul_1_l, testbit_pow2 by lia.
    destruct (Z.eqb_spec j i) as [->|]; [by rewrite Hti|done]. }
  unfold mode_of in Hm. destruct (Z.testbit _ 11) eqn:E11; [|done]. destruct (Z.testbit _ 10) eqn:E10; [|done].
  wstep. rewrite (Hb 11) by done. cbn [negb]. cbv iota. wstep. rewrite (Hb 10) by done. cbn [negb]. cbv iota. by wstep.
Qed.

Lemma early_init_other s :
  mode_of (x2_base (machine s)) ≠ Some x2apic_ops → early_init_lapic s = Stop Halt.
Proof using laws.
  intros Hm. unfold early_init_lapic, on_machine, on_msi, PciMsi.on_util, PciUtil.on_hw, zoom, mbind, prog_bind.
  fold (machine s). rewrite x2_rd_base. cbn [hw util msis drv mmcfg_addr cur_msi].
  by rewrite (x2_gp (machine s) MSR_IA32_EXT_APIC_SIVR Hm) by (by unfold MSR_IA32_EXT_APIC_SIVR).
Qed.

(** In x2APIC mode. *)
Lemma lapic_setup_wp s :
  mode_of (x2_base (machine s)) = Some x2apic_ops →
  wp (early_init_lapic;; init_lapic;; clear_lapic_isr)
    (λ _ s', s' = with_machine (machine s') s ∧ x2_base (machine s') = x2_base (machine s) ∧
       x2_isr (machine s') = 0 ∧
       ∀ r, x2_msr (machine s') r =
         if decide (r = MSR_IA32_EXT_APIC_SIVR) then 0x1FF
         else if decide (r ∈ LVT_MSRS) then LAPIC_LVT_MASK else x2_msr (machine s) r) s.
Proof using laws.
  intros Hm.
  wstep. eapply wp_exact; [by apply early_init_x2|]. unfold init_lapic. wstep. wstep.
  eapply wp_mono; [apply mask_lvts_wp; done|]. intros [] s1 (E1 & B1 & R1).
  wstep. apply wp_machine. eapply wp_exact; [apply x2_wr_sivr; [by rewrite B1|by vm_compute]|].
  set (s2 := with_machine _ s1).
  assert (x2_base (machine s2) = x2_base (machine s)) as B2 by (cbn; by rewrite x2_base_put).
  eapply wp_mono; [apply clear_lapic_isr_wp; by rewrite B2|]. intros [] s3 [[E3 [B3 R3]] _].
  eapply wp_mono; [apply clear_lapic_isr_wp; by rewrite B3, B2|]. intros [] s4 [[E4 [B4 R4]] I4].
  split; [rewrite E4, E3; unfold s2; by rewrite E1|]. split; [congruence|]. split; [done|].
  intros r. rewrite R4, R3. cbn [machine s2 with_machine msis util hw]. rewrite x2_msr_put.
  destruct (Z.eqb_spec r MSR_IA32_EXT_APIC_SIVR); [by rewrite decide_True by done|].
  rewrite decide_False by done. apply R1.
Qed.
(** C39: the set-up of the local APIC in [e1000e_init].  If it is in x2APIC mode,
    the set-up returns with every entry of the local vector table masked, the APIC
    enabled with the spurious vector 0xff, and no interrupt in service; the mode,
    the other registers and the driver are as before.  In every other mode, which
    [early_init_lapic] is meant to leave, it stops with a #GP: it reads a register
    of x2APIC mode before it enters the mode. *)
Theorem lapic_setup_clears s :
  (mode_of (x2_base (machine s)) = Some x2apic_ops →
   wp (early_init_lapic;; init_lapic;; clear_lapic_isr)
     (λ _ s', s' = with_machine (machine s') s ∧ x2_base (machine s') = x2_base (machine s) ∧
        x2_isr (machine s') = 0 ∧
        ∀ r, x2_msr (machine s') r =
          if decide (r = MSR_IA32_EXT_APIC_SIVR) then 0x1FF
          else if decide (r ∈ LVT_MSRS) then LAPIC_LVT_MASK else x2_msr (machine s) r) s) ∧
  (mode_of (x2_base (machine s)) ≠ Some x2apic_ops →
   (early_init_lapic;; init_lapic;; clear_lapic_isr) s = Stop Halt).
Proof using laws.
  split; [apply lapic_setup_wp|]. intros Hm. unfold mbind, prog_bind. by rewrite early_init_other.
Qed.
End Init.

(** ** The functions that are connected *)

Section Calls.
Context {St : Type} {io : PortIO St} {cpu : Cpu St} {env : E1000Env St}.
#[local] Abbreviation eprog := (prog (e1000_state St)).

(** The calls of [msi_int_connect], with their results. *)
Fixpoint connects (l : list (Z * Z)) : eprog (list Z) :=
  match l with
  | [] => mret []
  | (f, a) :: l' => r ← msi_int_connect (fn f) a; rs ← connects l'; mret (r :: rs)
  end.

(** The functions called in order. *)
Fixpoint run_ints (l : list (Z * Z)) : prog St unit :=
  match l with [] => mret () | (f, a) :: l' => call_int f a;; run_ints l' end.

(** An interrupt with these functions, without the table. *)
Definition interrupt (l : list (Z * Z)) : eprog unit :=
  set_drv (λ d, set_counts (u64 (int_cnt d + 1)) (icr_crt d) d);;
  cause ← er32 E1000_ICR;
  set_drv (λ d, set_counts (int_cnt d) cause d);;
  on_machine (run_ints l);;
  on_machine (wrmsr MSR_IA32_EXT_APIC_EOI 0).

(** The table with [l] connected, of [n] entries and the end. *)
Definition table_of (n : nat) (l : list (Z * Z)) : list (int_func * Z) :=
  ((λ '(f, a), (fn f, a)) <$> l) ++ replicate (n - length l) (fn_null, 0) ++ [(msi_int_end, 0)].

Lemma connect_table n l f a :
  (length l <= n)%nat →
  connect_in (table_of n l) (fn f) a =
    Ret (if decide (length l < n)%nat then Some (table_of n (l ++ [(f, a)])) else None).
Proof using Type.
  unfold table_of. revert n. induction l as [|[g b] l IH]; intros n Hn; cbn [length] in *.
  - rewrite Nat.sub_0_r. destruct n as [|n]; cbn; [done|]. by rewrite Nat.sub_0_r.
  - destruct n as [|n]; [lia|]. cbn [fmap list_fmap app connect_in].
    change (S n - S (length l))%nat with (n - length l)%nat. rewrite IH by lia.
    destruct (decide (length l < n)%nat), (decide (S (length l) < S n)%nat); try lia; reflexivity.
Qed.

Lemma call_table n l : call_all (table_of n l) = run_ints l.
Proof using Type.
  unfold table_of. generalize (n - length l)%nat as k. intros k.
  induction l as [|[f a] l IH]; cbn [fmap list_fmap app call_all run_ints]; [by destruct k|].
  unfold mbind, prog_bind. by rewrite IH.
Qed.

(** The results from the [k]th call on. *)
Definition results (k n : nat) : list Z := (λ i : nat, if decide (i < 4)%nat then 0 else -1) <$> seq k n.

Lemma results_full k n : (4 <= k)%nat → results k n = replicate n (-1).
Proof using Type.
  revert k. induction n as [|n IH]; intros k Hk; [done|]. unfold results in *. cbn [seq fmap list_fmap replicate].
  rewrite decide_False by lia. f_equal. apply IH. lia.
Qed.

Lemma connects_table l0 l s :
  (length l0 <= 4)%nat → int_func_t (drv s) = table_of 4 l0 →
  wp (connects l)
    (λ rs s', rs = results (length l0) (length l) ∧
       s' = EState (set_table (table_of 4 (take 4 (l0 ++ l))) (drv s)) (msis s)) s.
Proof using Type.
  revert l0 s. induction l as [|[f a] l IH]; intros l0 s Hl Ht; cbn [connects].
  - wstep. split; [done|]. rewrite app_nil_r, take_ge, <- Ht by done. by destruct s as [[] ].
  - wstep. unfold msi_int_connect. wstep. wstep. rewrite Ht, connect_table by done. cbn [length].
    change (results (length l0) (S (length l))) with
      ((if decide (length l0 < 4)%nat then 0 else -1) :: results (S (length l0)) (length l)).
    destruct (decide (length l0 < 4)%nat).
    + wstep. unfold set_drv. wstep. wstep. wstep.
      eapply wp_mono; [apply (IH (l0 ++ [(f, a)])); [rewrite length_app; cbn; lia|done]|].
      intros rs s' [-> ->]. wstep. rewrite length_app, <- app_assoc. cbn [length app drv msis].
      rewrite Nat.add_1_r. by split.
    + wstep. wstep. eapply wp_mono; [by apply (IH l0)|]. intros rs s' [-> ->]. wstep.
      rewrite !results_full by lia. split; [done|]. by rewrite !take_app_le by lia.
Qed.

(** C40: the table of functions against its specification.  From the table the
    program starts with, [msi_int_connect] succeeds for the first four functions and
    fails for the others, and an interrupt then calls exactly the first four, in the
    order they were connected and with their arguments, after the cause has been
    read and before the one end of interrupt. *)
Theorem msi_irq_calls l s :
  int_func_t (drv s) = int_func_t driver0 →
  ∃ s', connects l s = Ret (results 0 (length l), s') ∧
    msis s' = msis s ∧
    ∀ t, int_func_t (drv t) = int_func_t (drv s') → msi_irq t = interrupt (take 4 l) t.
Proof using Type.
  intros Ht. destruct (proj1 (wp_run _ _ _) (connects_table [] l s ltac:(cbn; lia) Ht)) as (rs & s' & E & -> & ->).
  eexists. split; [exact E|]. split; [done|]. intros t Htab. cbn [drv set_table int_func_t app] in Htab.
  unfold msi_irq, interrupt, er32, set_drv, modify, gets, mbind, prog_bind. cbn.
  unfold on_machine at 1 4. unfold on_msi, PciMsi.on_util, PciUtil.on_hw, zoom. cbn.
  destruct (mm_read 4 _ _) as [[v h]|e]; [|done]. cbn. by rewrite Htab, call_table.
Qed.
End Calls.

(** ** The clock *)

(** Every reading advances the counter by [ck_step] or more. *)
Class ClockLaws (St : Type) {clk : Clock St} := {
  ck_tsc : St → Z;
  ck_tick : St → St;
  ck_step : Z;
  ck_read s : rdtsc s = Ret (ck_tsc s, ck_tick s);
  ck_pos : 0 < ck_step;
  ck_mono s : ck_tsc s + ck_step <= ck_tsc (ck_tick s);
}.

Section Delay.
Context {St : Type} {clk : Clock St} {laws : ClockLaws St} (fuel : nat).

(** The delay ends, not before its time is over. *)
Lemma delay_loop_ms_waits ms s :
  let cycles := ms * cpu_base_freq_khz (drv s) in
  0 <= cycles < fuel * ck_step → 0 <= ck_tsc (machine s) → ck_tsc (machine s) + cycles < 2 ^ 64 →
  wp (delay_loop_ms fuel ms)
    (λ r s', r = 0 ∧ s' = with_machine (machine s') s ∧ ck_tsc (machine s) + cycles <= ck_tsc (machine s')) s.
Proof using laws.
  cbn zeta. set (cycles := ms * cpu_base_freq_khz (drv s)). intros Hf H0 H64. pose proof ck_pos as Hp.
  unfold delay_loop_ms. wstep. wstep. wstep. apply wp_machine. eapply wp_exact; [apply ck_read|]. fold cycles.
  rewrite (wrap_small 64 cycles), wrap_small by lia. set (tsc := ck_tsc (machine s) + cycles).
  wstep. apply wp_machine.
  apply (wp_iter (λ n _ h, tsc - ck_tsc h <= Z.of_nat n * ck_step) _ _) with (n := pred fuel).
  - intros n [] h Hn. unfold delay_poll. wstep. eapply wp_exact; [apply ck_read|]. wstep.
    pose proof (ck_mono h). destruct (Z.ltb_spec (ck_tsc h) tsc).
    + exists (pred n). destruct n as [|n]; [lia|]. cbn [pred]. split; [lia|]. nia.
    + wstep. split; [done|]. split; [done|]. cbn. unfold tsc in *. lia.
  - cbn. pose proof (ck_mono (machine s)). unfold tsc. destruct fuel as [|f]; [lia|]. cbn [pred]. nia.
  - destruct fuel; lia.
Qed.
End Delay.

(** ** A machine *)

(** The registers of the local APIC, and the functions that have been called. *)
Record mach := Mach { m_base : Z; m_isr : Z; m_msr : Z → Z; m_calls : list (Z * Z) }.

Definition m_eoi (h : mach) : mach :=
  Mach (m_base h) (wrap 256 (m_isr h) - 2 ^ Z.log2 (wrap 256 (m_isr h))) (m_msr h) (m_calls h).
Definition m_put (r v : Z) (h : mach) : mach :=
  Mach (m_base h) (m_isr h) (λ x, if x =? r then v else m_msr h x) (m_calls h).
Definition m_x2 (h : mach) : bool := Z.testbit (m_base h) 11 && Z.testbit (m_base h) 10.

#[export] Instance mach_cpu : Cpu mach := {
  rdmsr i h :=
    if i =? MSR_IA32_APIC_BASE then Ret (m_base h, h)
    else if m_x2 h then
      if (0x810 <=? i) && (i <? 0x818) then Ret (wrap 256 (m_isr h) / 2 ^ (32 * (i - 0x810)) mod 2 ^ 32, h)
      else Ret (m_msr h i, h)
    else Stop Halt;
  wrmsr i v h :=
    if i =? MSR_IA32_APIC_BASE then Ret ((), Mach v (m_isr h) (m_msr h) (m_calls h))
    else if m_x2 h then Ret ((), if i =? MSR_IA32_EXT_APIC_EOI then m_eoi h else m_put i v h)
    else Stop Halt;
  cpuid_ecx l h := Ret (2 ^ 21, h);
  read_cr8 h := Ret (0, h);
  write_cr8 v h := Ret ((), h);
}.

#[export] Instance mach_ports : PortIO mach := {
  io_out n v p h := Ret ((), h);
  io_in n p h := Ret (0, h);
  mm_write n v a h := Ret ((), h);
  mm_read n a h := Ret (0x81000001, h);
}.

#[export] Instance mach_env : E1000Env mach := {
  setup_idt h := Ret ((), h);
  call_int f a h := Ret ((), Mach (m_base h) (m_isr h) (m_msr h) (m_calls h ++ [(f, a)]));
  apic_id h := Ret (0, h);
}.

Lemma mach_mode h : mode_of (m_base h) = Some x2apic_ops ↔ m_x2 h = true.
Proof. unfold mode_of, m_x2. destruct (Z.testbit _ 11), (Z.testbit _ 10); cbn; naive_solver. Qed.

#[export] Program Instance mach_x2 : X2Laws mach := {
  x2_base := m_base;
  x2_isr h := wrap 256 (m_isr h);
  x2_msr := m_msr;
  x2_eoi := m_eoi;
  x2_put := m_put;
}.
Solve Obligations with try done.
Next Obligation. intros s Hm%mach_mode. cbn. by rewrite Hm. Qed.
Next Obligation.
  intros s k Hm%mach_mode Hk. cbn. unfold MSR_IA32_EXT_APIC_ISR0, MSR_IA32_APIC_BASE. rewrite Hm.
  rewrite (proj2 (Z.eqb_neq _ _)), (proj2 (Z.leb_le _ _)), (proj2 (Z.ltb_lt _ _)) by lia. cbn.
  by replace (2064 + k - 2064) with k by lia.
Qed.
Next Obligation. intros s Hm%mach_mode. cbn. by rewrite Hm. Qed.
Next Obligation.
  intros s r Hm%mach_mode Hr. unfold LVT_MSRS in Hr. cbn. rewrite Hm.
  assert (r ≠ MSR_IA32_APIC_BASE ∧ r ≠ MSR_IA32_EXT_APIC_EOI) as [H1 H2].
  { split; intros ->; unfold MSR_IA32_APIC_BASE, MSR_IA32_EXT_APIC_EOI in Hr;
      repeat (apply elem_of_cons in Hr as [Hr|Hr]; [done|]); by apply elem_of_nil in Hr. }
  by rewrite (proj2 (Z.eqb_neq r _) H1), (proj2 (Z.eqb_neq r _) H2).
Qed.
Next Obligation. intros s v Hm%mach_mode Hv. cbn. by rewrite Hm. Qed.
Next Obligation.
  intros s r Hm Hr. cbn. unfold MSR_IA32_APIC_BASE. rewrite (proj2 (Z.eqb_neq _ _)) by lia.
  rewrite mach_mode in Hm. by destruct (m_x2 s).
Qed.
Next Obligation. intros s. apply wrap_range. lia. Qed.
Next Obligation.
  intros s Hne. cbn. pose proof (wrap_range 256 (m_isr s) ltac:(lia)).
  pose proof (clear_highest (wrap 256 (m_isr s)) 256 ltac:(lia)). apply wrap_small.
  pose proof (Z.pow_lt_mono_r 2 (256 - 1) 256). lia.
Qed.

(** The interrupts 0x31 and 0xfd are in service. *)
Definition ex_state (base : Z) : e1000_state mach :=
  EState driver0 (MState (Msi 0 (Cap 0 0 0 0)) (UState 0 (Mach base (2 ^ 0x31 + 2 ^ 0xfd) (λ _, 0) []))).

Lemma lapic_setup_clears_witness :
  wp (early_init_lapic;; init_lapic;; clear_lapic_isr)
    (λ _ s', s' = with_machine (machine s') (ex_state 0xfee00d00) ∧
       x2_base (machine s') = x2_base (machine (ex_state 0xfee00d00)) ∧ x2_isr (machine s') = 0 ∧
       ∀ r, x2_msr (machine s') r =
         if decide (r = MSR_IA32_EXT_APIC_SIVR) then 0x1FF
         else if decide (r ∈ LVT_MSRS) then LAPIC_LVT_MASK else x2_msr (machine (ex_state 0xfee00d00)) r)
    (ex_state 0xfee00d00) ∧
  (early_init_lapic;; init_lapic;; clear_lapic_isr) (ex_state 0xfee00900) = Stop Halt.
Proof.
  split.
  - apply (proj1 (lapic_setup_clears (ex_state 0xfee00d00))). reflexivity.
  - apply (proj2 (lapic_setup_clears (ex_state 0xfee00900))). discriminate.
Defined.

(** Five functions are connected; the fifth is refused, and an interrupt calls four. *)
Definition ex_ints : list (Z * Z) := [(0x5000, 1); (0x6000, 2); (0x5000, 3); (0x7000, 4); (0x8000, 5)].

Lemma msi_irq_calls_witness :
  (∃ s', connects ex_ints (ex_state 0xfee00d00) = Ret ([0; 0; 0; 0; -1], s') ∧
     msis s' = msis (ex_state 0xfee00d00) ∧
     ∀ t, int_func_t (drv t) = int_func_t (drv s') → msi_irq t = interrupt (take 4 ex_ints) t) ∧
  match (connects ex_ints;; msi_irq) (ex_state 0xfee00d00) with
  | Ret (_, s') => m_calls (machine s') = take 4 ex_ints ∧ m_isr (machine s') = 2 ^ 0x31 ∧ int_cnt (drv s') = 1
  | Stop _ => False
  end.
Proof.
  split; [|vm_compute; split; [|split]; reflexivity]. apply (msi_irq_calls ex_ints (ex_state 0xfee00d00)). reflexivity.
Defined.
