(* ===== verification/NetInit.v ===== *)
(** * The initialization of the network controller: e1000e_init of lib/e1000e.c

    [e1000e_init] on a machine with the controller: the configuration space is a
    file of registers (ConfRegs), the device answers in its memory region, the
    local APIC and the clock are those of E1000e.  The parts of the machine are
    independent of each other, which [NetMachine] states; [view] is what is not in
    the configuration space. *)

From S2P Require Import Prelude Bits PciConf Apic Pci PciUtil PciMsi ConfRegs E1000e.

#[local] Ltac dlia := Z.div_mod_to_equations; lia.

(** The local APIC and the device. *)
Record view (Dv : Type) := View { v_base : Z; v_isr : Z; v_msr : Z → Z; v_dev : Dv }.
Arguments View {Dv} _ _ _ _.
Arguments v_base {Dv} _.
Arguments v_isr {Dv} _.
Arguments v_msr {Dv} _ _.
Arguments v_dev {Dv} _.

Definition with_dev {Dv} (d : Dv) (x : view Dv) : view Dv := View (v_base x) (v_isr x) (v_msr x) d.

(** The device decodes accesses to its first region, of 128 KiB, which is in
    memory space, has 32-bit addresses, and is between the first page and the
    memory-mapped configuration space. *)
Definition decodes {St} {io : PortIO St} {laws : Conf1Laws St} {rl : RegLaws St} (f : store) (bdf : Z) : Prop :=
  bit_set (rd f bdf PCI_COMMAND 2) PCI_COMMAND_MEMORY = true ∧
  4096 <= f bdf 4 ∧ f bdf 4 + 0x20000 <= ecam ∧ f bdf 4 mod 16 = 0.

Class NetMachine (St Dv : Type) {io : PortIO St} {cpu : Cpu St} {clk : Clock St} {env : E1000Env St}
    {laws : Conf1Laws St} {rl : RegLaws St} {x2 : X2Laws St} {ck : ClockLaws St} := {
  nm_bdf : Z;
  nm_bdf_range : 0 <= nm_bdf < 2 ^ 16;
  (** the registers of the device: values, and the effect of reads and writes *)
  nm_dev : St → Dv;
  nm_val : Dv → Z → Z;
  nm_rd : Z → Dv → Dv;
  nm_wr : Z → Z → Dv → Dv;
  nm_set : Dv → St → St;
  (** the interrupts that are not masked, and the address in the EEPROM *)
  nm_ims : Dv → Z;
  nm_mac : Dv → list Z;
  nm_freq : Z;
  nm_idt : St → St;
  nm_tsc s : 0 <= ck_tsc s;
  nm_freq_range : 0 <= nm_freq < 2 ^ 32;
  nm_cpuid s : cpuid_eax 0x16 s = Ret (nm_freq, s);
  nm_setup_idt s : setup_idt s = Ret ((), nm_idt s);
  nm_low a s : 0 <= a < 4096 → ∃ v, mm_read 4 a s = Ret (v, s);
  nm_read s r : decodes (reg s) nm_bdf → 0 <= r < 0x20000 →
    mm_read 4 (u32 (reg s nm_bdf 4 + r)) s = Ret (nm_val (nm_dev s) r, nm_set (nm_rd r (nm_dev s)) s);
  nm_write s r v : decodes (reg s) nm_bdf → 0 <= r < 0x20000 →
    mm_write 4 v (u32 (reg s nm_bdf 4 + r)) s = Ret ((), nm_set (nm_wr r v (nm_dev s)) s);
  (** writing ones to IMC masks all interrupts; the address registers hold the
      address, which survives a reset *)
  nm_imc d : nm_ims (nm_wr E1000_IMC 0xffffffff d) = 0;
  nm_ims_rd r d : nm_ims (nm_rd r d) = nm_ims d;
  nm_mac_rd r d : nm_mac (nm_rd r d) = nm_mac d;
  nm_mac_wr r v d : r ≠ E1000_RAL 0 → r ≠ E1000_RAH 0 → nm_mac (nm_wr r v d) = nm_mac d;
  nm_mac_lo d : bytes_of_word 4 (nm_val d (E1000_RAL 0)) = take 4 (nm_mac d);
  nm_mac_hi d : bytes_of_word 2 (nm_val d (E1000_RAH 0)) = drop 4 (nm_mac d);
  (** the parts of the machine *)
  nm_view s : view Dv := View (x2_base s) (x2_isr s) (x2_msr s) (nm_dev s);
  nm_view_tick s : nm_view (ck_tick s) = nm_view s;
  nm_view_idt s : nm_view (nm_idt s) = nm_view s;
  nm_view_set d s : nm_view (nm_set d s) = with_dev d (nm_view s);
  nm_dev_eoi s : nm_dev (x2_eoi s) = nm_dev s;
  nm_dev_put r v s : nm_dev (x2_put r v s) = nm_dev s;
  nm_reg_tick s d r : reg (ck_tick s) d r = reg s d r;
  nm_reg_idt s d r : reg (nm_idt s) d r = reg s d r;
  nm_reg_set e s d r : reg (nm_set e s) d r = reg s d r;
  nm_reg_eoi s d r : reg (x2_eoi s) d r = reg s d r;
  nm_reg_put k v s d r : reg (x2_put k v s) d r = reg s d r;
  #[global] nm_keeps :: KeepsRest nm_view;
}.

Section Net.
Context {St Dv : Type} {io : PortIO St} {cpu : Cpu St} {irq : IrqOps St} {clk : Clock St} {env : E1000Env St}
  {laws : Conf1Laws St} {rl : RegLaws St} {x2 : X2Laws St} {ck : ClockLaws St} {nm : NetMachine St Dv}.
Context (fuel : nat) (m : Z).

(** The driver, the MSI object, the configuration space and the rest. *)
Definition At4 (d : driver) (c : msi) (f : store) (x : view Dv) (s : e1000_state St) : Prop :=
  drv s = d ∧ cur_msi (msis s) = c ∧ At nm_view m f x (util (msis s)).

Lemma At4_machine d c f x s h :
  At4 d c f x s → (∀ d r, reg h d r = reg (machine s) d r) → ∀ y, nm_view h = y → At4 d c f y (with_machine h s).
Proof using Type.
  intros (Hd & Hc & Hm & Ea & Hh & Hx) Hr y Hy. split; [done|]. split; [done|]. split; [done|]. split; [done|].
  split; [|done]. intros d' r' H1 H2. cbn. rewrite Hr. by apply Hh.
Qed.

Lemma At4_drv d c f x s g : At4 d c f x s → At4 (g d) c f x (EState (g (drv s)) (msis s)).
Proof using Type. intros (<- & H). by split. Qed.

Lemma wp_set_drv g d c f x s Q :
  At4 d c f x s → (∀ s', At4 (g d) c f x s' → Q () s') → wp (set_drv g) Q s.
Proof using Type. intros H HQ. unfold set_drv. wstep. apply HQ. by apply At4_drv. Qed.

Lemma wp_cfg_read off n d c f x s Q :
  field_ok (bdf d) off n → At4 d c f x s → (∀ s', At4 d c f x s' → Q (rd f (bdf d) off n) s') →
  wp (E1000e.read_cfg off n) Q s.
Proof using Type.
  intros Hf (Hd & Hc & Ha) HQ. unfold E1000e.read_cfg, on_msi, PciMsi.read_cfg, PciMsi.on_util. wstep. wstep. wstep. wstep.
  rewrite Hd. eapply (read_cfg_at nm_view); [exact Hf|exact Ha|]. intros u Hu. by apply HQ.
Qed.

Lemma wp_cfg_write off n v d c f x s Q :
  field_ok (bdf d) off n → At4 d c f x s → (∀ s', At4 d c (wr f (bdf d) off n v) x s' → Q () s') →
  wp (E1000e.write_cfg off n v) Q s.
Proof using Type.
  intros Hf (Hd & Hc & Ha) HQ. unfold E1000e.write_cfg, on_msi, PciMsi.write_cfg, PciMsi.on_util. wstep. wstep. wstep. wstep.
  rewrite Hd. eapply (write_cfg_at nm_view); [exact Hf|exact Ha|]. intros u Hu. by apply HQ.
Qed.

(** The region is where the driver thinks it is. *)
Definition mapped (d : driver) (f : store) : Prop := decodes f nm_bdf ∧ bar0 d = f nm_bdf 4.

Lemma decodes_machine d c f x s : At4 d c f x s → decodes f nm_bdf →
  decodes (reg (machine s)) nm_bdf ∧ reg (machine s) nm_bdf 4 = f nm_bdf 4.
Proof using Type.
  intros (_ & _ & _ & _ & Hh & _) (H1 & H2). pose proof nm_bdf_range as Hb.
  assert (reg (machine s) nm_bdf 4 = f nm_bdf 4) as E by (apply Hh; [done|lia]).
  split; [|done]. unfold decodes, rd in *. rewrite E. split; [|done].
  rewrite (Hh nm_bdf (PCI_COMMAND / 4)); [done|done|by vm_compute].
Qed.

Lemma wp_er32 r d c f x s Q :
  0 <= r < 0x20000 → mapped d f → At4 d c f x s →
  (∀ s', At4 d c f (with_dev (nm_rd r (v_dev x)) x) s' → Q (nm_val (v_dev x) r) s') → wp (er32 r) Q s.
Proof using Type.
  intros Hr [Hdec Hbar] Ha HQ. destruct (decodes_machine _ _ _ _ _ Ha Hdec) as [Hm E].
  pose proof Ha as (Hd & Hc & _ & _ & _ & Hx).
  unfold er32. wstep. wstep. apply wp_machine. rewrite Hd, Hbar, <- E.
  eapply wp_exact; [by apply nm_read|].
  assert (nm_dev (machine s) = v_dev x) as -> by (rewrite <- Hx; done). apply HQ.
  eapply At4_machine; [exact Ha|intros; apply nm_reg_set|]. rewrite nm_view_set. unfold machine. by rewrite Hx.
Qed.

Lemma wp_ew32 r v d c f x s Q :
  0 <= r < 0x20000 → mapped d f → At4 d c f x s →
  (∀ s', At4 d c f (with_dev (nm_wr r v (v_dev x)) x) s' → Q () s') → wp (ew32 r v) Q s.
Proof using Type.
  intros Hr [Hdec Hbar] Ha HQ. destruct (decodes_machine _ _ _ _ _ Ha Hdec) as [Hm E].
  pose proof Ha as (Hd & Hc & _ & _ & _ & Hx).
  unfold ew32. wstep. wstep. apply wp_machine. rewrite Hd, Hbar, <- E.
  eapply wp_exact; [by apply nm_write|].
  assert (nm_dev (machine s) = v_dev x) as -> by (rewrite <- Hx; done). apply HQ.
  eapply At4_machine; [exact Ha|intros; apply nm_reg_set|]. rewrite nm_view_set. unfold machine. by rewrite Hx.
Qed.

(** A read of low memory, while the region is not known. *)
Lemma wp_er32_low r d c f x s Q :
  0 <= r < 4096 → bar0 d = 0 → At4 d c f x s → (∀ v s', At4 d c f x s' → Q v s') → wp (er32 r) Q s.
Proof using Type.
  intros Hr Hbar Ha HQ. pose proof Ha as (Hd & _ & _ & _ & _ & Hx). unfold er32. wstep. wstep. apply wp_machine.
  rewrite Hd, Hbar, wrap_small by lia. destruct (nm_low (0 + r) (machine s)) as [v E]; [lia|].
  eapply wp_exact; [exact E|]. apply HQ. by rewrite with_machine_id.
Qed.

Lemma wp_delay ms d c f x s Q :
  0 <= ms * cpu_base_freq_khz d < fuel * ck_step → ms * cpu_base_freq_khz d < 2 ^ 64 → At4 d c f x s →
  (∀ s', At4 d c f x s' → Q 0 s') → wp (delay_loop_ms fuel ms) Q s.
Proof using Type.
  intros Hf H64 Ha HQ. pose proof Ha as (Hd & _ & _ & _ & _ & Hx). pose proof ck_pos as Hp.
  unfold delay_loop_ms. wstep. wstep. wstep. apply wp_machine. eapply wp_exact; [apply ck_read|].
  rewrite Hd. set (cycles := ms * cpu_base_freq_khz d) in *. rewrite (wrap_small 64 cycles) by lia.
  pose proof (nm_tsc (machine s)) as Ht.
  assert (u64 (ck_tsc (machine s) + cycles) <= ck_tsc (machine s) + cycles) as Hu by (apply Z.mod_le; lia).
  set (tsc := u64 _) in *.
  assert (At4 d c f x (with_machine (ck_tick (machine s)) s)) as Ha1.
  { eapply At4_machine; [exact Ha|intros; apply nm_reg_tick|]. rewrite nm_view_tick. done. }
  wstep. apply wp_machine. cbn [machine with_machine msis util hw].
  apply (wp_iter (λ n _ h, tsc - ck_tsc h <= Z.of_nat n * ck_step ∧ At4 d c f x (with_machine h s)) _ _) with (n := pred fuel).
  - intros n [] h [Hn Hh]. unfold delay_poll. wstep. eapply wp_exact; [apply ck_read|]. wstep.
    assert (At4 d c f x (with_machine (ck_tick h) s)) as Hh'.
    { change (with_machine (ck_tick h) s) with (with_machine (ck_tick h) (with_machine h s)).
      eapply At4_machine; [exact Hh|intros; apply nm_reg_tick|]. rewrite nm_view_tick. apply Hh. }
    pose proof (ck_mono h). destruct (Z.ltb_spec (ck_tsc h) tsc).
    + exists (pred n). destruct n as [|n]; [lia|]. cbn [pred]. split; [lia|]. split; [nia|done].
    + wstep. apply HQ. exact Hh'.
  - split; [|exact Ha1]. pose proof (ck_mono (machine s)). destruct fuel as [|k]; [lia|]. cbn [pred]. nia.
  - destruct fuel; lia.
Qed.

(** ** The local APIC *)

(** What the set-up of the local APIC does. *)
Definition lapic_ready (x x' : view Dv) : Prop :=
  v_dev x' = v_dev x ∧ v_base x' = v_base x ∧ v_isr x' = 0 ∧
  ∀ r, v_msr x' r =
    if decide (r = MSR_IA32_EXT_APIC_SIVR) then 0x1FF
    else if decide (r ∈ LVT_MSRS) then LAPIC_LVT_MASK else v_msr x r.

(** A program that keeps a property of the state, when it returns. *)
Definition stays {S A} (P : S → Prop) (p : prog S A) : Prop := ∀ s a s', P s → p s = Ret (a, s') → P s'.

Lemma stays_ret {S A} (P : S → Prop) (a : A) : stays P (mret a).
Proof using Type. intros s b s' H [= _ <-]. done. Qed.

Lemma stays_bind {S A B} (P : S → Prop) (p : prog S A) (k : A → prog S B) :
  stays P p → (∀ a, stays P (k a)) → stays P (p ≫= k).
Proof using Type.
  intros Hp Hk s b s' H E. unfold mbind, prog_bind in E. destruct (p s) as [[a s1]|] eqn:E1; [|done].
  eapply Hk; [|exact E]. by eapply Hp.
Qed.

Lemma stays_iter {S X A} (P : S → Prop) n (body : X → prog S (X + A)) x :
  (∀ x, stays P (body x)) → stays P (iter n body x).
Proof using Type.
  intros Hb. revert x. induction n as [|n IH]; intros x; cbn [iter]; [by intros s a s'|].
  apply stays_bind; [done|]. intros [y|a]; [apply IH|apply stays_ret].
Qed.

Lemma stays_for {S X} (P : S → Prop) n i (body : Z → X → prog S X) x :
  (∀ j x, stays P (body j x)) → stays P (for_up n i body x).
Proof using Type.
  intros Hb. revert i x. induction n as [|n IH]; intros i x; cbn [for_up]; [apply stays_ret|].
  apply stays_bind; [done|]. intros y. apply IH.
Qed.

Lemma stays_wp {S A} (P : S → Prop) (p : prog S A) Q s :
  stays P p → P s → wp p Q s → wp p (λ a s', Q a s' ∧ P s') s.
Proof using Type. intros Hp H. unfold wp. destruct (p s) as [[a s']|] eqn:E; [|done]. intros HQ. split; [done|]. by eapply Hp. Qed.

Lemma stays_machine {A} (P : St → Prop) (p : prog St A) : stays P p → stays (λ s, P (machine s)) (on_machine p).
Proof using Type.
  intros Hp s a s' H E. unfold on_machine, on_msi, PciMsi.on_util, PciUtil.on_hw, zoom in E.
  fold (machine s) in E. destruct (p (machine s)) as [[b h]|] eqn:E1; [|done]. injection E as _ <-. cbn. by eapply Hp.
Qed.

(** The device and the configuration space. *)
Definition rest_is (h0 h : St) : Prop :=
  mode_of (x2_base h) = Some x2apic_ops ∧ nm_dev h = nm_dev h0 ∧ ∀ d r, reg h d r = reg h0 d r.

Lemma rest_rdmsr h0 i : stays (rest_is h0) (λ s, match rdmsr i s with Ret (v, s') => Ret (v, s) | Stop e => Stop e end).
Proof using Type. intros s a s' H E. destruct (rdmsr i s) as [[v s1]|]; [|done]. by injection E as _ <-. Qed.

Lemma rest_eoi h0 : stays (rest_is h0) (wrmsr MSR_IA32_EXT_APIC_EOI 0).
Proof using Type.
  intros s a s' (Hm & Hd & Hr) E. rewrite (x2_wr_eoi s Hm) in E. injection E as _ <-.
  split; [by rewrite x2_base_eoi|]. split; [by rewrite nm_dev_eoi|]. intros d r. by rewrite nm_reg_eoi.
Qed.

Lemma rest_put h0 r v s s' a :
  rest_is h0 s → wrmsr r v s = Ret (a, s') → s' = x2_put r v s → rest_is h0 s'.
Proof using Type.
  intros (Hm & Hd & Hr) _ ->. split; [by rewrite x2_base_put|]. split; [by rewrite nm_dev_put|].
  intros d k. by rewrite nm_reg_put.
Qed.

Lemma rest_lvt h0 r : r ∈ LVT_MSRS → stays (rest_is h0) (wrmsr r LAPIC_LVT_MASK).
Proof using Type.
  intros Hr s a s' H E. eapply rest_put; [exact H|exact E|]. rewrite x2_wr_lvt in E by (done || apply H).
  by injection E as _ <-.
Qed.

Lemma rest_isr h0 k i : 0 <= k < 8 → stays (rest_is h0) (clear_isr_step (MSR_IA32_EXT_APIC_ISR0 + k) i).
Proof using Type.
  intros Hk. unfold clear_isr_step. destruct (i <? 32); [|apply stays_ret]. apply stays_bind.
  - intros s a s' H E. rewrite x2_rd_isr in E by (done || apply H). by injection E as _ <-.
  - intros v. destruct (negb _); [|apply stays_ret]. apply stays_bind; [apply rest_eoi|intros; apply stays_ret].
Qed.

Lemma rest_clear h0 : stays (λ s, rest_is h0 (machine s)) clear_lapic_isr.
Proof using Type.
  unfold clear_lapic_isr. assert (∀ n i, 0 <= i → i + Z.of_nat n <= 8 → stays (λ s, rest_is h0 (machine s))
    (for_up n i (λ k _, on_machine (iter 33 (clear_isr_step (MSR_IA32_EXT_APIC_ISR7 - k)) 0)) ())) as H; [|by apply H].
  intros n. induction n as [|n IH]; intros i Hi Hn; cbn [for_up]; [apply stays_ret|].
  apply stays_bind; [|intros []; apply IH; lia]. apply stays_machine. apply stays_iter. intros j.
  replace (MSR_IA32_EXT_APIC_ISR7 - i) with (MSR_IA32_EXT_APIC_ISR0 + (7 - i))
    by (unfold MSR_IA32_EXT_APIC_ISR7, MSR_IA32_EXT_APIC_ISR0; lia).
  apply rest_isr. lia.
Qed.

Lemma rest_lvts h0 l : (∀ r, r ∈ l → r ∈ LVT_MSRS) → stays (λ s, rest_is h0 (machine s)) (mask_lvts l).
Proof using Type.
  induction l as [|r l IH]; intros Hl; cbn [mask_lvts]; [apply stays_ret|].
  apply stays_bind; [apply stays_machine, rest_lvt, Hl; by left|]. intros []. apply IH. intros k Hk. apply Hl. by right.
Qed.

Lemma rest_lapic h0 : stays (λ s, rest_is h0 (machine s)) (early_init_lapic;; init_lapic;; clear_lapic_isr).
Proof using Type.
  apply stays_bind.
  - intros s a s' H E. rewrite early_init_x2 in E by apply H. by injection E as _ <-.
  - intros []. apply stays_bind; [|intros []; apply rest_clear]. unfold init_lapic.
    apply stays_bind; [by apply rest_lvts|]. intros []. apply stays_bind; [|intros []; apply rest_clear].
    apply stays_machine. intros s a s' H E. eapply rest_put; [exact H|exact E|].
    rewrite x2_wr_sivr in E by (first [apply H|by vm_compute]). by injection E as _ <-.
Qed.

Lemma wp_lapic d c f x s (k : prog (e1000_state St) Z) Q :
  mode_of (v_base x) = Some x2apic_ops → At4 d c f x s →
  (∀ s' x', At4 d c f x' s' → lapic_ready x x' → wp k Q s') →
  wp (early_init_lapic;; init_lapic;; clear_lapic_isr;; k) Q s.
Proof using Type.
  intros Hm Ha HQ. pose proof Ha as (Hd & Hc & Hmo & Ea & Hh & Hx).
  assert (x2_base (machine s) = v_base x ∧ x2_isr (machine s) = v_isr x ∧ x2_msr (machine s) = v_msr x ∧
    nm_dev (machine s) = v_dev x) as (E1 & E2 & E3 & E4) by (rewrite <- Hx; done).
  assert (mode_of (x2_base (machine s)) = Some x2apic_ops) as Hm' by by rewrite E1.
  enough (wp (early_init_lapic;; init_lapic;; clear_lapic_isr) (λ _ s', wp k Q s') s) as H.
  { revert H. unfold wp, mbind, prog_bind. destruct (early_init_lapic s) as [[[] s1]|]; [|done].
    destruct (init_lapic s1) as [[[] s2]|]; [|done]. by destruct (clear_lapic_isr s2) as [[[] s3]|]. }
  eapply wp_mono; [apply stays_wp; [apply (rest_lapic (machine s))|by split|]|].
  - apply lapic_setup_wp; done.
  - intros [] s' [(Es & Eb & Ei & Er) (_ & Edv & Erg)].
    apply (HQ s' (nm_view (machine s'))).
    + rewrite Es. eapply At4_machine; [exact Ha|exact Erg|done].
    + unfold lapic_ready, nm_view. cbn. rewrite Edv, Eb, Ei, E1, E4. split; [done|]. split; [done|]. split; [done|].
      intros r. rewrite Er, E3. done.
Qed.

(** ** The configuration space *)

(** A lane without bits that a one clears is as before when its old value has been
    written back. *)
Lemma put_lane_restore w w1 x (o : Z) (n : nat) v :
  0 <= o → Z.land (Z.shiftl (Z.ones (8 * n)) (8 * o)) w1 = 0 →
  put_lane w w1 (put_lane w w1 x o n v) o n (lane x o n) = x.
Proof using Type.
  intros Ho Hw. unfold put_lane. rewrite Hw. unfold upd. rewrite !Z.land_0_l, !Z.lor_0_r. zbits_intro i.
  autorewrite with zbits. destruct (Z.leb_spec 0 (i - 8 * o)); [|cbn; by rewrite !andb_true_r, !orb_false_r].
  rewrite testbit_lane by lia. replace (i - 8 * o + 8 * o) with i by lia.
  destruct (i - 8 * o <? 8 * n), (Z.testbit w i), (Z.testbit x i), (Z.testbit v (i - 8 * o)); done.
Qed.

Lemma At_ext f f' x u :
  (∀ d r, 0 <= d < 2 ^ 16 → 0 <= r < 64 → f d r = f' d r) → At nm_view m f x u → At nm_view m f' x u.
Proof using Type.
  intros E (Hm & Ea & Hh & Hx). split; [done|]. split; [done|]. split; [|done]. intros d r Hd Hr.
  rewrite (Hh d r) by done. by apply E.
Qed.

(** The size that the first region has. *)
Definition region_size (f : store) (b : Z) : Z :=
  u32 (u32 (Z.lnot (rd (wr f b PCI_BASE_ADDRESS_0 4 0xffffffff) b PCI_BASE_ADDRESS_0 4)) + 1).

(** The command register and the first region have no bit that a one clears. *)
Definition plain (b : Z) : Prop := Z.land 0xffff (w1c_mask b 1) = 0 ∧ w1c_mask b 4 = 0.

Lemma field0 off n : 0 <= nm_bdf < 2 ^ 16 → field_okb off n = true → field_ok nm_bdf off n.
Proof using Type. apply field_const. Qed.

Lemma bar_restored f v c :
  plain nm_bdf →
  ∀ d r, 0 <= d < 2 ^ 16 → 0 <= r < 64 →
  wr (wr (wr (wr f nm_bdf PCI_COMMAND 2 c) nm_bdf PCI_BASE_ADDRESS_0 4 v) nm_bdf PCI_BASE_ADDRESS_0 4
       (rd f nm_bdf PCI_BASE_ADDRESS_0 4)) nm_bdf PCI_COMMAND 2 (rd f nm_bdf PCI_COMMAND 2) d r = f d r.
Proof using Type.
  intros [H1 H2] d r _ _. unfold wr, rd.
  change (PCI_COMMAND / 4) with 1. change (PCI_BASE_ADDRESS_0 / 4) with 4.
  change (PCI_COMMAND mod 4) with 0. change (PCI_BASE_ADDRESS_0 mod 4) with 0.
  destruct (Z.eqb_spec d nm_bdf) as [->|]; [|done].
  destruct (Z.eqb_spec r 1) as [->|]; [|destruct (Z.eqb_spec r 4) as [->|]; [|done]]; cbn [andb Z.eqb Pos.eqb].
  - by apply put_lane_restore.
  - apply put_lane_restore; [lia|]. rewrite H2. apply Z.land_0_r.
Qed.

Lemma wp_bar_size f x u Q :
  plain nm_bdf → decodes f nm_bdf → At nm_view m f x u →
  (∀ u', At nm_view m f x u' → Q (region_size f nm_bdf) u') → wp (pci_pdev_get_bar_size nm_bdf 0) Q u.
Proof using Type.
  intros Hp Hd Ha HQ. pose proof nm_bdf_range as Hb. unfold pci_pdev_get_bar_size.
  change (u32 (PCI_BASE_ADDRESS_0 + 0 * 4)) with PCI_BASE_ADDRESS_0.
  assert (field_ok nm_bdf PCI_COMMAND 2) as F1 by by apply field0.
  assert (field_ok nm_bdf PCI_BASE_ADDRESS_0 4) as F2 by by apply field0.
  wstep. eapply (read_cfg_at nm_view); [done|exact Ha|]. clear u Ha. intros u Ha.
  wstep. eapply (write_cfg_at nm_view); [done|exact Ha|]. clear u Ha. intros u Ha.
  set (c := u16 _) in *.
  wstep. eapply (read_cfg_at nm_view); [done|exact Ha|]. clear u Ha. intros u Ha.
  rewrite rd_wr_other by (right; left; by vm_compute).
  wstep. eapply (write_cfg_at nm_view); [done|exact Ha|]. clear u Ha. intros u Ha.
  wstep. eapply (read_cfg_at nm_view); [done|exact Ha|]. clear u Ha. intros u Ha.
  wstep. eapply (write_cfg_at nm_view); [done|exact Ha|]. clear u Ha. intros u Ha.
  wstep. eapply (write_cfg_at nm_view); [done|exact Ha|]. clear u Ha. intros u Ha. wstep.
  assert (bit_set (rd f nm_bdf PCI_BASE_ADDRESS_0 4) PCI_BASE_ADDRESS_SPACE = false) as ->.
  { destruct Hd as (_ & _ & _ & Hmod). unfold bit_set, PCI_BASE_ADDRESS_SPACE. apply negb_false_iff, Z.eqb_eq.
    change 1 with (Z.ones 1). rewrite Z.land_ones by lia. unfold rd, lane. change (PCI_BASE_ADDRESS_0 / 4) with 4.
    change (8 * (PCI_BASE_ADDRESS_0 mod 4)) with 0. rewrite Z.shiftr_0_r. unfold wrap. change (2 ^ (8 * 4%nat)) with 4294967296.
    change (2 ^ 1) with 2. dlia. }
  assert (rd (wr (wr f nm_bdf PCI_COMMAND 2 c) nm_bdf PCI_BASE_ADDRESS_0 4 0xffffffff) nm_bdf PCI_BASE_ADDRESS_0 4 =
    rd (wr f nm_bdf PCI_BASE_ADDRESS_0 4 0xffffffff) nm_bdf PCI_BASE_ADDRESS_0 4) as ->.
  { rewrite !rd_wr. by rewrite rd_wr_other by (right; left; by vm_compute). }
  apply HQ. eapply At_ext; [|exact Ha]. by apply bar_restored.
Qed.

(** The registers that [e1000e_probe] and [pci_enable_dev] leave. *)
Definition probed (f : store) (b : Z) : store := wr f b 0xD4 4 0xFEE00000.
Definition enabled (f : store) (b : Z) : store :=
  let f1 := wr f b PCI_COMMAND 2
    (Z.lor (rd f b PCI_COMMAND 2)
       (Z.lor (Z.lor (Z.lor PCI_COMMAND_IO PCI_COMMAND_MEMORY) PCI_COMMAND_MASTER) PCI_COMMAND_INTX_DISABLE)) in
  if (rd f1 b PCI_INTERRUPT_PIN 1 =? 0) || negb (bit_set (rd f1 b PCI_COMMAND 2) PCI_COMMAND_INTX_DISABLE) then f1
  else wr f1 b PCI_COMMAND 2 (Z.ldiff (rd f1 b PCI_COMMAND 2) PCI_COMMAND_INTX_DISABLE).

Definition answers (f : store) (b : Z) : Prop :=
  let v := rd f b PCI_VENDOR_ID 4 in v ≠ 0xFFFFFFFF ∧ v ≠ 0 ∧ v ≠ 0xFFFF0000 ∧ v ≠ 0xFFFF.

Lemma wp_detect d c f x s Q :
  bdf d = nm_bdf → bar0 d = 0 → answers f nm_bdf → At4 d c f x s →
  (∀ s', At4 d c f x s' → Q 0 s') → wp pci_card_detect Q s.
Proof using Type.
  intros Hb H0 (A1 & A2 & A3 & A4) Ha HQ. unfold pci_card_detect. wstep.
  eapply wp_cfg_read; [rewrite Hb; by apply field0; [apply nm_bdf_range|]|exact Ha|]. clear s Ha. intros s Ha.
  rewrite Hb. apply Z.eqb_neq in A1, A2, A3, A4. rewrite A1, A2, A3, A4. cbn [orb]. wstep.
  eapply wp_er32_low; [|exact H0|exact Ha|]; [by vm_compute|]. intros v s' Ha'. wstep. by apply HQ.
Qed.

Lemma wp_probe_dev d c f x s Q :
  bdf d = nm_bdf → bar0 d = 0 → answers f nm_bdf → At4 d c f x s →
  (∀ s', At4 d c (probed f nm_bdf) x s' → Q 0 s') → wp e1000e_probe Q s.
Proof using Type.
  intros Hb H0 Hans Ha HQ. pose proof nm_bdf_range as Hr. unfold e1000e_probe. wstep.
  eapply wp_detect; [done..|exact Ha|]. clear s Ha. intros s Ha.
  assert (field_ok (bdf d) 0xD4 4) as F by (rewrite Hb; by apply field0).
  wstep. eapply wp_cfg_read; [done|exact Ha|]. clear s Ha. intros s Ha.
  wstep. eapply wp_cfg_write; [done|exact Ha|]. clear s Ha. intros s Ha.
  wstep. eapply wp_cfg_read; [done|exact Ha|]. clear s Ha. intros s Ha. wstep. apply HQ. by rewrite Hb in Ha.
Qed.

Lemma wp_enable d c f x s Q :
  bdf d = nm_bdf → (∀ ms, 0 <= ms <= 100 → 0 <= ms * cpu_base_freq_khz d < fuel * ck_step ∧ ms * cpu_base_freq_khz d < 2 ^ 64) →
  At4 d c f x s → (∀ s', At4 d c (enabled f nm_bdf) x s' → Q 0 s') → wp (pci_enable_dev fuel) Q s.
Proof using Type.
  intros Hb Ht Ha HQ. pose proof nm_bdf_range as Hr. unfold pci_enable_dev.
  assert (∀ off n, field_okb off n = true → field_ok (bdf d) off n) as F by (rewrite Hb; intros; by apply field0).
  wstep. eapply wp_cfg_read; [by apply F|exact Ha|]. clear s Ha. intros s Ha.
  wstep. eapply wp_cfg_write; [by apply F|exact Ha|]. clear s Ha. intros s Ha.
  wstep. destruct (Ht 10 ltac:(lia)). eapply wp_delay; [done|done|exact Ha|]. clear s Ha. intros s Ha.
  wstep. eapply wp_cfg_read; [by apply F|exact Ha|]. clear s Ha. intros s Ha. rewrite Hb in *.
  unfold enabled in HQ. cbn zeta in HQ. set (f1 := wr f nm_bdf PCI_COMMAND 2 _) in *.
  wstep. destruct (rd f1 nm_bdf PCI_INTERRUPT_PIN 1 =? 0); cbn [negb orb] in *.
  { wstep. wstep. eapply wp_cfg_read; [rewrite Hb; by apply F|exact Ha|]. intros s' Ha'. wstep. by apply HQ. }
  wstep. eapply wp_cfg_read; [rewrite Hb; by apply F|exact Ha|]. clear s Ha. intros s Ha. rewrite Hb.
  destruct (bit_set (rd f1 nm_bdf PCI_COMMAND 2) PCI_COMMAND_INTX_DISABLE); cbn [negb] in HQ.
  - eapply wp_cfg_write; [rewrite Hb; by apply F|exact Ha|]. clear s Ha. intros s Ha. rewrite Hb in Ha.
    wstep. eapply wp_cfg_read; [rewrite Hb; by apply F|exact Ha|]. intros s' Ha'. wstep. by apply HQ.
  - wstep. wstep. eapply wp_cfg_read; [rewrite Hb; by apply F|exact Ha|]. intros s' Ha'. wstep. by apply HQ.
Qed.

(** The reset: all interrupts are masked, the address is that of the EEPROM. *)
Lemma wp_reset d c f x s Q :
  mapped d f → (∀ ms, 0 <= ms <= 100 → 0 <= ms * cpu_base_freq_khz d < fuel * ck_step ∧ ms * cpu_base_freq_khz d < 2 ^ 64) →
  At4 d c f x s →
  (∀ dv s', nm_ims dv = 0 → nm_mac dv = nm_mac (v_dev x) → At4 d c f (with_dev dv x) s' → Q () s') →
  wp (e1000e_hw_reset fuel) Q s.
Proof using Type.
  intros Hmap Ht Ha HQ. unfold e1000e_hw_reset.
  assert (∀ r, (0 <=? r) && (r <? 0x20000) = true → 0 <= r < 0x20000) as R by (intros r; rewrite andb_true_iff; lia).
  destruct (Ht 100 ltac:(lia)), (Ht 50 ltac:(lia)).
  wstep. eapply wp_ew32; [by apply R|done|exact Ha|]. clear s Ha. intros s Ha.
  wstep. eapply wp_ew32; [by apply R|done|exact Ha|]. clear s Ha. intros s Ha.
  wstep. eapply wp_ew32; [by apply R|done|exact Ha|]. clear s Ha. intros s Ha.
  wstep. unfold flush. wstep. eapply wp_er32; [by apply R|done|exact Ha|]. clear s Ha. intros s Ha. wstep.
  wstep. eapply wp_delay; [done|done|exact Ha|]. clear s Ha. intros s Ha.
  wstep. eapply wp_er32; [by apply R|done|exact Ha|]. clear s Ha. intros s Ha.
  wstep. eapply wp_ew32; [by apply R|done|exact Ha|]. clear s Ha. intros s Ha.
  wstep. eapply wp_delay; [done|done|exact Ha|]. clear s Ha. intros s Ha.
  wstep. eapply wp_er32; [by apply R|done|exact Ha|]. clear s Ha. intros s Ha.
  wstep. eapply wp_ew32; [by apply R|done|exact Ha|]. clear s Ha. intros s Ha.
  wstep. eapply wp_ew32; [by apply R|done|exact Ha|]. clear s Ha. intros s Ha.
  wstep. eapply wp_er32; [by apply R|done|exact Ha|]. clear s Ha. intros s Ha. wstep.
  cbn [v_dev with_dev v_base v_isr v_msr] in Ha. eapply HQ; [| |exact Ha].
  - by rewrite nm_ims_rd, nm_imc.
  - by repeat first [rewrite nm_mac_rd | rewrite nm_mac_wr by done].
Qed.

Lemma wp_mac d c f x s Q :
  mapped d f → At4 d c f x s →
  (∀ dv s', nm_ims dv = nm_ims (v_dev x) → nm_mac dv = nm_mac (v_dev x) →
     At4 (set_mac (nm_mac (v_dev x)) (nm_mac (v_dev x)) d) c f (with_dev dv x) s' → Q () s') →
  wp e1000e_read_mac_addr Q s.
Proof using Type.
  intros Hmap Ha HQ. unfold e1000e_read_mac_addr.
  wstep. eapply wp_er32; [by vm_compute|done|exact Ha|]. clear s Ha. intros s Ha.
  wstep. eapply wp_er32; [by vm_compute|done|exact Ha|]. clear s Ha. intros s Ha. cbn zeta.
  cbn [v_dev with_dev v_base v_isr v_msr] in *. rewrite nm_mac_lo, nm_mac_hi, nm_mac_rd, take_drop.
  eapply wp_set_drv; [exact Ha|]. clear s Ha. intros s Ha. eapply HQ; [| |exact Ha].
  - by rewrite !nm_ims_rd.
  - by rewrite !nm_mac_rd.
Qed.

(** ** The MSI capability *)

(** The offset that the search finds in the list of capabilities, of which every
    entry is at a multiple of four. *)
Fixpoint msi_cap_at (n : nat) (f : store) (b off : Z) : option Z :=
  match n with
  | O => None
  | S n' =>
      if off mod 4 =? 0 then
        let v := rd f b off 4 in
        if PCI_CAP_ID_MSI =? Z.land v 0xff then Some off
        else msi_cap_at n' f b (Z.shiftr (Z.land v 0xff00) 8)
      else None
  end.

(** The state of PciMsi. *)
Definition At3 (c : msi) (f : store) (x : view Dv) (s : msi_state St) : Prop :=
  cur_msi s = c ∧ At nm_view m f x (util s).

Lemma wp_msi_read off n c f x s Q :
  field_ok nm_bdf off n → At3 c f x s → (∀ s', At3 c f x s' → Q (rd f nm_bdf off n) s') →
  wp (PciMsi.read_cfg nm_bdf off n) Q s.
Proof using Type.
  intros Hf (Hc & Ha) HQ. unfold PciMsi.read_cfg, PciMsi.on_util. wstep.
  eapply (read_cfg_at nm_view); [exact Hf|exact Ha|]. intros u Hu. by apply HQ.
Qed.

Lemma word_ok off : 0 <= off < 256 → off mod 4 = 0 → field_ok nm_bdf off 4.
Proof using Type.
  intros Ho Hm. pose proof nm_bdf_range. split; [|tauto]. split; [done|]. split; [done|].
  split; [dlia|]. split; [dlia|]. by left.
Qed.

Lemma probe_loop_at n off c f x o s Q :
  0 <= off < 256 → At3 c f x s → msi_cap_at n f nm_bdf off = Some o →
  (∀ s', 0 <= o < 256 → At3 c f x s' → Q (Some o) s') →
  wp (probe_loop n nm_bdf off (rd f nm_bdf off 4)) Q s.
Proof using Type.
  revert off s. induction n as [|n IH]; intros off s Ho Ha Hs HQ; cbn [probe_loop msi_cap_at] in *; [done|].
  destruct (Z.eqb_spec (off mod 4) 0) as [Hm|]; [|done]. cbn zeta in Hs.
  destruct (PCI_CAP_ID_MSI =? _); [injection Hs as <-; wstep; by apply HQ|].
  pose proof (rd_range f nm_bdf off 4) as Hv. change (2 ^ (8 * 4%nat)) with (2 ^ 32) in Hv.
  pose proof (next_range _ Hv) as Hn.
  set (next := Z.shiftr (Z.land (rd f nm_bdf off 4) 0xff00) 8) in *.
  assert (next mod 4 = 0) as Hm'.
  { destruct n as [|n]; [done|]. cbn [msi_cap_at] in Hs. by destruct (Z.eqb_spec (next mod 4) 0). }
  wstep. eapply wp_msi_read; [by apply word_ok|exact Ha|]. intros s' Ha'. by apply IH.
Qed.

Lemma wp_msi_probe d c f x o s Q :
  bdf d = nm_bdf → msi_set d = true → At4 d c f x s →
  msi_cap_at 64 f nm_bdf (rd f nm_bdf PCI_CAPABILITY_LIST 1) = Some o →
  (∀ s', At4 d (Msi o (msi_cap c)) f x s' → Q 0 s') → wp e1000e_msi_probe Q s.
Proof using Type.
  intros Hb Hms (Hd & Hc & Ha) Ho HQ. pose proof nm_bdf_range as Hr. unfold e1000e_msi_probe. wstep. wstep.
  unfold on_msi. wstep. rewrite Hd. unfold pdev, pci_msi_probe, deref. rewrite Hb, Hms. wstep. wstep. cbn [m_bdf].
  assert (At3 c f x (msis s)) as H3 by by split. clear Hc Ha. revert H3. generalize (msis s) as t. intros t Ha.
  wstep. eapply wp_msi_read; [by apply field0|exact Ha|]. clear t Ha. intros t Ha.
  pose proof (rd_range f nm_bdf PCI_CAPABILITY_LIST 1) as Hoff. change (2 ^ (8 * 1%nat)) with 256 in Hoff.
  set (off := rd f nm_bdf PCI_CAPABILITY_LIST 1) in *.
  assert (off mod 4 = 0) as Hm by (cbn [msi_cap_at] in Ho; by destruct (Z.eqb_spec (off mod 4) 0)).
  wstep. eapply wp_msi_read; [by apply word_ok|exact Ha|]. clear t Ha. intros t Ha.
  wstep. eapply probe_loop_at; [done|exact Ha|exact Ho|]. clear t Ha. intros t Hor [Hc Ha].
  unfold deref_msi, set_cur. cbn [has_msi]. wsteps. apply HQ. split; [done|].
  split; [cbn; by rewrite wrap_small, Hc by lia|done].
Qed.

(** ** The whole initialization *)

Lemma wr_bar f off n v : off / 4 ≠ 4 → wr f nm_bdf off n v nm_bdf 4 = f nm_bdf 4.
Proof using Type. intros H4. unfold wr. rewrite Z.eqb_refl, (proj2 (Z.eqb_neq 4 _)) by done. done. Qed.

Lemma decodes_wr f off n v :
  off / 4 ≠ 1 → off / 4 ≠ 4 → decodes f nm_bdf → decodes (wr f nm_bdf off n v) nm_bdf.
Proof using Type.
  intros H1 H4 (D1 & D2). unfold decodes. rewrite wr_bar by done.
  rewrite rd_wr_other; [done|]. right. left. change (PCI_COMMAND / 4) with 1. done.
Qed.

(** The other registers are as before the probe, when the region is sized. *)
Lemma size_probed f : region_size (probed f nm_bdf) nm_bdf = region_size f nm_bdf.
Proof using Type.
  unfold region_size, probed. rewrite !rd_wr. by rewrite rd_wr_other by (right; left; by vm_compute).
Qed.

(** The driver after [e1000e_init]. *)
Definition ready_driver (f : store) (mac : list Z) (d : driver) : driver :=
  Driver true nm_bdf true (f nm_bdf 4) (u32 (f nm_bdf 4 + region_size f nm_bdf)) 1 mac mac
    (int_func_t d) (int_cnt d) (icr_crt d) (nm_freq * 1000).

Lemma read_bar f c d x s : At4 d c f x s → rd f nm_bdf PCI_BASE_ADDRESS_0 4 = f nm_bdf 4.
Proof using Type.
  intros (_ & _ & _ & _ & Hh & _). pose proof nm_bdf_range as Hb. unfold rd.
  change (PCI_BASE_ADDRESS_0 / 4) with 4. change (PCI_BASE_ADDRESS_0 mod 4) with 0.
  apply lane_full. rewrite <- (Hh nm_bdf 4) by lia. apply reg_range.
Qed.

Lemma wp_idt d c f x s Q :
  At4 d c f x s → (∀ s', At4 d c f x s' → Q () s') → wp (on_machine setup_idt) Q s.
Proof using Type.
  intros Ha HQ. apply wp_machine. eapply wp_exact; [apply nm_setup_idt|]. apply HQ.
  eapply At4_machine; [exact Ha|intros; apply nm_reg_idt|]. rewrite nm_view_idt. apply Ha.
Qed.

(** The object for message signalled interrupts, created for the first time. *)
Lemma wp_msi_create d c f x s Q :
  At4 d c f x s → (∀ r s', At4 d c f x s' → Q r s') → wp (on_msi (pci_msi_init (pdev d))) Q s.
Proof using Type.
  intros Ha HQ. unfold on_msi, pci_msi_init, pdev, deref, pci_msi_create. wsteps.
  apply HQ. by destruct s.
Qed.

(** The region is where its register says. *)
Lemma wp_resource d c f x s Q :
  bdf d = nm_bdf → decodes f nm_bdf → At4 d c f x s → (∀ s', At4 d c f x s' → Q (f nm_bdf 4) s') →
  wp (pci_resource_start 0) Q s.
Proof using Type.
  intros Hb (_ & Hd & _) Ha HQ. unfold pci_resource_start. change (PCI_PCIR_BAR 0) with PCI_BASE_ADDRESS_0.
  wstep. eapply wp_cfg_read; [rewrite Hb; apply field0; [apply nm_bdf_range|done]|exact Ha|].
  clear s Ha. intros s Ha. rewrite Hb, (read_bar _ _ _ _ _ Ha), (proj2 (Z.eqb_neq _ _)) by lia. wstep. by apply HQ.
Qed.

Lemma wp_size d c f x s Q :
  bdf d = nm_bdf → plain nm_bdf → decodes f nm_bdf → At4 d c f x s →
  (∀ s', At4 d c f x s' → Q (region_size f nm_bdf) s') →
  wp (on_msi (PciMsi.on_util (pci_pdev_get_bar_size (bdf d) 0))) Q s.
Proof using Type.
  intros Hb Hp Hd (Ed & Ec & Ha) HQ. unfold on_msi, PciMsi.on_util. wstep. wstep. rewrite Hb.
  eapply wp_bar_size; [exact Hp|exact Hd|exact Ha|]. intros u Hu. by apply HQ.
Qed.

End Net.

(** ** A machine

    The configuration space of ConfRegs, the local APIC of E1000e, a counter, and a
    device with the masked interrupts and the two words of its address. *)

Record nic := Nic { nic_ims : Z; nic_lo : Z; nic_hi : Z }.

Record board := Board { bd_bus : bus; bd_lapic : mach; bd_tsc : N; bd_nic : nic }.

Definition on_bus {A} : prog bus A → prog board A := zoom bd_bus (λ b s, Board b (bd_lapic s) (bd_tsc s) (bd_nic s)).
Definition on_lapic {A} : prog mach A → prog board A := zoom bd_lapic (λ l s, Board (bd_bus s) l (bd_tsc s) (bd_nic s)).
Definition board_tick (s : board) : board := Board (bd_bus s) (bd_lapic s) (bd_tsc s + 2 ^ 26) (bd_nic s).
Definition board_nic (d : nic) (s : board) : board := Board (bd_bus s) (bd_lapic s) (bd_tsc s) d.

(** Every bit can be written but those of the identifiers and of the sizes; the
    region has 128 KiB; no bit is cleared by a one. *)
Definition board_rw : store := λ _ r, if r =? 0 then 0 else if r =? 4 then 0xfffe0000 else 0xffffffff.
Definition board_w1c : store := λ _ _, 0.

Definition board_bdf : Z := 0xFE.

Definition nic_val (d : nic) (r : Z) : Z :=
  if r =? E1000_RAL 0 then nic_lo d else if r =? E1000_RAH 0 then nic_hi d else 0.
Definition nic_wr (r v : Z) (d : nic) : nic :=
  if r =? E1000_IMC then Nic (Z.ldiff (nic_ims d) v) (nic_lo d) (nic_hi d)
  else if r =? E1000_IMS then Nic (Z.lor (nic_ims d) v) (nic_lo d) (nic_hi d)
  else if r =? E1000_RAL 0 then Nic (nic_ims d) v (nic_hi d)
  else if r =? E1000_RAH 0 then Nic (nic_ims d) (nic_lo d) v
  else d.

(** The region, when the device decodes it. *)
Definition in_region (s : board) (a : Z) : option Z :=
  let f := bus_reg (bd_bus s) in
  if bit_set (lane (f board_bdf 1) 0 2) PCI_COMMAND_MEMORY && (4096 <=? f board_bdf 4)
     && (f board_bdf 4 <=? a) && (a <? f board_bdf 4 + 0x20000) && (a <? bus_ecam)
  then Some (a - f board_bdf 4) else None.

#[local] Instance board_io : PortIO board := {|
  io_out n v p := on_bus (bus_out board_rw board_w1c n v p);
  io_in n p := on_bus (bus_in n p);
  mm_read n a s := match in_region s a with
                   | Some r => Ret (nic_val (bd_nic s) r, s)
                   | None => on_bus (bus_mm_read n a) s
                   end;
  mm_write n v a s := match in_region s a with
                      | Some r => Ret ((), board_nic (nic_wr r v (bd_nic s)) s)
                      | None => on_bus (bus_mm_write board_rw board_w1c n v a) s
                      end;
|}.

#[local] Instance board_cpu : Cpu board := {|
  rdmsr i := on_lapic (rdmsr i);
  wrmsr i v := on_lapic (wrmsr i v);
  cpuid_ecx l := on_lapic (cpuid_ecx l);
  read_cr8 := on_lapic read_cr8;
  write_cr8 v := on_lapic (write_cr8 v);
|}.

#[local] Instance board_irq : IrqOps board := {| handle_irq v f := mret (); irq_enable := mret () |}.

#[local] Instance board_clock : Clock board := {|
  rdtsc s := Ret (Z.of_N (bd_tsc s), board_tick s);
  cpuid_eax l := mret 2100;
|}.

#[local] Instance board_env : E1000Env board := {|
  setup_idt := mret ();
  call_int f a := on_lapic (call_int f a);
  apic_id := mret 0;
|}.

Definition with_bus (b : bus) (s : board) : board := Board b (bd_lapic s) (bd_tsc s) (bd_nic s).
Definition with_lapic (l : mach) (s : board) : board := Board (bd_bus s) l (bd_tsc s) (bd_nic s).

#[local] Program Instance board_conf1 : Conf1Laws board := {|
  cf_addr s := b_latch (bd_bus s);
  cf_latch v s := with_bus (bus_latch v (bd_bus s)) s;
  cf_val s a o n := bus_val (bd_bus s) a o n;
  cf_put s a o n v := with_bus (bus_put board_rw board_w1c (bd_bus s) a o n v) s;
|}.
Next Obligation. done. Qed.
Next Obligation. intros n o s Ho. cbn. unfold on_bus, zoom. rewrite bus_in_data by done. by destruct s. Qed.
Next Obligation. intros n v o s Ho. cbn. unfold on_bus, zoom. by rewrite bus_out_data. Qed.
Next Obligation. done. Qed.
Next Obligation. done. Qed.
Next Obligation. intros. apply bus_val_range. Qed.

(** The configuration space is above the region. *)
Lemma region_ecam s d off n :
  access_ok d off (off mod 4) n → in_region s (mmcfg_off_to_address bus_ecam d off) = None.
Proof.
  intros (Hd & Ho & _).
  assert (bus_ecam <= mmcfg_off_to_address bus_ecam d off) as H.
  { unfold mmcfg_off_to_address. rewrite Z.shiftl_mul_pow2 by lia.
    rewrite (wrap_small 32 (d * 2 ^ 12)) by lia. rewrite lor_add by lia.
    rewrite wrap_small by (unfold bus_ecam; lia). unfold bus_ecam. lia. }
  unfold in_region. by rewrite (proj2 (Z.ltb_ge _ _) H), andb_false_r.
Qed.

#[local] Program Instance board_laws : RegLaws board := {|
  reg s := bus_reg (bd_bus s); rw_mask := board_rw; w1c_mask := board_w1c; ecam := bus_ecam;
  ecam_write s d off n v := with_bus (bus_set board_rw board_w1c (bd_bus s) d off (off mod 4) n v) s;
|}.
Next Obligation. intros. apply wrap_range. lia. Qed.
Next Obligation. done. Qed.
Next Obligation. intros s. apply (reg_cf_val (RegLaws := bus_laws board_rw board_w1c) (bd_bus s)). Qed.
Next Obligation. intros s. apply (reg_cf_put (RegLaws := bus_laws board_rw board_w1c) (bd_bus s)). Qed.
Next Obligation. done. Qed.
Next Obligation.
  intros s d off n Hok. cbn [mm_read board_io]. rewrite (region_ecam _ _ _ _ Hok). unfold on_bus, zoom.
  pose proof (reg_mm_read (RegLaws := bus_laws board_rw board_w1c) (bd_bus s) d off n Hok) as E. cbn [mm_read bus_io ecam reg bus_laws] in E.
  rewrite E. by destruct s.
Qed.
Next Obligation.
  intros s d off n v Hok. cbn [mm_write board_io]. rewrite (region_ecam _ _ _ _ Hok). unfold on_bus, zoom.
  pose proof (reg_mm_write (RegLaws := bus_laws board_rw board_w1c) (bd_bus s) d off n v Hok) as E. cbn [mm_write bus_io ecam ecam_write bus_laws] in E.
  by rewrite E.
Qed.
Next Obligation. intros s. apply (reg_ecam_write (RegLaws := bus_laws board_rw board_w1c) (bd_bus s)). Qed.

Lemma on_lapic_ret {A} (p : prog mach A) s a l :
  p (bd_lapic s) = Ret (a, l) → on_lapic p s = Ret (a, with_lapic l s).
Proof. intros E. unfold on_lapic, zoom. by rewrite E. Qed.

Lemma on_lapic_same {A} (p : prog mach A) s a :
  p (bd_lapic s) = Ret (a, bd_lapic s) → on_lapic p s = Ret (a, s).
Proof. intros E. rewrite (on_lapic_ret _ _ _ _ E). by destruct s. Qed.

#[local] Program Instance board_x2 : X2Laws board := {|
  x2_base s := x2_base (bd_lapic s); x2_isr s := x2_isr (bd_lapic s); x2_msr s := x2_msr (bd_lapic s);
  x2_eoi s := with_lapic (x2_eoi (bd_lapic s)) s; x2_put r v s := with_lapic (x2_put r v (bd_lapic s)) s;
|}.
Next Obligation. intros s. apply on_lapic_same, x2_rd_base. Qed.
Next Obligation. intros s Hm. by apply on_lapic_same, x2_rd_sivr. Qed.
Next Obligation. intros s k Hm Hk. by apply on_lapic_same, x2_rd_isr. Qed.
Next Obligation. intros s Hm. by apply on_lapic_ret, x2_wr_eoi. Qed.
Next Obligation. intros s r Hm Hr. by apply on_lapic_ret, x2_wr_lvt. Qed.
Next Obligation. intros s v Hm Hv. by apply on_lapic_ret, x2_wr_sivr. Qed.
Next Obligation. intros s r Hm Hr. cbn [rdmsr board_cpu]. unfold on_lapic, zoom. by rewrite (x2_gp (bd_lapic s) r). Qed.
Next Obligation. intros s. apply x2_isr_range. Qed.
Next Obligation. intros s. apply (x2_isr_eoi (bd_lapic s)). Qed.
Next Obligation. intros r v s. apply (x2_isr_put r v (bd_lapic s)). Qed.
Next Obligation. intros s r. apply (x2_msr_eoi (bd_lapic s)). Qed.
Next Obligation. intros r v s r'. apply (x2_msr_put r v (bd_lapic s)). Qed.
Next Obligation. intros s. apply (x2_base_eoi (bd_lapic s)). Qed.
Next Obligation. intros r v s. apply (x2_base_put r v (bd_lapic s)). Qed.

#[local] Program Instance board_ck : ClockLaws board := {|
  ck_tsc s := Z.of_N (bd_tsc s); ck_tick := board_tick; ck_step := 2 ^ 26;
|}.
Next Obligation. done. Qed.
Next Obligation. done. Qed.
Next Obligation. intros s. cbn. lia. Qed.

Lemma in_region_decodes s r :
  decodes (bus_reg (bd_bus s)) board_bdf → 0 <= r < 0x20000 →
  in_region s (u32 (bus_reg (bd_bus s) board_bdf 4 + r)) = Some r.
Proof.
  intros (H1 & H2 & H3 & _) Hr. unfold rd in H1. change (PCI_COMMAND / 4) with 1 in H1.
  change (PCI_COMMAND mod 4) with 0 in H1. cbn [ecam board_laws] in H3. unfold bus_ecam in H3.
  unfold in_region. rewrite H1. rewrite wrap_small by lia.
  set (b := bus_reg (bd_bus s) board_bdf 4) in *. unfold bus_ecam.
  rewrite (proj2 (Z.leb_le 4096 b)), (proj2 (Z.leb_le b (b + r))), !(proj2 (Z.ltb_lt (b + r) _)) by lia.
  cbn [andb]. f_equal. lia.
Qed.

Lemma bytes_length n w : length (bytes_of_word n w) = n.
Proof. unfold bytes_of_word. by rewrite length_fmap, length_seq. Qed.

#[local] Program Instance board_net : NetMachine board nic := {|
  nm_bdf := board_bdf;
  nm_dev := bd_nic; nm_val := nic_val; nm_rd r d := d; nm_wr := nic_wr; nm_set := board_nic;
  nm_ims d := u32 (nic_ims d); nm_mac d := bytes_of_word 4 (nic_lo d) ++ bytes_of_word 2 (nic_hi d);
  nm_freq := 2100; nm_idt s := s;
|}.
Next Obligation. done. Qed.
Next Obligation. intros s. cbn. lia. Qed.
Next Obligation. done. Qed.
Next Obligation. done. Qed.
Next Obligation. done. Qed.
Next Obligation.
  intros a s Ha. cbn [mm_read board_io].
  assert (in_region s a = None) as ->; [|eexists; unfold on_bus, zoom, bus_mm_read, gets; by destruct s].
  unfold in_region. destruct (Z.leb_spec 4096 (bus_reg (bd_bus s) board_bdf 4)); [|by rewrite andb_false_r].
  by rewrite (proj2 (Z.leb_gt _ a)), andb_false_r by lia.
Qed.
Next Obligation.
  intros s r Hd Hr. cbn [mm_read board_io reg board_laws]. rewrite in_region_decodes by done. by destruct s.
Qed.
Next Obligation. intros s r v Hd Hr. cbn [mm_write board_io reg board_laws]. by rewrite in_region_decodes. Qed.
Next Obligation.
  intros d. unfold nic_wr. cbn [Z.eqb Pos.eqb E1000_IMC nic_ims]. change 0xffffffff with (Z.ones 32).
  apply Z.bits_inj'. intros i Hi. rewrite testbit_wrap, Z.ldiff_spec, Z.testbit_ones_nonneg, Z.bits_0 by lia.
  by destruct (i <? 32), (Z.testbit _ i).
Qed.
Next Obligation. done. Qed.
Next Obligation. done. Qed.
Next Obligation.
  intros r v d H1%Z.eqb_neq H2%Z.eqb_neq. unfold nic_wr. rewrite H1, H2.
  by destruct (r =? E1000_IMC), (r =? E1000_IMS).
Qed.
Next Obligation. intros d. symmetry. by apply (take_app_length' (bytes_of_word 4 (nic_lo d))). Qed.
Next Obligation. intros d. symmetry. by apply (drop_app_length' (bytes_of_word 4 (nic_lo d))). Qed.
Next Obligation. done. Qed.
Next Obligation. done. Qed.
Next Obligation. done. Qed.
Next Obligation. done. Qed.
Next Obligation. done. Qed.
Next Obligation. done. Qed.
Next Obligation. done. Qed.
Next Obligation. done. Qed.
Next Obligation. done. Qed.
Next Obligation. done. Qed.
Next Obligation. split; done. Qed.

(** The controller at 00:1f.6 with the capabilities at 0xc8 and 0xd0, its region at
    0xdf200000; two interrupts are in service. *)
Definition board_regs : list (Z * Z) :=
  [(bus_key board_bdf 0, 0x156f8086); (bus_key board_bdf 1, 0x00100002); (bus_key board_bdf 4, 0xdf200000);
   (bus_key board_bdf 13, 0xc8); (bus_key board_bdf 15, 0x0100); (bus_key board_bdf 50, 0xd001);
   (bus_key board_bdf 51, 0); (bus_key board_bdf 52, 0x0080e005); (bus_key board_bdf 53, 0)].
Definition board0 : board :=
  Board (Bus 0 (list_to_map board_regs) []) (Mach 0xfee00d00 (2 ^ 0x31 + 2 ^ 0xfd) (λ _, 0) []) 1000
    (Nic 5 0x33221100 0x5544).
Definition board_state : e1000_state board := EState driver0 (MState (Msi 0 (Cap 0 0 0 0)) (UState 0 board0)).

Lemma board_at : At4 0 driver0 (Msi 0 (Cap 0 0 0 0)) (reg board0) (nm_view board0) board_state.
Proof. split; [done|]. split; [done|]. split; [by left|]. done. Qed.

Lemma board_decodes : decodes (reg board0) board_bdf.
Proof. repeat split; by vm_compute. Qed.

Lemma board_answers : answers (reg board0) board_bdf.
Proof. repeat split; by vm_compute. Qed.

